(* ===== verification/_CoqProject ===== *)
-Q . S2P
Prelude.v
ErrorCode.v
MemoryMap.v
MemoryManager.v
FrameAllocator.v
Paging.v
AddressSpace.v
Message.v
Keyboard.v
Register.v
Newlib.v
Task.v
Timer.v
Graphics.v
FrameBuffer.v
Font.v
Window.v
Layer.v
SafeDesktop.v
Console.v
SafeConsole.v
File.v
Fat.v
FatFile.v
Segment.v
Interrupt.v
Assembly.v
AssemblyFacts.v
Pci.v
Xhci.v
Mouse.v
AppLoad.v
LoadFacts.v
LifeFacts.v
Acpi.v
Pipe.v
Terminal.v
Logger.v
Kernel.v
ExecuteLine.v
Syscall.v
TerminalText.v
MainLoop.v
Startup.v
StartupFacts.v
AppRuntime.v
AppText.v
AppTextFacts.v
AppDraw.v
AppCube.v
AppBlocks.v
AppView.v
AppDrawFacts.v
AppViewFacts.v
Boot.v
BootFacts.v
