(* ===== verification/Prelude.v ===== *)
(** * min-os: a verification library for the boot loader, the kernel and the applications

    min-os is a small operating system for x86-64: a UEFI boot loader, a kernel
    with paging, a priority scheduler, windows, a FAT32 volume, terminals, system
    calls and drivers for PCI, xHCI and ACPI, and some applications.  This
    library models its C and C++ code, the loader under src/bootloader, the kernel
    under src/kernel and the programs under src/apps, as Rocq functions and proves
    what the parts promise.

    ** How the code is modelled

    A C++ function is a function on the state it reads and writes, in the
    monad [outcome] below: [Done] is a return, [Undef] undefined behaviour (an
    index outside an array, a null or dangling pointer, reading a value that
    was never set), [NoFuel] a loop that did not end within the fuel it was
    given.  Theorems of the form [∃ r, f x = Done r ∧ ...] therefore state that
    the code returns, without undefined behaviour, and what it returns.
    Integers are [Z] with the wrap-around of their width written out ([u8] to
    [u64], [i32]) wherever a value may leave it; coordinates on the screen are
    unbounded.  Objects that are shared through pointers (windows, layers,
    terminals, open files, tasks) live in stores and are named by addresses or
    ids; the address a [new] returns is a parameter or a counter.  Names are
    the source's; a member [x_] of a class is a field [x_] of a record.

    ** Files and what they model

    Foundations.
    - Prelude.v: outcomes, machine integers, arrays, loops, tactics, hints.
    - ErrorCode.v: error.hpp.
    Memory.
    - MemoryMap.v: memory_map.hpp, with the in-place sort of memory_manager.cpp.
    - MemoryManager.v: memory_manager.{hpp,cpp} and [sbrk] of newlib_support.c.
    - FrameAllocator.v: the interface through which paging takes frames, with its
      laws, proved for the bitmap allocator.
    - Paging.v: paging.{hpp,cpp}, against that interface; AddressSpace.v: the tables
      that belong to a program, as an invariant (no source of its own).
    - Segment.v, Interrupt.v: segment.*, x86_descriptor.hpp, interrupt.*.
    Tasks.
    - Message.v, Task.v, Timer.v: message.hpp, task.*, timer.*; the priority queue
      of timers is an interface with the laws of [std::priority_queue].
    - Assembly.v: asmfunc.asm, the instructions and the machine that they work on;
      AssemblyFacts.v: what the routines do for the C++ code that calls them.
    - Pipe.v: [PipeDescriptor] of terminal.*, over an interface for what the other
      tasks do while a task sleeps.
    Pictures.
    - Graphics.v, FrameBuffer.v, Font.v, Window.v, Layer.v, Console.v, Mouse.v: the
      files of the same names.  [PixelWriter] with its laws is the interface
      between drawing code and what is drawn on; frame buffers, windows and the
      area inside a window's frame implement it.
    - SafeDesktop.v, SafeConsole.v: no source of their own; that drawing through
      windows and layers and printing on the console always return and keep them
      sound.
    Files.
    - File.v: file.*, an interface of four calls; Fat.v: fat.* but for the
      descriptor; FatFile.v: [fat::FileDescriptor] and [LoadFile].
    Devices.
    - Pci.v, Xhci.v (with usb.cpp, usb_device.cpp and ehci.cpp), Acpi.v (with the
      timer calibration of timer.cpp), Register.v (register.hpp), Keyboard.v
      (keyboard.{hpp,cpp}), Newlib.v (newlib_support.c but for [sbrk], libcxx_support.cpp).
    Terminals and system calls.
    - AppLoad.v: argument vectors and the ELF loader of terminal.cpp, elf.hpp;
      LoadFacts.v: the page tables and the image that the loader builds;
      LifeFacts.v: a program's memory from its loading to its release.
    - Terminal.v: text, keys and history of terminal.cpp; Logger.v: logger.*;
      Kernel.v: the record of the kernel's globals, and files, terminals and pipes
      behind one descriptor; ExecuteLine.v: the command line and the task of a
      terminal; Syscall.v: syscall.cpp, msr.hpp, app_event.hpp.
    - TerminalText.v: facts about Terminal.v and ExecuteLine.v.
    From power-on to the event loop.
    - Boot.v, BootFacts.v: src/bootloader/MinLoaderPkg/Main.c and what it hands over.
    - MainLoop.v: the windows and the event loop of main.cpp.
    - Startup.v: [KernelMainNewStack] of main.cpp up to the event loop, with the
      initialisation functions it calls; StartupFacts.v: that it gets there.
    Applications.
    - AppRuntime.v: the calls of src/apps/syscall.{h,asm}, newlib_support.c and what
      the applications use of the C library; the kernel of Syscall.v is an instance
      of the interface [AppCalls].
    - AppText.v: rpn, sort, more, cp, grep, readfile, dpage, mmap, timer, large, fault;
      AppTextFacts.v: facts about streams, cp, sort, rpn and the blocks of [sbrk].
    - AppDraw.v: winhello, winkor, paint, stars, lines, eye; AppCube.v: cube;
      AppBlocks.v: blocks; AppView.v: tview and gview; AppDrawFacts.v,
      AppViewFacts.v: what blocks and the viewers show.

    ** How the parts interact

    [Desktop] (Layer.v) holds the layer manager, the windows, the active layer,
    the map from layers to tasks and the task manager: the state that the mouse,
    the terminals, the system calls and the main task share.  [Kernel] (Kernel.v)
    adds the timers, the volume, the page tables with the frame allocator, the
    logger and the stores of terminals and files.  Tasks ask the main task to
    draw by messages; [main_turn] (MainLoop.v) takes one message, calls
    [ProcessLayerMessage] and answers.  [LAPICTimerOnInterrupt] turns expired
    timers into messages and switches tasks.  A terminal runs programs through
    AppLoad.v on page tables of their own; programs come back through Syscall.v.
    An application is a function on a process ([Proc], AppRuntime.v): a system behind
    [AppCalls] and the runtime's static variables; it returns or calls [exit].

    ** What the theorems show

    - The whole main task: for all interleavings of turns of its
      loop and messages from other tasks nothing goes wrong and the invariants of
      windows, layers, buffers and scheduler hold; built on the safety of drawing
      in SafeDesktop.v and on the scheduler's invariant.
    - The way there: the boot loader either stops at an error of the firmware or
      enters the kernel with segments, volume, memory map and frame buffer in place;
      from such a state the kernel's start-up reaches the event loop with the
      invariant of the main task.
    - Scheduler and tasks: the invariant over all sequences of operations, choice
      of the highest level, round robin, the handshake of [Finish] and
      [WaitFinish], mailboxes as queues, expiry of timers.
    - Assembly: a task that was switched away from resumes as it was; the timer
      interrupt is invisible to the code it interrupts; a system call reaches the
      function of its number with its arguments and comes back; a program that is
      called and exits leaves its caller's registers as they were.
    - Memory: first fit, soundness of the bitmap after initialisation, freeing,
      disjoint heap blocks; mappings installed, shared read-only, made private on a
      write, released; the cases of a page fault; the identity mapping; a loaded
      program's page tables show its file's segments and nothing else changes; a
      program's whole run, its stores, faults, demand pages and file mappings
      included, leaves the images, the other tables and the set of used frames as
      they were.
    - Pictures: [Copy] and [Move] as maps of pixels, windows show what was written,
      redrawing a part gives the picture of the whole stack, raising a window, the
      hit test; text is decoded and drawn.
    - Files: chains are extended without touching others, 8.3 names, reading a
      slice, what is written is read back.
    - Devices: the bus scan ends and finds what is reachable; the rings are queues
      between driver and controller; descriptors have the right types; the wait on
      the PM timer ends in time.
    - Terminals: a pipe is a stream; typing refines a line editor; printing follows
      the layout on the grid; argument vectors; errors of the file calls.
    - Applications: cp copies, sort prints the sorted permutation, rpn evaluates
      expressions, the blocks of [sbrk] do not overlap, the game stays in its canvas
      for every script of events, tview shows the lines it should, and gview every
      pixel.
    - Some theorems show defects: places where the code is undefined, loses data or
      does not end.  They are stated as what the code does.

    ** Bounds and fuel

    Loops whose end is not structural take fuel, and theorems give an amount that
    is enough: as many steps as frames, pages, clusters, characters or timers
    there are.  Fixed amounts: 512 entries for a page table's loop; 257 for the
    recursion of [ScanBus], each level of which records a device in an array of
    256; 255 for the list of
    capabilities, whose pointer is a byte; [table_fuel], one step per entry of
    the allocation table that the image can hold; [transfer_fuel], one per
    cluster of a transfer.  Waiting loops ([poll], [poll_port], [term_read_loop],
    [wait_finish], [ReadEvent_loop]) depend on others, so their number of turns
    is an argument, [wait_turns] for those of Kernel.v and after.  The loops of an
    application that read a file or wait for events take fuel; one step more than
    there are bytes or events is enough, as the theorems say.

    ** Parameters

    - [FontLib]: the bitmap font and FreeType.
    - [IoPorts], with [ConfigMechanism] for PCI and [PmTimer] for the PM timer;
      [Machine32], with [OwnedMemory], for device registers and shared memory.
    - [System]: the screen's format, addresses of code, an application's run from
      [CallApp] to its exit, and what other tasks do while one sleeps.
    - [PriorityQueue] and [FrameAllocator], which have implementations here.
    - [Processor]: what a port gives, and the selector that [sysret] loads; [Elements]:
      loads and stores of a register's elements.
    - [Firmware], with [FirmwareLaws], for the services of UEFI; the text of the
      loader's messages.
    - [StartupLib]: whether FreeType starts, and what the USB drivers log meanwhile.
    - [AppCalls], with [FileLaws], [PageLaws] and [ScreenLaws] for what programs rely
      on; [AppMemory]; [Strerror]; [LibM], with [TrigLaws]; [ImageDecoder]; regular
      expressions, [getopt], random numbers and whether [realloc] finds memory are
      arguments of the programs that use them.
    Each theorem over such a parameter has an instance where it is applied.

    ** Not modelled

    - The composition of the assembly routines with the C++ code: there, what is
      asked of them is a result or a parameter, and here the C++ code between two
      parts of a routine is any code that keeps to the calling convention.  The
      checks that the processor makes of selectors and descriptors, and caches.
    - Interrupts between any two instructions: interleavings are those of whole
      operations, as [cli] and [sti] make them.
    - The memory of an application in the system calls: a pointer argument is what it
      points to.  In LifeFacts.v a program's own stores stay in the half of the
      addresses that is its own; two lemmas there show what a store elsewhere, and a
      system call's store to a shared page, would do.
    - Log lines of the drivers and of the ACPI checks; formatting in general.
      Lines that the start-up, the terminal, the system calls, the main task and the
      applications print are part of the model, with the conversions they use.
    - The image decoder stb_image.h, third-party code; build scripts and tools; loops
      that only halt ([TaskIdle], [_exit], [__cxa_pure_virtual]). *)
From stdpp Require Export base numbers list strings fin_maps gmap.
From Stdlib Require Export ZArith Lia.
From Stdlib Require Import Btauto.

#[export] Set Default Proof Using "Type".

Declare Scope minos_scope.
Delimit Scope minos_scope with minos.
#[global] Open Scope Z_scope.

(** ** Outcomes

    [Done a]: the C++ code returns [a].  [Undef]: it reaches undefined
    behaviour of the language (an index outside an array, a null pointer, an
    empty [front()]).  [NoFuel]: the fuel given to a loop ran out; theorems
    prove that this does not happen. *)
Inductive outcome (A : Type) : Type :=
| Done (a : A)
| Undef
| NoFuel.
Arguments Done {A} a.
Arguments Undef {A}.
Arguments NoFuel {A}.

#[export] Instance outcome_ret : MRet outcome := fun A a => Done a.
#[export] Instance outcome_bind : MBind outcome := fun A B f m =>
  match m with
  | Done a => f a
  | Undef => Undef
  | NoFuel => NoFuel
  end.

#[export] Instance outcome_eq_dec {A} `{EqDecision A} : EqDecision (outcome A).
Proof. solve_decision. Defined.

Definition of_option {A} (o : option A) : outcome A :=
  match o with
  | Some a => Done a
  | None => Undef
  end.

Lemma bind_Done_inv {A B} (m : outcome A) (f : A → outcome B) b :
  m ≫= f = Done b → ∃ a, m = Done a ∧ f a = Done b.
Proof. destruct m; simpl; try done. eauto. Qed.

Lemma of_option_Done {A} (o : option A) a : of_option o = Done a ↔ o = Some a.
Proof. destruct o; simpl; naive_solver. Qed.

(** Splits a hypothesis [m ≫= f = Done b] into its steps. *)
Ltac bind_inv :=
  repeat match goal with
  | H : mbind _ _ = Done _ |- _ =>
      apply bind_Done_inv in H; destruct H as (? & ? & H)
  | H : of_option _ = Done _ |- _ => apply of_option_Done in H
  | H : Done _ = Done _ |- _ => injection H as H
  | H : mret _ = Done _ |- _ => unfold mret, outcome_ret in H
  end.

(** ** Machine integers *)

(** [wrap w z] is the value of the [w]-bit unsigned integer congruent to [z]. *)
Definition wrap (w z : Z) : Z := z mod 2 ^ w.

(** [swrap w z] is the value of the [w]-bit two's complement integer congruent to [z]. *)
Definition swrap (w z : Z) : Z := (z + 2 ^ (w - 1)) mod 2 ^ w - 2 ^ (w - 1).

Abbreviation u8 := (wrap 8).
Abbreviation u16 := (wrap 16).
Abbreviation u32 := (wrap 32).
Abbreviation u64 := (wrap 64).
Abbreviation i32 := (swrap 32).

Lemma wrap_small w z : 0 ≤ z < 2 ^ w → wrap w z = z.
Proof. apply Z.mod_small. Qed.

Lemma wrap_bound w z : 0 ≤ w → 0 ≤ wrap w z < 2 ^ w.
Proof. intros. apply Z.mod_pos_bound. lia. Qed.

Lemma wrap_wrap w z : 0 ≤ w → wrap w (wrap w z) = wrap w z.
Proof. intros. apply wrap_small, wrap_bound, H. Qed.

Lemma wrap_ones w z : 0 ≤ w → wrap w z = Z.land z (Z.ones w).
Proof. intros. unfold wrap. by rewrite Z.land_ones. Qed.

Lemma swrap_small w z : 1 ≤ w → - 2 ^ (w - 1) ≤ z < 2 ^ (w - 1) → swrap w z = z.
Proof.
  intros Hw Hz. unfold swrap. rewrite Z.mod_small; [lia|].
  replace (2 ^ w) with (2 * 2 ^ (w - 1)); [lia|].
  rewrite <- Z.pow_succ_r by lia. f_equal. lia.
Qed.

(** Case analysis on the boolean comparisons of the goal, then arithmetic. *)
Ltac bool_cases :=
  repeat match goal with
  | |- context [Z.ltb ?a ?b] => destruct (Z.ltb_spec a b)
  | |- context [Z.leb ?a ?b] => destruct (Z.leb_spec a b)
  | |- context [Z.eqb ?a ?b] => destruct (Z.eqb_spec a b)
  end.

(** Closes equations between boolean formulas of comparisons. *)
Ltac bool_lia := bool_cases; simpl; try done; try lia.

(** [lia] with quotients and remainders. *)
Ltac dlia := Z.to_euclidean_division_equations; lia.

(** ** Bits and bit fields *)

Lemma testbit_high w z i : 0 ≤ z < 2 ^ w → w ≤ i → Z.testbit z i = false.
Proof.
  intros Hz Hi. destruct (decide (w < 0)) as [Hneg|].
  - rewrite Z.pow_neg_r in Hz by done. lia.
  - rewrite <- (Z.mod_small z (2 ^ w)) by done. apply Z.mod_pow2_bits_high. lia.
Qed.

Lemma testbit_wrap w z i : 0 ≤ w → 0 ≤ i →
  Z.testbit (wrap w z) i = (i <? w) && Z.testbit z i.
Proof.
  intros. unfold wrap. destruct (Z.ltb_spec i w); simpl.
  - by apply Z.mod_pow2_bits_low.
  - apply Z.mod_pow2_bits_high. lia.
Qed.

Lemma testbit_ones w i : 0 ≤ w → 0 ≤ i → Z.testbit (Z.ones w) i = (i <? w).
Proof.
  intros. destruct (Z.ltb_spec i w).
  - by apply Z.ones_spec_low.
  - apply Z.ones_spec_high. lia.
Qed.

Lemma bounded_by_bits w z :
  0 ≤ w → 0 ≤ z → (∀ i, w ≤ i → Z.testbit z i = false) → 0 ≤ z < 2 ^ w.
Proof.
  intros Hw Hz Hb. split; [done|]. destruct (decide (z = 0)) as [->|]; [lia|].
  apply Z.log2_lt_pow2; [lia|].
  destruct (Z.ltb_spec (Z.log2 z) w); [done|].
  specialize (Hb (Z.log2 z) ltac:(lia)). rewrite Z.bit_log2 in Hb by lia. done.
Qed.

(** A bit field of [len] bits starting at bit [lo]: the C++ bit-field access. *)
Definition field (v lo len : Z) : Z := Z.land (Z.shiftr v lo) (Z.ones len).

(** Assignment of [x] to a bit field: [x] is truncated to the field's width. *)
Definition set_field (v lo len x : Z) : Z :=
  Z.lor (Z.ldiff v (Z.shiftl (Z.ones len) lo)) (Z.shiftl (Z.land x (Z.ones len)) lo).

Lemma field_div v lo len : 0 ≤ lo → 0 ≤ len →
  field v lo len = (v / 2 ^ lo) mod 2 ^ len.
Proof. intros. unfold field. by rewrite Z.land_ones, Z.shiftr_div_pow2. Qed.

Lemma field_bound v lo len : 0 ≤ len → 0 ≤ field v lo len < 2 ^ len.
Proof. intros. unfold field. rewrite Z.land_ones by done. apply Z.mod_pos_bound. lia. Qed.

Lemma testbit_field v lo len i : 0 ≤ lo → 0 ≤ len → 0 ≤ i →
  Z.testbit (field v lo len) i = Z.testbit v (i + lo) && (i <? len).
Proof.
  intros. unfold field. rewrite Z.land_spec, Z.shiftr_spec by done.
  by rewrite testbit_ones.
Qed.

Lemma testbit_set_field v lo len x i : 0 ≤ lo → 0 ≤ len → 0 ≤ i →
  Z.testbit (set_field v lo len x) i =
    if decide (lo ≤ i < lo + len) then Z.testbit x (i - lo) else Z.testbit v i.
Proof.
  intros. unfold set_field.
  rewrite Z.lor_spec, Z.ldiff_spec, !Z.shiftl_spec, Z.land_spec by done.
  destruct (decide (0 ≤ i - lo)).
  - rewrite testbit_ones by lia. destruct (Z.ltb_spec (i - lo) len); case_decide; try lia; btauto.
  - rewrite !(Z.testbit_neg_r _ (i - lo)) by lia. rewrite decide_False by lia. btauto.
Qed.

Lemma field_set_same v lo len x : 0 ≤ lo → 0 ≤ len →
  field (set_field v lo len x) lo len = wrap len x.
Proof.
  intros. apply Z.bits_inj'. intros i Hi.
  rewrite testbit_field, testbit_set_field, testbit_wrap by lia.
  destruct (Z.ltb_spec i len); simpl.
  - rewrite decide_True by lia. by replace (i + lo - lo) with i by lia; rewrite andb_true_r.
  - apply andb_false_r.
Qed.

Lemma field_set_other v lo len x lo' len' : 0 ≤ lo → 0 ≤ len → 0 ≤ lo' → 0 ≤ len' →
  lo' + len' ≤ lo ∨ lo + len ≤ lo' →
  field (set_field v lo len x) lo' len' = field v lo' len'.
Proof.
  intros ???? Hd. apply Z.bits_inj'. intros i Hi.
  rewrite !testbit_field, testbit_set_field by lia.
  destruct (Z.ltb_spec i len'); [|by rewrite !andb_false_r].
  by rewrite decide_False by lia.
Qed.

Lemma set_field_bound w v lo len x : 0 ≤ lo → 0 ≤ len → lo + len ≤ w →
  0 ≤ v < 2 ^ w → 0 ≤ set_field v lo len x < 2 ^ w.
Proof.
  intros ??? Hv. apply bounded_by_bits; [lia| |].
  - unfold set_field. rewrite Z.lor_nonneg. split.
    + apply Z.ldiff_nonneg. lia.
    + apply Z.shiftl_nonneg, Z.land_nonneg. right. rewrite Z.ones_equiv. lia.
  - intros i Hi. rewrite testbit_set_field by lia. rewrite decide_False by lia.
    by apply (testbit_high w).
Qed.

Lemma lor_disjoint_add a b : Z.land a b = 0 → Z.lor a b = a + b.
Proof. intros H. by rewrite Z.add_nocarry_lxor, Z.lxor_lor. Qed.

(** The arithmetic reading of a bit-field assignment. *)
Lemma set_field_arith v lo len x : 0 ≤ lo → 0 ≤ len →
  set_field v lo len x = v + (wrap len x - field v lo len) * 2 ^ lo.
Proof.
  intros Hlo Hlen.
  set (M := Z.shiftl (Z.ones len) lo).
  assert (HM : ∀ i, 0 ≤ i → Z.testbit M i = (lo <=? i) && (i <? lo + len)).
  { intros i Hi. unfold M. rewrite Z.shiftl_spec by done.
    destruct (Z.leb_spec lo i); simpl; [|apply Z.testbit_neg_r; lia].
    rewrite testbit_ones by lia. bool_cases; first [done | lia]. }
  assert (Hsplit : v = Z.ldiff v M + Z.land v M).
  { rewrite <- lor_disjoint_add.
    - symmetry. apply Z.bits_inj'. intros i Hi. rewrite Z.lor_spec, Z.ldiff_spec, Z.land_spec. btauto.
    - apply Z.bits_inj'. intros i Hi. rewrite !Z.land_spec, Z.ldiff_spec, Z.bits_0. btauto. }
  assert (Hland : Z.land v M = field v lo len * 2 ^ lo).
  { rewrite <- Z.shiftl_mul_pow2 by done. apply Z.bits_inj'. intros i Hi.
    rewrite Z.land_spec, HM, Z.shiftl_spec by done.
    destruct (Z.leb_spec lo i); simpl.
    - rewrite testbit_field by lia. replace (i - lo + lo) with i by lia.
      f_equal. bool_cases; first [done | lia].
    - rewrite (Z.testbit_neg_r _ (i - lo)) by lia. apply andb_false_r. }
  assert (Hset : set_field v lo len x = Z.ldiff v M + wrap len x * 2 ^ lo).
  { unfold set_field. fold M. rewrite <- wrap_ones, <- (Z.shiftl_mul_pow2 _ lo) by done.
    apply lor_disjoint_add. apply Z.bits_inj'. intros i Hi.
    rewrite Z.land_spec, Z.ldiff_spec, HM, Z.shiftl_spec, Z.bits_0 by done.
    destruct (Z.leb_spec lo i); simpl; [|rewrite (Z.testbit_neg_r _ (i - lo)) by lia; apply andb_false_r].
    rewrite testbit_wrap by lia. bool_cases; try lia; btauto. }
  rewrite Hset. rewrite Hsplit at 2. rewrite Hland. lia.
Qed.

(** ** Lists *)

(** Exchanging two slots of a list permutes it. *)
Lemma list_swap_permutation {A} (l : list A) i j x y :
  l !! i = Some x → l !! j = Some y → <[j := x]> (<[i := y]> l) ≡ₚ l.
Proof.
  intros Hi Hj.
  assert (i < length l)%nat by eauto using lookup_lt_Some.
  assert (j < length l)%nat by eauto using lookup_lt_Some.
  apply Permutation_inj. rewrite !length_insert. split; [done|].
  exists (λ k, if decide (k = i) then j else if decide (k = j) then i else k). split.
  - intros a b. repeat case_decide; congruence.
  - intros k. repeat case_decide; subst; simplify_eq.
    + destruct (decide (i = j)) as [->|].
      * rewrite list_lookup_insert_eq by (rewrite length_insert; lia). congruence.
      * rewrite list_lookup_insert_ne, list_lookup_insert_eq by done. congruence.
    + rewrite list_lookup_insert_eq by (rewrite length_insert; lia). congruence.
    + rewrite !list_lookup_insert_ne by done. done.
Qed.

Lemma length_filter_fmap {A B} (f : A → B) (P : B → Prop) `{∀ x, Decision (P x)} (l : list A) :
  length (filter P (f <$> l)) = length (filter (λ x, P (f x)) l).
Proof.
  induction l as [|x l IH]; [done|]. rewrite fmap_cons, !filter_cons.
  destruct (decide (P (f x))); cbn [length]; congruence.
Qed.

Lemma length_filter_ext {A} (P Q : A → Prop) `{∀ x, Decision (P x)} `{∀ x, Decision (Q x)} (l : list A) :
  (∀ x, x ∈ l → P x ↔ Q x) → length (filter P l) = length (filter Q l).
Proof.
  intros HPQ. induction l as [|x l IH]; [done|]. rewrite !filter_cons.
  pose proof (HPQ x (list_elem_of_here _ _)).
  assert (length (filter P l) = length (filter Q l)) by (apply IH; eauto using list_elem_of_further).
  repeat case_decide; simpl; tauto || lia.
Qed.

Lemma list_filter_none {A} (P : A → Prop) `{∀ x, Decision (P x)} (l : list A) :
  (∀ x, x ∈ l → ¬ P x) → filter P l = [].
Proof. intros HP. apply elem_of_nil_inv. intros x [Hx Hin]%list_elem_of_filter. by apply (HP x). Qed.

Lemma list_filter_all {A} (P : A → Prop) `{∀ x, Decision (P x)} (l : list A) :
  (∀ x, x ∈ l → P x) → filter P l = l.
Proof.
  induction l as [|x l IH]; intros HP; [done|]. rewrite filter_cons_True by apply HP, list_elem_of_here.
  f_equal. apply IH. intros y Hy. apply HP. by apply list_elem_of_further.
Qed.

(** ** Fixed-size arrays of machine integers

    A zero-initialised C++ array of [n] elements: reading or writing outside it
    is undefined behaviour. *)
Definition arr_in (n i : Z) : bool := (0 <=? i) && (i <? n).

Definition arr_read (m : gmap Z Z) (i : Z) : Z := default 0 (m !! i).

Definition arr_get (n : Z) (m : gmap Z Z) (i : Z) : outcome Z :=
  if arr_in n i then Done (arr_read m i) else Undef.

Definition arr_set (n : Z) (m : gmap Z Z) (i v : Z) : outcome (gmap Z Z) :=
  if arr_in n i then Done (<[i := v]> m) else Undef.

Lemma arr_in_true n i : arr_in n i = true ↔ 0 ≤ i < n.
Proof. unfold arr_in. rewrite andb_true_iff, Z.leb_le, Z.ltb_lt. done. Qed.

Lemma arr_get_in n m i : 0 ≤ i < n → arr_get n m i = Done (arr_read m i).
Proof. intros H%arr_in_true. unfold arr_get. by rewrite H. Qed.

Lemma arr_set_in n m i v : 0 ≤ i < n → arr_set n m i v = Done (<[i := v]> m).
Proof. intros H%arr_in_true. unfold arr_set. by rewrite H. Qed.

Lemma arr_read_set m i j v : arr_read (<[i := v]> m) j = if decide (i = j) then v else arr_read m j.
Proof. unfold arr_read. rewrite lookup_insert. by case_decide. Qed.

Lemma arr_read_empty i : arr_read ∅ i = 0.
Proof. reflexivity. Qed.

(** The characters of a string literal, without its terminating zero. *)
Definition chars (s : string) : list Z := (λ c, Z.of_nat (Ascii.nat_of_ascii c)) <$> String.list_ascii_of_string s.

(** ** Counting loops *)

Fixpoint foldM {A S} (f : A → S → outcome S) (l : list A) (s : S) : outcome S :=
  match l with
  | [] => mret s
  | x :: l => s ← f x s; foldM f l s
  end.

(** [for (int i = lo; i < hi; ++i) s = f(i, s);] *)
Definition for_loop {S} (lo hi : Z) (f : Z → S → outcome S) (s : S) : outcome S :=
  foldM f (seqZ lo (hi - lo)) s.

Lemma for_loop_nil {S} lo hi (f : Z → S → outcome S) s : hi ≤ lo → for_loop lo hi f s = Done s.
Proof. intros. unfold for_loop. by rewrite seqZ_nil by lia. Qed.

Lemma for_loop_cons {S} lo hi (f : Z → S → outcome S) s : lo < hi →
  for_loop lo hi f s = (s ← f lo s; for_loop (lo + 1) hi f s).
Proof.
  intros. unfold for_loop. rewrite seqZ_cons by lia. cbn [foldM].
  by replace (Z.pred (hi - lo)) with (hi - (lo + 1)) by lia.
Qed.

(** The loop rule: an invariant indexed by the counter. *)
Lemma for_loop_inv {S} (I : Z → S → Prop) lo hi (f : Z → S → outcome S) s : lo ≤ hi → I lo s →
  (∀ i s, lo ≤ i < hi → I i s → ∃ s', f i s = Done s' ∧ I (i + 1) s') →
  ∃ s', for_loop lo hi f s = Done s' ∧ I hi s'.
Proof.
  intros Hle. remember (Z.to_nat (hi - lo)) as n eqn:Hn. revert lo s Hle Hn.
  induction n as [|n IH]; intros lo s Hle Hn HI Hstep.
  - assert (lo = hi) as -> by lia. exists s. by rewrite for_loop_nil by lia.
  - rewrite for_loop_cons by lia. destruct (Hstep lo s) as (s1 & -> & HI1); [lia|done|].
    simpl. apply IH; [lia|lia|done|]. intros i s' Hi. apply Hstep. lia.
Qed.

(** ** Automation *)

Create HintDb minos discriminated.
Create Rewrite HintDb minos.
#[export] Hint Constants Opaque : minos.
#[export] Hint Rewrite arr_get_in arr_set_in using lia : minos.
