(* ===== verification/ErrorCode.v ===== *)
(** The error codes of src/kernel/error.hpp and the [WithError] pair that the
    fallible kernel functions return.  An [Error] object also carries the
    file name and line of its [MAKE_ERROR]; they reach only log lines, so an
    error is modelled by its code. *)
From S2P Require Import Prelude.
From stdpp Require Import strings.

(** [Error::Code] *)
Inductive Code : Set :=
| kSuccess
| kFull
| kEmpty
| kNoEnoughMemory
| kIndexOutOfRange
| kHostControllerNotHalted
| kInvalidSlotID
| kPortNotConnected
| kInvalidEndpointNumber
| kTransferRingNotSet
| kAlreadyAllocated
| kNotImplemented
| kInvalidDescriptor
| kBufferTooSmall
| kUnknownDevice
| kNoCorrespondingSetupStage
| kTransferFailed
| kInvalidPhase
| kUnknownXHCISpeedID
| kNoWaiter
| kNoPCIMSI
| kUnknownPixelFormat
| kNoSuchTask
| kInvalidFormat
| kFrameTooSmall
| kInvalidFile
| kIsDirectory
| kNoSuchEntry
| kFreeTypeError
| kLastOfCode.

#[export] Instance Code_eq_dec : EqDecision Code.
Proof. solve_decision. Defined.

(** The enumerator's value. *)
Definition code_value (c : Code) : nat :=
  match c with
  | kSuccess => 0 | kFull => 1 | kEmpty => 2 | kNoEnoughMemory => 3
  | kIndexOutOfRange => 4 | kHostControllerNotHalted => 5 | kInvalidSlotID => 6
  | kPortNotConnected => 7 | kInvalidEndpointNumber => 8 | kTransferRingNotSet => 9
  | kAlreadyAllocated => 10 | kNotImplemented => 11 | kInvalidDescriptor => 12
  | kBufferTooSmall => 13 | kUnknownDevice => 14 | kNoCorrespondingSetupStage => 15
  | kTransferFailed => 16 | kInvalidPhase => 17 | kUnknownXHCISpeedID => 18
  | kNoWaiter => 19 | kNoPCIMSI => 20 | kUnknownPixelFormat => 21 | kNoSuchTask => 22
  | kInvalidFormat => 23 | kFrameTooSmall => 24 | kInvalidFile => 25 | kIsDirectory => 26
  | kNoSuchEntry => 27 | kFreeTypeError => 28 | kLastOfCode => 29
  end%nat.

Definition code_names_ : list string :=
  ["kSuccess"; "kFull"; "kEmpty"; "kNoEnoughMemory"; "kIndexOutOfRange";
   "kHostControllerNotHalted"; "kInvalidSlotID"; "kPortNotConnected";
   "kInvalidEndpointNumber"; "kTransferRingNotSet"; "kAlreadyAllocated";
   "kNotImplemented"; "kInvalidDescriptor"; "kBufferTooSmall"; "kUnknownDevice";
   "kNoCorrespondingSetupStage"; "kTransferFailed"; "kInvalidPhase";
   "kUnknownXHCISpeedID"; "kNoWaiter"; "kNoPCIMSI"; "kUnknownPixelFormat";
   "kNoSuchTask"; "kInvalidFormat"; "kFrameTooSmall"; "kInvalidFile";
   "kIsDirectory"; "kNoSuchEntry"; "kFreeTypeError"]%string.

(** [Error::operator bool]: an error object is true when it is a failure. *)
Definition error_bool (c : Code) : bool := negb (bool_decide (c = kSuccess)).

(** [Error::Name]; outside the table the index is out of range. *)
Definition Name (c : Code) : outcome string := of_option (code_names_ !! code_value c).

(** [struct WithError] *)
Record WithError (T : Type) : Type := mkWithError { value : T; error : Code }.
Arguments mkWithError {T} value error.
Arguments value {T} _.
Arguments error {T} _.

Lemma error_bool_false c : error_bool c = false ↔ c = kSuccess.
Proof. unfold error_bool. rewrite negb_false_iff, bool_decide_eq_true. done. Qed.

(** The table of names and the enumeration agree: every code that an [Error] can
    carry has a name, and distinct codes have distinct names. *)
Lemma Name_inj c d s : Name c = Done s → Name d = Done s → c = d.
Proof. destruct c, d; vm_compute; intros; congruence. Qed.

Lemma Name_defined c : c ≠ kLastOfCode → ∃ s, Name c = Done s.
Proof. destruct c; intros; try done; vm_compute; eauto. Qed.
