(* ===== verification/MemoryMap.v ===== *)
(** The UEFI memory map of src/kernel/memory_map.hpp: descriptors, the test for
    usable memory, and the in-place exchange sort that
    [InitializeMemoryManager] runs first.

    The buffer is the list of its descriptors: slot [k] of the list is the
    descriptor at [buffer + descriptor_size * k], and the list's length is
    [map_size / descriptor_size]. *)
From S2P Require Import Prelude.
From Stdlib Require Import Sorting.Permutation Sorting.Sorted.

(** [struct MemoryDescriptor] *)
Record MemoryDescriptor : Set := mkDesc {
  type : Z;
  physical_start : Z;
  virtual_start : Z;
  number_of_pages : Z;
  attribute : Z;
}.

#[export] Instance MemoryDescriptor_eq_dec : EqDecision MemoryDescriptor.
Proof. solve_decision. Defined.

(** [enum class MemoryType]; a descriptor holds the enumerator's value. *)
Inductive MemoryType : Set :=
| kEfiReservedMemoryType
| kEfiLoaderCode
| kEfiLoaderData
| kEfiBootServicesCode
| kEfiBootServicesData
| kEfiRuntimeServicesCode
| kEfiRuntimeServicesData
| kEfiConventionalMemory
| kEfiUnusableMemory
| kEfiACPIReclaimMemory
| kEfiACPIMemoryNVS
| kEfiMemoryMappedIO
| kEfiMemoryMappedIOPortSpace
| kEfiPalCode
| kEfiPersistentMemory
| kEfiMaxMemoryType.

Definition memory_type_value (t : MemoryType) : Z :=
  match t with
  | kEfiReservedMemoryType => 0 | kEfiLoaderCode => 1 | kEfiLoaderData => 2
  | kEfiBootServicesCode => 3 | kEfiBootServicesData => 4 | kEfiRuntimeServicesCode => 5
  | kEfiRuntimeServicesData => 6 | kEfiConventionalMemory => 7 | kEfiUnusableMemory => 8
  | kEfiACPIReclaimMemory => 9 | kEfiACPIMemoryNVS => 10 | kEfiMemoryMappedIO => 11
  | kEfiMemoryMappedIOPortSpace => 12 | kEfiPalCode => 13 | kEfiPersistentMemory => 14
  | kEfiMaxMemoryType => 15
  end.

Definition kUEFIPageSize : Z := 4096.

Definition IsAvailable (memory_type : Z) : bool :=
  (memory_type =? memory_type_value kEfiBootServicesCode) ||
  (memory_type =? memory_type_value kEfiBootServicesData) ||
  (memory_type =? memory_type_value kEfiConventionalMemory).

Module Sort.

(** [SwapMemoryDescriptor] on slots [i] and [j] of the buffer. *)
Definition SwapMemoryDescriptor (i j : nat) (m : list MemoryDescriptor)
    : outcome (list MemoryDescriptor) :=
  a ← of_option (m !! i);
  b ← of_option (m !! j);
  mret (<[j := a]> (<[i := b]> m)).

(** The body of the inner loop. *)
Definition compare_swap (i j : nat) (m : list MemoryDescriptor)
    : outcome (list MemoryDescriptor) :=
  mem_a ← of_option (m !! i);
  mem_b ← of_option (m !! j);
  if physical_start mem_b <? physical_start mem_a
  then SwapMemoryDescriptor i j m
  else mret m.

(** [for (j = j; j < desc_count; ++j)], with [k = desc_count - j] turns left. *)
Fixpoint inner (i j k : nat) (m : list MemoryDescriptor) : outcome (list MemoryDescriptor) :=
  match k with
  | O => mret m
  | S k' => m' ← compare_swap i j m; inner i (S j) k' m'
  end.

(** [for (i = i; i < desc_count; ++i)], with [k = desc_count - i] turns left. *)
Fixpoint outer (i k desc_count : nat) (m : list MemoryDescriptor)
    : outcome (list MemoryDescriptor) :=
  match k with
  | O => mret m
  | S k' => m' ← inner i (S i) (desc_count - S i) m; outer (S i) k' desc_count m'
  end.

Definition SortMemoryMapInPlace (m : list MemoryDescriptor) : outcome (list MemoryDescriptor) :=
  let desc_count := length m in outer 0 desc_count desc_count m.

Definition start_le (a b : MemoryDescriptor) : Prop := physical_start a ≤ physical_start b.

#[export] Instance start_le_dec a b : Decision (start_le a b) := Z_le_dec _ _.

#[export] Instance start_le_preorder : PreOrder start_le.
Proof. split; unfold start_le; red; lia. Qed.

End Sort.

(** ** The sort is correct *)
Module SortFacts.
Import Sort.

(** Slot [i] is at most every slot strictly between [i] and [j]. *)
Definition least_upto (i j : nat) (m : list MemoryDescriptor) : Prop :=
  ∀ b x y, (i < b < j)%nat → m !! i = Some x → m !! b = Some y → start_le x y.

(** Every slot before [i] is at most every later slot. *)
Definition sorted_upto (i : nat) (m : list MemoryDescriptor) : Prop :=
  ∀ a b x y, (a < i)%nat → (a < b)%nat → m !! a = Some x → m !! b = Some y → start_le x y.

(** What one loop body may do to the buffer while it works on slots [≥ i]. *)
Definition tail_permuted (i : nat) (m m' : list MemoryDescriptor) : Prop :=
  m' ≡ₚ m ∧ length m' = length m ∧
  (∀ k, (k < i)%nat → m' !! k = m !! k) ∧
  (∀ k x, (i ≤ k)%nat → m' !! k = Some x → ∃ k', (i ≤ k')%nat ∧ m !! k' = Some x).

Lemma tail_permuted_refl i m : tail_permuted i m m.
Proof. unfold tail_permuted. naive_solver. Qed.

Lemma tail_permuted_trans i m1 m2 m3 :
  tail_permuted i m1 m2 → tail_permuted i m2 m3 → tail_permuted i m1 m3.
Proof.
  intros (HP & HL & Hlow & Hhigh) (HP' & HL' & Hlow' & Hhigh'). split_and!.
  - by etrans.
  - congruence.
  - intros k Hk. rewrite Hlow', Hlow; done.
  - intros k x Hk Hx. destruct (Hhigh' k x Hk Hx) as (k' & ? & ?). eauto.
Qed.

Lemma tail_permuted_S i m m' : tail_permuted (S i) m m' → tail_permuted i m m'.
Proof.
  intros (HP & HL & Hlow & Hhigh). split_and!; [done..| |].
  - intros k Hk. apply Hlow. lia.
  - intros k x Hk Hx. destruct (decide (k = i)) as [->|].
    + exists i. rewrite Hlow in Hx by lia. done.
    + destruct (Hhigh k x ltac:(lia) Hx) as (k' & ? & ?). exists k'. split; [lia|done].
Qed.

Lemma sorted_upto_tail i m m' :
  sorted_upto i m → tail_permuted i m m' → sorted_upto i m'.
Proof.
  intros Hs (_ & _ & Hlow & Hhigh) a b x y Ha Hab Hx Hy.
  rewrite Hlow in Hx by done. destruct (decide (b < i)%nat) as [Hb|].
  - rewrite Hlow in Hy by done. by apply (Hs a b).
  - destruct (Hhigh b y ltac:(lia) Hy) as (b' & ? & Hy'). apply (Hs a b'); [lia..|done|done].
Qed.

Lemma swap_tail_permuted i j m x y : (i < j)%nat →
  m !! i = Some x → m !! j = Some y → tail_permuted i m (<[j := x]> (<[i := y]> m)).
Proof.
  intros Hij Hx Hy.
  pose proof (lookup_lt_Some _ _ _ Hx). pose proof (lookup_lt_Some _ _ _ Hy).
  split_and!.
  - by apply list_swap_permutation.
  - by rewrite !length_insert.
  - intros k Hk. rewrite !list_lookup_insert_ne by lia. done.
  - intros k z Hk Hz. destruct (decide (k = j)) as [->|].
    { rewrite list_lookup_insert_eq in Hz by (rewrite length_insert; lia).
      exists i. split; [lia|congruence]. }
    rewrite list_lookup_insert_ne in Hz by done. destruct (decide (k = i)) as [->|].
    + rewrite list_lookup_insert_eq in Hz by lia. exists j. split; [lia|congruence].
    + rewrite list_lookup_insert_ne in Hz by done. eauto.
Qed.

Lemma compare_swap_spec i j m : (i < j)%nat → (j < length m)%nat → least_upto i j m →
  ∃ m', compare_swap i j m = Done m' ∧ tail_permuted i m m' ∧ least_upto i (S j) m'.
Proof.
  intros Hij Hj Hleast.
  destruct (lookup_lt_is_Some_2 m i ltac:(lia)) as [x Hx].
  destruct (lookup_lt_is_Some_2 m j Hj) as [y Hy].
  unfold compare_swap, SwapMemoryDescriptor. rewrite Hx, Hy. simpl.
  destruct (Z.ltb_spec (physical_start y) (physical_start x)) as [Hlt|Hge].
  - eexists. split; [reflexivity|]. split; [by apply swap_tail_permuted|].
    intros b u v Hb Hu Hv. rewrite list_lookup_insert_ne, list_lookup_insert_eq in Hu by lia.
    injection Hu as <-. destruct (decide (b = j)) as [->|].
    + rewrite list_lookup_insert_eq in Hv by (rewrite length_insert; lia).
      injection Hv as <-. unfold start_le. lia.
    + rewrite !list_lookup_insert_ne in Hv by lia.
      specialize (Hleast b x v ltac:(lia) Hx Hv). unfold start_le in *. lia.
  - eexists. split; [reflexivity|]. split; [apply tail_permuted_refl|].
    intros b u v Hb Hu Hv. destruct (decide (b = j)) as [->|].
    + simplify_eq. done.
    + apply (Hleast b); [lia|done..].
Qed.

Lemma inner_spec k : ∀ i j m, (i < j)%nat → (j + k)%nat = length m → least_upto i j m →
  ∃ m', inner i j k m = Done m' ∧ tail_permuted i m m' ∧ least_upto i (length m) m'.
Proof.
  induction k as [|k IH]; intros i j m Hij Hlen Hleast; simpl.
  - exists m. split; [done|]. split; [apply tail_permuted_refl|].
    by replace (length m) with j by lia.
  - destruct (compare_swap_spec i j m) as (m1 & -> & HT & Hl1); [lia|lia|done|]. simpl.
    destruct (IH i (S j) m1) as (m2 & E & HT2 & Hl2);
      [lia|destruct HT as (_ & -> & _); lia|done|].
    exists m2. split; [done|]. split; [by eapply tail_permuted_trans|].
    destruct HT as (_ & <- & _). done.
Qed.

Lemma sorted_upto_S i m : sorted_upto i m → least_upto i (length m) m → sorted_upto (S i) m.
Proof.
  intros Hs Hl a b x y Ha Hab Hx Hy. destruct (decide (a = i)) as [->|].
  - apply (Hl b); [|done..]. split; [done|]. by eapply lookup_lt_Some.
  - apply (Hs a b); [lia|done..].
Qed.

Lemma outer_spec k : ∀ i m, (i + k)%nat = length m → sorted_upto i m →
  ∃ m', outer i k (length m) m = Done m' ∧ tail_permuted i m m' ∧ sorted_upto (length m) m'.
Proof.
  induction k as [|k IH]; intros i m Hlen Hs; simpl.
  - exists m. split; [done|]. split; [apply tail_permuted_refl|].
    by replace (length m) with i by lia.
  - destruct (inner_spec (length m - S i) i (S i) m) as (m1 & -> & HT & Hl); [lia|lia| |].
    { intros b ??. lia. }
    simpl. assert (length m1 = length m) as HL by apply HT.
    destruct (IH (S i) m1) as (m2 & E & HT2 & Hs2); [lia| |].
    { apply sorted_upto_S; [by eapply sorted_upto_tail|by rewrite HL]. }
    rewrite HL in E, Hs2. exists m2. split; [done|]. split; [|done].
    eapply tail_permuted_trans; [done|]. by apply tail_permuted_S.
Qed.

Lemma sorted_upto_StronglySorted m : sorted_upto (length m) m → StronglySorted start_le m.
Proof.
  induction m as [|x m IH]; intros Hs; constructor.
  - apply IH. intros a b u v Ha Hab Hu Hv. apply (Hs (S a) (S b)); simpl; [lia|lia|done..].
  - apply Forall_lookup. intros i y Hy. apply (Hs 0%nat (S i)); simpl; [lia|lia|done..].
Qed.

Lemma SortMemoryMapInPlace_spec m :
  ∃ m', SortMemoryMapInPlace m = Done m' ∧ m' ≡ₚ m ∧ StronglySorted start_le m'.
Proof.
  destruct (outer_spec (length m) 0 m) as (m' & E & HT & Hs); [done|intros ?; lia|].
  exists m'. split; [done|]. split; [apply HT|]. apply sorted_upto_StronglySorted.
  destruct HT as (_ & -> & _). done.
Qed.

End SortFacts.

(** ** Well-formed memory maps *)
Module Regions.
Import Sort.

Definition phys_end (d : MemoryDescriptor) : Z :=
  physical_start d + number_of_pages d * kUEFIPageSize.

(** Page-aligned, non-empty, and below [limit]. *)
Record desc_ok (limit : Z) (d : MemoryDescriptor) : Prop := {
  ok_start : 0 ≤ physical_start d;
  ok_aligned : physical_start d mod kUEFIPageSize = 0;
  ok_pages : 0 < number_of_pages d;
  ok_end : phys_end d ≤ limit;
}.

Definition no_overlap (a b : MemoryDescriptor) : Prop :=
  phys_end a ≤ physical_start b ∨ phys_end b ≤ physical_start a.

Definition before (a b : MemoryDescriptor) : Prop := phys_end a ≤ physical_start b.

(** The map of a machine: good descriptors that do not overlap. *)
Definition map_ok (limit : Z) (m : list MemoryDescriptor) : Prop :=
  Forall (desc_ok limit) m ∧ ForallOrdPairs no_overlap m.

(** Page [f] is usable memory according to the map. *)
Definition usable (m : list MemoryDescriptor) (f : Z) : Prop :=
  ∃ d, d ∈ m ∧ IsAvailable (type d) = true ∧
    physical_start d ≤ f * kUEFIPageSize < phys_end d.

Lemma no_overlap_permutation m m' :
  m ≡ₚ m' → ForallOrdPairs no_overlap m → ForallOrdPairs no_overlap m'.
Proof.
  induction 1 as [|x l l' HP IH|x y l|l1 l2 l3 _ IH1 _ IH2]; intros HF; [done| | |auto].
  - inversion HF; subst. constructor; [by rewrite <- HP|auto].
  - inversion HF as [|? ? Hy Hrest]; subst. inversion Hrest as [|? ? Hx Hl]; subst.
    inversion Hy as [|? ? Hyx Hyl]; subst.
    constructor; [constructor; [|done]|by constructor].
    unfold no_overlap in *. tauto.
Qed.

Lemma sorted_before limit m : Forall (desc_ok limit) m → ForallOrdPairs no_overlap m →
  StronglySorted start_le m → StronglySorted before m.
Proof.
  induction m as [|d m IH]; intros Hok Hov Hs; [constructor|].
  inversion Hok as [|? ? Hd Hm]; inversion Hov as [|? ? Hdo Hmo]; inversion Hs as [|? ? Hsm Hds]; subst.
  constructor; [auto|]. apply Forall_forall. intros e He.
  rewrite Forall_forall in Hdo, Hds, Hm.
  specialize (Hdo e He). specialize (Hds e He). destruct (Hm e He) as [_ _ Hp _].
  unfold before, no_overlap, start_le, phys_end, kUEFIPageSize in *. lia.
Qed.

Lemma usable_permutation m m' f : m ≡ₚ m' → usable m f ↔ usable m' f.
Proof. intros HP. unfold usable. by setoid_rewrite HP. Qed.

Lemma usable_cons d m f : usable (d :: m) f ↔
  (IsAvailable (type d) = true ∧ physical_start d ≤ f * kUEFIPageSize < phys_end d) ∨ usable m f.
Proof.
  unfold usable. split.
  - intros (e & [->|He]%elem_of_cons & ?); [by left|right; eauto].
  - intros [?|(e & He & ?)].
    + exists d. split; [apply list_elem_of_here|done].
    + exists e. split; [by apply list_elem_of_further|done].
Qed.

End Regions.

(** [SortMemoryMapInPlace] never leaves the buffer, and it returns the same
    descriptors ordered by [physical_start], whatever the map holds. *)
Theorem SortMemoryMapInPlace_sorts (m : list MemoryDescriptor) :
  ∃ m', Sort.SortMemoryMapInPlace m = Done m' ∧ m' ≡ₚ m ∧ StronglySorted Sort.start_le m'.
Proof. apply SortFacts.SortMemoryMapInPlace_spec. Qed.
