(* ===== verification/MemoryManager.v ===== *)
(** The physical frame allocator of src/kernel/memory_manager.{hpp,cpp}: a bitmap
    with one bit per 4 KiB frame of the first 128 GiB, first-fit allocation,
    the bitmap's initialisation from the UEFI memory map, and the kernel heap
    that [sbrk] (src/kernel/newlib_support.c) hands out. *)
From S2P Require Import Prelude ErrorCode MemoryMap.
From Stdlib Require Import Sorting.Sorted.

Definition KiB (kib : Z) : Z := kib * 1024.
Definition MiB (mib : Z) : Z := mib * KiB 1024.
Definition GiB (gib : Z) : Z := gib * MiB 1024.

Definition kBytesPerFrame : Z := KiB 4.
Definition kMaxPhysicalMemoryBytes : Z := GiB 128.
Definition kFrameCount : Z := kMaxPhysicalMemoryBytes / kBytesPerFrame.
Definition kBitsPerMapLine : Z := 64.
Definition kMapLines : Z := kFrameCount / kBitsPerMapLine.

(** A [FrameID] is its index; [Frame] is the frame's physical address. *)
Definition Frame (id : Z) : Z := u64 (id * kBytesPerFrame).
Definition kNullFrame : Z := 2 ^ 64 - 1.

Record MemoryStat : Set := mkStat { allocated_frames : Z; total_frames : Z }.

Record BitmapMemoryManager : Set := mkMM {
  alloc_map_ : gmap Z Z;
  range_begin_ : Z;
  range_end_ : Z;
}.

(** The constructor: [alloc_map_{}], the range is the whole bitmap. *)
Definition new_BitmapMemoryManager : BitmapMemoryManager := mkMM ∅ 0 kFrameCount.

Definition set_alloc_map (mm : BitmapMemoryManager) (m : gmap Z Z) : BitmapMemoryManager :=
  mkMM m (range_begin_ mm) (range_end_ mm).

Definition GetBit (mm : BitmapMemoryManager) (frame : Z) : outcome bool :=
  let line_index := frame / kBitsPerMapLine in
  let bit_index := frame mod kBitsPerMapLine in
  line ← arr_get kMapLines (alloc_map_ mm) line_index;
  mret (negb (Z.land line (u64 (Z.shiftl 1 bit_index)) =? 0)).

Definition SetBit (mm : BitmapMemoryManager) (frame : Z) (allocated : bool)
    : outcome BitmapMemoryManager :=
  let line_index := frame / kBitsPerMapLine in
  let bit_index := frame mod kBitsPerMapLine in
  line ← arr_get kMapLines (alloc_map_ mm) line_index;
  m ← arr_set kMapLines (alloc_map_ mm) line_index
        (if allocated
         then Z.lor line (u64 (Z.shiftl 1 bit_index))
         else Z.land line (u64 (Z.lnot (u64 (Z.shiftl 1 bit_index)))));
  mret (set_alloc_map mm m).

(** [for (i = i; i < num_frames; ++i) SetBit(start + i, b)], [k] turns left. *)
Fixpoint set_bits (b : bool) (start i : Z) (k : nat) (mm : BitmapMemoryManager)
    : outcome BitmapMemoryManager :=
  match k with
  | O => mret mm
  | S k' => mm' ← SetBit mm (u64 (start + i)) b; set_bits b start (i + 1) k' mm'
  end.

Definition MarkAllocated (mm : BitmapMemoryManager) (start_frame num_frames : Z)
    : outcome BitmapMemoryManager :=
  set_bits true start_frame 0 (Z.to_nat num_frames) mm.

Definition SetMemoryRange (mm : BitmapMemoryManager) (range_begin range_end : Z)
    : BitmapMemoryManager :=
  mkMM (alloc_map_ mm) range_begin range_end.

Definition GetMapLine (mm : BitmapMemoryManager) (idx : Z) : outcome Z :=
  arr_get kMapLines (alloc_map_ mm) idx.

(** [std::bitset<64>(line).count()] *)
Definition popcount (line : Z) : Z :=
  Z.of_nat (length (filter (λ i, Z.testbit line i = true) (seqZ 0 kBitsPerMapLine))).

(** [for (i = i; i < range_end / 64; ++i) sum += count(alloc_map_[i])], [k] turns left. *)
Fixpoint stat_loop (mm : BitmapMemoryManager) (i : Z) (k : nat) (sum : Z) : outcome Z :=
  match k with
  | O => mret sum
  | S k' => line ← arr_get kMapLines (alloc_map_ mm) i;
            stat_loop mm (i + 1) k' (u64 (sum + popcount line))
  end.

Definition Stat (mm : BitmapMemoryManager) : outcome MemoryStat :=
  let first := range_begin_ mm / kBitsPerMapLine in
  let last := range_end_ mm / kBitsPerMapLine in
  sum ← stat_loop mm first (Z.to_nat (last - first)) 0;
  mret (mkStat sum (u64 (range_end_ mm - range_begin_ mm))).

(** The inner loop of [Allocate]: it meets the end of the range, or stops with
    [i] frames seen free ([i = num_frames] when it ran to its end). *)
Inductive scan_result : Set :=
| OutOfRange
| Stopped (i : Z).

Fixpoint scan (mm : BitmapMemoryManager) (start i : Z) (k : nat) : outcome scan_result :=
  match k with
  | O => mret (Stopped i)
  | S k' =>
      if range_end_ mm <=? u64 (start + i) then mret OutOfRange
      else b ← GetBit mm (u64 (start + i));
           if (b : bool) then mret (Stopped i) else scan mm start (i + 1) k'
  end.

(** The outer [while (true)] of [Allocate]. *)
Fixpoint allocate_loop (fuel : nat) (mm : BitmapMemoryManager) (start num_frames : Z)
    : outcome (WithError Z * BitmapMemoryManager) :=
  match fuel with
  | O => NoFuel
  | S fuel' =>
      r ← scan mm start 0 (Z.to_nat num_frames);
      match r with
      | OutOfRange => mret (mkWithError kNullFrame kNoEnoughMemory, mm)
      | Stopped i =>
          if i =? num_frames then
            mm' ← MarkAllocated mm start num_frames;
            mret (mkWithError start kSuccess, mm')
          else allocate_loop fuel' mm (u64 (start + (i + 1))) num_frames
      end
  end.

Definition Allocate (mm : BitmapMemoryManager) (num_frames : Z)
    : outcome (WithError Z * BitmapMemoryManager) :=
  allocate_loop (S (Z.to_nat (range_end_ mm - range_begin_ mm))) mm (range_begin_ mm) num_frames.

Definition Free (mm : BitmapMemoryManager) (start_frame num_frames : Z)
    : outcome (Code * BitmapMemoryManager) :=
  mm' ← set_bits false start_frame 0 (Z.to_nat num_frames) mm;
  mret (kSuccess, mm').

(** ** Initialisation from the memory map *)

(** The heap's bounds: the globals [program_break] and [program_break_end]. *)
Record Heap : Set := mkHeap { program_break : Z; program_break_end : Z }.

Definition kHeapFrames : Z := 64 * 512.

Definition InitializeHeap (mm : BitmapMemoryManager)
    : outcome (WithError Heap * BitmapMemoryManager) :=
  '(heap_start, mm') ← Allocate mm kHeapFrames;
  if error_bool (error heap_start) then mret (mkWithError (mkHeap 0 0) (error heap_start), mm')
  else
    let program_break := u64 (value heap_start * kBytesPerFrame) in
    mret (mkWithError (mkHeap program_break (u64 (program_break + kHeapFrames * kBytesPerFrame)))
            kSuccess, mm').

(** One turn of the loop over the descriptors, on the bitmap and [available_end]. *)
Definition mark_descriptor (desc : MemoryDescriptor) (st : BitmapMemoryManager * Z)
    : outcome (BitmapMemoryManager * Z) :=
  let '(mm, available_end) := st in
  mm ← (if available_end <? physical_start desc
        then MarkAllocated mm (available_end / kBytesPerFrame)
               ((physical_start desc - available_end) / kBytesPerFrame)
        else mret mm);
  let physical_end := u64 (physical_start desc + number_of_pages desc * kUEFIPageSize) in
  if IsAvailable (type desc) then mret (mm, physical_end)
  else
    mm' ← MarkAllocated mm (physical_start desc / kBytesPerFrame)
            (u64 (number_of_pages desc * kUEFIPageSize) / kBytesPerFrame);
    mret (mm', available_end).

Fixpoint mark_descriptors (descs : list MemoryDescriptor) (st : BitmapMemoryManager * Z)
    : outcome (BitmapMemoryManager * Z) :=
  match descs with
  | [] => mret st
  | d :: ds => st' ← mark_descriptor d st; mark_descriptors ds st'
  end.

(** [InitializeMemoryManager] up to the heap: sort, mark, set the range. *)
Definition setup_bitmap (memory_map : list MemoryDescriptor) : outcome BitmapMemoryManager :=
  sorted ← Sort.SortMemoryMapInPlace memory_map;
  '(mm, available_end) ← mark_descriptors sorted (new_BitmapMemoryManager, 0);
  mret (SetMemoryRange mm 1 (available_end / kBytesPerFrame)).

(** An error of [InitializeHeap] ends the kernel with [exit(1)]; here it is the result. *)
Definition InitializeMemoryManager (memory_map : list MemoryDescriptor)
    : outcome (WithError Heap * BitmapMemoryManager) :=
  mm ← setup_bitmap memory_map; InitializeHeap mm.

(** [sbrk] of newlib_support.c: [None] is [(caddr_t)-1] with [errno = ENOMEM]. *)
Definition sbrk (h : Heap) (incr : Z) : option Z * Heap :=
  if (program_break h =? 0) || (program_break_end h <=? u64 (program_break h + incr))
  then (None, h)
  else (Some (program_break h), mkHeap (u64 (program_break h + incr)) (program_break_end h)).

(** ** The bitmap as a set of frames *)
Module BitmapFacts.

(** Frame [f] is marked in the bitmap. *)
Definition allocated (mm : BitmapMemoryManager) (f : Z) : bool :=
  Z.testbit (arr_read (alloc_map_ mm) (f / kBitsPerMapLine)) (f mod kBitsPerMapLine).

Definition frame_ok (f : Z) : Prop := 0 ≤ f < kFrameCount.

(** Every line is a 64-bit word and the range lies inside the bitmap. *)
Record mm_wf (mm : BitmapMemoryManager) : Prop := {
  wf_lines : ∀ i, 0 ≤ arr_read (alloc_map_ mm) i < 2 ^ 64;
  wf_range : 0 ≤ range_begin_ mm ≤ kFrameCount ∧ 0 ≤ range_end_ mm ≤ kFrameCount;
}.

(** [f, f+n) contains no marked frame / lies inside the range. *)
Definition free_run (mm : BitmapMemoryManager) (f n : Z) : Prop :=
  ∀ g, f ≤ g < f + n → allocated mm g = false.

Definition in_run (f n g : Z) : bool := (f <=? g) && (g <? f + n).

Lemma kFrameCount_val : kFrameCount = 2 ^ 25. Proof. reflexivity. Qed.
Lemma kHeapFrames_val : kHeapFrames = 2 ^ 15. Proof. reflexivity. Qed.
Lemma kMapLines_val : kMapLines = 2 ^ 19. Proof. reflexivity. Qed.

Lemma line_in f : frame_ok f → 0 ≤ f / kBitsPerMapLine < kMapLines.
Proof.
  unfold frame_ok, kBitsPerMapLine. rewrite kFrameCount_val, kMapLines_val. intros.
  split; [apply Z.div_pos; lia|]. apply Z.div_lt_upper_bound; lia.
Qed.

Lemma bit_in f : 0 ≤ f mod kBitsPerMapLine < 64.
Proof. unfold kBitsPerMapLine. apply Z.mod_pos_bound. lia. Qed.

Lemma bit_mask b : 0 ≤ b < 64 → u64 (Z.shiftl 1 b) = 2 ^ b.
Proof.
  intros. rewrite Z.shiftl_1_l. apply wrap_small. split; [lia|].
  apply Z.pow_lt_mono_r; lia.
Qed.

Lemma land_pow2_zero x b : 0 ≤ b → (Z.land x (2 ^ b) =? 0) = negb (Z.testbit x b).
Proof.
  intros Hb. destruct (Z.testbit x b) eqn:E; simpl.
  - apply Z.eqb_neq. intros H0. apply (f_equal (λ z, Z.testbit z b)) in H0.
    rewrite Z.land_spec, E, Z.pow2_bits_true, Z.bits_0 in H0 by done. done.
  - apply Z.eqb_eq. apply Z.bits_inj'. intros i Hi.
    rewrite Z.land_spec, Z.bits_0, Z.pow2_bits_eqb by done.
    destruct (Z.eqb_spec b i) as [->|]; [by rewrite E|apply andb_false_r].
Qed.

Lemma GetBit_spec mm f : frame_ok f → GetBit mm f = Done (allocated mm f).
Proof.
  intros Hf. pose proof (line_in f Hf). pose proof (bit_in f).
  unfold GetBit. rewrite arr_get_in by done. simpl.
  rewrite bit_mask, land_pow2_zero by lia. by rewrite negb_involutive.
Qed.

(** The word a write of bit [j] leaves. *)
Definition write_bit (b : bool) (line j : Z) : Z :=
  if b then Z.lor line (u64 (Z.shiftl 1 j))
  else Z.land line (u64 (Z.lnot (u64 (Z.shiftl 1 j)))).

Lemma write_bit_testbit b line j i : 0 ≤ line < 2 ^ 64 → 0 ≤ j < 64 → 0 ≤ i →
  Z.testbit (write_bit b line j) i = if decide (i = j) then b else Z.testbit line i.
Proof.
  intros Hl Hj Hi. unfold write_bit. rewrite bit_mask by done. destruct b.
  - rewrite Z.lor_spec, Z.pow2_bits_eqb by lia.
    case_decide; subst; bool_cases; simpl; try lia; by rewrite ?orb_true_r, ?orb_false_r.
  - rewrite Z.land_spec, testbit_wrap, Z.lnot_spec, Z.pow2_bits_eqb by lia.
    destruct (Z.ltb_spec i 64); simpl.
    + case_decide; subst; bool_cases; simpl; try lia; by rewrite ?andb_false_r, ?andb_true_r.
    + rewrite (testbit_high 64) by done. by rewrite decide_False by lia.
Qed.

Lemma write_bit_bound b line j : 0 ≤ line < 2 ^ 64 → 0 ≤ j < 64 →
  0 ≤ write_bit b line j < 2 ^ 64.
Proof.
  intros Hl Hj. apply bounded_by_bits; [lia| |].
  - unfold write_bit. destruct b.
    + apply Z.lor_nonneg. split; [lia|]. apply wrap_bound. lia.
    + apply Z.land_nonneg. left. lia.
  - intros i Hi. rewrite write_bit_testbit by lia. rewrite decide_False by lia.
    by apply (testbit_high 64).
Qed.

(** [mm'] differs from [mm] only in having the frames of [f, f+n) marked as [b]. *)
Record marks (b : bool) (f n : Z) (mm mm' : BitmapMemoryManager) : Prop := {
  marks_bits : ∀ g, frame_ok g →
    allocated mm' g = if in_run f n g then b else allocated mm g;
  marks_begin : range_begin_ mm' = range_begin_ mm;
  marks_end : range_end_ mm' = range_end_ mm;
}.

Lemma frame_index_inj f g : frame_ok f → frame_ok g →
  f / kBitsPerMapLine = g / kBitsPerMapLine → f mod kBitsPerMapLine = g mod kBitsPerMapLine → f = g.
Proof.
  intros _ _ Hd Hm. rewrite (Z.div_mod f kBitsPerMapLine), (Z.div_mod g kBitsPerMapLine) by done.
  congruence.
Qed.

Lemma SetBit_spec mm f b : mm_wf mm → frame_ok f →
  ∃ mm', SetBit mm f b = Done mm' ∧ mm_wf mm' ∧ marks b f 1 mm mm'.
Proof.
  intros [Hl Hr] Hf. pose proof (line_in f Hf) as Hli. pose proof (bit_in f) as Hbi.
  unfold SetBit. rewrite arr_get_in by done. simpl. rewrite arr_set_in by done. simpl.
  change (if b then _ else _) with
    (write_bit b (arr_read (alloc_map_ mm) (f / kBitsPerMapLine)) (f mod kBitsPerMapLine)).
  eexists. split; [reflexivity|]. split; [split; simpl|].
  - intros i. rewrite arr_read_set. case_decide; [|done]. by apply write_bit_bound.
  - done.
  - split; [|done..]. intros g Hg. unfold allocated, set_alloc_map. simpl.
    rewrite arr_read_set. pose proof (bit_in g). unfold in_run. case_decide as Hline.
    + rewrite write_bit_testbit by (done || lia). rewrite Hline. case_decide as Hbit.
      * assert (g = f) as -> by (apply frame_index_inj; done). bool_lia.
      * assert (g ≠ f) by congruence. bool_lia.
    + assert (g ≠ f) by congruence. bool_lia.
Qed.

Lemma marks_trans b f n n' mm1 mm2 mm3 : 0 ≤ n → 0 ≤ n' →
  marks b f n mm1 mm2 → marks b (f + n) n' mm2 mm3 → marks b f (n + n') mm1 mm3.
Proof.
  intros Hn Hn' [H1 Hb1 He1] [H2 Hb2 He2]. split; [|congruence..].
  intros g Hg. rewrite H2, H1 by done. unfold in_run. bool_lia.
Qed.

Lemma marks_refl b f mm : marks b f 0 mm mm.
Proof. split; [|done..]. intros g Hg. unfold in_run. bool_lia. Qed.

Lemma set_bits_spec b k : ∀ mm start i, mm_wf mm → 0 ≤ start → 0 ≤ i →
  start + i + Z.of_nat k ≤ kFrameCount →
  ∃ mm', set_bits b start i k mm = Done mm' ∧ mm_wf mm' ∧ marks b (start + i) (Z.of_nat k) mm mm'.
Proof.
  induction k as [|k IH]; intros mm start i Hwf Hs Hi Hlen.
  - exists mm. split; [done|]. split; [done|]. apply marks_refl.
  - cbn [set_bits]. rewrite kFrameCount_val in Hlen. rewrite wrap_small by lia.
    destruct (SetBit_spec mm (start + i) b) as (mm1 & -> & Hwf1 & Hm1);
      [done|unfold frame_ok; rewrite kFrameCount_val; lia|]. simpl.
    destruct (IH mm1 start (i + 1)) as (mm2 & E & Hwf2 & Hm2);
      [done|lia|lia|rewrite kFrameCount_val; lia|].
    exists mm2. split; [done|]. split; [done|].
    replace (Z.of_nat (S k)) with (1 + Z.of_nat k) by lia.
    apply marks_trans with mm1; [lia|lia|done|].
    by replace (start + i + 1) with (start + (i + 1)) by lia.
Qed.

Lemma set_range_spec b mm f n : mm_wf mm → 0 ≤ f → 0 ≤ n → f + n ≤ kFrameCount →
  ∃ mm', set_bits b f 0 (Z.to_nat n) mm = Done mm' ∧ mm_wf mm' ∧ marks b f n mm mm'.
Proof.
  intros Hwf Hf Hn Hlen.
  destruct (set_bits_spec b (Z.to_nat n) mm f 0) as (mm' & ? & ? & Hm); [done|lia..|].
  rewrite Z.add_0_r, Z2Nat.id in Hm by lia. eauto.
Qed.

End BitmapFacts.

(** ** Allocation *)
Module AllocFacts.
Import BitmapFacts.

(** What the inner loop finds, starting from [start + i] with [k] frames to go. *)
Lemma scan_spec mm start k : ∀ i, mm_wf mm → 0 ≤ start → 0 ≤ i →
  start ≤ kFrameCount → start + i ≤ kFrameCount →
  ∃ r, scan mm start i k = Done r ∧
    match r with
    | OutOfRange => ∃ j, i ≤ j < i + Z.of_nat k ∧ range_end_ mm ≤ start + j
    | Stopped j => i ≤ j ≤ i + Z.of_nat k ∧ (i < j → start + j ≤ range_end_ mm) ∧
        (∀ g, start + i ≤ g < start + j → allocated mm g = false) ∧
        (j < i + Z.of_nat k → start + j < range_end_ mm ∧ allocated mm (start + j) = true)
    end.
Proof.
  induction k as [|k IH]; intros i Hwf Hs Hi Hlim Hlim'.
  - eexists. split; [reflexivity|]. simpl. split_and!; intros; lia.
  - pose proof (wf_range _ Hwf) as [_ He]. rewrite kFrameCount_val in *.
    cbn [scan]. rewrite wrap_small by lia.
    destruct (Z.leb_spec (range_end_ mm) (start + i)).
    { eexists. split; [reflexivity|]. exists i. lia. }
    rewrite GetBit_spec by (unfold frame_ok; rewrite kFrameCount_val; lia). simpl.
    destruct (allocated mm (start + i)) eqn:Hb.
    { eexists. split; [reflexivity|]. split_and!; intros; try lia. done. }
    destruct (IH (i + 1)) as (r & -> & Hr); [done|lia..|].
    eexists. split; [reflexivity|]. destruct r as [|j].
    + destruct Hr as (j & ? & ?). exists j. lia.
    + destruct Hr as (? & ? & Hfree & Hhit). split_and!; try lia.
      * intros g Hg. destruct (decide (g = start + i)) as [->|]; [done|]. apply Hfree. lia.
      * intros. apply Hhit. lia.
Qed.

(** Every window of [num] frames that starts in [lo, hi) is blocked. *)
Definition blocked (mm : BitmapMemoryManager) (lo hi num : Z) : Prop :=
  ∀ f, lo ≤ f < hi → ∃ g, f ≤ g < f + num ∧ allocated mm g = true.

(** The result of [Allocate] as a specification: first fit or no fit. *)
Definition allocate_post (mm : BitmapMemoryManager) (num : Z)
    (r : WithError Z) (mm' : BitmapMemoryManager) : Prop :=
  match error r with
  | kSuccess =>
      range_begin_ mm ≤ value r ∧ value r + num ≤ range_end_ mm ∧
      free_run mm (value r) num ∧
      blocked mm (range_begin_ mm) (value r) num ∧
      marks true (value r) num mm mm'
  | kNoEnoughMemory =>
      value r = kNullFrame ∧ mm' = mm ∧
      blocked mm (range_begin_ mm) (range_end_ mm - num + 1) num
  | _ => False
  end.

Lemma allocate_loop_spec fuel : ∀ mm start num, mm_wf mm → 0 < num →
  range_begin_ mm ≤ start → start ≤ range_end_ mm →
  blocked mm (range_begin_ mm) start num →
  (Z.to_nat (range_end_ mm - start) < fuel)%nat →
  ∃ r mm', allocate_loop fuel mm start num = Done (r, mm') ∧ mm_wf mm' ∧
    allocate_post mm num r mm'.
Proof.
  induction fuel as [|fuel IH]; intros mm start num Hwf Hnum Hlo Hhi Hbl Hfuel; [lia|].
  pose proof (wf_range _ Hwf) as [Hb He]. cbn [allocate_loop].
  destruct (scan_spec mm start (Z.to_nat num) 0) as (r & -> & Hr); [done|lia..|].
  simpl. rewrite Z2Nat.id in Hr by lia. destruct r as [|j].
  - (* the end of the range *)
    destruct Hr as (j & Hj & Hend). eexists _, _. split; [reflexivity|]. split; [done|].
    unfold allocate_post. simpl. split_and!; [done..|].
    intros f Hf. destruct (decide (f < start)); [apply Hbl; lia|lia].
  - destruct Hr as (Hj & Hjend & Hfree & Hhit). rewrite Z.add_0_r in Hfree.
    destruct (Z.eqb_spec j num) as [->|Hne].
    + destruct (set_range_spec true mm start num) as (mm' & E & Hwf' & Hm); [done|lia..|].
      unfold MarkAllocated. rewrite E. simpl.
      eexists _, _. split; [reflexivity|]. split; [done|].
      unfold allocate_post. simpl. split_and!; [lia|lia|by intros g ?; apply Hfree|done..].
    + destruct (Hhit ltac:(lia)) as [Hlt Hall]. rewrite kFrameCount_val in He.
      rewrite wrap_small by lia. apply IH; [done|lia..| |lia].
      intros f Hf. destruct (decide (f < start)); [apply Hbl; lia|].
      exists (start + j). split; [lia|done].
Qed.

Lemma Allocate_spec mm num : mm_wf mm → 0 < num → range_begin_ mm ≤ range_end_ mm →
  ∃ r mm', Allocate mm num = Done (r, mm') ∧ mm_wf mm' ∧ allocate_post mm num r mm'.
Proof.
  intros Hwf Hnum Hr. apply allocate_loop_spec; [done|done|lia|done| |lia].
  intros f Hf. lia.
Qed.

Lemma Free_spec mm f n : mm_wf mm → 0 ≤ f → 0 ≤ n → f + n ≤ kFrameCount →
  ∃ mm', Free mm f n = Done (kSuccess, mm') ∧ mm_wf mm' ∧ marks false f n mm mm'.
Proof.
  intros Hwf Hf Hn Hlen. unfold Free.
  destruct (set_range_spec false mm f n) as (mm' & -> & ? & ?); [done..|]. simpl. eauto.
Qed.

(** ** Stat *)

(** The marked frames of [f, f+n). *)
Definition count_allocated (mm : BitmapMemoryManager) (f n : Z) : Z :=
  Z.of_nat (length (filter (λ g, allocated mm g = true) (seqZ f n))).

Lemma count_allocated_app mm f n m : 0 ≤ n → 0 ≤ m →
  count_allocated mm f (n + m) = count_allocated mm f n + count_allocated mm (f + n) m.
Proof.
  intros. unfold count_allocated.
  rewrite (seqZ_app f n m), filter_app, length_app by done. lia.
Qed.

Lemma count_allocated_bound mm f n : 0 ≤ n → 0 ≤ count_allocated mm f n ≤ n.
Proof.
  intros. unfold count_allocated.
  pose proof (length_filter (λ g, allocated mm g = true) (seqZ f n)) as Hle.
  rewrite length_seqZ in Hle. lia.
Qed.

Lemma popcount_line mm i : popcount (arr_read (alloc_map_ mm) i) =
  count_allocated mm (kBitsPerMapLine * i) kBitsPerMapLine.
Proof.
  unfold popcount, count_allocated. f_equal.
  rewrite <- (Z.add_0_r (kBitsPerMapLine * i)).
  replace (seqZ (kBitsPerMapLine * i + 0) kBitsPerMapLine)
    with (Z.add (kBitsPerMapLine * i) <$> seqZ 0 kBitsPerMapLine)
    by (rewrite fmap_add_seqZ; done).
  rewrite length_filter_fmap. apply length_filter_ext.
  intros j Hj. apply elem_of_seqZ in Hj. unfold allocated, kBitsPerMapLine in *.
  rewrite (Z.mul_comm 64), Z.div_add_l, Z.div_small, Z.add_0_r by lia.
  rewrite Z.add_comm, Z.mod_add, Z.mod_small by lia. done.
Qed.

Lemma stat_loop_spec mm k : ∀ i sum, 0 ≤ i → i + Z.of_nat k ≤ kMapLines → 0 ≤ sum ≤ kBitsPerMapLine * i →
  stat_loop mm i k sum =
    Done (sum + count_allocated mm (kBitsPerMapLine * i) (kBitsPerMapLine * Z.of_nat k)).
Proof.
  induction k as [|k IH]; intros i sum Hi Hk Hs.
  - simpl. unfold count_allocated. rewrite Z.mul_0_r. simpl. by rewrite Z.add_0_r.
  - cbn [stat_loop]. rewrite arr_get_in by lia. simpl. rewrite popcount_line.
    pose proof (count_allocated_bound mm (kBitsPerMapLine * i) kBitsPerMapLine ltac:(done)).
    rewrite kMapLines_val in Hk. unfold kBitsPerMapLine in *.
    rewrite wrap_small by lia. rewrite IH by (rewrite ?kMapLines_val; lia). f_equal.
    replace (64 * Z.of_nat (S k)) with (64 + 64 * Z.of_nat k) by lia.
    rewrite (count_allocated_app _ (64 * i) 64) by lia.
    replace (64 * (i + 1)) with (64 * i + 64) by lia. lia.
Qed.

End AllocFacts.

(** ** Initialisation *)
Module InitFacts.
Import BitmapFacts Regions.

(** The loop over the descriptors [ds] that start at frame [last] or later, from
    a bitmap whose frames from [last] on are unmarked. *)
Record init_state (mm : BitmapMemoryManager) (available_end last : Z) : Prop := {
  is_wf : mm_wf mm;
  is_begin : range_begin_ mm = 0;
  is_end : 0 ≤ available_end ≤ last * kBytesPerFrame;
  is_aligned : available_end mod kBytesPerFrame = 0;
  is_last : 0 ≤ last ≤ kFrameCount;
  is_free : ∀ f, frame_ok f → last ≤ f → allocated mm f = false;
}.

Lemma aligned_div a : a mod kBytesPerFrame = 0 → ∃ q, a = q * kBytesPerFrame.
Proof. intros H. exists (a / kBytesPerFrame). rewrite (Z.div_mod a kBytesPerFrame) at 1; [lia|done]. Qed.

Lemma mark_gap mm ae last s : init_state mm ae last → last * kBytesPerFrame ≤ s →
  s mod kBytesPerFrame = 0 → s ≤ kMaxPhysicalMemoryBytes →
  ∃ mm', (if ae <? s then MarkAllocated mm (ae / kBytesPerFrame) ((s - ae) / kBytesPerFrame)
          else mret mm) = Done mm' ∧ mm_wf mm' ∧
    marks true (ae / kBytesPerFrame) (s / kBytesPerFrame - ae / kBytesPerFrame) mm mm'.
Proof.
  intros [Hwf _ Hae Hal Hl _] Hs Has Hmax.
  destruct (aligned_div _ Hal) as [qa ->]. destruct (aligned_div _ Has) as [qs ->].
  change kMaxPhysicalMemoryBytes with (kFrameCount * kBytesPerFrame) in Hmax.
  unfold kBytesPerFrame, KiB in *. rewrite <- Z.mul_sub_distr_r, !Z.div_mul by lia.
  destruct (Z.ltb_spec (qa * (4 * 1024)) (qs * (4 * 1024))).
  - apply set_range_spec; [done|lia..].
  - replace (qs - qa) with 0 by lia. eexists. split; [reflexivity|]. split; [done|]. apply marks_refl.
Qed.

(** Frame and page sizes as numerals, and the frames of whole addresses. *)
Ltac frames :=
  change kUEFIPageSize with 4096 in *; change kBytesPerFrame with 4096 in *;
  change kMaxPhysicalMemoryBytes with (kFrameCount * 4096) in *;
  repeat rewrite <- Z.mul_add_distr_r in *; repeat rewrite Z.div_mul in * by lia.

Lemma mark_descriptor_spec mm ae last d :
  init_state mm ae last → desc_ok kMaxPhysicalMemoryBytes d →
  last * kBytesPerFrame ≤ physical_start d →
  ∃ mm' ae' last', mark_descriptor d (mm, ae) = Done (mm', ae') ∧ init_state mm' ae' last' ∧
    last' * kBytesPerFrame = phys_end d ∧ ae ≤ ae' ∧
    (IsAvailable (type d) = true → ae' = phys_end d) ∧
    (∀ f, 0 ≤ f < ae' / kBytesPerFrame →
       allocated mm' f = false ↔
         (f < ae / kBytesPerFrame ∧ allocated mm f = false) ∨
         (IsAvailable (type d) = true ∧ physical_start d ≤ f * kUEFIPageSize < phys_end d)).
Proof.
  intros HI [Hs0 Hsal Hp Hend] Hs. unfold phys_end, mark_descriptor in *.
  destruct (mark_gap mm ae last (physical_start d)) as (mm1 & -> & Hwf1 & [Hm1 Hb1 He1]);
    [done|done|done|unfold kUEFIPageSize in *; lia|]. simpl.
  destruct HI as [Hwf Hbeg Hae Hal Hl Hfree].
  destruct (aligned_div _ Hal) as [qa ->]. destruct (aligned_div _ Hsal) as [qs Eqs].
  rewrite Eqs in *. set (pages := number_of_pages d) in *. frames.
  pose proof kFrameCount_val as HFC. rewrite !wrap_small by lia. frames.
  destruct (IsAvailable (type d)) eqn:Hav.
  - eexists mm1, _, (qs + pages). split; [reflexivity|]. split_and!; [|done|lia|done|].
    + split; frames; [done|congruence|lia|apply Z.mod_mul; lia|lia|].
      intros f Hf Hlf. rewrite Hm1, Hfree by (done || lia). unfold in_run. bool_lia.
    + intros f Hf. frames. rewrite Hm1 by (unfold frame_ok; lia).
      specialize (Hfree f). unfold frame_ok, in_run in *. frames.
      destruct (decide (f < last)); [|rewrite Hfree by lia]; bool_cases; simpl; intuition lia.
  - destruct (set_range_spec true mm1 qs pages) as (mm2 & E & Hwf2 & [Hm2 Hb2 He2]); [done|lia..|].
    unfold MarkAllocated. rewrite E. simpl.
    eexists mm2, _, (qs + pages). split; [reflexivity|]. split_and!; [|done|lia|done|].
    + split; frames; [done|congruence|lia|done|lia|].
      intros f Hf Hlf. rewrite Hm2, Hm1, Hfree by (done || lia). unfold in_run. bool_lia.
    + intros f Hf. frames. rewrite Hm2, Hm1 by (unfold frame_ok; lia).
      unfold in_run. frames. bool_cases; simpl; intuition (lia || done).
Qed.

Lemma mark_descriptors_spec ds : ∀ mm ae last,
  init_state mm ae last → Forall (desc_ok kMaxPhysicalMemoryBytes) ds →
  Forall (λ d, last * kBytesPerFrame ≤ physical_start d) ds → StronglySorted before ds →
  ∃ mm' ae' last', mark_descriptors ds (mm, ae) = Done (mm', ae') ∧ init_state mm' ae' last' ∧
    ae ≤ ae' ∧
    (∀ f, 0 ≤ f < ae' / kBytesPerFrame →
       allocated mm' f = false ↔
         (f < ae / kBytesPerFrame ∧ allocated mm f = false) ∨ usable ds f).
Proof.
  induction ds as [|d ds IH]; intros mm ae last HI Hok Hlast Hs.
  - exists mm, ae, last. split_and!; [done|done|lia|]. intros f Hf.
    split; [intuition lia|]. intros [[]|(? & []%not_elem_of_nil & _)]. done.
  - apply Forall_cons in Hok as [Hd Hds]. apply Forall_cons in Hlast as [Hld _].
    inversion Hs as [|? ? Hss Hbef]; subst.
    destruct (mark_descriptor_spec mm ae last d)
      as (mm1 & ae1 & last1 & E & HI1 & Hl1 & Hle1 & Hav1 & Hf1); [done..|].
    cbn [mark_descriptors]. rewrite E. simpl.
    destruct (IH mm1 ae1 last1) as (mm2 & ae2 & last2 & E2 & HI2 & Hle2 & Hf2); [done|done| |done|].
    { eapply Forall_impl; [exact Hbef|]. intros e He. unfold before in He. lia. }
    exists mm2, ae2, last2. split_and!; [done|done|lia|].
    intros f Hf. rewrite Hf2, usable_cons by done.
    destruct (decide (f < ae1 / kBytesPerFrame)) as [Hlt|Hge]; [rewrite Hf1 by lia; tauto|].
    (* at or beyond [available_end] nothing processed so far is usable *)
    assert (ae / kBytesPerFrame ≤ ae1 / kBytesPerFrame) by (apply Z.div_le_mono; [done|lia]).
    split; [intuition lia|]. intros [[? _]|[[Hav Hin]|?]]; [lia| |tauto].
    exfalso. rewrite (Hav1 Hav), <- Hl1, Z.div_mul in Hge by done. rewrite <- Hl1 in Hin.
    frames. lia.
Qed.

Lemma init_state_new : init_state new_BitmapMemoryManager 0 0.
Proof.
  split; [|done|lia|done|rewrite kFrameCount_val; lia|].
  - split; simpl; [|rewrite kFrameCount_val; lia]. intros i. rewrite arr_read_empty. lia.
  - intros f _ _. unfold allocated. simpl. rewrite arr_read_empty. apply Z.bits_0.
Qed.

(** [InitializeHeap] by the outcome of its call of [Allocate]. *)
Lemma InitializeHeap_eq mm r mm' : Allocate mm kHeapFrames = Done (r, mm') →
  InitializeHeap mm = Done
    (if error_bool (error r) then (mkWithError (mkHeap 0 0) (error r), mm')
     else (mkWithError
             (mkHeap (u64 (value r * kBytesPerFrame))
                (u64 (u64 (value r * kBytesPerFrame) + kHeapFrames * kBytesPerFrame)))
             kSuccess, mm')).
Proof. intros E. unfold InitializeHeap. rewrite E. cbn. by destruct (error_bool _). Qed.

Lemma InitializeMemoryManager_eq m mm : setup_bitmap m = Done mm →
  InitializeMemoryManager m = InitializeHeap mm.
Proof. intros E. unfold InitializeMemoryManager. by rewrite E. Qed.

(** After [setup_bitmap] the range is [1, end) and its unmarked frames are exactly
    the usable pages of the map. *)
Lemma setup_bitmap_spec m : map_ok kMaxPhysicalMemoryBytes m →
  ∃ mm, setup_bitmap m = Done mm ∧ mm_wf mm ∧ range_begin_ mm = 1 ∧
    ∀ f, 0 ≤ f < range_end_ mm → allocated mm f = false ↔ usable m f.
Proof.
  intros [Hok Hov]. destruct (SortFacts.SortMemoryMapInPlace_spec m) as (s & Es & HP & Hs).
  unfold setup_bitmap. rewrite Es. simpl.
  assert (Forall (desc_ok kMaxPhysicalMemoryBytes) s) as Hoks by (by rewrite HP).
  destruct (mark_descriptors_spec s new_BitmapMemoryManager 0 0)
    as (mm & ae & last & E & HI & Hae & Hf).
  - apply init_state_new.
  - done.
  - eapply Forall_impl; [exact Hoks|]. intros d [? _ _ _]. lia.
  - apply (sorted_before kMaxPhysicalMemoryBytes); [done| |done].
    eapply no_overlap_permutation; [by symmetry|done].
  - rewrite E. simpl. eexists. split; [reflexivity|].
    destruct HI as [[Hl _] _ Hend _ Hlast _]. pose proof kFrameCount_val.
    assert (0 ≤ ae / kBytesPerFrame ≤ kFrameCount).
    { split; [apply Z.div_pos; [lia|done]|]. frames. apply Z.div_le_upper_bound; lia. }
    split_and!; [split; simpl; [done|lia]|done|]. simpl. intros f Hf'.
    unfold allocated in *. simpl. rewrite Hf by done. rewrite (usable_permutation s m) by done.
    change (0 / kBytesPerFrame) with 0. intuition lia.
Qed.

End InitFacts.

(** ** Writing outside the bitmap, and the heap *)
Module BoundsFacts.
Import BitmapFacts Regions.

Lemma set_bits_undef b k : ∀ mm start i, mm_wf mm → 0 ≤ start → 0 ≤ i →
  kFrameCount < start + i + Z.of_nat k < 2 ^ 64 → start + i ≤ kFrameCount →
  set_bits b start i k mm = Undef.
Proof.
  pose proof kFrameCount_val.
  induction k as [|k IH]; intros mm start i Hwf Hs Hi Hlen Hle; [lia|].
  cbn [set_bits]. rewrite wrap_small by lia. destruct (decide (start + i = kFrameCount)) as [->|].
  - reflexivity.
  - destruct (SetBit_spec mm (start + i) b) as (mm1 & -> & Hwf1 & _);
      [done|unfold frame_ok; lia|]. simpl. apply IH; [done|lia..].
Qed.

Lemma set_bits_undef_beyond b k mm start : kFrameCount ≤ start < 2 ^ 64 →
  (0 < k)%nat → set_bits b start 0 k mm = Undef.
Proof.
  intros Hs Hk. destruct k; [lia|]. cbn [set_bits]. rewrite Z.add_0_r, wrap_small
    by (rewrite kFrameCount_val in *; lia).
  unfold SetBit, arr_get. replace (arr_in _ _) with false; [done|].
  symmetry. apply not_true_iff_false. rewrite arr_in_true.
  rewrite kMapLines_val, kFrameCount_val in *. unfold kBitsPerMapLine.
  assert (2 ^ 19 ≤ start / 64) by (apply Z.div_le_lower_bound; lia). lia.
Qed.

(** The state of the descriptor loop: a good bitmap, [available_end] on a frame. *)
Lemma mark_range_cases mm f n : mm_wf mm → 0 ≤ f → 0 ≤ n → f + n < 2 ^ 64 →
  MarkAllocated mm f n = Undef ∨ ∃ mm', MarkAllocated mm f n = Done mm' ∧ mm_wf mm'.
Proof.
  intros Hwf Hf Hn Hlt. unfold MarkAllocated.
  destruct (decide (f + n ≤ kFrameCount)).
  { right. destruct (set_range_spec true mm f n) as (mm' & ? & ? & _); [done..|]. eauto. }
  destruct (decide (n = 0)) as [->|]; [right; eauto|].
  left. destruct (decide (f ≤ kFrameCount)).
  - apply set_bits_undef; [done|lia..].
  - apply set_bits_undef_beyond; lia.
Qed.

Lemma mark_range_undef mm f n : mm_wf mm → 0 ≤ f → 0 < n →
  kFrameCount < f + n < 2 ^ 64 → MarkAllocated mm f n = Undef.
Proof.
  intros Hwf Hf Hn Hlt. unfold MarkAllocated. destruct (decide (f ≤ kFrameCount)).
  - apply set_bits_undef; [done|lia..].
  - apply set_bits_undef_beyond; lia.
Qed.

(** A heap: a non-empty interval of addresses below 2^63. *)
Definition heap_wf (h : Heap) : Prop :=
  0 < program_break h < program_break_end h ∧ program_break_end h < 2 ^ 63.

(** A run of [sbrk] calls: the blocks handed out and the final heap. *)
Fixpoint sbrks (h : Heap) (incrs : list Z) : list (Z * Z) * Heap :=
  match incrs with
  | [] => ([], h)
  | n :: ns =>
      let '(r, h') := sbrk h n in
      let '(blocks, h'') := sbrks h' ns in
      (match r with Some p => (p, n) :: blocks | None => blocks end, h'')
  end.

Lemma sbrk_cases h incr : heap_wf h → 0 ≤ incr < 2 ^ 31 →
  (sbrk h incr = (None, h) ∧ program_break_end h ≤ program_break h + incr) ∨
  (∃ h', sbrk h incr = (Some (program_break h), h') ∧ heap_wf h' ∧
     program_break h' = program_break h + incr ∧ program_break_end h' = program_break_end h).
Proof.
  intros [Hb He] Hi. unfold sbrk. rewrite wrap_small by lia.
  destruct (Z.eqb_spec (program_break h) 0); [lia|]. simpl.
  destruct (Z.leb_spec (program_break_end h) (program_break h + incr)); [left; done|].
  right. eexists. split; [reflexivity|]. split_and!; simpl; [split; simpl; lia|done..].
Qed.

Lemma sbrks_spec incrs : ∀ h, heap_wf h → Forall (λ n, 0 ≤ n < 2 ^ 31) incrs →
  let '(blocks, h') := sbrks h incrs in
  Forall (λ '(p, n), program_break h ≤ p ∧ p + n < program_break_end h) blocks ∧
  StronglySorted (λ '(p, n) '(q, _), p + n ≤ q) blocks ∧
  heap_wf h' ∧ program_break_end h' = program_break_end h.
Proof.
  induction incrs as [|n ns IH]; intros h Hh Hns; simpl.
  { split_and!; [constructor|constructor|done..]. }
  apply Forall_cons in Hns as [Hn Hns].
  destruct (sbrk_cases h n Hh Hn) as [[-> _]|(h1 & -> & Hh1 & Hb1 & He1)].
  - specialize (IH h Hh Hns). destruct (sbrks h ns). done.
  - specialize (IH h1 Hh1 Hns). destruct (sbrks h1 ns) as [blocks h2].
    destruct IH as (HF & HS & Hh2 & He2). rewrite He1 in HF. destruct Hh1 as [Hb Hend].
    split_and!; [| |done|congruence].
    + constructor; [lia|]. eapply Forall_impl; [exact HF|]. intros [p m]. lia.
    + constructor; [done|]. eapply Forall_impl; [exact HF|]. intros [p m]. lia.
Qed.

End BoundsFacts.

Import BitmapFacts AllocFacts InitFacts BoundsFacts Regions.

(** ** Properties *)

(** A bitmap over frames [1, 100) whose frames 3, 4 and 10 are marked: the input
    of the witnesses. *)
Definition sample_mm : BitmapMemoryManager :=
  mkMM {[ 0 := Z.lor (2 ^ 3) (Z.lor (2 ^ 4) (2 ^ 10)) ]} 1 100.

Lemma sample_mm_wf : mm_wf sample_mm.
Proof.
  split; simpl; [|rewrite kFrameCount_val; lia].
  intros i. unfold arr_read. destruct (decide (i = 0)) as [->|].
  - rewrite lookup_singleton_eq. vm_compute. split; [discriminate|reflexivity].
  - rewrite lookup_singleton_ne by done. simpl. lia.
Qed.

(** C17 Allocate
    [Allocate] is first fit.  It always returns (the loop's fuel suffices and no
    access leaves the bitmap): on success the lowest frame of the range from
    which [num] frames are free, with exactly those frames newly marked; on
    [kNoEnoughMemory] no window of [num] frames of the range is free and the
    bitmap is unchanged. *)
Theorem Allocate_first_fit (mm : BitmapMemoryManager) (num : Z)
  (Hwf : mm_wf mm) (Hnum : 0 < num) (Hrange : range_begin_ mm ≤ range_end_ mm) :
  ∃ r mm', Allocate mm num = Done (r, mm') ∧ mm_wf mm' ∧
    ((error r = kSuccess ∧
      range_begin_ mm ≤ value r ∧ value r + num ≤ range_end_ mm ∧
      (∀ g, value r ≤ g < value r + num → allocated mm g = false) ∧
      (∀ f, range_begin_ mm ≤ f < value r → ∃ g, f ≤ g < f + num ∧ allocated mm g = true) ∧
      (∀ g, frame_ok g → allocated mm' g =
         if (value r <=? g) && (g <? value r + num) then true else allocated mm g)) ∨
     (error r = kNoEnoughMemory ∧ value r = kNullFrame ∧ mm' = mm ∧
      ∀ f, range_begin_ mm ≤ f → f + num ≤ range_end_ mm →
        ∃ g, f ≤ g < f + num ∧ allocated mm g = true)).
Proof.
  destruct (Allocate_spec mm num Hwf Hnum Hrange) as (r & mm' & E & Hwf' & Hpost).
  exists r, mm'. split; [done|]. split; [done|]. unfold allocate_post in Hpost.
  destruct (error r) eqn:Her; try done.
  - left. destruct Hpost as (? & ? & Hfree & Hbl & [Hm _ _]). split_and!; done.
  - right. destruct Hpost as (? & ? & Hbl). split_and!; [done..|]. intros f ??. apply (Hbl f). lia.
Qed.

Lemma Allocate_first_fit_witness :
  ∃ r mm', Allocate sample_mm 5 = Done (r, mm') ∧ value r = 5 ∧ mm_wf mm'.
Proof.
  destruct (Allocate_first_fit sample_mm 5 sample_mm_wf ltac:(lia) ltac:(simpl; lia))
    as (r & mm' & E & Hwf & _).
  exists r, mm'. split; [exact E|]. split; [|exact Hwf].
  assert (∃ mm1, Allocate sample_mm 5 = Done (mkWithError 5 kSuccess, mm1)) as [mm1 E1]
    by (eexists; vm_compute; reflexivity).
  rewrite E1 in E. injection E as <- _. reflexivity.
Defined.

(** [Free] undoes [Allocate]: after a successful allocation, freeing the frames
    it returned succeeds and leaves every frame marked as it was before. *)
Theorem Free_after_Allocate (mm mm1 : BitmapMemoryManager) (r : WithError Z) (num : Z)
  (Hwf : mm_wf mm) (Hnum : 0 < num) (Hrange : range_begin_ mm ≤ range_end_ mm)
  (Halloc : Allocate mm num = Done (r, mm1)) (Hok : error r = kSuccess) :
  ∃ mm2, Free mm1 (value r) num = Done (kSuccess, mm2) ∧ mm_wf mm2 ∧
    ∀ g, frame_ok g → allocated mm2 g = allocated mm g.
Proof.
  destruct (Allocate_spec mm num Hwf Hnum Hrange) as (r' & mm' & E & Hwf' & Hpost).
  rewrite Halloc in E. injection E as <- <-. unfold allocate_post in Hpost. rewrite Hok in Hpost.
  destruct Hpost as (Hlo & Hhi & Hfree & _ & [Hm _ _]). pose proof (wf_range _ Hwf).
  destruct (Free_spec mm1 (value r) num) as (mm2 & E2 & Hwf2 & [Hm2 _ _]); [done|lia..|].
  exists mm2. split_and!; [done..|]. intros g Hg. rewrite Hm2, Hm by done.
  specialize (Hfree g). unfold in_run. bool_cases; simpl; try done. symmetry. apply Hfree. lia.
Qed.

Lemma Free_after_Allocate_witness :
  ∃ mm1 mm2, Allocate sample_mm 5 = Done (mkWithError 5 kSuccess, mm1) ∧
    Free mm1 5 5 = Done (kSuccess, mm2).
Proof.
  assert (∃ mm1, Allocate sample_mm 5 = Done (mkWithError 5 kSuccess, mm1)) as [mm1 E]
    by (eexists; vm_compute; reflexivity).
  destruct (Free_after_Allocate sample_mm mm1 _ 5 sample_mm_wf ltac:(lia) ltac:(simpl; lia) E eq_refl)
    as (mm2 & E2 & _).
  exists mm1, mm2. split; [exact E|exact E2].
Defined.

(** Stat
    [Stat] reports in [allocated_frames] the marked frames of whole bitmap lines
    only: those of [64 * (begin / 64), 64 * (end / 64)).  Frames of a last,
    partial line are left out, and frames before the range that share its first
    line are counted. *)
Theorem Stat_counts_whole_lines (mm : BitmapMemoryManager)
  (Hwf : mm_wf mm) (Hrange : range_begin_ mm ≤ range_end_ mm) :
  let lo := 64 * (range_begin_ mm / 64) in
  let hi := 64 * (range_end_ mm / 64) in
  Stat mm = Done (mkStat (count_allocated mm lo (hi - lo)) (range_end_ mm - range_begin_ mm)).
Proof.
  pose proof (wf_range _ Hwf) as [Hb He]. rewrite kFrameCount_val in *. cbv zeta.
  assert (range_begin_ mm / 64 ≤ range_end_ mm / 64) by (apply Z.div_le_mono; lia).
  assert (0 ≤ range_begin_ mm / 64) by (apply Z.div_pos; lia).
  assert (range_end_ mm / 64 ≤ 2 ^ 19) by (apply Z.div_le_upper_bound; lia).
  unfold Stat. change kBitsPerMapLine with 64.
  rewrite stat_loop_spec by (rewrite ?kMapLines_val; unfold kBitsPerMapLine; lia). simpl.
  rewrite wrap_small by lia. rewrite Z2Nat.id by lia. unfold kBitsPerMapLine.
  rewrite Z.mul_sub_distr_l, Z.add_0_l. reflexivity.
Qed.

Lemma Stat_counts_whole_lines_witness : Stat sample_mm = Done (mkStat 3 99).
Proof.
  rewrite (Stat_counts_whole_lines sample_mm sample_mm_wf ltac:(simpl; lia)).
  vm_compute. reflexivity.
Defined.

(** A machine with 256 MiB: loader data, conventional memory, a reserved hole
    and boot services data, listed out of order. *)
Definition sample_map : list MemoryDescriptor :=
  [mkDesc (memory_type_value kEfiConventionalMemory) 0x100000 0 0x9f00 0;
   mkDesc (memory_type_value kEfiLoaderData) 0 0 0x100 0;
   mkDesc (memory_type_value kEfiBootServicesData) 0xa100000 0 0x5f00 0;
   mkDesc (memory_type_value kEfiReservedMemoryType) 0xa000000 0 0x100 0].

Lemma sample_map_ok : map_ok kMaxPhysicalMemoryBytes sample_map.
Proof.
  split.
  - repeat constructor; vm_compute; intros; discriminate.
  - repeat (apply FOP_cons; [repeat (apply Forall_cons_2); try apply Forall_nil_2|]);
      [..|apply FOP_nil]; vm_compute; first [left; discriminate|right; discriminate].
Qed.

(** Some frame of the map is usable, so that the range is not empty. *)
Definition has_room (o : outcome BitmapMemoryManager) : bool :=
  match o with Done mm => 1 <=? range_end_ mm | _ => false end.

Lemma has_room_true o : has_room o = true → ∃ mm0, o = Done mm0 ∧ 1 ≤ range_end_ mm0.
Proof. destruct o as [mm| |]; simpl; [|done..]. intros H%Z.leb_le. eauto. Qed.

Lemma sample_map_room : has_room (setup_bitmap sample_map) = true.
Proof. vm_compute. reflexivity. Qed.

(** C7 InitializeMemoryManager
    For every well-formed UEFI memory map [InitializeMemoryManager] returns with
    no access outside the bitmap.  Afterwards the frames of [1, range_end_) still
    free are usable memory of the map outside the heap, and the heap, when it
    could be placed, is [kHeapFrames] usable frames, all of them marked: what
    later calls of [Allocate] hand out is usable memory and never the heap. *)
Theorem InitializeMemoryManager_safe (m : list MemoryDescriptor)
  (Hok : map_ok kMaxPhysicalMemoryBytes m)
  (Hroom : has_room (setup_bitmap m) = true) :
  ∃ r mm h, InitializeMemoryManager m = Done (r, mm) ∧ mm_wf mm ∧ range_begin_ mm = 1 ∧
    ((error r = kSuccess ∧ program_break (value r) = h * kBytesPerFrame ∧
      program_break_end (value r) = (h + kHeapFrames) * kBytesPerFrame ∧ 1 ≤ h ∧
      (∀ f, h ≤ f < h + kHeapFrames → usable m f) ∧
      (∀ f, 1 ≤ f < range_end_ mm → allocated mm f = false ↔
         usable m f ∧ ¬ (h ≤ f < h + kHeapFrames))) ∨
     (error r = kNoEnoughMemory ∧
      ∀ f, 1 ≤ f < range_end_ mm → allocated mm f = false ↔ usable m f)).
Proof.
  apply has_room_true in Hroom as (mm0 & E0 & Hroom).
  destruct (setup_bitmap_spec m Hok) as (mm1 & E & Hwf & Hb & Hf).
  rewrite E in E0. injection E0 as <-.
  destruct (Allocate_spec mm1 kHeapFrames Hwf ltac:(done) ltac:(lia)) as (r & mm & EA & Hwf2 & Hpost).
  pose proof (wf_range _ Hwf) as [_ He]. pose proof kFrameCount_val.
  rewrite (InitializeMemoryManager_eq m mm1 E), (InitializeHeap_eq _ _ _ EA).
  unfold allocate_post in Hpost. destruct (error r) eqn:Her; try done.
  - destruct Hpost as (Hlo & Hhi & Hfree & _ & [Hm Hmb Hme]).
    pose proof kHeapFrames_val. unfold kBytesPerFrame, KiB. rewrite !(wrap_small 64) by lia.
    eexists _, mm, (value r). split; [reflexivity|]. split_and!; [done|congruence|].
    left. simpl. split_and!; [done|lia|lia|lia| |].
    + intros f ?. apply Hf; [lia|]. by apply Hfree.
    + intros f Hlt. rewrite Hm, <- Hf by (unfold frame_ok; lia).
      unfold in_run. bool_cases; simpl; intuition (lia || done).
  - destruct Hpost as (_ & -> & _). eexists _, mm1, 0. split; [reflexivity|].
    split_and!; [done|done|]. right. split; [done|]. intros f ?. apply Hf. lia.
Qed.

Lemma InitializeMemoryManager_safe_witness :
  ∃ r mm h, InitializeMemoryManager sample_map = Done (r, mm) ∧ mm_wf mm ∧ range_begin_ mm = 1 ∧
    (error r = kSuccess ∧ program_break (value r) = h * kBytesPerFrame ∨ error r = kNoEnoughMemory).
Proof.
  destruct (InitializeMemoryManager_safe sample_map sample_map_ok sample_map_room)
    as (r & mm & h & E & Hwf & Hb & H).
  exists r, mm, h. split; [exact E|]. split; [exact Hwf|]. split; [exact Hb|].
  destruct H as [(H1 & H2 & _)|[H _]]; [left; split; assumption|right; exact H].
Defined.

(** A descriptor of unusable memory that ends above 128 GiB makes the boot loop
    write outside [alloc_map_]: nothing bounds [MarkAllocated] by [kFrameCount]. *)
Theorem mark_descriptor_out_of_bitmap (mm : BitmapMemoryManager) (available_end : Z)
  (d : MemoryDescriptor)
  (Hwf : mm_wf mm) (Hae : 0 ≤ available_end) (Hkind : IsAvailable (type d) = false)
  (Hstart : 0 ≤ physical_start d) (Haligned : physical_start d mod kUEFIPageSize = 0)
  (Hpages : 0 < number_of_pages d)
  (Hend : kMaxPhysicalMemoryBytes < phys_end d < 2 ^ 64) :
  mark_descriptor d (mm, available_end) = Undef.
Proof.
  unfold mark_descriptor, phys_end in *. change kUEFIPageSize with 4096 in *.
  change kMaxPhysicalMemoryBytes with (2 ^ 37) in Hend. change kBytesPerFrame with 4096.
  assert (0 ≤ available_end / 4096) by (apply Z.div_pos; lia).
  assert (∃ q, physical_start d = q * 4096) as [q Eq].
  { exists (physical_start d / 4096). Z.div_mod_to_equations. lia. }
  assert (∀ mm1, mm_wf mm1 → MarkAllocated mm1 (physical_start d / 4096)
            (u64 (number_of_pages d * 4096) / 4096) = Undef) as Hmark.
  { intros mm1 Hwf1. rewrite wrap_small by lia. rewrite Eq, !Z.div_mul by lia.
    apply mark_range_undef; [done|lia..|]. pose proof kFrameCount_val. lia. }
  rewrite Hkind. destruct (Z.ltb_spec available_end (physical_start d)) as [Hlt|].
  - destruct (mark_range_cases mm (available_end / 4096)
      ((physical_start d - available_end) / 4096)) as [->|(mm1 & -> & Hwf1)];
      [done|done|apply Z.div_pos; lia|Z.div_mod_to_equations; lia|done|].
    simpl. by rewrite Hmark.
  - simpl. by rewrite Hmark.
Qed.

(** The reserved range at 1012 GiB of a machine with an AMD IOMMU. *)
Definition hypertransport : MemoryDescriptor :=
  mkDesc (memory_type_value kEfiReservedMemoryType) 0xfd00000000 0 0x300000 0.

Lemma mark_descriptor_out_of_bitmap_witness :
  mark_descriptor hypertransport (sample_mm, 0x10000000) = Undef.
Proof.
  apply (mark_descriptor_out_of_bitmap sample_mm 0x10000000 hypertransport sample_mm_wf);
    vm_compute; first [reflexivity|discriminate|split; first [reflexivity|discriminate]].
Defined.

(** C39 sbrk
    A run of [sbrk] calls with non-negative increments hands out blocks of the
    heap that follow one another without overlapping; a refused call leaves the
    break where it was. *)
Theorem sbrk_blocks_disjoint (h : Heap) (incrs : list Z)
  (Hh : heap_wf h) (Hincrs : Forall (λ n, 0 ≤ n < 2 ^ 31) incrs) :
  let '(blocks, h') := sbrks h incrs in
  Forall (λ '(p, n), program_break h ≤ p ∧ p + n < program_break_end h) blocks ∧
  StronglySorted (λ '(p, n) '(q, _), p + n ≤ q) blocks ∧
  heap_wf h' ∧ program_break_end h' = program_break_end h.
Proof. by apply sbrks_spec. Qed.

Lemma sbrk_blocks_disjoint_witness :
  fst (sbrks (mkHeap 0x100000 0x101000) [0x400; 0x1000; 0x800]) = [(0x100000, 0x400); (0x100400, 0x800)] ∧
  heap_wf (snd (sbrks (mkHeap 0x100000 0x101000) [0x400; 0x1000; 0x800])).
Proof.
  split; [reflexivity|].
  exact (proj1 (proj2 (proj2 (sbrk_blocks_disjoint (mkHeap 0x100000 0x101000) [0x400; 0x1000; 0x800]
    ltac:(unfold heap_wf; simpl; lia) ltac:(repeat constructor; lia))))).
Defined.
