(* ===== verification/FrameAllocator.v ===== *)
(** The interface through which paging uses the frame allocator: the calls
    [memory_manager->Allocate(1)] and [memory_manager->Free(frame, 1)], the laws
    the paging code relies on, and their proof for the bitmap allocator. *)
From S2P Require Import Prelude ErrorCode MemoryMap MemoryManager.
Import BitmapFacts AllocFacts.

(** The operations, on an allocator state [A]. *)
Class FrameAllocator (A : Type) := {
  alloc_frame : A → outcome (WithError Z * A);
  free_frame : A → Z → outcome (Code * A);
}.

(** What the allocator promises: it always returns; a successful allocation
    hands out one frame that was not in use, an unsuccessful one changes
    nothing; a free releases exactly its frame. *)
Class FrameAllocatorLaws (A : Type) `{FrameAllocator A} := {
  alloc_ok : A → Prop;
  in_use : A → Z → bool;
  in_use_bound a f : alloc_ok a → in_use a f = true → 0 ≤ f < kFrameCount;
  alloc_frame_spec a : alloc_ok a →
    ∃ r a', alloc_frame a = Done (r, a') ∧ alloc_ok a' ∧
      ((error r = kSuccess ∧ 0 < value r < kFrameCount ∧ in_use a (value r) = false ∧
        ∀ g, in_use a' g = (g =? value r) || in_use a g) ∨
       (error r = kNoEnoughMemory ∧ ∀ g, in_use a' g = in_use a g));
  free_frame_spec a f : alloc_ok a → 0 ≤ f < kFrameCount →
    ∃ a', free_frame a f = Done (kSuccess, a') ∧ alloc_ok a' ∧
      ∀ g, in_use a' g = negb (g =? f) && in_use a g;
}.

#[export] Instance bitmap_allocator : FrameAllocator BitmapMemoryManager := {|
  alloc_frame mm := Allocate mm 1;
  free_frame mm f := Free mm f 1;
|}.

Definition bitmap_ok (mm : BitmapMemoryManager) : Prop :=
  mm_wf mm ∧ 1 ≤ range_begin_ mm ∧ range_begin_ mm ≤ range_end_ mm.

Definition bitmap_in_use (mm : BitmapMemoryManager) (f : Z) : bool :=
  (0 <=? f) && (f <? kFrameCount) && allocated mm f.

Lemma bitmap_in_use_marks b mm mm' f n g : marks b f n mm mm' → 0 ≤ f → f + n ≤ kFrameCount →
  bitmap_in_use mm' g = if in_run f n g then b else bitmap_in_use mm g.
Proof.
  intros [Hm _ _] Hf Hn. unfold bitmap_in_use.
  destruct ((0 <=? g) && (g <? kFrameCount)) eqn:Hg; simpl.
  - rewrite Hm; [done|]. apply andb_true_iff in Hg as [?%Z.leb_le ?%Z.ltb_lt]. done.
  - unfold in_run. destruct (Z.leb_spec f g), (Z.ltb_spec g (f + n)); simpl; try done.
    apply andb_false_iff in Hg as [?%Z.leb_gt|?%Z.ltb_ge]; lia.
Qed.

Lemma in_run_one f g : in_run f 1 g = (g =? f).
Proof. unfold in_run. bool_lia. Qed.

#[export] Program Instance bitmap_allocator_laws : FrameAllocatorLaws BitmapMemoryManager := {|
  alloc_ok := bitmap_ok;
  in_use := bitmap_in_use;
|}.
Next Obligation.
  intros mm f _ H. unfold bitmap_in_use in H.
  apply andb_true_iff in H as [[?%Z.leb_le ?%Z.ltb_lt]%andb_true_iff _]. done.
Qed.
Next Obligation.
  intros mm (Hwf & Hb & Hr). destruct (Allocate_spec mm 1 Hwf ltac:(lia) Hr) as (r & mm' & E & Hwf' & Hp).
  exists r, mm'. split; [done|]. unfold allocate_post in Hp.
  pose proof (wf_range _ Hwf) as [_ He].
  destruct (error r) eqn:Her; try done.
  - destruct Hp as (Hlo & Hhi & Hfree & _ & Hm). pose proof (marks_begin _ _ _ _ _ Hm).
    pose proof (marks_end _ _ _ _ _ Hm).
    split; [split_and!; [done|lia|lia]|]. left. split_and!; [done|lia|lia| |].
    + unfold bitmap_in_use. rewrite (Hfree (value r)) by lia. apply andb_false_r.
    + intros g. rewrite (bitmap_in_use_marks _ _ _ _ _ g Hm) by lia. rewrite in_run_one.
      by destruct (g =? value r).
  - destruct Hp as (_ & -> & _). split; [done|]. right. done.
Qed.
Next Obligation.
  intros mm f (Hwf & Hb & Hr) Hf.
  destruct (Free_spec mm f 1) as (mm' & E & Hwf' & Hm); [done|lia..|].
  exists mm'. split; [done|]. pose proof (marks_begin _ _ _ _ _ Hm).
  pose proof (marks_end _ _ _ _ _ Hm). split; [split_and!; [done|lia|lia]|].
  intros g. rewrite (bitmap_in_use_marks _ _ _ _ _ g Hm) by lia. rewrite in_run_one.
  by destruct (g =? f).
Qed.
