(* ===== verification/Paging.v ===== *)
(** Four-level paging: src/kernel/paging.{hpp,cpp}.  Page tables live in a
    memory of 64-bit words; the kernel reaches them at their physical
    addresses, through the identity mapping of [SetupIdentityPageTable].  Frames
    come from a [FrameAllocator]. *)
From S2P Require Import Prelude ErrorCode MemoryManager FrameAllocator.

(** ** Linear addresses and page map entries *)

(** [LinearAddress4Level::Part] *)
Definition Part (page_map_level : nat) (addr : Z) : Z :=
  match page_map_level with
  | 0%nat => field addr 0 12
  | 1%nat => field addr 12 9
  | 2%nat => field addr 21 9
  | 3%nat => field addr 30 9
  | 4%nat => field addr 39 9
  | _ => 0
  end.

(** [LinearAddress4Level::SetPart] *)
Definition SetPart (page_map_level : nat) (value addr : Z) : Z :=
  match page_map_level with
  | 0%nat => set_field addr 0 12 value
  | 1%nat => set_field addr 12 9 value
  | 2%nat => set_field addr 21 9 value
  | 3%nat => set_field addr 30 9 value
  | 4%nat => set_field addr 39 9 value
  | _ => addr
  end.

(** The bit fields of [union PageMapEntry]. *)
Definition bit (e i : Z) : bool := negb (field e i 1 =? 0).
Definition set_bit (e i : Z) (b : bool) : Z := set_field e i 1 (if b then 1 else 0).

Definition present (e : Z) : bool := bit e 0.
Definition writable (e : Z) : bool := bit e 1.
Definition user (e : Z) : bool := bit e 2.
Definition huge_page (e : Z) : bool := bit e 7.
Definition set_present (e : Z) (b : bool) : Z := set_bit e 0 b.
Definition set_writable (e : Z) (b : bool) : Z := set_bit e 1 b.
Definition set_user (e : Z) (b : bool) : Z := set_bit e 2 b.

Definition Pointer (e : Z) : Z := u64 (Z.shiftl (field e 12 40) 12).
Definition SetPointer (e p : Z) : Z := set_field e 12 40 (Z.shiftr p 12).

Definition kPageSize4K : Z := 4096.
Definition kPageSize2M : Z := 512 * kPageSize4K.
Definition kPageSize1G : Z := 512 * kPageSize2M.
Definition kPageDirectoryCount : Z := 64.

#[global] Arguments Part : simpl never.
#[global] Arguments SetPart : simpl never.

(** ** Memory *)

(** The address of [table[i]]. *)
Definition slot (table i : Z) : Z := table + 8 * i.

(** [memset(p, 0, 4096)] *)
Definition zero_page (m : gmap Z Z) (p : Z) : gmap Z Z :=
  foldr (λ i m, <[slot p i := 0]> m) m (seqZ 0 512).

(** [memcpy(dst, src, 4096)] between page-aligned physical addresses. *)
Definition copy_page (m : gmap Z Z) (dst src : Z) : gmap Z Z :=
  foldr (λ i m', <[slot dst i := arr_read m (slot src i)]> m') m (seqZ 0 512).

(** The processor's translation of a linear address through the tables at
    [table], with the large pages of levels 3 and 2. *)
Fixpoint translate (m : gmap Z Z) (level : nat) (table va : Z) : option Z :=
  match level with
  | O => None
  | S level' =>
      let e := arr_read m (slot table (Part level va)) in
      if negb (present e) then None
      else match level' with
           | O => Some (Pointer e + va mod kPageSize4K)
           | 1%nat => if huge_page e then Some (Pointer e / kPageSize2M * kPageSize2M + va mod kPageSize2M)
                else translate m level' (Pointer e) va
           | 2%nat => if huge_page e then Some (Pointer e / kPageSize1G * kPageSize1G + va mod kPageSize1G)
                else translate m level' (Pointer e) va
           | _ => translate m level' (Pointer e) va
           end
  end.

(** What the paging code reads and writes: the register CR3, the memory and the
    frame allocator. *)
Record pstate (A : Type) : Type := mkPS { cr3 : Z; mem : gmap Z Z; frames : A }.
Arguments mkPS {A} cr3 mem frames.
Arguments cr3 {A} _.
Arguments mem {A} _.
Arguments frames {A} _.

Definition rd {A} (s : pstate A) (a : Z) : Z := arr_read (mem s) a.
Definition wr {A} (s : pstate A) (a v : Z) : pstate A := mkPS (cr3 s) (<[a := v]> (mem s)) (frames s).

(** A file mapping of a task. *)
Record FileMapping : Set := mkFM { fd : Z; vaddr_begin : Z; vaddr_end : Z }.

(** ** The identity mapping *)

(** [SetupIdentityPageTable]; [pml4_table], [pdp_table] and [page_directory] are
    the addresses of the static arrays. *)
Section identity.
Context {A : Type}.
Variables pml4_table pdp_table page_directory : Z.

Definition directory (i_pdpt : Z) : Z := page_directory + i_pdpt * kPageSize4K.

Definition identity_entry (i_pdpt i_pd : Z) : Z :=
  Z.lor (u64 (i_pdpt * kPageSize1G + i_pd * kPageSize2M)) 0x083.

Definition fill_directory (i_pdpt : Z) (s : pstate A) : pstate A :=
  foldl (λ s i_pd, wr s (slot (directory i_pdpt) i_pd) (identity_entry i_pdpt i_pd))
    (wr s (slot pdp_table i_pdpt) (Z.lor (directory i_pdpt) 0x003)) (seqZ 0 512).

(** [ResetCR3] *)
Definition ResetCR3 (s : pstate A) : pstate A := mkPS pml4_table (mem s) (frames s).

Definition SetupIdentityPageTable (s : pstate A) : pstate A :=
  ResetCR3
    (foldl (λ s i_pdpt, fill_directory i_pdpt s)
       (wr s (slot pml4_table 0) (Z.lor pdp_table 0x0003)) (seqZ 0 kPageDirectoryCount)).
End identity.

(** ** Page maps *)
Section paging.
Context {A : Type} `{FA : FrameAllocator A}.
Implicit Types s : pstate A.

Definition NewPageMap s : outcome (WithError Z * pstate A) :=
  '(frame, fa) ← alloc_frame (frames s);
  if error_bool (error frame) then mret (mkWithError 0 (error frame), mkPS (cr3 s) (mem s) fa)
  else
    let e := Frame (value frame) in
    mret (mkWithError e kSuccess, mkPS (cr3 s) (zero_page (mem s) e) fa).

Definition FreePageMap s (table : Z) : outcome (Code * pstate A) :=
  '(err, fa) ← free_frame (frames s) (table / kBytesPerFrame);
  mret (err, mkPS (cr3 s) (mem s) fa).

(** [entry] is the entry's address. *)
Definition SetNewPageMapIfNotPresent s (entry : Z) : outcome (WithError Z * pstate A) :=
  if present (rd s entry) then mret (mkWithError (Pointer (rd s entry)) kSuccess, s)
  else
    '(child_map, s) ← NewPageMap s;
    if error_bool (error child_map) then mret (mkWithError 0 (error child_map), s)
    else
      let s := wr s entry (SetPointer (rd s entry) (value child_map)) in
      let s := wr s entry (set_present (rd s entry) true) in
      mret (mkWithError (value child_map) kSuccess, s).

(** [for (level = n; level >= 1; --level) addr.SetPart(level, 0)] *)
Fixpoint clear_parts (n : nat) (addr : Z) : Z :=
  match n with
  | O => addr
  | S n' => clear_parts n' (SetPart n 0 addr)
  end.

(** The [while] loop of [SetupPageMap]; [rec] is the call one level down. *)
Fixpoint setup_loop (rec : pstate A → Z → Z → Z → outcome (WithError Z * pstate A))
    (page_map_level : nat) (writable : bool) (fuel : nat)
    s (page_map addr num_4kpages : Z) : outcome (WithError Z * pstate A) :=
  if num_4kpages <=? 0 then mret (mkWithError num_4kpages kSuccess, s)
  else
    match fuel with
    | O => NoFuel
    | S fuel' =>
        let entry_index := Part page_map_level addr in
        let entry := slot page_map entry_index in
        '(child_map, s) ← SetNewPageMapIfNotPresent s entry;
        if error_bool (error child_map) then mret (mkWithError num_4kpages (error child_map), s)
        else
          let s := wr s entry (set_user (rd s entry) true) in
          let finish (num_4kpages : Z) s :=
            if entry_index =? 511 then mret (mkWithError num_4kpages kSuccess, s)
            else
              let addr := SetPart page_map_level (entry_index + 1) addr in
              let addr := clear_parts (page_map_level - 1) addr in
              setup_loop rec page_map_level writable fuel' s page_map addr num_4kpages in
          if bool_decide (page_map_level = 1%nat) then
            let s := wr s entry (set_writable (rd s entry) writable) in
            finish (num_4kpages - 1) s
          else
            let s := wr s entry (set_writable (rd s entry) true) in
            '(num_remain_pages, s) ← rec s (value child_map) addr num_4kpages;
            if error_bool (error num_remain_pages)
            then mret (mkWithError num_4kpages (error num_remain_pages), s)
            else finish (value num_remain_pages) s
    end.

(** The table has 512 entries, so 512 turns of the loop are enough. *)
Fixpoint SetupPageMap (page_map_level : nat) (writable : bool)
    s (page_map addr num_4kpages : Z) {struct page_map_level}
    : outcome (WithError Z * pstate A) :=
  match page_map_level with
  | O => Undef
  | S level' =>
      setup_loop (SetupPageMap level' writable) page_map_level writable 512
        s page_map addr num_4kpages
  end.

Definition SetupPageMaps s (addr num_4kpages : Z) (writable : bool)
    : outcome (Code * pstate A) :=
  '(r, s) ← SetupPageMap 4 writable s (cr3 s) addr num_4kpages;
  mret (error r, s).

(** The loop [for (i = i; i < 512; ++i)] of [CleanPageMap], [k] turns left. *)
Fixpoint clean_loop (rec : pstate A → Z → Z → outcome (Code * pstate A))
    (page_map_level : nat) (addr : Z) (k : nat) (i : Z) s (page_map : Z)
    : outcome (Code * pstate A) :=
  match k with
  | O => mret (kSuccess, s)
  | S k' =>
      let entry := rd s (slot page_map i) in
      if negb (present entry) then clean_loop rec page_map_level addr k' (i + 1) s page_map
      else
        '(err, s) ← (if bool_decide (1 < page_map_level)%nat then rec s (Pointer entry) addr
                     else mret (kSuccess, s));
        if error_bool err then mret (err, s)
        else
          '(err, s) ← (if writable entry then FreePageMap s (Pointer entry) else mret (kSuccess, s));
          if error_bool err then mret (err, s)
          else clean_loop rec page_map_level addr k' (i + 1) (wr s (slot page_map i) 0) page_map
  end.

Fixpoint CleanPageMap (page_map_level : nat) s (page_map addr : Z) : outcome (Code * pstate A) :=
  match page_map_level with
  | O => Undef
  | S level' =>
      let i := Part page_map_level addr in
      clean_loop (CleanPageMap level') page_map_level addr (Z.to_nat (512 - i)) i s page_map
  end.

Definition CleanPageMaps s (addr : Z) : outcome (Code * pstate A) := CleanPageMap 4 s (cr3 s) addr.

(** [SetPageContent]; [InvalidateTLB] has no effect here: [translate] reads the tables. *)
Fixpoint SetPageContent s (table : Z) (part : nat) (addr content : Z) : outcome (Code * pstate A) :=
  match part with
  | O => Undef
  | S part' =>
      let i := Part part addr in
      match part' with
      | O =>
          let s := wr s (slot table i) (SetPointer (rd s (slot table i)) content) in
          let s := wr s (slot table i) (set_writable (rd s (slot table i)) true) in
          mret (kSuccess, s)
      | _ => SetPageContent s (Pointer (rd s (slot table i))) part' addr content
      end
  end.

(** The faulting page is read through the tables; reading an unmapped page is [Undef]. *)
Definition CopyOnePage s (causal_addr : Z) : outcome (Code * pstate A) :=
  '(p, s) ← NewPageMap s;
  if error_bool (error p) then mret (error p, s)
  else
    let aligned_addr := Z.land causal_addr 0xfffffffffffff000 in
    src ← of_option (translate (mem s) 4 (cr3 s) aligned_addr);
    let s := mkPS (cr3 s) (copy_page (mem s) (value p) src) (frames s) in
    SetPageContent s (cr3 s) 4 causal_addr (value p).

(** The two loops of [CopyPageMaps] ([part == 1], and above), [k] turns left. *)
Fixpoint copy_leaves (dest src : Z) (k : nat) (i : Z) s : pstate A :=
  match k with
  | O => s
  | S k' =>
      if negb (present (rd s (slot src i))) then copy_leaves dest src k' (i + 1) s
      else
        let s := wr s (slot dest i) (rd s (slot src i)) in
        let s := wr s (slot dest i) (set_writable (rd s (slot dest i)) false) in
        copy_leaves dest src k' (i + 1) s
  end.

Fixpoint copy_tables (rec : pstate A → Z → Z → outcome (Code * pstate A))
    (dest src : Z) (k : nat) (i : Z) s : outcome (Code * pstate A) :=
  match k with
  | O => mret (kSuccess, s)
  | S k' =>
      if negb (present (rd s (slot src i))) then copy_tables rec dest src k' (i + 1) s
      else
        '(table, s) ← NewPageMap s;
        if error_bool (error table) then mret (error table, s)
        else
          let s := wr s (slot dest i) (rd s (slot src i)) in
          let s := wr s (slot dest i) (SetPointer (rd s (slot dest i)) (value table)) in
          '(err, s) ← rec s (value table) (Pointer (rd s (slot src i)));
          if error_bool err then mret (err, s)
          else copy_tables rec dest src k' (i + 1) s
  end.

Fixpoint CopyPageMaps (part : nat) (start : Z) s (dest src : Z) : outcome (Code * pstate A) :=
  match part with
  | O => Undef
  | 1%nat => mret (kSuccess, copy_leaves dest src (Z.to_nat (512 - start)) start s)
  | S part' => copy_tables (CopyPageMaps part' 0) dest src (Z.to_nat (512 - start)) start s
  end.

(** ** Page faults *)

Fixpoint FindFileMapping (fmaps : list FileMapping) (causal_vaddr : Z) : option FileMapping :=
  match fmaps with
  | [] => None
  | m :: fmaps' =>
      if (vaddr_begin m <=? causal_vaddr) && (causal_vaddr <? vaddr_end m) then Some m
      else FindFileMapping fmaps' causal_vaddr
  end.

Section fault.
(** The virtual [FileDescriptor::Load] of the task's descriptors: descriptor,
    buffer address, length, offset. *)
Context {FD : Type}.
Variable Load : FD → Z → Z → Z → pstate A → outcome (Z * pstate A).

Definition PreparePageCache s (d : FD) (m : FileMapping) (causal_vaddr : Z)
    : outcome (Code * pstate A) :=
  let page_vaddr := SetPart 0 0 causal_vaddr in
  '(err, s) ← SetupPageMaps s page_vaddr 1 true;
  if error_bool err then mret (err, s)
  else
    let file_offset := swrap 64 (page_vaddr - vaddr_begin m) in
    '(_, s) ← Load d page_vaddr 4096 file_offset s;
    mret (kSuccess, s).

(** [HandlePageFault], for a current task with demand-paging range
    [dpaging_begin, dpaging_end), file maps and open files ([None]: a null pointer). *)
Definition HandlePageFault s (dpaging_begin dpaging_end : Z) (file_maps : list FileMapping)
    (files : list (option FD)) (error_code causal_addr : Z) : outcome (Code * pstate A) :=
  let present := negb (Z.land (Z.shiftr error_code 0) 1 =? 0) in
  let rw := negb (Z.land (Z.shiftr error_code 1) 1 =? 0) in
  let user := negb (Z.land (Z.shiftr error_code 2) 1 =? 0) in
  if present && rw && user then CopyOnePage s causal_addr
  else if present then mret (kAlreadyAllocated, s)
  else if (dpaging_begin <=? causal_addr) && (causal_addr <? dpaging_end)
  then SetupPageMaps s causal_addr 1 true
  else
    match FindFileMapping file_maps causal_addr with
    | Some m =>
        if fd m <? 0 then Undef
        else
          d ← of_option (files !! Z.to_nat (fd m));
          d ← of_option d;
          PreparePageCache s d m causal_addr
    | None => mret (kIndexOutOfRange, s)
    end.
End fault.
End paging.

(** ** Entries, pages and addresses *)
Module EntryFacts.

Lemma bit_set_bit e i j b : 0 ≤ i → 0 ≤ j →
  bit (set_bit e i b) j = if decide (i = j) then b else bit e j.
Proof.
  intros Hi Hj. unfold bit, set_bit. case_decide as H.
  - subst j. rewrite field_set_same by lia. by destruct b.
  - by rewrite field_set_other by lia.
Qed.

Lemma bit_SetPointer e p i : 0 ≤ i < 12 → bit (SetPointer e p) i = bit e i.
Proof. intros. unfold bit, SetPointer. by rewrite field_set_other by lia. Qed.

Lemma Pointer_set_bit e i b : 0 ≤ i < 12 → Pointer (set_bit e i b) = Pointer e.
Proof. intros. unfold Pointer, set_bit. by rewrite field_set_other by lia. Qed.

Lemma Pointer_aligned e : Pointer e mod 4096 = 0.
Proof.
  unfold Pointer. pose proof (field_bound e 12 40 ltac:(lia)).
  rewrite Z.shiftl_mul_pow2, wrap_small by lia. apply Z.mod_mul. lia.
Qed.

Lemma Pointer_page e : Pointer e = 4096 * (Pointer e / 4096).
Proof. pose proof (Pointer_aligned e). dlia. Qed.

Lemma Pointer_SetPointer e f : 0 ≤ f < 2 ^ 40 → Pointer (SetPointer e (4096 * f)) = 4096 * f.
Proof.
  intros Hf. unfold Pointer, SetPointer. rewrite field_set_same by lia.
  rewrite Z.shiftr_div_pow2, Z.shiftl_mul_pow2 by lia.
  replace (4096 * f / 2 ^ 12) with f by (change (2 ^ 12) with 4096; dlia).
  rewrite (wrap_small 40), wrap_small by lia. lia.
Qed.

Lemma slot_page f i : 0 ≤ i < 512 → slot (4096 * f) i / 4096 = f.
Proof. unfold slot. intros. dlia. Qed.

Lemma slot_inj p i j : slot p i = slot p j → i = j.
Proof. unfold slot. lia. Qed.

Lemma Frame_page f : 0 ≤ f < kFrameCount → Frame f = 4096 * f.
Proof. unfold Frame. rewrite BitmapFacts.kFrameCount_val. intros. change kBytesPerFrame with 4096. rewrite wrap_small; lia. Qed.

(** A loop that fills the words of a page. *)
Lemma fill_read (g : Z → Z) (p : Z) (n : nat) (b : Z) m a :
  arr_read (foldr (λ i m, <[slot p i := g i]> m) m (seqZ b (Z.of_nat n))) a =
    if decide (b ≤ (a - p) / 8 < b + Z.of_nat n ∧ (a - p) mod 8 = 0) then g ((a - p) / 8)
    else arr_read m a.
Proof.
  revert b. induction n as [|n IH]; intros b.
  - rewrite decide_False by lia. done.
  - rewrite seqZ_cons by lia. cbn [foldr]. replace (Z.pred (Z.of_nat (S n))) with (Z.of_nat n) by lia.
    rewrite arr_read_set, IH. clear IH. unfold slot. destruct (decide (p + 8 * b = a)) as [Hb|Hb].
    + rewrite decide_True by dlia. f_equal. dlia.
    + set (P := _ ∧ _). destruct (decide P) as [Hd|Hd]; subst P.
      * by rewrite decide_True by (split; [lia|tauto]).
      * rewrite decide_False; [done|]. intros [H1 H2]. apply Hd. split; [|done].
        destruct (decide ((a - p) / 8 = b)); [dlia|lia].
Qed.

Lemma zero_page_in m f i : 0 ≤ i < 512 → arr_read (zero_page m (4096 * f)) (slot (4096 * f) i) = 0.
Proof.
  intros. unfold zero_page. rewrite (fill_read (λ _, 0) _ 512 0).
  rewrite decide_True by (unfold slot; dlia). done.
Qed.

Lemma zero_page_out m f a : a / 4096 ≠ f → arr_read (zero_page m (4096 * f)) a = arr_read m a.
Proof.
  intros Ha. unfold zero_page. rewrite (fill_read (λ _, 0) _ 512 0).
  rewrite decide_False; [done|]. dlia.
Qed.

Lemma copy_page_in m f src i : 0 ≤ i < 512 →
  arr_read (copy_page m (4096 * f) src) (slot (4096 * f) i) = arr_read m (slot src i).
Proof.
  intros. unfold copy_page. rewrite (fill_read (λ i, arr_read m (slot src i)) _ 512 0).
  rewrite decide_True by (unfold slot; dlia). f_equal. f_equal. unfold slot. dlia.
Qed.

Lemma copy_page_out m f src a : a / 4096 ≠ f → arr_read (copy_page m (4096 * f) src) a = arr_read m a.
Proof.
  intros Ha. unfold copy_page. rewrite (fill_read (λ i, arr_read m (slot src i)) _ 512 0).
  rewrite decide_False; [done|]. dlia.
Qed.

Lemma Part_div l a : (1 ≤ l ≤ 4)%nat →
  Part l a = (a / 4096 / 512 ^ (Z.of_nat l - 1)) mod 512.
Proof.
  intros Hl. rewrite Z.div_div by lia.
  destruct l as [|[|[|[|[|l]]]]]; try lia; unfold Part; rewrite field_div by lia; reflexivity.
Qed.

Lemma SetPart_arith l v a : (1 ≤ l ≤ 4)%nat → 0 ≤ v < 512 →
  SetPart l v a = a + (v - Part l a) * (4096 * 512 ^ (Z.of_nat l - 1)).
Proof.
  intros Hl Hv.
  destruct l as [|[|[|[|[|l]]]]]; try lia; unfold SetPart, Part; rewrite set_field_arith by lia;
    rewrite wrap_small by lia; f_equal.
Qed.

(** Clearing the parts of levels [n .. 1] rounds the page number down. *)
Lemma clear_parts_page n : ∀ a, (n ≤ 4)%nat → 0 ≤ a →
  0 ≤ clear_parts n a ∧
  clear_parts n a / 4096 = a / 4096 / 512 ^ Z.of_nat n * 512 ^ Z.of_nat n.
Proof.
  induction n as [|n IH]; intros a Hn Ha.
  - simpl. rewrite Z.div_1_r. lia.
  - cbn [clear_parts]. rewrite SetPart_arith, Part_div by lia.
    replace (Z.of_nat (S n) - 1) with (Z.of_nat n) by lia.
    rewrite Nat2Z.inj_succ, Z.pow_succ_r by lia. set (t := 512 ^ Z.of_nat n).
    assert (Ht : 0 < t) by lia.
    rewrite (Z.mul_comm 512 t), <- (Z.div_div (a / 4096) t 512) by lia.
    set (q := a / 4096 / t). pose proof (Z.mod_pos_bound q 512 ltac:(lia)) as Hx.
    pose proof (Z.div_mod q 512 ltac:(lia)) as Hq. set (x := q mod 512) in *.
    assert (Hqt : t * q ≤ a / 4096) by (apply Z.mul_div_le; lia).
    assert (Hpage : (a + (0 - x) * (4096 * t)) / 4096 = a / 4096 - x * t).
    { replace (a + (0 - x) * (4096 * t)) with (a + (- (x * t)) * 4096) by ring.
      rewrite Z.div_add by lia. lia. }
    assert (0 ≤ q) by (unfold q; repeat (apply Z.div_pos; [|lia]); lia).
    assert (x ≤ q) by dlia. assert (0 ≤ a / 4096 - x * t) by nia.
    destruct (IH (a + (0 - x) * (4096 * t))) as [Hc1 Hc2]; [lia|dlia|].
    split; [done|]. rewrite Hc2, Hpage. fold t.
    replace (a / 4096 - x * t) with (a / 4096 + (- x) * t) by ring.
    rewrite Z.div_add by lia. fold q. nia.
Qed.

(** The next turn of [SetupPageMap] starts at the next entry's first page. *)
Lemma next_addr l a : (1 ≤ l ≤ 4)%nat → 0 ≤ a → Part l a ≠ 511 →
  let a' := clear_parts (l - 1) (SetPart l (Part l a + 1) a) in
  let t := 512 ^ Z.of_nat (l - 1) in
  0 ≤ a' ∧ a' / 4096 = (a / 4096 / t + 1) * t.
Proof.
  intros Hl Ha Hne a' t.
  assert (Hp : 0 ≤ Part l a < 512) by (rewrite Part_div by lia; apply Z.mod_pos_bound; lia).
  unfold a'. rewrite SetPart_arith by lia.
  replace (Z.of_nat l - 1) with (Z.of_nat (l - 1)) by lia. fold t.
  assert (0 < t) by (unfold t; lia).
  destruct (clear_parts_page (l - 1) (a + (Part l a + 1 - Part l a) * (4096 * t))) as [H1 H2]; [lia|nia|].
  split; [done|]. rewrite H2. fold t. f_equal.
  replace (a + (Part l a + 1 - Part l a) * (4096 * t)) with (a + t * 4096) by ring.
  rewrite Z.div_add, <- (Z.mul_1_l t) at 1 by lia. by rewrite Z.div_add by lia.
Qed.

(** Pages of one table: [t] pages per entry, page [v] at or after page [a]. *)
Lemma table_arith t a : 0 < t →
  a mod (t * 512) = t * (a / t mod 512) + a mod t ∧ 0 ≤ a mod t < t ∧ 0 ≤ a / t mod 512 < 512.
Proof.
  intros. split_and!; try apply Z.mod_pos_bound; try lia. rewrite Z.rem_mul_r by lia. lia.
Qed.

Lemma same_table t a v : 0 < t → a ≤ v → v / (t * 512) = a / (t * 512) →
  v / t = a / t ∨
  (a / t mod 512 ≠ 511 ∧ (a / t + 1) * t ≤ v ∧
   ((a / t + 1) * t) / (t * 512) = v / (t * 512)).
Proof.
  intros Ht Hv E. rewrite <- !(Z.div_div _ t 512) in E by lia.
  assert (Hle : a / t ≤ v / t) by (apply Z.div_le_mono; lia).
  destruct (decide (v / t = a / t)) as [|Hne]; [by left|]. right.
  rewrite <- !(Z.div_div _ t 512), Z.div_mul by lia.
  split_and!; [dlia| |dlia].
  pose proof (Z.mul_div_le v t Ht). nia.
Qed.
End EntryFacts.

(** ** [SetupPageMap] builds reachable pages *)
Module SetupFacts.
Import EntryFacts.
Section setup.
Context {A : Type} `{FA : FrameAllocator A} {FL : FrameAllocatorLaws A}.
Implicit Types s : pstate A.
(** Frames that hold data, not tables: their words must stay as they are. *)
Variable D : Z → Prop.
(** Whether the mappings are asked to be writable. *)
Variable w : bool.

Definition used s (f : Z) : bool := in_use (frames s) f.
Definition fresh s s' (f : Z) : Prop := used s' f = true ∧ used s f = false.

Record state_ok s : Prop := {
  so_alloc : alloc_ok (frames s);
  so_data : ∀ f, D f → used s f = true;
}.

(** The tree of page tables at [p], from entry [start] of its root on: allocated
    page-aligned tables that are not data.  The applications' half of the address
    space starts at entry 256; the kernel's half, below, has large pages. *)
Fixpoint tree_from s (level : nat) (p start : Z) : Prop :=
  match level with
  | O => True
  | S level' =>
      p mod 4096 = 0 ∧ used s (p / 4096) = true ∧ ¬ D (p / 4096) ∧
      ∀ i, start ≤ i < 512 → present (rd s (slot p i)) = true → tree_from s level' (Pointer (rd s (slot p i))) 0
  end.

Abbreviation tree s level p := (tree_from s level p 0).

(** [s'] extends [s]: existing entries keep their target and gain permissions
    only, new entries lead to new frames, and data is untouched. *)
Record ext s s' : Prop := {
  ext_cr3 : cr3 s' = cr3 s;
  ext_used : ∀ f, used s f = true → used s' f = true;
  ext_keep : ∀ a, used s (a / 4096) = true → present (rd s a) = true →
    present (rd s' a) = true ∧ Pointer (rd s' a) = Pointer (rd s a) ∧
    (user (rd s a) = true → user (rd s' a) = true) ∧
    (w = true → writable (rd s a) = true → writable (rd s' a) = true);
  ext_new : ∀ a, used s (a / 4096) = true → present (rd s a) = false →
    present (rd s' a) = true → fresh s s' (Pointer (rd s' a) / 4096);
  ext_fresh : ∀ f i, fresh s s' f → 0 ≤ i < 512 → present (rd s' (slot (4096 * f) i)) = true →
    fresh s s' (Pointer (rd s' (slot (4096 * f) i)) / 4096);
  ext_data : ∀ a, D (a / 4096) → rd s' a = rd s a;
}.

Lemma ext_refl s : ext s s.
Proof. split; try done; unfold fresh; intros; destruct_and?; congruence. Qed.

Lemma ext_trans s1 s2 s3 : ext s1 s2 → ext s2 s3 → ext s1 s3.
Proof.
  intros E1 E2. assert (Hf1 : ∀ f, fresh s1 s2 f → fresh s1 s3 f).
  { intros f [Hu Hn]. split; [|done]. by apply E2. }
  assert (Hf2 : ∀ f, fresh s2 s3 f → fresh s1 s3 f).
  { intros f [Hu Hn]. split; [done|]. destruct (used s1 f) eqn:E; [|done].
    apply E1 in E. congruence. }
  split.
  - by rewrite (ext_cr3 _ _ E2), (ext_cr3 _ _ E1).
  - intros f Hf. by apply E2, E1.
  - intros a Hu Hp. destruct (ext_keep _ _ E1 a Hu Hp) as (Hp2 & Hq2 & Hu2 & Hw2).
    destruct (ext_keep _ _ E2 a ltac:(by apply E1) Hp2) as (Hp3 & Hq3 & Hu3 & Hw3).
    split_and!; [done|congruence|auto|auto].
  - intros a Hu Hp Hp3. destruct (present (rd s2 a)) eqn:Hp2.
    + destruct (ext_keep _ _ E2 a ltac:(by apply E1) Hp2) as (_ & -> & _).
      apply Hf1. by apply (ext_new _ _ E1).
    + apply Hf2. apply (ext_new _ _ E2); [by apply E1|done..].
  - intros f i [Hf3 Hf] Hi Hp3. destruct (used s2 f) eqn:Hu2.
    + destruct (present (rd s2 (slot (4096 * f) i))) eqn:Hp2.
      * destruct (ext_keep _ _ E2 (slot (4096 * f) i)) as (_ & -> & _); [by rewrite slot_page|done|].
        apply Hf1. by apply (ext_fresh _ _ E1).
      * apply Hf2, (ext_new _ _ E2); [by rewrite slot_page|done..].
    + by apply Hf2, (ext_fresh _ _ E2).
  - intros a Ha. rewrite (ext_data _ _ E2) by done. by apply E1.
Qed.

Lemma fresh_tree s s' l : ext s s' → (∀ f, D f → used s f = true) →
  ∀ f, fresh s s' f → tree s' l (4096 * f).
Proof.
  intros E HD. induction l as [|l IH]; intros f Hf; [done|]. cbn [tree_from].
  replace (4096 * f / 4096) with f by dlia.
  split_and!; [dlia|apply Hf|intros HDf%HD; destruct Hf; congruence|].
  intros i Hi Hp. rewrite Pointer_page. apply IH. by apply (ext_fresh _ _ E).
Qed.

Lemma ext_tree s s' l p start : 0 ≤ start → ext s s' → (∀ f, D f → used s f = true) →
  tree_from s l p start → tree_from s' l p start.
Proof.
  intros Hst E HD. revert p start Hst. induction l as [|l IH]; intros p start Hst; [done|]. cbn [tree_from].
  intros (Hal & Hu & Hd & Ht). split_and!; [done|by apply E|done|].
  intros i Hi Hp'.
  assert (Hpg : slot p i / 4096 = p / 4096) by (unfold slot; dlia).
  destruct (present (rd s (slot p i))) eqn:Hp.
  - destruct (ext_keep _ _ E (slot p i)) as (_ & -> & _); [by rewrite Hpg|done|]. apply IH; [done|]. by apply Ht.
  - rewrite Pointer_page. eapply fresh_tree; [done|done|]. apply (ext_new _ _ E); by rewrite ?Hpg.
Qed.

Lemma ext_ok s s' : ext s s' → alloc_ok (frames s') → state_ok s → state_ok s'.
Proof. intros E Ha [_ Hd]. split; [done|]. intros f Hf. by apply E, Hd. Qed.

(** Every level of the walk to page [v] lets user code in (and write, if asked). *)
Fixpoint reach s (level : nat) (p v : Z) : Prop :=
  match level with
  | O => True
  | S level' =>
      let e := rd s (slot p (v / 512 ^ Z.of_nat level' mod 512)) in
      present e = true ∧ user e = true ∧ (w = true → writable e = true) ∧
      reach s level' (Pointer e) v
  end.

(** The same by parts of the address: the processor's check of a user access to [va]. *)
Fixpoint accessible s (level : nat) (table va : Z) : Prop :=
  match level with
  | O => True
  | S level' =>
      let e := rd s (slot table (Part level va)) in
      present e = true ∧ user e = true ∧ (w = true → writable e = true) ∧
      accessible s level' (Pointer e) va
  end.

Lemma reach_accessible s l p va : (l ≤ 4)%nat → reach s l p (va / 4096) → accessible s l p va.
Proof.
  revert p. induction l as [|l IH]; intros p Hl; [done|]. cbn [reach accessible].
  rewrite Part_div by lia. replace (Z.of_nat (S l) - 1) with (Z.of_nat l) by lia.
  intros (?&?&?&?). split_and!; [done..|]. apply IH; [lia|done].
Qed.

(** The index of page [v] in a table of level [l]. *)
Definition index (l : nat) (v : Z) : Z := v / 512 ^ (Z.of_nat l - 1) mod 512.

Lemma index_bound l v : 0 ≤ index l v < 512.
Proof. apply Z.mod_pos_bound. lia. Qed.

Lemma ext_reach s s' l p start v : ext s s' → start ≤ index l v → tree_from s l p start → reach s l p v → reach s' l p v.
Proof.
  intros E. revert p start. induction l as [|l IH]; intros p start Hst; [done|]. cbn [tree_from reach].
  unfold index in Hst. replace (Z.of_nat (S l) - 1) with (Z.of_nat l) in Hst by lia.
  intros (Hal & Hu & _ & Ht) (Hp & Hus & Hw & Hr). set (i := v / _ mod 512) in *.
  assert (Hi : 0 ≤ i < 512) by (apply Z.mod_pos_bound; lia).
  assert (Hpg : slot p i / 4096 = p / 4096) by (unfold slot; dlia).
  destruct (ext_keep _ _ E (slot p i)) as (Hp' & Hq & Hu' & Hw'); [by rewrite Hpg|done|].
  split_and!; [done|by apply Hu'|auto|]. rewrite Hq. apply (IH _ 0); [apply index_bound| |done]. apply Ht; [lia|done].
Qed.
Lemma rd_wr s a v b : rd (wr s a v) b = if decide (a = b) then v else rd s b.
Proof. apply arr_read_set. Qed.

Lemma NewPageMap_spec s : alloc_ok (frames s) →
  ∃ r s', NewPageMap s = Done (r, s') ∧ alloc_ok (frames s') ∧ cr3 s' = cr3 s ∧
    ((error r = kSuccess ∧ ∃ f, value r = 4096 * f ∧ 0 < f < 2 ^ 25 ∧ used s f = false ∧
       (∀ g, used s' g = (g =? f) || used s g) ∧ mem s' = zero_page (mem s) (4096 * f)) ∨
     (error r = kNoEnoughMemory ∧ (∀ g, used s' g = used s g) ∧ mem s' = mem s)).
Proof.
  intros Hok. destruct (alloc_frame_spec _ Hok) as (r & fa & E & Hok' & [(Her & Hv & Hu & Hg)|[Her Hg]]);
    unfold NewPageMap; rewrite E; simpl; rewrite Her; simpl; eexists _, _; (split; [reflexivity|]);
    (split; [done|]); (split; [done|]).
  - left. split; [done|]. exists (value r). rewrite <- BitmapFacts.kFrameCount_val.
    split_and!; [by apply Frame_page; lia|lia|lia|done|done|]. simpl. by rewrite Frame_page by lia.
  - right. done.
Qed.

(** A write that only adds permissions to an entry. *)
Lemma ext_wr s a e : used s (a / 4096) = true → ¬ D (a / 4096) →
  present e = present (rd s a) → Pointer e = Pointer (rd s a) →
  (user (rd s a) = true → user e = true) →
  (w = true → writable (rd s a) = true → writable e = true) → ext s (wr s a e).
Proof.
  intros Hu Hd Hp Hq Hus Hw. split; try done.
  - intros b Hub Hpb. rewrite rd_wr. case_decide; subst; [|done]. split_and!; [congruence|done..].
  - intros b Hub Hpb. rewrite rd_wr. case_decide; subst; congruence.
  - intros f i [H1 H2]. unfold used in *. simpl in H1. congruence.
  - intros b Hb. rewrite rd_wr. rewrite decide_False; [done|]. by intros ->.
Qed.

Lemma SetNew_spec s entry : state_ok s → used s (entry / 4096) = true → ¬ D (entry / 4096) →
  ∃ r s', SetNewPageMapIfNotPresent s entry = Done (r, s') ∧ alloc_ok (frames s') ∧ ext s s' ∧
    ((error r = kSuccess ∧ present (rd s' entry) = true ∧ value r = Pointer (rd s' entry)) ∨
     error r = kNoEnoughMemory).
Proof.
  intros [Hok HD] Hu Hd. unfold SetNewPageMapIfNotPresent.
  destruct (present (rd s entry)) eqn:Hp.
  { eexists _, _. split; [reflexivity|]. split; [done|]. split; [apply ext_refl|]. left. done. }
  destruct (NewPageMap_spec s Hok) as
    (r & s1 & -> & Hok1 & Hcr & [(Her & f & Hv & Hf & Hfu & Hus & Hm)|(Her & Hus & Hm)]); simpl; rewrite Her; simpl.
  - assert (Hne : entry / 4096 ≠ f) by congruence.
    assert (Hrd1 : ∀ b, b / 4096 ≠ f → rd s1 b = rd s b).
    { intros b Hb. unfold rd. rewrite Hm. by apply zero_page_out. }
    rewrite !rd_wr, !decide_True, Hv by done. rewrite (Hrd1 entry) by done.
    set (e1 := SetPointer (rd s entry) (4096 * f)). set (e2 := set_present e1 true).
    assert (He2p : present e2 = true) by (unfold e2, present, set_present; by rewrite bit_set_bit by lia).
    assert (He2q : Pointer e2 = 4096 * f).
    { unfold e2, set_present. rewrite Pointer_set_bit by lia. apply Pointer_SetPointer. lia. }
    set (s2 := wr (wr s1 entry e1) entry e2).
    assert (Hrd2 : ∀ b, rd s2 b = if decide (entry = b) then e2 else rd s1 b).
    { intros b. unfold s2. rewrite !rd_wr. by repeat case_decide. }
    assert (Hus2 : ∀ g, used s2 g = (g =? f) || used s g) by (intros; apply Hus).
    eexists _, _. split; [reflexivity|]. split; [done|]. split.
    + split; [done|..].
      * intros g Hg. by rewrite Hus2, Hg, orb_true_r.
      * intros b Hub Hpb. rewrite Hrd2. case_decide; [subst; congruence|].
        rewrite Hrd1 by congruence. done.
      * intros b Hub Hpb. rewrite Hrd2. case_decide.
        -- intros _. rewrite He2q. split; [rewrite Hus2|]; replace (4096 * f / 4096) with f by dlia.
           ++ by rewrite Z.eqb_refl.
           ++ done.
        -- rewrite Hrd1 by congruence. congruence.
      * intros g i [Hg1 Hg2] Hi. rewrite Hus2, Hg2, orb_false_r in Hg1. apply Z.eqb_eq in Hg1 as ->.
        rewrite Hrd2, decide_False by (intros ->; by rewrite slot_page in Hne).
        unfold rd. by rewrite Hm, zero_page_in.
      * intros b Hb. rewrite Hrd2. rewrite decide_False by (intros ->; done).
        apply Hrd1. intros <-. apply HD in Hb. congruence.
    + left. split; [done|]. rewrite Hrd2, decide_True by done. done.
  - eexists _, _. split; [reflexivity|]. split; [done|].
    assert (Hrd1 : ∀ b, rd s1 b = rd s b) by (intros; unfold rd; by rewrite Hm).
    split; [|by right]. split; try done.
    + intros g. by rewrite Hus.
    + intros b. by rewrite Hrd1.
    + intros b. rewrite Hrd1. congruence.
    + intros g i [H1 H2]. rewrite Hus in H1. congruence.
Qed.
(** What a call of [SetupPageMap] at [level] with table [p] promises. *)
Definition setup_post (level : nat) s (p a num : Z) (r : WithError Z) s' : Prop :=
  let t := 512 ^ Z.of_nat level in
  alloc_ok (frames s') ∧ ext s s' ∧
  ((error r = kSuccess ∧ value r = Z.max 0 (num - (t - (a / 4096) mod t)) ∧
    ∀ v, a / 4096 ≤ v < a / 4096 + num → v / t = a / 4096 / t → reach s' level p v) ∨
   error r = kNoEnoughMemory).

Definition setup_correct (level : nat)
    (f : pstate A → Z → Z → Z → outcome (WithError Z * pstate A)) : Prop :=
  ∀ s p start a num, state_ok s → tree_from s level p start → 0 ≤ start ≤ Part level a → 0 ≤ a → 0 ≤ num →
    ∃ r s', f s p a num = Done (r, s') ∧ setup_post level s p a num r s'.

(** The entry of one turn, before the recursive call. *)
Lemma setup_entry s level' p start a lv : (level' < 4)%nat → state_ok s → tree_from s (S level') p start → 0 ≤ a →
  (w = true → lv = true) →
  let entry := slot p (Part (S level') a) in
  ∃ r s1, SetNewPageMapIfNotPresent s entry = Done (r, s1) ∧
    ((error r = kSuccess ∧ ∃ s3,
       s3 = wr (wr s1 entry (set_user (rd s1 entry) true)) entry
              (set_writable (rd (wr s1 entry (set_user (rd s1 entry) true)) entry) lv) ∧
       alloc_ok (frames s3) ∧ ext s s3 ∧ value r = Pointer (rd s3 entry) ∧
       present (rd s3 entry) = true ∧ user (rd s3 entry) = true ∧ writable (rd s3 entry) = lv) ∨
     (error r = kNoEnoughMemory ∧ alloc_ok (frames s1) ∧ ext s s1)).
Proof.
  intros Hl Hok (Hal & Hu & Hd & Ht) Ha Hlv entry.
  assert (Hi : 0 ≤ Part (S level') a < 512) by (rewrite Part_div by lia; apply Z.mod_pos_bound; lia).
  assert (Hpg : entry / 4096 = p / 4096) by (unfold entry, slot; dlia).
  destruct (SetNew_spec s entry) as (r & s1 & E & Hok1 & Hext & Hr); [done|by rewrite Hpg..|].
  exists r, s1. split; [done|]. destruct Hr as [(Her & Hp & Hv)|Her]; [left|by right].
  split; [done|]. eexists. split; [reflexivity|]. split; [done|].
  set (e := rd s1 entry) in *.
  assert (Hflags : ∀ e b, present (set_writable (set_user e true) b) = present e ∧
    user (set_writable (set_user e true) b) = true ∧
    writable (set_writable (set_user e true) b) = b ∧
    Pointer (set_writable (set_user e true) b) = Pointer e).
  { intros e' b. unfold present, user, writable, set_writable, set_user.
    rewrite !bit_set_bit, !Pointer_set_bit by lia. done. }
  rewrite !rd_wr, !decide_True by done. destruct (Hflags e lv) as (F1 & F2 & F3 & F4).
  split; [|split_and!; congruence].
  apply ext_trans with s1; [done|].
  assert (Hu1 : used s1 (entry / 4096) = true) by (apply Hext; by rewrite Hpg).
  set (sa := wr s1 entry (set_user e true)).
  assert (Ea : ext s1 sa).
  { apply ext_wr; [done|by rewrite Hpg|..]; fold e; unfold present, writable, user, set_user;
      rewrite ?bit_set_bit, ?Pointer_set_bit by lia; done. }
  apply ext_trans with sa; [done|].
  assert (Hsa : rd sa entry = set_user e true) by (unfold sa; by rewrite rd_wr, decide_True).
  apply ext_wr; [by apply Ea|by rewrite Hpg|..]; rewrite Hsa;
    unfold present, writable, user, set_writable; rewrite ?bit_set_bit, ?Pointer_set_bit by lia; try done.
  intros H _. by apply Hlv.
Qed.

Lemma setup_loop_correct level' rec fuel : (level' < 4)%nat →
  (level' ≠ 0%nat → setup_correct level' rec) →
  ∀ s p start a num, state_ok s → tree_from s (S level') p start → 0 ≤ start ≤ Part (S level') a → 0 ≤ a → 0 ≤ num →
    512 - Part (S level') a ≤ Z.of_nat fuel →
    ∃ r s', setup_loop rec (S level') w fuel s p a num = Done (r, s') ∧
      setup_post (S level') s p a num r s'.
Proof.
  intros Hl Hrec. induction fuel as [|fuel IH]; intros s p start a num Hok Ht Hst Ha Hnum Hfuel;
    pose proof (Part_div (S level') a ltac:(lia)) as Hpart;
    replace (Z.of_nat (S level') - 1) with (Z.of_nat level') in Hpart by lia;
    set (t := 512 ^ Z.of_nat level') in *; assert (Htpos : 0 < t) by (unfold t; lia);
    assert (Hbig : 512 ^ Z.of_nat (S level') = t * 512) by (unfold t; rewrite Nat2Z.inj_succ, Z.pow_succ_r; lia);
    destruct (table_arith t (a / 4096) Htpos) as (Hmod & Hlow & Hidx); rewrite <- Hpart in Hmod, Hidx.
  { lia. }
  cbn [setup_loop]. destruct (Z.leb_spec num 0) as [Hz|Hpos].
  { eexists _, _. split; [reflexivity|]. split; [apply Hok|]. split; [apply ext_refl|]. left.
    rewrite Hbig, Hmod. cbn [value error]. split_and!; [done|nia|intros v Hv; lia]. }
  set (lv := if bool_decide (level' = 0%nat) then w else true).
  destruct (setup_entry s level' p start a lv) as (r & s1 & -> & Hr); [done..|unfold lv; by case_bool_decide|].
  simpl. set (entry := slot p (Part (S level') a)) in *.
  destruct Hr as [(Her & s3 & Hs3 & Hok3 & E3 & Hv & Hp3 & Hu3 & Hw3)|(Her & Hok1 & E1)]; rewrite Her; simpl;
    [|by eexists _, _; split; [reflexivity|]; split; [done|]; split; [done|]; right].
  (* the rest of a turn, once the pages below this entry are set up *)
  assert (Hfin : ∀ s4 num1, alloc_ok (frames s4) → ext s3 s4 →
    num1 = Z.max 0 (num - (t - (a / 4096) mod t)) →
    (∀ v, a / 4096 ≤ v < a / 4096 + num → v / t = a / 4096 / t → reach s4 level' (value r) v) →
    ∃ r' s', (if Part (S level') a =? 511 then mret (mkWithError num1 kSuccess, s4)
      else setup_loop rec (S level') w fuel s4 p
        (clear_parts (S level' - 1) (SetPart (S level') (Part (S level') a + 1) a)) num1)
      = Done (r', s') ∧ setup_post (S level') s p a num r' s').
  { intros s4 num1 Hok4 E34 Hnum1 Hreach4. pose proof (ext_trans _ _ _ E3 E34) as E4.
    assert (Hsok4 : state_ok s4) by (by apply (ext_ok s)).
    assert (Ht4 : tree_from s4 (S level') p start) by (apply (ext_tree s); [lia|done|apply Hok|done]).
    assert (Hr4 : ∀ v, a / 4096 ≤ v < a / 4096 + num → v / t = a / 4096 / t → reach s4 (S level') p v).
    { intros v Hv1 Hv2. cbn [reach]. fold t. rewrite Hv2, <- Hpart. fold entry.
      destruct Ht as (Hal & Hu & _). assert (Hpg : entry / 4096 = p / 4096) by (unfold entry, slot; dlia).
      destruct (ext_keep _ _ E34 entry) as (K1 & K2 & K3 & K4);
        [by apply E3; rewrite Hpg|done|]. split_and!; [done|auto| |].
      - intros Hwt. apply K4; [done|]. rewrite Hw3. unfold lv. by case_bool_decide.
      - rewrite K2, <- Hv. by apply Hreach4. }
    destruct (Z.eqb_spec (Part (S level') a) 511) as [H511|H511].
    - eexists _, _. split; [reflexivity|]. split; [done|]. split; [done|]. left. cbn [value error].
      rewrite Hbig, Hmod, H511. split_and!; [done|lia|]. intros v Hv1 Hv2. apply Hr4; [done|].
      destruct (same_table t (a / 4096) v) as [|(Hne & _)]; [lia..|done|done|].
      by rewrite <- Hpart in Hne.
    - destruct (next_addr (S level') a) as (Ha' & Hpage); [lia|done..|].
      replace (S level' - 1)%nat with level' in * by lia. fold t in Hpage.
      set (a' := clear_parts level' _) in *.
      assert (Hpart' : Part (S level') a' = Part (S level') a + 1).
      { rewrite (Part_div _ a'), Hpage by lia. replace (Z.of_nat (S level') - 1) with (Z.of_nat level') by lia.
        fold t. rewrite Z.div_mul by lia. dlia. }
      destruct (IH s4 p start a' num1) as (r' & s' & E & Hok' & E45 & Hpost); [done..|lia|lia|lia|lia|].
      exists r', s'. split; [done|]. split; [done|]. split; [by apply ext_trans with s4|].
      destruct Hpost as [(Her' & Hv' & Hreach')|]; [left|by right]. rewrite Hbig in Hv', Hreach' |- *.
      split; [done|]. destruct (table_arith t (a' / 4096) Htpos) as (Hmod' & _ & _).
      rewrite Hpage, Z.mod_mul, Z.div_mul in Hmod' by lia. rewrite Hpage in Hv', Hreach'. split.
      + rewrite Hv', Hmod', Hmod.
        replace ((a / 4096 / t + 1) mod 512) with (Part (S level') a + 1) by dlia. nia.
      + intros v Hv1 Hv2. destruct (same_table t (a / 4096) v) as [Hs|(Hne & Hge & Hs)]; [lia..|done| |].
        * apply (ext_reach s4 _ _ _ start); [done| |done|by apply Hr4].
          unfold index. replace (Z.of_nat (S level') - 1) with (Z.of_nat level') by lia. fold t. rewrite Hs, <- Hpart. lia.
        * apply Hreach'; [|done].
          pose proof (Z.div_mod (a / 4096) t ltac:(lia)). lia. }
  case_bool_decide as Hlev.
  - assert (level' = 0%nat) as -> by lia. unfold lv in Hs3. rewrite bool_decide_eq_true_2 in Hs3 by done.
    rewrite <- Hs3. apply Hfin; [done|apply ext_refl| |done].
    change t with 1. rewrite Z.mod_1_r. lia.
  - assert (Hlev' : level' ≠ 0%nat) by congruence. unfold lv in Hs3. rewrite bool_decide_eq_false_2 in Hs3 by done.
    rewrite <- Hs3.
    assert (Htc : tree s3 level' (value r)).
    { assert (Ht3 : tree_from s3 (S level') p start) by (apply (ext_tree s); [lia|done|apply Hok|done]).
      destruct Ht3 as (_ & _ & _ & Ht3). rewrite Hv. apply Ht3; [lia|done]. }
    destruct (Hrec Hlev' s3 (value r) 0 a num) as (rr & s4 & -> & Hok4 & E34 & Hpost);
      [by apply (ext_ok s)|done|rewrite Part_div by lia; dlia|done|done|].
    simpl. destruct Hpost as [(Herr & Hvr & Hreach)|Herr]; rewrite Herr; simpl.
    + apply Hfin; done.
    + eexists _, _. split; [reflexivity|]. split; [done|]. split; [by apply ext_trans with s3|]. by right.
Qed.

Lemma SetupPageMap_correct level : (1 ≤ level ≤ 4)%nat → setup_correct level (SetupPageMap level w).
Proof.
  induction level as [|level IH]; intros Hl; [lia|]. intros s p start a num Hok Ht Hst Ha Hnum. cbn [SetupPageMap].
  apply setup_loop_correct with (start := start); [lia| |done..|].
  - intros Hl'. apply IH. lia.
  - rewrite Part_div by lia. dlia.
Qed.
End setup.
Abbreviation tree D s level p := (tree_from D s level p 0).
End SetupFacts.

(** ** [CopyPageMaps] shares every page read-only *)
Module CopyFacts.
Import EntryFacts SetupFacts.

Lemma Part_bound l va : (1 ≤ l ≤ 4)%nat → 0 ≤ Part l va < 512.
Proof. intros. rewrite Part_div by done. apply Z.mod_pos_bound. lia. Qed.

Lemma Part_nonneg l va : (l ≤ 4)%nat → 0 ≤ Part l va.
Proof. intros Hl. destruct l as [|l]; [unfold Part; apply field_bound; lia|apply (Part_bound (S l)); lia]. Qed.

(** The entry that maps the 4 KiB page of [va]. *)
Fixpoint walk {A} (s : pstate A) (level : nat) (table va : Z) : option Z :=
  match level with
  | O => None
  | S level' =>
      let e := rd s (slot table (Part level va)) in
      if present e then match level' with O => Some e | _ => walk s level' (Pointer e) va end
      else None
  end.

(** No entry on the way to [va] maps a large page. *)
Fixpoint small_pages {A} (s : pstate A) (level : nat) (table va : Z) : Prop :=
  match level with
  | O => True
  | S level' =>
      let e := rd s (slot table (Part level va)) in
      present e = true → (level' = 0%nat ∨ huge_page e = false) ∧ small_pages s level' (Pointer e) va
  end.

Section copy.
Context {A : Type} `{FA : FrameAllocator A} {FL : FrameAllocatorLaws A}.
Implicit Types s : pstate A.

Definition mono s s' : Prop := ∀ f, used s f = true → used s' f = true.
(** The words of the frames used in [s] outside [D] are the same in [s']. *)
Definition agree (D : Z → Prop) s s' : Prop :=
  ∀ a, used s (a / 4096) = true → ¬ D (a / 4096) → rd s' a = rd s a.

Lemma tree_antitone (D D' : Z → Prop) s l p start : (∀ f, D' f → D f) → tree_from D s l p start → tree_from D' s l p start.
Proof.
  intros HD. revert p start. induction l as [|l IH]; intros p start; [done|]. cbn [tree_from].
  intros (?&?&?&?). split_and!; eauto.
Qed.

Lemma tree_avoids (D : Z → Prop) s l p start : (∀ f, D f → used s f = false) →
  tree_from (λ _, False) s l p start → tree_from D s l p start.
Proof.
  intros HD. revert p start. induction l as [|l IH]; intros p start; [done|]. cbn [tree_from].
  intros (? & Hu & _ & ?). split_and!; eauto. intros Hp%HD. congruence.
Qed.

Lemma walk_agree D s s' l p start : mono s s' → agree D s s' → 0 ≤ start → tree_from D s l p start → (l ≤ 4)%nat →
  tree_from D s' l p start ∧ ∀ va, start ≤ Part l va → walk s' l p va = walk s l p va.
Proof.
  intros Hm Ha. revert p start. induction l as [|l IH]; intros p start Hst; [done|]. cbn [tree_from walk].
  intros (Hal & Hu & Hd & Ht) Hl.
  assert (Hw : ∀ i, 0 ≤ i < 512 → rd s' (slot p i) = rd s (slot p i)).
  { intros i Hi. assert (Hpg : slot p i / 4096 = p / 4096) by (unfold slot; dlia).
    by apply Ha; rewrite Hpg. }
  split.
  - split_and!; [done|by apply Hm|done|]. intros i Hi. rewrite Hw by lia. intros Hp. apply IH; [done| |lia]. by apply Ht.
  - intros va Hva. pose proof (Part_bound (S l) va ltac:(lia)) as Hi. rewrite Hw by done.
    destruct (present _) eqn:Hp; [|done]. destruct l; [done|]. apply (IH _ 0); [done| |lia|apply Part_nonneg; lia].
    apply Ht; [lia|done].
Qed.

Lemma small_agree D s s' l p start va : mono s s' → agree D s s' → tree_from D s l p start → (l ≤ 4)%nat →
  start ≤ Part l va → small_pages s' l p va ↔ small_pages s l p va.
Proof.
  intros Hm Ha. revert p start. induction l as [|l IH]; intros p start; [done|]. cbn [tree_from small_pages].
  intros (Hal & Hu & Hd & Ht) Hl Hva. pose proof (Part_bound (S l) va ltac:(lia)) as Hi.
  assert (Hpg : slot p (Part (S l) va) / 4096 = p / 4096) by (unfold slot; dlia).
  rewrite Ha by by rewrite Hpg. set (e := rd s _) in *.
  assert (Hsub : present e = true → small_pages s' l (Pointer e) va ↔ small_pages s l (Pointer e) va); [|tauto].
  intros Hp. apply (IH _ 0); [apply Ht; [lia|done]|lia|apply Part_nonneg; lia].
Qed.

(** An entry of the copy: the leaf without its write permission, or a new table
    that translates like the source's with all leaves read-only. *)
Definition entry_copied (level : nat) s s' (dest src i : Z) : Prop :=
  let e := rd s (slot src i) in
  let e' := rd s' (slot dest i) in
  if negb (present e) then e' = rd s (slot dest i)
  else match level with
       | O => False
       | 1%nat => e' = set_writable e false
       | S level' =>
           present e' = true ∧ (∀ b, 0 ≤ b < 12 → bit e' b = bit e b) ∧
           tree (λ f, used s f = true) s' level' (Pointer e') ∧
           (∀ va, small_pages s level' (Pointer e) va → small_pages s' level' (Pointer e') va) ∧
           ∀ va, walk s' level' (Pointer e') va =
             (λ e, set_writable e false) <$> walk s level' (Pointer e) va
       end.

Definition copy_post (level : nat) (start : Z) s (dest src : Z) (err : Code) s' : Prop :=
  alloc_ok (frames s') ∧ cr3 s' = cr3 s ∧ mono s s' ∧ agree (λ f, f = dest / 4096) s s' ∧
  ((err = kSuccess ∧ (∀ i, 0 ≤ i < start → rd s' (slot dest i) = rd s (slot dest i)) ∧
    (∀ i, start ≤ i < 512 → entry_copied level s s' dest src i)) ∨
   err = kNoEnoughMemory).

Definition copy_pre (level : nat) (start : Z) s (dest src : Z) : Prop :=
  alloc_ok (frames s) ∧ dest mod 4096 = 0 ∧ used s (dest / 4096) = true ∧ 0 ≤ start ∧
  tree_from (λ f, f = dest / 4096) s level src start.

Lemma dest_slot dest i : dest mod 4096 = 0 → 0 ≤ i < 512 → slot dest i / 4096 = dest / 4096.
Proof. unfold slot. intros. dlia. Qed.

(** A write into the destination table. *)
Lemma agree_wr s dest i e : dest mod 4096 = 0 → 0 ≤ i < 512 →
  agree (λ f, f = dest / 4096) s (wr s (slot dest i) e).
Proof.
  intros Hd Hi a _ Ha. rewrite rd_wr, decide_False; [done|]. intros <-. apply Ha. by apply dest_slot.
Qed.

Lemma agree_trans D s1 s2 s3 : mono s1 s2 → agree D s1 s2 → agree D s2 s3 → agree D s1 s3.
Proof. intros Hm H1 H2 a Hu Ha. rewrite H2 by auto. by apply H1. Qed.

Lemma mono_refl s : mono s s.
Proof. by intros f. Qed.

Lemma agree_refl D s : agree D s s.
Proof. by intros a. Qed.

Lemma mono_trans s1 s2 s3 : mono s1 s2 → mono s2 s3 → mono s1 s3.
Proof. intros H1 H2 f Hf. by apply H2, H1. Qed.
Hint Resolve mono_refl agree_refl : core.

Lemma copy_pre_agree l start s s1 dest src : (l ≤ 4)%nat → copy_pre l start s dest src → alloc_ok (frames s1) →
  mono s s1 → agree (λ f, f = dest / 4096) s s1 → copy_pre l start s1 dest src.
Proof.
  intros Hl (Hok & Hd & Hu & Hst & Ht) Hok1 Hm Ha.
  refine (conj Hok1 (conj Hd (conj (Hm _ Hu) (conj Hst _)))). by destruct (walk_agree _ s s1 l src start Hm Ha Hst Ht Hl).
Qed.

Lemma copy_leaves_spec start k : ∀ i s dest src, copy_pre 1 start s dest src → start ≤ i → i + Z.of_nat k = 512 →
  copy_post 1 i s dest src kSuccess (copy_leaves dest src k i s).
Proof.
  induction k as [|k IH]; intros i s dest src Hpre Hi Hk; pose proof Hpre as (Hok & Hd & Hud & Hst & Ht).
  - unfold copy_post. split_and!; [done..|]. left. split_and!; [done..|]. intros; lia.
  - cbn [copy_leaves]. pose proof Ht as (Hs & Hus & Hne & _).
    assert (Hsrc : ∀ s' j, agree (λ f, f = dest / 4096) s s' → 0 ≤ j < 512 →
      rd s' (slot src j) = rd s (slot src j)).
    { intros s' j Ha Hj. by apply Ha; rewrite dest_slot. }
    assert (Hnext : ∀ s1, frames s1 = frames s → cr3 s1 = cr3 s → agree (λ f, f = dest / 4096) s s1 →
      (∀ j, j ≠ i → rd s1 (slot dest j) = rd s (slot dest j)) → entry_copied 1 s s1 dest src i →
      copy_post 1 i s dest src kSuccess (copy_leaves dest src k (i + 1) s1)).
    { intros s1 Hf Hcr Ha Hoth Hci.
      assert (Hm : mono s s1) by (intros f; unfold used; by rewrite Hf).
      destruct (IH (i + 1) s1 dest src) as (Hok' & Hcr' & Hm' & Ha' & [(_ & Hlow & Hhigh)|]); [|lia..| |done].
      { apply (copy_pre_agree 1 start s); [lia|done|by rewrite Hf|done..]. }
      unfold copy_post. split_and!; [done|congruence|intros f ?; by apply Hm', Hm|by apply agree_trans with s1|].
      left. split; [done|]. split; [intros j Hj; rewrite Hlow by lia; apply Hoth; lia|].
      intros j Hj. destruct (decide (j = i)) as [->|].
      - revert Hci. unfold entry_copied. rewrite Hlow by lia. by destruct (negb _).
      - generalize (Hhigh j ltac:(lia)). unfold entry_copied. by rewrite Hsrc, (Hoth j) by (done || lia). }
    destruct (present (rd s (slot src i))) eqn:Hp; simpl.
    + rewrite !rd_wr, decide_True by done. apply Hnext; [done..| | |].
      * apply agree_trans with (wr s (slot dest i) (rd s (slot src i))); [by intros f|apply agree_wr; lia..].
      * intros j Hj. by rewrite !rd_wr, !decide_False by (intros ?%slot_inj; lia).
      * unfold entry_copied. by rewrite Hp, rd_wr, decide_True.
    + apply Hnext; [done..|]. unfold entry_copied. by rewrite Hp.
Qed.
Lemma bit_ro e b : 0 ≤ b → b ≠ 1 → bit (set_writable e false) b = bit e b.
Proof. intros. unfold set_writable. by rewrite bit_set_bit, decide_False by lia. Qed.

Lemma copied_small l s s' dest src va : entry_copied (S l) s s' dest src (Part (S l) va) →
  (present (rd s (slot dest (Part (S l) va))) = true → False) →
  small_pages s (S l) src va → small_pages s' (S l) dest va.
Proof.
  cbn [small_pages]. unfold entry_copied. destruct (present (rd s (slot src _))); cbn [negb].
  - destruct l as [|l]; [intros _ _ _ _; split; [by left|done]|].
    intros (_ & Hb & _ & Hs & _) _ Hsrc _. destruct (Hsrc eq_refl) as [[?|Hh] Hsm]; [done|]. split; [right|by apply Hs].
    unfold huge_page in *. by rewrite Hb by lia.
  - intros -> Hz _ Hp. by destruct Hz.
Qed.

(** The copy into a table that was empty. *)
Lemma copied_table level s0 s dest src s' : (1 ≤ level ≤ 4)%nat → mono s0 s →
  used s0 (dest / 4096) = false → copy_pre level 0 s dest src →
  (∀ i, 0 ≤ i < 512 → present (rd s (slot dest i)) = false) →
  mono s s' → (∀ i, 0 ≤ i < 512 → entry_copied level s s' dest src i) →
  tree (λ f, used s0 f = true) s' level dest ∧
  (∀ va, small_pages s level src va → small_pages s' level dest va) ∧
  ∀ va, walk s' level dest va = (λ e, set_writable e false) <$> walk s level src va.
Proof.
  intros Hl H0 Hf (_ & Hd & Hu & _) Hz Hm Hc. destruct level as [|l]; [lia|]. split; [|split].
  - cbn [tree_from]. split_and!; [done|by apply Hm|congruence|]. intros i Hi Hp.
    specialize (Hc i Hi). unfold entry_copied in Hc. destruct (present (rd s (slot src i))); simpl in Hc.
    + destruct l; [done|]. destruct Hc as (_ & _ & Ht & _).
      revert Ht. apply tree_antitone. apply H0.
    + rewrite Hc, Hz in Hp by done. done.
  - intros va. apply copied_small; [apply Hc, Part_bound; lia|]. by rewrite Hz by (apply Part_bound; lia).
  - intros va. cbn [walk]. pose proof (Part_bound (S l) va Hl) as Hi. specialize (Hc _ Hi).
    unfold entry_copied in Hc. destruct (present (rd s (slot src (Part (S l) va)))) eqn:Hp; simpl in Hc.
    + destruct l as [|l].
      * rewrite Hc. unfold present. rewrite bit_ro by lia. fold (present (rd s (slot src (Part 1 va)))).
        by rewrite Hp.
      * destruct Hc as (-> & _ & _ & _ & Hw). apply Hw.
    + by rewrite Hc, Hz by done.
Qed.

Definition copy_correct (level : nat) (start : Z)
    (f : pstate A → Z → Z → outcome (Code * pstate A)) : Prop :=
  ∀ s dest src, copy_pre level start s dest src →
    ∃ err s', f s dest src = Done (err, s') ∧ copy_post level start s dest src err s'.

(** Entry [i] stays copied while the rest of the table is filled in. *)
Lemma entry_copied_later l s s1 s2 dest src i : (S l ≤ 4)%nat → (1 ≤ l)%nat →
  used s (dest / 4096) = true → dest mod 4096 = 0 → 0 ≤ i < 512 →
  agree (λ f, f = dest / 4096) s1 s2 → mono s1 s2 →
  rd s2 (slot dest i) = rd s1 (slot dest i) →
  entry_copied (S l) s s1 dest src i → entry_copied (S l) s s2 dest src i.
Proof.
  intros Hl Hl1 Hud Hd Hi Ha Hm Hrd. unfold entry_copied. rewrite Hrd.
  destruct (present (rd s (slot src i))); simpl; [|done]. destruct l as [|l]; [lia|].
  intros (Hp & Hb & Ht & Hsm & Hw).
  assert (Hag : agree (λ f, used s f = true) s1 s2).
  { intros a Hu Hn. apply Ha; [done|]. intros Heq. apply Hn. cbn in *. congruence. }
  destruct (walk_agree (λ f, used s f = true) s1 s2 (S l) (Pointer (rd s1 (slot dest i))) 0) as [Ht2 Hw2]; [done..|lia|].
  split_and!; [done..| |]; intros va.
  - intros Hsrc. apply (small_agree _ s1 s2 _ _ 0 va Hm Hag Ht); [lia|apply Part_nonneg; lia|]. by apply Hsm.
  - by rewrite Hw2, Hw by (apply Part_nonneg; lia).
Qed.

(** Entry [i] as copied from an intermediate state that left the source alone. *)
Lemma entry_copied_earlier l start s s1 s2 dest src i : (S l ≤ 4)%nat →
  copy_pre (S l) start s dest src → start ≤ i < 512 → mono s s1 → agree (λ f, f = dest / 4096) s s1 →
  rd s1 (slot dest i) = rd s (slot dest i) →
  entry_copied (S l) s1 s2 dest src i → entry_copied (S l) s s2 dest src i.
Proof.
  intros Hl (_ & Hd & _ & Hst & Hs & Hus & Hne & Ht) Hi Hm Ha Hrd. unfold entry_copied.
  assert (Hss : slot src i / 4096 = src / 4096) by (apply dest_slot; [done|lia]).
  rewrite (Ha (slot src i)), Hrd by (cbn; by rewrite Hss).
  destruct (present (rd s (slot src i))) eqn:Hp; simpl; [|done]. destruct l as [|l]; [done|].
  intros (Hp' & Hb & Ht' & Hsm & Hw). destruct (walk_agree _ s s1 (S l) _ 0 Hm Ha ltac:(lia) (Ht i Hi Hp)) as [_ Hw1]; [lia|].
  split_and!; [done..| | |].
  - revert Ht'. apply tree_antitone. apply Hm.
  - intros va Hsrc. apply Hsm. apply (small_agree _ s s1 _ _ 0 va Hm Ha (Ht i Hi Hp)); [lia|apply Part_nonneg; lia|done].
  - intros va. by rewrite Hw, Hw1 by (apply Part_nonneg; lia).
Qed.

(** One turn of the loop: a fresh table, linked into [dest[i]], filled by the recursive call. *)
Lemma copy_turn l rec start s dest src i : (1 ≤ l < 4)%nat → copy_correct l 0 rec →
  copy_pre (S l) start s dest src → start ≤ i < 512 → present (rd s (slot src i)) = true →
  ∃ r s1, NewPageMap s = Done (r, s1) ∧
    ((error r = kNoEnoughMemory ∧ copy_post (S l) i s dest src kNoEnoughMemory s1) ∨
     (error r = kSuccess ∧
      let s2 := wr s1 (slot dest i) (rd s1 (slot src i)) in
      let s3 := wr s2 (slot dest i) (SetPointer (rd s2 (slot dest i)) (value r)) in
      ∃ err s4, rec s3 (value r) (Pointer (rd s3 (slot src i))) = Done (err, s4) ∧
        alloc_ok (frames s4) ∧ cr3 s4 = cr3 s ∧ mono s s4 ∧ agree (λ f, f = dest / 4096) s s4 ∧
        ((err = kSuccess ∧ entry_copied (S l) s s4 dest src i ∧
          ∀ j, 0 ≤ j < 512 → j ≠ i → rd s4 (slot dest j) = rd s (slot dest j)) ∨
         err = kNoEnoughMemory))).
Proof.
  intros Hl Hrec Hpre Hi Hp. pose proof Hpre as (Hok & Hd & Hud & Hst & Hs & Hus & Hne & Ht).
  assert (Hi0 : 0 ≤ i < 512) by lia.
  destruct (NewPageMap_spec s Hok) as
    (r & s1 & E & Hok1 & Hcr & [(Her & f & Hv & Hf & Hfu & Hus1 & Hm1)|(Her & Hus1 & Hm1)]); exists r, s1;
    (split; [done|]).
  2: { left. split; [done|]. unfold copy_post. split_and!; [done..| | |by right].
       - intros g. by rewrite Hus1.
       - intros a _ _. unfold rd. by rewrite Hm1. }
  right. split; [done|]. intros s2 s3.
  assert (Hmono1 : mono s s1) by (intros g Hg; rewrite Hus1, Hg; apply orb_true_r).
  assert (Hrd1 : ∀ a, a / 4096 ≠ f → rd s1 a = rd s a).
  { intros a Ha. unfold rd. rewrite Hm1. by apply zero_page_out. }
  assert (Hds : slot dest i / 4096 = dest / 4096) by by apply dest_slot.
  assert (Hss : slot src i / 4096 = src / 4096) by by apply dest_slot.
  assert (Hsrc1 : rd s1 (slot src i) = rd s (slot src i)) by (apply Hrd1; congruence).
  set (e := rd s (slot src i)) in *.
  assert (Hrd3 : ∀ a, rd s3 a = if decide (slot dest i = a) then SetPointer e (value r) else rd s1 a).
  { intros a. unfold s3. rewrite rd_wr. replace (rd s2 (slot dest i)) with e.
    - case_decide as Ha; [done|]. unfold s2. by rewrite rd_wr, decide_False.
    - unfold s2. by rewrite rd_wr, decide_True. }
  assert (Hsd : slot dest i ≠ slot src i) by congruence.
  rewrite (Hrd3 (slot src i)), decide_False, Hsrc1 by done.
  assert (Hag3 : agree (λ f, f = dest / 4096) s s3).
  { intros a Hu Ha. rewrite Hrd3, decide_False by (intros <-; by rewrite Hds in Ha).
    apply Hrd1. congruence. }
  assert (Hsub3 : tree (λ g, g = dest / 4096) s3 l (Pointer e)).
  { destruct (walk_agree _ s s3 l (Pointer e) 0 Hmono1 Hag3 ltac:(lia) (Ht i Hi Hp)) as [? _]; [lia|done]. }
  assert (Hpre3 : copy_pre l 0 s3 (value r) (Pointer e)).
  { rewrite Hv. unfold copy_pre. replace (4096 * f / 4096) with f by dlia.
    refine (conj Hok1 (conj _ (conj _ (conj _ _)))); [dlia|change (used s1 f = true); by rewrite Hus1, Z.eqb_refl|done|].
    assert (Ht1 : tree (λ g, g = dest / 4096) s l (Pointer e)) by by apply Ht.
    destruct (walk_agree (λ g, g = f ∨ g = dest / 4096) s s3 l (Pointer e) 0 Hmono1) as [Ht3 _].
    - intros a Hu Ha. apply Hag3; [done|tauto].
    - lia.
    - clear -Ht1 Hfu. revert Ht1. generalize (Pointer e). induction l as [|l IH]; [done|]. intros p.
      cbn [tree_from]. intros (?&?&?&?). split_and!; [done..| |eauto]. intros [Hx|Hx]; cbn in *; congruence.
    - lia.
    - revert Ht3. apply tree_antitone. tauto. }
  destruct (Hrec s3 (value r) (Pointer e) Hpre3) as (err & s4 & E4 & Hok4 & Hcr4 & Hm4 & Ha4 & Hpost).
  assert (Hvf : value r / 4096 = f) by (rewrite Hv; dlia).
  assert (Hkeep : ∀ a, used s (a / 4096) = true → rd s4 a = rd s3 a).
  { intros a Hu. apply Ha4; [by apply Hmono1|]. rewrite Hvf. congruence. }
  exists err, s4. split; [done|]. split_and!; [done|by rewrite Hcr4|by apply mono_trans with s3| |].
  { intros a Hu Ha. rewrite Hkeep by done. by apply Hag3. }
  destruct Hpost as [(-> & _ & Hall)|]; [left|by right]. split; [done|]. split.
  - destruct (copied_table l s s3 (value r) (Pointer e) s4) as (Htt & Hsm & Hww); [lia|done|congruence|done| |done|done|].
    { intros j Hj. rewrite Hrd3, decide_False.
      - unfold rd. by rewrite Hm1, Hv, zero_page_in.
      - intros Heq. apply (f_equal (λ a, a / 4096)) in Heq. rewrite Hv, slot_page, Hds in Heq by done. congruence. }
    unfold entry_copied. fold e. rewrite Hp. simpl. destruct l as [|l]; [lia|].
    rewrite Hkeep, Hrd3, decide_True by by rewrite ?Hds.
    rewrite Hv, Pointer_SetPointer by lia. rewrite Hv in Htt, Hsm, Hww. split_and!; [|by intros; apply bit_SetPointer|done| |].
    + unfold present. by rewrite bit_SetPointer by lia.
    + intros va Hsrc. apply Hsm.
      apply (small_agree _ s s3 _ _ 0 va Hmono1 Hag3 (Ht i Hi Hp)); [lia|apply Part_nonneg; lia|done].
    + intros va. rewrite Hww. f_equal. symmetry.
      destruct (walk_agree _ s s3 (S l) (Pointer e) 0 Hmono1 Hag3 ltac:(lia) (Ht i Hi Hp)) as [_ Hw3]; [lia|].
      by rewrite Hw3 by (apply Part_nonneg; lia).
  - intros j Hj Hji. assert (Hjs : slot dest j / 4096 = dest / 4096) by by apply dest_slot.
    rewrite Hkeep, Hrd3, decide_False by (rewrite ?Hjs; done || by intros ?%slot_inj; lia).
    apply Hrd1. congruence.
Qed.
Lemma copy_tables_spec l rec start k : (1 ≤ l < 4)%nat → copy_correct l 0 rec →
  ∀ i s dest src, copy_pre (S l) start s dest src → start ≤ i → i + Z.of_nat k = 512 →
  ∃ err s', copy_tables rec dest src k i s = Done (err, s') ∧ copy_post (S l) i s dest src err s'.
Proof.
  intros Hl Hrec. induction k as [|k IH]; intros i s dest src Hpre Hi Hk;
    pose proof Hpre as (Hok & Hd & Hud & Hst & _).
  - exists kSuccess, s. split; [done|]. unfold copy_post. split_and!; [done..|]. left.
    split_and!; [done..|]. intros; lia.
  - cbn [copy_tables].
    assert (Hrest : ∀ s4, alloc_ok (frames s4) → cr3 s4 = cr3 s → mono s s4 →
      agree (λ f, f = dest / 4096) s s4 → entry_copied (S l) s s4 dest src i →
      (∀ j, 0 ≤ j < 512 → j ≠ i → rd s4 (slot dest j) = rd s (slot dest j)) →
      ∃ err s', copy_tables rec dest src k (i + 1) s4 = Done (err, s') ∧
        copy_post (S l) i s dest src err s').
    { intros s4 Hok4 Hcr4 Hm4 Ha4 Hci Hoth.
      destruct (IH (i + 1) s4 dest src) as (err & s5 & E & Hok5 & Hcr5 & Hm5 & Ha5 & Hpost); [|lia..|].
      { apply (copy_pre_agree (S l) start s); [lia|done..]. }
      exists err, s5. split; [done|]. unfold copy_post.
      split_and!; [done|congruence|by apply mono_trans with s4|by apply agree_trans with s4|].
      destruct Hpost as [(-> & Hlow & Hhigh)|]; [left|by right]. split; [done|].
      split; [intros j Hj; rewrite Hlow by lia; apply Hoth; lia|].
      intros j Hj. destruct (decide (j = i)) as [->|].
      - apply (entry_copied_later l s s4); [lia|lia|done|done|lia|done|done| |done]. apply Hlow. lia.
      - apply (entry_copied_earlier l start s s4); [lia|done|lia|done|done| |].
        + apply Hoth; lia.
        + apply Hhigh. lia. }
    destruct (present (rd s (slot src i))) eqn:Hp; simpl.
    + destruct (copy_turn l rec start s dest src i) as (r & s1 & -> & [(Her & Hpost)|(Her & Hrun)]); [done|done|done|lia|done|..];
        simpl; rewrite Her; simpl.
      * eexists _, _. done.
      * destruct Hrun as (err & s4 & E4 & Hok4 & Hcr4 & Hm4 & Ha4 & Hpost). rewrite E4. simpl.
        destruct Hpost as [(-> & Hci & Hoth)| ->]; simpl.
        -- by apply Hrest.
        -- eexists _, _. split; [reflexivity|]. unfold copy_post. split_and!; [done..|]. by right.
    + apply Hrest; [done..| |done]. unfold entry_copied. by rewrite Hp.
Qed.

Lemma CopyPageMaps_correct level : (1 ≤ level ≤ 4)%nat → ∀ start, 0 ≤ start ≤ 512 →
  copy_correct level start (CopyPageMaps level start).
Proof.
  induction level as [|l IH]; intros Hl start Hs s dest src Hpre; [lia|].
  destruct l as [|l].
  - eexists _, _. split; [reflexivity|]. apply (copy_leaves_spec start); [done|lia..].
  - change (CopyPageMaps (S (S l)) start s dest src)
      with (copy_tables (CopyPageMaps (S l) 0) dest src (Z.to_nat (512 - start)) start s).
    apply (copy_tables_spec _ _ start); [lia| |done|lia..]. apply IH; lia.
Qed.

(** The whole copy: every address from entry [start] on translates in the copy as
    in the source, without its write permission. *)
Lemma CopyPageMaps_walk level start s dest src : (1 ≤ level ≤ 4)%nat → 0 ≤ start ≤ 512 →
  copy_pre level start s dest src →
  (∀ i, start ≤ i < 512 → present (rd s (slot dest i)) = false) →
  ∃ err s', CopyPageMaps level start s dest src = Done (err, s') ∧
    alloc_ok (frames s') ∧ cr3 s' = cr3 s ∧ mono s s' ∧ agree (λ f, f = dest / 4096) s s' ∧
    ((err = kSuccess ∧
      (∀ i, 0 ≤ i < start → rd s' (slot dest i) = rd s (slot dest i)) ∧
      (∀ va, start ≤ Part level va → small_pages s level src va → small_pages s' level dest va) ∧
      (∀ va, start ≤ Part level va →
        walk s' level dest va = (λ e, set_writable e false) <$> walk s level src va)) ∨
     err = kNoEnoughMemory).
Proof.
  intros Hl Hs Hpre Hz.
  destruct (CopyPageMaps_correct level Hl start Hs s dest src Hpre) as (err & s' & E & Hok & Hcr & Hm & Ha & Hpost).
  exists err, s'. split; [done|]. split_and!; [done..|].
  destruct Hpost as [(-> & Hlow & Hc)|]; [left|by right]. split; [done|]. split; [done|].
  split; intros va Hva; destruct level as [|l]; try lia.
  { apply copied_small; [apply Hc; pose proof (Part_bound (S l) va Hl); lia|].
    rewrite Hz by (pose proof (Part_bound (S l) va Hl); lia). done. }
  cbn [walk]. pose proof (Part_bound (S l) va Hl) as Hi.
  specialize (Hc (Part (S l) va) ltac:(lia)). unfold entry_copied in Hc.
  destruct (present (rd s (slot src (Part (S l) va)))) eqn:Hp; simpl in Hc.
  - destruct l as [|l].
    + rewrite Hc. unfold present in *. by rewrite bit_ro, Hp by lia.
    + destruct Hc as (-> & _ & _ & _ & Hw). apply Hw.
  - by rewrite Hc, Hz by lia.
Qed.
End copy.
End CopyFacts.

(** ** [CopyOnePage]: a private copy of the faulting page *)
Module FaultFacts.
Import EntryFacts SetupFacts CopyFacts.

Section fault.
Context {A : Type} `{FA : FrameAllocator A} {FL : FrameAllocatorLaws A}.
Implicit Types s : pstate A.

(** The slot of the last-level entry of [va], and the frames of the tables on the
    way to it. *)
Fixpoint leaf_slot s (level : nat) (table va : Z) : Z :=
  match level with
  | O => 0
  | S level' =>
      match level' with
      | O => slot table (Part level va)
      | _ => leaf_slot s level' (Pointer (rd s (slot table (Part level va)))) va
      end
  end.

Fixpoint path_tables s (level : nat) (table va : Z) : list Z :=
  match level with
  | O => []
  | S level' => table / 4096 :: path_tables s level' (Pointer (rd s (slot table (Part level va)))) va
  end.

Abbreviation no_data := (λ _, False).

Lemma leaf_slot_in s l p start va : (1 ≤ l ≤ 4)%nat → tree_from no_data s l p start → start ≤ Part l va →
  walk s l p va ≠ None →
  used s (leaf_slot s l p va / 4096) = true ∧ leaf_slot s l p va / 4096 ∈ path_tables s l p va.
Proof.
  revert p start. induction l as [|l IH]; intros p start Hl; [lia|]. cbn [tree_from walk].
  intros (Hal & Hu & _ & Ht) Hst Hw. pose proof (Part_bound (S l) va Hl) as Hi.
  assert (Hpg : slot p (Part (S l) va) / 4096 = p / 4096) by by apply dest_slot.
  destruct (present _) eqn:Hp; [|done]. destruct l as [|l].
  - cbn [leaf_slot path_tables]. rewrite Hpg. split; [done|]. apply list_elem_of_here.
  - destruct (IH (Pointer (rd s (slot p (Part (S (S l)) va)))) 0) as [H1 H2]; [lia|apply Ht; [lia|done]|apply Part_bound; lia|done|].
    split; [done|]. cbn [path_tables]. by apply list_elem_of_further.
Qed.

Lemma translate_walk s l p va : (1 ≤ l ≤ 4)%nat → small_pages s l p va →
  translate (mem s) l p va = (λ e, Pointer e + va mod kPageSize4K) <$> walk s l p va.
Proof.
  revert p. induction l as [|l IH]; intros p Hl; [lia|]. cbn [small_pages translate walk].
  intros Hsm. unfold rd in *. destruct (present _); [|done]. destruct (Hsm eq_refl) as [Hh Hs]. cbn [negb].
  destruct l as [|l]; [done|]. destruct Hh as [Hh|Hh]; [done|]. rewrite Hh.
  specialize (IH _ ltac:(lia) Hs). destruct l as [|[|l]]; apply IH.
Qed.

Lemma walk_agree_va s s' l p start va : (∀ a, used s (a / 4096) = true → rd s' a = rd s a) → (l ≤ 4)%nat →
  tree_from no_data s l p start → start ≤ Part l va → walk s' l p va = walk s l p va ∧
    leaf_slot s' l p va = leaf_slot s l p va ∨ walk s l p va = None ∧ walk s' l p va = None.
Proof.
  intros Ha. revert p start. induction l as [|l IH]; intros p start Hl; [by left|]. cbn [tree_from walk leaf_slot].
  intros (Hal & Hu & _ & Ht) Hst. pose proof (Part_bound (S l) va ltac:(lia)) as Hi.
  assert (Hpg : slot p (Part (S l) va) / 4096 = p / 4096) by by apply dest_slot.
  rewrite Ha by by rewrite Hpg. destruct (present _) eqn:Hp; [|by right].
  destruct l as [|l]; [by left|]. apply (IH _ 0); [lia| |apply Part_bound; lia]. apply Ht; [lia|done].
Qed.

Lemma walk_leaf s l p va e : walk s l p va = Some e → rd s (leaf_slot s l p va) = e.
Proof.
  revert p. induction l as [|l IH]; intros p; [done|]. cbn [walk leaf_slot].
  destruct (present _); [|done]. destruct l; [by intros [= <-]|]. apply IH.
Qed.

Lemma walk_present s l p va e : walk s l p va = Some e → present e = true.
Proof.
  revert p. induction l as [|l IH]; intros p; [done|]. cbn [walk].
  destruct (present (rd s (slot p (Part (S l) va)))) eqn:E; [|done]. destruct l; [by intros [= <-]|apply IH].
Qed.

Lemma walk_leaf_update s s' l p start va e' : (1 ≤ l ≤ 4)%nat → tree_from no_data s l p start → start ≤ Part l va →
  walk s l p va ≠ None → NoDup (path_tables s l p va) →
  (∀ a, used s (a / 4096) = true → a ≠ leaf_slot s l p va → rd s' a = rd s a) →
  rd s' (leaf_slot s l p va) = e' → present e' = true → walk s' l p va = Some e'.
Proof.
  revert p start. induction l as [|l IH]; intros p start Hl; [lia|]. intros Htree Hst.
  pose proof (leaf_slot_in s (S l) p start va Hl Htree Hst) as Hin. revert Hin.
  destruct Htree as (Hal & Hu & _ & Ht). pose proof (Part_bound (S l) va Hl) as Hi.
  assert (Hpg : slot p (Part (S l) va) / 4096 = p / 4096) by by apply dest_slot.
  cbn [walk leaf_slot path_tables]. destruct (present (rd s _)) eqn:Hp; [|done].
  destruct l as [|l].
  - intros _ _ _ _ -> ->. done.
  - intros Hin Hw [Hnin Hnd]%NoDup_cons Hag Hleaf He'.
    set (q := Pointer (rd s (slot p (Part (S (S l)) va)))) in *.
    destruct (leaf_slot_in s (S l) q 0 va) as [_ Hq]; [lia|apply Ht; [lia|done]|apply Part_bound; lia|done|].
    assert (Hrd : rd s' (slot p (Part (S (S l)) va)) = rd s (slot p (Part (S (S l)) va))).
    { apply Hag; [by rewrite Hpg|]. intros Heq. apply Hnin.
      rewrite <- Hpg, Heq. apply Hq. }
    rewrite Hrd, Hp. apply (IH q 0); [lia|apply Ht; [lia|done]|apply Part_bound; lia|done..].
Qed.

Lemma SetPageContent_eq s l p va content : (1 ≤ l)%nat →
  SetPageContent s p l va content =
    let a := leaf_slot s l p va in
    let s1 := wr s a (SetPointer (rd s a) content) in
    Done (kSuccess, wr s1 a (set_writable (rd s1 a) true)).
Proof.
  revert p. induction l as [|l IH]; intros p Hl; [lia|]. cbn [SetPageContent leaf_slot].
  destruct l as [|l]; [done|]. apply IH. lia.
Qed.

Lemma align_down va : 0 ≤ va < 2 ^ 64 → Z.land va 0xfffffffffffff000 = va / 4096 * 4096.
Proof.
  intros Hva. change 0xfffffffffffff000 with (Z.shiftl (Z.ones 52) 12).
  change 4096 with (2 ^ 12). rewrite <- Z.shiftr_div_pow2, <- Z.shiftl_mul_pow2 by lia.
  apply Z.bits_inj'. intros i Hi. rewrite Z.land_spec, !Z.shiftl_spec by lia.
  destruct (decide (12 ≤ i)).
  - rewrite Z.shiftr_spec, testbit_ones by lia. replace (i - 12 + 12) with i by lia.
    destruct (Z.ltb_spec (i - 12) 52); [by rewrite andb_true_r|].
    by rewrite (testbit_high 64) by lia.
  - rewrite !(Z.testbit_neg_r _ (i - 12)) by lia. apply andb_false_r.
Qed.

Lemma Part_aligned l va : (1 ≤ l ≤ 4)%nat → Part l (va / 4096 * 4096) = Part l va.
Proof. intros. rewrite !Part_div, Z.div_mul by lia. done. Qed.

Lemma walk_aligned s l p va : (l ≤ 4)%nat → walk s l p (va / 4096 * 4096) = walk s l p va.
Proof.
  revert p. induction l as [|l IH]; intros p Hl; [done|]. cbn [walk]. rewrite Part_aligned by lia.
  destruct (present _); [|done]. destruct l; [done|]. apply IH. lia.
Qed.

Lemma small_pages_aligned s s' l p start va : (l ≤ 4)%nat → tree_from no_data s l p start → start ≤ Part l va →
  walk s l p va ≠ None →
  (∀ a, used s (a / 4096) = true → rd s' a = rd s a) →
  small_pages s l p va → small_pages s' l p (va / 4096 * 4096).
Proof.
  revert p start. induction l as [|l IH]; intros p start Hl; [done|]. cbn [tree_from small_pages walk].
  intros (Hal & Hu & _ & Ht) Hst Hw Ha Hsm. rewrite Part_aligned by lia.
  pose proof (Part_bound (S l) va ltac:(lia)) as Hi.
  rewrite Ha by by rewrite dest_slot. destruct (present _) eqn:Hp; [|done]. destruct (Hsm eq_refl) as [Hh Hs].
  split; [done|]. destruct l as [|l]; [done|].
  apply (IH _ 0); [lia|apply Ht; [lia|done]|apply Part_bound; lia|done..].
Qed.

(** The outcome of a copy-on-write fault. *)
Definition copied_page s (va e : Z) s' (f : Z) : Prop :=
  used s f = false ∧ (∀ g, used s' g = (g =? f) || used s g) ∧
  (∃ e', walk s' 4 (cr3 s') va = Some e' ∧ Pointer e' = 4096 * f ∧ writable e' = true ∧
     (∀ b, 0 ≤ b < 12 → b ≠ 1 → bit e' b = bit e b) ∧ rd s' (leaf_slot s 4 (cr3 s) va) = e') ∧
  (∀ i, 0 ≤ i < 512 → rd s' (slot (4096 * f) i) = rd s (slot (Pointer e) i)) ∧
  (∀ a, used s (a / 4096) = true → a ≠ leaf_slot s 4 (cr3 s) va → rd s' a = rd s a).

Lemma CopyOnePage_spec s va e start : alloc_ok (frames s) → tree_from no_data s 4 (cr3 s) start → start ≤ Part 4 va →
  0 ≤ va < 2 ^ 64 → walk s 4 (cr3 s) va = Some e → small_pages s 4 (cr3 s) va →
  NoDup (path_tables s 4 (cr3 s) va) → used s (Pointer e / 4096) = true →
  ∃ err s', CopyOnePage s va = Done (err, s') ∧ cr3 s' = cr3 s ∧ alloc_ok (frames s') ∧
    ((err = kSuccess ∧ ∃ f, copied_page s va e s' f) ∨
     (err = kNoEnoughMemory ∧ mem s' = mem s ∧ ∀ g, used s' g = used s g)).
Proof.
  intros Hok Ht Hst Hva Hw Hsmall Hnd Hue. unfold CopyOnePage.
  destruct (NewPageMap_spec s Hok) as
    (r & s1 & -> & Hok1 & Hcr & [(Her & f & Hv & Hf & Hfu & Hus1 & Hm1)|(Her & Hus1 & Hm1)]);
    cbn [mbind outcome_bind]; rewrite Her;
    change (error_bool kSuccess) with false; change (error_bool kNoEnoughMemory) with true; cbv iota; [|by eexists _, _; split; [reflexivity|]; split_and!; [done..|]; right].
  assert (Hrd1 : ∀ a, used s (a / 4096) = true → rd s1 a = rd s a).
  { intros a Ha. unfold rd. rewrite Hm1. apply zero_page_out. congruence. }
  assert (Hwn : walk s 4 (cr3 s) va ≠ None) by by rewrite Hw.
  destruct (leaf_slot_in s 4 (cr3 s) start va ltac:(lia) Ht Hst Hwn) as [Hul _].
  assert (Hmem : ∀ s0 : pstate A, mem s0 = mem s0) by done.
  destruct (walk_agree_va s s1 4 (cr3 s) start va Hrd1 ltac:(lia) Ht Hst) as [[Hw1 Hl1]|[? _]]; [|congruence].
  rewrite align_down, Hcr, translate_walk, walk_aligned, Hw1, Hw by
    (lia || by apply (small_pages_aligned s _ _ _ start)). cbn [fmap option_fmap option_map of_option mbind outcome_bind].
  rewrite Z.mod_mul, Z.add_0_r by done.
  set (s2 := mkPS _ _ _).
  assert (Hrd2 : ∀ a, used s (a / 4096) = true → rd s2 a = rd s a).
  { intros a Ha. unfold rd, s2. simpl. rewrite Hv, copy_page_out by congruence. by apply Hrd1. }
  rewrite SetPageContent_eq by lia. cbv zeta.
  destruct (walk_agree_va s s2 4 (cr3 s) start va Hrd2 ltac:(lia) Ht Hst) as [[Hw2 Hl2]|[? _]]; [|congruence].
  change (cr3 s2) with (cr3 s). rewrite Hl2. set (ls := leaf_slot s 4 (cr3 s) va) in *.
  assert (Hls : rd s2 ls = e) by (rewrite Hrd2 by done; by apply walk_leaf).
  eexists _, _. split; [reflexivity|]. split; [done|]. split; [done|]. left. split; [done|]. exists f.
  set (e' := set_writable (SetPointer e (value r)) true).
  set (s3 := wr _ ls (set_writable _ _)).
  assert (Hrd3 : ∀ a, rd s3 a = if decide (ls = a) then e' else rd s2 a).
  { intros a. unfold s3. rewrite rd_wr. case_decide as H1.
    - unfold e'. do 2 f_equal. by rewrite rd_wr, decide_True, Hls.
    - by rewrite rd_wr, decide_False. }
  pose proof (walk_present _ _ _ _ _ Hw) as Hpe.
  assert (He'b : ∀ b, 0 ≤ b < 12 → b ≠ 1 → bit e' b = bit e b).
  { intros b Hb Hb1. unfold e', set_writable. rewrite bit_set_bit, decide_False by lia. by apply bit_SetPointer. }
  unfold copied_page. split_and!; [done|exact Hus1| | |].
  - exists e'. split_and!; [|unfold e', set_writable; rewrite Pointer_set_bit, Hv, Pointer_SetPointer by lia; done
      |unfold e', writable, set_writable; by rewrite bit_set_bit|done|by rewrite Hrd3, decide_True].
    apply (walk_leaf_update s _ _ _ start); [lia|done|done|done|done| | |].
    + intros a Ha Hne. rewrite Hrd3, decide_False by done. by apply Hrd2.
    + by rewrite Hrd3, decide_True.
    + unfold present. by rewrite He'b by lia.
  - intros i Hi. rewrite Hrd3, decide_False.
    + unfold rd at 1, s2. simpl. rewrite Hv, copy_page_in by done. apply Hrd1.
      by rewrite dest_slot by (done || apply Pointer_aligned).
    + intros Heq. rewrite Heq, slot_page in Hul by done. congruence.
  - intros a Ha Hne. rewrite Hrd3, decide_False by done. by apply Hrd2.
Qed.
End fault.
End FaultFacts.

(** ** [CleanPageMap] releases a tree of tables *)
Module CleanFacts.
Import EntryFacts SetupFacts CopyFacts.

Section clean.
Context {A : Type} `{FA : FrameAllocator A} {FL : FrameAllocatorLaws A}.
Implicit Types s : pstate A.

(** The frames of the tables below (and including) [p], from entry [start] on. *)
Fixpoint tables_from s (level : nat) (p start : Z) : list Z :=
  match level with
  | O => []
  | S level' =>
      p / 4096 :: (seqZ start (512 - start) ≫= λ i,
        if present (rd s (slot p i)) then tables_from s level' (Pointer (rd s (slot p i))) 0 else [])
  end.
Abbreviation tables s level p := (tables_from s level p 0).

(** The frames a walk from [addr]'s parts releases, in order. *)
Fixpoint owned s (level : nat) (p addr : Z) : list Z :=
  match level with
  | O => []
  | S level' =>
      seqZ (Part level addr) (512 - Part level addr) ≫= λ i,
        let e := rd s (slot p i) in
        if present e then
          owned s level' (Pointer e) addr ++ (if writable e then [Pointer e / 4096] else [])
        else []
  end.

Definition below s (level : nat) (p i : Z) : list Z :=
  if present (rd s (slot p i)) then tables s level (Pointer (rd s (slot p i))) else [].

Definition owned_entry s (level : nat) (p addr i : Z) : list Z :=
  let e := rd s (slot p i) in
  if present e then owned s level (Pointer e) addr ++ (if writable e then [Pointer e / 4096] else [])
  else [].

Lemma agree_list_bind {B} (f g : Z → list B) (l : list Z) : (∀ i, i ∈ l → f i = g i) → l ≫= f = l ≫= g.
Proof.
  induction l as [|x l IH]; intros H; [done|]. rewrite !bind_cons, H by apply list_elem_of_here.
  f_equal. apply IH. intros i Hi. apply H. by apply list_elem_of_further.
Qed.

Lemma tables_agree s s' l p addr : (l ≤ 4)%nat → p mod 4096 = 0 →
  (∀ a, a / 4096 ∈ tables s l p → rd s' a = rd s a) →
  tables s' l p = tables s l p ∧ owned s' l p addr = owned s l p addr.
Proof.
  revert p. induction l as [|l IH]; intros p Hl Hal Ha; [done|]. cbn [tables_from owned].
  assert (Hw : ∀ i, 0 ≤ i < 512 → rd s' (slot p i) = rd s (slot p i)).
  { intros i Hi. apply Ha. rewrite dest_slot by done. apply list_elem_of_here. }
  assert (Hsub : ∀ i, 0 ≤ i < 512 → present (rd s (slot p i)) = true →
    tables s' l (Pointer (rd s (slot p i))) = tables s l (Pointer (rd s (slot p i))) ∧
    owned s' l (Pointer (rd s (slot p i))) addr = owned s l (Pointer (rd s (slot p i))) addr).
  { intros i Hi Hp. apply IH; [lia|apply Pointer_aligned|]. intros a Hin. apply Ha. cbn [tables_from].
    apply list_elem_of_further, list_elem_of_bind. exists i. rewrite Hp. split; [done|]. apply elem_of_seqZ. lia. }
  split; [f_equal|]; apply agree_list_bind; intros i Hi%elem_of_seqZ;
    try pose proof (Part_bound (S l) addr ltac:(lia)); cbv zeta; rewrite Hw by lia;
    destruct (present _) eqn:Hp; try done; destruct (Hsub i ltac:(lia) Hp) as [Ht Ho]; [done|].
  by rewrite Ho.
Qed.

(** The state after releasing the frames of [o] while touching only the tables [t]. *)
Record released (t o : list Z) s s' : Prop := {
  rel_ok : alloc_ok (frames s');
  rel_cr3 : cr3 s' = cr3 s;
  rel_used : ∀ f, used s' f = used s f && negb (bool_decide (f ∈ o));
  rel_mem : ∀ a, a / 4096 ∉ t → rd s' a = rd s a;
}.

Lemma released_trans t1 t2 o1 o2 s1 s2 s3 : released t1 o1 s1 s2 → released t2 o2 s2 s3 →
  released (t1 ++ t2) (o1 ++ o2) s1 s3.
Proof.
  intros [K1 C1 U1 M1] [K2 C2 U2 M2]. split; [done|congruence| |].
  - intros f. rewrite U2, U1, <- andb_assoc, <- negb_orb. do 2 f_equal.
    rewrite <- bool_decide_or. apply bool_decide_ext. by rewrite elem_of_app.
  - intros a Ha. rewrite elem_of_app in Ha. rewrite M2, M1 by tauto. done.
Qed.

Definition clean_correct (level : nat) (addr : Z)
    (f : pstate A → Z → Z → outcome (Code * pstate A)) : Prop :=
  ∀ s p start, alloc_ok (frames s) → p mod 4096 = 0 → 0 ≤ start ≤ Part level addr → NoDup (tables_from s level p start) →
    Forall (λ f, 0 ≤ f < kFrameCount) (owned s level p addr) →
    ∃ s', f s p addr = Done (kSuccess, s') ∧ released (tables_from s level p start) (owned s level p addr) s s' ∧
      ∀ i, 0 ≤ i < 512 → rd s' (slot p i) =
        if (Part level addr <=? i) && present (rd s (slot p i)) then 0 else rd s (slot p i).

(** One present entry: the tables below it, its own frame, and the entry itself. *)
Lemma clean_turn l rec addr s p i : (l < 4)%nat → (l ≠ 0%nat → clean_correct l addr rec) →
  alloc_ok (frames s) → p mod 4096 = 0 → 0 ≤ i < 512 → present (rd s (slot p i)) = true →
  NoDup (p / 4096 :: below s l p i) →
  Forall (λ f, 0 ≤ f < kFrameCount) (owned_entry s l p addr i) →
  let e := rd s (slot p i) in
  ∃ s1 s2,
    (if bool_decide (1 < S l)%nat then rec s (Pointer e) addr else mret (kSuccess, s)) = Done (kSuccess, s1) ∧
    (if writable e then FreePageMap s1 (Pointer e) else mret (kSuccess, s1)) = Done (kSuccess, s2) ∧
    released (p / 4096 :: below s l p i) (owned_entry s l p addr i) s (wr s2 (slot p i) 0) ∧
    ∀ j, 0 ≤ j < 512 → j ≠ i → rd s2 (slot p j) = rd s (slot p j).
Proof.
  intros Hl Hrec Hok Hal Hi Hp [Hnin Hnd]%NoDup_cons Hown e.
  unfold below, owned_entry in *. fold e in Hp, Hnin, Hnd, Hown |- *. rewrite Hp in *.
  apply Forall_app in Hown as [Ho1 Ho2].
  assert (H1 : ∃ s1, (if bool_decide (1 < S l)%nat then rec s (Pointer e) addr else mret (kSuccess, s))
      = Done (kSuccess, s1) ∧ released (tables s l (Pointer e)) (owned s l (Pointer e) addr) s s1).
  { case_bool_decide as Hc.
    - destruct (Hrec ltac:(lia) s (Pointer e) 0) as (s1 & E & Hr & _);
        [done|apply Pointer_aligned|split; [done|apply Part_nonneg; lia]|done|done|].
      by exists s1.
    - exists s. split; [done|]. assert (l = 0%nat) as -> by lia. split; [done..| |done].
      intros f. simpl. by rewrite andb_true_r. }
  destruct H1 as (s1 & E1 & R1). exists s1.
  assert (H2 : ∃ s2, (if writable e then FreePageMap s1 (Pointer e) else mret (kSuccess, s1)) = Done (kSuccess, s2) ∧
      released [] (if writable e then [Pointer e / 4096] else []) s1 s2).
  { destruct (writable e); [|exists s1; split; [done|]; split; [apply R1|done| |done]; intros f; simpl; by rewrite andb_true_r].
    rewrite Forall_singleton in Ho2. change kBytesPerFrame with 4096 in *.
    destruct (free_frame_spec (frames s1) (Pointer e / 4096)) as (fa & E & Hok' & Hu); [apply R1|done|].
    exists (mkPS (cr3 s1) (mem s1) fa). split.
    - unfold FreePageMap. change kBytesPerFrame with 4096. by rewrite E.
    - split; [done..| |done]. intros f. unfold used. simpl. rewrite Hu, andb_comm. do 2 f_equal.
      destruct (Z.eqb_spec f (Pointer e / 4096)) as [->|Hne]; symmetry.
      + by apply bool_decide_eq_true_2, list_elem_of_singleton.
      + apply bool_decide_eq_false_2. by rewrite list_elem_of_singleton. }
  destruct H2 as (s2 & E2 & R2). exists s2. split_and!; [done..| |].
  - pose proof (released_trans _ _ _ _ _ _ _ R1 R2) as [K C U M]. rewrite app_nil_r in M.
    split; [done..|]. intros a Ha. rewrite rd_wr. rewrite decide_False.
    + apply M. intros H. apply Ha. by apply list_elem_of_further.
    + intros <-. apply Ha. rewrite dest_slot by done. apply list_elem_of_here.
  - intros j Hj Hji. pose proof (released_trans _ _ _ _ _ _ _ R1 R2) as [K C U M]. rewrite app_nil_r in M.
    apply M. by rewrite dest_slot.
Qed.

Lemma clean_loop_correct l rec addr k : (l < 4)%nat → (l ≠ 0%nat → clean_correct l addr rec) →
  ∀ i s p, alloc_ok (frames s) → p mod 4096 = 0 → 0 ≤ i → i + Z.of_nat k = 512 →
  NoDup (p / 4096 :: (seqZ i (Z.of_nat k) ≫= below s l p)) →
  Forall (λ f, 0 ≤ f < kFrameCount) (seqZ i (Z.of_nat k) ≫= owned_entry s l p addr) →
  ∃ s', clean_loop rec (S l) addr k i s p = Done (kSuccess, s') ∧
    released (p / 4096 :: (seqZ i (Z.of_nat k) ≫= below s l p))
             (seqZ i (Z.of_nat k) ≫= owned_entry s l p addr) s s' ∧
    ∀ j, 0 ≤ j < 512 → rd s' (slot p j) =
      if (i <=? j) && present (rd s (slot p j)) then 0 else rd s (slot p j).
Proof.
  intros Hl Hrec. induction k as [|k IH]; intros i s p Hok Hal Hi Hk Hnd Hown.
  { exists s. split; [done|]. split.
    - split; [done..| |done]. intros f. simpl. by rewrite andb_true_r.
    - intros j Hj. destruct (Z.leb_spec i j); [lia|done]. }
  rewrite seqZ_cons in Hnd, Hown |- * by lia.
  replace (Z.pred (Z.of_nat (S k))) with (Z.of_nat k) in * by lia. replace (Z.succ i) with (i + 1) in * by lia.
  rewrite bind_cons in Hnd, Hown |- *. rewrite bind_cons.
  apply NoDup_cons in Hnd as [Hnin Hnd]. rewrite elem_of_app in Hnin.
  apply NoDup_app in Hnd as (Hnd1 & Hdis & Hnd2). apply Forall_app in Hown as [Ho1 Ho2].
  cbn [clean_loop]. destruct (present (rd s (slot p i))) eqn:Hp; cbn [negb].
  - destruct (clean_turn l rec addr s p i) as (s1 & s2 & -> & E2 & R & Hoth);
      [done..|lia|done|apply NoDup_cons; tauto|done|].
    cbn [mbind outcome_bind]. change (error_bool kSuccess) with false. cbv iota. rewrite E2.
    cbn [mbind outcome_bind]. change (error_bool kSuccess) with false. cbv iota.
    set (s3 := wr s2 (slot p i) 0) in *.
    assert (Hslots : ∀ j, i + 1 ≤ j < 512 → rd s3 (slot p j) = rd s (slot p j)).
    { intros j Hj. unfold s3. rewrite rd_wr, decide_False by (intros ?%slot_inj; lia). apply Hoth; lia. }
    assert (Hsame : ∀ j, j ∈ seqZ (i + 1) (Z.of_nat k) →
      below s3 l p j = below s l p j ∧ owned_entry s3 l p addr j = owned_entry s l p addr j).
    { intros j Hj. pose proof Hj as Hj'%elem_of_seqZ. unfold below, owned_entry. cbv zeta.
      rewrite Hslots by lia. destruct (present (rd s (slot p j))) eqn:Hpj; [|done].
      destruct (tables_agree s s3 l (Pointer (rd s (slot p j))) addr) as [-> ->]; [lia|apply Pointer_aligned| |done].
      assert (Hin : ∀ f, f ∈ tables s l (Pointer (rd s (slot p j))) →
        f ∈ (seqZ (i + 1) (Z.of_nat k) ≫= below s l p)).
      { intros f Hf. apply list_elem_of_bind. exists j. unfold below. by rewrite Hpj. }
      intros a Ha%Hin. apply (rel_mem _ _ _ _ R). intros [Heq|Hb]%elem_of_cons; [|by apply (Hdis _ Hb)].
      apply Hnin. right. by rewrite <- Heq. }
    destruct (IH (i + 1) s3 p) as (s4 & E4 & R4 & Hz); [apply R|done|lia|lia| | |].
    { rewrite (agree_list_bind (below s3 l p) (below s l p)) by apply Hsame. apply NoDup_cons. tauto. }
    { by rewrite (agree_list_bind (owned_entry s3 l p addr) (owned_entry s l p addr)) by apply Hsame. }
    exists s4. split; [done|].
    rewrite (agree_list_bind (below s3 l p) (below s l p)), (agree_list_bind (owned_entry s3 l p addr) (owned_entry s l p addr)) in R4 by apply Hsame.
    split.
    + destruct (released_trans _ _ _ _ _ _ _ R R4) as [K C U M]. split; [done..|].
      intros a Ha. apply M. rewrite elem_of_app, !elem_of_cons in *. rewrite elem_of_app in Ha. tauto.
    + intros j Hj. rewrite Hz by done. destruct (decide (j = i)) as [->|].
      * destruct (Z.leb_spec (i + 1) i), (Z.leb_spec i i); try lia. cbn [andb]. rewrite Hp.
        unfold s3. by rewrite rd_wr, decide_True.
      * destruct (Z.leb_spec (i + 1) j), (Z.leb_spec i j); try lia; cbn [andb].
        -- by rewrite Hslots by lia.
        -- unfold s3. rewrite rd_wr, decide_False by (intros ?%slot_inj; lia). apply Hoth; lia.
  - destruct (IH (i + 1) s p) as (s4 & E4 & R4 & Hz); [done..|lia|lia|apply NoDup_cons; tauto|done|].
    exists s4. split; [done|]. assert (below s l p i = []) as -> by (unfold below; by rewrite Hp).
    assert (owned_entry s l p addr i = []) as -> by (unfold owned_entry; cbv zeta; by rewrite Hp).
    split; [done|]. intros j Hj. rewrite Hz by done. destruct (decide (j = i)) as [->|].
    + by rewrite Hp, !andb_false_r.
    + destruct (Z.leb_spec (i + 1) j), (Z.leb_spec i j); try lia; done.
Qed.
Lemma CleanPageMap_correct l addr : (1 ≤ l ≤ 4)%nat → clean_correct l addr (λ s p a, CleanPageMap l s p a).
Proof.
  induction l as [|l IH]; intros Hl; [lia|]. intros s p start Hok Hal Hst Hnd Hown. cbn [CleanPageMap].
  pose proof (Part_bound (S l) addr Hl) as Hp. cbn [tables_from owned] in *.
  set (i := Part (S l) addr) in *.
  change (NoDup (p / 4096 :: (seqZ start (512 - start) ≫= below s l p))) in Hnd.
  change (Forall (λ f, 0 ≤ f < kFrameCount) (seqZ i (512 - i) ≫= owned_entry s l p addr)) in Hown.
  change (seqZ start (512 - start) ≫= _) with (seqZ start (512 - start) ≫= below s l p).
  change (seqZ i (512 - i) ≫= _) with (seqZ i (512 - i) ≫= owned_entry s l p addr).
  assert (Hsplit : seqZ start (512 - start) = seqZ start (i - start) ++ seqZ i (512 - i)).
  { replace i with (start + (i - start)) at 2 by lia. rewrite <- seqZ_app by lia. f_equal. lia. }
  rewrite Hsplit, bind_app in Hnd |- *. apply NoDup_cons in Hnd as [Hnin Hnd].
  rewrite elem_of_app in Hnin. apply NoDup_app in Hnd as (_ & _ & Hnd).
  destruct (clean_loop_correct l (CleanPageMap l) addr (Z.to_nat (512 - i))) with (i := i) (s := s) (p := p)
    as (s' & E & [K C U M] & Hz); rewrite ?Z2Nat.id by lia; [lia| |done|done|lia|lia| |done|].
  - intros Hl0. apply IH. lia.
  - apply NoDup_cons. tauto.
  - rewrite Z2Nat.id in * by lia. exists s'. split; [done|]. split; [|done]. split; [done..|].
    intros a Ha. apply M. rewrite elem_of_cons, ?elem_of_app in *. tauto.
Qed.

(** [e] is an entry of the tables below [p]. *)
Inductive in_tree s : nat → Z → Z → Prop :=
| in_tree_here l p i : 0 ≤ i < 512 → present (rd s (slot p i)) = true → in_tree s (S l) p (rd s (slot p i))
| in_tree_below l p i e : 0 ≤ i < 512 → present (rd s (slot p i)) = true →
    in_tree s l (Pointer (rd s (slot p i))) e → in_tree s (S l) p e.

(** Entry [e] holds frame [f] for this tree alone: it is writable and points to it. *)
Definition holds (e f : Z) : Prop := writable e = true ∧ Pointer e / 4096 = f.

Lemma elem_of_owned_entry s l p addr i f :
  f ∈ owned_entry s l p addr i ↔
  present (rd s (slot p i)) = true ∧
  (f ∈ owned s l (Pointer (rd s (slot p i))) addr ∨ holds (rd s (slot p i)) f).
Proof.
  unfold owned_entry, holds. cbv zeta. destruct (present _); [|split; [by intros ?%not_elem_of_nil|naive_solver]].
  rewrite elem_of_app. destruct (writable _).
  - rewrite list_elem_of_singleton. naive_solver.
  - rewrite elem_of_nil. naive_solver.
Qed.

Lemma elem_of_owned s l p addr f :
  f ∈ owned s (S l) p addr ↔
  ∃ i, Part (S l) addr ≤ i < 512 ∧ present (rd s (slot p i)) = true ∧
    (f ∈ owned s l (Pointer (rd s (slot p i))) addr ∨ holds (rd s (slot p i)) f).
Proof.
  change (owned s (S l) p addr) with
    (seqZ (Part (S l) addr) (512 - Part (S l) addr) ≫= owned_entry s l p addr).
  rewrite list_elem_of_bind. split.
  - intros (i & Hf & Hi%elem_of_seqZ). apply elem_of_owned_entry in Hf. exists i. split; [lia|done].
  - intros (i & Hi & Hf). exists i. split; [by apply elem_of_owned_entry|]. apply elem_of_seqZ. lia.
Qed.

(** From an address whose lower parts are zero, the whole subtree is released. *)
Lemma elem_of_owned_all s l p addr f : (∀ l', (1 ≤ l' ≤ l)%nat → Part l' addr = 0) →
  f ∈ owned s l p addr ↔ ∃ e, in_tree s l p e ∧ holds e f.
Proof.
  revert p. induction l as [|l IH]; intros p Hz.
  - cbn [owned]. rewrite elem_of_nil. split; [done|]. intros (e & He & _). inversion He.
  - rewrite elem_of_owned, Hz by lia. split.
    + intros (i & Hi & Hp & [Ho|Hh]).
      * apply IH in Ho as (e & He & Hh); [|intros; apply Hz; lia]. exists e. split; [|done]. by eapply in_tree_below.
      * exists (rd s (slot p i)). split; [|done]. by apply in_tree_here.
    + intros (e & He & Hh). inversion He as [l1 p1 i Hi Hp|l1 p1 i e1 Hi Hp Hbelow]; subst.
      * exists i. split; [lia|]. split; [done|]. by right.
      * exists i. split; [lia|]. split; [done|]. left. apply IH; [intros; apply Hz; lia|]. by exists e.
Qed.
End clean.
Abbreviation tables s level p := (tables_from s level p 0).
End CleanFacts.

(** ** The identity mapping *)
Module IdentityFacts.
Import EntryFacts.

(** Flags in the low bits of a page-aligned entry. *)
Lemma lor_flags d x : 0 ≤ x < 4096 → Z.lor (4096 * d) x = 4096 * d + x.
Proof.
  intros Hx. apply lor_disjoint_add. apply Z.bits_inj'. intros i Hi. rewrite Z.land_spec, Z.bits_0.
  replace (4096 * d) with (Z.shiftl d 12) by (rewrite Z.shiftl_mul_pow2 by lia; lia).
  rewrite Z.shiftl_spec by done. destruct (decide (i < 12)).
  - by rewrite (Z.testbit_neg_r _ (i - 12)) by lia.
  - rewrite (testbit_high 12 x) by lia. apply andb_false_r.
Qed.

Lemma Pointer_flags d x : 0 ≤ d < 2 ^ 40 → 0 ≤ x < 4096 → Pointer (Z.lor (4096 * d) x) = 4096 * d.
Proof.
  intros Hd Hx. rewrite lor_flags by done. unfold Pointer.
  rewrite field_div, Z.shiftl_mul_pow2 by lia. change (2 ^ 12) with 4096.
  replace ((4096 * d + x) / 4096) with d by dlia. rewrite Z.mod_small, wrap_small by lia. lia.
Qed.

Lemma bit_flags d x i : 0 ≤ x < 4096 → 0 ≤ i < 12 → bit (Z.lor (4096 * d) x) i = bit x i.
Proof.
  intros Hx Hi. unfold bit. f_equal. f_equal. unfold field.
  apply Z.bits_inj'. intros j Hj. rewrite !Z.land_spec, testbit_ones by lia.
  destruct (Z.ltb_spec j 1); [|by rewrite !andb_false_r]. rewrite !Z.shiftr_spec, Z.lor_spec by lia.
  replace (4096 * d) with (Z.shiftl d 12) by (rewrite Z.shiftl_mul_pow2 by lia; lia).
  rewrite Z.shiftl_spec, (Z.testbit_neg_r d) by lia. done.
Qed.

Section identity.
Context {A : Type}.
Implicit Types s : pstate A.
(** The page numbers of the three static arrays. *)
Variables pm pp pd : Z.
Hypothesis Hpp : 0 ≤ pp < 2 ^ 40.
Hypothesis Hpd : 0 ≤ pd < 2 ^ 40 - 64.
Hypothesis Hapart : pm ≠ pp ∧ (pm < pd ∨ pd + 64 ≤ pm) ∧ (pp < pd ∨ pd + 64 ≤ pp).
#[local] Set Default Proof Using "All".
Abbreviation dir := (directory (4096 * pd)).

Lemma dir_page i : dir i = 4096 * (pd + i).
Proof. unfold directory. change kPageSize4K with 4096. lia. Qed.

Lemma fill_foldl (g : Z → Z) f (n : nat) : ∀ b s a,
  0 ≤ b → b + Z.of_nat n ≤ 512 →
  let s' := foldl (λ s j, wr s (slot (4096 * f) j) (g j)) s (seqZ b (Z.of_nat n)) in
  (∀ j, b ≤ j < b + Z.of_nat n → rd s' (slot (4096 * f) j) = g j) ∧
  ((∀ j, b ≤ j < b + Z.of_nat n → a ≠ slot (4096 * f) j) → rd s' a = rd s a).
Proof.
  induction n as [|n IH]; intros b s a Hb Hn; [split; [lia|done]|].
  rewrite seqZ_cons by lia. replace (Z.pred (Z.of_nat (S n))) with (Z.of_nat n) by lia. cbn [foldl].
  split.
  - intros j Hj. destruct (decide (j = b)) as [->|].
    + destruct (IH (Z.succ b) (wr s (slot (4096 * f) b) (g b)) (slot (4096 * f) b)) as [_ H]; [lia..|].
      rewrite H; [|intros j Hj' ?%slot_inj; lia]. unfold rd, wr. simpl.
      by rewrite arr_read_set, decide_True.
    + apply (IH (Z.succ b) _ a); lia.
  - intros Ha. destruct (IH (Z.succ b) (wr s (slot (4096 * f) b) (g b)) a) as [_ H]; [lia..|].
    rewrite H; [|intros j Hj; apply Ha; lia]. unfold rd, wr. simpl.
    rewrite arr_read_set, decide_False; [done|]. intros Heq. by apply (Ha b); [lia|].
Qed.

Lemma fill_directory_rd i s a : 0 ≤ i < 64 →
  let s' := fill_directory (4096 * pp) (4096 * pd) i s in
  (∀ j, 0 ≤ j < 512 → rd s' (slot (dir i) j) = identity_entry i j) ∧
  rd s' (slot (4096 * pp) i) = Z.lor (dir i) 3 ∧
  (a / 4096 ≠ pd + i → a ≠ slot (4096 * pp) i → rd s' a = rd s a).
Proof.
  intros Hi. unfold fill_directory. rewrite dir_page. set (s1 := wr s _ _).
  pose proof (λ a, fill_foldl (identity_entry i) (pd + i) 512 0 s1 a) as H. change (Z.of_nat 512) with 512 in H.
  cbv zeta. split_and!.
  - intros j Hj. by apply (H 0).
  - destruct (H (slot (4096 * pp) i)) as [_ H2]; [lia..|]. rewrite H2.
    + unfold s1, rd, wr. simpl. by rewrite arr_read_set, decide_True.
    + intros j Hj Heq. apply (f_equal (λ a, a / 4096)) in Heq. rewrite !slot_page in Heq by lia. lia.
  - intros Ha Hne. destruct (H a) as [_ H2]; [lia..|]. rewrite H2.
    + unfold s1, rd, wr. simpl. by rewrite arr_read_set, decide_False.
    + intros j Hj ->. by rewrite slot_page in Ha.
Qed.

Lemma fill_directories_rd n s : (n ≤ 64)%nat →
  let s' := foldl (λ s i, fill_directory (4096 * pp) (4096 * pd) i s) s (seqZ 0 (Z.of_nat n)) in
  (∀ i j, 0 ≤ i < Z.of_nat n → 0 ≤ j < 512 → rd s' (slot (dir i) j) = identity_entry i j) ∧
  (∀ i, 0 ≤ i < Z.of_nat n → rd s' (slot (4096 * pp) i) = Z.lor (dir i) 3) ∧
  (∀ a, (a / 4096 < pd ∨ pd + 64 ≤ a / 4096) →
    (∀ i, 0 ≤ i < Z.of_nat n → a ≠ slot (4096 * pp) i) → rd s' a = rd s a).
Proof.
  induction n as [|n IH]; intros Hn; [split_and!; [lia|lia|done]|].
  replace (Z.of_nat (S n)) with (Z.of_nat n + 1) by lia.
  rewrite seqZ_app, foldl_app by lia. cbn [foldl Z.add]. rewrite Z.add_0_l.
  replace (seqZ (Z.of_nat n) 1) with [Z.of_nat n] by (rewrite seqZ_cons by lia; done).
  destruct IH as (H1 & H2 & H3); [lia|]. set (s1 := foldl _ s _) in *. cbn [foldl].
  set (s' := fill_directory _ _ _ s1).
  pose proof (λ a, fill_directory_rd (Z.of_nat n) s1 a ltac:(lia)) as Hf. cbv zeta in Hf. fold s' in Hf.
  split_and!.
  - intros i j Hi Hj. destruct (decide (i = Z.of_nat n)) as [->|]; [by apply (Hf 0)|].
    destruct (Hf (slot (dir i) j)) as (_ & _ & H). rewrite H; [by apply H1; lia| |];
      rewrite dir_page, ?slot_page by lia; [lia|].
    intros Heq. apply (f_equal (λ a, a / 4096)) in Heq. rewrite !slot_page in Heq by lia. lia.
  - intros i Hi. destruct (decide (i = Z.of_nat n)) as [->|]; [by apply (Hf 0)|].
    destruct (Hf (slot (4096 * pp) i)) as (_ & _ & H).
    rewrite H; [by apply H2; lia|rewrite slot_page by lia; lia|intros ?%slot_inj; lia].
  - intros a Ha Hne. destruct (Hf a) as (_ & _ & H). rewrite H; [apply H3; [done|]|lia|apply Hne; lia].
    intros i Hi. apply Hne. lia.
Qed.

Lemma fill_all_rd N s s' : 0 ≤ N ≤ 64 →
  foldl (λ s i, fill_directory (4096 * pp) (4096 * pd) i s) s (seqZ 0 N) = s' →
  (∀ i j, 0 ≤ i < N → 0 ≤ j < 512 → rd s' (slot (dir i) j) = identity_entry i j) ∧
  (∀ i, 0 ≤ i < N → rd s' (slot (4096 * pp) i) = Z.lor (dir i) 3) ∧
  (∀ a, (a / 4096 < pd ∨ pd + 64 ≤ a / 4096) →
    (∀ i, 0 ≤ i < N → a ≠ slot (4096 * pp) i) → rd s' a = rd s a).
Proof.
  intros HN <-. pose proof (fill_directories_rd (Z.to_nat N) s ltac:(lia)) as H.
  rewrite Z2Nat.id in H by lia. exact H.
Qed.

Lemma identity_entry_val i j : 0 ≤ i < 64 → 0 ≤ j < 512 →
  identity_entry i j = Z.lor (4096 * (2 ^ 18 * i + 2 ^ 9 * j)) 0x083.
Proof.
  intros Hi Hj. unfold identity_entry. f_equal. change kPageSize1G with (2 ^ 30). change kPageSize2M with (2 ^ 21).
  rewrite wrap_small by lia. lia.
Qed.

Lemma rd_ResetCR3 p s a : rd (ResetCR3 p s) a = rd s a.
Proof. reflexivity. Qed.

Lemma SetupIdentity_rd s a :
  rd (SetupIdentityPageTable (4096 * pm) (4096 * pp) (4096 * pd) s) a =
  rd (foldl (λ s i, fill_directory (4096 * pp) (4096 * pd) i s)
        (wr s (slot (4096 * pm) 0) (Z.lor (4096 * pp) 3)) (seqZ 0 kPageDirectoryCount)) a.
Proof. unfold SetupIdentityPageTable. apply rd_ResetCR3. Qed.

(** The memory after [SetupIdentityPageTable]. *)
Lemma identity_tables s s' i : 0 ≤ i < 512 →
  (∀ i, 0 ≤ i < 512 → rd s (slot (4096 * pp) i) = 0) →
  SetupIdentityPageTable (4096 * pm) (4096 * pp) (4096 * pd) s = s' →
  rd s' (slot (4096 * pm) 0) = Z.lor (4096 * pp) 3 ∧
  rd s' (slot (4096 * pp) i) = (if i <? 64 then Z.lor (4096 * (pd + i)) 3 else 0) ∧
  (i < 64 → ∀ j, 0 ≤ j < 512 →
    rd s' (slot (4096 * (pd + i)) j) = Z.lor (4096 * (2 ^ 18 * i + 2 ^ 9 * j)) 0x083).
Proof.
  intros Hi Hz Heq. pose proof (SetupIdentity_rd s) as Hs'. rewrite Heq in Hs'. clear Heq.
  assert (HN : kPageDirectoryCount = 64) by reflexivity. revert HN Hs'.
  set (s0 := wr s _ _). generalize kPageDirectoryCount. intros N -> Hs'.
  destruct (foldl _ s0 _) as [c m fr] eqn:E. set (s1 := mkPS c m fr) in *.
  apply fill_all_rd in E as (H1 & H2 & H3); [|lia]. rewrite !Hs'. split_and!.
  - rewrite H3; [|rewrite slot_page by lia; lia|].
    + unfold s0, rd, wr. simpl. by rewrite arr_read_set, decide_True.
    + intros k Hk Heq. apply (f_equal (λ a, a / 4096)) in Heq. rewrite !slot_page in Heq by lia. lia.
  - destruct (Z.ltb_spec i 64); [rewrite H2, dir_page by lia; done|].
    rewrite H3; [|rewrite slot_page by lia; lia|intros k Hk ?%slot_inj; lia].
    unfold s0, rd, wr. simpl. rewrite arr_read_set, decide_False.
    + by apply Hz.
    + intros Heq. apply (f_equal (λ a, a / 4096)) in Heq. rewrite !slot_page in Heq by lia. lia.
  - intros Hi64 j Hj. rewrite Hs', <- dir_page, H1 by lia. apply identity_entry_val; lia.
Qed.

Lemma identity_translate s s' va : 0 ≤ va < 2 ^ 39 →
  (∀ i, 0 ≤ i < 512 → rd s (slot (4096 * pp) i) = 0) →
  SetupIdentityPageTable (4096 * pm) (4096 * pp) (4096 * pd) s = s' →
  translate (mem s') 4 (4096 * pm) va =
    if va <? kPageDirectoryCount * kPageSize1G then Some va else None.
Proof.
  intros Hva Hz Heq.
  change kPageDirectoryCount with 64. change kPageSize1G with (2 ^ 30).
  assert (H4 : Part 4 va = 0) by (rewrite Part_div by lia; change (512 ^ (Z.of_nat 4 - 1)) with (2 ^ 27); dlia).
  assert (H3 : Part 3 va = va / 2 ^ 30).
  { rewrite Part_div by lia. change (512 ^ (Z.of_nat 3 - 1)) with (2 ^ 18).
    rewrite Z.div_div by lia. change (4096 * 2 ^ 18) with (2 ^ 30). dlia. }
  set (i := va / 2 ^ 30) in *. assert (Hi : 0 ≤ i < 512) by (unfold i; dlia).
  destruct (identity_tables s s' i Hi Hz Heq) as (E4 & E3 & E2). clear Heq Hz.
  unfold rd in E4, E3, E2. cbn [translate]. rewrite H4, E4.
  unfold present at 1. rewrite bit_flags by lia. change (bit 3 0) with true. cbn [negb].
  rewrite Pointer_flags, H3, E3 by lia.
  assert (Hi64 : (i <? 64) = (va <? 64 * 2 ^ 30)) by (unfold i; clear; bool_cases; dlia).
  rewrite Hi64. destruct (Z.ltb_spec va (64 * 2 ^ 30)) as [Hlt|Hge]; [|done].
  assert (i < 64) by (unfold i; dlia).
  unfold present at 1, huge_page at 1. rewrite !bit_flags by lia. change (bit 3 0) with true. change (bit 3 7) with false. cbn [negb].
  rewrite Pointer_flags by lia.
  pose proof (CopyFacts.Part_bound 2 va ltac:(lia)) as Hj. set (j := Part 2 va) in *.
  rewrite E2 by done. unfold present at 1, huge_page at 1. rewrite !bit_flags by lia.
  change (bit 131 0) with true. change (bit 131 7) with true. cbn [negb].
  rewrite Pointer_flags by lia. f_equal. change kPageSize2M with (2 ^ 21).
  assert (Hjv : j = (va / 2 ^ 21) mod 512).
  { unfold j. rewrite Part_div by lia. change (512 ^ (Z.of_nat 2 - 1)) with (2 ^ 9). rewrite Z.div_div by lia. done. }
  assert (Hva2 : va / 2 ^ 21 = 512 * i + j).
  { rewrite Hjv. unfold i. replace (va / 2 ^ 30) with (va / 2 ^ 21 / 512) by (rewrite Z.div_div by lia; done). dlia. }
  replace (4096 * (2 ^ 18 * i + 2 ^ 9 * j)) with ((512 * i + j) * 2 ^ 21) by lia.
  rewrite Z.div_mul, <- Hva2 by lia. dlia.
Qed.
End identity.
End IdentityFacts.

Import EntryFacts SetupFacts CopyFacts FaultFacts CleanFacts IdentityFacts.

(** ** Properties *)

(** The machine of the witnesses: frames 1 to 6 in use; frame 1 holds the PML4,
    whose entry 256 leads through the tables of frames 2, 3 and 4 to the page in
    frame 5, mapped for users and read-only. *)
Definition sample_mem : gmap Z Z :=
  <[slot (4096 * 1) 256 := 4096 * 2 + 7]> (<[slot (4096 * 2) 0 := 4096 * 3 + 7]>
    (<[slot (4096 * 3) 0 := 4096 * 4 + 7]> (<[slot (4096 * 4) 0 := 4096 * 5 + 5]> ∅))).
Definition sample_frames : BitmapMemoryManager := mkMM {[ 0 := 0x7e ]} 1 100.
Definition sample : pstate BitmapMemoryManager := mkPS (4096 * 1) sample_mem sample_frames.
Definition sample_va : Z := 0xffff800000000000.

Lemma sample_alloc_ok : alloc_ok sample_frames.
Proof.
  simpl. split; [|simpl; lia]. split; simpl; [|rewrite BitmapFacts.kFrameCount_val; lia].
  intros i. unfold arr_read. destruct (decide (i = 0)) as [->|].
  - rewrite lookup_singleton_eq. simpl. lia.
  - rewrite lookup_singleton_ne by done. simpl. lia.
Qed.

Lemma sample_present a : present (rd sample a) = true →
  a = 6144 ∨ a = 8192 ∨ a = 12288 ∨ a = 16384.
Proof.
  unfold rd, sample, sample_mem, slot. cbn [mem]. rewrite !arr_read_set, arr_read_empty.
  repeat case_decide; try lia. done.
Qed.

Lemma sample_tree : tree_from (λ f, f = 6) sample 4 (cr3 sample) 256.
Proof.
  change (cr3 sample) with 4096.
  repeat match goal with
  | |- tree_from _ _ O _ _ => exact I
  | |- tree_from ?D ?s ?l (Pointer ?e) ?i => let v := eval vm_compute in (Pointer e) in
      change (tree_from D s l v i)
  | |- tree_from _ _ (S _) _ _ => split; [reflexivity|split; [reflexivity|split; [discriminate|]]]
  | |- ∀ i, _ => intros i Hi Hp; pose proof (sample_present _ Hp) as Ha; unfold slot in Ha;
      first [assert (i = 256) as -> by lia | assert (i = 0) as -> by lia]; clear
  end.
Qed.

Lemma sample_state_ok : state_ok (λ f, f = 6) sample.
Proof. split; [exact sample_alloc_ok|]. by intros f ->. Qed.

(** C36 SetupPageMaps
    [SetupPageMaps] always returns.  When it succeeds, every page of the
    requested range, up to the end of the 48-bit space, can be accessed by user
    code (for writing too when [writable] is asked for).  Whether or not it
    succeeds, existing mappings keep their frames and permissions, new entries
    only lead to frames that were free, and no data frame is touched.  Only the
    root's entries from [start] on need be page tables: the kernel's lower half
    keeps its large pages. *)
Theorem SetupPageMaps_maps {A : Type} {FA : FrameAllocator A} {FL : FrameAllocatorLaws A}
  (D : Z → Prop) (w : bool) (s : pstate A) (start addr n : Z)
  (Hok : state_ok D s) (Htree : tree_from D s 4 (cr3 s) start) (Hstart : 0 ≤ start ≤ Part 4 addr)
  (Haddr : 0 ≤ addr) (Hn : 0 ≤ n) :
  ∃ err s', SetupPageMaps s addr n w = Done (err, s') ∧ ext D w s s' ∧
    (err = kSuccess ∨ err = kNoEnoughMemory) ∧
    (err = kSuccess → ∀ va, addr / 4096 ≤ va / 4096 < addr / 4096 + n →
       va / 2 ^ 48 = addr / 2 ^ 48 → accessible w s' 4 (cr3 s') va).
Proof.
  destruct (SetupPageMap_correct D w 4 ltac:(lia) s (cr3 s) start addr n Hok Htree Hstart Haddr Hn)
    as (r & s' & E & _ & Hext & Hr).
  exists (error r), s'. unfold SetupPageMaps. rewrite E. split; [done|]. split; [done|].
  destruct Hr as [(-> & _ & Hreach)|Her]; [|by rewrite Her; split; [right|]].
  split; [by left|]. intros _ va Hva Hhi. rewrite (ext_cr3 _ _ _ _ Hext).
  apply reach_accessible; [lia|]. apply Hreach; [done|].
  rewrite !Z.div_div by lia. exact Hhi.
Qed.

Lemma SetupPageMaps_maps_witness :
  ∃ err s', SetupPageMaps sample (sample_va + 4096 * 508) 10 true = Done (err, s') ∧ err = kSuccess ∧
    accessible true s' 4 (cr3 s') (sample_va + 4096 * 515).
Proof.
  destruct (SetupPageMaps_maps (λ f, f = 6) true sample 256 (sample_va + 4096 * 508) 10
    sample_state_ok sample_tree ltac:(vm_compute; split; discriminate) ltac:(vm_compute; discriminate) ltac:(lia)) as (err & s' & E & _ & _ & H).
  exists err, s'. split; [exact E|].
  assert (Herr : (match SetupPageMaps sample (sample_va + 4096 * 508) 10 true with
                  | Done (e, _) => bool_decide (e = kSuccess) | _ => false end) = true) by (vm_compute; reflexivity).
  rewrite E in Herr. apply bool_decide_eq_true in Herr. split; [exact Herr|].
  apply (H Herr); vm_compute; [split; [discriminate|reflexivity]|reflexivity].
Defined.

(** C6 CopyPageMaps
    [CopyPageMaps] into an empty part of a table always returns; when it
    succeeds every address from entry [start] on translates through the copy to
    the frame and permissions it has in the source, except that no page is
    writable.  Outside the destination table no word of a frame in use changes,
    so the source's own mappings are as before. *)
Theorem CopyPageMaps_read_only {A : Type} {FA : FrameAllocator A} {FL : FrameAllocatorLaws A}
  (level : nat) (start : Z) (s : pstate A) (dest src : Z)
  (Hlevel : (1 ≤ level ≤ 4)%nat) (Hstart : 0 ≤ start ≤ 512) (Hok : alloc_ok (frames s))
  (Hdest : dest mod 4096 = 0) (Hused : in_use (frames s) (dest / 4096) = true)
  (Htree : tree_from (λ f, f = dest / 4096) s level src start)
  (Hempty : ∀ i, start ≤ i < 512 → present (rd s (slot dest i)) = false) :
  ∃ err s', CopyPageMaps level start s dest src = Done (err, s') ∧
    (err = kSuccess ∨ err = kNoEnoughMemory) ∧
    (∀ a, in_use (frames s) (a / 4096) = true → a / 4096 ≠ dest / 4096 → rd s' a = rd s a) ∧
    (err = kSuccess → ∀ va, start ≤ Part level va →
       walk s' level dest va = (λ e, set_writable e false) <$> walk s level src va ∧
       walk s' level src va = walk s level src va).
Proof.
  destruct (CopyPageMaps_walk level start s dest src Hlevel Hstart) as (err & s' & E & _ & _ & Hm & Ha & Hr);
    [split_and!; done || lia|done|].
  exists err, s'. split; [done|]. split; [destruct Hr as [[-> _]| ->]; tauto|]. split; [by intros a; apply Ha|].
  intros ->. destruct Hr as [(_ & _ & _ & Hw)|?]; [|done]. intros va Hva. split; [by apply Hw|].
  destruct (walk_agree _ s s' level src start Hm Ha ltac:(lia) Htree ltac:(lia)) as [_ H]. by apply H.
Qed.

Lemma CopyPageMaps_read_only_witness :
  ∃ err s', CopyPageMaps 4 256 sample (4096 * 6) (cr3 sample) = Done (err, s') ∧
    (err = kSuccess → walk s' 4 (4096 * 6) sample_va = Some (4096 * 5 + 5) ∧
                      walk s' 4 (cr3 sample) sample_va = Some (4096 * 5 + 5)).
Proof.
  destruct (CopyPageMaps_read_only 4 256 sample (4096 * 6) (cr3 sample) ltac:(lia) ltac:(lia)
    sample_alloc_ok eq_refl eq_refl sample_tree) as (err & s' & E & _ & _ & H).
  { intros i Hi. destruct (present _) eqn:Hp; [|done]. apply sample_present in Hp. unfold slot in Hp. lia. }
  exists err, s'. split; [exact E|]. intros Herr. destruct (H Herr sample_va) as [-> ->]; [vm_compute; discriminate|].
  split; vm_compute; reflexivity.
Defined.

(** A write fault on a shared page gets a private copy: the page of [va] is
    mapped, writable, to a frame that was free and holds the words of the old
    page; all its other attributes stay; and no other word of a frame in use
    changes, the old page's included.  Without a free frame nothing changes. *)
Theorem CopyOnePage_private {A : Type} {FA : FrameAllocator A} {FL : FrameAllocatorLaws A}
  (s : pstate A) (start va e : Z)
  (Hok : alloc_ok (frames s)) (Htree : tree_from (λ _, False) s 4 (cr3 s) start)
  (Hva : 0 ≤ va < 2 ^ 64) (Hstart : start ≤ Part 4 va)
  (Hmapped : walk s 4 (cr3 s) va = Some e) (Hsmall : small_pages s 4 (cr3 s) va)
  (Hpath : NoDup (path_tables s 4 (cr3 s) va)) (Hpage : in_use (frames s) (Pointer e / 4096) = true) :
  ∃ err s', CopyOnePage s va = Done (err, s') ∧
    ((err = kSuccess ∧ ∃ f e',
        in_use (frames s) f = false ∧ in_use (frames s') f = true ∧
        walk s' 4 (cr3 s') va = Some e' ∧ Pointer e' = 4096 * f ∧ writable e' = true ∧
        (∀ b, 0 ≤ b < 12 → b ≠ 1 → bit e' b = bit e b) ∧
        (∀ i, 0 ≤ i < 512 → rd s' (slot (4096 * f) i) = rd s (slot (Pointer e) i)) ∧
        (∀ a, in_use (frames s) (a / 4096) = true → a ≠ leaf_slot s 4 (cr3 s) va → rd s' a = rd s a)) ∨
     (err = kNoEnoughMemory ∧ mem s' = mem s)).
Proof.
  destruct (CopyOnePage_spec s va e start Hok Htree Hstart Hva Hmapped Hsmall Hpath Hpage)
    as (err & s' & E & _ & _ & [(-> & f & Hu & Hu' & (e' & H1 & H2 & H3 & H4 & _) & Hc & Hm)|(He & Hr & _)]);
    exists err || exists kSuccess; exists s'; (split; [done|]); [left|by right].
  split; [done|]. exists f, e'. split; [done|]. split; [|done].
  specialize (Hu' f). rewrite Z.eqb_refl in Hu'. exact Hu'.
Qed.

Lemma CopyOnePage_private_witness :
  ∃ err s', CopyOnePage sample (sample_va + 8) = Done (err, s') ∧ err = kSuccess ∧
    walk s' 4 (cr3 s') (sample_va + 8) = Some (4096 * 7 + 7).
Proof.
  destruct (CopyOnePage_private sample 256 (sample_va + 8) (4096 * 5 + 5) sample_alloc_ok) as (err & s' & E & _).
  - eapply tree_antitone; [|exact sample_tree]. done.
  - vm_compute. split; [discriminate|reflexivity].
  - vm_compute. discriminate.
  - vm_compute. reflexivity.
  - repeat (intros _; split; [(right; vm_compute; reflexivity) || (left; reflexivity)|]). exact I.
  - apply (bool_decide_unpack _). vm_compute. exact I.
  - vm_compute. reflexivity.
  - assert (Hr : (match CopyOnePage sample (sample_va + 8) with
                  | Done (e, s') => bool_decide (e = kSuccess) &&
                      bool_decide (walk s' 4 (cr3 s') (sample_va + 8) = Some (4096 * 7 + 7))
                  | _ => false end) = true) by (vm_compute; reflexivity).
    rewrite E in Hr. apply andb_true_iff in Hr as [H1%bool_decide_eq_true H2%bool_decide_eq_true].
    exists err, s'. split; [exact E|]. split; assumption.
Defined.

(** [CleanPageMaps] on distinct tables (those below the root's entries from
    [start] on), from an address whose lower parts are zero, always succeeds: it clears the root's entries from [addr]'s
    on and no others, releases exactly the frames that writable entries below
    them point to (tables and private pages; frames shared read-only stay in
    use), and touches no word outside the tables. *)
Theorem CleanPageMaps_releases {A : Type} {FA : FrameAllocator A} {FL : FrameAllocatorLaws A}
  (s : pstate A) (start addr : Z)
  (Hok : alloc_ok (frames s)) (Hroot : cr3 s mod 4096 = 0) (Hstart : 0 ≤ start ≤ Part 4 addr)
  (Htables : NoDup (tables_from s 4 (cr3 s) start))
  (Hlower : Part 1 addr = 0 ∧ Part 2 addr = 0 ∧ Part 3 addr = 0)
  (Hframes : Forall (λ f, 0 ≤ f < kFrameCount) (owned s 4 (cr3 s) addr)) :
  ∃ s', CleanPageMaps s addr = Done (kSuccess, s') ∧
    (∀ f, in_use (frames s') f = true ↔ in_use (frames s) f = true ∧
       ¬ ∃ i, Part 4 addr ≤ i < 512 ∧ present (rd s (slot (cr3 s) i)) = true ∧
           ((∃ e, in_tree s 3 (Pointer (rd s (slot (cr3 s) i))) e ∧ holds e f) ∨
            holds (rd s (slot (cr3 s) i)) f)) ∧
    (∀ i, 0 ≤ i < 512 → rd s' (slot (cr3 s) i) =
       if (Part 4 addr <=? i) && present (rd s (slot (cr3 s) i)) then 0 else rd s (slot (cr3 s) i)) ∧
    (∀ a, a / 4096 ∉ tables_from s 4 (cr3 s) start → rd s' a = rd s a).
Proof.
  destruct (CleanPageMap_correct 4 addr ltac:(lia) s (cr3 s) start Hok Hroot Hstart Htables Hframes)
    as (s' & E & [_ _ Hu Hm] & Hz).
  exists s'. split; [done|]. split; [|done]. intros f.
  assert (Ho : f ∈ owned s 4 (cr3 s) addr ↔ ∃ i, Part 4 addr ≤ i < 512 ∧ present (rd s (slot (cr3 s) i)) = true ∧
           ((∃ e, in_tree s 3 (Pointer (rd s (slot (cr3 s) i))) e ∧ holds e f) ∨
            holds (rd s (slot (cr3 s) i)) f)).
  { rewrite elem_of_owned. setoid_rewrite elem_of_owned_all; [done|].
    destruct Hlower as (?&?&?). intros l' Hl'. by destruct l' as [|[|[|[|?]]]]; try lia. }
  rewrite <- Ho. specialize (Hu f). unfold used in Hu. rewrite Hu, andb_true_iff, negb_true_iff, bool_decide_eq_false.
  done.
Qed.

Lemma CleanPageMaps_releases_witness :
  ∃ s', CleanPageMaps sample sample_va = Done (kSuccess, s') ∧ rd s' (slot (cr3 sample) 256) = 0 ∧
    in_use (frames s') 5 = true.
Proof.
  destruct (CleanPageMaps_releases sample 256 sample_va sample_alloc_ok eq_refl) as (s' & E & _ & Hz & _).
  - vm_compute. split; discriminate.
  - apply (bool_decide_unpack _). vm_compute. exact I.
  - split_and!; vm_compute; reflexivity.
  - apply (bool_decide_unpack _). vm_compute. exact I.
  - exists s'. split; [exact E|]. split; [rewrite Hz by lia; vm_compute; reflexivity|].
    assert (Hr : (match CleanPageMaps sample sample_va with
                  | Done (_, s') => bitmap_in_use (frames s') 5 | _ => false end) = true) by (vm_compute; reflexivity).
    rewrite E in Hr. exact Hr.
Defined.

(** After [SetupIdentityPageTable] the processor translates every address below
    64 GiB to itself and no other address of the first 512 GiB, whatever memory
    held before (the three static arrays are page-aligned and apart, and
    [pdp_table] starts out zero).  Frames of the allocator above 64 GiB are
    therefore out of the kernel's reach. *)
Theorem SetupIdentityPageTable_identity {A : Type} (s : pstate A) (pm pp pd va : Z)
  (Hpp : 0 ≤ pp < 2 ^ 40) (Hpd : 0 ≤ pd < 2 ^ 40 - 64)
  (Hapart : pm ≠ pp ∧ (pm < pd ∨ pd + 64 ≤ pm) ∧ (pp < pd ∨ pd + 64 ≤ pp))
  (Hzero : ∀ i, 0 ≤ i < 512 → rd s (slot (4096 * pp) i) = 0) (Hva : 0 ≤ va < 2 ^ 39) :
  translate (mem (SetupIdentityPageTable (4096 * pm) (4096 * pp) (4096 * pd) s)) 4 (4096 * pm) va =
    if va <? 64 * 2 ^ 30 then Some va else None.
Proof.
  by rewrite (identity_translate pm pp pd Hpp Hpd Hapart s _ va Hva Hzero eq_refl).
Qed.

Lemma SetupIdentityPageTable_identity_witness :
  translate (mem (SetupIdentityPageTable (4096 * 100) (4096 * 101) (4096 * 102)
    (mkPS 0 ∅ sample_frames))) 4 (4096 * 100) 0xfee00020 = Some 0xfee00020.
Proof.
  rewrite (SetupIdentityPageTable_identity (mkPS 0 ∅ sample_frames) 100 101 102 0xfee00020); [reflexivity|lia..| |lia].
  intros i _. reflexivity.
Defined.

Lemma testbit_flag z i : 0 ≤ i → negb (Z.land (Z.shiftr z i) 1 =? 0) = Z.testbit z i.
Proof.
  intros Hi. change 1 with (2 ^ 0). rewrite BitmapFacts.land_pow2_zero, negb_involutive, Z.shiftr_spec by lia.
  f_equal.
Qed.

Lemma FindFileMapping_spec maps va :
  match FindFileMapping maps va with
  | Some m => m ∈ maps ∧ vaddr_begin m ≤ va < vaddr_end m
  | None => ∀ m, m ∈ maps → ¬ vaddr_begin m ≤ va < vaddr_end m
  end.
Proof.
  induction maps as [|m maps IH]; cbn [FindFileMapping]; [by intros m ?%not_elem_of_nil|].
  destruct (Z.leb_spec (vaddr_begin m) va), (Z.ltb_spec va (vaddr_end m)); cbn [andb];
    try (split; [apply list_elem_of_here|lia]);
    (destruct (FindFileMapping maps va) as [m'|]; [destruct IH; split; [by apply list_elem_of_further|done]|];
     intros m' [->|?]%elem_of_cons; [lia|by apply IH]).
Qed.

(** The page a fault handler sets up for [va] can be used by the user. *)
Lemma SetupPageMaps_page {A : Type} {FA : FrameAllocator A} {FL : FrameAllocatorLaws A}
  (D : Z → Prop) (s : pstate A) (start addr va : Z) :
  state_ok D s → tree_from D s 4 (cr3 s) start → 0 ≤ start ≤ Part 4 va → 0 ≤ addr → addr / 4096 = va / 4096 →
  ∃ err s', SetupPageMaps s addr 1 true = Done (err, s') ∧ ext D true s s' ∧
    (err = kSuccess → accessible true s' 4 (cr3 s') va).
Proof.
  intros Hok Ht Hst Ha Hva.
  assert (Hp : Part 4 addr = Part 4 va).
  { rewrite !Part_div by lia. by rewrite Hva. }
  destruct (SetupPageMap_correct D true 4 ltac:(lia) s (cr3 s) start addr 1 Hok Ht ltac:(by rewrite Hp) Ha ltac:(lia))
    as (r & s' & E & _ & Hext & Hr).
  exists (error r), s'. unfold SetupPageMaps. rewrite E. split; [done|]. split; [done|].
  intros Her. destruct Hr as [(_ & _ & Hreach)|Hr]; [|congruence]. rewrite (ext_cr3 _ _ _ _ Hext).
  apply reach_accessible; [lia|]. apply Hreach; [lia|]. by rewrite Hva.
Qed.

Lemma SetPart_offset va : 0 ≤ va → SetPart 0 0 va = va / 4096 * 4096.
Proof.
  intros Hva. unfold SetPart. rewrite set_field_arith, field_div by lia.
  change (2 ^ 12) with 4096. change (2 ^ 0) with 1. change (wrap 12 0) with 0. rewrite Z.div_1_r. dlia.
Qed.

(** C29 HandlePageFault
    The page fault handler's decisions.  A protection fault that is not a user's
    write is refused ([kAlreadyAllocated]).  A missing page of the demand-paging
    range is mapped: on success the faulting address is accessible.  Otherwise a
    missing page of the first file mapping that covers the address is mapped and
    then filled by [Load] with the file's bytes at that page's offset; an address
    that belongs to neither is refused ([kIndexOutOfRange]) and nothing changes. *)
Theorem HandlePageFault_cases {A FD : Type} {FA : FrameAllocator A} {FL : FrameAllocatorLaws A}
  (Load : FD → Z → Z → Z → pstate A → outcome (Z * pstate A)) (D : Z → Prop) (s : pstate A)
  (dpaging_begin dpaging_end : Z) (maps : list FileMapping) (files : list (option FD)) (start code va : Z)
  (Hok : state_ok D s) (Htree : tree_from D s 4 (cr3 s) start)
  (Hva : 0 ≤ va < 2 ^ 64) (Hstart : 0 ≤ start ≤ Part 4 va) :
  let fault := HandlePageFault Load s dpaging_begin dpaging_end maps files code va in
  if Z.testbit code 0 then
    if Z.testbit code 1 && Z.testbit code 2 then fault = CopyOnePage s va
    else fault = Done (kAlreadyAllocated, s)
  else if decide (dpaging_begin ≤ va < dpaging_end) then
    ∃ err s', fault = Done (err, s') ∧ ext D true s s' ∧
      (err = kSuccess → accessible true s' 4 (cr3 s') va)
  else
    match FindFileMapping maps va with
    | None => fault = Done (kIndexOutOfRange, s) ∧ ∀ m, m ∈ maps → ¬ vaddr_begin m ≤ va < vaddr_end m
    | Some m =>
        m ∈ maps ∧ vaddr_begin m ≤ va < vaddr_end m ∧
        ∀ d, 0 ≤ fd m → files !! Z.to_nat (fd m) = Some (Some d) →
          ∃ err s1, ext D true s s1 ∧
            (err ≠ kSuccess → fault = Done (err, s1)) ∧
            (err = kSuccess → accessible true s1 4 (cr3 s1) va ∧
               ∀ n s2, Load d (va / 4096 * 4096) 4096 (swrap 64 (va / 4096 * 4096 - vaddr_begin m)) s1 =
                   Done (n, s2) → fault = Done (kSuccess, s2))
    end.
Proof.
  intros fault. unfold fault, HandlePageFault. rewrite !testbit_flag by lia.
  destruct (Z.testbit code 0); [destruct (Z.testbit code 1), (Z.testbit code 2); done|]. cbn [andb].
  destruct (Z.leb_spec dpaging_begin va), (Z.ltb_spec va dpaging_end); cbn [andb]; case_decide as Hd; try lia;
    try (by apply (SetupPageMaps_page D s start va va); [..|lia|]);
    pose proof (FindFileMapping_spec maps va) as Hm; (destruct (FindFileMapping maps va) as [m|]; [|done]);
    destruct Hm as [Hin Hm]; (split; [done|]); (split; [done|]); intros d Hfd Hd';
    (destruct (Z.ltb_spec (fd m) 0); [lia|]); rewrite Hd'; cbn [of_option mbind outcome_bind]; unfold PreparePageCache;
    rewrite SetPart_offset by lia;
    (destruct (SetupPageMaps_page D s start (va / 4096 * 4096) va) as (err & s1 & -> & He & Ha); [done|done|done|dlia|dlia|]);
    exists err, s1; (split; [done|]); cbn [mbind outcome_bind]; split;
    try (intros Hne; destruct err; done); intros ->; (split; [by apply Ha|]); intros n s2 HL;
    cbn; by rewrite HL.
Qed.

Lemma HandlePageFault_cases_witness :
  ∃ s', HandlePageFault (λ _ _ _ _ s, Done (0, s)) sample 0x1000 0x9000 [mkFM 0 0xffff900000000000 0xffff900000002000]
          [Some tt] 6 0xffff900000001234 = Done (kSuccess, s').
Proof.
  pose proof (HandlePageFault_cases (λ _ _ _ _ s, Done (0, s)) (λ f, f = 6) sample 0x1000 0x9000
    [mkFM 0 0xffff900000000000 0xffff900000002000] [Some tt] 256 6 0xffff900000001234
    sample_state_ok sample_tree ltac:(lia) ltac:(vm_compute; split; discriminate)) as H.
  cbv zeta in H. change (Z.testbit 6 0) with false in H. cbv iota in H.
  rewrite decide_False in H by lia.
  change (FindFileMapping [mkFM 0 0xffff900000000000 0xffff900000002000] 0xffff900000001234)
    with (Some (mkFM 0 0xffff900000000000 0xffff900000002000)) in H. cbv iota in H.
  destruct H as (_ & _ & H). destruct (H tt ltac:(simpl; lia) eq_refl) as (err & s1 & _ & Hf & Hs).
  destruct (decide (err = kSuccess)) as [->|Hne].
  - destruct (Hs eq_refl) as [_ Hl]. exists s1. exact (Hl 0 s1 eq_refl).
  - exfalso. specialize (Hf Hne).
    assert (Hr : (match HandlePageFault (λ _ _ _ _ s, Done (0, s)) sample 0x1000 0x9000
                    [mkFM 0 0xffff900000000000 0xffff900000002000] [Some tt] 6 0xffff900000001234 with
                  | Done (e, _) => bool_decide (e = kSuccess) | _ => false end) = true) by (vm_compute; reflexivity).
    rewrite Hf in Hr. apply bool_decide_eq_true in Hr. exact (Hne Hr).
Defined.
