(* ===== verification/AddressSpace.v ===== *)
(** The upper half of an address space as an invariant: which frames its page
    tables and pages occupy, at which level and for which addresses, and which
    pages it shares.  It has no source of its own: the functions of Paging.v keep
    it, and the loader and the life of a program are described by it. *)
From S2P Require Import Prelude ErrorCode MemoryManager FrameAllocator Paging.
Import EntryFacts SetupFacts CopyFacts FaultFacts.

(** A table of level [l] for the pages [v] with [v / 512 ^ l = q] is recorded as
    [(l, q)], a page as [(0, v)]. *)
Abbreviation ghost := (gmap Z (nat * Z)).

(** The prefix of the canonical addresses of the upper half. *)
Definition upper_prefix : Z := 0xffff.

(** The canonical addresses of the upper half. *)
Definition upper (va : Z) : Prop := 0xffff800000000000 ≤ va < 2 ^ 64.

Module SpaceFacts.

(** The first entry of a table that belongs to the application: the kernel owns
    the lower half of the root. *)
Definition lowest (level : nat) : Z := if decide (level = 4%nat) then 256 else 0.

(** Entry [i] of the frame [f], a table of level [S l] with the prefix [q]. *)
Definition own_entry (lev : ghost) (f : Z) (l : nat) (q i : Z) : Prop :=
  lev !! f = Some (S l, q) ∧ lowest (S l) ≤ i < 512.

Definition own_slot (lev : ghost) (a : Z) : Prop := ∃ f l q i, own_entry lev f l q i ∧ a = slot (4096 * f) i.

Lemma own_entry_bound lev f l q i : own_entry lev f l q i → 0 ≤ i < 512.
Proof. intros [_ Hi]. unfold lowest in Hi. case_decide; lia. Qed.

Lemma own_entry_sub lev lev' f l q i : lev ⊆ lev' → own_entry lev f l q i → own_entry lev' f l q i.
Proof. intros Hs [Hf Hi]. split; [by eapply lookup_weaken|done]. Qed.

Lemma slot_frame_inj f i f' i' : 0 ≤ i < 512 → 0 ≤ i' < 512 → slot (4096 * f) i = slot (4096 * f') i' → f = f' ∧ i = i'.
Proof. unfold slot. intros. lia. Qed.

Lemma upper_high va : upper va → va / 4096 / 512 ^ 4 = upper_prefix.
Proof.
  unfold upper, upper_prefix. intros H. rewrite Z.div_div by lia. symmetry.
  apply (Z.div_unique _ _ _ (va - 0xffff * 2 ^ 48)); [left; lia|lia].
Qed.

Lemma upper_part va l : upper va → (1 ≤ l ≤ 4)%nat → lowest l ≤ Part l va < 512.
Proof.
  unfold upper, lowest. intros Hva Hl. pose proof (Part_bound l va Hl). case_decide; [subst l|lia].
  split; [|lia]. rewrite Part_div by lia. change (512 ^ (Z.of_nat 4 - 1)) with 134217728. dlia.
Qed.

(** The prefix one level down. *)
Lemma prefix_down v l : v / 512 ^ Z.of_nat l = 512 * (v / 512 ^ Z.of_nat (S l)) + v / 512 ^ Z.of_nat l mod 512.
Proof.
  rewrite Nat2Z.inj_succ, Z.pow_succ_r, (Z.mul_comm 512 (512 ^ _)) by lia. rewrite <- Z.div_div by lia.
  apply Z.div_mod. lia.
Qed.

Lemma Part_prefix l va : (l < 4)%nat → Part (S l) va = va / 4096 / 512 ^ Z.of_nat l mod 512.
Proof. intros Hl. rewrite Part_div by lia. by replace (Z.of_nat (S l) - 1) with (Z.of_nat l) by lia. Qed.

Lemma part_down l va : (l < 4)%nat →
  512 * (va / 4096 / 512 ^ Z.of_nat (S l)) + Part (S l) va = va / 4096 / 512 ^ Z.of_nat l.
Proof. intros Hl. rewrite Part_prefix by done. symmetry. apply prefix_down. Qed.

Section space.
Context {A : Type} `{FA : FrameAllocator A} {FL : FrameAllocatorLaws A}.
Implicit Types (s : pstate A) (lev : ghost).

Definition entry s (f i : Z) : Z := rd s (slot (4096 * f) i).

(** The entry leads to the frame [g]. *)
Definition leads s (f i g : Z) : Prop := present (entry s f i) = true ∧ Pointer (entry s f i) = 4096 * g.

Lemma leads_target s f i g : leads s f i g → Pointer (entry s f i) / 4096 = g.
Proof. intros [_ ->]. dlia. Qed.

(** The space grows: new frames were free, and no word of a used frame changes but
    entries of the space. *)
Record grown s lev s' lev' : Prop := {
  gr_sub : lev ⊆ lev';
  gr_cr3 : cr3 s' = cr3 s;
  gr_used : ∀ f, used s' f = true ↔ used s f = true ∨ is_Some (lev' !! f);
  gr_new : ∀ f x, lev' !! f = Some x → lev !! f = None → used s f = false;
  gr_frame : ∀ a, used s (a / 4096) = true → ¬ own_slot lev a → rd s' a = rd s a;
}.

(** Entries keep their targets. *)
Definition keeps s lev s' : Prop := ∀ f l q i, own_entry lev f l q i → present (entry s f i) = true →
  present (entry s' f i) = true ∧ Pointer (entry s' f i) = Pointer (entry s f i).

Lemma space_keeps_trans s1 l1 s2 l2 s3 : l1 ⊆ l2 → keeps s1 l1 s2 → keeps s2 l2 s3 → keeps s1 l1 s3.
Proof.
  intros Hsub K1 K2 f l q i Ho Hp. destruct (K1 f l q i Ho Hp) as [Hp2 Hq2].
  destruct (K2 f l q i) as [Hp3 Hq3]; [by eapply own_entry_sub|done|]. split; [done|congruence].
Qed.

Lemma gr_mono s lev s' lev' : grown s lev s' lev' → mono s s'.
Proof. intros G f Hf. apply (gr_used _ _ _ _ G). by left. Qed.

(** A frame that was in use is at its place in the old map already. *)
Lemma grown_old s lev s' lev' f x : grown s lev s' lev' → lev' !! f = Some x → used s f = true → lev !! f = Some x.
Proof.
  intros G Hx Hu. destruct (lev !! f) as [y|] eqn:E.
  - rewrite (lookup_weaken _ _ _ _ E (gr_sub _ _ _ _ G)) in Hx. done.
  - rewrite (gr_new _ _ _ _ G f x Hx E) in Hu. done.
Qed.

Lemma grown_trans s1 l1 s2 l2 s3 l3 : grown s1 l1 s2 l2 → grown s2 l2 s3 l3 → grown s1 l1 s3 l3.
Proof.
  intros G1 G2. split.
  - etransitivity; [apply G1|apply G2].
  - by rewrite (gr_cr3 _ _ _ _ G2), (gr_cr3 _ _ _ _ G1).
  - intros f. rewrite (gr_used _ _ _ _ G2), (gr_used _ _ _ _ G1). split; [|tauto].
    intros [[?|[x Hx]]|?]; [tauto| |tauto]. right. exists x. by eapply lookup_weaken; [|apply G2].
  - intros f x Hx Hn. destruct (l2 !! f) as [y|] eqn:E; [by eapply (gr_new _ _ _ _ G1)|].
    pose proof (gr_new _ _ _ _ G2 f x Hx E) as Hu. destruct (used s1 f) eqn:Hu1; [|done].
    apply (gr_mono _ _ _ _ G1) in Hu1. congruence.
  - intros a Hu Hns. rewrite (gr_frame _ _ _ _ G2); [by apply G1|by apply (gr_mono _ _ _ _ G1)|].
    intros (f & l & q & i & Ho & ->). apply Hns. exists f, l, q, i. split; [|done].
    pose proof (own_entry_bound _ _ _ _ _ Ho) as Hi. rewrite slot_page in Hu by done.
    destruct Ho as [Hl Hi']. split; [by eapply grown_old|done].
Qed.

Section invariant.
(** Whether the space belongs to a task, whose private pages are writable, and the
    frames that it may share, read-only. *)
Variables (task : bool) (Sh : Z → Prop).
#[local] Set Default Proof Using "All".

Record space s (root : Z) lev : Prop := {
  sp_alloc : alloc_ok (frames s);
  sp_root : root mod 4096 = 0 ∧ lev !! (root / 4096) = Some (4%nat, upper_prefix);
  sp_used : ∀ f x, lev !! f = Some x → used s f = true;
  sp_shared : ∀ f, Sh f → used s f = true ∧ lev !! f = None;
  sp_inj : ∀ f f' x, lev !! f = Some x → lev !! f' = Some x → f = f';
  sp_up : ∀ g l r, lev !! g = Some (l, r) →
    (l = 4%nat ∧ g = root / 4096) ∨
    ((l < 4)%nat ∧ ∃ f, own_entry lev f l (r / 512) (r mod 512) ∧ leads s f (r mod 512) g);
  sp_down : ∀ f l q i, own_entry lev f l q i → present (entry s f i) = true →
    (lev !! (Pointer (entry s f i) / 4096) = Some (l, 512 * q + i) ∧
     (l ≠ 0%nat ∨ task = true → writable (entry s f i) = true)) ∨
    (l = 0%nat ∧ task = true ∧ Sh (Pointer (entry s f i) / 4096) ∧ writable (entry s f i) = false);
  sp_small : ∀ f l q i, own_entry lev f l q i → l ≠ 0%nat → huge_page (entry s f i) = false;
}.

Lemma grown_refl s root lev : space s root lev → grown s lev s lev.
Proof.
  intros Hsp. split; [done|done| |intros f x H1 H2; congruence|done].
  intros f. split; [tauto|]. intros [?|[x Hx]]; [done|]. by eapply sp_used.
Qed.

(** The words of the tables decide. *)
Lemma space_agree s s' root lev : alloc_ok (frames s') → mono s s' →
  (∀ f l q a, lev !! f = Some (S l, q) → a / 4096 = f → rd s' a = rd s a) →
  space s root lev → space s' root lev.
Proof.
  intros Hok Hm Ha Hsp.
  assert (He : ∀ f l q i, own_entry lev f l q i → entry s' f i = entry s f i).
  { intros f l q i Ho. apply (Ha f l q); [apply Ho|apply slot_page; by eapply own_entry_bound]. }
  split.
  - done.
  - apply Hsp.
  - intros f x Hx. by eapply Hm, sp_used.
  - intros f Hf. destruct (sp_shared _ _ _ Hsp f Hf). split; [by apply Hm|done].
  - apply Hsp.
  - intros g l r Hg. destruct (sp_up _ _ _ Hsp g l r Hg) as [?|(Hl & f & Ho & Hp)]; [by left|right].
    split; [done|]. exists f. split; [done|]. unfold leads. by rewrite (He f l _ _ Ho).
  - intros f l q i Ho. rewrite (He f l q i Ho). by apply Hsp.
  - intros f l q i Ho. rewrite (He f l q i Ho). by apply (sp_small _ _ _ Hsp f l q).
Qed.

(** An entry whose target is one of the space's own frames. *)
Definition own_target s lev (f : Z) (l : nat) (q i : Z) : Prop :=
  present (entry s f i) = true ∧ lev !! (Pointer (entry s f i) / 4096) = Some (l, 512 * q + i).

Lemma up_target s root lev g l r : space s root lev → lev !! g = Some (l, r) → (l < 4)%nat →
  ∃ f, own_entry lev f l (r / 512) (r mod 512) ∧ leads s f (r mod 512) g ∧ own_target s lev f l (r / 512) (r mod 512).
Proof.
  intros Hsp Hg Hl. destruct (sp_up _ _ _ Hsp g l r Hg) as [[? _]|(_ & f & Ho & Hle)]; [lia|].
  exists f. split; [done|]. split; [done|]. split; [apply Hle|]. rewrite (leads_target _ _ _ _ Hle), Hg. do 2 f_equal. dlia.
Qed.

(** An entry that leads into the space is the only one with its prefix. *)
Lemma target_free s root lev f l q i : space s root lev → own_entry lev f l q i → ¬ own_target s lev f l q i →
  ∀ g, lev !! g ≠ Some (l, 512 * q + i).
Proof.
  intros Hsp Ho Hn g Hg. pose proof (own_entry_bound _ _ _ _ _ Ho) as Hi.
  assert (Hl : (l < 4)%nat).
  { destruct Ho as [Hf _]. destruct (sp_up _ _ _ Hsp f _ _ Hf) as [[Hl _]|[Hl _]]; lia. }
  destruct (up_target s root lev g l _ Hsp Hg Hl) as (h & Ho' & _ & Ht).
  replace ((512 * q + i) / 512) with q in * by dlia. replace ((512 * q + i) mod 512) with i in * by dlia.
  assert (h = f) as -> by (eapply (sp_inj _ _ _ Hsp); [apply Ho'|apply Ho]). done.
Qed.

(** Flags of one entry that leads into the space change, its target does not. *)
Lemma flags_grown s root lev f l q i s' e : space s root lev → own_entry lev f l q i → own_target s lev f l q i →
  cr3 s' = cr3 s → frames s' = frames s →
  (∀ a, rd s' a = if decide (slot (4096 * f) i = a) then e else rd s a) →
  present e = true → Pointer e = Pointer (entry s f i) → huge_page e = huge_page (entry s f i) →
  (l ≠ 0%nat ∨ task = true → writable e = true) →
  space s' root lev ∧ grown s lev s' lev ∧ keeps s lev s'.
Proof.
  intros Hsp Ho [Hp Ht] Hcr Hfr Hrd Hpe Hqe Hhe Hwe. pose proof (own_entry_bound _ _ _ _ _ Ho) as Hi.
  assert (Hus : ∀ g, used s' g = used s g) by (intros; unfold used; by rewrite Hfr).
  assert (He : ∀ h l' q' j, own_entry lev h l' q' j →
    entry s' h j = if decide (f = h ∧ i = j) then e else entry s h j).
  { intros h l' q' j Hoj. pose proof (own_entry_bound _ _ _ _ _ Hoj) as Hj. unfold entry. rewrite Hrd.
    destruct (decide (f = h ∧ i = j)) as [[-> ->]|Hne]; [by rewrite decide_True|].
    rewrite decide_False by (intros Heq; apply Hne; by apply slot_frame_inj). done. }
  assert (Hkeep : ∀ h l' q' j, own_entry lev h l' q' j → present (entry s' h j) = present (entry s h j) ∧
    Pointer (entry s' h j) = Pointer (entry s h j) ∧ huge_page (entry s' h j) = huge_page (entry s h j)).
  { intros h l' q' j Hoj. rewrite (He _ _ _ _ Hoj). case_decide as Hd; [|done]. destruct Hd as [<- <-]. split_and!; congruence. }
  split; [|split]; [split| |].
  - rewrite Hfr. apply Hsp.
  - apply Hsp.
  - intros h x Hx. rewrite Hus. by eapply sp_used.
  - intros h Hh. rewrite Hus. by apply Hsp.
  - apply Hsp.
  - intros g l' r Hg. destruct (sp_up _ _ _ Hsp g l' r Hg) as [?|(Hl & h & Hoh & Hle)]; [by left|right].
    split; [done|]. exists h. split; [done|]. unfold leads. destruct (Hkeep _ _ _ _ Hoh) as (-> & -> & _). done.
  - intros h l' q' j Hoj. destruct (Hkeep _ _ _ _ Hoj) as (-> & -> & _). intros Hpj.
    pose proof (sp_down _ _ _ Hsp h l' q' j Hoj Hpj) as Hd. rewrite (He _ _ _ _ Hoj). case_decide as Heq; [|done].
    destruct Heq as [<- <-]. destruct Ho as [Ho Hr], Hoj as [Hoj Hrj]. rewrite Ho in Hoj. injection Hoj as <- <-. left. done.
  - intros h l' q' j Hoj Hl'. destruct (Hkeep _ _ _ _ Hoj) as (_ & _ & ->). by apply (sp_small _ _ _ Hsp h l' q').
  - split; [done|done| |intros g x H1 H2; congruence|].
    + intros g. rewrite Hus. split; [tauto|]. intros [?|[x Hx]]; [done|]. by eapply sp_used.
    + intros a _ Hns. rewrite Hrd, decide_False; [done|]. intros <-. apply Hns. by exists f, l, q, i.
  - intros h l' q' j Hoj. by destruct (Hkeep _ _ _ _ Hoj) as (-> & -> & _).
Qed.

(** A fresh frame [g] linked into an entry that does not lead into the space. *)
Lemma link_grown s root lev f l q i g s2 e : space s root lev → own_entry lev f l q i → ¬ own_target s lev f l q i →
  used s g = false → 0 ≤ g → alloc_ok (frames s2) → cr3 s2 = cr3 s → (∀ h, used s2 h = (h =? g) || used s h) →
  leads s2 f i g → entry s2 f i = e → (l ≠ 0%nat → huge_page e = false) → (l ≠ 0%nat ∨ task = true → writable e = true) →
  (∀ a, used s (a / 4096) = true → a ≠ slot (4096 * f) i → rd s2 a = rd s a) →
  (l ≠ 0%nat → ∀ j, 0 ≤ j < 512 → entry s2 g j = 0) →
  space s2 root (<[g := (l, 512 * q + i)]> lev) ∧ grown s lev s2 (<[g := (l, 512 * q + i)]> lev).
Proof.
  intros Hsp Ho Hnt Hgu Hg0 Hok Hcr Hus Hle He Hhe Hwe Hrd Hz. pose proof (own_entry_bound _ _ _ _ _ Ho) as Hi.
  assert (Hgn : lev !! g = None).
  { destruct (lev !! g) as [x|] eqn:E; [|done]. apply (sp_used _ _ _ Hsp) in E. congruence. }
  assert (Hfg : f ≠ g) by (intros ->; destruct Ho; congruence).
  assert (Hl : (l < 4)%nat).
  { destruct Ho as [Hf _]. destruct (sp_up _ _ _ Hsp f _ _ Hf) as [[Hl _]|[Hl _]]; lia. }
  assert (Hold : ∀ h l' q' j, own_entry lev h l' q' j →
    entry s2 h j = if decide (f = h ∧ i = j) then e else entry s h j).
  { intros h l' q' j Hoj. pose proof (own_entry_bound _ _ _ _ _ Hoj) as Hj.
    destruct (decide (f = h ∧ i = j)) as [[-> ->]|Hne]; [done|]. unfold entry. apply Hrd.
    - rewrite slot_page by done. destruct Hoj as [Hoj _]. by eapply sp_used.
    - intros Heq%slot_frame_inj; [|done|done]. apply Hne. destruct Heq; done. }
  assert (Hcase : ∀ h l' q' j, own_entry (<[g:=(l, 512 * q + i)]> lev) h l' q' j →
    entry s2 h j = 0 ∨ own_entry lev h l' q' j ∧ h ≠ g).
  { intros h l' q' j Hoj. pose proof (own_entry_bound _ _ _ _ _ Hoj) as Hj. destruct Hoj as [Hh Hj'].
    destruct (decide (h = g)) as [->|Hne]; [left|right].
    - rewrite lookup_insert_eq in Hh. injection Hh as -> _. by apply Hz.
    - rewrite lookup_insert_ne in Hh by done. done. }
  assert (Hz0 : present 0 = false ∧ huge_page 0 = false) by done.
  pose proof (target_free _ _ _ _ _ _ _ Hsp Ho Hnt) as Hfree.
  split; split.
  - done.
  - destruct (sp_root _ _ _ Hsp) as [H1 H2]. split; [done|]. rewrite lookup_insert_ne by congruence. done.
  - intros h x Hx. rewrite Hus. apply lookup_insert_Some in Hx as [[<- _]|[_ Hx]]; [by rewrite Z.eqb_refl|].
    rewrite (sp_used _ _ _ Hsp _ _ Hx). apply orb_true_r.
  - intros h Hh. destruct (sp_shared _ _ _ Hsp h Hh) as [Hu Hn]. rewrite Hus, Hu, orb_true_r.
    split; [done|]. rewrite lookup_insert_ne by congruence. done.
  - intros h h' x Hx Hx'. apply lookup_insert_Some in Hx as [[<- <-]|[Hne Hx]], Hx' as [[<- Hx']|[Hne' Hx']];
      [done|by destruct (Hfree h')|subst x; by destruct (Hfree h)|by apply (sp_inj _ _ _ Hsp h h' x)].
  - intros h l' r Hh. apply lookup_insert_Some in Hh as [[<- [= <- <-]]|[Hne Hh]].
    + right. split; [done|]. exists f. replace ((512 * q + i) / 512) with q by dlia. replace ((512 * q + i) mod 512) with i by dlia.
      split; [|done]. destruct Ho as [Hf Hr]. split; [by rewrite lookup_insert_ne by done|done].
    + destruct (sp_up _ _ _ Hsp h l' r Hh) as [?|(Hl' & p & Hop & Hlp)]; [by left|right]. split; [done|]. exists p.
      split; [destruct Hop as [Hp Hr]; split; [rewrite lookup_insert_ne; [done|congruence]|done]|].
      unfold leads. rewrite (Hold _ _ _ _ Hop), decide_False; [done|]. intros [<- ->]. apply Hnt.
      destruct Ho as [Hf Hr], Hop as [Hp Hr']. rewrite Hf in Hp. injection Hp as <- ->.
      split; [apply Hlp|]. rewrite (leads_target _ _ _ _ Hlp), Hh. do 2 f_equal. dlia.
  - intros h l' q' j [Hj0|[Hoj Hne]]%Hcase; [by rewrite Hj0|]. rewrite (Hold _ _ _ _ Hoj). case_decide as Hd.
    + destruct Hd as [<- <-]. intros _. left. destruct Hle as [_ Hq]. rewrite He in Hq. rewrite Hq.
      replace (4096 * g / 4096) with g by dlia. rewrite lookup_insert_eq.
      destruct Ho as [Hf _], Hoj as [Hf' _]. rewrite Hf in Hf'. injection Hf' as <- <-. done.
    + intros Hp. destruct (sp_down _ _ _ Hsp h l' q' j Hoj Hp) as [[Hd1 Hd2]|Hd1]; [left|by right].
      split; [|done]. rewrite lookup_insert_ne by congruence. done.
  - intros h l' q' j [Hj0|[Hoj Hne]]%Hcase Hl'; [by rewrite Hj0|]. rewrite (Hold _ _ _ _ Hoj). case_decide as Hd.
    + destruct Hd as [<- <-]. apply Hhe. destruct Ho as [Hf _], Hoj as [Hf' _]. congruence.
    + by apply (sp_small _ _ _ Hsp h l' q').
  - by apply insert_subseteq.
  - done.
  - intros h. rewrite Hus, orb_true_iff, Z.eqb_eq. split.
    + intros [->|?]; [right; rewrite lookup_insert_eq; by eexists|by left].
    + intros [?|[x Hx]]; [by right|]. apply lookup_insert_Some in Hx as [[<- _]|[_ Hx]]; [by left|].
      right. by eapply sp_used.
  - intros h x Hh Hn. apply lookup_insert_Some in Hh as [[<- _]|[_ Hh]]; congruence.
  - intros a Hu Hns. apply Hrd; [done|]. intros ->. apply Hns. by exists f, l, q, i.
Qed.

(** A shared page, read-only, in an entry that does not lead into the space. *)
Lemma share_grown s root lev f q i s2 : space s root lev → own_entry lev f 0 q i → ¬ own_target s lev f 0 q i →
  task = true → cr3 s2 = cr3 s → frames s2 = frames s → Sh (Pointer (entry s2 f i) / 4096) → writable (entry s2 f i) = false →
  (∀ a, a ≠ slot (4096 * f) i → rd s2 a = rd s a) →
  space s2 root lev ∧ grown s lev s2 lev.
Proof.
  intros Hsp Ho Hnt Htask Hcr Hfr Hsh Hro Hrd. pose proof (own_entry_bound _ _ _ _ _ Ho) as Hi.
  assert (Hus : ∀ g, used s2 g = used s g) by (intros; unfold used; by rewrite Hfr).
  assert (Hold : ∀ h l' q' j, own_entry lev h l' q' j → ¬ (f = h ∧ i = j) → entry s2 h j = entry s h j).
  { intros h l' q' j Hoj Hne. pose proof (own_entry_bound _ _ _ _ _ Hoj) as Hj. unfold entry. apply Hrd.
    intros Heq%slot_frame_inj; [|done|done]. apply Hne. destruct Heq; done. }
  assert (Hsame : ∀ l' q', own_entry lev f l' q' i → l' = 0%nat ∧ q' = q).
  { intros l' q' [Hf _]. destruct Ho as [Hf' _]. rewrite Hf in Hf'. by injection Hf'. }
  split; split.
  - rewrite Hfr. apply Hsp.
  - apply Hsp.
  - intros h x Hx. rewrite Hus. by eapply sp_used.
  - intros h Hh. rewrite Hus. by apply Hsp.
  - apply Hsp.
  - intros g l' r Hg. destruct (sp_up _ _ _ Hsp g l' r Hg) as [?|(Hl & h & Hoh & Hle)]; [by left|right].
    split; [done|]. exists h. split; [done|]. unfold leads. rewrite (Hold _ _ _ _ Hoh); [done|]. intros [<- ->].
    apply Hnt. destruct (Hsame _ _ Hoh) as [-> <-]. split; [apply Hle|].
    rewrite (leads_target _ _ _ _ Hle), Hg. do 2 f_equal. dlia.
  - intros h l' q' j Hoj Hp. destruct (decide (f = h ∧ i = j)) as [[<- <-]|Hne].
    + right. by destruct (Hsame _ _ Hoj) as [-> _].
    + rewrite (Hold _ _ _ _ Hoj Hne) in *. by apply Hsp.
  - intros h l' q' j Hoj Hl'. destruct (decide (f = h ∧ i = j)) as [[<- <-]|Hne].
    + destruct (Hsame _ _ Hoj); done.
    + rewrite (Hold _ _ _ _ Hoj Hne). by apply (sp_small _ _ _ Hsp h l' q').
  - done.
  - done.
  - intros g. rewrite Hus. split; [tauto|]. intros [?|[x Hx]]; [done|]. by eapply sp_used.
  - intros g x H1 H2. congruence.
  - intros a _ Hns. apply Hrd. intros ->. apply Hns. by exists f, 0%nat, q, i.
Qed.

(** New pages appear for page numbers from [lo] to [hi] only. *)
Definition news s lev s' lev' (lo hi : Z) : Prop := ∀ h q j, own_entry lev' h 0 q j → present (entry s' h j) = true →
  (own_entry lev h 0 q j ∧ present (entry s h j) = true) ∨ lo ≤ 512 * q + j < hi.

Definition unmapped s lev (lo hi : Z) : Prop := ∀ h q j, own_entry lev h 0 q j → present (entry s h j) = true →
  ¬ lo ≤ 512 * q + j < hi.

Lemma news_refl s lev lo hi : news s lev s lev lo hi.
Proof. intros h q j Ho Hp. by left. Qed.

Lemma news_trans s1 l1 s2 l2 s3 l3 lo1 hi1 lo2 hi2 lo hi : news s1 l1 s2 l2 lo1 hi1 → news s2 l2 s3 l3 lo2 hi2 →
  (lo1 < hi1 → lo ≤ lo1 ∧ hi1 ≤ hi) → (lo2 < hi2 → lo ≤ lo2 ∧ hi2 ≤ hi) → news s1 l1 s3 l3 lo hi.
Proof.
  intros N1 N2 H1 H2 h q j Ho Hp. destruct (N2 h q j Ho Hp) as [[Ho2 Hp2]|?]; [|right; lia].
  destruct (N1 h q j Ho2 Hp2); [by left|right; lia].
Qed.

Lemma news_unmapped s lev s' lev' lo hi lo' hi' lo0 hi0 : news s lev s' lev' lo hi → unmapped s lev lo0 hi0 →
  lo0 ≤ lo' → hi' ≤ hi0 → (lo < hi → hi ≤ lo') → unmapped s' lev' lo' hi'.
Proof.
  intros N U Hl Hh Hle h q j Ho Hp. destruct (N h q j Ho Hp) as [[Ho2 Hp2]|?]; [|lia].
  pose proof (U h q j Ho2 Hp2). lia.
Qed.

(** What an operation that adds to a space may do. *)
Record adds s root lev s' lev' (lo hi : Z) : Prop := {
  ad_space : space s' root lev';
  ad_grown : grown s lev s' lev';
  ad_keeps : keeps s lev s';
  ad_news : news s lev s' lev' lo hi;
}.

Lemma adds_refl s root lev lo hi : space s root lev → adds s root lev s lev lo hi.
Proof. intros Hsp. split; [done|by eapply grown_refl|by intros f l q i _ ?|apply news_refl]. Qed.

Lemma adds_trans s1 root l1 s2 l2 s3 l3 lo1 hi1 lo2 hi2 lo hi :
  adds s1 root l1 s2 l2 lo1 hi1 → adds s2 root l2 s3 l3 lo2 hi2 →
  (lo1 < hi1 → lo ≤ lo1 ∧ hi1 ≤ hi) → (lo2 < hi2 → lo ≤ lo2 ∧ hi2 ≤ hi) → adds s1 root l1 s3 l3 lo hi.
Proof.
  intros [A1 G1 K1 N1] [A2 G2 K2 N2] H1 H2. split; [done|by eapply grown_trans|by eapply space_keeps_trans; [apply G1|..]|].
  by eapply news_trans.
Qed.

Lemma adds_weaken s root lev s' lev' lo hi lo' hi' : adds s root lev s' lev' lo hi → (lo < hi → lo' ≤ lo ∧ hi ≤ hi') →
  adds s root lev s' lev' lo' hi'.
Proof.
  intros [A1 G1 K1 N1] H. split; [done..|]. intros h q j Ho Hp. destruct (N1 h q j Ho Hp); [by left|right; lia].
Qed.

(** One turn of [SetupPageMap] before the recursive call. *)
Lemma turn_adds s root lev f l q i r s1 x : space s root lev → own_entry lev f l q i →
  (task = true → l = 0%nat → present (entry s f i) = false) → (l ≠ 0%nat ∨ task = true → x = true) →
  let a := slot (4096 * f) i in
  SetNewPageMapIfNotPresent s a = Done (r, s1) →
  let s2 := wr s1 a (set_user (rd s1 a) true) in
  let s3 := wr s2 a (set_writable (rd s2 a) x) in
  let v := 512 * q + i in
  if error_bool (error r) then adds s root lev s1 lev v v
  else ∃ lev' g, adds s root lev s3 lev' v (if decide (l = 0%nat) then v + 1 else v) ∧
    value r = 4096 * g ∧ lev' !! g = Some (l, v).
Proof.
  intros Hsp Ho Hnew Hx a E s2 s3 v. pose proof (own_entry_bound _ _ _ _ _ Ho) as Hi.
  assert (Hflags : ∀ e, let e' := set_writable (set_user e true) x in
    present e' = present e ∧ writable e' = x ∧ Pointer e' = Pointer e ∧ huge_page e' = huge_page e).
  { intros e. unfold present, writable, huge_page, set_writable, set_user.
    rewrite !bit_set_bit, !Pointer_set_bit by lia. done. }
  assert (Hrd3 : ∀ b, rd s3 b = if decide (a = b) then set_writable (set_user (rd s1 a) true) x else rd s1 b).
  { intros b. unfold s3. rewrite rd_wr. case_decide as Hd; unfold s2; [by rewrite rd_wr, decide_True|by rewrite rd_wr, decide_False]. }
  assert (Hc3 : cr3 s3 = cr3 s1) by done. assert (Hf3 : frames s3 = frames s1) by done.
  clearbody s3. clear s2. unfold SetNewPageMapIfNotPresent in E. change (rd s a) with (entry s f i) in E.
  destruct (present (entry s f i)) eqn:Hp.
  - injection E as <- <-. change (error_bool kSuccess) with false. cbv iota.
    destruct (sp_down _ _ _ Hsp f l q i Ho Hp) as [[Ht Hw]|(-> & Htask & _)]; [|by specialize (Hnew Htask eq_refl)].
    exists lev, (Pointer (entry s f i) / 4096). split; [|split; [apply Pointer_page|done]].
    destruct (Hflags (entry s f i)) as (F1 & F2 & F3 & F4). change (rd s a) with (entry s f i) in Hrd3.
    destruct (flags_grown s root lev f l q i s3 _ Hsp Ho (conj Hp Ht) Hc3 Hf3 Hrd3) as (H1 & H2 & H3);
      [congruence|done|done|by rewrite F2|].
    split; [done..|]. intros h q' j Hoj Hpj. left. split; [done|]. revert Hpj. unfold entry at 1. rewrite Hrd3.
    case_decide as Heq; [|done]. pose proof (own_entry_bound _ _ _ _ _ Hoj). unfold a in Heq.
    apply slot_frame_inj in Heq as [<- <-]; done.
  - destruct (NewPageMap_spec s (sp_alloc _ _ _ Hsp)) as
      (n & s0 & En & Hok & Hcr & [(Her & g & Hv & Hg & Hgu & Hus & Hm)|(Her & Hus & Hm)]);
      rewrite En in E; cbn [mbind outcome_bind] in E; rewrite Her in E;
      [change (error_bool kSuccess) with false in E|change (error_bool kNoEnoughMemory) with true in E]; cbv iota in E;
      injection E as <- <-; cbn [error].
    + change (error_bool kSuccess) with false. cbv iota. set (e := set_present _ true) in *.
      assert (Hga : a / 4096 ≠ g).
      { unfold a. rewrite slot_page by done. intros ->. destruct Ho as [Hf _]. apply (sp_used _ _ _ Hsp) in Hf. congruence. }
      assert (Hout : ∀ b, b / 4096 ≠ g → rd s0 b = rd s b) by (intros; unfold rd; rewrite Hm; by apply zero_page_out).
      assert (He : e = set_present (SetPointer (entry s f i) (4096 * g)) true).
      { unfold e. rewrite rd_wr, decide_True, Hv by done. by rewrite Hout. }
      assert (He1 : present e = true ∧ Pointer e = 4096 * g ∧ huge_page e = huge_page (entry s f i)).
      { rewrite He. unfold present, huge_page, set_present. split; [by rewrite bit_set_bit by lia|]. split.
        - rewrite Pointer_set_bit, Pointer_SetPointer by lia. done.
        - rewrite bit_set_bit, decide_False, bit_SetPointer by lia. done. }
      clearbody e. destruct He1 as (E1 & E2 & E3). destruct (Hflags e) as (F1 & F2 & F3 & F4).
      assert (Hrd : ∀ b, rd s3 b = if decide (a = b) then set_writable (set_user e true) x else rd s0 b).
      { intros b. rewrite Hrd3. case_decide; [by rewrite rd_wr, decide_True|by rewrite !rd_wr, !decide_False]. }
      clear Hrd3. assert (He3 : entry s3 f i = set_writable (set_user e true) x) by (unfold entry; fold a; by rewrite Hrd, decide_True).
      assert (Hnt : ¬ own_target s lev f l q i) by (intros [? _]; congruence).
      assert (Hz : ∀ j, 0 ≤ j < 512 → entry s3 g j = 0).
      { intros j Hj. unfold entry. rewrite Hrd, decide_False by (intros Heq; rewrite Heq, slot_page in Hga; done).
        unfold rd. rewrite Hm. by apply zero_page_in. }
      destruct (link_grown s root lev f l q i g s3 (set_writable (set_user e true) x) Hsp Ho Hnt Hgu) as [H1 H2];
        [lia|by rewrite Hf3|by rewrite Hc3| | |done| | | |done|].
      { intros h. unfold used. rewrite Hf3. apply Hus. }
      { split; rewrite He3; congruence. }
      { intros Hl. rewrite F4, E3. by apply (sp_small _ _ _ Hsp f l q). }
      { by rewrite F2. }
      { intros b Hbu Hb. rewrite Hrd, decide_False by (unfold a; congruence). apply Hout. congruence. }
      exists (<[g := (l, v)]> lev), g. split; [|split; [done|by rewrite lookup_insert_eq]]. split; [done|done| |].
      * intros h l' q' j Hoj Hpj. pose proof (own_entry_bound _ _ _ _ _ Hoj) as Hj. unfold entry.
        rewrite Hrd, decide_False, Hout; [done| |].
        -- rewrite slot_page by done. intros ->. destruct Hoj as [Hoj _]. apply (sp_used _ _ _ Hsp) in Hoj. congruence.
        -- unfold a. intros [<- <-]%slot_frame_inj; [congruence|done|done].
      * intros h q' j Hoj Hpj. pose proof (own_entry_bound _ _ _ _ _ Hoj) as Hj.
        destruct (decide (h = g)) as [->|Hhg]; [by rewrite Hz in Hpj|].
        destruct Hoj as [Hh Hj']. rewrite lookup_insert_ne in Hh by done.
        destruct (decide (f = h ∧ i = j)) as [[<- <-]|Hne].
        -- right. destruct Ho as [Hf _]. rewrite Hf in Hh. injection Hh as -> ->. rewrite decide_True by done. lia.
        -- left. split; [done|]. revert Hpj. unfold entry. rewrite Hrd, decide_False, Hout; [done| |].
           ++ by rewrite slot_page.
           ++ unfold a. intros Heq%slot_frame_inj; [|done|done]. by apply Hne; destruct Heq.
    + change (error_bool kNoEnoughMemory) with true. cbv iota.
      assert (Hrd : ∀ b, rd s0 b = rd s b) by (intros; unfold rd; by rewrite Hm).
      assert (Hus0 : ∀ h, used s0 h = used s h) by done. split.
      * apply (space_agree s); [done|intros h; by rewrite Hus0|intros; apply Hrd|done].
      * split; [done|done| |intros h y H1 H2; congruence|by intros b _ _].
        intros h. rewrite Hus0. split; [tauto|]. intros [?|[y Hy]]; [done|]. by eapply sp_used.
      * intros h l' q' j _ ?. unfold entry. by rewrite Hrd.
      * intros h q' j Hoj Hpj. left. split; [done|]. revert Hpj. unfold entry. by rewrite Hrd.
Qed.

(** A call of [SetupPageMap] at [level], partial correctness: the space grows by
    pages of the range that lie below this table; the pages left to map lie behind
    the table. *)
Definition builds (level : nat) (rec : pstate A → Z → Z → Z → outcome (WithError Z * pstate A)) : Prop :=
  ∀ s root lev f a n r s', space s root lev → 0 ≤ a →
    let t := 512 ^ Z.of_nat level in
    lev !! f = Some (level, a / 4096 / t) → lowest level ≤ Part level a →
    (task = true → unmapped s lev (a / 4096) (a / 4096 + n)) →
    rec s (4096 * f) a n = Done (r, s') →
    ∃ lev', adds s root lev s' lev' (a / 4096) ((a / 4096 / t + 1) * t) ∧
      (error_bool (error r) = false → value r ≤ 0 ∨ (a / 4096 / t + 1) * t + value r ≤ a / 4096 + n).

Lemma setup_loop_builds level rec x fuel : (level < 4)%nat → (task = true → x = true) →
  (level ≠ 0%nat → builds level rec) → builds (S level) (setup_loop rec (S level) x fuel).
Proof.
  intros Hl Hx Hrec. induction fuel as [|fuel IH]; intros s root lev f a n r s' Hsp Ha T Hf Hlow Hun; cbn [setup_loop];
    (destruct (Z.leb_spec n 0); [intros [= <- <-]; exists lev; split; [by apply adds_refl|intros _; by left]|]); [done|].
  set (t := 512 ^ Z.of_nat level). assert (Ht : 0 < t) by (unfold t; lia).
  assert (HT : T = t * 512) by (unfold T, t; rewrite Nat2Z.inj_succ, Z.pow_succ_r by lia; lia).
  pose proof (Part_prefix level a Hl) as Hpart. fold t in Hpart.
  pose proof (Part_bound (S level) a ltac:(lia)) as Hi. set (i := Part (S level) a) in *.
  set (q := a / 4096 / T) in *. assert (Hpre : a / 4096 / t = 512 * q + i).
  { unfold q. rewrite HT, <- (Z.div_div (a / 4096) t 512), Hpart by lia. apply Z.div_mod. lia. }
  assert (Ho : own_entry lev f level q i) by (split; [done|lia]).
  pose proof (Z.div_mod (a / 4096) t ltac:(lia)) as Hdm. pose proof (Z.mod_pos_bound (a / 4096) t ltac:(lia)) as Hm.
  rewrite Hpre in Hdm. set (v := a / 4096) in *. cbv zeta.
  set (x' := if bool_decide (S level = 1%nat) then x else true).
  assert (Hx' : level ≠ 0%nat ∨ task = true → x' = true).
  { unfold x'. case_bool_decide as Hb; [intros [?|?]; [congruence|by apply Hx]|done]. }
  intros E. apply bind_Done_inv in E as ((m & s1) & E1 & E).
  pose proof (turn_adds s root lev f level q i m s1 x' Hsp Ho) as Hturn. cbv zeta in Hturn.
  specialize (Hturn ltac:(intros Htask Hl0; destruct (present (entry s f i)) eqn:Hp; [|done];
    exfalso; revert Ho; rewrite Hl0; intros Ho; apply (Hun Htask f q i Ho Hp); unfold t in Hdm, Hm; rewrite Hl0 in Hdm, Hm; lia) Hx' E1).
  destruct (error_bool (error m)) eqn:Her.
  { injection E as <- <-. exists lev. split; [|cbn [error]; by rewrite Her]. eapply adds_weaken; [exact Hturn|lia]. }
  destruct Hturn as (lev1 & g & A1 & Hv & Hlg). set (s2 := wr s1 _ (set_user _ _)) in *.
  assert (Hfin : ∀ s4 lev4 n', adds s root lev s4 lev4 v ((512 * q + i + 1) * t) →
    (n' ≤ 0 ∨ (512 * q + i + 1) * t + n' ≤ v + n) →
    (if i =? 511 then mret (mkWithError n' kSuccess, s4)
     else setup_loop rec (S level) x fuel s4 (4096 * f) (clear_parts (S level - 1) (SetPart (S level) (i + 1) a)) n')
      = Done (r, s') →
    ∃ lev', adds s root lev s' lev' v ((q + 1) * T) ∧
      (error_bool (error r) = false → value r ≤ 0 ∨ (q + 1) * T + value r ≤ v + n)).
  { intros s4 lev4 n' A4 Hn'. destruct (Z.eqb_spec i 511) as [Hi1|Hi1].
    { intros [= <- <-]. exists lev4. cbn [value error]. split; [eapply adds_weaken; [exact A4|]; intros _; nia|]. intros _.
      destruct Hn'; [by left|right]. nia. }
    destruct (next_addr (S level) a ltac:(lia) Ha ltac:(fold i; lia)) as [Ha' Hpage]. fold i v in Ha', Hpage.
    set (a' := clear_parts _ _) in *. replace (S level - 1)%nat with level in Hpage by lia. fold t in Hpage. rewrite Hpre in Hpage.
    assert (Hq' : a' / 4096 / T = q).
    { rewrite Hpage, HT, <- Z.div_div, Z.div_mul by lia. symmetry. apply (Z.div_unique _ _ _ (i + 1)); [left; lia|lia]. }
    assert (Hpart' : Part (S level) a' = i + 1).
    { rewrite Part_prefix, Hpage by lia. fold t. rewrite Z.div_mul by lia.
      symmetry. apply (Z.mod_unique _ _ q); [left; lia|lia]. }
    intros E'. destruct (IH s4 root lev4 f a' n' r s') as (lev' & A' & Hr); [apply A4|done| |rewrite Hpart'; lia| |done|].
    - fold T. rewrite Hq'. eapply lookup_weaken; [exact Hf|]. apply A4.
    - intros Htask. destruct Hn'; [intros h q' j _ _; lia|].
      eapply news_unmapped; [apply A4|by apply Hun|rewrite Hpage; lia|rewrite Hpage; lia|rewrite Hpage; lia].
    - fold T in A', Hr. rewrite Hq', Hpage in A', Hr. exists lev'. split.
      + eapply adds_trans; [exact A4|exact A'|nia|nia].
      + intros Hs. destruct (Hr Hs); [by left|]. destruct Hn'; [nia|right; lia]. }
  unfold x' in A1. clear Hx' x'. clearbody s2. revert A1 E. case_bool_decide as Hlev; intros A1 E.
  - assert (level = 0%nat) as -> by lia. rewrite decide_True in A1 by done.
    assert (Ht1 : t = 1) by done. apply Hfin with (lev4 := lev1) in E; [done| |right; lia].
    eapply adds_weaken; [exact A1|lia].
  - apply bind_Done_inv in E as ((rr & s4) & E4 & E). rewrite Hv in E4.
    assert (Hl0 : level ≠ 0%nat) by lia. rewrite decide_False in A1 by done.
    destruct (Hrec Hl0 _ root lev1 g a n rr s4 (ad_space _ _ _ _ _ _ _ A1) Ha) as (lev4 & A4 & Hr4); [| | |done|].
    { fold v t. by rewrite Hpre. }
    { unfold lowest. rewrite decide_False by lia. apply Part_nonneg. lia. }
    { intros Htask. eapply news_unmapped; [apply A1|by apply Hun|fold v; lia|fold v; lia|lia]. }
    fold v t in A4, Hr4. rewrite Hpre in A4, Hr4.
    assert (A14 : adds s root lev s4 lev4 v ((512 * q + i + 1) * t)) by (eapply adds_trans; [exact A1|exact A4|lia|lia]).
    destruct (error_bool (error rr)) eqn:Herr.
    + injection E as <- <-. exists lev4. cbn [error]. split; [|by rewrite Herr]. eapply adds_weaken; [exact A14|nia].
    + apply Hfin with (lev4 := lev4) in E; [done|done|by apply Hr4].
Qed.

Lemma SetupPageMap_builds level x : (1 ≤ level ≤ 4)%nat → (task = true → x = true) → builds level (SetupPageMap level x).
Proof.
  intros Hlev Hx. induction level as [|level IH]; [lia|].
  intros s root lev f a n r s' Hsp Ha t Hf Hlow Hun. cbn [SetupPageMap].
  apply (setup_loop_builds level); [lia|done| |done..]. intros. apply IH. lia.
Qed.

(** ** Walks *)
Section walks.
Context (s : pstate A) (root : Z) (lev : ghost).
Hypothesis Hsp : space s root lev.

Lemma own_level f l q : lev !! f = Some (l, q) → (l ≤ 4)%nat.
Proof. intros Hf. destruct (sp_up _ _ _ Hsp f _ _ Hf) as [[-> _]|[? _]]; lia. Qed.

Lemma own_part f l va : upper va → lev !! f = Some (S l, va / 4096 / 512 ^ Z.of_nat (S l)) →
  own_entry lev f l (va / 4096 / 512 ^ Z.of_nat (S l)) (Part (S l) va).
Proof. intros Hva Hf. pose proof (own_level _ _ _ Hf). split; [done|]. by apply upper_part; [|lia]. Qed.

Lemma walk_small l va : upper va → ∀ f, lev !! f = Some (l, va / 4096 / 512 ^ Z.of_nat l) → small_pages s l (4096 * f) va.
Proof.
  intros Hva. induction l as [|l IH]; intros f Hf; [done|]. cbn [small_pages]. intros Hp.
  pose proof (own_part f l va Hva Hf) as Ho. pose proof (own_level _ _ _ Hf) as Hl.
  split; [destruct (decide (l = 0%nat)); [by left|right; by apply (sp_small _ _ _ Hsp f l (va / 4096 / 512 ^ Z.of_nat (S l)))]|].
  destruct (sp_down _ _ _ Hsp _ _ _ _ Ho Hp) as [[Hd _]|(-> & _)]; [|done].
  rewrite Pointer_page. apply IH. rewrite <- part_down by lia. exact Hd.
Qed.

(** The last-level entry of [va]. *)
Definition leaf_at (va g : Z) : Prop := own_entry lev g 0 (va / 4096 / 512) (Part 1 va).

Lemma leaf_at_eq va g : upper va → lev !! g = Some (1%nat, va / 4096 / 512) → leaf_at va g.
Proof. intros Hva Hg. by apply own_part. Qed.

Lemma leaf_at_inj va g g' : leaf_at va g → leaf_at va g' → g = g'.
Proof. intros [H1 _] [H2 _]. by eapply (sp_inj _ _ _ Hsp). Qed.

Lemma walk_leaf_own l va e : upper va → ∀ f, lev !! f = Some (l, va / 4096 / 512 ^ Z.of_nat l) →
  walk s l (4096 * f) va = Some e → ∃ g, leaf_at va g ∧ e = entry s g (Part 1 va) ∧ present e = true.
Proof.
  intros Hva. induction l as [|l IH]; intros f Hf; [done|]. cbn [walk].
  pose proof (own_part f l va Hva Hf) as Ho. pose proof (own_level _ _ _ Hf) as Hl.
  fold (entry s f (Part (S l) va)). destruct (present (entry _ _ _)) eqn:Hp; [|done].
  destruct l as [|l]; [intros [= <-]; by exists f|].
  destruct (sp_down _ _ _ Hsp _ _ _ _ Ho Hp) as [[Hd _]|(? & _)]; [|done].
  rewrite Pointer_page. apply IH. rewrite <- part_down by lia. exact Hd.
Qed.

(** A table on the way to [va] is on the way from the root. *)
Lemma walk_climb k : ∀ l g va, (l + k = 4)%nat → (1 ≤ l)%nat → upper va → lev !! g = Some (l, va / 4096 / 512 ^ Z.of_nat l) →
  walk s 4 root va = walk s l (4096 * g) va ∧ leaf_slot s 4 root va = leaf_slot s l (4096 * g) va.
Proof.
  induction k as [|k IH]; intros l g va Hl Hl1 Hva Hg.
  - assert (l = 4%nat) as -> by lia. destruct (sp_up _ _ _ Hsp g _ _ Hg) as [[_ ->]|[? _]]; [|lia].
    destruct (sp_root _ _ _ Hsp) as [Hr _]. by replace (4096 * (root / 4096)) with root by dlia.
  - destruct (up_target _ _ _ _ _ _ Hsp Hg ltac:(lia)) as (f & Ho & [Hp Hq] & _).
    assert (Hf : lev !! f = Some (S l, va / 4096 / 512 ^ Z.of_nat (S l))).
    { destruct Ho as [-> _]. do 2 f_equal. rewrite Nat2Z.inj_succ, Z.pow_succ_r, (Z.mul_comm 512 (512 ^ _)) by lia. apply Z.div_div; lia. }
    destruct (IH (S l) f va) as [Hw Hs]; [lia|lia|done|done|]. rewrite Hw, Hs. cbn [walk leaf_slot].
    rewrite Part_prefix by lia. fold (entry s f (va / 4096 / 512 ^ Z.of_nat l mod 512)). rewrite Hp, Hq. by destruct l; [lia|].
Qed.

(** The walk from the root, by the invariant. *)
Lemma walk_root va e : upper va → walk s 4 root va = Some e ↔
  ∃ g, leaf_at va g ∧ e = entry s g (Part 1 va) ∧ present e = true.
Proof.
  intros Hva. destruct (sp_root _ _ _ Hsp) as [Hr1 Hr2]. split.
  - intros Hw. replace root with (4096 * (root / 4096)) in Hw by dlia.
    apply (walk_leaf_own 4 va e Hva _) in Hw; [done|]. rewrite Hr2. do 2 f_equal. symmetry. by apply upper_high.
  - intros (g & Hg & -> & Hp). destruct (walk_climb 3 1 g va) as [-> _]; [done|lia|done|apply Hg|].
    cbn [walk]. fold (entry s g (Part 1 va)). by rewrite Hp.
Qed.

Lemma root_small va : upper va → small_pages s 4 root va.
Proof.
  intros Hva. destruct (sp_root _ _ _ Hsp) as [Hr1 Hr2]. replace root with (4096 * (root / 4096)) by dlia.
  apply walk_small; [done|]. rewrite Hr2. do 2 f_equal. symmetry. by apply upper_high.
Qed.

(** The frames of a space are for upper addresses. *)
Lemma own_upper k : ∀ l h q, (l + k = 3)%nat → lev !! h = Some (l, q) →
  0xffff800000000000 ≤ 4096 * (512 ^ Z.of_nat l * q) ∧ 4096 * (512 ^ Z.of_nat l * (q + 1)) ≤ 2 ^ 64.
Proof.
  induction k as [|k IH]; intros l h q Hl Hh;
    destruct (up_target _ _ _ _ _ _ Hsp Hh ltac:(lia)) as (f & [Hf Hi] & _).
  - assert (l = 3%nat) as -> by lia. destruct (sp_up _ _ _ Hsp f _ _ Hf) as [[_ ->]|[? _]]; [|lia].
    destruct (sp_root _ _ _ Hsp) as [_ Hr]. rewrite Hr in Hf. injection Hf as Hq. unfold lowest in Hi. simpl in Hi.
    unfold upper_prefix in Hq. change (512 ^ Z.of_nat 3) with 134217728. dlia.
  - destruct (IH (S l) f (q / 512)) as [H1 H2]; [lia|done|]. rewrite Nat2Z.inj_succ, Z.pow_succ_r in H1, H2 by lia.
    assert (Ht : 0 < 512 ^ Z.of_nat l) by lia. pose proof (Z.div_mod q 512 ltac:(lia)). pose proof (Z.mod_pos_bound q 512 ltac:(lia)). nia.
Qed.

Lemma own_page_upper h q j : own_entry lev h 0 q j →
  upper (4096 * (512 * q + j)) ∧ 4096 * (512 * q + j) / 4096 = 512 * q + j ∧
  (leaf_at (4096 * (512 * q + j)) h ∧ Part 1 (4096 * (512 * q + j)) = j).
Proof.
  intros Ho. pose proof (own_entry_bound _ _ _ _ _ Ho) as Hj. destruct Ho as [Hh Hr].
  destruct (own_upper 2 1 h q eq_refl Hh) as [H1 H2]. change (512 ^ Z.of_nat 1) with 512 in H1, H2.
  assert (Hv : 4096 * (512 * q + j) / 4096 = 512 * q + j) by dlia.
  assert (Hp : Part 1 (4096 * (512 * q + j)) = j).
  { rewrite Part_prefix, Hv by lia. change (512 ^ Z.of_nat 0) with 1. rewrite Z.div_1_r. dlia. }
  split; [unfold upper; lia|]. split; [done|]. split; [|done]. unfold leaf_at. rewrite Hp, Hv.
  replace ((512 * q + j) / 512) with q by dlia. done.
Qed.
End walks.

(** The tables as the tree that the theorems on paging speak of. *)
Lemma space_tree (D : Z → Prop) s root lev : space s root lev →
  (∀ f l q, lev !! f = Some (S l, q) → ¬ D f) → tree_from D s 4 root 256.
Proof.
  intros Hsp HD. assert (H : ∀ l f q, lev !! f = Some (l, q) → tree_from D s l (4096 * f) (lowest l)).
  { induction l as [|l IH]; intros f q Hf; [done|]. cbn [tree_from]. replace (4096 * f / 4096) with f by dlia.
    pose proof (sp_used _ _ _ Hsp _ _ Hf) as Hu. pose proof (own_level _ _ _ Hsp _ _ _ Hf) as Hl. split_and!; [dlia|done|by eapply HD|].
    intros i Hi Hp. rewrite Pointer_page. destruct l as [|l]; [done|].
    destruct (sp_down _ _ _ Hsp f (S l) q i (conj Hf Hi) Hp) as [[Hd _]|(? & _)]; [|done].
    apply IH in Hd. unfold lowest in Hd. by rewrite decide_False in Hd by lia. }
  destruct (sp_root _ _ _ Hsp) as [H1 H2]. specialize (H 4%nat _ _ H2). by replace (4096 * (root / 4096)) with root in H by dlia.
Qed.
#[local] Set Default Proof Using "Type".
End invariant.
End space.
End SpaceFacts.
