(* ===== verification/Message.v ===== *)
(** The messages tasks exchange: src/kernel/message.hpp. *)
From S2P Require Import Prelude.

Inductive LayerOperation : Set :=
| Move | MoveRelative | Draw | DrawArea.

(** The union [arg] together with the enumerator [type] that says which member
    of it is in use. *)
Inductive MessageArg : Set :=
| kInterruptXHCI
| kTimerTimeout (timeout value : Z)
| kKeyPush (modifier keycode ascii press : Z)
| kLayer (op : LayerOperation) (layer_id x y w h : Z)
| kLayerFinish
| kMouseMove (x y dx dy buttons : Z)
| kMouseButton (x y press button : Z)
| kWindowActive (activate : Z)
| kPipe (data : list Z) (len : Z)
| kWindowClose (layer_id : Z).

Record Message : Set := mkMessage { src_task : Z; arg : MessageArg }.

#[export] Instance LayerOperation_eq_dec : EqDecision LayerOperation.
Proof. solve_decision. Defined.
#[export] Instance MessageArg_eq_dec : EqDecision MessageArg.
Proof. solve_decision. Defined.
#[export] Instance Message_eq_dec : EqDecision Message.
Proof. solve_decision. Defined.
