(* ===== verification/Keyboard.v ===== *)
(** The key tables of src/kernel/keyboard.cpp.  The handler that would read them is
    commented out in the source, and [InitializeKeyboard] does nothing. *)
From S2P Require Import Prelude.

(** A table of 256 characters, zero behind the ones given. *)
Definition key_table (l : list Z) : list Z := l ++ replicate (256 - length l) 0.

Definition keycode_map : list Z := key_table [
  0; 0; 0; 0; 97; 98; 99; 100;
  101; 102; 103; 104; 105; 106; 107; 108;
  109; 110; 111; 112; 113; 114; 115; 116;
  117; 118; 119; 120; 121; 122; 49; 50;
  51; 52; 53; 54; 55; 56; 57; 48;
  10; 8; 8; 9; 32; 45; 61; 91;
  93; 92; 35; 59; 39; 96; 44; 46;
  47; 0; 0; 0; 0; 0; 0; 0;
  0; 0; 0; 0; 0; 0; 0; 0;
  0; 0; 0; 0; 0; 0; 0; 0;
  0; 0; 0; 0; 47; 42; 45; 43;
  10; 49; 50; 51; 52; 53; 54; 55;
  56; 57; 48; 46; 92; 0; 0; 61;
  0; 0; 0; 0; 0; 0; 0; 0;
  0; 0; 0; 0; 0; 0; 0; 0;
  0; 0; 0; 0; 0; 0; 0; 0;
  0; 0; 0; 0; 0; 0; 0; 0;
  0; 92; 0; 0; 0; 0; 0; 0].

Definition keycode_map_shifted : list Z := key_table [
  0; 0; 0; 0; 65; 66; 67; 68;
  69; 70; 71; 72; 73; 74; 75; 76;
  77; 78; 79; 80; 81; 82; 83; 84;
  85; 86; 87; 88; 89; 90; 33; 64;
  35; 36; 37; 94; 38; 42; 40; 41;
  10; 8; 8; 9; 32; 95; 43; 123;
  125; 124; 126; 58; 34; 126; 60; 62;
  63; 0; 0; 0; 0; 0; 0; 0;
  0; 0; 0; 0; 0; 0; 0; 0;
  0; 0; 0; 0; 0; 0; 0; 0;
  0; 0; 0; 0; 47; 42; 45; 43;
  10; 49; 50; 51; 52; 53; 54; 55;
  56; 57; 48; 46; 92; 0; 0; 61;
  0; 0; 0; 0; 0; 0; 0; 0;
  0; 0; 0; 0; 0; 0; 0; 0;
  0; 0; 0; 0; 0; 0; 0; 0;
  0; 0; 0; 0; 0; 0; 0; 0;
  0; 124; 0; 0; 0; 0; 0; 0].

(** [InitializeKeyboard] *)
Definition InitializeKeyboard {S} (s : S) : S := s.

(** The upper-case letter. *)
Definition upper_case (c : Z) : Z := if (97 <=? c) && (c <=? 122) then c - 32 else c.

(** Shift makes capitals of the letters, and both tables have the same keys. *)
Lemma keycode_map_shifted_keys : ∀ k, (k < 256)%nat →
  (keycode_map !!! k = 0 ↔ keycode_map_shifted !!! k = 0) ∧
  (97 ≤ keycode_map !!! k ≤ 122 → keycode_map_shifted !!! k = upper_case (keycode_map !!! k)).
Proof.
  assert (Hb : forallb (λ k, Bool.eqb (keycode_map !!! k =? 0) (keycode_map_shifted !!! k =? 0) &&
    (negb ((97 <=? keycode_map !!! k) && (keycode_map !!! k <=? 122)) ||
     (keycode_map_shifted !!! k =? upper_case (keycode_map !!! k)))) (seq 0 256) = true) by (vm_compute; reflexivity).
  rewrite forallb_forall in Hb. intros k Hk. specialize (Hb k ltac:(apply in_seq; lia)).
  apply andb_true_iff in Hb as [He%Bool.eqb_prop Hu]. split.
  - by rewrite <- !Z.eqb_eq, He.
  - intros Hr. apply orb_true_iff in Hu as [Hu|Hu%Z.eqb_eq]; [|done]. apply negb_true_iff, andb_false_iff in Hu as [?%Z.leb_gt|?%Z.leb_gt]; lia.
Qed.
