(* ===== verification/Register.v ===== *)
(** The register wrappers of src/kernel/register.hpp: registers that are read and
    written one element after the other, and arrays at a fixed address.  Loads and
    stores of elements are parameters; they are volatile, so that each counts. *)
From S2P Require Import Prelude.

(** Loads and stores of the elements of [T::data], [width] bytes each. *)
Class Elements (H : Type) := {
  width : Z;
  load_element : H → Z → Z * H;
  store_element : H → Z → Z → H;
}.

Section register.
Context {H : Type} `{Elements H}.

(** [MemMapRegister::Read] of [len] elements at [a], from element [i] on. *)
Fixpoint read_elements (len : nat) (a i : Z) (h : H) : list Z * H :=
  match len with
  | O => ([], h)
  | S len =>
      let '(x, h) := load_element h (a + width * i) in
      let '(data, h) := read_elements len a (i + 1) h in
      (x :: data, h)
  end.
Definition Read (len : nat) (a : Z) (h : H) : list Z * H := read_elements len a 0 h.

(** [MemMapRegister::Write] *)
Fixpoint write_elements (data : list Z) (a i : Z) (h : H) : H :=
  match data with
  | [] => h
  | x :: data => write_elements data a (i + 1) (store_element h (a + width * i) x)
  end.
Definition Write (data : list Z) (a : Z) (h : H) : H := write_elements data a 0 h.
End register.

(** [ArrayWrapper]: its base address, its size, and [sizeof(T)]. *)
Record ArrayWrapper : Set := mkArrayWrapper { array_ : Z; size_ : Z; sizeof_value : Z }.
Definition Size (w : ArrayWrapper) : Z := size_ w.
Definition begin_ (w : ArrayWrapper) : Z := array_ w.
Definition end_ (w : ArrayWrapper) : Z := array_ w + sizeof_value w * size_ w.
Definition at_index (w : ArrayWrapper) (i : Z) : Z := array_ w + sizeof_value w * i.

(** What a range-based for statement visits: [it = begin(); it != end(); ++it]. *)
Fixpoint range_for (fuel : nat) (w : ArrayWrapper) (it : Z) : outcome (list Z) :=
  if it =? end_ w then mret []
  else match fuel with
       | O => NoFuel
       | S fuel => rest ← range_for fuel w (it + sizeof_value w); mret (it :: rest)
       end.

(** ** Registers that are memory *)

(** A register whose elements keep what is stored in them. *)
Class PlainMemory (H : Type) `{Elements H} (plain : Z → Prop) := {
  content : H → Z → Z;
  width_pos : 0 < width;
  load_content : ∀ h a, plain a → (load_element h a).1 = content h a;
  load_keeps : ∀ h a b, plain b → content (load_element h a).2 b = content h b;
  store_content : ∀ h a x b, plain b → content (store_element h a x) b = if b =? a then x else content h b;
}.

Section memory.
Context {H : Type} `{PlainMemory H plain}.

Lemma write_elements_content data : ∀ a i h b, plain b →
  (∀ k, 0 ≤ k < Z.of_nat (length data) → b ≠ a + width * (i + k)) →
  content (write_elements data a i h) b = content h b.
Proof.
  induction data as [|x data IH]; intros a i h b Hb Hne; cbn [write_elements]; [done|].
  rewrite IH by (try done; intros k Hk; replace (i + 1 + k) with (i + (k + 1)) by lia; apply Hne; simpl; lia).
  rewrite store_content by done. destruct (Z.eqb_spec b (a + width * i)) as [->|]; [|done].
  exfalso. apply (Hne 0); [simpl; lia|]. by rewrite Z.add_0_r.
Qed.

Lemma read_elements_content data : ∀ a i h,
  (∀ k, 0 ≤ k < Z.of_nat (length data) → plain (a + width * (i + k))) →
  (∀ k, 0 ≤ k < Z.of_nat (length data) → content h (a + width * (i + k)) = nth (Z.to_nat k) data 0) →
  (read_elements (length data) a i h).1 = data.
Proof.
  induction data as [|x data IH]; intros a i h Hp Hc; cbn [length read_elements]; [done|].
  pose proof (Hp 0 ltac:(simpl; lia)) as Hp0. pose proof (Hc 0 ltac:(simpl; lia)) as Hc0. rewrite Z.add_0_r in Hp0, Hc0.
  pose proof (load_content h _ Hp0) as Hl. pose proof (load_keeps h (a + width * i)) as Hk.
  destruct (load_element h (a + width * i)) as [v h1]. cbn [fst snd] in Hl, Hk.
  specialize (IH a (i + 1) h1). destruct (read_elements (length data) a (i + 1) h1) as [rest h2]. cbn [fst] in *.
  rewrite Hl, Hc0. simpl. f_equal. apply IH; intros k Hr; replace (i + 1 + k) with (i + (k + 1)) by lia.
  - apply Hp. simpl. lia.
  - rewrite Hk by (apply Hp; simpl; lia). rewrite Hc by (simpl; lia). by replace (Z.to_nat (k + 1)) with (S (Z.to_nat k)) by lia.
Qed.

Lemma write_elements_nth data : ∀ a i h k,
  (∀ k, 0 ≤ k < Z.of_nat (length data) → plain (a + width * (i + k))) → 0 ≤ k < Z.of_nat (length data) →
  content (write_elements data a i h) (a + width * (i + k)) = nth (Z.to_nat k) data 0.
Proof.
  pose proof width_pos as Hw. induction data as [|x data IH]; intros a i h k Hp Hk; [simpl in Hk; lia|]. cbn [write_elements].
  assert (Hi : plain (a + width * i)) by (rewrite <- (Z.add_0_r i); apply Hp; simpl; lia).
  destruct (decide (k = 0)) as [->|Hk0].
  - rewrite Z.add_0_r, write_elements_content; [|done|intros j Hj; nia]. by rewrite store_content, Z.eqb_refl.
  - replace (i + k) with (i + 1 + (k - 1)) by lia. rewrite IH.
    + by replace (Z.to_nat k) with (S (Z.to_nat (k - 1))) by lia.
    + intros j Hj. replace (i + 1 + j) with (i + (j + 1)) by lia. apply Hp. simpl. lia.
    + simpl in Hk. lia.
Qed.

(** What [Write] has stored is what [Read] gives, and nothing outside the register
    changes. *)
Lemma Write_Read data a h :
  (∀ k, 0 ≤ k < Z.of_nat (length data) → plain (a + width * k)) →
  (Read (length data) a (Write data a h)).1 = data ∧
  ∀ b, plain b → (∀ k, 0 ≤ k < Z.of_nat (length data) → b ≠ a + width * k) → content (Write data a h) b = content h b.
Proof.
  intros Hp. split.
  - apply read_elements_content; [done|]. intros k Hk. by apply (write_elements_nth data a 0).
  - intros b Hb Hne. by apply write_elements_content.
Qed.
End memory.

(** A range-based for visits every element once, in the order of the indices. *)
Lemma range_for_elements w : 0 < sizeof_value w → 0 ≤ size_ w →
  range_for (Z.to_nat (size_ w)) w (begin_ w) = Done (at_index w <$> seqZ 0 (Size w)).
Proof.
  intros Hs Hn. assert (Hgen : ∀ n i, i + Z.of_nat n = size_ w →
    range_for n w (at_index w i) = Done (at_index w <$> seqZ i (Z.of_nat n))).
  { induction n as [|n IH]; intros i Hi; unfold at_index, end_ in *.
    - simpl. unfold end_. by replace (array_ w + sizeof_value w * i =? array_ w + sizeof_value w * size_ w) with true by (symmetry; apply Z.eqb_eq; nia).
    - cbn [range_for]. unfold end_. replace (_ =? _) with false by (symmetry; apply Z.eqb_neq; nia).
      replace (array_ w + sizeof_value w * i + sizeof_value w) with (array_ w + sizeof_value w * (i + 1)) by lia.
      rewrite IH by lia. rewrite (seqZ_cons i (Z.of_nat (S n))) by lia. simpl. unfold mret, outcome_ret.
      f_equal. f_equal. unfold Z.succ, Z.pred. do 3 f_equal. lia. }
  specialize (Hgen (Z.to_nat (size_ w)) 0). unfold begin_, Size. rewrite Z2Nat.id in Hgen by done.
  rewrite <- Hgen by lia. f_equal. unfold at_index. lia.
Qed.

(** Plain memory of bytes. *)
#[export] Instance memory_bytes : Elements (gmap Z Z) := {|
  width := 1; load_element h a := (default 0 (h !! a), h); store_element h a x := <[a := x]> h |}.

#[export] Program Instance memory_bytes_plain : PlainMemory (gmap Z Z) (λ _, True) := {| content h a := default 0 (h !! a) |}.
Next Obligation. reflexivity. Qed.
Next Obligation. reflexivity. Qed.
Next Obligation. reflexivity. Qed.
Next Obligation.
  intros h a x b _. simpl. destruct (Z.eqb_spec b a) as [->|Hne]; [by rewrite lookup_insert_eq|by rewrite lookup_insert_ne].
Qed.

(** Three bytes written and read back. *)
Example memory_bytes_roundtrip : (Read 3 16 (Write [7; 8; 9] 16 (∅ : gmap Z Z))).1 = [7; 8; 9].
Proof. apply (Write_Read [7; 8; 9] 16 ∅). done. Qed.
