(* ===== verification/Newlib.v ===== *)
(** What the C library finds below it in the kernel: src/kernel/newlib_support.c but
    for [sbrk] (MemoryManager.v), and src/kernel/libcxx_support.cpp.  The kernel has
    no files of its own for the C library: every call fails.  [_exit] only halts. *)
From S2P Require Import Prelude.

Definition EINVAL : Z := 22.
Definition ENOENT : Z := 2.
Definition EBADF : Z := 9.
Definition ENOMEM : Z := 12.

(** A call that leaves [errno] and returns -1. *)
Definition fails (e : Z) (errno : Z) : Z * Z := (-1, e).

Definition getpid (errno : Z) : Z * Z := (1, errno).
Definition kill (pid sig : Z) : Z → Z * Z := fails EINVAL.
Definition open (path : list Z) (flags : Z) : Z → Z * Z := fails ENOENT.
Definition close (fd : Z) : Z → Z * Z := fails EBADF.
Definition lseek (fd offset whence : Z) : Z → Z * Z := fails EBADF.
Definition read (fd count : Z) : Z → Z * Z := fails EBADF.
Definition write (fd count : Z) : Z → Z * Z := fails EBADF.
Definition fstat (fd : Z) : Z → Z * Z := fails EBADF.
Definition isatty (fd : Z) : Z → Z * Z := fails EBADF.

(** [posix_memalign] of libcxx_support.cpp, which stands for aligned [new]. *)
Definition posix_memalign (alignment size : Z) : Z := ENOMEM.
