(* ===== verification/Task.v ===== *)
(** Tasks and the scheduler: src/kernel/task.{hpp,cpp}.  A [Task*] is the task's
    id (ids are never reused); following a pointer to a task that was erased is
    undefined.  What the assembly routines [SwitchContext] and [RestoreContext]
    are asked to do is a result of the operation that calls them. *)
From S2P Require Import Prelude ErrorCode Message.

(** [struct TaskContext]: [fxsave_area] is the array of its 512 bytes. *)
Record TaskContext : Set := mkContext {
  ctx_cr3 : Z; rip : Z; rflags : Z; reserved1 : Z;
  cs : Z; ss : Z; fs : Z; gs : Z;
  rax : Z; rbx : Z; rcx : Z; rdx : Z; rdi : Z; rsi : Z; rsp : Z; rbp : Z;
  r8 : Z; r9 : Z; r10 : Z; r11 : Z; r12 : Z; r13 : Z; r14 : Z; r15 : Z;
  fxsave_area : gmap Z Z;
}.

Definition zero_context : TaskContext :=
  mkContext 0 0 0 0 0 0 0 0 0 0 0 0 0 0 0 0 0 0 0 0 0 0 0 0 ∅.

(** [class Task]; [file_maps_] are triples (fd, vaddr_begin, vaddr_end), [files_]
    the indices of the descriptors ([None]: a null pointer). *)
Record Task : Set := mkTask {
  id_ : Z;
  stack_words : Z;
  context_ : TaskContext;
  os_stack_ptr_ : Z;
  msgs_ : list Message;
  level_ : Z;
  task_running : bool;
  files_ : list (option Z);
  dpaging_begin_ : Z;
  dpaging_end_ : Z;
  file_map_end_ : Z;
  file_maps_ : list (Z * Z * Z);
}.

Definition kDefaultLevel : Z := 1.
Definition kDefaultStackBytes : Z := 8 * 4096.
Definition kMaxLevel : Z := 3.
Definition kKernelCS : Z := Z.shiftl 1 3.
Definition kKernelSS : Z := Z.shiftl 2 3.

(** [Task::Task] *)
Definition new_Task (id : Z) : Task :=
  mkTask id 0 zero_context 0 [] kDefaultLevel false [] 0 0 0 [].

Definition SetLevel (t : Task) (level : Z) : Task :=
  mkTask (id_ t) (stack_words t) (context_ t) (os_stack_ptr_ t) (msgs_ t) level (task_running t)
    (files_ t) (dpaging_begin_ t) (dpaging_end_ t) (file_map_end_ t) (file_maps_ t).

Definition SetRunning (t : Task) (running : bool) : Task :=
  mkTask (id_ t) (stack_words t) (context_ t) (os_stack_ptr_ t) (msgs_ t) (level_ t) running
    (files_ t) (dpaging_begin_ t) (dpaging_end_ t) (file_map_end_ t) (file_maps_ t).

Definition set_msgs (t : Task) (msgs : list Message) : Task :=
  mkTask (id_ t) (stack_words t) (context_ t) (os_stack_ptr_ t) msgs (level_ t) (task_running t)
    (files_ t) (dpaging_begin_ t) (dpaging_end_ t) (file_map_end_ t) (file_maps_ t).

Definition set_context (t : Task) (ctx : TaskContext) : Task :=
  mkTask (id_ t) (stack_words t) ctx (os_stack_ptr_ t) (msgs_ t) (level_ t) (task_running t)
    (files_ t) (dpaging_begin_ t) (dpaging_end_ t) (file_map_end_ t) (file_maps_ t).

(** [Task::InitContext]: [cr3] is the register's value, [stack] the address of the
    new stack's first word. *)
Definition InitContext (t : Task) (cr3 stack f data : Z) : Task :=
  let stack_size := kDefaultStackBytes / 8 in
  let stack_end := stack + 8 * stack_size in
  mkTask (id_ t) stack_size
    (mkContext cr3 f 0x202 0 kKernelCS kKernelSS 0 0 0 0 0 0 (id_ t) data
       (u64 (Z.ldiff stack_end 0xf - 0x8)) 0 0 0 0 0 0 0 0 0
       (<[24 := 0x80]> (<[25 := 0x1f]> (<[26 := 0]> (<[27 := 0]> ∅)))))
    (os_stack_ptr_ t) (msgs_ t) (level_ t) (task_running t)
    (files_ t) (dpaging_begin_ t) (dpaging_end_ t) (file_map_end_ t) (file_maps_ t).

(** [Task::ReceiveMessage] *)
Definition task_ReceiveMessage (t : Task) : option Message * Task :=
  match msgs_ t with
  | [] => (None, t)
  | m :: msgs => (Some m, set_msgs t msgs)
  end.

(** [class TaskManager] *)
Record TaskManager : Set := mkTM {
  tasks_ : gmap Z Task;
  latest_id_ : Z;
  running_ : list (list Z);
  current_level_ : Z;
  level_changed_ : bool;
  finish_tasks_ : gmap Z Z;
  finish_waiter_ : gmap Z Z;
}.

Definition set_tasks (tm : TaskManager) (ts : gmap Z Task) : TaskManager :=
  mkTM ts (latest_id_ tm) (running_ tm) (current_level_ tm) (level_changed_ tm)
    (finish_tasks_ tm) (finish_waiter_ tm).
Definition set_running (tm : TaskManager) (r : list (list Z)) : TaskManager :=
  mkTM (tasks_ tm) (latest_id_ tm) r (current_level_ tm) (level_changed_ tm)
    (finish_tasks_ tm) (finish_waiter_ tm).
Definition set_level (tm : TaskManager) (level : Z) (changed : bool) : TaskManager :=
  mkTM (tasks_ tm) (latest_id_ tm) (running_ tm) level changed (finish_tasks_ tm) (finish_waiter_ tm).
Definition set_finish (tm : TaskManager) (ft fw : gmap Z Z) : TaskManager :=
  mkTM (tasks_ tm) (latest_id_ tm) (running_ tm) (current_level_ tm) (level_changed_ tm) ft fw.

(** Following a [Task*], and [running_[level]]. *)
Definition task (tm : TaskManager) (t : Z) : outcome Task := of_option (tasks_ tm !! t).
Definition set_task (tm : TaskManager) (t : Z) (x : Task) : TaskManager :=
  set_tasks tm (<[t := x]> (tasks_ tm)).

Definition queue (tm : TaskManager) (level : Z) : outcome (list Z) :=
  if level <? 0 then Undef else of_option (running_ tm !! Z.to_nat level).
Definition set_queue (tm : TaskManager) (level : Z) (q : list Z) : TaskManager :=
  set_running tm (<[Z.to_nat level := q]> (running_ tm)).

Definition push_back (tm : TaskManager) (level t : Z) : outcome TaskManager :=
  q ← queue tm level; mret (set_queue tm level (q ++ [t])).
Definition push_front (tm : TaskManager) (level t : Z) : outcome TaskManager :=
  q ← queue tm level; mret (set_queue tm level (t :: q)).

(** [front()] and [pop_front()] of an empty deque are undefined. *)
Definition front (q : list Z) : outcome Z := of_option (head q).
Definition pop_front (q : list Z) : outcome (list Z) := of_option (match q with [] => None | _ :: q => Some q end).

(** [Erase] *)
Definition Erase (q : list Z) (t : Z) : list Z := filter (λ u, u ≠ t) q.

(** What the assembly is asked to do. *)
Inductive switch : Set :=
| NoSwitch
| SwitchContext (next current : Z)
| RestoreContext (next : Z).

Definition CurrentTask (tm : TaskManager) : outcome Z :=
  q ← queue tm (current_level_ tm); front q.

Definition NewTask (tm : TaskManager) : Z * TaskManager :=
  let id := u64 (latest_id_ tm + 1) in
  (id, mkTM (<[id := new_Task id]> (tasks_ tm)) id (running_ tm) (current_level_ tm)
         (level_changed_ tm) (finish_tasks_ tm) (finish_waiter_ tm)).

(** The constructor; [idle_stack] is where the idle task's stack lies. *)
Definition new_TaskManager (cr3 idle_stack TaskIdle : Z) : outcome TaskManager :=
  let tm := mkTM ∅ 0 (replicate (Z.to_nat (kMaxLevel + 1)) []) kMaxLevel false ∅ ∅ in
  let '(id, tm) := NewTask tm in
  t ← task tm id;
  let tm := set_task tm id (SetRunning (SetLevel t (current_level_ tm)) true) in
  tm ← push_back tm (current_level_ tm) id;
  let '(idle, tm) := NewTask tm in
  t ← task tm idle;
  let tm := set_task tm idle
    (SetRunning (SetLevel (InitContext t cr3 idle_stack TaskIdle 0) 0) true) in
  push_back tm 0 idle.

(** [for (lv = n - 1; lv >= 0; --lv)]: the highest level whose queue is not empty,
    or the level kept when all are empty. *)
Fixpoint highest_level (tm : TaskManager) (n : nat) : outcome Z :=
  match n with
  | O => mret (current_level_ tm)
  | S n' =>
      q ← queue tm (Z.of_nat n');
      if bool_decide (q = []) then highest_level tm n' else mret (Z.of_nat n')
  end.

Definition RotateCurrentRunQueue (tm : TaskManager) (current_sleep : bool)
    : outcome (Z * TaskManager) :=
  level_queue ← queue tm (current_level_ tm);
  current_task ← front level_queue;
  level_queue ← pop_front level_queue;
  let level_queue := if current_sleep then level_queue else level_queue ++ [current_task] in
  let tm := set_queue tm (current_level_ tm) level_queue in
  let level_changed := if bool_decide (level_queue = []) then true else level_changed_ tm in
  tm ← (if level_changed : bool then
          lv ← highest_level tm (Z.to_nat (kMaxLevel + 1));
          mret (set_level tm lv false)
        else mret (set_level tm (current_level_ tm) level_changed));
  mret (current_task, tm).

(** [SwitchTask], called by the timer interrupt with the interrupted context. *)
Definition SwitchTask (tm : TaskManager) (current_ctx : TaskContext) : outcome (switch * TaskManager) :=
  c ← CurrentTask tm;
  t ← task tm c;
  let tm := set_task tm c (set_context t current_ctx) in
  '(current_task, tm) ← RotateCurrentRunQueue tm false;
  next ← CurrentTask tm;
  mret (if bool_decide (next ≠ current_task) then RestoreContext next else NoSwitch, tm).

(** [Sleep], given the task *)
Definition Sleep (tm : TaskManager) (p : Z) : outcome (switch * TaskManager) :=
  t ← task tm p;
  if negb (task_running t) then mret (NoSwitch, tm)
  else
    let tm := set_task tm p (SetRunning t false) in
    q ← queue tm (current_level_ tm);
    c ← front q;
    if bool_decide (p = c) then
      '(current_task, tm) ← RotateCurrentRunQueue tm true;
      next ← CurrentTask tm;
      mret (SwitchContext next current_task, tm)
    else
      q ← queue tm (level_ t);
      mret (NoSwitch, set_queue tm (level_ t) (Erase q p)).

(** [Sleep], given an id *)
Definition Sleep_id (tm : TaskManager) (id : Z) : outcome (Code * switch * TaskManager) :=
  match tasks_ tm !! id with
  | None => mret (kNoSuchTask, NoSwitch, tm)
  | Some _ => '(sw, tm) ← Sleep tm id; mret (kSuccess, sw, tm)
  end.

Definition ChangeLevelRunning (tm : TaskManager) (p level : Z) : outcome TaskManager :=
  t ← task tm p;
  if (level <? 0) || (level =? level_ t) then mret tm
  else
    q ← queue tm (current_level_ tm);
    c ← front q;
    if bool_decide (p ≠ c) then
      q ← queue tm (level_ t);
      let tm := set_queue tm (level_ t) (Erase q p) in
      tm ← push_back tm level p;
      mret (set_level tm (current_level_ tm) (if current_level_ tm <? level then true else level_changed_ tm))
    else
      q ← pop_front q;
      let tm := set_queue tm (current_level_ tm) q in
      tm ← push_front tm level p;
      let tm := set_task tm p (SetLevel t level) in
      mret (set_level tm level (if current_level_ tm <=? level then level_changed_ tm else true)).

(** [Wakeup], given the task *)
Definition Wakeup (tm : TaskManager) (p level : Z) : outcome TaskManager :=
  t ← task tm p;
  if task_running t then ChangeLevelRunning tm p level
  else
    let level := if level <? 0 then level_ t else level in
    let tm := set_task tm p (SetRunning (SetLevel t level) true) in
    tm ← push_back tm level p;
    mret (set_level tm (current_level_ tm) (if current_level_ tm <? level then true else level_changed_ tm)).

Definition Wakeup_id (tm : TaskManager) (id level : Z) : outcome (Code * TaskManager) :=
  match tasks_ tm !! id with
  | None => mret (kNoSuchTask, tm)
  | Some _ => tm ← Wakeup tm id level; mret (kSuccess, tm)
  end.

(** [Task::SendMessage] *)
Definition task_SendMessage (tm : TaskManager) (p : Z) (msg : Message) : outcome TaskManager :=
  t ← task tm p;
  Wakeup (set_task tm p (set_msgs t (msgs_ t ++ [msg]))) p (-1).

(** [TaskManager::SendMessage] *)
Definition SendMessage (tm : TaskManager) (id : Z) (msg : Message) : outcome (Code * TaskManager) :=
  match tasks_ tm !! id with
  | None => mret (kNoSuchTask, tm)
  | Some _ => tm ← task_SendMessage tm id msg; mret (kSuccess, tm)
  end.

Definition ReceiveMessage (tm : TaskManager) (p : Z) : outcome (option Message * TaskManager) :=
  t ← task tm p;
  let '(m, t) := task_ReceiveMessage t in mret (m, set_task tm p t).

Definition Finish (tm : TaskManager) (exit_code : Z) : outcome (switch * TaskManager) :=
  '(task_id, tm) ← RotateCurrentRunQueue tm true;
  _ ← task tm task_id;
  let tm := set_tasks tm (delete task_id (tasks_ tm)) in
  let tm := set_finish tm (<[task_id := exit_code]> (finish_tasks_ tm)) (finish_waiter_ tm) in
  tm ← match finish_waiter_ tm !! task_id with
       | Some waiter =>
           Wakeup (set_finish tm (finish_tasks_ tm) (delete task_id (finish_waiter_ tm))) waiter (-1)
       | None => mret tm
       end;
  next ← CurrentTask tm;
  mret (RestoreContext next, tm).

(** One turn of the loop of [WaitFinish], for the task [current_task] that called
    it: the exit code, or registered and asleep until it is scheduled again. *)
Definition WaitFinish_turn (tm : TaskManager) (current_task task_id : Z)
    : outcome (option Z * switch * TaskManager) :=
  match finish_tasks_ tm !! task_id with
  | Some exit_code =>
      mret (Some exit_code, NoSwitch, set_finish tm (delete task_id (finish_tasks_ tm)) (finish_waiter_ tm))
  | None =>
      let tm := set_finish tm (finish_tasks_ tm) (<[task_id := current_task]> (finish_waiter_ tm)) in
      '(sw, tm) ← Sleep tm current_task;
      mret (None, sw, tm)
  end.

Definition TotalTaskCount (tm : TaskManager) : Z := Z.of_nat (size (tasks_ tm)).

Definition RunningTaskCount (tm : TaskManager) : Z :=
  foldl (λ sum x, u64 (sum + Z.of_nat (length x))) 0 (running_ tm).

(** ** The run queues *)
Module QueueFacts.

(** Task [t] is marked as running at level [lv]. *)
Definition runs (tm : TaskManager) (t lv : Z) : Prop :=
  ∃ x, tasks_ tm !! t = Some x ∧ task_running x = true ∧ level_ x = lv.

(** What does not depend on the queues: four levels, existing levels, ids given
    out in order, and an idle task that never sleeps. *)
Record tm_base (idle : Z) (tm : TaskManager) : Prop := {
  base_len : length (running_ tm) = 4%nat;
  base_cur : 0 ≤ current_level_ tm ≤ kMaxLevel;
  base_levels : ∀ t x, tasks_ tm !! t = Some x → 0 ≤ level_ x ≤ kMaxLevel;
  base_ids : ∀ t x, tasks_ tm !! t = Some x → 1 ≤ t ≤ latest_id_ tm ∧ id_ x = t;
  base_latest : 0 ≤ latest_id_ tm;
  base_idle : ∃ lv, runs tm idle lv;
}.

(** Each queue holds exactly the tasks running at its level, once. *)
Definition consistent (tm : TaskManager) : Prop :=
  ∀ lv q, queue tm lv = Done q → NoDup q ∧ ∀ t, t ∈ q ↔ runs tm t lv.

(** The scheduler's invariant: the current level has a task, and unless
    [level_changed_] is set no task runs above it. *)
Record tm_wf (idle : Z) (tm : TaskManager) : Prop := {
  wf_base : tm_base idle tm;
  wf_queues : consistent tm;
  wf_current : ∃ c, runs tm c (current_level_ tm);
  wf_high : level_changed_ tm = false → ∀ t lv, runs tm t lv → lv ≤ current_level_ tm;
}.

Lemma queue_total tm lv : length (running_ tm) = 4%nat → 0 ≤ lv ≤ kMaxLevel → ∃ q, queue tm lv = Done q.
Proof.
  intros Hlen Hlv. unfold queue, kMaxLevel in *. destruct (Z.ltb_spec lv 0); [lia|].
  destruct (lookup_lt_is_Some_2 (running_ tm) (Z.to_nat lv)) as [q ->]; [lia|]. by exists q.
Qed.

Lemma queue_range tm lv q : queue tm lv = Done q → 0 ≤ lv.
Proof. unfold queue. destruct (Z.ltb_spec lv 0); [done|lia]. Qed.

Lemma queue_set_queue tm lv q k : length (running_ tm) = 4%nat → 0 ≤ lv ≤ kMaxLevel →
  queue (set_queue tm lv q) k = if decide (k = lv) then Done q else queue tm k.
Proof.
  unfold kMaxLevel, queue. intros Hlen Hlv. simpl. destruct (Z.ltb_spec k 0).
  - by rewrite decide_False by lia.
  - case_decide as Hk.
    + subst. rewrite list_lookup_insert_eq by lia. done.
    + by rewrite list_lookup_insert_ne by lia.
Qed.

Lemma length_set_queue tm lv q : length (running_ (set_queue tm lv q)) = length (running_ tm).
Proof. apply length_insert. Qed.

Lemma runs_set_task tm p x t lv : runs (set_task tm p x) t lv ↔
  if decide (t = p) then task_running x = true ∧ level_ x = lv else runs tm t lv.
Proof.
  unfold runs. simpl. case_decide as H.
  - subst. rewrite lookup_insert_eq. split; [by intros (y & [= <-] & ?)|by exists x].
  - by rewrite lookup_insert_ne by done.
Qed.

(** The invariant's queue part, for a change of one queue and of the tasks. *)
Lemma consistent_change tm tm' lv q : length (running_ tm) = 4%nat → 0 ≤ lv ≤ kMaxLevel →
  running_ tm' = running_ (set_queue tm lv q) → consistent tm →
  NoDup q → (∀ t, t ∈ q ↔ runs tm' t lv) →
  (∀ t k, k ≠ lv → runs tm' t k ↔ runs tm t k) → consistent tm'.
Proof.
  intros Hlen Hlv Hrun Hc Hnd Hq Hoth k q' Hk.
  assert (Hk' : queue (set_queue tm lv q) k = Done q') by (rewrite <- Hk; unfold queue; by rewrite Hrun).
  rewrite queue_set_queue in Hk' by done. case_decide as Hkl.
  - injection Hk' as <-. by subst.
  - destruct (Hc k q' Hk') as [Hnd' Hq']. split; [done|]. intros t. by rewrite Hq', Hoth.
Qed.

Lemma highest_level_spec tm n : length (running_ tm) = 4%nat → (n ≤ 4)%nat →
  (∃ lv q, 0 ≤ lv < Z.of_nat n ∧ queue tm lv = Done q ∧ q ≠ []) →
  ∃ lv, highest_level tm n = Done lv ∧ 0 ≤ lv ≤ kMaxLevel ∧
    (∃ q, queue tm lv = Done q ∧ q ≠ []) ∧
    ∀ k q, lv < k < Z.of_nat n → queue tm k = Done q → q = [].
Proof.
  intros Hlen. induction n as [|n IH]; intros Hn (lv & q & Hlv & Hq & Hne); [lia|].
  cbn [highest_level]. destruct (queue_total tm (Z.of_nat n)) as [q' Hq']; [done|unfold kMaxLevel; lia|].
  rewrite Hq'. simpl. case_bool_decide as He.
  - destruct IH as (lv' & E & Hr & Hne' & Hab); [lia| |].
    { exists lv, q. split_and!; [lia| |done|done]. destruct (decide (lv = Z.of_nat n)); [|lia]. congruence. }
    exists lv'. split_and!; [done|lia|lia|done|]. intros k qk Hk Hqk.
    destruct (decide (k = Z.of_nat n)) as [->|]; [congruence|]. apply (Hab k); [lia|done].
  - exists (Z.of_nat n). split_and!; [done|lia|unfold kMaxLevel; lia|by exists q'|]. intros k qk Hk. lia.
Qed.

(** [RotateCurrentRunQueue] leaves the highest level that has a task current. *)
Lemma rotate_spec tm sleep c q : length (running_ tm) = 4%nat → 0 ≤ current_level_ tm ≤ kMaxLevel →
  queue tm (current_level_ tm) = Done (c :: q) →
  let tm1 := set_queue tm (current_level_ tm) (if sleep : bool then q else q ++ [c]) in
  (∃ lv q, queue tm1 lv = Done q ∧ q ≠ []) →
  (level_changed_ tm = false → ∀ lv q, current_level_ tm < lv → queue tm lv = Done q → q = []) →
  ∃ lv, RotateCurrentRunQueue tm sleep = Done (c, set_level tm1 lv false) ∧
    0 ≤ lv ≤ kMaxLevel ∧ (∃ q, queue tm1 lv = Done q ∧ q ≠ []) ∧
    (∀ k q, lv < k → queue tm1 k = Done q → q = []) ∧
    (lv = current_level_ tm ∨ level_changed_ tm = true ∨ (sleep = true ∧ q = [])).
Proof.
  intros Hlen Hcur Hq tm1 Hne Hhigh. set (q' := if sleep then q else q ++ [c]) in *.
  unfold RotateCurrentRunQueue. change (Z.to_nat (kMaxLevel + 1)) with 4%nat.
  rewrite Hq. cbn [mbind outcome_bind front pop_front of_option head]. fold q'. cbv zeta. fold tm1.
  change (level_changed_ tm1) with (level_changed_ tm). change (current_level_ tm1) with (current_level_ tm).
  assert (Hlen1 : length (running_ tm1) = 4%nat) by (unfold tm1; by rewrite length_set_queue).
  assert (Hq1 : queue tm1 (current_level_ tm) = Done q') by (unfold tm1; by rewrite queue_set_queue, decide_True by done).
  assert (Hbound : ∀ k qk, queue tm1 k = Done qk → 0 ≤ k < 4).
  { intros k qk Hk. pose proof (queue_range _ _ _ Hk). unfold queue in Hk.
    destruct (k <? 0); [done|]. apply of_option_Done, lookup_lt_Some in Hk. lia. }
  assert (Hscan : ∃ lv, highest_level tm1 4 = Done lv ∧ 0 ≤ lv ≤ kMaxLevel ∧
      (∃ q, queue tm1 lv = Done q ∧ q ≠ []) ∧ ∀ k q, lv < k → queue tm1 k = Done q → q = []).
  { destruct (highest_level_spec tm1 4 Hlen1 ltac:(lia)) as (lv & E & Hr & Hn & Hab).
    - destruct Hne as (lv & qq & Hqq & Hnn). exists lv, qq. split; [|done]. by apply (Hbound _ qq).
    - exists lv. split_and!; [done|lia|lia|done|]. intros k qk Hk Hqk. apply (Hab k); [|done].
      pose proof (Hbound k qk Hqk). lia. }
  case_bool_decide as Hemp.
  - destruct Hscan as (lv & E & Hr & Hn & Hab).
    rewrite E. cbn [mbind outcome_bind].
    exists lv. split_and!; [done|lia|lia|done|done|]. right. right. unfold q' in Hemp. destruct sleep; [done|].
    by destruct q.
  - destruct (level_changed_ tm) eqn:Hch.
    + destruct Hscan as (lv & E & Hr & Hn & Hab). rewrite E. cbn [mbind outcome_bind].
      exists lv. split_and!; [done|lia|lia|done|done|]. right. by left.
    + simpl. exists (current_level_ tm). split_and!; [done|lia|lia|by exists q'| |by left].
      intros k qk Hk Hqk. unfold tm1 in Hqk. rewrite queue_set_queue, decide_False in Hqk by (done || lia).
      by apply (Hhigh eq_refl k).
Qed.

Lemma wf_front idle tm : tm_wf idle tm → ∃ c q, queue tm (current_level_ tm) = Done (c :: q) ∧
  CurrentTask tm = Done c ∧ runs tm c (current_level_ tm).
Proof.
  intros [Hb Hc (c0 & Hr) _]. destruct (queue_total tm (current_level_ tm)) as [q Hq]; [apply Hb..|].
  destruct (Hc _ _ Hq) as [_ Hin]. destruct q as [|c q]; [by apply Hin, not_elem_of_nil in Hr|].
  exists c, q. split; [done|]. split; [unfold CurrentTask; by rewrite Hq|]. apply Hin, list_elem_of_here.
Qed.

Lemma wf_high_queue idle tm : tm_wf idle tm → level_changed_ tm = false →
  ∀ lv q, current_level_ tm < lv → queue tm lv = Done q → q = [].
Proof.
  intros [_ Hc _ Hh] Hch lv q Hlv Hq. destruct (Hc _ _ Hq) as [_ Hin]. destruct q as [|t q]; [done|].
  specialize (Hh Hch t lv (proj1 (Hin t) (list_elem_of_here _ _))). lia.
Qed.

Lemma rotate_wf idle tm sleep c q : tm_base idle tm → queue tm (current_level_ tm) = Done (c :: q) →
  let tm1 := set_queue tm (current_level_ tm) (if sleep : bool then q else q ++ [c]) in
  consistent tm1 →
  (level_changed_ tm = false → ∀ lv q, current_level_ tm < lv → queue tm lv = Done q → q = []) →
  ∃ lv, RotateCurrentRunQueue tm sleep = Done (c, set_level tm1 lv false) ∧
    tm_wf idle (set_level tm1 lv false) ∧
    (lv = current_level_ tm ∨ level_changed_ tm = true ∨ (sleep = true ∧ q = [])).
Proof.
  intros Hb Hq tm1 Hc Hhigh. pose proof (base_idle _ _ Hb) as (li & Hi).
  assert (Hlen1 : length (running_ tm1) = 4%nat) by (unfold tm1; rewrite length_set_queue; apply Hb).
  assert (Hli : 0 ≤ li ≤ kMaxLevel).
  { destruct Hi as (x & Hx & _ & <-). by apply (base_levels _ _ Hb idle). }
  destruct (rotate_spec tm sleep c q) as (lv & E & Hr & (ql & Hql & Hne) & Hab & Hlv); [apply Hb..|done| |done|].
  { destruct (queue_total tm1 li) as [qi Hqi]; [done..|]. exists li, qi. split; [done|].
    destruct (Hc _ _ Hqi) as [_ Hin]. intros ->. apply (not_elem_of_nil idle), Hin, Hi. }
  exists lv. split; [done|]. split; [|done]. split.
  - split; try apply Hb; [done|done].
  - exact Hc.
  - destruct ql as [|t ql]; [done|]. exists t. destruct (Hc _ _ Hql) as [_ Hin]. apply Hin, list_elem_of_here.
  - intros _ t k Hk. destruct (Z.le_gt_cases k lv) as [|Hgt]; [done|].
    assert (0 ≤ k ≤ kMaxLevel) by (destruct Hk as (x & Hx & _ & <-); by apply (base_levels _ _ Hb t)).
    destruct (queue_total tm1 k) as [qk Hqk]; [done..|]. destruct (Hc _ _ Hqk) as [_ Hin].
    rewrite (Hab k qk) in Hin by done. by apply Hin, not_elem_of_nil in Hk.
Qed.
End QueueFacts.

(** ** Every operation keeps the invariant *)
Module SchedFacts.
Import QueueFacts.

Lemma task_lookup tm p t : task tm p = Done t ↔ tasks_ tm !! p = Some t.
Proof. apply of_option_Done. Qed.

(** Replacing a task by one with the same id, run state and level. *)
Lemma set_task_runs tm p x y t lv : tasks_ tm !! p = Some x →
  task_running y = task_running x → level_ y = level_ x → runs (set_task tm p y) t lv ↔ runs tm t lv.
Proof.
  intros Hx Hr Hl. rewrite runs_set_task. case_decide; [subst|done]. unfold runs. rewrite Hr, Hl.
  split; [by exists x|]. intros (x' & Hx' & ?). by simplify_eq.
Qed.

Lemma set_task_base idle tm p x y : tm_base idle tm → tasks_ tm !! p = Some x → id_ y = p →
  0 ≤ level_ y ≤ kMaxLevel → (p = idle → task_running y = true) → tm_base idle (set_task tm p y).
Proof.
  intros [B1 B2 B3 B4 B5 (li & B6)] Hx Hid Hlv Hidle. split; simpl; try done.
  - intros t z. rewrite lookup_insert. case_decide; [intros [= <-]; done|apply B3].
  - intros t z. rewrite lookup_insert. case_decide; [|apply B4]. intros [= <-]. subst. split; [|done]. by apply (B4 _ x).
  - destruct (decide (idle = p)) as [->|].
    + exists (level_ y). apply runs_set_task. rewrite decide_True by done. auto.
    + exists li. apply runs_set_task. by rewrite decide_False.
Qed.

Lemma set_task_same_wf idle tm p x y : tm_wf idle tm → tasks_ tm !! p = Some x → id_ y = p →
  task_running y = task_running x → level_ y = level_ x → tm_wf idle (set_task tm p y).
Proof.
  intros [Hb Hc (c & Hcur) Hh] Hx Hid Hr Hl.
  pose proof (λ t lv, set_task_runs tm p x y t lv Hx Hr Hl) as Hruns. split.
  - apply (set_task_base _ _ _ x); [done..| |].
    + rewrite Hl. by apply (base_levels _ _ Hb p).
    + intros ->. rewrite Hr. destruct (base_idle _ _ Hb) as (li & z & Hz & ? & _). by simplify_eq.
  - intros lv q Hq. destruct (Hc lv q Hq) as [Hnd Hin]. split; [done|]. intros t. by rewrite Hruns.
  - exists c. by apply Hruns.
  - intros Hch t lv Ht. apply (Hh Hch t). by apply Hruns.
Qed.

(** [SwitchTask] saves the interrupted context and turns the current queue. *)
Lemma SwitchTask_wf idle tm ctx : tm_wf idle tm →
  ∃ c q x lv next, queue tm (current_level_ tm) = Done (c :: q) ∧ tasks_ tm !! c = Some x ∧
    let tm' := set_level (set_queue (set_task tm c (set_context x ctx)) (current_level_ tm) (q ++ [c])) lv false in
    SwitchTask tm ctx = Done (if bool_decide (next ≠ c) then RestoreContext next else NoSwitch, tm') ∧
    CurrentTask tm' = Done next ∧ tm_wf idle tm' ∧
    (level_changed_ tm = false → lv = current_level_ tm).
Proof.
  intros Hwf. destruct (wf_front _ _ Hwf) as (c & q & Hq & Hcur & (x & Hx & Hrun & Hlv)).
  set (tm1 := set_task tm c (set_context x ctx)).
  assert (Hid : id_ (set_context x ctx) = c) by by apply (base_ids _ _ (wf_base _ _ Hwf) c x Hx).
  assert (Hwf1 : tm_wf idle tm1) by by apply (set_task_same_wf _ _ _ x).
  destruct (rotate_wf idle tm1 false c q (wf_base _ _ Hwf1) Hq) as (lv & E & Hwf' & Hch).
  - destruct (wf_queues _ _ Hwf1 _ _ Hq) as [Hnd Hin].
    apply (consistent_change tm1 _ (current_level_ tm) (q ++ [c])); [apply Hwf1|apply Hwf1|done|apply Hwf1| | |done].
    + rewrite Permutation_app_comm. exact Hnd.
    + intros t. transitivity (t ∈ c :: q); [|apply Hin].
      rewrite elem_of_app, list_elem_of_singleton, elem_of_cons. tauto.
  - apply (wf_high_queue _ _ Hwf1).
  - destruct (wf_front _ _ Hwf') as (next & q2 & _ & Hnext & _).
    exists c, q, x, lv, next. split; [done|]. split; [done|]. cbv zeta.
    change (set_level _ lv false) with (set_level (set_queue tm1 (current_level_ tm1) (q ++ [c])) lv false).
    split; [|split; [done|split; [done|]]].
    + unfold SwitchTask. rewrite Hcur. cbn [mbind outcome_bind]. rewrite (proj2 (task_lookup tm c x)) by done.
      cbn [mbind outcome_bind]. cbv zeta. fold tm1. rewrite E. cbn [mbind outcome_bind]. by rewrite Hnext.
    + intros H. change (level_changed_ tm1) with (level_changed_ tm) in Hch.
      change (current_level_ tm1) with (current_level_ tm) in Hch. destruct Hch as [?|[?|[? _]]]; congruence.
Qed.

Lemma elem_of_Erase q p t : t ∈ Erase q p ↔ t ∈ q ∧ t ≠ p.
Proof. unfold Erase. rewrite list_elem_of_filter. tauto. Qed.

Lemma NoDup_Erase q p : NoDup q → NoDup (Erase q p).
Proof. apply NoDup_filter. Qed.

(** Putting the task [p] to sleep, when it is not the idle task. *)
Lemma Sleep_wf idle tm p x : tm_wf idle tm → tasks_ tm !! p = Some x → p ≠ idle →
  ∃ sw tm', Sleep tm p = Done (sw, tm') ∧ tm_wf idle tm' ∧
    tasks_ tm' = (if task_running x then <[p := SetRunning x false]> (tasks_ tm) else tasks_ tm) ∧
    finish_tasks_ tm' = finish_tasks_ tm ∧ finish_waiter_ tm' = finish_waiter_ tm ∧
    (if bool_decide (task_running x = true ∧ CurrentTask tm = Done p)
     then ∃ next, CurrentTask tm' = Done next ∧ sw = SwitchContext next p ∧ next ≠ p
     else sw = NoSwitch ∧ CurrentTask tm' = CurrentTask tm).
Proof.
  intros Hwf Hx Hidle. destruct (wf_front _ _ Hwf) as (c & q & Hq & Hcur & Hc).
  pose proof Hwf as [Hb Hcons _ Hh].
  unfold Sleep. rewrite (proj2 (task_lookup tm p x)) by done. cbn [mbind outcome_bind].
  destruct (task_running x) eqn:Hr; cbn [negb].
  2: { exists NoSwitch, tm. rewrite bool_decide_eq_false_2 by (intros [? _]; done). done. }
  set (tm1 := set_task tm p (SetRunning x false)).
  assert (Hlx : 0 ≤ level_ x ≤ kMaxLevel) by by apply (base_levels _ _ Hb p).
  assert (Hb1 : tm_base idle tm1).
  { apply (set_task_base _ _ _ x); [done|done| |done|done]. by apply (base_ids _ _ Hb p x). }
  assert (Hruns : ∀ t lv, runs tm1 t lv ↔ runs tm t lv ∧ t ≠ p).
  { intros t lv. unfold tm1. rewrite runs_set_task. case_decide; [subst; simpl; naive_solver|tauto]. }
  assert (Hpx : runs tm p (level_ x)) by by exists x.
  assert (Hplv : ∀ lv, runs tm p lv → lv = level_ x) by (intros lv (y & Hy & _ & <-); congruence).
  change (current_level_ tm1) with (current_level_ tm).
  assert (Hq1 : queue tm1 (current_level_ tm) = Done (c :: q)) by done.
  rewrite Hq1. cbn [mbind outcome_bind front of_option head].
  case_bool_decide as Hpc.
  - subst c. destruct (Hcons _ _ Hq) as [[Hnin Hnd]%NoDup_cons Hin].
    assert (Hlv : level_ x = current_level_ tm) by (symmetry; by apply Hplv).
    destruct (rotate_wf idle tm1 true p q Hb1 Hq1) as (lv & E & Hwf' & _).
    + apply (consistent_change tm _ (current_level_ tm) q); [apply Hb|apply Hb|done|done|done| |].
      * intros t. transitivity (t ∈ p :: q ∧ t ≠ p); [rewrite elem_of_cons; naive_solver|].
        rewrite Hin. symmetry. apply Hruns.
      * intros t k Hk. transitivity (runs tm t k ∧ t ≠ p); [apply Hruns|]. split; [tauto|]. intros Ht.
        split; [done|]. intros ->. apply Hplv in Ht. congruence.
    + apply (wf_high_queue _ _ Hwf).
    + rewrite E. cbn [mbind outcome_bind]. destruct (wf_front _ _ Hwf') as (next & q2 & _ & Hnext & Hn).
      rewrite Hnext. cbn [mbind outcome_bind]. eexists _, _. split; [reflexivity|]. split; [done|].
      split; [done|]. split; [done|]. split; [done|].
      rewrite bool_decide_eq_true_2 by done. exists next. split_and!; [done|done|].
      assert (Hn' : runs tm1 next lv) by exact Hn. apply Hruns in Hn'. tauto.
  - destruct (queue_total tm1 (level_ x)) as [qx Hqx]; [apply Hb1|done|]. rewrite Hqx. cbn [mbind outcome_bind].
    destruct (Hcons (level_ x) qx Hqx) as [Hndx Hinx].
    eexists _, _. split; [reflexivity|].
    assert (Hc1 : consistent (set_queue tm1 (level_ x) (Erase qx p))).
    { apply (consistent_change tm _ (level_ x) (Erase qx p)); [apply Hb|done|done|done|by apply NoDup_Erase| |].
      - intros t. rewrite elem_of_Erase, Hinx. symmetry. apply Hruns.
      - intros t k Hk. transitivity (runs tm t k ∧ t ≠ p); [apply Hruns|]. split; [tauto|]. intros Ht.
        split; [done|]. intros ->. apply Hplv in Ht. congruence. }
    split_and!; [split|done..|].
    + destruct Hb1 as [B1 B2 B3 B4 B5 B6]. split; try done. by rewrite length_set_queue.
    + done.
    + exists c. change (runs tm1 c (current_level_ tm)). apply Hruns. done.
    + intros Hch t lv Ht. apply (Hh Hch t). change (runs tm1 t lv) in Ht. by apply Hruns in Ht as [].
    + rewrite bool_decide_eq_false_2 by (rewrite Hcur; intros [_ ?]; congruence). split; [done|].
      unfold CurrentTask. cbn [current_level_ set_queue set_running set_task set_tasks tm1].
      rewrite queue_set_queue by (done || apply Hb1). rewrite Hq.
      case_decide as Hl; [|by rewrite Hq1]. rewrite Hl, Hq1 in *. simplify_eq. simpl.
      unfold Erase. rewrite filter_cons_True by done. done.
Qed.

(** Waking a task up, at its own level or at a given one. *)
Lemma Wakeup_wf idle tm p x level : tm_wf idle tm → tasks_ tm !! p = Some x → level ≤ kMaxLevel →
  (task_running x = true → level < 0 ∨ level = level_ x) →
  ∃ tm', Wakeup tm p level = Done tm' ∧ tm_wf idle tm' ∧
    tasks_ tm' = <[p := SetRunning (SetLevel x (if level <? 0 then level_ x else level)) true]> (tasks_ tm) ∧
    CurrentTask tm' = CurrentTask tm ∧ finish_tasks_ tm' = finish_tasks_ tm ∧
    finish_waiter_ tm' = finish_waiter_ tm.
Proof.
  intros Hwf Hx Hmax Hlevel. destruct (wf_front _ _ Hwf) as (c & q & Hq & Hcur & Hc).
  pose proof Hwf as [Hb Hcons _ Hh].
  unfold Wakeup. rewrite (proj2 (task_lookup tm p x)) by done. cbn [mbind outcome_bind].
  assert (Hlx : 0 ≤ level_ x ≤ kMaxLevel) by by apply (base_levels _ _ Hb p).
  destruct (task_running x) eqn:Hr.
  - unfold ChangeLevelRunning. rewrite (proj2 (task_lookup tm p x)) by done. cbn [mbind outcome_bind].
    assert ((level <? 0) || (level =? level_ x) = true) as ->
      by (destruct (Hlevel eq_refl); bool_cases; simpl; lia || done).
    exists tm. split_and!; [done|done| |done..]. rewrite insert_id; [done|]. rewrite Hx. f_equal.
    assert (Hl : (if level <? 0 then level_ x else level) = level_ x)
      by (destruct (Hlevel eq_refl); destruct (Z.ltb_spec level 0); lia).
    rewrite Hl. destruct x; simpl in *; by rewrite Hr.
  - cbv zeta. set (lv := if level <? 0 then level_ x else level). set (y := SetRunning (SetLevel x lv) true).
    assert (Hlv : 0 ≤ lv ≤ kMaxLevel) by (unfold lv; destruct (Z.ltb_spec level 0); lia).
    set (tm1 := set_task tm p y).
    assert (Hruns : ∀ t k, runs tm1 t k ↔ (t = p ∧ k = lv) ∨ (t ≠ p ∧ runs tm t k)).
    { intros t k. unfold tm1. rewrite runs_set_task. case_decide; simpl; intuition congruence. }
    assert (Hnp : ∀ k, ¬ runs tm p k) by (intros k (z & Hz & Hrz & _); congruence).
    destruct (queue_total tm1 lv) as [ql Hql]; [apply Hb|done|]. unfold push_back. rewrite Hql. cbn [mbind outcome_bind].
    destruct (Hcons lv ql Hql) as [Hnd Hin]. eexists. split; [reflexivity|].
    assert (Hc1 : consistent (set_queue tm1 lv (ql ++ [p]))).
    { apply (consistent_change tm _ lv (ql ++ [p])); [apply Hb|done|done|done| | |].
      - apply NoDup_app. split_and!; [done| |apply NoDup_singleton].
        intros t Ht ->%list_elem_of_singleton. by apply Hin, Hnp in Ht.
      - intros t. rewrite elem_of_app, list_elem_of_singleton, Hin.
        transitivity (runs tm1 t lv); [|done]. rewrite Hruns. split; [|tauto].
        intros [Ht| ->]; [|by left]. right. split; [|done]. intros ->. by apply Hnp in Ht.
      - intros t k Hk. transitivity (runs tm1 t k); [done|]. rewrite Hruns. split.
        + intros [[_ ->]|[_ ?]]; done.
        + intros Ht. right. split; [|done]. intros ->. by apply Hnp in Ht. }
    split_and!; [split|done|..|done|done].
    + destruct (set_task_base idle tm p x y Hb Hx) as [B1 B2 B3 B4 B5 B6]; [|done|done|].
      { exact (proj2 (base_ids _ _ Hb p x Hx)). }
      split; try done. by rewrite <- B1; apply (length_set_queue tm1).
    + done.
    + exists c. change (runs tm1 c (current_level_ tm)). apply Hruns. right. split; [|done].
      intros ->. by apply Hnp in Hc.
    + intros Hch t k Ht. change (runs tm1 t k) in Ht. simpl in Hch |- *.
      destruct (Z.ltb_spec (current_level_ tm) lv); [done|].
      apply Hruns in Ht as [[_ ->]|[_ Ht]]; [done|]. by apply (Hh Hch t).
    + unfold CurrentTask. cbn [current_level_ set_level].
      change (queue (set_level ?a _ _) ?k) with (queue a k).
      change (current_level_ (set_queue tm1 lv (ql ++ [p]))) with (current_level_ tm).
      rewrite queue_set_queue by (done || apply Hb). case_decide as Hl.
      * rewrite <- Hl in Hql. assert (ql = c :: q) as -> by (change (queue tm1 (current_level_ tm)) with (queue tm (current_level_ tm)) in Hql; congruence).
        by rewrite Hq.
      * done.
Qed.

(** Moving the current task itself to another level: it stays current. *)
Lemma ChangeLevelRunning_current_wf idle tm p x level : tm_wf idle tm → tasks_ tm !! p = Some x →
  CurrentTask tm = Done p → 0 ≤ level ≤ kMaxLevel → level ≠ level_ x →
  ∃ tm', ChangeLevelRunning tm p level = Done tm' ∧ tm_wf idle tm' ∧
    tasks_ tm' = <[p := SetLevel x level]> (tasks_ tm) ∧ CurrentTask tm' = Done p ∧
    finish_tasks_ tm' = finish_tasks_ tm ∧ finish_waiter_ tm' = finish_waiter_ tm.
Proof.
  intros Hwf Hx Hcp Hlevel Hne. destruct (wf_front _ _ Hwf) as (c & q & Hq & Hcur & (x' & Hx' & Hr & Hlx)).
  assert (c = p) as -> by congruence. simplify_eq. pose proof Hwf as [Hb Hcons _ Hh].
  unfold ChangeLevelRunning. rewrite (proj2 (task_lookup tm p x)) by done. cbn [mbind outcome_bind].
  assert ((level <? 0) || (level =? level_ x) = false) as -> by (bool_cases; simpl; lia || done).
  rewrite Hq. cbn [mbind outcome_bind front of_option head pop_front].
  rewrite bool_decide_eq_false_2 by tauto. cbn [mbind outcome_bind].
  assert (Hlen : length (running_ tm) = 4%nat) by apply Hb.
  assert (Hcr : 0 ≤ current_level_ tm ≤ kMaxLevel) by apply Hb.
  set (tm1 := set_queue tm (current_level_ tm) q).
  destruct (queue_total tm1 level) as [ql Hql]; [unfold tm1; by rewrite length_set_queue|done|].
  unfold push_front. rewrite Hql. cbn [mbind outcome_bind]. eexists. split; [reflexivity|].
  set (y := SetLevel x level). set (tm2 := set_task (set_queue tm1 level (p :: ql)) p y).
  assert (Hql' : queue tm level = Done ql).
  { unfold tm1 in Hql. rewrite queue_set_queue, decide_False in Hql by (done || congruence). done. }
  assert (Hq2 : ∀ k, queue tm2 k =
    if decide (k = level) then Done (p :: ql) else if decide (k = current_level_ tm) then Done q else queue tm k).
  { intros k. transitivity (queue (set_queue tm1 level (p :: ql)) k); [done|].
    rewrite queue_set_queue by (unfold tm1; rewrite ?length_set_queue; done).
    case_decide; [done|]. unfold tm1. by rewrite queue_set_queue. }
  assert (Hruns : ∀ t k, runs tm2 t k ↔ (t = p ∧ k = level) ∨ (t ≠ p ∧ runs tm t k)).
  { intros t k. unfold tm2. rewrite runs_set_task. case_decide; simpl; [|tauto].
    subst. rewrite Hr. naive_solver. }
  destruct (Hcons _ _ Hq) as [[Hnin Hnd]%NoDup_cons Hin]. destruct (Hcons _ _ Hql') as [Hndl Hinl].
  assert (Hpl : p ∉ ql) by (rewrite Hinl; intros (z & Hz & _ & Hlz); congruence).
  assert (Hc2 : consistent tm2).
  { intros k qk Hk. rewrite Hq2 in Hk. case_decide as Hkl; [|case_decide as Hkc].
    - injection Hk as <-. subst k. split; [by apply NoDup_cons|]. intros t. rewrite Hruns, elem_of_cons, Hinl.
      split; [|tauto]. intros [?|Ht]; [by left|]. right. split; [|done]. intros ->. by apply Hinl in Ht.
    - injection Hk as <-. subst k. split; [done|]. intros t. rewrite Hruns.
      transitivity (t ∈ p :: q ∧ t ≠ p); [rewrite elem_of_cons; split; [intros Ht; split; [tauto|congruence]|tauto]|].
      rewrite Hin. split; [tauto|]. intros [[_ ?]|?]; [lia|tauto].
    - destruct (Hcons k qk Hk) as [Hndk Hink]. split; [done|]. intros t. rewrite Hruns, Hink. split.
      + intros Ht. right. split; [|done]. intros ->. destruct Ht as (z & Hz & _ & <-). congruence.
      + intros [[_ ?]|[_ ?]]; [lia|done]. }
  split_and!; [split|done|..|done|done].
  - destruct (set_task_base idle tm p x y Hb Hx) as [B1 B2 B3 B4 B5 B6]; [|done|done|].
    { exact (proj2 (base_ids _ _ Hb p x Hx)). }
    split; try done. simpl. by rewrite !length_insert.
  - exact Hc2.
  - exists p. apply Hruns. by left.
  - intros Hch t k Ht. change (runs tm2 t k) in Ht. simpl in Hch |- *.
    apply Hruns in Ht as [[_ ->]|[_ Ht]]; [done|].
    destruct (Z.leb_spec (current_level_ tm) level); [|done]. specialize (Hh Hch t k Ht). lia.
  - unfold CurrentTask. change (queue (set_level _ _ _) _) with (queue tm2 level). by rewrite Hq2, decide_True.
Qed.

Lemma NewTask_wf idle tm : tm_wf idle tm → latest_id_ tm + 1 < 2 ^ 64 →
  let '(id, tm') := NewTask tm in
  id = latest_id_ tm + 1 ∧ tasks_ tm !! id = None ∧ tasks_ tm' = <[id := new_Task id]> (tasks_ tm) ∧
  tm_wf idle tm' ∧ CurrentTask tm' = CurrentTask tm.
Proof.
  intros [Hb Hc (c & Hcur) Hh] Hlt. pose proof (base_latest _ _ Hb). cbn [NewTask].
  rewrite wrap_small by lia. set (id := latest_id_ tm + 1) in *.
  assert (Hnone : tasks_ tm !! id = None).
  { destruct (tasks_ tm !! id) eqn:E; [|done]. apply (base_ids _ _ Hb) in E. lia. }
  split_and!; [done|done|done| |done]. set (tm' := mkTM _ _ _ _ _ _ _).
  assert (Hruns : ∀ t lv, runs tm' t lv ↔ runs tm t lv).
  { intros t lv. transitivity (runs (set_task tm id (new_Task id)) t lv); [done|]. rewrite runs_set_task.
    case_decide; subst; [|done]. simpl. unfold runs. rewrite Hnone. naive_solver. }
  split; [|intros lv q Hq; destruct (Hc lv q Hq) as [? Hin]; split; [done|intros t; by rewrite Hruns]
    |exists c; by apply Hruns|intros Hch t lv Ht; apply (Hh Hch t); by apply Hruns].
  destruct Hb as [B1 B2 B3 B4 B5 (li & B6)]. split; simpl; try done.
  - intros t x. rewrite lookup_insert. case_decide; [intros [= <-]; simpl; unfold kDefaultLevel, kMaxLevel; lia|apply B3].
  - intros t x. rewrite lookup_insert. case_decide; [intros [= <-]; simpl; lia|].
    intros Ht. destruct (B4 t x Ht). split; [lia|done].
  - lia.
  - exists li. by apply Hruns.
Qed.

(** The current task ends. *)
Lemma Finish_wf idle tm c code : tm_wf idle tm → CurrentTask tm = Done c → c ≠ idle →
  (∀ w, finish_waiter_ tm !! c = Some w → w ≠ c ∧ is_Some (tasks_ tm !! w)) →
  ∃ next tm', Finish tm code = Done (RestoreContext next, tm') ∧ tm_wf idle tm' ∧
    CurrentTask tm' = Done next ∧ tasks_ tm' !! c = None ∧
    finish_tasks_ tm' = <[c := code]> (finish_tasks_ tm) ∧
    finish_waiter_ tm' = delete c (finish_waiter_ tm) ∧
    (∀ t, t ≠ c → finish_waiter_ tm !! c ≠ Some t → tasks_ tm' !! t = tasks_ tm !! t) ∧
    (∀ w, finish_waiter_ tm !! c = Some w → ∃ x, tasks_ tm !! w = Some x ∧
       tasks_ tm' !! w = Some (SetRunning x true)).
Proof.
  intros Hwf Hcc Hidle Hwait. destruct (wf_front _ _ Hwf) as (c' & q & Hq & Hcur & (x & Hx & Hr & Hlx)).
  assert (c' = c) as -> by congruence. pose proof Hwf as [Hb Hcons _ _].
  (* the rotation does not look at the tasks: erase the task first *)
  set (tm0 := set_tasks tm (delete c (tasks_ tm))).
  assert (Hruns : ∀ t lv, runs tm0 t lv ↔ runs tm t lv ∧ t ≠ c).
  { intros t lv. unfold runs, tm0. simpl. destruct (decide (t = c)) as [->|Hne].
    - rewrite lookup_delete_eq. naive_solver.
    - rewrite lookup_delete_ne by done. tauto. }
  assert (Hb0 : tm_base idle tm0).
  { destruct Hb as [B1 B2 B3 B4 B5 (li & B6)]. split; simpl; try done.
    - intros t y [_ Hy]%lookup_delete_Some. by apply (B3 t).
    - intros t y [_ Hy]%lookup_delete_Some. by apply (B4 t).
    - exists li. apply Hruns. split; [done|congruence]. }
  destruct (Hcons _ _ Hq) as [[Hnin Hnd]%NoDup_cons Hin].
  destruct (rotate_wf idle tm0 true c q Hb0 Hq) as (lv & E & Hwf1 & _).
  { apply (consistent_change tm _ (current_level_ tm) q); [apply Hb|apply Hb|done|done|done| |].
    - intros t. transitivity (t ∈ c :: q ∧ t ≠ c); [rewrite elem_of_cons; split; [intros Ht; split; [tauto|congruence]|tauto]|].
      rewrite Hin. symmetry. apply Hruns.
    - intros t k Hk. transitivity (runs tm t k ∧ t ≠ c); [apply Hruns|]. split; [tauto|]. intros Ht.
      split; [done|]. intros ->. destruct Ht as (z & Hz & _ & <-). congruence. }
  { apply (wf_high_queue _ _ Hwf). }
  assert (Hrot : RotateCurrentRunQueue tm true =
    Done (c, set_level (set_queue tm (current_level_ tm) q) lv false)).
  { assert (Hscan : ∀ n a b, running_ a = running_ b → current_level_ a = current_level_ b →
      highest_level a n = highest_level b n).
    { intros n a b H1 H2. induction n as [|n IH]; cbn [highest_level]; [by rewrite H2|].
      unfold queue. rewrite H1, IH. done. }
    revert E. unfold RotateCurrentRunQueue. change (queue tm0 (current_level_ tm0)) with (queue tm (current_level_ tm)).
    rewrite Hq. cbn [mbind outcome_bind front of_option head pop_front].
    rewrite (Hscan _ (set_queue tm (current_level_ tm) q) (set_queue tm0 (current_level_ tm0) q)) by done.
    change (level_changed_ (set_queue tm0 _ q)) with (level_changed_ (set_queue tm (current_level_ tm) q)).
    assert (Hinj : ∀ z, Done (c, set_level (set_queue tm0 (current_level_ tm0) q) z false) =
        Done (c, set_level (set_queue tm0 (current_level_ tm0) q) lv false) → z = lv).
    { intros z Ez. by apply (f_equal (λ o, match o with Done (_, t) => current_level_ t | _ => 0 end)) in Ez. }
    destruct (if bool_decide _ then _ else _).
    - destruct (highest_level _ _); try done. cbn [mbind outcome_bind]. by intros ->%Hinj.
    - cbn [mbind outcome_bind]. by intros <-%Hinj. }
  unfold Finish. rewrite Hrot. cbn [mbind outcome_bind].
  change (task (set_level _ lv false) c) with (task tm c). rewrite (proj2 (task_lookup tm c x)) by done.
  cbn [mbind outcome_bind]. cbv zeta.
  set (tm2 := set_finish _ (<[c:=code]> _) _).
  assert (Hset : ∀ fw, tm_wf idle (set_finish tm2 (finish_tasks_ tm2) fw)).
  { intros fw. destruct Hwf1 as [[] ? ? ?]. split; [split|..]; done. }
  change (finish_waiter_ tm2) with (finish_waiter_ tm).
  destruct (finish_waiter_ tm !! c) as [w|] eqn:Hw.
  - destruct (Hwait w eq_refl) as [Hwc [xw Hxw]].
    assert (Hxw2 : tasks_ (set_finish tm2 (finish_tasks_ tm2) (delete c (finish_waiter_ tm))) !! w = Some xw).
    { simpl. by rewrite lookup_delete_ne by done. }
    destruct (Wakeup_wf idle _ w xw (-1) (Hset _) Hxw2) as (tm3 & E3 & Hwf3 & Ht3 & Hc3 & Hf3 & Hfw3);
      [unfold kMaxLevel; lia|left; lia|]. rewrite E3. cbn [mbind outcome_bind].
    destruct (wf_front _ _ Hwf3) as (next & q3 & _ & Hn3 & _). rewrite Hn3. cbn [mbind outcome_bind].
    exists next, tm3. change (-1 <? 0) with true in Ht3. cbv iota in Ht3.
    split_and!; [done|done|done| |by rewrite Hf3|by rewrite Hfw3|..].
    + rewrite Ht3. simpl. by rewrite lookup_insert_ne, lookup_delete_eq by done.
    + intros t Htc Htw. rewrite Ht3. simpl. rewrite lookup_insert_ne, lookup_delete_ne by congruence. done.
    + intros w' [= <-]. exists xw. split; [done|]. rewrite Ht3, lookup_insert_eq. by destruct xw.
  - cbn [mbind outcome_bind]. specialize (Hset (finish_waiter_ tm)). 
    destruct (wf_front _ _ Hset) as (next & q3 & _ & Hn3 & _).
    assert (Hn4 : CurrentTask tm2 = Done next) by exact Hn3. cbn [mbind outcome_bind mret outcome_ret]. rewrite Hn4. cbn [mbind outcome_bind]. exists next, tm2.
    split_and!; [done|done|done|simpl; by rewrite lookup_delete_eq|done| | |done].
    + simpl. by rewrite delete_id.
    + intros t Htc _. simpl. by rewrite lookup_delete_ne by done.
Qed.
End SchedFacts.

(** ** Runs of the scheduler *)
Module RunFacts.
Import QueueFacts SchedFacts.

(** The calls the kernel makes on the task manager; [OpFinish] and [OpWait] are
    made by the current task, [OpSwitch] by the timer interrupt. *)
Inductive tm_op : Set :=
| OpNewTask
| OpInitContext (id cr3 stack f data : Z)
| OpSwitch (ctx : TaskContext)
| OpSleep (id : Z)
| OpWakeup (id level : Z)
| OpSend (id : Z) (msg : Message)
| OpReceive (id : Z)
| OpFinish (exit_code : Z)
| OpWait (task_id : Z).

Definition exec (tm : TaskManager) (op : tm_op) : outcome TaskManager :=
  match op with
  | OpNewTask => mret (NewTask tm).2
  | OpInitContext id cr3 stack f data => t ← task tm id; mret (set_task tm id (InitContext t cr3 stack f data))
  | OpSwitch ctx => r ← SwitchTask tm ctx; mret r.2
  | OpSleep id => r ← Sleep_id tm id; mret r.2
  | OpWakeup id level => r ← Wakeup_id tm id level; mret r.2
  | OpSend id msg => r ← SendMessage tm id msg; mret r.2
  | OpReceive id => r ← ReceiveMessage tm id; mret r.2
  | OpFinish code => r ← Finish tm code; mret r.2
  | OpWait task_id => c ← CurrentTask tm; r ← WaitFinish_turn tm c task_id; mret r.2
  end.

Fixpoint exec_all (tm : TaskManager) (ops : list tm_op) : outcome TaskManager :=
  match ops with
  | [] => mret tm
  | op :: ops => tm ← exec tm op; exec_all tm ops
  end.

(** How the kernel uses these calls: the idle task neither sleeps, waits nor
    finishes; a task that is in [WaitFinish] does not finish; and a running task
    other than the current one is not moved to another level. *)
Definition allowed (idle : Z) (tm : TaskManager) (op : tm_op) : Prop :=
  match op with
  | OpNewTask => latest_id_ tm + 1 < 2 ^ 64
  | OpInitContext id _ _ _ _ | OpReceive id => is_Some (tasks_ tm !! id)
  | OpSwitch _ | OpSend _ _ => True
  | OpSleep id => id ≠ idle
  | OpWakeup id level => level ≤ kMaxLevel ∧ ∀ x, tasks_ tm !! id = Some x → task_running x = true →
      level < 0 ∨ level = level_ x ∨ CurrentTask tm = Done id
  | OpFinish _ => CurrentTask tm ≠ Done idle ∧
      ∀ k w, finish_waiter_ tm !! k = Some w → CurrentTask tm ≠ Done w
  | OpWait _ => CurrentTask tm ≠ Done idle
  end.

Fixpoint allowed_all (idle : Z) (tm : TaskManager) (ops : list tm_op) : Prop :=
  match ops with
  | [] => True
  | op :: ops => allowed idle tm op ∧ ∀ tm', exec tm op = Done tm' → allowed_all idle tm' ops
  end.

Record sched_ok (idle : Z) (tm : TaskManager) : Prop := {
  ok_wf : tm_wf idle tm;
  ok_waiters : ∀ k w, finish_waiter_ tm !! k = Some w → is_Some (tasks_ tm !! w);
}.

Lemma set_finish_wf idle tm ft fw : tm_wf idle tm → tm_wf idle (set_finish tm ft fw).
Proof. intros [[] ? ? ?]. split; [split|..]; done. Qed.

Lemma insert_is_Some (m : gmap Z Task) (k t : Z) (x : Task) : is_Some (m !! t) → is_Some (<[k := x]> m !! t).
Proof. intros H. rewrite lookup_insert. by case_decide. Qed.

Lemma task_SendMessage_spec idle tm p x msg : tm_wf idle tm → tasks_ tm !! p = Some x →
  ∃ tm', task_SendMessage tm p msg = Done tm' ∧ tm_wf idle tm' ∧
    tasks_ tm' = <[p := SetRunning (set_msgs x (msgs_ x ++ [msg])) true]> (tasks_ tm) ∧
    CurrentTask tm' = CurrentTask tm ∧ finish_tasks_ tm' = finish_tasks_ tm ∧
    finish_waiter_ tm' = finish_waiter_ tm.
Proof.
  intros Hwf Hx. unfold task_SendMessage. rewrite (proj2 (task_lookup tm p x)) by done. cbn [mbind outcome_bind].
  set (y := set_msgs x (msgs_ x ++ [msg])).
  assert (Hid : id_ y = p) by exact (proj2 (base_ids _ _ (wf_base _ _ Hwf) p x Hx)).
  assert (Hwf1 : tm_wf idle (set_task tm p y)) by by apply (set_task_same_wf _ _ _ x).
  destruct (Wakeup_wf idle _ p y (-1) Hwf1) as (tm' & E & Hwf' & Ht & Hrest);
    [by simpl; rewrite lookup_insert_eq|unfold kMaxLevel; lia|left; lia|].
  exists tm'. split_and!; [done|done| |apply Hrest..]. rewrite Ht. simpl. by rewrite insert_insert_eq.
Qed.

Lemma exec_ok idle tm op : sched_ok idle tm → allowed idle tm op →
  ∃ tm', exec tm op = Done tm' ∧ sched_ok idle tm'.
Proof.
  intros [Hwf Hwait] Hallow. destruct (wf_front _ _ Hwf) as (c & q & Hq & Hcur & (xc & Hxc & Hrc & Hlc)).
  destruct op as [|id r st f d|ctx|id|id level|id msg|id|code|tid]; simpl in Hallow; cbn [exec].
  - pose proof (NewTask_wf idle tm Hwf Hallow) as H. destruct (NewTask tm) as [id tm'] eqn:E.
    destruct H as (_ & _ & Ht & Hwf' & _). eexists. split; [done|]. split; [done|].
    unfold NewTask in E. simplify_eq/=. intros k w Hw%Hwait. by apply insert_is_Some.
  - destruct Hallow as [x Hx]. rewrite (proj2 (task_lookup tm id x)) by done. eexists. split; [done|]. split.
    + apply (set_task_same_wf _ _ _ x); [done|done| |done|done].
      exact (proj2 (base_ids _ _ (wf_base _ _ Hwf) id x Hx)).
    + intros k w Hw%Hwait. by apply insert_is_Some.
  - destruct (SwitchTask_wf idle tm ctx Hwf) as (c' & q' & x & lv & next & _ & _ & E & _ & Hwf' & _).
    rewrite E. eexists. split; [done|]. split; [done|]. intros k w Hw%Hwait. by apply insert_is_Some.
  - unfold Sleep_id. destruct (tasks_ tm !! id) as [x|] eqn:Hx; [|by exists tm].
    destruct (Sleep_wf idle tm id x Hwf Hx Hallow) as (sw & tm' & -> & Hwf' & Ht & _ & Hfw & _).
    eexists. split; [done|]. split; [done|]. simpl. rewrite Hfw, Ht. intros k w Hw%Hwait.
    destruct (task_running x); [by apply insert_is_Some|done].
  - unfold Wakeup_id. destruct (tasks_ tm !! id) as [x|] eqn:Hx; [|by exists tm]. destruct Hallow as [Hmax Hlevel].
    assert (H : ∃ y tm', Wakeup tm id level = Done tm' ∧ tm_wf idle tm' ∧ tasks_ tm' = <[id := y]> (tasks_ tm) ∧
        finish_waiter_ tm' = finish_waiter_ tm).
    { destruct (decide (task_running x = true ∧ ¬ (level < 0 ∨ level = level_ x))) as [[Hr Hn]|Hn].
      - destruct (ChangeLevelRunning_current_wf idle tm id x level) as (tm' & E & Hwf' & Ht & _ & _ & Hfw);
          [done|done|destruct (Hlevel x eq_refl Hr) as [?|[?|?]]; [lia|lia|done]|lia|lia|].
        eexists _, tm'. split; [|done]. unfold Wakeup. rewrite (proj2 (task_lookup tm id x)) by done.
        cbn [mbind outcome_bind]. by rewrite Hr.
      - destruct (Wakeup_wf idle tm id x level) as (tm' & E & Hwf' & Ht & _ & _ & Hfw); [done|done|done| |by eexists _, tm'].
        intros Hr. destruct (decide (level < 0)); [by left|]. destruct (decide (level = level_ x)); [by right|]. tauto. }
    destruct H as (y & tm' & -> & Hwf' & Ht & Hfw). eexists. split; [done|]. split; [done|].
    simpl. rewrite Hfw, Ht. intros k w Hw%Hwait. by apply insert_is_Some.
  - unfold SendMessage. destruct (tasks_ tm !! id) as [x|] eqn:Hx; [|by exists tm].
    destruct (task_SendMessage_spec idle tm id x msg Hwf Hx) as (tm' & -> & Hwf' & Ht & _ & _ & Hfw).
    eexists. split; [done|]. split; [done|]. simpl. rewrite Hfw, Ht. intros k w Hw%Hwait. by apply insert_is_Some.
  - destruct Hallow as [x Hx]. unfold ReceiveMessage. rewrite (proj2 (task_lookup tm id x)) by done.
    cbn [mbind outcome_bind]. destruct (task_ReceiveMessage x) as [m y] eqn:E. eexists. split; [done|].
    assert (Hy : y = set_msgs x (msgs_ y)).
    { unfold task_ReceiveMessage in E. destruct (msgs_ x) as [|m' ms] eqn:Em; injection E as <- <-; [|done].
      rewrite Em. by destruct x; simpl in *; subst. }
    split; [|intros k w Hw%Hwait; by apply insert_is_Some].
    apply (set_task_same_wf _ _ _ x); [done|done|..]; rewrite Hy; [|done..].
    exact (proj2 (base_ids _ _ (wf_base _ _ Hwf) id x Hx)).
  - destruct Hallow as [Hni Hnw].
    destruct (Finish_wf idle tm c code Hwf Hcur) as (next & tm' & -> & Hwf' & _ & _ & _ & Hfw & Hoth & Hwk); [congruence| |].
    { intros w Hw. split; [|by apply (Hwait c)]. intros ->. by apply (Hnw _ _ Hw). }
    eexists. split; [done|]. split; [done|]. simpl. rewrite Hfw. intros k w [Hkc Hw]%lookup_delete_Some.
    destruct (decide (finish_waiter_ tm !! c = Some w)) as [Hcw|Hcw].
    + destruct (Hwk w Hcw) as (x & _ & ->). done.
    + rewrite Hoth; [by apply (Hwait k)| |done]. intros ->. by apply (Hnw _ _ Hw).
  - rewrite Hcur. cbn [mbind outcome_bind]. unfold WaitFinish_turn. destruct (finish_tasks_ tm !! tid) as [ec|].
    + eexists. split; [done|]. split; [by apply set_finish_wf|]. exact Hwait.
    + set (tm1 := set_finish tm _ _). assert (Hwf1 : tm_wf idle tm1) by by apply set_finish_wf.
      destruct (Sleep_wf idle tm1 c xc Hwf1 Hxc) as (sw & tm' & -> & Hwf' & Ht & _ & Hfw & _); [congruence|].
      eexists. split; [done|]. split; [done|]. simpl. rewrite Hfw, Ht, Hrc. intros k w Hw.
      apply insert_is_Some. simpl in Hw. rewrite lookup_insert in Hw. case_decide; simplify_eq; [by exists xc|].
      by apply (Hwait k).
Qed.

Lemma new_TaskManager_ok cr3 stack f : ∃ tm, new_TaskManager cr3 stack f = Done tm ∧ sched_ok 2 tm.
Proof.
  exists (mkTM (<[2 := SetRunning (SetLevel (InitContext (new_Task 2) cr3 stack f 0) 0) true]>
                (<[1 := SetRunning (SetLevel (new_Task 1) 3) true]> ∅)) 2 [[2]; []; []; [1]] 3 false ∅ ∅).
  split; [reflexivity|]. split; [|done]. set (tm := mkTM _ _ _ _ _ _ _).
  assert (Hruns : ∀ t lv, runs tm t lv ↔ (t = 1 ∧ lv = 3) ∨ (t = 2 ∧ lv = 0)).
  { intros t lv. unfold runs, tm. cbn [tasks_]. split.
    - intros (x & Hx & Hr & <-).
      repeat (apply lookup_insert_Some in Hx as [[<- <-]|[_ Hx]];
        [first [discriminate Hr | left; split; reflexivity | right; split; reflexivity]|]).
      by rewrite lookup_empty in Hx.
    - intros [[-> ->]|[-> ->]]; eexists; (split; [reflexivity|split; reflexivity]). }
  split.
  - split; try done.
    + intros t x Hx. unfold tm in Hx. cbn [tasks_] in Hx. repeat (apply lookup_insert_Some in Hx as [[<- <-]|[_ Hx]]; [by compute|]). by rewrite lookup_empty in Hx.
    + intros t x Hx. unfold tm in Hx. cbn [tasks_] in Hx. repeat (apply lookup_insert_Some in Hx as [[<- <-]|[_ Hx]]; [by compute|]). by rewrite lookup_empty in Hx.
    + exists 0. apply Hruns. by right.
  - intros lv q Hq. assert (Hcases : lv = 0 ∧ q = [2] ∨ lv = 3 ∧ q = [1] ∨ (lv ≠ 0 ∧ lv ≠ 3 ∧ q = [])).
    { pose proof (queue_range _ _ _ Hq). unfold queue in Hq. destruct (Z.ltb_spec lv 0); [lia|].
      apply of_option_Done in Hq. cbn [running_ tm] in Hq.
      destruct (Z.to_nat lv) as [|[|[|[|n]]]] eqn:En; simpl in Hq; simplify_eq; [left|right; right|right; right|right; left]; lia || (split; [lia|done]) || (split; [lia|split; [lia|done]]). }
    destruct Hcases as [[-> ->]|[[-> ->]|(H0 & H3 & ->)]]; (split; [by apply (bool_decide_unpack _)|]);
      intros t; rewrite Hruns; rewrite ?list_elem_of_singleton, ?elem_of_nil; lia.
  - exists 1. apply Hruns. by left.
  - intros _ t lv Ht%Hruns. change (current_level_ tm) with 3. lia.
Qed.
End RunFacts.

Import QueueFacts SchedFacts RunFacts.

(** ** Properties *)

(** C3 scheduler
    Starting from the constructor, any sequence of the kernel's calls runs
    without undefined behaviour (no empty queue's [front()], no level outside
    [running_], no pointer to an erased task).  In every state reached, each run
    queue holds exactly the tasks running at its level, once each, the current
    level has a task, and no task runs above it unless [level_changed_] is set. *)
Theorem scheduler_run_safe (cr3 stack f : Z) (tm0 : TaskManager) (ops : list tm_op)
  (Hinit : new_TaskManager cr3 stack f = Done tm0) (Hops : allowed_all 2 tm0 ops) :
  ∃ tm, exec_all tm0 ops = Done tm ∧
    (∀ lv q, queue tm lv = Done q → NoDup q ∧
       ∀ t, t ∈ q ↔ ∃ x, tasks_ tm !! t = Some x ∧ task_running x = true ∧ level_ x = lv) ∧
    (∃ c x, CurrentTask tm = Done c ∧ tasks_ tm !! c = Some x ∧ level_ x = current_level_ tm) ∧
    (level_changed_ tm = false → ∀ t x, tasks_ tm !! t = Some x → task_running x = true →
       level_ x ≤ current_level_ tm).
Proof.
  destruct (new_TaskManager_ok cr3 stack f) as (tm0' & E0 & Hok). assert (tm0' = tm0) as -> by congruence.
  clear E0 Hinit. revert tm0 Hok Hops. induction ops as [|op ops IH]; intros tm Hok Hops.
  - exists tm. split; [done|]. destruct Hok as [Hwf _].
    destruct (wf_front _ _ Hwf) as (c & q & _ & Hcur & (x & Hx & _ & Hl)).
    split; [apply Hwf|]. split; [by exists c, x|]. intros Hch t x' Hx' Hr. apply (wf_high _ _ Hwf Hch t). by exists x'.
  - destruct Hops as [Hop Hops]. destruct (exec_ok 2 tm op Hok Hop) as (tm' & E & Hok').
    cbn [exec_all]. rewrite E. apply IH; [done|]. by apply Hops.
Qed.

Lemma scheduler_run_safe_witness : ∃ tm0, new_TaskManager 0x1000 0x80000 0x10 = Done tm0 ∧
  ∃ tm, exec_all tm0 [OpNewTask; OpInitContext 3 0x1000 0x90000 0x20 7; OpSend 3 (mkMessage 1 kLayerFinish);
                      OpSwitch zero_context; OpSleep 1; OpFinish 5] = Done tm ∧
    CurrentTask tm = Done 2.
Proof.
  destruct (new_TaskManager 0x1000 0x80000 0x10) as [tm0| |] eqn:E; [|discriminate E|discriminate E].
  exists tm0. split; [reflexivity|].
  assert (Hall : allowed_all 2 tm0 [OpNewTask; OpInitContext 3 0x1000 0x90000 0x20 7; OpSend 3 (mkMessage 1 kLayerFinish);
                      OpSwitch zero_context; OpSleep 1; OpFinish 5]).
  { vm_compute in E. injection E as <-.
    split; [vm_compute; reflexivity|]. intros tm1 E1. vm_compute in E1. injection E1 as <-.
    split; [vm_compute; eauto|]. intros tm2 E2. vm_compute in E2. injection E2 as <-.
    split; [exact I|]. intros tm3 E3. vm_compute in E3. injection E3 as <-.
    split; [exact I|]. intros tm4 E4. vm_compute in E4. injection E4 as <-.
    split; [vm_compute; discriminate|]. intros tm5 E5. vm_compute in E5. injection E5 as <-.
    split; [split; [vm_compute; discriminate|]|intros; exact I]. intros k w Hw. discriminate Hw. }
  destruct (scheduler_run_safe 0x1000 0x80000 0x10 tm0 _ E Hall) as (tm & Et & _).
  exists tm. split; [exact Et|]. vm_compute in E. injection E as <-. vm_compute in Et. injection Et as <-.
  vm_compute. reflexivity.
Defined.

(** [k] timer interrupts. *)
Fixpoint switches (tm : TaskManager) (ctxs : list TaskContext) : outcome TaskManager :=
  match ctxs with
  | [] => mret tm
  | ctx :: ctxs => r ← SwitchTask tm ctx; switches r.2 ctxs
  end.

(** C18 round robin
    Between level changes the timer is fair: with the queue [q] at the current
    level, the task that runs after [k] interrupts is the [k]-th of [q], for each
    [k] below the length of [q], and after as many interrupts as [q] has tasks
    the queue is as it was. *)
Theorem SwitchTask_round_robin (idle : Z) (tm : TaskManager) (q : list Z) (ctxs : list TaskContext)
  (Hwf : tm_wf idle tm) (Hch : level_changed_ tm = false)
  (Hq : queue tm (current_level_ tm) = Done q) (Hlen : (length ctxs ≤ length q)%nat) :
  ∃ tm', switches tm ctxs = Done tm' ∧ current_level_ tm' = current_level_ tm ∧
    ((length ctxs < length q)%nat → ∀ t, q !! length ctxs = Some t → CurrentTask tm' = Done t) ∧
    (length ctxs = length q → queue tm' (current_level_ tm') = Done q).
Proof.
  assert (Hgen : ∀ ctxs tm k, tm_wf idle tm → level_changed_ tm = false →
    queue tm (current_level_ tm) = Done (drop k q ++ take k q) → (k + length ctxs ≤ length q)%nat →
    ∃ tm', switches tm ctxs = Done tm' ∧ current_level_ tm' = current_level_ tm ∧
      queue tm' (current_level_ tm') = Done (drop (k + length ctxs) q ++ take (k + length ctxs) q)).
  { clear ctxs tm Hwf Hch Hq Hlen. induction ctxs as [|ctx ctxs IH]; intros tm k Hwf Hch Hq Hk; simpl in Hk.
    - exists tm. simpl. rewrite Nat.add_0_r. done.
    - destruct (lookup_lt_is_Some_2 q k) as [t Ht]; [lia|].
      destruct (SwitchTask_wf idle tm ctx Hwf) as (c & q' & x & lv & next & Hcq & Hx & E & _ & Hwf' & Hlv).
      cbn [switches]. rewrite E. cbn [mbind outcome_bind snd].
      set (tm1 := set_level _ lv false) in *. specialize (Hlv Hch). subst lv.
      rewrite (drop_S q t k Ht), Hcq in Hq. injection Hq as -> ->.
      destruct (IH tm1 (S k)) as (tm' & E' & Hl & Hq'); [done|done| |lia|].
      + change (current_level_ tm1) with (current_level_ tm).
        unfold tm1. change (queue (set_level ?a _ _) ?l) with (queue a l).
        rewrite queue_set_queue by apply Hwf. rewrite decide_True by done.
        rewrite (take_S_r q k t Ht). by rewrite app_assoc.
      + exists tm'. split; [done|]. split; [done|]. rewrite Hq'. cbn [length].
        by replace (k + S (length ctxs))%nat with (S k + length ctxs)%nat by lia. }
  destruct (Hgen ctxs tm 0%nat Hwf Hch) as (tm' & E & Hl & Hq'); [by rewrite app_nil_r|done|].
  exists tm'. split; [done|]. split; [done|]. simpl in Hq'. split.
  - intros Hlt t Ht. unfold CurrentTask. rewrite Hq', (drop_S q t _ Ht). done.
  - intros Heq. rewrite Hq', Heq, drop_all, firstn_all. done.
Qed.

(** Two tasks at level 1 and the idle task: the machine of the witnesses. *)
Definition sample_task (id level : Z) (running : bool) : Task := SetRunning (SetLevel (new_Task id) level) running.
Definition sample_tm : TaskManager :=
  mkTM (<[1 := sample_task 1 1 true]> (<[2 := sample_task 2 0 true]> (<[3 := sample_task 3 1 true]> ∅)))
    3 [[2]; [1; 3]; []; []] 1 false ∅ ∅.

Lemma sample_runs t lv : runs sample_tm t lv ↔ (t = 1 ∧ lv = 1) ∨ (t = 2 ∧ lv = 0) ∨ (t = 3 ∧ lv = 1).
Proof.
  unfold runs, sample_tm. cbn [tasks_]. split.
  - intros (x & Hx & Hr & <-).
    repeat (apply lookup_insert_Some in Hx as [[<- <-]|[_ Hx]]; [simpl; lia|]). by rewrite lookup_empty in Hx.
  - intros [[-> ->]|[[-> ->]|[-> ->]]]; eexists; (split; [reflexivity|split; reflexivity]).
Qed.

Lemma sample_tm_wf : tm_wf 2 sample_tm.
Proof.
  split.
  - split; try done.
    + intros t x Hx. unfold sample_tm in Hx. cbn [tasks_] in Hx.
      repeat (apply lookup_insert_Some in Hx as [[<- <-]|[_ Hx]]; [by compute|]). by rewrite lookup_empty in Hx.
    + intros t x Hx. unfold sample_tm in Hx. cbn [tasks_] in Hx.
      repeat (apply lookup_insert_Some in Hx as [[<- <-]|[_ Hx]]; [by compute|]). by rewrite lookup_empty in Hx.
    + exists 0. apply sample_runs. tauto.
  - intros lv q Hq. pose proof (queue_range _ _ _ Hq) as Hge. unfold queue in Hq.
    destruct (Z.ltb_spec lv 0); [lia|]. apply of_option_Done in Hq. cbn [running_ sample_tm] in Hq.
    destruct (Z.to_nat lv) as [|[|[|[|n]]]] eqn:En; simpl in Hq; simplify_eq;
      (split; [by apply (bool_decide_unpack _)|]); intros t;
      rewrite sample_runs, ?elem_of_cons, ?list_elem_of_singleton, ?elem_of_nil; lia.
  - exists 1. apply sample_runs. tauto.
  - intros _ t lv Ht%sample_runs. change (current_level_ sample_tm) with 1. lia.
Qed.

Lemma SwitchTask_round_robin_witness :
  ∃ tm', switches sample_tm [zero_context] = Done tm' ∧ CurrentTask tm' = Done 3.
Proof.
  destruct (SwitchTask_round_robin 2 sample_tm [1; 3] [zero_context] sample_tm_wf eq_refl eq_refl)
    as (tm' & E & _ & H & _); [simpl; lia|].
  exists tm'. split; [exact E|]. apply H; [simpl; lia|reflexivity].
Defined.

(** C31 SwitchTask
    A timer interrupt saves the interrupted context in the task that ran, then
    makes a task of the highest level with a running task current; the processor
    is given that task's saved context, or keeps running when it is the same task. *)
Theorem SwitchTask_highest (idle : Z) (tm : TaskManager) (ctx : TaskContext) (Hwf : tm_wf idle tm) :
  ∃ c next sw tm', CurrentTask tm = Done c ∧ SwitchTask tm ctx = Done (sw, tm') ∧ tm_wf idle tm' ∧
    CurrentTask tm' = Done next ∧
    (∀ t x, tasks_ tm' !! t = Some x → task_running x = true → level_ x ≤ current_level_ tm') ∧
    (∃ x, tasks_ tm' !! c = Some x ∧ context_ x = ctx) ∧
    (∀ t, t ≠ c → tasks_ tm' !! t = tasks_ tm !! t) ∧
    sw = (if bool_decide (next = c) then NoSwitch else RestoreContext next).
Proof.
  destruct (wf_front _ _ Hwf) as (c0 & q0 & Hq0 & Hcur & _).
  destruct (SwitchTask_wf idle tm ctx Hwf) as (c & q & x & lv & next & Hq & Hx & E & Hnext & Hwf' & _).
  assert (c0 = c) as -> by congruence. eexists c, next, _, _. split_and!; [done|exact E|done|done|..].
  - intros t y Hy Hr. apply (wf_high _ _ Hwf' eq_refl t). by exists y.
  - exists (set_context x ctx). split; [|done]. apply lookup_insert_eq.
  - intros t Ht. simpl. by rewrite lookup_insert_ne.
  - destruct (decide (next = c)).
    + by rewrite bool_decide_eq_false_2, bool_decide_eq_true_2 by tauto.
    + by rewrite bool_decide_eq_true_2, bool_decide_eq_false_2 by tauto.
Qed.

Lemma SwitchTask_highest_witness :
  ∃ sw tm', SwitchTask sample_tm zero_context = Done (sw, tm') ∧ sw = RestoreContext 3.
Proof.
  destruct (SwitchTask_highest 2 sample_tm zero_context sample_tm_wf)
    as (c & next & sw & tm' & Hc & E & _ & Hn & _ & _ & _ & Hsw).
  exists sw, tm'. split; [exact E|]. rewrite Hsw.
  assert (E1 : SwitchTask sample_tm zero_context = Done (RestoreContext 3, tm')).
  { rewrite E. f_equal. f_equal. vm_compute in E. injection E as <- _. reflexivity. }
  vm_compute in Hc. injection Hc as <-. vm_compute in E. injection E as _ <-. vm_compute in Hn. injection Hn as <-.
  reflexivity.
Defined.

(** C32 WaitFinish
    The handshake of [WaitFinish] and [Finish].  A waiter that comes before the
    end of the task registers and sleeps; when the task then finishes with code
    [code] the waiter runs again, the registration is gone, and the waiter's next
    turn returns exactly [code] and forgets it.  A waiter that comes after the
    end returns at once. *)
Theorem WaitFinish_handshake (idle : Z) (tm : TaskManager) (w c code : Z)
  (Hwf : tm_wf idle tm) (Hw : CurrentTask tm = Done w) (Hidle : w ≠ idle)
  (Hpending : finish_tasks_ tm !! c = None) :
  ∃ sw tm1, WaitFinish_turn tm w c = Done (None, sw, tm1) ∧ tm_wf idle tm1 ∧
    finish_waiter_ tm1 !! c = Some w ∧ (∃ x, tasks_ tm1 !! w = Some x ∧ task_running x = false) ∧
    (∃ next, sw = SwitchContext next w ∧ CurrentTask tm1 = Done next) ∧
    ∀ tm2, tm_wf idle tm2 → CurrentTask tm2 = Done c → c ≠ idle → c ≠ w →
      finish_waiter_ tm2 = finish_waiter_ tm1 → is_Some (tasks_ tm2 !! w) →
      ∃ sw' tm3, Finish tm2 code = Done (sw', tm3) ∧ tm_wf idle tm3 ∧ tasks_ tm3 !! c = None ∧
        (∃ x, tasks_ tm3 !! w = Some x ∧ task_running x = true) ∧ finish_waiter_ tm3 !! c = None ∧
        WaitFinish_turn tm3 w c =
          Done (Some code, NoSwitch, set_finish tm3 (delete c (finish_tasks_ tm3)) (finish_waiter_ tm3)).
Proof.
  destruct (wf_front _ _ Hwf) as (w' & q & _ & Hcur & (x & Hx & Hr & _)).
  assert (w' = w) as -> by congruence. unfold WaitFinish_turn at 1. rewrite Hpending. cbv zeta.
  set (tm0 := set_finish tm _ _). assert (Hwf0 : tm_wf idle tm0) by by apply set_finish_wf.
  destruct (Sleep_wf idle tm0 w x Hwf0 Hx Hidle) as (sw & tm1 & -> & Hwf1 & Ht1 & _ & Hfw1 & Hsw).
  rewrite Hr in Ht1. rewrite bool_decide_eq_true_2 in Hsw by done. destruct Hsw as (next & Hn & -> & _).
  eexists _, tm1. split; [done|]. split; [done|]. split; [rewrite Hfw1; simpl; apply lookup_insert_eq|].
  split; [exists (SetRunning x false); split; [rewrite Ht1; apply lookup_insert_eq|done]|].
  split; [by exists next|]. intros tm2 Hwf2 Hc2 Hci Hcw Hfw2 [y Hy].
  destruct (Finish_wf idle tm2 c code Hwf2 Hc2 Hci) as (next' & tm3 & -> & Hwf3 & _ & Hgone & Hft & Hfw3 & _ & Hwk).
  { rewrite Hfw2, Hfw1. simpl. rewrite lookup_insert_eq. intros w' [= <-]. by split; [|exists y]. }
  destruct (Hwk w) as (z & _ & Hz); [rewrite Hfw2, Hfw1; simpl; apply lookup_insert_eq|].
  eexists _, tm3. split_and!; [done|done|done|by eexists; split; [exact Hz|]|by rewrite Hfw3, lookup_delete_eq|].
  unfold WaitFinish_turn. by rewrite Hft, lookup_insert_eq.
Qed.

Lemma WaitFinish_handshake_witness :
  ∃ sw tm1 sw' tm3, WaitFinish_turn sample_tm 1 3 = Done (None, sw, tm1) ∧ Finish tm1 42 = Done (sw', tm3) ∧
    ∃ tm4, WaitFinish_turn tm3 1 3 = Done (Some 42, NoSwitch, tm4).
Proof.
  destruct (WaitFinish_handshake 2 sample_tm 1 3 42 sample_tm_wf eq_refl ltac:(lia) eq_refl)
    as (sw & tm1 & E & Hwf1 & _ & (x & Hx & _) & (next & Hsw & Hn) & H).
  destruct (H tm1 Hwf1) as (sw' & tm3 & E3 & _ & _ & _ & _ & E4); [|lia|lia|reflexivity|by exists x|].
  - rewrite Hn. vm_compute in E. injection E as <- <-. injection Hsw as <-. reflexivity.
  - exists sw, tm1, sw', tm3. split; [exact E|]. split; [exact E3|]. eexists. exact E4.
Defined.

(** Messages sent one after another, and taken one after another. *)
Fixpoint send_all (tm : TaskManager) (id : Z) (msgs : list Message) : outcome TaskManager :=
  match msgs with
  | [] => mret tm
  | m :: msgs => r ← SendMessage tm id m; send_all r.2 id msgs
  end.

Fixpoint receive_all (tm : TaskManager) (id : Z) (n : nat) : outcome (list (option Message) * TaskManager) :=
  match n with
  | O => mret ([], tm)
  | S n => '(m, tm) ← ReceiveMessage tm id; '(ms, tm) ← receive_all tm id n; mret (m :: ms, tm)
  end.

Lemma send_all_spec idle msgs : ∀ tm id x, tm_wf idle tm → tasks_ tm !! id = Some x →
  ∃ tm' y, send_all tm id msgs = Done tm' ∧ tm_wf idle tm' ∧ tasks_ tm' !! id = Some y ∧
    msgs_ y = msgs_ x ++ msgs ∧ (msgs ≠ [] → task_running y = true) ∧
    ∀ t, t ≠ id → tasks_ tm' !! t = tasks_ tm !! t.
Proof.
  induction msgs as [|m msgs IH]; intros tm id x Hwf Hx.
  - exists tm, x. by rewrite app_nil_r.
  - cbn [send_all]. unfold SendMessage. rewrite Hx.
    destruct (task_SendMessage_spec idle tm id x m Hwf Hx) as (tm1 & -> & Hwf1 & Ht & _).
    cbn [mbind outcome_bind mret outcome_ret snd]. set (x1 := SetRunning (set_msgs x (msgs_ x ++ [m])) true) in *.
    destruct (IH tm1 id x1) as (tm' & y & E & Hwf' & Hy & Hm & Hr & Hoth); [done|by rewrite Ht, lookup_insert_eq|].
    exists tm', y. split_and!; [done..| | |].
    + rewrite Hm. unfold x1. simpl. by rewrite <- app_assoc.
    + intros _. destruct msgs; [|by apply Hr]. simpl in E. injection E as <-. rewrite Ht, lookup_insert_eq in Hy.
      by injection Hy as <-.
    + intros t Ht'. rewrite Hoth by done. rewrite Ht. by rewrite lookup_insert_ne.
Qed.

Lemma receive_all_spec n : ∀ tm id x, tasks_ tm !! id = Some x → length (msgs_ x) = n →
  ∃ tm', receive_all tm id (S n) = Done ((Some <$> msgs_ x) ++ [None], tm').
Proof.
  induction n as [|n IH]; intros tm id x Hx Hlen.
  - destruct (msgs_ x) eqn:Em; [|done]. cbn [receive_all]. unfold ReceiveMessage.
    rewrite (proj2 (task_lookup tm id x)) by done. cbn [mbind outcome_bind].
    unfold task_ReceiveMessage. rewrite Em. eexists. reflexivity.
  - destruct (msgs_ x) as [|m ms] eqn:Em; [done|]. simpl in Hlen.
    destruct (IH (set_task tm id (set_msgs x ms)) id (set_msgs x ms)) as (tm' & E); [apply lookup_insert_eq|simpl; lia|].
    exists tm'. remember (S n) as n'. cbn [receive_all]. unfold ReceiveMessage at 1.
    rewrite (proj2 (task_lookup tm id x)) by done. cbn [mbind outcome_bind].
    unfold task_ReceiveMessage. rewrite Em. cbn [mbind outcome_bind mret outcome_ret]. rewrite E. reflexivity.
Qed.

(** C33 SendMessage
    A task's mailbox is a queue: messages sent to a task that exists all arrive
    and make it run; receiving then yields what was waiting before, the new
    messages in the order they were sent, and nothing more.  No other task's
    state changes.  Sending to an id that no task has is an error without effect. *)
Theorem SendMessage_fifo (idle : Z) (tm : TaskManager) (id : Z) (msgs : list Message) (Hwf : tm_wf idle tm) :
  match tasks_ tm !! id with
  | None => ∀ m, SendMessage tm id m = Done (kNoSuchTask, tm)
  | Some x => ∃ tm' y, send_all tm id msgs = Done tm' ∧ tm_wf idle tm' ∧
      tasks_ tm' !! id = Some y ∧ (msgs ≠ [] → task_running y = true) ∧
      (∀ t, t ≠ id → tasks_ tm' !! t = tasks_ tm !! t) ∧
      ∃ tm'', receive_all tm' id (S (length (msgs_ x ++ msgs))) =
        Done ((Some <$> (msgs_ x ++ msgs)) ++ [None], tm'')
  end.
Proof.
  destruct (tasks_ tm !! id) as [x|] eqn:Hx; [|intros m; unfold SendMessage; by rewrite Hx].
  destruct (send_all_spec idle msgs tm id x Hwf Hx) as (tm' & y & E & Hwf' & Hy & Hm & Hr & Hoth).
  exists tm', y. split_and!; [done..|]. rewrite <- Hm. by apply receive_all_spec.
Qed.

Lemma SendMessage_fifo_witness :
  ∃ tm' tm'', send_all sample_tm 3 [mkMessage 1 kLayerFinish; mkMessage 2 kInterruptXHCI] = Done tm' ∧
    receive_all tm' 3 3 =
      Done ([Some (mkMessage 1 kLayerFinish); Some (mkMessage 2 kInterruptXHCI); None], tm'').
Proof.
  destruct (SendMessage_fifo 2 sample_tm 3 [mkMessage 1 kLayerFinish; mkMessage 2 kInterruptXHCI] sample_tm_wf)
    as (tm' & y & E & _ & _ & _ & _ & tm'' & E'').
  exists tm', tm''. split; [exact E|exact E''].
Defined.

(** ChangeLevelRunning
    Moving a running task other than the current one to another level does not
    record the new level: when the task then sleeps, it is taken out of its old
    level's queue and stays in the new one, so the scheduler still runs it. *)
Theorem ChangeLevelRunning_forgets_level (idle : Z) (tm : TaskManager) (p level : Z) (x : Task)
  (Hwf : tm_wf idle tm) (Hx : tasks_ tm !! p = Some x) (Hrun : task_running x = true)
  (Hcur : CurrentTask tm ≠ Done p) (Hlevel : 0 ≤ level ≤ kMaxLevel) (Hne : level ≠ level_ x) :
  ∃ tm1 tm2 q y, Wakeup tm p level = Done tm1 ∧ Sleep tm1 p = Done (NoSwitch, tm2) ∧
    tasks_ tm2 !! p = Some y ∧ task_running y = false ∧ queue tm2 level = Done q ∧ p ∈ q.
Proof.
  destruct (wf_front _ _ Hwf) as (c & q & Hq & Hcc & _). pose proof Hwf as [Hb Hcons _ _].
  assert (Hpc : p ≠ c) by congruence. assert (Hlx : 0 ≤ level_ x ≤ kMaxLevel) by by apply (base_levels _ _ Hb p).
  assert (Hlen : length (running_ tm) = 4%nat) by apply Hb.
  destruct (queue_total tm (level_ x)) as [qx Hqx]; [done..|]. destruct (queue_total tm level) as [ql Hql]; [done..|].
  set (tma := set_queue tm (level_ x) (Erase qx p)).
  assert (Hqa : queue tma level = Done ql) by (unfold tma; by rewrite queue_set_queue, decide_False by done).
  set (tmb := set_queue tma level (ql ++ [p])).
  assert (Hlena : length (running_ tma) = 4%nat) by (unfold tma; by rewrite length_set_queue).
  assert (Hqb : ∀ k, queue tmb k = if decide (k = level) then Done (ql ++ [p])
                  else if decide (k = level_ x) then Done (Erase qx p) else queue tm k).
  { intros k. unfold tmb. rewrite queue_set_queue by done. case_decide; [done|]. unfold tma. by rewrite queue_set_queue. }
  set (tm1 := set_level tmb (current_level_ tm) (if current_level_ tm <? level then true else level_changed_ tm)).
  assert (Ew : Wakeup tm p level = Done tm1).
  { unfold Wakeup. rewrite (proj2 (task_lookup tm p x)) by done. cbn [mbind outcome_bind]. rewrite Hrun.
    unfold ChangeLevelRunning. rewrite (proj2 (task_lookup tm p x)) by done. cbn [mbind outcome_bind].
    assert ((level <? 0) || (level =? level_ x) = false) as -> by (bool_cases; simpl; lia || done).
    rewrite Hq. cbn [mbind outcome_bind front of_option head]. rewrite bool_decide_eq_true_2 by done.
    rewrite Hqx. cbn [mbind outcome_bind]. cbv zeta. fold tma. unfold push_back. rewrite Hqa. reflexivity. }
  (* the current queue still starts with the current task *)
  assert (Hfront : ∃ q', queue tm1 (current_level_ tm) = Done (c :: q')).
  { change (queue tm1 (current_level_ tm)) with (queue tmb (current_level_ tm)). rewrite Hqb.
    case_decide as H1; [rewrite <- H1, Hq in Hql; injection Hql as <-; by eexists|].
    case_decide as H2; [|by eexists]. rewrite <- H2, Hq in Hqx. injection Hqx as <-.
    unfold Erase. rewrite filter_cons_True by done. by eexists. }
  destruct Hfront as [q' Hq'].
  exists tm1. eexists _, (ql ++ [p]), (SetRunning x false). split; [done|]. split.
  - unfold Sleep. change (task tm1 p) with (task tm p). rewrite (proj2 (task_lookup tm p x)) by done.
    cbn [mbind outcome_bind]. rewrite Hrun. cbn [negb]. cbv zeta.
    change (queue (set_task tm1 p (SetRunning x false)) (current_level_ (set_task tm1 p (SetRunning x false))))
      with (queue tm1 (current_level_ tm)). rewrite Hq'. cbn [mbind outcome_bind front of_option head].
    rewrite bool_decide_eq_false_2 by done.
    change (queue (set_task tm1 p (SetRunning x false)) (level_ x)) with (queue tmb (level_ x)).
    rewrite Hqb, decide_False, decide_True by done. reflexivity.
  - split; [apply lookup_insert_eq|]. split; [done|]. split; [|apply elem_of_app; right; by apply list_elem_of_singleton].
    rewrite queue_set_queue by (simpl; rewrite ?length_insert; done || exact Hlena || lia).
    rewrite decide_False by done. change (queue (set_task tm1 p (SetRunning x false)) level) with (queue tmb level).
    by rewrite Hqb, decide_True.
Qed.

Lemma ChangeLevelRunning_forgets_level_witness :
  ∃ tm1 tm2, Wakeup sample_tm 3 2 = Done tm1 ∧ Sleep tm1 3 = Done (NoSwitch, tm2) ∧
    (* the sleeping task is run by the next timer interrupt *)
    ∃ tm3, SwitchTask tm2 zero_context = Done (RestoreContext 3, tm3).
Proof.
  destruct (ChangeLevelRunning_forgets_level 2 sample_tm 3 2 (sample_task 3 1 true) sample_tm_wf eq_refl eq_refl
    ltac:(vm_compute; discriminate) ltac:(unfold kMaxLevel; lia) ltac:(simpl; lia))
    as (tm1 & tm2 & q & y & E1 & E2 & _).
  exists tm1, tm2. split; [exact E1|]. split; [exact E2|].
  vm_compute in E1. injection E1 as <-. vm_compute in E2. injection E2 as <-. eexists. vm_compute. reflexivity.
Defined.
