(* ===== verification/Timer.v ===== *)
(** Timers: src/kernel/timer.{hpp,cpp}.  The heap of [std::priority_queue] is an
    interface with the laws of the standard container; an ordered list
    implements it.  Expired timers become messages of the task manager. *)
From S2P Require Import Prelude ErrorCode Message Task.
From Stdlib Require Import Sorting.Sorted.

(** [class Timer] *)
Record Timer : Set := mkTimer { timeout_ : Z; value_ : Z; task_id_ : Z }.

#[export] Instance Timer_eq_dec : EqDecision Timer.
Proof. solve_decision. Defined.

Definition kTimerFreq : Z := 1000.
Definition kTaskTimerPeriod : Z := 20.
Definition kTaskTimerValue : Z := 2 ^ 31 - 1.

(** [operator<]: a timer that expires later is less. *)
Definition timer_lt (lhs rhs : Timer) : bool := timeout_ rhs <? timeout_ lhs.

(** ** The priority queue *)

(** What [std::priority_queue<Timer>] promises: [top] is an element that is less
    than no other, [pop] removes it, [push] adds one. *)
Class PriorityQueue (Q : Type) := {
  pq_empty : Q;
  pq_push : Timer → Q → Q;
  pq_top : Q → option Timer;
  pq_pop : Q → Q;
  pq_elems : Q → list Timer;
  pq_empty_spec : pq_elems pq_empty = [];
  pq_push_spec t q : pq_elems (pq_push t q) ≡ₚ t :: pq_elems q;
  pq_top_none q : pq_top q = None → pq_elems q = [];
  pq_top_some q t : pq_top q = Some t →
    pq_elems q ≡ₚ t :: pq_elems (pq_pop q) ∧ ∀ u, u ∈ pq_elems q → timer_lt t u = false;
}.

(** An implementation: an unordered list, searched for its earliest timer. *)
Fixpoint earliest (t : Timer) (q : list Timer) : Timer :=
  match q with
  | [] => t
  | u :: q' => earliest (if timer_lt t u then u else t) q'
  end.

Lemma earliest_spec q : ∀ t, earliest t q ∈ t :: q ∧ ∀ u, u ∈ t :: q → timeout_ (earliest t q) ≤ timeout_ u.
Proof.
  induction q as [|v q IH]; intros t; cbn [earliest].
  - split; [apply list_elem_of_here|]. intros u ->%list_elem_of_singleton. done.
  - set (w := if timer_lt t v then v else t). destruct (IH w) as [Hin Hmin].
    assert (Hw : timeout_ w ≤ timeout_ t ∧ timeout_ w ≤ timeout_ v ∧ (w = t ∨ w = v)).
    { unfold w, timer_lt. destruct (Z.ltb_spec (timeout_ v) (timeout_ t)); (split_and!; [lia..|tauto]). }
    pose proof (Hmin w (list_elem_of_here _ _)). split.
    + rewrite !elem_of_cons in *. destruct Hin as [->|?]; [|tauto]. destruct Hw as (_ & _ & [->| ->]); tauto.
    + intros u [->|[->|Hu]%elem_of_cons]%elem_of_cons; [lia..|]. apply Hmin. by apply list_elem_of_further.
Qed.

(** [q] without its first occurrence of [t]. *)
Fixpoint remove_first (t : Timer) (q : list Timer) : list Timer :=
  match q with
  | [] => []
  | u :: q' => if decide (t = u) then q' else u :: remove_first t q'
  end.

Lemma remove_first_perm t q : t ∈ q → q ≡ₚ t :: remove_first t q.
Proof.
  induction q as [|u q IH]; simpl; [by intros ?%not_elem_of_nil|].
  intros Hin. case_decide as Hd; [by subst|]. apply elem_of_cons in Hin as [?|Hin]; [done|].
  rewrite (IH Hin) at 1. apply Permutation_swap.
Qed.

Definition list_top (q : list Timer) : option Timer :=
  match q with [] => None | t :: q => Some (earliest t q) end.

#[export] Program Instance list_queue : PriorityQueue (list Timer) := {|
  pq_empty := [];
  pq_push t q := t :: q;
  pq_top := list_top;
  pq_pop q := match list_top q with Some t => remove_first t q | None => [] end;
  pq_elems q := q;
|}.
Next Obligation. done. Qed.
Next Obligation. done. Qed.
Next Obligation. by intros []. Qed.
Next Obligation.
  intros [|v q] t; [done|]. cbn [list_top]. intros [= <-]. destruct (earliest_spec q v) as [Hin Hmin].
  split; [|intros u Hu%Hmin; unfold timer_lt; by apply Z.ltb_ge].
  by apply remove_first_perm.
Qed.

(** ** The timer manager *)

Section timer.
Context {Q : Type} `{PQ : PriorityQueue Q}.

(** [class TimerManager] *)
Record TimerManager : Type := mkTimerManager { tick_ : Z; timers_ : Q }.

(** The constructor: a timer that never expires. *)
Definition new_TimerManager : TimerManager :=
  mkTimerManager 0 (pq_push (mkTimer (2 ^ 64 - 1) 0 0) pq_empty).

Definition AddTimer (m : TimerManager) (timer : Timer) : TimerManager :=
  mkTimerManager (tick_ m) (pq_push timer (timers_ m)).

(** The message of an expired timer. *)
Definition timeout_message (t : Timer) : Message :=
  mkMessage 0 (kTimerTimeout (timeout_ t) (value_ t)).

(** The loop of [Tick], with the accumulated [task_timer_timeout]. *)
Fixpoint tick_loop (fuel : nat) (m : TimerManager) (tm : TaskManager) (task_timer_timeout : bool)
    : outcome (bool * TimerManager * TaskManager) :=
  match fuel with
  | O => NoFuel
  | S fuel' =>
      t ← of_option (pq_top (timers_ m));
      if tick_ m <? timeout_ t then mret (task_timer_timeout, m, tm)
      else if value_ t =? kTaskTimerValue then
        tick_loop fuel'
          (mkTimerManager (tick_ m)
             (pq_push (mkTimer (u64 (tick_ m + kTaskTimerPeriod)) kTaskTimerValue 1) (pq_pop (timers_ m))))
          tm true
      else
        '(_, tm) ← SendMessage tm (task_id_ t) (timeout_message t);
        tick_loop fuel' (mkTimerManager (tick_ m) (pq_pop (timers_ m))) tm task_timer_timeout
  end.

(** Each turn removes an expired timer, so as many turns as there are timers, and
    one to stop, are enough. *)
Definition Tick (m : TimerManager) (tm : TaskManager) : outcome (bool * TimerManager * TaskManager) :=
  let m := mkTimerManager (u64 (tick_ m + 1)) (timers_ m) in
  tick_loop (S (length (pq_elems (timers_ m)))) m tm false.

(** [LAPICTimerOnInterrupt]: the interrupted context is saved and the processor
    given away when the task timer expired. *)
Definition LAPICTimerOnInterrupt (m : TimerManager) (tm : TaskManager) (ctx_stack : TaskContext)
    : outcome (switch * TimerManager * TaskManager) :=
  '(task_timer_timeout, m, tm) ← Tick m tm;
  if task_timer_timeout : bool then '(sw, tm) ← SwitchTask tm ctx_stack; mret (sw, m, tm)
  else mret (NoSwitch, m, tm).

(** The last part of [InitializeTask]. *)
Definition add_task_timer (m : TimerManager) : TimerManager :=
  AddTimer m (mkTimer (u64 (tick_ m + kTaskTimerPeriod)) kTaskTimerValue 1).
End timer.
Arguments TimerManager Q : clear implicits.

(** ** What a tick does *)
Module TickFacts.
Import QueueFacts SchedFacts RunFacts.

Section tick.
Context {Q : Type} `{PQ : PriorityQueue Q}.
Implicit Types m : TimerManager Q.

Definition expired (tick : Z) (t : Timer) : bool := timeout_ t <=? tick.
Definition is_task_timer (t : Timer) : bool := value_ t =? kTaskTimerValue.

(** The messages of a list of timers, sent in its order. *)
Fixpoint send_timers (tm : TaskManager) (ts : list Timer) : outcome TaskManager :=
  match ts with
  | [] => mret tm
  | t :: ts => r ← SendMessage tm (task_id_ t) (timeout_message t); send_timers r.2 ts
  end.

Definition due (tick : Z) (b : bool) (l : list Timer) : list Timer :=
  filter (λ t, expired tick t = true ∧ is_task_timer t = b) l.
Definition pending (tick : Z) (l : list Timer) : list Timer := filter (λ t, expired tick t = false) l.

Lemma SendMessage_wf idle tm id msg : tm_wf idle tm →
  ∃ r tm', SendMessage tm id msg = Done (r, tm') ∧ tm_wf idle tm'.
Proof.
  intros Hwf. unfold SendMessage. destruct (tasks_ tm !! id) as [x|] eqn:Hx; [|by eexists _, _].
  destruct (task_SendMessage_spec idle tm id x msg Hwf Hx) as (tm' & -> & Hwf' & _). by eexists _, _.
Qed.

Definition rearmed (tick : Z) : Timer := mkTimer (u64 (tick + kTaskTimerPeriod)) kTaskTimerValue 1.

(** The loop, from any state of it. *)
Lemma tick_loop_spec idle fuel : ∀ m tm b,
  tm_wf idle tm → 0 ≤ tick_ m → tick_ m + kTaskTimerPeriod < 2 ^ 64 →
  (∃ t, t ∈ pq_elems (timers_ m) ∧ expired (tick_ m) t = false) →
  (length (filter (λ t, expired (tick_ m) t = true) (pq_elems (timers_ m))) < fuel)%nat →
  ∃ m' tm' sent, tick_loop fuel m tm b = Done (b || negb (bool_decide (due (tick_ m) true (pq_elems (timers_ m)) = [])), m', tm') ∧
    tick_ m' = tick_ m ∧ tm_wf idle tm' ∧
    send_timers tm sent = Done tm' ∧ sent ≡ₚ due (tick_ m) false (pq_elems (timers_ m)) ∧
    StronglySorted (λ t u, timeout_ t ≤ timeout_ u) sent ∧
    pq_elems (timers_ m') ≡ₚ replicate (length (due (tick_ m) true (pq_elems (timers_ m)))) (rearmed (tick_ m)) ++
      pending (tick_ m) (pq_elems (timers_ m)).
Proof.
  unfold kTaskTimerPeriod. induction fuel as [|fuel IH]; intros m tm b Hwf Ht0 Htick Hsent Hfuel; [lia|].
  cbn [tick_loop]. change kTaskTimerPeriod with 20. destruct (pq_top (timers_ m)) as [t|] eqn:Etop.
  2: { destruct Hsent as (t & Ht & _). rewrite (pq_top_none _ Etop) in Ht. by apply not_elem_of_nil in Ht. }
  destruct (pq_top_some _ _ Etop) as [Hperm Hmin]. cbn [of_option mbind outcome_bind].
  set (l := pq_elems (timers_ m)) in *. set (l' := pq_elems (pq_pop (timers_ m))) in *.
  assert (Hle : ∀ u, u ∈ l → timeout_ t ≤ timeout_ u) by (intros u Hu%Hmin; unfold timer_lt in Hu; by apply Z.ltb_ge).
  destruct (Z.ltb_spec (tick_ m) (timeout_ t)) as [Hlt|Hge].
  - (* nothing is due *)
    assert (Hnone : ∀ u, u ∈ l → expired (tick_ m) u = false).
    { intros u Hu%Hle. unfold expired. apply Z.leb_gt. lia. }
    assert (Hdue : ∀ b, due (tick_ m) b l = []).
    { intros b'. unfold due. apply list_filter_none. intros u Hu [He _]. rewrite Hnone in He by done. done. }
    exists m, tm, []. rewrite !Hdue. cbn [length replicate app]. rewrite bool_decide_eq_true_2, orb_false_r by done.
    split_and!; [done|done|done|done|done|constructor|]. unfold pending.
    rewrite (list_filter_all (λ t, expired (tick_ m) t = false) l); done.
  - assert (Het : expired (tick_ m) t = true) by (unfold expired; by apply Z.leb_le).
    assert (Hpend : pending (tick_ m) l ≡ₚ pending (tick_ m) l').
    { unfold pending. rewrite Hperm. rewrite filter_cons_False; [done|congruence]. }
    assert (Hlen : (length (filter (λ t, expired (tick_ m) t = true) l') < fuel)%nat).
    { rewrite Hperm, filter_cons_True in Hfuel by done. simpl in Hfuel. lia. }
    assert (Hsent' : ∃ t, t ∈ l' ∧ expired (tick_ m) t = false).
    { destruct Hsent as (u & Hu & Heu). exists u. split; [|done]. rewrite Hperm in Hu.
      apply elem_of_cons in Hu as [->|]; [congruence|done]. }
    destruct (value_ t =? kTaskTimerValue) eqn:Hv.
    + set (t' := mkTimer (u64 (tick_ m + 20)) kTaskTimerValue 1) in *.
      assert (Hrearm : expired (tick_ m) t' = false).
      { unfold expired, t'. simpl. rewrite wrap_small by lia. apply Z.leb_gt. lia. }
      set (m1 := mkTimerManager (tick_ m) (pq_push t' (pq_pop (timers_ m)))).
      assert (Hm1 : pq_elems (timers_ m1) ≡ₚ t' :: l') by apply pq_push_spec.
      destruct (IH m1 tm true) as (m' & tm' & sent & E & Htk & Hwf' & Hst & Hsp & Hss & Hq); [done|done|done| | |].
      { destruct Hsent' as (u & Hu & Heu). exists u. rewrite Hm1. split; [by apply list_elem_of_further|done]. }
      { change (tick_ m1) with (tick_ m). rewrite Hm1, filter_cons_False; [done|]. congruence. }
      simpl tick_ in *. exists m', tm', sent.
      assert (Hd : ∀ b, due (tick_ m) b (pq_elems (timers_ m1)) ≡ₚ due (tick_ m) b l').
      { intros b'. unfold due. rewrite Hm1, filter_cons_False; [done|]. intros [? _]. simpl in *. congruence. }
      assert (Hdl : due (tick_ m) true l ≡ₚ t :: due (tick_ m) true l').
      { unfold due. rewrite Hperm, filter_cons_True; [done|]. done. }
      assert (Hdf : due (tick_ m) false l ≡ₚ due (tick_ m) false l').
      { unfold due. rewrite Hperm, filter_cons_False; [done|]. unfold is_task_timer. rewrite Hv. by intros [_ ?]. }
      split_and!; [|done|done|done| |done|].
      * replace (b || _) with true; [exact E|]. rewrite bool_decide_eq_false_2; [by rewrite orb_true_r|].
        intros H0. rewrite H0 in Hdl. by apply Permutation_nil_cons in Hdl.
      * by rewrite Hsp, Hd, Hdf.
      * rewrite Hq, (Permutation_length Hdl), (Permutation_length (Hd true)). cbn [length replicate app].
        unfold pending at 1. rewrite Hm1, filter_cons_True by done. fold (pending (tick_ m) l').
        rewrite Hpend. unfold rearmed, kTaskTimerPeriod. fold t'. symmetry. apply Permutation_middle.
    + destruct (SendMessage_wf idle tm (task_id_ t) (timeout_message t) Hwf) as (r & tm1 & Es & Hwf1).
      rewrite Es. cbn [mbind outcome_bind]. set (m1 := mkTimerManager (tick_ m) (pq_pop (timers_ m))).
      destruct (IH m1 tm1 b) as (m' & tm' & sent & E & Htk & Hwf' & Hst & Hsp & Hss & Hq); [done..|].
      simpl tick_ in *. change (pq_elems (timers_ m1)) with l' in *.
      assert (Hdl : due (tick_ m) false l ≡ₚ t :: due (tick_ m) false l').
      { unfold due. rewrite Hperm, filter_cons_True; [done|]. done. }
      assert (Hdt : due (tick_ m) true l ≡ₚ due (tick_ m) true l').
      { unfold due. rewrite Hperm, filter_cons_False; [done|]. unfold is_task_timer. rewrite Hv. by intros [_ ?]. }
      exists m', tm', (t :: sent). split_and!; [|done|done| | | |].
      * rewrite E. f_equal. f_equal. f_equal. f_equal. f_equal. apply bool_decide_ext. split; intros H0.
        -- rewrite H0 in Hdt. by apply Permutation_nil_r in Hdt.
        -- rewrite H0 in Hdt. by apply Permutation_nil_r.
      * cbn [send_timers]. rewrite Es. exact Hst.
      * by rewrite Hsp, Hdl.
      * constructor; [done|]. apply Forall_forall. intros u Hu. apply Hle. rewrite Hsp in Hu.
        unfold due in Hu. apply list_elem_of_filter in Hu as [_ Hu]. rewrite Hperm. by apply list_elem_of_further.
      * rewrite Hq, (Permutation_length Hdt), Hpend. done.
Qed.
End tick.
End TickFacts.

Import QueueFacts TickFacts.

(** ** Properties *)

(** C34 Tick
    One tick always returns.  It advances the clock by one; the expired timers
    that are not the task timer are each sent once as a timeout message, in the
    order of their expiry; each expired task timer is replaced by one that
    expires [kTaskTimerPeriod] ticks later, and the result says whether there was
    one; the timers that have not expired stay, and none of those left has. *)
Theorem Tick_expires {Q : Type} {PQ : PriorityQueue Q} (idle : Z) (m : TimerManager Q) (tm : TaskManager)
  (Hwf : tm_wf idle tm) (Htick : 0 ≤ tick_ m) (Hmax : tick_ m + 1 + kTaskTimerPeriod < 2 ^ 64)
  (Hlast : ∃ t, t ∈ pq_elems (timers_ m) ∧ tick_ m + 1 < timeout_ t) :
  let now := tick_ m + 1 in
  let timers := pq_elems (timers_ m) in
  ∃ b m' tm' sent, Tick m tm = Done (b, m', tm') ∧ tick_ m' = now ∧ tm_wf idle tm' ∧
    send_timers tm sent = Done tm' ∧
    sent ≡ₚ filter (λ t, timeout_ t ≤ now ∧ value_ t ≠ kTaskTimerValue) timers ∧
    StronglySorted (λ t u, timeout_ t ≤ timeout_ u) sent ∧
    (b = true ↔ ∃ t, t ∈ timers ∧ timeout_ t ≤ now ∧ value_ t = kTaskTimerValue) ∧
    pq_elems (timers_ m') ≡ₚ
      replicate (length (filter (λ t, timeout_ t ≤ now ∧ value_ t = kTaskTimerValue) timers))
        (mkTimer (now + kTaskTimerPeriod) kTaskTimerValue 1) ++ filter (λ t, now < timeout_ t) timers ∧
    ∀ t, t ∈ pq_elems (timers_ m') → now < timeout_ t.
Proof.
  intros now timers.
  assert (Hnow : u64 (tick_ m + 1) = now) by (apply wrap_small; unfold kTaskTimerPeriod in *; lia).
  set (m1 := mkTimerManager now (timers_ m)).
  destruct (tick_loop_spec idle (S (length timers)) m1 tm false) as (m' & tm' & sent & E & Htk & Hwf' & Hst & Hsp & Hss & Hq).
  { done. } { unfold m1, now. simpl. lia. } { unfold m1, now. simpl. lia. }
  { destruct Hlast as (t & Ht & Hlt). exists t. split; [done|]. unfold expired. apply Z.leb_gt. unfold m1, now. simpl. lia. }
  { apply Nat.lt_succ_r, length_filter. }
  change (pq_elems (timers_ m1)) with timers in *. change (tick_ m1) with now in *.
  assert (Hd : ∀ b, due now b timers = filter (λ t, timeout_ t ≤ now ∧ is_task_timer t = b) timers).
  { intros b. unfold due. apply list_filter_iff. intros t. unfold expired. by rewrite Z.leb_le. }
  assert (Hdt : due now true timers = filter (λ t, timeout_ t ≤ now ∧ value_ t = kTaskTimerValue) timers).
  { rewrite Hd. apply list_filter_iff. intros t. unfold is_task_timer. by rewrite Z.eqb_eq. }
  assert (Hpend : pending now timers = filter (λ t, now < timeout_ t) timers).
  { apply list_filter_iff. intros t. unfold expired. apply Z.leb_gt. }
  eexists _, m', tm', sent. split_and!; [unfold Tick; rewrite Hnow; exact E|done|done|done| |done| | |].
  - rewrite Hsp, Hd. rewrite (list_filter_iff _ (λ t, timeout_ t ≤ now ∧ value_ t ≠ kTaskTimerValue)); [done|].
    intros t. unfold is_task_timer. rewrite Z.eqb_neq. done.
  - rewrite orb_false_l, negb_true_iff, bool_decide_eq_false, Hdt. split.
    + intros Hne. destruct (filter _ timers) as [|t l] eqn:Ef; [done|]. exists t.
      assert (Hin : t ∈ filter (λ t, timeout_ t ≤ now ∧ value_ t = kTaskTimerValue) timers)
        by (rewrite Ef; apply list_elem_of_here).
      apply list_elem_of_filter in Hin. tauto.
    + intros (t & Ht & Hp) Hnil. exact (filter_nil_not_elem_of _ _ t Hnil Hp Ht).
  - rewrite Hq, Hdt, Hpend. unfold rearmed. rewrite wrap_small by (unfold now, kTaskTimerPeriod in *; lia). done.
  - intros t. rewrite Hq, elem_of_app, Hpend. intros [Ht|Ht].
    + apply elem_of_replicate_inv in Ht as ->. unfold rearmed. simpl.
      rewrite wrap_small by (unfold now, kTaskTimerPeriod in *; lia). unfold kTaskTimerPeriod. lia.
    + apply list_elem_of_filter in Ht. tauto.
Qed.

(** A manager at tick 9 with two timers for task 3, the task timer, and the last one. *)
Definition sample_timers : TimerManager (list Timer) :=
  mkTimerManager 9 [mkTimer (2 ^ 64 - 1) 0 0; mkTimer 10 kTaskTimerValue 1; mkTimer 10 7 3; mkTimer 8 6 3].

Lemma Tick_expires_witness :
  ∃ m' tm', Tick sample_timers sample_tm = Done (true, m', tm') ∧ tick_ m' = 10 ∧
    (∃ x, tasks_ tm' !! 3 = Some x ∧
       msgs_ x = [mkMessage 0 (kTimerTimeout 8 6); mkMessage 0 (kTimerTimeout 10 7)]).
Proof.
  destruct (Tick_expires 2 sample_timers sample_tm sample_tm_wf) as (b & m' & tm' & sent & E & Ht & _ & _ & _ & _ & Hb & _).
  - simpl. lia.
  - vm_compute. reflexivity.
  - exists (mkTimer (2 ^ 64 - 1) 0 0). split; [apply list_elem_of_here|vm_compute; reflexivity].
  - exists m', tm'. assert (b = true) as ->.
    { apply Hb. exists (mkTimer 10 kTaskTimerValue 1). split_and!; [|simpl; lia|reflexivity].
      apply list_elem_of_further, list_elem_of_here. }
    split; [exact E|]. split; [exact Ht|]. vm_compute in E. injection E as <- <-.
    eexists. split; vm_compute; reflexivity.
Defined.
