(* ===== verification/Graphics.v ===== *)
(** Vectors, rectangles, colours and drawing through a pixel writer:
    src/kernel/graphics.{hpp,cpp}.  Coordinates are [int]s far from overflow
    (screens are some thousand pixels wide), modelled by integers. *)
From S2P Require Import Prelude.

(** [Vector2D<int>] *)
Record Vector2D : Set := mkVec { vx : Z; vy : Z }.

#[export] Instance Vector2D_eq_dec : EqDecision Vector2D.
Proof. solve_decision. Defined.

Definition vec_add (a b : Vector2D) : Vector2D := mkVec (vx a + vx b) (vy a + vy b).
Definition vec_sub (a b : Vector2D) : Vector2D := mkVec (vx a - vx b) (vy a - vy b).
Definition ElementMax (lhs rhs : Vector2D) : Vector2D := mkVec (Z.max (vx lhs) (vx rhs)) (Z.max (vy lhs) (vy rhs)).
Definition ElementMin (lhs rhs : Vector2D) : Vector2D := mkVec (Z.min (vx lhs) (vx rhs)) (Z.min (vy lhs) (vy rhs)).

Infix "+v" := vec_add (at level 50, left associativity) : minos_scope.
Infix "-v" := vec_sub (at level 50, left associativity) : minos_scope.
#[global] Open Scope minos_scope.

(** [Rectangle<int>] *)
Record Rectangle : Set := mkRect { rpos : Vector2D; rsize : Vector2D }.

(** [operator&] *)
Definition rect_and (lhs rhs : Rectangle) : Rectangle :=
  let lhs_end := rpos lhs +v rsize lhs in
  let rhs_end := rpos rhs +v rsize rhs in
  if (vx lhs_end <? vx (rpos rhs)) || (vy lhs_end <? vy (rpos rhs)) ||
     (vx rhs_end <? vx (rpos lhs)) || (vy rhs_end <? vy (rpos lhs))
  then mkRect (mkVec 0 0) (mkVec 0 0)
  else
    let new_pos := ElementMax (rpos lhs) (rpos rhs) in
    mkRect new_pos (ElementMin lhs_end rhs_end -v new_pos).

Record PixelColor : Set := mkColor { cr : Z; cg : Z; cb : Z }.

#[export] Instance PixelColor_eq_dec : EqDecision PixelColor.
Proof. solve_decision. Defined.

Definition ToColor (c : Z) : PixelColor :=
  mkColor (u8 (Z.land (Z.shiftr c 16) 0xff)) (u8 (Z.land (Z.shiftr c 8) 0xff)) (u8 (Z.land c 0xff)).

(** ** Pixel writers *)

(** [class PixelWriter], over the state the writer draws on. *)
Class PixelWriter (S : Type) := {
  Write : S → Vector2D → PixelColor → outcome S;
  Width : S → Z;
  Height : S → Z;
}.

Section draw.
Context {S : Type} `{PixelWriter S}.

Definition FillRectangle (writer : S) (pos size : Vector2D) (c : PixelColor) : outcome S :=
  for_loop 0 (vy size) (λ dy, for_loop 0 (vx size) (λ dx w, Write w (pos +v mkVec dx dy) c)) writer.

Definition DrawRectangle (writer : S) (pos size : Vector2D) (c : PixelColor) : outcome S :=
  writer ← for_loop 0 (vx size) (λ dx w,
    w ← Write w (pos +v mkVec dx 0) c;
    Write w (pos +v mkVec dx (vy size - 1)) c) writer;
  for_loop 0 (vy size) (λ dy w,
    w ← Write w (pos +v mkVec 0 dy) c;
    Write w (pos +v mkVec (vx size - 1) dy) c) writer.

Definition kDesktopBGColor : PixelColor := mkColor 45 118 237.
Definition kDesktopFGColor : PixelColor := mkColor 255 255 255.
Definition kTaskbarHeight : Z := 50.

Definition DrawDesktop (writer : S) : outcome S :=
  let width := Width writer in
  let height := Height writer in
  w ← FillRectangle writer (mkVec 0 0) (mkVec width (height - kTaskbarHeight)) kDesktopBGColor;
  w ← FillRectangle w (mkVec 0 (height - kTaskbarHeight)) (mkVec width kTaskbarHeight) (mkColor 1 8 17);
  w ← FillRectangle w (mkVec 0 (height - kTaskbarHeight)) (mkVec (Z.quot width 5) kTaskbarHeight) (mkColor 80 80 80);
  FillRectangle w (mkVec 10 (height - kTaskbarHeight + 10)) (mkVec 30 30) (mkColor 160 160 160).
End draw.

(** ** What a pixel writer promises *)

(** The picture a writer draws on: a write inside it changes that pixel only. *)
Class PixelWriterLaws (S : Type) `{PixelWriter S} := {
  pw_ok : S → Prop;
  pixel : S → Vector2D → PixelColor;
  Write_spec w pos c : pw_ok w → 0 ≤ vx pos < Width w → 0 ≤ vy pos < Height w →
    ∃ w', Write w pos c = Done w' ∧ pw_ok w' ∧ Width w' = Width w ∧ Height w' = Height w ∧
      ∀ p, 0 ≤ vx p < Width w → 0 ≤ vy p < Height w →
        pixel w' p = if decide (p = pos) then c else pixel w p;
}.

(** [p] lies in the rectangle. *)
Definition inside (p pos size : Vector2D) : bool :=
  (vx pos <=? vx p) && (vx p <? vx pos + vx size) && (vy pos <=? vy p) && (vy p <? vy pos + vy size).

Definition on_screen {S} `{PixelWriter S} (w : S) (p : Vector2D) : Prop :=
  0 ≤ vx p < Width w ∧ 0 ≤ vy p < Height w.

Module DrawFacts.
Section draw.
Context {S : Type} `{PW : PixelWriter S} {PL : PixelWriterLaws S}.

(** [w'] is [w] with the pixels of [P] set to [c]. *)
Record painted (P : Vector2D → bool) (c : PixelColor) (w w' : S) : Prop := {
  painted_ok : pw_ok w';
  painted_width : Width w' = Width w;
  painted_height : Height w' = Height w;
  painted_pixel : ∀ p, on_screen w p → pixel w' p = if P p then c else pixel w p;
}.

Lemma painted_none c w : pw_ok w → painted (λ _, false) c w w.
Proof. by split. Qed.

Lemma painted_ext P Q c w w' : (∀ p, on_screen w p → P p = Q p) → painted P c w w' → painted Q c w w'.
Proof. intros HPQ [H1 H2 H3 H4]. split; [done..|]. intros p Hp. by rewrite H4, HPQ. Qed.

Lemma painted_more P Q c w w1 w2 : painted P c w w1 → painted Q c w1 w2 →
  painted (λ p, P p || Q p) c w w2.
Proof.
  intros [O1 W1 H1 X1] [O2 W2 H2 X2]. split; [done|congruence|congruence|]. intros p Hp.
  rewrite X2 by (unfold on_screen in *; by rewrite W1, H1). rewrite X1 by done. by destruct (P p), (Q p).
Qed.

Lemma Write_painted w pos c : pw_ok w → on_screen w pos →
  ∃ w', Write w pos c = Done w' ∧ painted (λ p, bool_decide (p = pos)) c w w'.
Proof.
  intros Hok [Hx Hy]. destruct (Write_spec w pos c Hok Hx Hy) as (w' & E & Hok' & HW & HH & Hpx).
  exists w'. split; [done|]. split; [done..|]. intros p [Hpx1 Hpy1]. rewrite Hpx by done.
  case_decide; [by rewrite bool_decide_eq_true_2|by rewrite bool_decide_eq_false_2].
Qed.

Lemma FillRectangle_painted w pos size c : pw_ok w →
  0 ≤ vx pos → 0 ≤ vy pos → 0 ≤ vx size → 0 ≤ vy size →
  vx pos + vx size ≤ Width w → vy pos + vy size ≤ Height w →
  ∃ w', FillRectangle w pos size c = Done w' ∧ painted (λ p, inside p pos size) c w w'.
Proof.
  intros Hok Hx Hy Hsx Hsy HW HH. unfold FillRectangle.
  destruct (for_loop_inv (λ dy w', painted (λ p, inside p pos (mkVec (vx size) dy)) c w w') 0 (vy size)
    (λ dy, for_loop 0 (vx size) (λ dx w, Write w (pos +v mkVec dx dy) c)) w) as (w' & E & Hp); [done| | |].
  - apply (painted_ext (λ _, false)); [|by apply painted_none]. intros p _. unfold inside. simpl.
    bool_cases; simpl; try done; lia.
  - intros dy w1 Hdy Hw1.
    destruct (for_loop_inv (λ dx w', painted (λ p, inside p pos (mkVec (vx size) dy) ||
        inside p (pos +v mkVec 0 dy) (mkVec dx 1)) c w w') 0 (vx size)
      (λ dx w, Write w (pos +v mkVec dx dy) c) w1) as (w' & E & Hp); [done| | |].
    + apply (painted_ext (λ p, inside p pos (mkVec (vx size) dy))); [|done]. intros p _. unfold inside. simpl.
      bool_cases; simpl; try done; lia.
    + intros dx w2 Hdx Hw2.
      destruct (Write_painted w2 (pos +v mkVec dx dy) c) as (w' & E & Hp); [apply Hw2| |].
      { unfold on_screen. rewrite (painted_width _ _ _ _ Hw2), (painted_height _ _ _ _ Hw2). simpl. lia. }
      exists w'. split; [done|]. eapply painted_ext; [|by apply (painted_more _ _ _ _ _ _ Hw2 Hp)].
      intros [px py] _. unfold inside. simpl.
      destruct (decide (mkVec px py = pos +v mkVec dx dy)) as [Heq|Hne].
      * injection Heq as -> ->. rewrite bool_decide_eq_true_2 by done. bool_cases; simpl; try done; lia.
      * rewrite bool_decide_eq_false_2 by done.
        assert (px ≠ vx pos + dx ∨ py ≠ vy pos + dy) by
          (destruct (decide (px = vx pos + dx)), (decide (py = vy pos + dy)); subst; tauto).
        bool_cases; simpl; try done; lia.
    + exists w'. split; [done|]. eapply painted_ext; [|done]. intros p _. unfold inside. simpl.
      bool_cases; simpl; try done; lia.
  - exists w'. split; [done|]. by destruct size.
Qed.
(** [w'] is [w] with the pixels where [f] gives a colour set to it. *)
Record drawn (f : Vector2D → option PixelColor) (w w' : S) : Prop := {
  drawn_ok : pw_ok w';
  drawn_width : Width w' = Width w;
  drawn_height : Height w' = Height w;
  drawn_pixel : ∀ p, on_screen w p → pixel w' p = default (pixel w p) (f p);
}.

Lemma drawn_none w : pw_ok w → drawn (λ _, None) w w.
Proof. by split. Qed.

Lemma drawn_ext f g w w' : (∀ p, on_screen w p → f p = g p) → drawn f w w' → drawn g w w'.
Proof. intros Hfg [H1 H2 H3 H4]. split; [done..|]. intros p Hp. by rewrite H4, Hfg. Qed.

Lemma drawn_more f g w w1 w2 : drawn f w w1 → drawn g w1 w2 →
  drawn (λ p, match g p with Some c => Some c | None => f p end) w w2.
Proof.
  intros [O1 W1 H1 X1] [O2 W2 H2 X2]. split; [done|congruence|congruence|]. intros p Hp.
  rewrite X2 by (unfold on_screen in *; by rewrite W1, H1). rewrite X1 by done. by destruct (g p).
Qed.

Lemma Write_drawn w pos c : pw_ok w → on_screen w pos →
  ∃ w', Write w pos c = Done w' ∧ drawn (λ p, if decide (p = pos) then Some c else None) w w'.
Proof.
  intros Hok [Hx Hy]. destruct (Write_spec w pos c Hok Hx Hy) as (w' & E & Hok' & HW & HH & Hpx).
  exists w'. split; [done|]. split; [done..|]. intros p [Hpx1 Hpy1]. rewrite Hpx by done. by case_decide.
Qed.

(** Loops over the columns and rows of an area at [pos] whose body draws one
    pixel as [g] says; [Q] is any further invariant of the body. *)
Lemma draw_loop (Q : S → Prop) pos xlo xhi ylo yhi (g : Vector2D → option PixelColor) (body : Z → Z → S → outcome S) w :
  pw_ok w → Q w →
  (∀ x y w1, xlo ≤ x < xhi → ylo ≤ y < yhi → pw_ok w1 → Q w1 → Width w1 = Width w → Height w1 = Height w →
    ∃ w2, body y x w1 = Done w2 ∧ Q w2 ∧ drawn (λ p, if decide (p = pos +v mkVec x y) then g p else None) w1 w2) →
  ∃ w', for_loop ylo yhi (λ y, for_loop xlo xhi (body y)) w = Done w' ∧ Q w' ∧
    drawn (λ p, if inside p (pos +v mkVec xlo ylo) (mkVec (xhi - xlo) (yhi - ylo)) then g p else None) w w'.
Proof.
  intros Hok HQ Hbody.
  assert (Hnone : yhi ≤ ylo ∨ xhi ≤ xlo →
    ∀ p, inside p (pos +v mkVec xlo ylo) (mkVec (xhi - xlo) (yhi - ylo)) = false).
  { intros Hor p. unfold inside. simpl. bool_lia. }
  destruct (decide (yhi ≤ ylo)) as [Hy|Hy].
  { exists w. rewrite for_loop_nil by done. split_and!; [done..|]. eapply drawn_ext; [|by apply drawn_none].
    intros p _. simpl. by rewrite Hnone by (by left). }
  destruct (for_loop_inv (λ y w', Q w' ∧ drawn (λ p, if inside p (pos +v mkVec xlo ylo) (mkVec (xhi - xlo) (y - ylo))
      then g p else None) w w') ylo yhi (λ y, for_loop xlo xhi (body y)) w) as (w' & E & HQ' & Hd); [lia| | |by exists w'].
  { split; [done|]. eapply drawn_ext; [|by apply drawn_none]. intros p _. simpl.
    assert (inside p (pos +v mkVec xlo ylo) (mkVec (xhi - xlo) (ylo - ylo)) = false) as -> by (unfold inside; simpl; bool_lia).
    done. }
  intros y w1 Hyr [HQ1 Hd1]. destruct (decide (xhi ≤ xlo)) as [Hx|Hx].
  { exists w1. rewrite for_loop_nil by done. split_and!; [done..|]. eapply drawn_ext; [|done]. intros p _. simpl.
    unfold inside. simpl. bool_lia. }
  destruct (for_loop_inv (λ x w', Q w' ∧ drawn (λ p, if inside p (pos +v mkVec xlo ylo) (mkVec (xhi - xlo) (y - ylo)) ||
      inside p (pos +v mkVec xlo y) (mkVec (x - xlo) 1) then g p else None) w w') xlo xhi (body y) w1)
    as (w' & E & HQ' & Hd); [lia| | |].
  - split; [done|]. eapply drawn_ext; [|done]. intros p _. simpl.
    assert (inside p (pos +v mkVec xlo y) (mkVec (xlo - xlo) 1) = false) as -> by (unfold inside; simpl; bool_lia).
    by rewrite orb_false_r.
  - intros x w2 Hxr [HQ2 Hd2].
    destruct (Hbody x y w2) as (w3 & E & HQ3 & Hd3); [done|done|apply Hd2|done|apply Hd2|apply Hd2|].
    exists w3. split; [done|]. split; [done|]. eapply drawn_ext; [|by apply (drawn_more _ _ _ _ _ Hd2 Hd3)].
    intros [a b] _. simpl. case_decide as Heq.
    + rewrite Heq. assert (inside (pos +v mkVec x y) (pos +v mkVec xlo y) (mkVec (x + 1 - xlo) 1) = true) as ->
        by (unfold inside; simpl; bool_lia).
      rewrite orb_true_r. by destruct (g _); [|destruct (_ || _)].
    + assert (a ≠ vx pos + x ∨ b ≠ vy pos + y).
      { destruct (decide (a = vx pos + x)), (decide (b = vy pos + y)); subst; tauto. }
      assert (inside (mkVec a b) (pos +v mkVec xlo y) (mkVec (x + 1 - xlo) 1) =
        inside (mkVec a b) (pos +v mkVec xlo y) (mkVec (x - xlo) 1)) as -> by (unfold inside; simpl; bool_lia).
      done.
  - exists w'. split; [done|]. split; [done|]. eapply drawn_ext; [|done]. intros p _. simpl.
    assert (inside p (pos +v mkVec xlo ylo) (mkVec (xhi - xlo) (y + 1 - ylo)) =
      inside p (pos +v mkVec xlo ylo) (mkVec (xhi - xlo) (y - ylo)) || inside p (pos +v mkVec xlo y) (mkVec (xhi - xlo) 1))
      as -> by (unfold inside; simpl; bool_lia).
    done.
Qed.
End draw.

(** A point is in both rectangles exactly when it is in their intersection. *)
Lemma rect_and_inside a b p : 
  inside p (rpos (rect_and a b)) (rsize (rect_and a b)) =
    inside p (rpos a) (rsize a) && inside p (rpos b) (rsize b).
Proof.
  unfold rect_and. destruct (_ || _) eqn:E.
  - unfold inside. simpl. rewrite !orb_true_iff, !Z.ltb_lt in E. simpl in E. bool_cases; simpl; try done; lia.
  - rewrite !orb_false_iff, !Z.ltb_ge in E. simpl in E. unfold inside. simpl. bool_cases; simpl; try done; lia.
Qed.
End DrawFacts.
