(* ===== verification/FrameBuffer.v ===== *)
(** Frame buffers: src/kernel/frame_buffer.{hpp,cpp}, frame_buffer_config.hpp and
    the writers of graphics.{hpp,cpp} that draw on them. *)
From S2P Require Import Prelude ErrorCode Graphics.

Inductive PixelFormat : Set :=
| kPixelRGBResv8BitPerColor
| kPixelBGRResv8BitPerColor.

#[export] Instance PixelFormat_eq_dec : EqDecision PixelFormat.
Proof. solve_decision. Defined.

(** A block of memory: its bytes and its length. *)
Record buffer : Set := mkBuffer { bytes : gmap Z Z; blen : Z }.

(** [struct FrameBufferConfig]; a null [frame_buffer] is [None]. *)
Record FrameBufferConfig : Set := mkConfig {
  frame_buffer : option buffer;
  pixels_per_scan_line : Z;
  horizontal_resolution : Z;
  vertical_resolution : Z;
  pixel_format : PixelFormat;
}.

(** [class FrameBuffer]: the configuration and the memory its [frame_buffer]
    points to (the vector [buffer_], or the memory it was given). *)
Record FrameBuffer : Set := mkFB { config_ : FrameBufferConfig; fb_mem : buffer }.

Definition BytesPerPixel (format : PixelFormat) : Z :=
  match format with
  | kPixelRGBResv8BitPerColor => 4
  | kPixelBGRResv8BitPerColor => 4
  end.

(** Offset of the pixel at [pos]; the arithmetic is unsigned, of 32 bits. *)
Definition FrameAddrAt (pos : Vector2D) (config : FrameBufferConfig) : Z :=
  u32 (BytesPerPixel (pixel_format config) * u32 (pixels_per_scan_line config * vy pos + vx pos)).

Definition BytesPerScanLine (config : FrameBufferConfig) : Z :=
  i32 (u32 (BytesPerPixel (pixel_format config) * pixels_per_scan_line config)).

Definition FrameBufferSize (config : FrameBufferConfig) : Vector2D :=
  mkVec (i32 (horizontal_resolution config)) (i32 (vertical_resolution config)).

(** [FrameBuffer::Initialize] *)
Definition Initialize (config : FrameBufferConfig) : WithError FrameBuffer :=
  let bytes_per_pixel := BytesPerPixel (pixel_format config) in
  match frame_buffer config with
  | Some b => mkWithError (mkFB config b) kSuccess
  | None =>
      let b := mkBuffer ∅ (u32 (u32 (bytes_per_pixel * horizontal_resolution config) * vertical_resolution config)) in
      mkWithError (mkFB (mkConfig (Some b) (horizontal_resolution config) (horizontal_resolution config)
                    (vertical_resolution config) (pixel_format config)) b) kSuccess
  end.

(** ** Bytes *)

Definition store (b : buffer) (i v : Z) : outcome buffer :=
  m ← arr_set (blen b) (bytes b) i v; mret (mkBuffer m (blen b)).

(** The bytes of [dst] from [d] on become those of [src] from [s] on. *)
Definition blit (dst src : buffer) (d s n : Z) : gmap Z Z :=
  foldr (λ i m, <[d + i := arr_read (bytes src) (s + i)]> m) (bytes dst) (seqZ 0 n).

(** [memcpy] between two blocks, and within one block, where it must not overlap. *)
Definition memcpy (dst src : buffer) (d s n : Z) : outcome buffer :=
  if (n <=? 0) then mret dst
  else if (0 <=? d) && (d + n <=? blen dst) && (0 <=? s) && (s + n <=? blen src)
  then mret (mkBuffer (blit dst src d s n) (blen dst))
  else Undef.

Definition memcpy_within (b : buffer) (d s n : Z) : outcome buffer :=
  if (0 <? n) && (Z.abs (d - s) <? n) then Undef else memcpy b b d s n.

(** ** Writers *)

(** [FrameBufferWriter::PixelAt] *)
Definition PixelAt (config : FrameBufferConfig) (pos : Vector2D) : Z :=
  u32 (4 * u32 (pixels_per_scan_line config * vy pos + vx pos)).

(** [Write] of the two pixel writers. *)
Definition write_rgb (b : buffer) (config : FrameBufferConfig) (pos : Vector2D) (c : PixelColor) : outcome buffer :=
  let p := PixelAt config pos in
  b ← store b p (cr c); b ← store b (p + 1) (cg c); store b (p + 2) (cb c).

Definition write_bgr (b : buffer) (config : FrameBufferConfig) (pos : Vector2D) (c : PixelColor) : outcome buffer :=
  let p := PixelAt config pos in
  b ← store b p (cb c); b ← store b (p + 1) (cg c); store b (p + 2) (cr c).

(** The writer that [Initialize] chose. *)
Definition fb_Write (fb : FrameBuffer) (pos : Vector2D) (c : PixelColor) : outcome FrameBuffer :=
  b ← match pixel_format (config_ fb) with
      | kPixelRGBResv8BitPerColor => write_rgb (fb_mem fb) (config_ fb) pos c
      | kPixelBGRResv8BitPerColor => write_bgr (fb_mem fb) (config_ fb) pos c
      end;
  mret (mkFB (config_ fb) b).

#[export] Instance FrameBufferWriter : PixelWriter FrameBuffer := {|
  Write := fb_Write;
  Width fb := i32 (horizontal_resolution (config_ fb));
  Height fb := i32 (vertical_resolution (config_ fb));
|}.

(** ** Copy and Move *)

(** The rows of [Copy]: offsets into the two blocks. *)
Fixpoint copy_rows (k : nat) (dst src : buffer) (dst_buf src_buf n dst_line src_line : Z) : outcome buffer :=
  match k with
  | O => mret dst
  | S k' =>
      dst ← memcpy dst src dst_buf src_buf n;
      copy_rows k' dst src (dst_buf + dst_line) (src_buf + src_line) n dst_line src_line
  end.

Definition Copy (fb : FrameBuffer) (dst_pos : Vector2D) (src : FrameBuffer) (src_area : Rectangle)
    : outcome (Code * FrameBuffer) :=
  if negb (bool_decide (pixel_format (config_ fb) = pixel_format (config_ src)))
  then mret (kUnknownPixelFormat, fb)
  else
    let bytes_per_pixel := BytesPerPixel (pixel_format (config_ fb)) in
    if bytes_per_pixel <=? 0 then mret (kUnknownPixelFormat, fb)
    else
      let src_area_shifted := mkRect dst_pos (rsize src_area) in
      let src_outline := mkRect (dst_pos -v rpos src_area) (FrameBufferSize (config_ src)) in
      let dst_outline := mkRect (mkVec 0 0) (FrameBufferSize (config_ fb)) in
      let copy_area := rect_and (rect_and dst_outline src_outline) src_area_shifted in
      if (vx (rsize copy_area) <=? 0) || (vy (rsize copy_area) <=? 0) then mret (kSuccess, fb)
      else
        let src_start_pos := rpos src_area +v (rpos copy_area -v dst_pos) in
        let dst_buf := FrameAddrAt (rpos copy_area) (config_ fb) in
        let src_buf := FrameAddrAt src_start_pos (config_ src) in
        b ← copy_rows (Z.to_nat (vy (rsize copy_area))) (fb_mem fb) (fb_mem src) dst_buf src_buf
              (bytes_per_pixel * vx (rsize copy_area))
              (BytesPerScanLine (config_ fb)) (BytesPerScanLine (config_ src));
        mret (kSuccess, mkFB (config_ fb) b).

(** The rows of [Move], within one block. *)
Fixpoint move_rows (k : nat) (b : buffer) (dst_buf src_buf n line : Z) : outcome buffer :=
  match k with
  | O => mret b
  | S k' => b ← memcpy_within b dst_buf src_buf n; move_rows k' b (dst_buf + line) (src_buf + line) n line
  end.

(** [FrameBuffer::Move] *)
Definition fb_Move (fb : FrameBuffer) (dst_pos : Vector2D) (src : Rectangle) : outcome FrameBuffer :=
  let bytes_per_pixel := BytesPerPixel (pixel_format (config_ fb)) in
  let bytes_per_scan_line := BytesPerScanLine (config_ fb) in
  let n := bytes_per_pixel * vx (rsize src) in
  b ← (if vy dst_pos <? vy (rpos src) then
         move_rows (Z.to_nat (vy (rsize src))) (fb_mem fb)
           (FrameAddrAt dst_pos (config_ fb)) (FrameAddrAt (rpos src) (config_ fb)) n bytes_per_scan_line
       else
         let last := mkVec 0 (vy (rsize src) - 1) in
         move_rows (Z.to_nat (vy (rsize src))) (fb_mem fb)
           (FrameAddrAt (dst_pos +v last) (config_ fb)) (FrameAddrAt (rpos src +v last) (config_ fb)) n
           (- bytes_per_scan_line));
  mret (mkFB (config_ fb) b).

(** ** Pixels of a frame buffer *)
Module FBFacts.
Import DrawFacts.

(** A frame buffer whose memory holds its lines and is addressed without wrap-around. *)
Record fb_ok (fb : FrameBuffer) : Prop := {
  ok_width : 0 ≤ horizontal_resolution (config_ fb) ≤ pixels_per_scan_line (config_ fb);
  ok_height : 0 ≤ vertical_resolution (config_ fb) < 2 ^ 31;
  ok_line : 4 * pixels_per_scan_line (config_ fb) < 2 ^ 31;
  ok_len : 4 * (pixels_per_scan_line (config_ fb) * vertical_resolution (config_ fb)) ≤ blen (fb_mem fb);
  ok_small : 4 * (pixels_per_scan_line (config_ fb) * vertical_resolution (config_ fb)) < 2 ^ 31;
}.

(** Byte [k] of the pixel in column [x] of line [y], for lines of [P] pixels. *)
Definition at_pixel (b : buffer) (P x y k : Z) : Z := arr_read (bytes b) (4 * (P * y + x) + k).

Definition px (fb : FrameBuffer) (p : Vector2D) (k : Z) : Z :=
  at_pixel (fb_mem fb) (pixels_per_scan_line (config_ fb)) (vx p) (vy p) k.

Lemma blit_read dst src d s n a : 0 ≤ n →
  arr_read (blit dst src d s n) a =
    if decide (d ≤ a < d + n) then arr_read (bytes src) (s + (a - d)) else arr_read (bytes dst) a.
Proof.
  intros Hn. unfold blit. rewrite <- (Z2Nat.id n) by done. generalize (Z.to_nat n) as k. clear Hn n. intros k.
  assert (H : ∀ b, arr_read (foldr (λ i m, <[d + i := arr_read (bytes src) (s + i)]> m) (bytes dst)
      (seqZ b (Z.of_nat k))) a =
    if decide (d + b ≤ a < d + b + Z.of_nat k) then arr_read (bytes src) (s + (a - d)) else arr_read (bytes dst) a).
  { induction k as [|k IH]; intros b.
    - rewrite decide_False by lia. done.
    - rewrite seqZ_cons by lia. cbn [foldr]. replace (Z.pred (Z.of_nat (S k))) with (Z.of_nat k) by lia.
      rewrite arr_read_set, IH. clear IH. destruct (decide (d + b = a)) as [Ha|Ha].
      + rewrite decide_True by lia. f_equal. lia.
      + destruct (decide (d + Z.succ b ≤ a < d + Z.succ b + Z.of_nat k)).
        * by rewrite decide_True by lia.
        * by rewrite decide_False by lia. }
  specialize (H 0). by rewrite Z.add_0_r in H.
Qed.

(** Which bytes of which pixels a run of [w] pixels in line [r] covers. *)
Lemma row_range P r x0 w x y k : 0 ≤ x < P → 0 ≤ k < 4 → 0 ≤ x0 → x0 + w ≤ P →
  4 * (P * r + x0) ≤ 4 * (P * y + x) + k < 4 * (P * r + x0) + 4 * w ↔ y = r ∧ x0 ≤ x < x0 + w.
Proof.
  intros Hx Hk H0 Hw. split; [|intros [-> ?]; lia].
  destruct (Z.lt_trichotomy y r) as [Hlt|[->|Hgt]]; [|lia|].
  - assert (P * (y + 1) ≤ P * r) by (apply Z.mul_le_mono_nonneg_l; lia). lia.
  - assert (P * (r + 1) ≤ P * y) by (apply Z.mul_le_mono_nonneg_l; lia). lia.
Qed.

(** One line copied from [src] to [dst]. *)
Lemma memcpy_row dst src P Q r sr x0 sx w : 0 < w → 0 ≤ r → 0 ≤ sr → 0 ≤ x0 → x0 + w ≤ P →
  0 ≤ sx → sx + w ≤ Q → 4 * (P * (r + 1)) ≤ blen dst → 4 * (Q * (sr + 1)) ≤ blen src →
  ∃ b, memcpy dst src (4 * (P * r + x0)) (4 * (Q * sr + sx)) (4 * w) = Done b ∧ blen b = blen dst ∧
    ∀ x y k, 0 ≤ x < P → 0 ≤ k < 4 → at_pixel b P x y k =
      if decide (y = r ∧ x0 ≤ x < x0 + w) then at_pixel src Q (sx + (x - x0)) sr k else at_pixel dst P x y k.
Proof.
  intros Hw Hr Hsr Hx0 Hxw Hsx Hsw Hlen Hslen. unfold memcpy.
  assert (0 ≤ P * r) by (apply Z.mul_nonneg_nonneg; lia). assert (0 ≤ Q * sr) by (apply Z.mul_nonneg_nonneg; lia).
  destruct (Z.leb_spec (4 * w) 0); [lia|].
  assert ((0 <=? 4 * (P * r + x0)) && (4 * (P * r + x0) + 4 * w <=? blen dst) &&
    (0 <=? 4 * (Q * sr + sx)) && (4 * (Q * sr + sx) + 4 * w <=? blen src) = true) as ->
    by (rewrite !andb_true_iff, !Z.leb_le; lia).
  eexists. split; [reflexivity|]. split; [done|]. intros x y k Hx Hk. unfold at_pixel. simpl.
  rewrite blit_read by lia. pose proof (row_range P r x0 w x y k Hx Hk Hx0 Hxw) as Hiff.
  destruct (decide (y = r ∧ x0 ≤ x < x0 + w)) as [Hin|Hout].
  - rewrite decide_True by tauto. destruct Hin as [-> Hin]. f_equal. lia.
  - rewrite decide_False by tauto. done.
Qed.

Lemma copy_rows_spec k : ∀ dst src P Q r sr x0 sx w, 0 < w → 0 ≤ r → 0 ≤ sr → 0 ≤ x0 → x0 + w ≤ P →
  0 ≤ sx → sx + w ≤ Q → 4 * (P * (r + Z.of_nat k)) ≤ blen dst → 4 * (Q * (sr + Z.of_nat k)) ≤ blen src →
  ∃ b, copy_rows k dst src (4 * (P * r + x0)) (4 * (Q * sr + sx)) (4 * w) (4 * P) (4 * Q) = Done b ∧
    blen b = blen dst ∧
    ∀ x y j, 0 ≤ x < P → 0 ≤ j < 4 → at_pixel b P x y j =
      if decide (r ≤ y < r + Z.of_nat k ∧ x0 ≤ x < x0 + w)
      then at_pixel src Q (sx + (x - x0)) (sr + (y - r)) j else at_pixel dst P x y j.
Proof.
  induction k as [|k IH]; intros dst src P Q r sr x0 sx w Hw Hr Hsr Hx0 Hxw Hsx Hsw Hlen Hslen.
  - exists dst. split; [done|]. split; [done|]. intros x y j _ _. by rewrite decide_False by lia.
  - cbn [copy_rows].
    assert (P * (r + 1) ≤ P * (r + Z.of_nat (S k))) by (apply Z.mul_le_mono_nonneg_l; lia).
    assert (Q * (sr + 1) ≤ Q * (sr + Z.of_nat (S k))) by (apply Z.mul_le_mono_nonneg_l; lia).
    destruct (memcpy_row dst src P Q r sr x0 sx w) as (b1 & -> & Hl1 & Hb1); [lia..|].
    cbn [mbind outcome_bind].
    replace (4 * (P * r + x0) + 4 * P) with (4 * (P * (r + 1) + x0)) by ring.
    replace (4 * (Q * sr + sx) + 4 * Q) with (4 * (Q * (sr + 1) + sx)) by ring.
    destruct (IH b1 src P Q (r + 1) (sr + 1) x0 sx w) as (b2 & E2 & Hl2 & Hb2);
      [lia..|rewrite Hl1; replace (r + 1 + Z.of_nat k) with (r + Z.of_nat (S k)) by lia; done
      |replace (sr + 1 + Z.of_nat k) with (sr + Z.of_nat (S k)) by lia; done|].
    exists b2. split; [done|]. split; [congruence|]. intros x y j Hx Hj. rewrite Hb2, Hb1 by done.
    destruct (decide (r + 1 ≤ y < r + 1 + Z.of_nat k ∧ x0 ≤ x < x0 + w)).
    + rewrite decide_True by lia. f_equal. lia.
    + destruct (decide (y = r ∧ x0 ≤ x < x0 + w)) as [[-> ?]|].
      * rewrite decide_True by lia. f_equal. lia.
      * by rewrite decide_False by lia.
Qed.

(** The lines of [Move] in the order that [e] says ([1] down the screen, [-1] up). *)
Lemma move_rows_spec e k : e = 1 ∨ e = -1 → ∀ b P r sr x0 sx w, 0 < w → 0 ≤ x0 → x0 + w ≤ P → 0 ≤ sx → sx + w ≤ P →
  (e = 1 → r < sr) → (e = -1 → sr < r ∨ (sr = r ∧ (x0 + w ≤ sx ∨ sx + w ≤ x0))) →
  (∀ j, 0 ≤ j < Z.of_nat k → 0 ≤ r + e * j ∧ 0 ≤ sr + e * j ∧
     4 * (P * (r + e * j + 1)) ≤ blen b ∧ 4 * (P * (sr + e * j + 1)) ≤ blen b) →
  ∃ b', move_rows k b (4 * (P * r + x0)) (4 * (P * sr + sx)) (4 * w) (e * (4 * P)) = Done b' ∧
    blen b' = blen b ∧
    ∀ x y j, 0 ≤ x < P → 0 ≤ j < 4 → at_pixel b' P x y j =
      if decide (0 ≤ e * (y - r) < Z.of_nat k ∧ x0 ≤ x < x0 + w)
      then at_pixel b P (sx + (x - x0)) (sr + (y - r)) j else at_pixel b P x y j.
Proof.
  intros He. induction k as [|k IH]; intros b P r sr x0 sx w Hw Hx0 Hxw Hsx Hsw H1 Hm1 Hin.
  - exists b. split; [done|]. split; [done|]. intros x y j _ _. by rewrite decide_False by lia.
  - cbn [move_rows]. destruct (Hin 0 ltac:(lia)) as (Hr & Hsr & Hlr & Hls). rewrite Z.mul_0_r, !Z.add_0_r in *.
    assert (Hnl : (0 <? 4 * w) && (Z.abs (4 * (P * r + x0) - 4 * (P * sr + sx)) <? 4 * w) = false).
    { apply andb_false_iff. right. apply Z.ltb_ge.
      destruct (Z.lt_trichotomy r sr) as [Hlt|[->|Hgt]].
      - assert (P * (r + 1) ≤ P * sr) by (apply Z.mul_le_mono_nonneg_l; lia). lia.
      - destruct He as [-> | ->]; [lia|]. destruct (Hm1 eq_refl); lia.
      - assert (P * (sr + 1) ≤ P * r) by (apply Z.mul_le_mono_nonneg_l; lia). lia. }
    unfold memcpy_within at 1. rewrite Hnl.
    destruct (memcpy_row b b P P r sr x0 sx w) as (b1 & -> & Hl1 & Hb1); [lia..|]. cbn [mbind outcome_bind].
    replace (4 * (P * r + x0) + e * (4 * P)) with (4 * (P * (r + e) + x0)) by ring.
    replace (4 * (P * sr + sx) + e * (4 * P)) with (4 * (P * (sr + e) + sx)) by ring.
    destruct (IH b1 P (r + e) (sr + e) x0 sx w) as (b2 & E2 & Hl2 & Hb2); [lia..| |].
    { intros j Hj. destruct (Hin (j + 1) ltac:(lia)) as (?&?&?&?). rewrite Hl1.
      replace (r + e + e * j) with (r + e * (j + 1)) by ring. replace (sr + e + e * j) with (sr + e * (j + 1)) by ring.
      done. }
    exists b2. split; [done|]. split; [congruence|]. intros x y j Hx Hj. rewrite Hb2 by done.
    assert (Hey : e * (y - (r + e)) = e * (y - r) - 1) by (destruct He as [-> | ->]; lia). rewrite Hey.
    destruct (decide (0 ≤ e * (y - r) - 1 < Z.of_nat k ∧ x0 ≤ x < x0 + w)) as [Hd|Hd].
    + rewrite decide_True by lia. rewrite Hb1 by lia.
      replace (sr + e + (y - (r + e))) with (sr + (y - r)) by lia.
      destruct (decide _) as [[Hy _]|_]; [|done]. exfalso. destruct He as [-> | ->]; [lia|]. destruct (Hm1 eq_refl); lia.
    + rewrite Hb1 by done. destruct (decide (y = r ∧ x0 ≤ x < x0 + w)) as [[-> Hxx]|Hd2].
      * rewrite decide_True by lia. f_equal. lia.
      * rewrite decide_False; [done|]. intros [Hy Hxx]. apply Hd2. split; [|done].
        destruct He as [-> | ->]; lia.
Qed.

Lemma addr_eq P x y V : 0 ≤ x ≤ P → 0 ≤ y < V → 4 * (P * V) < 2 ^ 31 → 4 * P < 2 ^ 31 →
  u32 (4 * u32 (P * y + x)) = 4 * (P * y + x).
Proof.
  intros Hx Hy HV HP. assert (P * (y + 1) ≤ P * V) by (apply Z.mul_le_mono_nonneg_l; lia).
  assert (0 ≤ P * y) by (apply Z.mul_nonneg_nonneg; lia).
  rewrite (wrap_small 32 (P * y + x)) by lia. rewrite wrap_small by lia. done.
Qed.

Lemma FrameAddrAt_eq fb p : fb_ok fb → 0 ≤ vx p ≤ pixels_per_scan_line (config_ fb) →
  0 ≤ vy p < vertical_resolution (config_ fb) →
  FrameAddrAt p (config_ fb) = 4 * (pixels_per_scan_line (config_ fb) * vy p + vx p).
Proof.
  intros [] Hx Hy. unfold FrameAddrAt. assert (BytesPerPixel (pixel_format (config_ fb)) = 4) as -> by
    (by destruct (pixel_format (config_ fb))).
  by apply (addr_eq _ _ _ (vertical_resolution (config_ fb))).
Qed.

Lemma BytesPerPixel_4 f : BytesPerPixel f = 4.
Proof. by destruct f. Qed.

Lemma BytesPerScanLine_eq fb : fb_ok fb → BytesPerScanLine (config_ fb) = 4 * pixels_per_scan_line (config_ fb).
Proof.
  intros []. unfold BytesPerScanLine. rewrite BytesPerPixel_4, wrap_small, swrap_small by lia. done.
Qed.

Lemma FrameBufferSize_eq fb : fb_ok fb →
  FrameBufferSize (config_ fb) = mkVec (horizontal_resolution (config_ fb)) (vertical_resolution (config_ fb)).
Proof. intros []. unfold FrameBufferSize. by rewrite !swrap_small by lia. Qed.

Lemma store_spec b i v : 0 ≤ i < blen b →
  store b i v = Done (mkBuffer (<[i := v]> (bytes b)) (blen b)).
Proof. intros Hi. unfold store. by rewrite arr_set_in. Qed.

(** The colour of a pixel. *)
Definition fb_pixel (fb : FrameBuffer) (p : Vector2D) : PixelColor :=
  match pixel_format (config_ fb) with
  | kPixelRGBResv8BitPerColor => mkColor (px fb p 0) (px fb p 1) (px fb p 2)
  | kPixelBGRResv8BitPerColor => mkColor (px fb p 2) (px fb p 1) (px fb p 0)
  end.

(** Three stores at one pixel, and every other pixel's bytes. *)
Lemma store_pixel fb p (v0 v1 v2 : Z) : fb_ok fb → 0 ≤ vx p < horizontal_resolution (config_ fb) →
  0 ≤ vy p < vertical_resolution (config_ fb) →
  ∃ b, (b ← store (fb_mem fb) (PixelAt (config_ fb) p) v0; b ← store b (PixelAt (config_ fb) p + 1) v1;
        store b (PixelAt (config_ fb) p + 2) v2) = Done b ∧ blen b = blen (fb_mem fb) ∧
    ∀ q k, 0 ≤ vx q < horizontal_resolution (config_ fb) → 0 ≤ vy q < vertical_resolution (config_ fb) → 0 ≤ k < 3 →
      px (mkFB (config_ fb) b) q k =
        if decide (q = p) then (if k =? 0 then v0 else if k =? 1 then v1 else v2) else px fb q k.
Proof.
  intros Hok Hx Hy. pose proof Hok as [Hw Hh Hl Hlen Hs]. set (P := pixels_per_scan_line (config_ fb)) in *.
  assert (Hat : PixelAt (config_ fb) p = 4 * (P * vy p + vx p)).
  { apply (addr_eq _ _ _ (vertical_resolution (config_ fb))); [unfold P in *; lia|lia|done|done]. }
  rewrite Hat. set (a := 4 * (P * vy p + vx p)).
  assert (Hb : 0 ≤ a ∧ a + 4 ≤ blen (fb_mem fb)).
  { assert (P * (vy p + 1) ≤ P * vertical_resolution (config_ fb)) by (apply Z.mul_le_mono_nonneg_l; lia).
    assert (0 ≤ P * vy p) by (apply Z.mul_nonneg_nonneg; lia). lia. }
  rewrite store_spec by lia. cbn [mbind outcome_bind]. rewrite store_spec by (simpl; lia). cbn [mbind outcome_bind].
  rewrite store_spec by (simpl; lia). eexists. split; [reflexivity|]. split; [done|].
  intros q k Hqx Hqy Hk. unfold px, at_pixel. simpl. fold P. rewrite !arr_read_set.
  pose proof (row_range P (vy p) (vx p) 1 (vx q) (vy q) k ltac:(lia) ltac:(lia) ltac:(lia) ltac:(lia)) as Hiff.
  fold a in Hiff. destruct (decide (q = p)) as [->|Hne].
  - fold a. destruct (Z.eqb_spec k 0) as [->|]; [|destruct (Z.eqb_spec k 1) as [->|]].
    + by rewrite (decide_False (P := a + 2 = a + 0)), (decide_False (P := a + 1 = a + 0)), decide_True by lia.
    + by rewrite (decide_False (P := a + 2 = a + 1)), decide_True by lia.
    + by rewrite decide_True by lia.
  - assert (¬ (a ≤ 4 * (P * vy q + vx q) + k < a + 4 * 1)).
    { intros [Hy' Hx']%Hiff. apply Hne. destruct q, p. simpl in *. f_equal; lia. }
    by rewrite !decide_False by lia.
Qed.

#[export] Program Instance FrameBufferWriter_laws : PixelWriterLaws FrameBuffer := {|
  pw_ok := fb_ok;
  pixel := fb_pixel;
|}.
Next Obligation.
  intros fb p c Hok Hx Hy. cbn [Width Height FrameBufferWriter] in *.
  assert (Hx' : 0 ≤ vx p < horizontal_resolution (config_ fb)).
  { destruct Hok. rewrite swrap_small in Hx by lia. done. }
  assert (Hy' : 0 ≤ vy p < vertical_resolution (config_ fb)).
  { destruct Hok. rewrite swrap_small in Hy by lia. done. }
  assert (Hsz : i32 (horizontal_resolution (config_ fb)) = horizontal_resolution (config_ fb) ∧
    i32 (vertical_resolution (config_ fb)) = vertical_resolution (config_ fb)).
  { destruct Hok. by rewrite !swrap_small by lia. }
  destruct Hsz as [-> ->].
  assert (Hgen : ∀ v0 v1 v2 b, blen b = blen (fb_mem fb) →
    (∀ q k, 0 ≤ vx q < horizontal_resolution (config_ fb) → 0 ≤ vy q < vertical_resolution (config_ fb) → 0 ≤ k < 3 →
      px (mkFB (config_ fb) b) q k =
        if decide (q = p) then (if k =? 0 then v0 else if k =? 1 then v1 else v2) else px fb q k) →
    fb_ok (mkFB (config_ fb) b)).
  { intros v0 v1 v2 b Hb _. destruct Hok. split; simpl; try done. by rewrite Hb. }
  change (∃ w', fb_Write fb p c = Done w' ∧ fb_ok w' ∧
    i32 (horizontal_resolution (config_ w')) = horizontal_resolution (config_ fb) ∧
    i32 (vertical_resolution (config_ w')) = vertical_resolution (config_ fb) ∧
    ∀ q, 0 ≤ vx q < horizontal_resolution (config_ fb) → 0 ≤ vy q < vertical_resolution (config_ fb) →
      fb_pixel w' q = if decide (q = p) then c else fb_pixel fb q).
  unfold fb_Write. destruct (pixel_format (config_ fb)) eqn:Ef;
    [unfold write_rgb; destruct (store_pixel fb p (cr c) (cg c) (cb c)) as (b & E & Hb & Hpx)
    |unfold write_bgr; destruct (store_pixel fb p (cb c) (cg c) (cr c)) as (b & E & Hb & Hpx)];
    try done; cbv zeta in *; rewrite E; eexists; (split; [reflexivity|]); (split; [by eapply Hgen|]);
    (split; [simpl; destruct Hok; rewrite ?swrap_small by lia; done|]);
    (split; [simpl; destruct Hok; rewrite ?swrap_small by lia; done|]); intros q Hqx Hqy;
    unfold fb_pixel; simpl; rewrite Ef, !Hpx by (done || lia); destruct (decide (q = p)); by destruct c.
Qed.
Lemma Copy_blit (fb src : FrameBuffer) (dst_pos : Vector2D) (src_area : Rectangle)
  (Hdst : fb_ok fb) (Hsrc : fb_ok src) :
  if bool_decide (pixel_format (config_ fb) = pixel_format (config_ src)) then
    ∃ fb', Copy fb dst_pos src src_area = Done (kSuccess, fb') ∧ fb_ok fb' ∧ config_ fb' = config_ fb ∧
      ∀ p k, 0 ≤ vx p < pixels_per_scan_line (config_ fb) → 0 ≤ k < 4 →
        let q := p -v dst_pos +v rpos src_area in
        px fb' p k =
          if inside p (mkVec 0 0) (FrameBufferSize (config_ fb)) &&
             inside p dst_pos (rsize src_area) &&
             inside q (mkVec 0 0) (FrameBufferSize (config_ src))
          then px src q k else px fb p k
  else Copy fb dst_pos src src_area = Done (kUnknownPixelFormat, fb).
Proof.
  case_bool_decide as Hf; unfold Copy; [rewrite bool_decide_eq_true_2 by done|by rewrite bool_decide_eq_false_2].
  cbn [negb]. rewrite BytesPerPixel_4. change (4 <=? 0) with false. cbv iota zeta.
  set (shifted := mkRect dst_pos (rsize src_area)).
  set (sout := mkRect (dst_pos -v rpos src_area) (FrameBufferSize (config_ src))).
  set (dout := mkRect (mkVec 0 0) (FrameBufferSize (config_ fb))).
  set (ca := rect_and (rect_and dout sout) shifted).
  assert (Hca : ∀ p, inside p (rpos ca) (rsize ca) =
    inside p (mkVec 0 0) (FrameBufferSize (config_ fb)) && inside p dst_pos (rsize src_area) &&
    inside (p -v dst_pos +v rpos src_area) (mkVec 0 0) (FrameBufferSize (config_ src))).
  { intros p. unfold ca. rewrite !rect_and_inside. simpl.
    assert (inside p (dst_pos -v rpos src_area) (FrameBufferSize (config_ src)) =
      inside (p -v dst_pos +v rpos src_area) (mkVec 0 0) (FrameBufferSize (config_ src))) as ->.
    { unfold inside. simpl. bool_cases; simpl; try done; lia. }
    rewrite <- !andb_assoc. f_equal. apply andb_comm. }
  assert (Hempty : ∀ p, (vx (rsize ca) <=? 0) || (vy (rsize ca) <=? 0) = true → inside p (rpos ca) (rsize ca) = false).
  { intros p He. unfold inside. apply orb_true_iff in He. rewrite !Z.leb_le in He. bool_cases; simpl; try done; lia. }
  destruct ((vx (rsize ca) <=? 0) || (vy (rsize ca) <=? 0)) eqn:He.
  { exists fb. split; [done|]. split; [done|]. split; [done|]. intros p k _ _. cbv zeta. rewrite <- Hca. by rewrite Hempty. }
  clearbody ca. clear Hempty shifted sout dout.
  apply orb_false_iff in He as [Hsx%Z.leb_gt Hsy%Z.leb_gt].
  rewrite !FrameBufferSize_eq in Hca by done. simpl in Hca.
  (* the corners of the copied area lie in both buffers *)
  assert (Hin : ∀ i j, 0 ≤ i < vx (rsize ca) → 0 ≤ j < vy (rsize ca) →
    let p := rpos ca +v mkVec i j in let q := p -v dst_pos +v rpos src_area in
    0 ≤ vx p < horizontal_resolution (config_ fb) ∧ 0 ≤ vy p < vertical_resolution (config_ fb) ∧
    0 ≤ vx q < horizontal_resolution (config_ src) ∧ 0 ≤ vy q < vertical_resolution (config_ src)).
  { intros i j Hi Hj p q. assert (H : inside p (rpos ca) (rsize ca) = true).
    { unfold inside, p. simpl. rewrite !andb_true_iff, !Z.leb_le, !Z.ltb_lt. lia. }
    rewrite Hca in H. unfold inside in H. simpl in H. rewrite !andb_true_iff, !Z.leb_le, !Z.ltb_lt in H.
    unfold q. simpl. lia. }
  destruct (Hin 0 0 ltac:(lia) ltac:(lia)) as (A1 & A2 & A3 & A4). simpl in A1, A2, A3, A4.
  destruct (Hin (vx (rsize ca) - 1) (vy (rsize ca) - 1) ltac:(lia) ltac:(lia)) as (B1 & B2 & B3 & B4).
  simpl in B1, B2, B3, B4.
  set (P := pixels_per_scan_line (config_ fb)) in *. set (Q := pixels_per_scan_line (config_ src)) in *.
  pose proof (ok_width _ Hdst) as Hwd. pose proof (ok_width _ Hsrc) as Hws. fold P in Hwd. fold Q in Hws.
  pose proof (ok_len _ Hdst) as Hld. pose proof (ok_len _ Hsrc) as Hls. fold P in Hld. fold Q in Hls.
  rewrite (FrameAddrAt_eq fb) by (done || (unfold P in *; lia)).
  rewrite (FrameAddrAt_eq src) by (done || (unfold Q in *; simpl; lia)).
  rewrite !BytesPerScanLine_eq by done. fold P Q. simpl vx. simpl vy.
  set (sx := vx (rpos src_area) + (vx (rpos ca) - vx dst_pos)).
  set (sy := vy (rpos src_area) + (vy (rpos ca) - vy dst_pos)).
  assert (P * (vy (rpos ca) + vy (rsize ca)) ≤ P * vertical_resolution (config_ fb)) by (apply Z.mul_le_mono_nonneg_l; lia).
  assert (Q * (sy + vy (rsize ca)) ≤ Q * vertical_resolution (config_ src)) by (apply Z.mul_le_mono_nonneg_l; unfold sy; lia).
  destruct (copy_rows_spec (Z.to_nat (vy (rsize ca))) (fb_mem fb) (fb_mem src) P Q (vy (rpos ca)) sy
    (vx (rpos ca)) sx (vx (rsize ca))) as (b & -> & Hb & Hpx); rewrite ?Z2Nat.id by lia;
    [lia|lia|unfold sy; lia|lia|lia|unfold sx; lia|unfold sx; lia|lia|lia|].
  rewrite Z2Nat.id in Hpx by lia. cbn [mbind outcome_bind]. eexists. split; [reflexivity|]. split.
  { destruct Hdst. split; simpl; try done. by rewrite Hb. }
  split; [done|]. intros p k Hp Hk. cbv zeta. rewrite !FrameBufferSize_eq by done. rewrite <- Hca.
  unfold px. simpl. fold P Q. rewrite Hpx by done. unfold inside.
  destruct (decide _) as [[Hy Hx]|Hn].
  - rewrite !(proj2 (Z.leb_le _ _)), !(proj2 (Z.ltb_lt _ _)) by lia. simpl. f_equal; unfold sx, sy; lia.
  - assert ((vx (rpos ca) <=? vx p) && (vx p <? vx (rpos ca) + vx (rsize ca)) && (vy (rpos ca) <=? vy p) &&
      (vy p <? vy (rpos ca) + vy (rsize ca)) = false) as ->; [|done].
    apply not_true_iff_false. rewrite !andb_true_iff, !Z.leb_le, !Z.ltb_lt. lia.
Qed.

(** [Copy] in terms of the colours on screen. *)
Lemma Copy_pixel fb src dst_pos src_area : fb_ok fb → fb_ok src →
  pixel_format (config_ fb) = pixel_format (config_ src) →
  ∃ fb', Copy fb dst_pos src src_area = Done (kSuccess, fb') ∧ fb_ok fb' ∧ config_ fb' = config_ fb ∧
    ∀ p, on_screen fb p →
      fb_pixel fb' p =
        if inside p dst_pos (rsize src_area) &&
           inside (p -v dst_pos +v rpos src_area) (mkVec 0 0) (FrameBufferSize (config_ src))
        then fb_pixel src (p -v dst_pos +v rpos src_area) else fb_pixel fb p.
Proof.
  intros Hdst Hsrc Hf. pose proof (Copy_blit fb src dst_pos src_area Hdst Hsrc) as H.
  rewrite bool_decide_eq_true_2 in H by done. destruct H as (fb' & E & Hok & Hc & Hpx).
  exists fb'. split; [done|]. split; [done|]. split; [done|]. intros p [Hx Hy].
  cbn [Width Height FrameBufferWriter] in Hx, Hy.
  assert (Hin : inside p (mkVec 0 0) (FrameBufferSize (config_ fb)) = true).
  { unfold inside, FrameBufferSize. simpl. rewrite !andb_true_iff, !Z.leb_le, !Z.ltb_lt. lia. }
  assert (Hp : 0 ≤ vx p < pixels_per_scan_line (config_ fb)).
  { destruct Hdst. rewrite swrap_small in Hx by lia. lia. }
  unfold fb_pixel. rewrite Hc, <- Hf, !Hpx by (done || lia). rewrite Hin. cbn [andb].
  by destruct (_ && _), (pixel_format (config_ fb)).
Qed.

(** The rectangle of [size] at [pos] lies in the buffer. *)
Definition fits (fb : FrameBuffer) (pos size : Vector2D) : Prop :=
  0 ≤ vx pos ∧ 0 ≤ vy pos ∧ vx pos + vx size ≤ pixels_per_scan_line (config_ fb) ∧
  vy pos + vy size ≤ vertical_resolution (config_ fb).

Lemma Move_blit (fb : FrameBuffer) (dst_pos : Vector2D) (src : Rectangle)
  (Hok : fb_ok fb) (Hw : 0 < vx (rsize src)) (Hh : 0 < vy (rsize src))
  (Hdst : fits fb dst_pos (rsize src)) (Hsrc : fits fb (rpos src) (rsize src))
  (Hapart : vy dst_pos ≠ vy (rpos src) ∨ vx dst_pos + vx (rsize src) ≤ vx (rpos src) ∨
            vx (rpos src) + vx (rsize src) ≤ vx dst_pos) :
  ∃ fb', fb_Move fb dst_pos src = Done fb' ∧ fb_ok fb' ∧ config_ fb' = config_ fb ∧
    ∀ p k, 0 ≤ vx p < pixels_per_scan_line (config_ fb) → 0 ≤ k < 4 →
      px fb' p k = if inside p dst_pos (rsize src) then px fb (p -v dst_pos +v rpos src) k else px fb p k.
Proof.
  destruct Hdst as (D1 & D2 & D3 & D4). destruct Hsrc as (S1 & S2 & S3 & S4).
  set (P := pixels_per_scan_line (config_ fb)) in *. pose proof (ok_len _ Hok) as Hlen. fold P in Hlen.
  assert (Hrow : ∀ y, 0 ≤ y < vertical_resolution (config_ fb) → 4 * (P * (y + 1)) ≤ blen (fb_mem fb)).
  { intros y Hy. assert (P * (y + 1) ≤ P * vertical_resolution (config_ fb)) by (apply Z.mul_le_mono_nonneg_l; lia). lia. }
  unfold fb_Move. rewrite BytesPerPixel_4, BytesPerScanLine_eq by done. fold P. cbv zeta.
  assert (Hpost : ∀ e b', e = 1 ∨ e = -1 → blen b' = blen (fb_mem fb) →
    (∀ x y j, 0 ≤ x < P → 0 ≤ j < 4 → at_pixel b' P x y j =
      if decide (vy dst_pos ≤ y < vy dst_pos + vy (rsize src) ∧ vx dst_pos ≤ x < vx dst_pos + vx (rsize src))
      then at_pixel (fb_mem fb) P (vx (rpos src) + (x - vx dst_pos)) (vy (rpos src) + (y - vy dst_pos)) j
      else at_pixel (fb_mem fb) P x y j) →
    fb_ok (mkFB (config_ fb) b') ∧ config_ (mkFB (config_ fb) b') = config_ fb ∧
    ∀ p k, 0 ≤ vx p < P → 0 ≤ k < 4 → px (mkFB (config_ fb) b') p k =
      if inside p dst_pos (rsize src) then px fb (p -v dst_pos +v rpos src) k else px fb p k).
  { intros e b' _ Hb Hpx. split; [destruct Hok; split; simpl; try done; by rewrite Hb|]. split; [done|].
    intros p k Hp Hk. unfold px. simpl. fold P. rewrite Hpx by done. unfold inside.
    destruct (decide _) as [[Hy Hx]|Hn].
    - rewrite !(proj2 (Z.leb_le _ _)), !(proj2 (Z.ltb_lt _ _)) by lia. simpl. f_equal; lia.
    - assert ((vx dst_pos <=? vx p) && (vx p <? vx dst_pos + vx (rsize src)) && (vy dst_pos <=? vy p) &&
        (vy p <? vy dst_pos + vy (rsize src)) = false) as ->; [|done].
      apply not_true_iff_false. rewrite !andb_true_iff, !Z.leb_le, !Z.ltb_lt. lia. }
  destruct (Z.ltb_spec (vy dst_pos) (vy (rpos src))) as [Hup|Hdown].
  - rewrite !FrameAddrAt_eq by (done || (unfold P in *; lia)). fold P.
    destruct (move_rows_spec 1 (Z.to_nat (vy (rsize src))) ltac:(by left) (fb_mem fb) P (vy dst_pos) (vy (rpos src))
      (vx dst_pos) (vx (rpos src)) (vx (rsize src))) as (b & E & Hb & Hpx); rewrite ?Z2Nat.id by lia; [lia..| |].
    { intros j Hj. rewrite Z.mul_1_l. split_and!; [lia|lia|apply Hrow; lia|apply Hrow; lia]. }
    rewrite Z.mul_1_l in E. rewrite E. cbn [mbind outcome_bind]. eexists. split; [reflexivity|].
    apply (Hpost 1); [by left|done|]. intros x y j Hx Hj. rewrite Hpx, Z2Nat.id by (done || lia).
    destruct (decide _), (decide _); try done; lia.
  - rewrite !FrameAddrAt_eq by (done || (unfold P in *; simpl; lia)). fold P. simpl vx. simpl vy. rewrite !Z.add_0_r.
    destruct (move_rows_spec (-1) (Z.to_nat (vy (rsize src))) ltac:(by right) (fb_mem fb) P
      (vy dst_pos + (vy (rsize src) - 1)) (vy (rpos src) + (vy (rsize src) - 1))
      (vx dst_pos) (vx (rpos src)) (vx (rsize src))) as (b & E & Hb & Hpx); rewrite ?Z2Nat.id by lia; [lia..| |].
    { intros j Hj. split_and!; [lia|lia|apply Hrow; lia|apply Hrow; lia]. }
    replace (-1 * (4 * P)) with (- (4 * P)) in E by ring. rewrite E. cbn [mbind outcome_bind].
    eexists. split; [reflexivity|]. apply (Hpost (-1)); [by right|done|].
    intros x y j Hx Hj. rewrite Hpx, Z2Nat.id by (done || lia).
    destruct (decide _), (decide _); try done; try lia. f_equal; lia.
Qed.
End FBFacts.

Import DrawFacts FBFacts.

(** ** Properties *)

(** A buffer of 3 by 2 pixels in lines of 4, filled with one byte per pixel. *)
Definition sample_fb (format : PixelFormat) : FrameBuffer :=
  mkFB (mkConfig None 4 3 2 format)
    (mkBuffer (list_to_map ((λ i, (i, i)) <$> seqZ 0 32)) 32).

Lemma sample_fb_ok format : fb_ok (sample_fb format).
Proof. split; simpl; lia. Qed.

(** [FrameBuffer::Copy] between buffers of one format is an exact clipped blit.
    It stays inside both memories, and afterwards a pixel of the destination
    shows the source's pixel exactly when it lies in the area shifted to
    [dst_pos] and that source pixel exists; every other pixel is as before.
    Buffers of different formats are an error without effect. *)
Theorem Copy_exact (fb src : FrameBuffer) (dst_pos : Vector2D) (src_area : Rectangle)
  (Hdst : fb_ok fb) (Hsrc : fb_ok src) :
  if bool_decide (pixel_format (config_ fb) = pixel_format (config_ src)) then
    ∃ fb', Copy fb dst_pos src src_area = Done (kSuccess, fb') ∧ fb_ok fb' ∧ config_ fb' = config_ fb ∧
      ∀ p k, 0 ≤ vx p < pixels_per_scan_line (config_ fb) → 0 ≤ k < 4 →
        let q := p -v dst_pos +v rpos src_area in
        px fb' p k =
          if inside p (mkVec 0 0) (FrameBufferSize (config_ fb)) &&
             inside p dst_pos (rsize src_area) &&
             inside q (mkVec 0 0) (FrameBufferSize (config_ src))
          then px src q k else px fb p k
  else Copy fb dst_pos src src_area = Done (kUnknownPixelFormat, fb).
Proof. by apply Copy_blit. Qed.

Lemma Copy_exact_witness :
  ∃ fb', Copy (sample_fb kPixelRGBResv8BitPerColor) (mkVec 1 (-1)) (sample_fb kPixelRGBResv8BitPerColor)
           (mkRect (mkVec 0 0) (mkVec 3 2)) = Done (kSuccess, fb') ∧
    px fb' (mkVec 1 0) 0 = 16 ∧ px fb' (mkVec 0 0) 0 = 0.
Proof.
  pose proof (Copy_exact (sample_fb kPixelRGBResv8BitPerColor) (sample_fb kPixelRGBResv8BitPerColor) (mkVec 1 (-1))
    (mkRect (mkVec 0 0) (mkVec 3 2)) (sample_fb_ok _) (sample_fb_ok _)) as H.
  rewrite bool_decide_eq_true_2 in H by reflexivity. destruct H as (fb' & E & _ & _ & Hp).
  exists fb'. split; [exact E|]. split.
  - rewrite Hp by (simpl; lia). vm_compute. reflexivity.
  - rewrite Hp by (simpl; lia). vm_compute. reflexivity.
Defined.

(** [FrameBuffer::Move] moves a rectangle inside the buffer as if it had been
    copied out first, although the two places may overlap: when the destination
    is on other lines, or beside the source on the same lines, the pixels of the
    destination become the old pixels of the source, and no other pixel changes. *)
Theorem Move_exact (fb : FrameBuffer) (dst_pos : Vector2D) (src : Rectangle)
  (Hok : fb_ok fb) (Hw : 0 < vx (rsize src)) (Hh : 0 < vy (rsize src))
  (Hdst : fits fb dst_pos (rsize src)) (Hsrc : fits fb (rpos src) (rsize src))
  (Hapart : vy dst_pos ≠ vy (rpos src) ∨ vx dst_pos + vx (rsize src) ≤ vx (rpos src) ∨
            vx (rpos src) + vx (rsize src) ≤ vx dst_pos) :
  ∃ fb', fb_Move fb dst_pos src = Done fb' ∧ fb_ok fb' ∧ config_ fb' = config_ fb ∧
    ∀ p k, 0 ≤ vx p < pixels_per_scan_line (config_ fb) → 0 ≤ k < 4 →
      px fb' p k = if inside p dst_pos (rsize src) then px fb (p -v dst_pos +v rpos src) k else px fb p k.
Proof. by apply Move_blit. Qed.

Lemma Move_exact_witness :
  ∃ fb', fb_Move (sample_fb kPixelRGBResv8BitPerColor) (mkVec 1 1) (mkRect (mkVec 0 0) (mkVec 2 1)) = Done fb' ∧
    px fb' (mkVec 1 1) 0 = 0 ∧ px fb' (mkVec 2 1) 3 = 7.
Proof.
  destruct (Move_exact (sample_fb kPixelRGBResv8BitPerColor) (mkVec 1 1) (mkRect (mkVec 0 0) (mkVec 2 1)) (sample_fb_ok _))
    as (fb' & E & _ & _ & Hp); [simpl; lia|simpl; lia|unfold fits; simpl; lia..|simpl; lia|].
  exists fb'. split; [exact E|]. split; rewrite Hp by (simpl; lia); vm_compute; reflexivity.
Defined.

(** FillRectangle
    [FillRectangle] on a frame buffer, for a rectangle inside it, gives exactly
    the pixels of the rectangle the colour [c], in either pixel format. *)
Theorem FillRectangle_exact (fb : FrameBuffer) (pos size : Vector2D) (c : PixelColor) (Hok : fb_ok fb)
  (Hpos : 0 ≤ vx pos ∧ 0 ≤ vy pos) (Hsize : 0 ≤ vx size ∧ 0 ≤ vy size)
  (Hfits : vx pos + vx size ≤ horizontal_resolution (config_ fb) ∧
           vy pos + vy size ≤ vertical_resolution (config_ fb)) :
  ∃ fb', FillRectangle fb pos size c = Done fb' ∧ fb_ok fb' ∧
    ∀ p, 0 ≤ vx p < horizontal_resolution (config_ fb) → 0 ≤ vy p < vertical_resolution (config_ fb) →
      fb_pixel fb' p = if inside p pos size then c else fb_pixel fb p.
Proof.
  assert (Hi : i32 (horizontal_resolution (config_ fb)) = horizontal_resolution (config_ fb) ∧
    i32 (vertical_resolution (config_ fb)) = vertical_resolution (config_ fb))
    by (destruct Hok; rewrite !swrap_small by lia; done).
  destruct Hi as [Hi1 Hi2].
  assert (HW : Width fb = horizontal_resolution (config_ fb)) by exact Hi1.
  assert (HH : Height fb = vertical_resolution (config_ fb)) by exact Hi2.
  destruct (FillRectangle_painted (PL := FrameBufferWriter_laws) fb pos size c Hok) as (fb' & E & [H1 _ _ H4]);
    [lia..|].
  exists fb'. split; [done|]. split; [done|]. intros p Hx Hy. apply H4. unfold on_screen. lia.
Qed.

Lemma FillRectangle_exact_witness :
  ∃ fb', FillRectangle (sample_fb kPixelBGRResv8BitPerColor) (mkVec 1 0) (mkVec 2 2) (ToColor 0x102030) = Done fb' ∧
    fb_pixel fb' (mkVec 2 1) = mkColor 0x10 0x20 0x30 ∧ fb_pixel fb' (mkVec 0 1) = mkColor 18 17 16.
Proof.
  destruct (FillRectangle_exact (sample_fb kPixelBGRResv8BitPerColor) (mkVec 1 0) (mkVec 2 2) (ToColor 0x102030)
    (sample_fb_ok _)) as (fb' & E & _ & Hp); [simpl; lia..|].
  exists fb'. split; [exact E|]. split; rewrite Hp by (simpl; lia); vm_compute; reflexivity.
Defined.
