(* ===== verification/Font.v ===== *)
(** Text: src/kernel/font.{hpp,cpp}.  The bitmap font [hankaku] (linked from a
    data file) and the FreeType library are parameters. *)
From S2P Require Import Prelude ErrorCode Graphics.

(** ** UTF-8 *)

Definition CountUTF8Size (c : Z) : Z :=
  if c <? 0x80 then 1
  else if (0xc0 <=? c) && (c <? 0xe0) then 2
  else if (0xe0 <=? c) && (c <? 0xf0) then 3
  else if (0xf0 <=? c) && (c <? 0xf8) then 4
  else 0.

(** [u8[i]] of a string, given as the list of its bytes with the terminating
    zero; reading past it is undefined. *)
Definition char_at (s : list Z) (i : nat) : outcome Z := of_option (s !! i).

(** The code point at the head of [u8], and the bytes it takes. *)
Definition ConvertUTF8To32 (u8 : list Z) : outcome (Z * Z) :=
  c0 ← char_at u8 0;
  match CountUTF8Size c0 with
  | 1 => mret (c0, 1)
  | 2 =>
      c1 ← char_at u8 1;
      mret (Z.lor (Z.shiftl (Z.land c0 0x1f) 6) (Z.land c1 0x3f), 2)
  | 3 =>
      c1 ← char_at u8 1; c2 ← char_at u8 2;
      mret (Z.lor (Z.lor (Z.shiftl (Z.land c0 0x0f) 12) (Z.shiftl (Z.land c1 0x3f) 6)) (Z.land c2 0x3f), 3)
  | 4 =>
      c1 ← char_at u8 1; c2 ← char_at u8 2; c3 ← char_at u8 3;
      mret (Z.lor (Z.lor (Z.lor (Z.shiftl (Z.land c0 0x07) 18) (Z.shiftl (Z.land c1 0x3f) 12))
              (Z.shiftl (Z.land c2 0x3f) 6)) (Z.land c3 0x3f), 4)
  | _ => mret (0, 0)
  end.

Definition IsHankaku (c : Z) : bool := c <=? 0x7f.

(** ** Drawing characters *)

(** What FreeType renders: the bitmap of a glyph and the metrics used to place it. *)
Record FT_Glyph : Set := mkGlyph {
  rows : Z; width : Z; pitch : Z; bitmap_buffer : gmap Z Z; bitmap_left : Z; bitmap_top : Z;
  face_height : Z; descender : Z; y_ppem : Z; units_per_EM : Z;
}.

Section font.
(** [_binary_hankaku_bin_start] and its size. *)
Variable hankaku : gmap Z Z.
Variable hankaku_size : Z.
(** FreeType: the results of opening the face and of setting its size, the index
    of a character's glyph, and rendering a glyph. *)
Variable FT_New_Memory_Face FT_Set_Pixel_Sizes : Z.
Variable FT_Get_Char_Index : Z → Z.
Variable FT_Load_Glyph : Z → Z * FT_Glyph.

Context {S : Type} `{PixelWriter S}.

(** [GetFont]: the offset of the character's 16 bytes; a [char] is signed. *)
Definition GetFont (c : Z) : option Z :=
  let index := u32 (16 * u32 (swrap 8 c)) in
  if hankaku_size <=? index then None else Some index.

Definition WriteAscii (writer : S) (pos : Vector2D) (c : Z) (color : PixelColor) : outcome S :=
  match GetFont c with
  | None => mret writer
  | Some font =>
      for_loop 0 16 (λ dy, for_loop 0 8 (λ dx w,
        if negb (Z.land (Z.shiftl (arr_read hankaku (font + dy)) dx) 0x80 =? 0)
        then Write w (pos +v mkVec dx dy) color else mret w)) writer
  end.

Definition NewFTFace : Code :=
  if negb (FT_New_Memory_Face =? 0) then kFreeTypeError
  else if negb (FT_Set_Pixel_Sizes =? 0) then kFreeTypeError
  else kSuccess.

Definition RenderUnicode (c : Z) : WithError (option FT_Glyph) :=
  let glyph_index := FT_Get_Char_Index c in
  if glyph_index =? 0 then mkWithError None kFreeTypeError
  else
    let '(err, glyph) := FT_Load_Glyph glyph_index in
    if negb (err =? 0) then mkWithError None kFreeTypeError else mkWithError (Some glyph) kSuccess.

(** The two question marks that stand for a glyph that cannot be drawn. *)
Definition write_unknown (writer : S) (pos : Vector2D) (color : PixelColor) : outcome S :=
  writer ← WriteAscii writer pos 63 color; WriteAscii writer (pos +v mkVec 8 0) 63 color.

Definition draw_glyph (writer : S) (pos : Vector2D) (g : FT_Glyph) (color : PixelColor) : outcome S :=
  let baseline := Z.quot ((face_height g + descender g) * y_ppem g) (units_per_EM g) in
  let glyph_topleft := pos +v mkVec (bitmap_left g) (baseline - bitmap_top g) in
  for_loop 0 (rows g) (λ dy,
    let q := pitch g * dy - (if pitch g <? 0 then pitch g * rows g else 0) in
    for_loop 0 (width g) (λ dx w,
      let b := Z.land (arr_read (bitmap_buffer g) (q + Z.shiftr dx 3)) (Z.shiftr 0x80 (Z.land dx 7)) in
      if negb (b =? 0) then Write w (glyph_topleft +v mkVec dx dy) color else mret w)) writer.

Definition WriteUnicode (writer : S) (pos : Vector2D) (c : Z) (color : PixelColor) : outcome (Code * S) :=
  if c <=? 0x7f then writer ← WriteAscii writer pos c color; mret (kSuccess, writer)
  else if error_bool NewFTFace then
    writer ← write_unknown writer pos color; mret (NewFTFace, writer)
  else
    match RenderUnicode c with
    | mkWithError (Some g) kSuccess => writer ← draw_glyph writer pos g color; mret (kSuccess, writer)
    | mkWithError _ err => writer ← write_unknown writer pos color; mret (err, writer)
    end.

(** The loop of [WriteString], on what is left of the string. *)
Fixpoint write_string_loop (fuel : nat) (writer : S) (pos : Vector2D) (s : list Z) (x : Z) (color : PixelColor)
    : outcome S :=
  match fuel with
  | O => NoFuel
  | Datatypes.S fuel' =>
      c ← char_at s 0;
      if c =? 0 then mret writer
      else
        '(u32, bytes) ← ConvertUTF8To32 s;
        '(_, writer) ← WriteUnicode writer (pos +v mkVec (8 * x) 0) u32 color;
        write_string_loop fuel' writer pos (drop (Z.to_nat bytes) s) (x + (if IsHankaku u32 then 1 else 2)) color
  end.

(** A turn takes at least one byte of well-formed text, so the length of the
    string is fuel enough. *)
Definition WriteString (writer : S) (pos : Vector2D) (s : list Z) (color : PixelColor) : outcome S :=
  write_string_loop (length s) writer pos s 0 color.
End font.

(** ** Encoding *)

(** UTF-8 as RFC 3629 defines it, for the code points the decoder handles. *)
Definition utf8_encode (c : Z) : list Z :=
  if c <? 0x80 then [c]
  else if c <? 0x800 then [0xc0 + c / 64; 0x80 + c mod 64]
  else if c <? 0x10000 then [0xe0 + c / 4096; 0x80 + c / 64 mod 64; 0x80 + c mod 64]
  else [0xf0 + c / 262144; 0x80 + c / 4096 mod 64; 0x80 + c / 64 mod 64; 0x80 + c mod 64].

Module UTF8Facts.

Lemma land_low a n : 0 ≤ n → Z.land a (Z.ones n) = a mod 2 ^ n.
Proof. apply Z.land_ones. Qed.

Lemma land_lead hi lo n x : 0 ≤ n → 0 ≤ x < 2 ^ n → hi mod 2 ^ n = 0 → lo = 2 ^ n - 1 → Z.land (hi + x) lo = x.
Proof.
  intros Hn Hx Hhi ->. replace (2 ^ n - 1) with (Z.ones n) by (rewrite Z.ones_equiv; lia).
  rewrite Z.land_ones by done. rewrite Z.add_mod by lia. rewrite Hhi, Z.add_0_l, Z.mod_mod by lia. by apply Z.mod_small.
Qed.

(** Bits put together without overlap add up. *)
Lemma lor_mul a n b : 0 ≤ n → 0 ≤ b < 2 ^ n → Z.lor (a * 2 ^ n) b = a * 2 ^ n + b.
Proof.
  intros Hn Hb. rewrite lor_disjoint_add; [done|]. rewrite <- Z.shiftl_mul_pow2 by done.
  apply Z.bits_inj'. intros i Hi. rewrite Z.land_spec, Z.bits_0, Z.shiftl_spec by done.
  destruct (decide (i < n)).
  - by rewrite (Z.testbit_neg_r _ (i - n)) by lia.
  - rewrite (testbit_high n b) by lia. apply andb_false_r.
Qed.

Lemma CountUTF8Size_encode c : 0 ≤ c < 0x110000 →
  ∃ b l, utf8_encode c = b :: l ∧ CountUTF8Size b = Z.of_nat (S (length l)) ∧ 0 ≤ b < 256 ∧ (b = 0 → c = 0).
Proof.
  intros Hc. unfold utf8_encode.
  destruct (Z.ltb_spec c 0x80); [|destruct (Z.ltb_spec c 0x800); [|destruct (Z.ltb_spec c 0x10000)]];
    eexists _, _; (split; [reflexivity|]); unfold CountUTF8Size; split_and!; try dlia; simpl;
    repeat match goal with
    | |- context [Z.ltb ?a ?b] => destruct (Z.ltb_spec a b); try dlia
    | |- context [Z.leb ?a ?b] => destruct (Z.leb_spec a b); try dlia
    end; done.
Qed.

Lemma ConvertUTF8To32_encode c rest : 0 ≤ c < 0x110000 →
  ConvertUTF8To32 (utf8_encode c ++ rest) = Done (c, Z.of_nat (length (utf8_encode c))).
Proof.
  intros Hc. pose proof (CountUTF8Size_encode c Hc) as (b & l & E & Hcount & _). revert E Hcount. unfold utf8_encode.
  destruct (Z.ltb_spec c 0x80); [|destruct (Z.ltb_spec c 0x800); [|destruct (Z.ltb_spec c 0x10000)]];
    intros [= <- <-] Hcount; unfold ConvertUTF8To32, char_at; cbn [app lookup list_lookup of_option mbind outcome_bind];
    rewrite Hcount; cbn [length Z.of_nat Pos.of_succ_nat Pos.succ].
  - done.
  - unfold mret, outcome_ret. f_equal. f_equal.
    rewrite (land_lead _ 0x1f 5), (land_lead _ 0x3f 6) by (done || dlia).
    rewrite Z.shiftl_mul_pow2, lor_mul by dlia. dlia.
  - unfold mret, outcome_ret. f_equal. f_equal.
    rewrite (land_lead _ 0x0f 4), !(land_lead _ 0x3f 6) by (done || dlia).
    rewrite !Z.shiftl_mul_pow2, (lor_mul _ 12) by dlia.
    replace (c / 4096 * 2 ^ 12 + _) with ((c / 4096 * 64 + c / 64 mod 64) * 2 ^ 6) by lia.
    rewrite lor_mul by dlia. dlia.
  - unfold mret, outcome_ret. f_equal. f_equal.
    rewrite (land_lead _ 0x07 3), !(land_lead _ 0x3f 6) by (done || dlia).
    rewrite !Z.shiftl_mul_pow2, (lor_mul _ 18) by dlia.
    replace (c / 262144 * 2 ^ 18 + _) with ((c / 262144 * 64 + c / 4096 mod 64) * 2 ^ 12) by lia.
    rewrite (lor_mul _ 12) by dlia.
    replace ((c / 262144 * 64 + c / 4096 mod 64) * 2 ^ 12 + _)
      with ((c / 262144 * 4096 + c / 4096 mod 64 * 64 + c / 64 mod 64) * 2 ^ 6) by lia.
    rewrite lor_mul by dlia. dlia.
Qed.
End UTF8Facts.

Import UTF8Facts.

(** ** Properties *)

(** C40 UTF-8
    The decoder inverts UTF-8: at the head of any text it yields the code point
    encoded there and exactly the number of bytes of its encoding, which is also
    what [CountUTF8Size] reads off the first byte. *)
Theorem ConvertUTF8To32_roundtrip (c : Z) (rest : list Z) (Hc : 0 ≤ c < 0x110000) :
  ConvertUTF8To32 (utf8_encode c ++ rest) = Done (c, Z.of_nat (length (utf8_encode c))) ∧
  ∃ b l, utf8_encode c = b :: l ∧ CountUTF8Size b = Z.of_nat (length (utf8_encode c)).
Proof.
  split; [by apply ConvertUTF8To32_encode|].
  destruct (CountUTF8Size_encode c Hc) as (b & l & E & Hn & _). exists b, l. by rewrite E.
Qed.

Lemma ConvertUTF8To32_roundtrip_witness : ConvertUTF8To32 [0xea; 0xb0; 0x80; 0x41; 0] = Done (0xac00, 3).
Proof. exact (proj1 (ConvertUTF8To32_roundtrip 0xac00 [0x41; 0] ltac:(lia))). Defined.

Section write_string.
Context (hankaku : gmap Z Z) (hankaku_size FT_New_Memory_Face FT_Set_Pixel_Sizes : Z)
  (FT_Get_Char_Index : Z → Z) (FT_Load_Glyph : Z → Z * FT_Glyph) {S : Type} `{PixelWriter S}.

Abbreviation write_unicode := (WriteUnicode hankaku hankaku_size FT_New_Memory_Face FT_Set_Pixel_Sizes
  FT_Get_Char_Index FT_Load_Glyph).
Abbreviation string_loop := (write_string_loop hankaku hankaku_size FT_New_Memory_Face FT_Set_Pixel_Sizes
  FT_Get_Char_Index FT_Load_Glyph).

(** The characters one after another, a full-width one taking two columns. *)
Fixpoint draw_chars (writer : S) (pos : Vector2D) (x : Z) (cs : list Z) (color : PixelColor) : outcome S :=
  match cs with
  | [] => mret writer
  | c :: cs =>
      '(_, writer) ← write_unicode writer (pos +v mkVec (8 * x) 0) c color;
      draw_chars writer pos (x + (if IsHankaku c then 1 else 2)) cs color
  end.

Lemma write_string_loop_chars cs : Forall (λ c, 0 < c < 0x110000) cs → ∀ fuel writer pos x color,
  (length cs < fuel)%nat →
  string_loop fuel writer pos ((cs ≫= utf8_encode) ++ [0]) x color = draw_chars writer pos x cs color.
Proof.
  induction cs as [|c cs IH]; intros Hcs fuel writer pos x color Hfuel; (destruct fuel as [|fuel]; [simpl in Hfuel; lia|]).
  - reflexivity.
  - apply Forall_cons in Hcs as [Hc Hcs]. cbn [write_string_loop draw_chars]. rewrite bind_cons, <- app_assoc.
    destruct (CountUTF8Size_encode c ltac:(lia)) as (b & l & E & _ & _ & Hb).
    assert (Hat : char_at (utf8_encode c ++ (cs ≫= utf8_encode) ++ [0]) 0 = Done b) by (unfold char_at; by rewrite E).
    rewrite Hat. cbn [mbind outcome_bind]. destruct (Z.eqb_spec b 0) as [Hb0|]; [specialize (Hb Hb0); lia|].
    rewrite ConvertUTF8To32_encode by lia. cbn [mbind outcome_bind].
    destruct (write_unicode writer (pos +v mkVec (8 * x) 0) c color) as [[err w]| |]; [|done|done].
    cbn [mbind outcome_bind]. rewrite Nat2Z.id, drop_app_length. apply IH; [done|]. simpl in Hfuel. lia.
Qed.

Lemma length_utf8 cs : Forall (λ c, 0 < c < 0x110000) cs → (length cs ≤ length (cs ≫= utf8_encode))%nat.
Proof.
  induction 1 as [|c cs Hc Hcs IH]; [done|]. rewrite bind_cons, length_app.
  destruct (CountUTF8Size_encode c ltac:(lia)) as (b & l & -> & _). simpl. lia.
Qed.

(** A lead byte that UTF-8 does not use makes no progress. *)
Lemma write_string_loop_stuck b rest fuel : 0x80 ≤ b < 0xc0 ∨ 0xf8 ≤ b < 0x100 → ∀ writer pos x color w,
  string_loop fuel writer pos (b :: rest) x color ≠ Done w.
Proof.
  intros Hb. induction fuel as [|fuel IH]; intros writer pos x color w; [done|]. cbn [write_string_loop].
  unfold char_at at 1. cbn [lookup list_lookup of_option mbind outcome_bind].
  destruct (Z.eqb_spec b 0); [lia|].
  assert (Hcount : CountUTF8Size b = 0).
  { unfold CountUTF8Size. bool_cases; simpl; try done; lia. }
  assert (Hconv : ConvertUTF8To32 (b :: rest) = Done (0, 0)) by (unfold ConvertUTF8To32, char_at; cbn [lookup list_lookup of_option mbind outcome_bind]; by rewrite Hcount).
  rewrite Hconv. cbn [mbind outcome_bind].
  destruct (write_unicode writer _ 0 color) as [[err w1]| |]; [|done|done]. cbn [mbind outcome_bind].
  change (drop (Z.to_nat 0) (b :: rest)) with (b :: rest). apply IH.
Qed.
End write_string.

(** On a string in UTF-8, [WriteString] ends within its fuel and draws its
    characters one after another, each at the column after the ones before it
    (two columns for a full-width one), and nothing else. *)
Theorem WriteString_draws {S : Type} `{PixelWriter S} (hankaku : gmap Z Z)
  (hankaku_size FT_New_Memory_Face FT_Set_Pixel_Sizes : Z) (FT_Get_Char_Index : Z → Z)
  (FT_Load_Glyph : Z → Z * FT_Glyph) (writer : S) (pos : Vector2D) (cs : list Z) (color : PixelColor)
  (Hcs : Forall (λ c, 0 < c < 0x110000) cs) :
  WriteString hankaku hankaku_size FT_New_Memory_Face FT_Set_Pixel_Sizes FT_Get_Char_Index FT_Load_Glyph
    writer pos ((cs ≫= utf8_encode) ++ [0]) color =
  draw_chars hankaku hankaku_size FT_New_Memory_Face FT_Set_Pixel_Sizes FT_Get_Char_Index FT_Load_Glyph
    writer pos 0 cs color.
Proof.
  apply write_string_loop_chars; [done|]. rewrite length_app. pose proof (length_utf8 cs Hcs). simpl. lia.
Qed.

(** A writer that records the places written. *)
#[local] Instance trace_writer : PixelWriter (list Vector2D) := {|
  Write w pos _ := Done (w ++ [pos]);
  Width _ := 640;
  Height _ := 480;
|}.

Lemma WriteString_draws_witness :
  let glyph := mkGlyph 1 1 1 (<[0 := 0x80]> ∅) 0 0 0 0 16 1 in
  WriteString (S := list Vector2D) (<[16 * 0x41 := 0x80]> ∅) 4096 0 0 (λ c, c) (λ _, (0, glyph))
    [] (mkVec 0 0) [0x41; 0xea; 0xb0; 0x80; 0x41; 0] (mkColor 0 0 0) =
  Done [mkVec 0 0; mkVec 8 0; mkVec 24 0].
Proof.
  cbv zeta. change [0x41; 0xea; 0xb0; 0x80; 0x41; 0] with (([0x41; 0xac00; 0x41] ≫= utf8_encode) ++ [0]).
  rewrite WriteString_draws by (repeat (apply Forall_cons; split; [lia|]); apply Forall_nil; exact I).
  vm_compute. reflexivity.
Defined.

(** WriteString diverges
    A byte that cannot start a UTF-8 sequence is consumed zero bytes at a time:
    whatever the fuel, [WriteString]'s loop does not return from it. *)
Theorem WriteString_stuck {S : Type} `{PixelWriter S} (hankaku : gmap Z Z)
  (hankaku_size FT_New_Memory_Face FT_Set_Pixel_Sizes : Z) (FT_Get_Char_Index : Z → Z)
  (FT_Load_Glyph : Z → Z * FT_Glyph) (fuel : nat) (writer : S) (pos : Vector2D) (x b : Z) (rest : list Z)
  (color : PixelColor) (w : S) (Hb : 0x80 ≤ b < 0xc0 ∨ 0xf8 ≤ b < 0x100) :
  write_string_loop hankaku hankaku_size FT_New_Memory_Face FT_Set_Pixel_Sizes FT_Get_Char_Index FT_Load_Glyph
    fuel writer pos (b :: rest) x color ≠ Done w.
Proof. by apply write_string_loop_stuck. Qed.

Lemma WriteString_stuck_witness :
  write_string_loop (S := list Vector2D) ∅ 4096 0 0 (λ c, c) (λ _, (1, mkGlyph 0 0 0 ∅ 0 0 0 0 0 1))
    1000 [] (mkVec 0 0) [0x80; 0] 0 (mkColor 0 0 0) = NoFuel ∧
  ∀ fuel w, write_string_loop (S := list Vector2D) ∅ 4096 0 0 (λ c, c) (λ _, (1, mkGlyph 0 0 0 ∅ 0 0 0 0 0 1))
    fuel [] (mkVec 0 0) [0x80; 0] 0 (mkColor 0 0 0) ≠ Done w.
Proof.
  split; [vm_compute; reflexivity|]. intros fuel w.
  apply (WriteString_stuck ∅ 4096 0 0 (λ c, c) (λ _, (1, mkGlyph 0 0 0 ∅ 0 0 0 0 0 1))). lia.
Defined.

(** ** The fonts of the system *)

(** The font data the kernel is linked with and the FreeType library: what the
    drawing components need of them. *)
Class FontLib := {
  fl_hankaku : gmap Z Z;
  fl_hankaku_size : Z;
  fl_New_Memory_Face : Z;
  fl_Set_Pixel_Sizes : Z;
  fl_Get_Char_Index : Z → Z;
  fl_Load_Glyph : Z → Z * FT_Glyph;
}.

Section fonts.
Context `{FontLib} {S : Type} `{PixelWriter S}.

Definition font_ascii (writer : S) (pos : Vector2D) (c : Z) (color : PixelColor) : outcome S :=
  WriteAscii fl_hankaku fl_hankaku_size writer pos c color.

Definition font_string (writer : S) (pos : Vector2D) (s : list Z) (color : PixelColor) : outcome S :=
  WriteString fl_hankaku fl_hankaku_size fl_New_Memory_Face fl_Set_Pixel_Sizes fl_Get_Char_Index fl_Load_Glyph
    writer pos s color.
End fonts.
