(* ===== verification/Window.v ===== *)
(** Windows and the drawing of their frames: src/kernel/window.{hpp,cpp}.  A
    window keeps its pixels twice, in [data_] and, in the screen's format, in a
    shadow frame buffer; [Write] keeps the two in step, and the theorems say what
    [DrawTo] shows of them. *)
From S2P Require Import Prelude ErrorCode Graphics FrameBuffer Font.
Import DrawFacts FBFacts.

Inductive WindowRegion : Set := kTitleBar | kCloseButton | kBorder | kOther.

(** The dynamic class of a window: [Window], or [ToplevelWindow] with its title. *)
Inductive WindowClass : Set := PlainWindow | Toplevel (title : list Z).

(** [class Window] *)
Record Window : Set := mkWindow {
  width_ : Z;
  height_ : Z;
  data_ : list (list PixelColor);
  transparent_color_ : option PixelColor;
  shadow_buffer_ : FrameBuffer;
  window_class : WindowClass;
}.

(** [data_[y][x]]: an index outside a vector is undefined behaviour. *)
Definition data_at (data : list (list PixelColor)) (pos : Vector2D) : outcome PixelColor :=
  if (vy pos <? 0) || (vx pos <? 0) then Undef
  else row ← of_option (data !! Z.to_nat (vy pos)); of_option (row !! Z.to_nat (vx pos)).

Definition data_set (data : list (list PixelColor)) (pos : Vector2D) (c : PixelColor)
    : outcome (list (list PixelColor)) :=
  _ ← data_at data pos;
  mret (alter (λ row, <[Z.to_nat (vx pos) := c]> row) (Z.to_nat (vy pos)) data).

(** [Window::Window]: a negative size would make [resize] throw. *)
Definition new_Window (width height : Z) (shadow_format : PixelFormat) : outcome Window :=
  if (width <? 0) || (height <? 0) then Undef
  else
    let data := replicate (Z.to_nat height) (replicate (Z.to_nat width) (mkColor 0 0 0)) in
    let config := mkConfig None 0 (u32 width) (u32 height) shadow_format in
    mret (mkWindow width height data None (value (Initialize config)) PlainWindow).

Definition At (w : Window) (pos : Vector2D) : outcome PixelColor := data_at (data_ w) pos.

(** [Window::Write] *)
Definition window_Write (w : Window) (pos : Vector2D) (c : PixelColor) : outcome Window :=
  data ← data_set (data_ w) pos c;
  shadow ← Write (shadow_buffer_ w) pos c;
  mret (mkWindow (width_ w) (height_ w) data (transparent_color_ w) shadow (window_class w)).

Definition Size (w : Window) : Vector2D := mkVec (width_ w) (height_ w).

(** [Window::WindowWriter] *)
#[export] Instance WindowWriter : PixelWriter Window := {|
  Write := window_Write;
  Width := width_;
  Height := height_;
|}.

Definition SetTransparentColor (w : Window) (c : option PixelColor) : Window :=
  mkWindow (width_ w) (height_ w) (data_ w) c (shadow_buffer_ w) (window_class w).

(** [Window::Move] *)
Definition window_Move (w : Window) (dst_pos : Vector2D) (src : Rectangle) : outcome Window :=
  shadow ← fb_Move (shadow_buffer_ w) dst_pos src;
  mret (mkWindow (width_ w) (height_ w) (data_ w) (transparent_color_ w) shadow (window_class w)).

(** [Window::DrawTo]; [Copy]'s error is dropped. *)
Definition window_DrawTo (w : Window) (dst : FrameBuffer) (pos : Vector2D) (area : Rectangle) : outcome FrameBuffer :=
  match transparent_color_ w with
  | None =>
      let window_area := mkRect pos (Size w) in
      let intersection := rect_and area window_area in
      if (0 <? vx (rsize intersection)) && (0 <? vy (rsize intersection)) then
        '(_, dst) ← Copy dst (rpos intersection) (shadow_buffer_ w)
                      (mkRect (rpos intersection -v pos) (rsize intersection));
        mret dst
      else mret dst
  | Some tc =>
      for_loop (Z.max 0 (0 - vy pos)) (Z.min (height_ w) (Height dst - vy pos)) (λ y,
        for_loop (Z.max 0 (0 - vx pos)) (Z.min (width_ w) (Width dst - vx pos)) (λ x dst,
          c ← At w (mkVec x y);
          if bool_decide (c ≠ tc) then Write dst (pos +v mkVec x y) c else mret dst)) dst
  end.

(** ** Top-level windows *)

Definition kTopLeftMargin : Vector2D := mkVec 4 24.
Definition kBottomRightMargin : Vector2D := mkVec 4 4.
Definition kMarginX : Z := vx kTopLeftMargin + vx kBottomRightMargin.
Definition kMarginY : Z := vy kTopLeftMargin + vy kBottomRightMargin.

(** [ToplevelWindow::InnerAreaWriter] *)
Record InnerArea : Set := mkInner { inner_window : Window }.

Definition inner_Write (i : InnerArea) (pos : Vector2D) (c : PixelColor) : outcome InnerArea :=
  w ← window_Write (inner_window i) (pos +v kTopLeftMargin) c; mret (mkInner w).

#[export] Instance InnerAreaWriter : PixelWriter InnerArea := {|
  Write := inner_Write;
  Width i := width_ (inner_window i) - kMarginX;
  Height i := height_ (inner_window i) - kMarginY;
|}.

Definition kCloseButtonWidth : Z := 16.
Definition kCloseButtonHeight : Z := 14.

(** The rows of [close_button] as characters. *)
Definition close_button : list (list Z) :=
  let dot := 46 in let colon := 58 in let at_ := 64 in let dollar := 36 in
  let plain := [dot] ++ repeat colon 13 ++ [dollar; at_] in
  let cross (l : list Z) := [dot] ++ l ++ [dollar; at_] in
  let c := colon in let a := at_ in
  [ repeat dot 15 ++ [a];
    plain; plain;
    cross [c;c;c;a;a;c;c;c;c;a;a;c;c];
    cross [c;c;c;c;a;a;c;c;a;a;c;c;c];
    cross [c;c;c;c;c;a;a;a;a;c;c;c;c];
    cross [c;c;c;c;c;c;a;a;c;c;c;c;c];
    cross [c;c;c;c;c;a;a;a;a;c;c;c;c];
    cross [c;c;c;c;a;a;c;c;a;a;c;c;c];
    cross [c;c;c;a;a;c;c;c;c;a;a;c;c];
    plain; plain;
    [dot] ++ repeat dollar 14 ++ [a];
    repeat a 16 ].

(** [GetWindowRegion], virtual *)
Definition GetWindowRegion (w : Window) (pos : Vector2D) : WindowRegion :=
  match window_class w with
  | PlainWindow => kOther
  | Toplevel _ =>
      if (vx pos <? 2) || (width_ w - 2 <=? vx pos) || (vy pos <? 2) || (height_ w - 2 <=? vy pos) then kBorder
      else if vy pos <? vy kTopLeftMargin then
        if (width_ w - 5 - kCloseButtonWidth <=? vx pos) && (vx pos <? width_ w - 5) &&
           (5 <=? vy pos) && (vy pos <? 5 + kCloseButtonHeight)
        then kCloseButton else kTitleBar
      else kOther
  end.

Definition InnerSize (w : Window) : Vector2D := Size w -v kTopLeftMargin -v kBottomRightMargin.

(** ** Frames *)
Section frames.
Context `{FontLib} {S : Type} `{PixelWriter S}.

(** [DrawTextbox] with the colours of its parts *)
Definition DrawTextbox (writer : S) (pos size : Vector2D) (background border_light border_dark : PixelColor)
    : outcome S :=
  w ← FillRectangle writer (pos +v mkVec 1 1) (size -v mkVec 2 2) background;
  w ← FillRectangle w pos (mkVec (vx size) 1) border_dark;
  w ← FillRectangle w pos (mkVec 1 (vy size)) border_dark;
  w ← FillRectangle w (pos +v mkVec 0 (vy size)) (mkVec (vx size) 1) border_light;
  FillRectangle w (pos +v mkVec (vx size) 0) (mkVec 1 (vy size)) border_light.

Definition DrawTextBox (writer : S) (pos size : Vector2D) : outcome S :=
  DrawTextbox writer pos size (ToColor 0xffffff) (ToColor 0xc6c6c6) (ToColor 0x848484).

Definition DrawTerminal (writer : S) (pos size : Vector2D) : outcome S :=
  DrawTextbox writer pos size (ToColor 0x000000) (ToColor 0xc6c6c6) (ToColor 0x848484).

Definition button_color (c : Z) : PixelColor :=
  if c =? 64 then ToColor 0x000000
  else if c =? 36 then ToColor 0x848484
  else if c =? 58 then ToColor 0xc6c6c6
  else ToColor 0xffffff.

Definition DrawWindowTitle (writer : S) (title : list Z) (active : bool) : outcome S :=
  let win_w := Width writer in
  let bgcolor := if active then 0x000084 else 0x848484 in
  w ← FillRectangle writer (mkVec 3 3) (mkVec (win_w - 6) 18) (ToColor bgcolor);
  w ← font_string w (mkVec 24 4) title (ToColor 0xffffff);
  for_loop 0 kCloseButtonHeight (λ y, for_loop 0 kCloseButtonWidth (λ x w,
    row ← of_option (close_button !! Z.to_nat y);
    c ← of_option (row !! Z.to_nat x);
    Write w (mkVec (win_w - 5 - kCloseButtonWidth + x) (5 + y)) (button_color c))) w.

Definition DrawWindow (writer : S) (title : list Z) : outcome S :=
  let win_w := Width writer in
  let win_h := Height writer in
  let fill_rect w pos size c := FillRectangle w pos size (ToColor c) in
  w ← fill_rect writer (mkVec 0 0) (mkVec win_w 1) 0xc6c6c6;
  w ← fill_rect w (mkVec 1 1) (mkVec (win_w - 2) 1) 0xffffff;
  w ← fill_rect w (mkVec 2 2) (mkVec (win_w - 4) (win_h - 4)) 0xc6c6c6;
  w ← fill_rect w (mkVec 0 0) (mkVec 1 win_h) 0xc6c6c6;
  w ← fill_rect w (mkVec 1 1) (mkVec 1 (win_h - 2)) 0xffffff;
  w ← fill_rect w (mkVec (win_w - 1) 0) (mkVec 1 win_h) 0x000000;
  w ← fill_rect w (mkVec (win_w - 2) 1) (mkVec 1 (win_h - 2)) 0x848484;
  w ← fill_rect w (mkVec 1 (win_h - 2)) (mkVec (win_w - 2) 1) 0x848484;
  w ← fill_rect w (mkVec 0 (win_h - 1)) (mkVec win_w 1) 0x000000;
  DrawWindowTitle w title false.
End frames.

Section toplevel.
Context `{FontLib}.

(** [ToplevelWindow::ToplevelWindow] *)
Definition new_ToplevelWindow (width height : Z) (shadow_format : PixelFormat) (title : list Z) : outcome Window :=
  w ← new_Window width height shadow_format;
  DrawWindow (mkWindow (width_ w) (height_ w) (data_ w) (transparent_color_ w) (shadow_buffer_ w) (Toplevel title))
    title.

(** [Activate] and [Deactivate], virtual *)
Definition window_Activate (w : Window) : outcome Window :=
  match window_class w with
  | PlainWindow => mret w
  | Toplevel title => DrawWindowTitle w title true
  end.

Definition window_Deactivate (w : Window) : outcome Window :=
  match window_class w with
  | PlainWindow => mret w
  | Toplevel title => DrawWindowTitle w title false
  end.
End toplevel.

(** ** The two copies of a window's pixels *)
Module WindowFacts.

(** [data_] and the shadow buffer have the window's size and show the same. *)
Record window_ok (w : Window) : Prop := {
  wo_shadow : fb_ok (shadow_buffer_ w);
  wo_width : horizontal_resolution (config_ (shadow_buffer_ w)) = width_ w;
  wo_height : vertical_resolution (config_ (shadow_buffer_ w)) = height_ w;
  wo_sync p : 0 ≤ vx p < width_ w → 0 ≤ vy p < height_ w →
    data_at (data_ w) p = Done (fb_pixel (shadow_buffer_ w) p);
}.

Definition window_pixel (w : Window) (p : Vector2D) : PixelColor := fb_pixel (shadow_buffer_ w) p.

Lemma vec_eq_nat p q : 0 ≤ vx p → 0 ≤ vy p → 0 ≤ vx q → 0 ≤ vy q →
  Z.to_nat (vx p) = Z.to_nat (vx q) → Z.to_nat (vy p) = Z.to_nat (vy q) → p = q.
Proof. intros. destruct p, q. simpl in *. f_equal; lia. Qed.

Lemma data_set_spec d p c c0 : data_at d p = Done c0 →
  ∃ d', data_set d p c = Done d' ∧
    ∀ q, 0 ≤ vx q → 0 ≤ vy q → data_at d' q = if decide (q = p) then Done c else data_at d q.
Proof.
  intros Hp. unfold data_set. rewrite Hp. cbn [mbind outcome_bind]. eexists. split; [reflexivity|].
  intros q Hqx Hqy. unfold data_at in *.
  destruct (Z.ltb_spec (vy p) 0); [done|]. destruct (Z.ltb_spec (vx p) 0); [done|]. simpl in Hp.
  destruct (Z.ltb_spec (vy q) 0); [lia|]. destruct (Z.ltb_spec (vx q) 0); [lia|]. simpl.
  destruct (d !! Z.to_nat (vy p)) as [row|] eqn:Er; [simpl in Hp|done].
  destruct (row !! Z.to_nat (vx p)) as [c1|] eqn:Ec; [|done].
  destruct (decide (Z.to_nat (vy p) = Z.to_nat (vy q))) as [Hy|Hy].
  - rewrite <- Hy, list_lookup_alter_eq, Er. simpl.
    destruct (decide (Z.to_nat (vx p) = Z.to_nat (vx q))) as [Hx|Hx].
    + rewrite decide_True by (apply vec_eq_nat; done || congruence).
      rewrite <- Hx, list_lookup_insert_eq by (by eapply lookup_lt_Some). done.
    + rewrite decide_False by (intros ->; done). by rewrite list_lookup_insert_ne.
  - rewrite decide_False by (intros ->; done). by rewrite list_lookup_alter_ne.
Qed.

Lemma shadow_size w : window_ok w → Width (shadow_buffer_ w) = width_ w ∧ Height (shadow_buffer_ w) = height_ w.
Proof.
  intros [Hs HW HH _]. simpl. rewrite <- HW, <- HH. destruct Hs. by rewrite !swrap_small by lia.
Qed.

#[export] Program Instance WindowWriter_laws : PixelWriterLaws Window := {|
  pw_ok := window_ok;
  pixel := window_pixel;
|}.
Next Obligation.
  intros w p c Hok Hx Hy. cbn [Width Height WindowWriter] in *.
  destruct (shadow_size w Hok) as [HW HH].
  destruct (Write_spec (PixelWriterLaws := FrameBufferWriter_laws) (shadow_buffer_ w) p c (wo_shadow _ Hok))
    as (s & Es & Hs & HsW & HsH & Hpx); [by rewrite HW|by rewrite HH|].
  destruct (data_set_spec (data_ w) p c _ (wo_sync _ Hok p Hx Hy)) as (d & Ed & Hd).
  rewrite HW, HH in *.
  exists (mkWindow (width_ w) (height_ w) d (transparent_color_ w) s (window_class w)).
  split.
  { change (window_Write w p c = Done (mkWindow (width_ w) (height_ w) d (transparent_color_ w) s (window_class w))).
    unfold window_Write. rewrite Ed. cbn [mbind outcome_bind]. by rewrite Es. }
  cbn [pixel FrameBufferWriter_laws] in Hpx.
  split; [|split; [done|]; split; [done|]; intros q Hqx Hqy; by apply Hpx].
  change (fb_ok s) in Hs. split; simpl.
  - done.
  - destruct Hs. simpl in HsW. rewrite swrap_small in HsW by lia. done.
  - destruct Hs. simpl in HsH. rewrite swrap_small in HsH by lia. done.
  - intros q Hqx Hqy. rewrite Hd, Hpx by (done || lia). destruct (decide (q = p)); [done|]. by apply wo_sync.
Qed.

(** A new window is black and in step. *)
Lemma new_Window_ok width height format : 0 ≤ width → 0 ≤ height < 2 ^ 31 → 4 * width < 2 ^ 31 →
  4 * (width * height) < 2 ^ 31 →
  ∃ w, new_Window width height format = Done w ∧ window_ok w ∧ width_ w = width ∧ height_ w = height ∧
    window_class w = PlainWindow ∧ ∀ p, window_pixel w p = mkColor 0 0 0.
Proof.
  intros Hw Hh Hl Hs. unfold new_Window. destruct (Z.ltb_spec width 0); [lia|]. destruct (Z.ltb_spec height 0); [lia|].
  cbn [orb]. eexists. split; [reflexivity|]. simpl. rewrite !(wrap_small 32 width), !(wrap_small 32 height) by lia.
  rewrite BytesPerPixel_4, (wrap_small 32 (4 * width)) by lia. rewrite wrap_small by (split; [apply Z.mul_nonneg_nonneg|]; lia).
  assert (Hpx : ∀ c l p, fb_pixel (mkFB c (mkBuffer ∅ l)) p = mkColor 0 0 0).
  { intros. unfold fb_pixel, px, at_pixel. simpl. by destruct (pixel_format c). }
  split_and!; [|done..|intros; apply Hpx]. split; simpl.
  - split; simpl; lia.
  - done.
  - done.
  - intros p Hpx' Hpy. rewrite Hpx. unfold data_at. destruct (Z.ltb_spec (vy p) 0); [lia|].
    destruct (Z.ltb_spec (vx p) 0); [lia|]. cbn [orb].
    rewrite lookup_replicate_2 by lia. simpl. by rewrite lookup_replicate_2 by lia.
Qed.
(** What a window at [pos] shows of itself in [area]: its pixels there, or, with a
    transparent colour, all its pixels of other colours whatever the area is. *)
Definition window_view (w : Window) (pos : Vector2D) (area : Rectangle) (p : Vector2D) : option PixelColor :=
  if inside p pos (Size w) then
    let c := window_pixel w (p -v pos) in
    match transparent_color_ w with
    | None => if inside p (rpos area) (rsize area) then Some c else None
    | Some tc => if bool_decide (c ≠ tc) then Some c else None
    end
  else None.

Lemma fb_Write_config fb p c fb' : fb_Write fb p c = Done fb' → config_ fb' = config_ fb.
Proof. unfold fb_Write. intros H. bind_inv. by subst. Qed.

Lemma fb_on_screen fb p : fb_ok fb → on_screen fb p ↔
  0 ≤ vx p < horizontal_resolution (config_ fb) ∧ 0 ≤ vy p < vertical_resolution (config_ fb).
Proof. intros []. unfold on_screen. simpl. by rewrite !swrap_small by lia. Qed.

(** [drawn], with the configuration of the frame buffer left alone. *)
Definition fb_drawn (f : Vector2D → option PixelColor) (fb fb' : FrameBuffer) : Prop :=
  config_ fb' = config_ fb ∧ drawn (PL := FrameBufferWriter_laws) f fb fb'.

Lemma window_DrawTo_opaque w dst pos area : window_ok w → fb_ok dst → transparent_color_ w = None →
  pixel_format (config_ dst) = pixel_format (config_ (shadow_buffer_ w)) →
  ∃ dst', window_DrawTo w dst pos area = Done dst' ∧ fb_drawn (window_view w pos area) dst dst'.
Proof.
  intros Hw Hdst Ht Hf. unfold window_DrawTo, window_view. rewrite Ht.
  set (x := rect_and area (mkRect pos (Size w))).
  assert (Hx : ∀ p, inside p (rpos x) (rsize x) = inside p (rpos area) (rsize area) && inside p pos (Size w)).
  { intros p. unfold x. by rewrite rect_and_inside. }
  clearbody x. destruct ((0 <? vx (rsize x)) && (0 <? vy (rsize x))) eqn:He.
  - destruct (Copy_pixel dst (shadow_buffer_ w) (rpos x) (mkRect (rpos x -v pos) (rsize x)) Hdst (wo_shadow _ Hw) Hf)
      as (dst' & E & Hok & Hc & Hp).
    rewrite E. cbn [mbind outcome_bind]. exists dst'. split; [done|]. split; [done|]. split.
    + done.
    + simpl. by rewrite Hc.
    + simpl. by rewrite Hc.
    + intros p Hon. change (pixel dst' p) with (fb_pixel dst' p). rewrite (Hp p Hon). cbn [rsize rpos]. rewrite Hx.
      assert (p -v rpos x +v (rpos x -v pos) = p -v pos) as -> by (unfold vec_add, vec_sub; simpl; f_equal; lia).
      rewrite FrameBufferSize_eq, (wo_width _ Hw), (wo_height _ Hw) by apply (wo_shadow _ Hw).
      change (mkVec (width_ w) (height_ w)) with (Size w).
      assert (inside (p -v pos) (mkVec 0 0) (Size w) = inside p pos (Size w)) as -> by (unfold inside; simpl; bool_lia).
      by destruct (inside p pos (Size w)), (inside p (rpos area) (rsize area)).
  - exists dst. split; [done|]. split; [done|]. eapply drawn_ext; [|by apply drawn_none]. intros p _. simpl.
    assert (Hno : inside p (rpos x) (rsize x) = false).
    { apply andb_false_iff in He. rewrite !Z.ltb_ge in He. unfold inside. bool_lia. }
    rewrite Hx in Hno. by destruct (inside p pos (Size w)), (inside p (rpos area) (rsize area)).
Qed.

Lemma window_DrawTo_transparent w dst pos area tc : window_ok w → fb_ok dst → transparent_color_ w = Some tc →
  ∃ dst', window_DrawTo w dst pos area = Done dst' ∧ fb_drawn (window_view w pos area) dst dst'.
Proof.
  intros Hw Hdst Ht. unfold window_DrawTo, window_view. rewrite Ht.
  destruct (draw_loop (PL := FrameBufferWriter_laws) (λ fb, config_ fb = config_ dst) pos
    (Z.max 0 (0 - vx pos)) (Z.min (width_ w) (Width dst - vx pos))
    (Z.max 0 (0 - vy pos)) (Z.min (height_ w) (Height dst - vy pos))
    (λ p, let c := window_pixel w (p -v pos) in if bool_decide (c ≠ tc) then Some c else None)
    (λ y x dst, c ← At w (mkVec x y);
          if bool_decide (c ≠ tc) then Write dst (pos +v mkVec x y) c else mret dst) dst) as (dst' & E & Hc & Hd);
    [done|done| |].
  - intros x y d Hx Hy Hok Hc HW HH. unfold At. rewrite (wo_sync _ Hw) by (simpl; lia). cbn [mbind outcome_bind].
    assert (Hrel : ∀ p, p = pos +v mkVec x y → p -v pos = mkVec x y)
      by (intros p ->; unfold vec_add, vec_sub; simpl; f_equal; lia).
    fold (window_pixel w (mkVec x y)). destruct (bool_decide (window_pixel w (mkVec x y) ≠ tc)) eqn:Hb.
    + destruct (Write_drawn (PL := FrameBufferWriter_laws) d (pos +v mkVec x y) (window_pixel w (mkVec x y)) Hok)
        as (d' & E & Hd); [split; rewrite ?HW, ?HH; simpl in *; lia|].
      exists d'. split; [done|]. split; [rewrite <- Hc; by eapply fb_Write_config|].
      eapply drawn_ext; [|done]. intros p _. cbv beta zeta. destruct (decide (p = pos +v mkVec x y)) as [Hp|]; [|done]. by rewrite (Hrel p Hp), Hb.
    + exists d. split; [done|]. split; [done|]. eapply drawn_ext; [|by apply drawn_none]. intros p _. cbv beta zeta.
      destruct (decide (p = pos +v mkVec x y)) as [Hp|]; [|done]. by rewrite (Hrel p Hp), Hb.
  - exists dst'. split; [done|]. split; [done|]. eapply drawn_ext; [|done]. intros p [Hpx Hpy]. simpl.
    match goal with |- (if ?a then _ else _) = (if ?b then _ else _) => assert (a = b) as -> end; [|done].
    unfold inside. simpl in *. bool_lia.
Qed.

Lemma window_DrawTo_drawn w dst pos area : window_ok w → fb_ok dst →
  pixel_format (config_ dst) = pixel_format (config_ (shadow_buffer_ w)) →
  ∃ dst', window_DrawTo w dst pos area = Done dst' ∧ fb_drawn (window_view w pos area) dst dst'.
Proof.
  intros. destruct (transparent_color_ w) as [tc|] eqn:Ht.
  - by eapply window_DrawTo_transparent.
  - by apply window_DrawTo_opaque.
Qed.

(** The close button that [DrawWindowTitle] draws is where [GetWindowRegion] says. *)
Lemma GetWindowRegion_close w pos title : window_class w = Toplevel title → 28 ≤ width_ w → 28 ≤ height_ w →
  GetWindowRegion w pos = kCloseButton ↔
  inside pos (mkVec (width_ w - 5 - kCloseButtonWidth) 5) (mkVec kCloseButtonWidth kCloseButtonHeight) = true.
Proof.
  intros Hc HW HH. unfold GetWindowRegion, inside, kCloseButtonWidth, kCloseButtonHeight. rewrite Hc. simpl.
  bool_cases; simpl; (split; intros; try done; try lia).
Qed.
End WindowFacts.

Import WindowFacts.

(** ** Properties *)

(** The colour of [p] after the writes [ws], from a black window. *)
Definition written (ws : list (Vector2D * PixelColor)) (p : Vector2D) : PixelColor :=
  foldl (λ c '(q, d), if decide (q = p) then d else c) (mkColor 0 0 0) ws.

Lemma writes_ok ws : ∀ w, window_ok w →
  Forall (λ wr, inside wr.1 (mkVec 0 0) (Size w) = true) ws →
  ∃ w', foldM (λ wr w, Write w wr.1 wr.2) ws w = Done w' ∧ window_ok w' ∧ Size w' = Size w ∧
    pixel_format (config_ (shadow_buffer_ w')) = pixel_format (config_ (shadow_buffer_ w)) ∧
    ∀ p, inside p (mkVec 0 0) (Size w) = true →
      window_pixel w' p = foldl (λ c '(q, d), if decide (q = p) then d else c) (window_pixel w p) ws.
Proof.
  induction ws as [|[q d] ws IH]; intros w Hw Hws.
  - exists w. by split_and!.
  - apply Forall_cons in Hws as [Hq Hws]. cbn [fst] in Hq.
    assert (Hin : ∀ p, inside p (mkVec 0 0) (Size w) = true ↔ 0 ≤ vx p < width_ w ∧ 0 ≤ vy p < height_ w).
    { intros p. unfold inside. simpl. rewrite !andb_true_iff, !Z.leb_le, !Z.ltb_lt. lia. }
    apply Hin in Hq as [Hqx Hqy].
    destruct (Write_spec (PixelWriterLaws := WindowWriter_laws) w q d Hw Hqx Hqy)
      as (w1 & E1 & Hw1 & HW1 & HH1 & Hpx1).
    assert (Hsize : Size w1 = Size w) by (unfold Size; f_equal; [exact HW1|exact HH1]).
    assert (Hf1 : pixel_format (config_ (shadow_buffer_ w1)) = pixel_format (config_ (shadow_buffer_ w))).
    { change (window_Write w q d = Done w1) in E1. unfold window_Write in E1. bind_inv. subst. simpl.
      f_equal. by eapply fb_Write_config. }
    destruct (IH w1 Hw1) as (w' & E & Hw' & Hs & Hf & Hpx); [by rewrite Hsize|].
    exists w'. cbn [foldM fst snd]. rewrite E1. cbn [mbind outcome_bind].
    split_and!; [done|done|congruence|congruence|]. intros p Hp. rewrite Hpx by (by rewrite Hsize). cbn [foldl].
    f_equal. apply Hin in Hp as [Hx Hy]. specialize (Hpx1 p Hx Hy). cbn [pixel WindowWriter_laws] in Hpx1.
    rewrite Hpx1. destruct (decide (p = q)) as [->|]; [by rewrite decide_True|by rewrite decide_False by congruence].
Qed.

(** A window shows what was drawn in it.  After any writes inside a new window,
    with a transparent colour or without, [DrawTo] changes exactly the pixels of
    the screen that the window covers: without a transparent colour those in the
    area to redraw, with one those of other colours; each of them shows the
    colour last written at its place in the window, black where none was. *)
Theorem DrawTo_shows_writes (width height : Z) (ws : list (Vector2D * PixelColor)) (tc : option PixelColor)
  (dst : FrameBuffer) (pos : Vector2D) (area : Rectangle)
  (Hw : 0 ≤ width) (Hh : 0 ≤ height < 2 ^ 31) (Hline : 4 * width < 2 ^ 31) (Hbytes : 4 * (width * height) < 2 ^ 31)
  (Hws : Forall (λ wr, inside wr.1 (mkVec 0 0) (mkVec width height) = true) ws) (Hdst : fb_ok dst) :
  ∃ w dst', (w0 ← new_Window width height (pixel_format (config_ dst));
             foldM (λ wr w, Write w wr.1 wr.2) ws (SetTransparentColor w0 tc)) = Done w ∧
    window_DrawTo w dst pos area = Done dst' ∧ config_ dst' = config_ dst ∧
    ∀ p, on_screen dst p →
      fb_pixel dst' p =
        if inside p pos (mkVec width height) then
          match tc with
          | None => if inside p (rpos area) (rsize area) then written ws (p -v pos) else fb_pixel dst p
          | Some t => if decide (written ws (p -v pos) = t) then fb_pixel dst p else written ws (p -v pos)
          end
        else fb_pixel dst p.
Proof.
  destruct (new_Window_ok width height (pixel_format (config_ dst)) Hw Hh Hline Hbytes) as (w0 & E0 & H0 & HW & HH & _ & Hblack).
  assert (Hf0 : pixel_format (config_ (shadow_buffer_ w0)) = pixel_format (config_ dst)).
  { revert E0. unfold new_Window. destruct (_ || _); [done|]. intros [= <-]. done. }
  destruct (writes_ok ws (SetTransparentColor w0 tc)) as (w & E & Hok & Hs & Hf & Hpx).
  { by destruct H0. }
  { unfold Size. simpl. by rewrite HW, HH. }
  assert (Ht : transparent_color_ w = tc).
  { assert (Hkeep : ∀ ws w w', foldM (λ wr w, Write w wr.1 wr.2) ws w = Done w' → transparent_color_ w' = transparent_color_ w).
    { clear. induction ws as [|[q d] ws IH]; intros w w' H; simpl in H; [by injection H as <-|].
      apply bind_Done_inv in H as (w1 & E1 & H). rewrite (IH _ _ H).
      change (window_Write w q d = Done w1) in E1. unfold window_Write in E1. bind_inv. by subst. }
    by rewrite (Hkeep _ _ _ E). }
  assert (Hsz : Size w = mkVec width height) by (rewrite Hs; unfold Size; simpl; by rewrite HW, HH).
  destruct (window_DrawTo_drawn w dst pos area Hok Hdst) as (dst' & Ed & Hc & Hd); [by rewrite Hf; simpl|].
  exists w, dst'. rewrite E0. cbn [mbind outcome_bind]. split; [done|]. split; [done|]. split; [done|].
  intros p Hon. etrans; [exact (drawn_pixel _ _ _ Hd p Hon)|]. unfold window_view. rewrite Ht, Hsz.
  change (pixel dst p) with (fb_pixel dst p). destruct (inside p pos (mkVec width height)) eqn:Hin; [|done].
  assert (Hwr : window_pixel w (p -v pos) = written ws (p -v pos)).
  { rewrite Hpx; [unfold written; f_equal; apply Hblack|]. unfold inside, Size in *. simpl in *. rewrite HW, HH.
    revert Hin. bool_lia. }
  rewrite Hwr. destruct tc as [t|].
  - destruct (decide (written ws (p -v pos) = t)); [rewrite bool_decide_eq_false_2|rewrite bool_decide_eq_true_2]; auto.
  - by destruct (inside p (rpos area) (rsize area)).
Qed.

Lemma DrawTo_shows_writes_witness :
  ∃ w dst', (w0 ← new_Window 2 2 kPixelRGBResv8BitPerColor;
      foldM (λ wr w, Write w wr.1 wr.2) [(mkVec 1 0, mkColor 1 2 3)] (SetTransparentColor w0 (Some (mkColor 0 0 0)))) = Done w ∧
    window_DrawTo w (sample_fb kPixelRGBResv8BitPerColor) (mkVec 1 1) (mkRect (mkVec 0 0) (mkVec 0 0)) = Done dst' ∧
    fb_pixel dst' (mkVec 2 1) = mkColor 1 2 3 ∧ fb_pixel dst' (mkVec 1 1) = mkColor 20 21 22.
Proof.
  destruct (DrawTo_shows_writes 2 2 [(mkVec 1 0, mkColor 1 2 3)] (Some (mkColor 0 0 0))
    (sample_fb kPixelRGBResv8BitPerColor) (mkVec 1 1) (mkRect (mkVec 0 0) (mkVec 0 0)))
    as (w & dst' & E & Ed & _ & Hp);
    [lia|lia|lia|lia|apply Forall_cons; split; [reflexivity|apply Forall_nil; exact I]|apply sample_fb_ok|].
  exists w, dst'. split; [exact E|]. split; [exact Ed|].
  split; rewrite Hp by (unfold on_screen; simpl; vm_compute; lia || (split; split; discriminate || reflexivity));
    vm_compute; reflexivity.
Defined.
