(* ===== verification/Layer.v ===== *)
(** Layers: src/kernel/layer.{hpp,cpp}.  The manager owns the layers, keeps the
    order in which they are stacked and draws them from the bottom up into a back
    buffer, then copies the area that changed to the screen.  Layers share their
    windows with the tasks that draw on them, so the windows live in a store
    ([windows]) and a layer holds a pointer into it. *)
From S2P Require Import Prelude ErrorCode Message Task Graphics FrameBuffer Font Window.

(** [class Layer] *)
Record Layer : Set := mkLayer {
  id_ : Z;
  pos_ : Vector2D;
  window_ : option Z;
  draggable_ : bool;
}.

#[export] Instance Layer_eq_dec : EqDecision Layer.
Proof. solve_decision. Defined.

Definition new_Layer (id : Z) : Layer := mkLayer id (mkVec 0 0) None false.
Definition SetWindow (l : Layer) (window : option Z) : Layer := mkLayer (id_ l) (pos_ l) window (draggable_ l).
Definition SetDraggable (l : Layer) (draggable : bool) : Layer := mkLayer (id_ l) (pos_ l) (window_ l) draggable.
Definition layer_Move (l : Layer) (pos : Vector2D) : Layer := mkLayer (id_ l) pos (window_ l) (draggable_ l).
Definition layer_MoveRelative (l : Layer) (pos_diff : Vector2D) : Layer :=
  mkLayer (id_ l) (pos_ l +v pos_diff) (window_ l) (draggable_ l).

(** [class LayerManager]: the layers with their addresses, the stack of pointers
    to them from the bottom up, and the frame buffers drawn on. *)
Record LayerManager : Set := mkLM {
  screen_ : option FrameBuffer;
  back_buffer_ : FrameBuffer;
  layers_ : list (Z * Layer);
  layer_stack_ : list (option Z);
  latest_id_ : Z;
}.

Definition set_layers (lm : LayerManager) (ls : list (Z * Layer)) : LayerManager :=
  mkLM (screen_ lm) (back_buffer_ lm) ls (layer_stack_ lm) (latest_id_ lm).
Definition set_stack (lm : LayerManager) (st : list (option Z)) : LayerManager :=
  mkLM (screen_ lm) (back_buffer_ lm) (layers_ lm) st (latest_id_ lm).
Definition set_buffers (lm : LayerManager) (screen : option FrameBuffer) (back : FrameBuffer) : LayerManager :=
  mkLM screen back (layers_ lm) (layer_stack_ lm) (latest_id_ lm).

(** The object at an address. *)
Fixpoint layer_at (ls : list (Z * Layer)) (a : Z) : option Layer :=
  match ls with
  | [] => None
  | (b, l) :: ls => if b =? a then Some l else layer_at ls a
  end.

(** [*layer] for a pointer that may be null or dangling. *)
Definition deref (ls : list (Z * Layer)) (p : option Z) : outcome Layer :=
  of_option (p ≫= layer_at ls).

(** A change of the layer at an address. *)
Definition update_layer (lm : LayerManager) (a : Z) (f : Layer → Layer) : LayerManager :=
  set_layers lm ((λ al, if al.1 =? a then (al.1, f al.2) else al) <$> layers_ lm).

(** [LayerManager::SetWriter] *)
Definition SetWriter (lm : LayerManager) (screen : FrameBuffer) : LayerManager :=
  let c := config_ screen in
  let back_config := mkConfig None (pixels_per_scan_line c) (horizontal_resolution c) (vertical_resolution c)
                       (pixel_format c) in
  set_buffers lm (Some screen) (value (Initialize back_config)).

(** [LayerManager::NewLayer]; [a] is the address that [new] returns. *)
Definition NewLayer (lm : LayerManager) (a : Z) : Z * LayerManager :=
  let id := u32 (latest_id_ lm + 1) in
  (a, mkLM (screen_ lm) (back_buffer_ lm) (layers_ lm ++ [(a, new_Layer id)]) (layer_stack_ lm) id).

(** [LayerManager::FindLayer]: the address, or null *)
Definition FindLayer (lm : LayerManager) (id : Z) : option Z :=
  fst <$> List.find (λ al, id_ al.2 =? id) (layers_ lm).

(** The place of the first entry equal to [p]. *)
Fixpoint find_entry (st : list (option Z)) (p : option Z) : option nat :=
  match st with
  | [] => None
  | q :: st => if bool_decide (q = p) then Some O else S <$> find_entry st p
  end.

Definition insert_at {A} (n : nat) (x : A) (l : list A) : list A := take n l ++ x :: drop n l.

(** [LayerManager::Hide] *)
Definition Hide (lm : LayerManager) (id : Z) : LayerManager :=
  match find_entry (layer_stack_ lm) (FindLayer lm id) with
  | Some i => set_stack lm (delete i (layer_stack_ lm))
  | None => lm
  end.

(** [LayerManager::RemoveLayer] *)
Definition RemoveLayer (lm : LayerManager) (id : Z) : LayerManager :=
  let lm := Hide lm id in
  set_layers lm (filter (λ al, id_ al.2 ≠ id) (layers_ lm)).

(** [LayerManager::UpDown]; the place of insertion is kept as an index across the
    [erase]. *)
Definition UpDown (lm : LayerManager) (id new_height : Z) : LayerManager :=
  if new_height <? 0 then Hide lm id
  else
    let st := layer_stack_ lm in
    let h := Z.to_nat (Z.min new_height (Z.of_nat (length st))) in
    let layer := FindLayer lm id in
    match find_entry st layer with
    | None => set_stack lm (insert_at h layer st)
    | Some old =>
        let h := if (h =? length st)%nat then (h - 1)%nat else h in
        set_stack lm (insert_at h layer (delete old st))
    end.

(** [LayerManager::GetHeight] *)
Fixpoint height_from (ls : list (Z * Layer)) (st : list (option Z)) (id h : Z) : outcome Z :=
  match st with
  | [] => mret (-1)
  | p :: st => l ← deref ls p; if id_ l =? id then mret h else height_from ls st id (h + 1)
  end.

Definition GetHeight (lm : LayerManager) (id : Z) : outcome Z := height_from (layers_ lm) (layer_stack_ lm) id 0.

(** ** Drawing *)
Section windows.
(** The windows that layers point to. *)
Variable windows : gmap Z Window.

(** [*layer->GetWindow()] *)
Definition window_of (l : Layer) : outcome Window :=
  match window_ l with
  | None => Undef
  | Some p => of_option (windows !! p)
  end.

(** [Layer::DrawTo] *)
Definition layer_DrawTo (l : Layer) (screen : FrameBuffer) (area : Rectangle) : outcome FrameBuffer :=
  match window_ l with
  | None => mret screen
  | Some _ => w ← window_of l; window_DrawTo w screen (pos_ l) area
  end.

(** [LayerManager::Draw(area)] *)
Definition Draw_all (lm : LayerManager) (area : Rectangle) : outcome LayerManager :=
  back ← foldM (λ p back, l ← deref (layers_ lm) p; layer_DrawTo l back area) (layer_stack_ lm) (back_buffer_ lm);
  screen ← of_option (screen_ lm);
  '(_, screen) ← Copy screen (rpos area) back area;
  mret (set_buffers lm (Some screen) back).

(** The loop of [LayerManager::Draw(id, area)]: the area as moved to the layer,
    and [window_area] once the layer has been met. *)
Definition draw_part_step (lm : LayerManager) (id : Z) (p : option Z)
    (st : Rectangle * option Rectangle * FrameBuffer) : outcome (Rectangle * option Rectangle * FrameBuffer) :=
  let '(area, window_area, back) := st in
  l ← deref (layers_ lm) p;
  '(area, window_area) ←
    (if id_ l =? id then
       w ← window_of l;
       let window_area := mkRect (pos_ l) (Size w) in
       if (0 <=? vx (rsize area)) || (0 <=? vy (rsize area)) then
         let area := mkRect (rpos area +v pos_ l) (rsize area) in
         mret (area, Some (rect_and window_area area))
       else mret (area, Some window_area)
     else mret (area, window_area));
  match window_area with
  | None => mret (area, None, back)
  | Some wa => back ← layer_DrawTo l back wa; mret (area, Some wa, back)
  end.

(** [LayerManager::Draw(id, area)]; when the layer is not in the stack,
    [window_area] is read uninitialised. *)
Definition Draw_part (lm : LayerManager) (id : Z) (area : Rectangle) : outcome LayerManager :=
  '(_, window_area, back) ← foldM (draw_part_step lm id) (layer_stack_ lm) (area, None, back_buffer_ lm);
  wa ← of_option window_area;
  screen ← of_option (screen_ lm);
  '(_, screen) ← Copy screen (rpos wa) back wa;
  mret (set_buffers lm (Some screen) back).

(** [LayerManager::Draw(id)] *)
Definition Draw_layer (lm : LayerManager) (id : Z) : outcome LayerManager :=
  Draw_part lm id (mkRect (mkVec 0 0) (mkVec (-1) (-1))).

(** [LayerManager::Move] and [MoveRelative] *)
Definition move_layer (lm : LayerManager) (id : Z) (f : Layer → Layer) : outcome LayerManager :=
  a ← of_option (FindLayer lm id);
  l ← of_option (layer_at (layers_ lm) a);
  w ← window_of l;
  let lm := update_layer lm a f in
  lm ← Draw_all lm (mkRect (pos_ l) (Size w));
  Draw_layer lm id.

Definition lm_Move (lm : LayerManager) (id : Z) (new_pos : Vector2D) : outcome LayerManager :=
  move_layer lm id (λ l, layer_Move l new_pos).

Definition lm_MoveRelative (lm : LayerManager) (id : Z) (pos_diff : Vector2D) : outcome LayerManager :=
  move_layer lm id (λ l, layer_MoveRelative l pos_diff).

(** The predicate and the search of [FindLayerByPosition], from the top down. *)
Definition at_position (pos : Vector2D) (exclude_id : Z) (l : Layer) : outcome bool :=
  if id_ l =? exclude_id then mret false
  else
    match window_ l with
    | None => mret false
    | Some _ =>
        w ← window_of l;
        let win_end_pos := pos_ l +v Size w in
        mret ((vx (pos_ l) <=? vx pos) && (vx pos <? vx win_end_pos) &&
              (vy (pos_ l) <=? vy pos) && (vy pos <? vy win_end_pos))
    end.

Fixpoint find_position (ls : list (Z * Layer)) (st : list (option Z)) (pos : Vector2D) (exclude_id : Z)
    : outcome (option Z) :=
  match st with
  | [] => mret None
  | p :: st =>
      l ← deref ls p;
      b ← at_position pos exclude_id l;
      if (b : bool) then mret p else find_position ls st pos exclude_id
  end.

Definition FindLayerByPosition (lm : LayerManager) (pos : Vector2D) (exclude_id : Z) : outcome (option Z) :=
  find_position (layers_ lm) (reverse (layer_stack_ lm)) pos exclude_id.

(** [ProcessLayerMessage] *)
Definition ProcessLayerMessage (lm : LayerManager) (msg : Message) : outcome LayerManager :=
  match arg msg with
  | kLayer op layer_id x y w h =>
      match op with
      | Message.Move => lm_Move lm layer_id (mkVec x y)
      | Message.MoveRelative => lm_MoveRelative lm layer_id (mkVec x y)
      | Message.Draw => Draw_layer lm layer_id
      | Message.DrawArea => Draw_part lm layer_id (mkRect (mkVec x y) (mkVec w h))
      end
  | _ => Undef
  end.
End windows.

Definition MakeLayerMessage (task_id layer_id : Z) (op : LayerOperation) (area : Rectangle) : Message :=
  mkMessage task_id (kLayer op layer_id (vx (rpos area)) (vy (rpos area)) (vx (rsize area)) (vy (rsize area))).

(** ** The active layer *)

(** [class ActiveLayer] *)
Record ActiveLayer : Set := mkActive { active_layer_ : Z; mouse_layer_ : Z }.

(** The objects behind the globals [layer_manager], [active_layer],
    [layer_task_map] and [task_manager], and the windows. *)
Record Desktop : Set := mkDesktop {
  layer_manager : LayerManager;
  windows : gmap Z Window;
  active_layer : ActiveLayer;
  layer_task_map : gmap Z Z;
  task_manager : TaskManager;
}.

Definition set_lm (d : Desktop) (lm : LayerManager) : Desktop :=
  mkDesktop lm (windows d) (active_layer d) (layer_task_map d) (task_manager d).
Definition set_windows (d : Desktop) (ws : gmap Z Window) : Desktop :=
  mkDesktop (layer_manager d) ws (active_layer d) (layer_task_map d) (task_manager d).
Definition set_active (d : Desktop) (a : ActiveLayer) : Desktop :=
  mkDesktop (layer_manager d) (windows d) a (layer_task_map d) (task_manager d).
Definition set_task_map (d : Desktop) (m : gmap Z Z) : Desktop :=
  mkDesktop (layer_manager d) (windows d) (active_layer d) m (task_manager d).
Definition set_tm (d : Desktop) (tm : TaskManager) : Desktop :=
  mkDesktop (layer_manager d) (windows d) (active_layer d) (layer_task_map d) tm.

Definition SetMouseLayer (d : Desktop) (mouse_layer : Z) : Desktop :=
  set_active d (mkActive (active_layer_ (active_layer d)) mouse_layer).

(** [SendWindowActiveMessage] *)
Definition SendWindowActiveMessage (d : Desktop) (layer_id activate : Z) : outcome (Code * Desktop) :=
  match layer_task_map d !! layer_id with
  | None => mret (kNoSuchTask, d)
  | Some task_id =>
      '(err, tm) ← SendMessage (task_manager d) task_id (mkMessage 0 (kWindowActive activate));
      mret (err, set_tm d tm)
  end.

Section active.
Context `{FontLib}.

(** [layer->GetWindow()->Activate()] and [Deactivate()] of the layer [id] *)
Definition with_window (d : Desktop) (id : Z) (f : Window → outcome Window) : outcome Desktop :=
  a ← of_option (FindLayer (layer_manager d) id);
  l ← of_option (layer_at (layers_ (layer_manager d)) a);
  p ← of_option (window_ l);
  w ← of_option (windows d !! p);
  w ← f w;
  mret (set_windows d (<[p := w]> (windows d))).

Definition draw_layer (d : Desktop) (id : Z) : outcome Desktop :=
  lm ← Draw_layer (windows d) (layer_manager d) id; mret (set_lm d lm).

(** [ActiveLayer::Activate] *)
Definition Activate (d : Desktop) (layer_id : Z) : outcome Desktop :=
  let active := active_layer_ (active_layer d) in
  if active =? layer_id then mret d
  else
    d ← (if 0 <? active then
           d ← with_window d active window_Deactivate;
           d ← draw_layer d active;
           '(_, d) ← SendWindowActiveMessage d active 0;
           mret d
         else mret d);
    let d := set_active d (mkActive layer_id (mouse_layer_ (active_layer d))) in
    if 0 <? layer_id then
      d ← with_window d layer_id window_Activate;
      let d := set_lm d (UpDown (layer_manager d) layer_id 0) in
      h ← GetHeight (layer_manager d) (mouse_layer_ (active_layer d));
      let d := set_lm d (UpDown (layer_manager d) layer_id (h - 1)) in
      d ← draw_layer d layer_id;
      '(_, d) ← SendWindowActiveMessage d layer_id 1;
      mret d
    else mret d.

(** [CloseLayer] *)
Definition CloseLayer (d : Desktop) (layer_id : Z) : outcome (Code * Desktop) :=
  match FindLayer (layer_manager d) layer_id with
  | None => mret (kNoSuchEntry, d)
  | Some a =>
      l ← of_option (layer_at (layers_ (layer_manager d)) a);
      w ← window_of (windows d) l;
      let area := mkRect (pos_ l) (Size w) in
      d ← Activate d 0;
      let d := set_lm d (RemoveLayer (layer_manager d) layer_id) in
      lm ← Draw_all (windows d) (layer_manager d) area;
      let d := set_lm d lm in
      mret (kSuccess, set_task_map d (delete layer_id (layer_task_map d)))
  end.
End active.

(** ** The picture a stack of layers shows *)
Module LayerFacts.
Import DrawFacts FBFacts WindowFacts.

(** What a layer shows of itself in [area]. *)
Definition layer_view (ws : gmap Z Window) (l : Layer) (area : Rectangle) (p : Vector2D) : option PixelColor :=
  match window_ l ≫= λ wp, ws !! wp with
  | Some w => window_view w (pos_ l) area p
  | None => None
  end.

(** The topmost of the views of [Ls] (from the bottom up), over [o]. *)
Definition shows_over (ws : gmap Z Window) (Ls : list Layer) (area : Rectangle) (p : Vector2D)
    (o : option PixelColor) : option PixelColor :=
  foldl (λ o l, match layer_view ws l area p with Some c => Some c | None => o end) o Ls.

Definition shows (ws : gmap Z Window) (Ls : list Layer) (area : Rectangle) (p : Vector2D) : option PixelColor :=
  shows_over ws Ls area p None.

(** The layers that the pointers of the stack point to. *)
Definition resolved (lm : LayerManager) (Ls : list Layer) : Prop :=
  Forall2 (λ p l, deref (layers_ lm) p = Done l) (layer_stack_ lm) Ls.

(** The layer's window exists, is in step and has the format of [fb]. *)
Definition drawable (ws : gmap Z Window) (fb : FrameBuffer) (l : Layer) : Prop :=
  ∀ wp, window_ l = Some wp → ∃ w, ws !! wp = Some w ∧ window_ok w ∧
    pixel_format (config_ (shadow_buffer_ w)) = pixel_format (config_ fb).

Lemma shows_over_None ws Ls area p o :
  shows_over ws Ls area p o = match shows ws Ls area p with Some c => Some c | None => o end.
Proof.
  unfold shows, shows_over. revert o. induction Ls as [|l Ls IH] using rev_ind; intros o; [done|].
  rewrite !foldl_snoc, IH. by destruct (layer_view ws l area p).
Qed.

Lemma shows_app ws Ls1 Ls2 area p :
  shows ws (Ls1 ++ Ls2) area p = match shows ws Ls2 area p with Some c => Some c | None => shows ws Ls1 area p end.
Proof. unfold shows at 1, shows_over. rewrite foldl_app. apply shows_over_None. Qed.

Lemma fb_drawn_more f g fb fb1 fb2 : fb_drawn f fb fb1 → fb_drawn g fb1 fb2 →
  fb_drawn (λ p, match g p with Some c => Some c | None => f p end) fb fb2.
Proof. intros [C1 D1] [C2 D2]. split; [congruence|]. by eapply drawn_more. Qed.

Lemma fb_drawn_ext f g fb fb' : (∀ p, on_screen fb p → f p = g p) → fb_drawn f fb fb' → fb_drawn g fb fb'.
Proof. intros H [C D]. split; [done|]. by eapply drawn_ext. Qed.

Lemma fb_drawn_none fb : fb_ok fb → fb_drawn (λ _, None) fb fb.
Proof. intros. split; [done|]. by apply drawn_none. Qed.

Lemma fb_drawn_pixel f fb fb' p : fb_drawn f fb fb' → on_screen fb p → fb_pixel fb' p = default (fb_pixel fb p) (f p).
Proof. intros [_ D]. apply (drawn_pixel _ _ _ D). Qed.

Lemma fb_drawn_ok f fb fb' : fb_drawn f fb fb' → fb_ok fb'.
Proof. intros [_ D]. apply (drawn_ok _ _ _ D). Qed.

Lemma layer_DrawTo_drawn ws l fb area : fb_ok fb → drawable ws fb l →
  ∃ fb', layer_DrawTo ws l fb area = Done fb' ∧ fb_drawn (layer_view ws l area) fb fb'.
Proof.
  intros Hfb Hl. unfold layer_DrawTo, layer_view, window_of, drawable in *.
  destruct (window_ l) as [wp|]; [|exists fb; split; [done|by apply fb_drawn_none]].
  destruct (Hl wp eq_refl) as (w & Hw & Hok & Hf). simpl. rewrite Hw. simpl.
  by apply window_DrawTo_drawn.
Qed.

Lemma drawable_config ws fb fb' l : config_ fb' = config_ fb → drawable ws fb l → drawable ws fb' l.
Proof. intros Hc Hl wp Hwp. rewrite Hc. by apply Hl. Qed.

(** Drawing a run of layers from the bottom up. *)
Lemma draw_run ls ws area st Ls : Forall2 (λ p l, deref ls p = Done l) st Ls → ∀ fb, fb_ok fb →
  Forall (drawable ws fb) Ls →
  ∃ fb', foldM (λ p back, l ← deref ls p; layer_DrawTo ws l back area) st fb = Done fb' ∧
    fb_drawn (shows ws Ls area) fb fb'.
Proof.
  induction 1 as [|p l st Ls Hp Hst IH]; intros fb Hfb Hd; [exists fb; split; [done|by apply fb_drawn_none]|].
  apply Forall_cons in Hd as [Hl Hd]. cbn [foldM]. rewrite Hp. cbn [mbind outcome_bind].
  destruct (layer_DrawTo_drawn ws l fb area Hfb Hl) as (fb1 & -> & D1). cbn [mbind outcome_bind].
  destruct (IH fb1) as (fb' & E & D); [by eapply fb_drawn_ok| |].
  { eapply Forall_impl; [done|]. intros l'. apply drawable_config, D1. }
  exists fb'. split; [done|]. eapply fb_drawn_ext; [|by eapply fb_drawn_more]. intros q _. cbv beta.
  unfold shows at 2, shows_over. cbn [foldl]. fold (shows_over ws Ls area q (match layer_view ws l area q with Some c => Some c | None => None end)).
  rewrite shows_over_None. by destruct (shows ws Ls area q), (layer_view ws l area q).
Qed.

(** The screen and the back buffer have one size and format. *)
Record buffers_ok (lm : LayerManager) (screen : FrameBuffer) : Prop := {
  bo_screen : screen_ lm = Some screen;
  bo_ok : fb_ok screen;
  bo_back : fb_ok (back_buffer_ lm);
  bo_width : horizontal_resolution (config_ (back_buffer_ lm)) = horizontal_resolution (config_ screen);
  bo_height : vertical_resolution (config_ (back_buffer_ lm)) = vertical_resolution (config_ screen);
  bo_format : pixel_format (config_ (back_buffer_ lm)) = pixel_format (config_ screen);
}.

(** Copying an area of the back buffer to its own place. *)
Lemma Copy_same screen back area : fb_ok screen → fb_ok back →
  horizontal_resolution (config_ back) = horizontal_resolution (config_ screen) →
  vertical_resolution (config_ back) = vertical_resolution (config_ screen) →
  pixel_format (config_ back) = pixel_format (config_ screen) →
  ∃ screen', Copy screen (rpos area) back area = Done (kSuccess, screen') ∧ fb_ok screen' ∧
    config_ screen' = config_ screen ∧
    ∀ p, on_screen screen p → fb_pixel screen' p =
      if inside p (rpos area) (rsize area) then fb_pixel back p else fb_pixel screen p.
Proof.
  intros Hs Hb HW HH Hf. destruct (Copy_pixel screen back (rpos area) area Hs Hb ltac:(congruence)) as (s' & E & Hok & Hc & Hp).
  exists s'. split_and!; [done..|]. intros p Hon. rewrite (Hp p Hon).
  assert (p -v rpos area +v rpos area = p) as -> by (destruct p; unfold vec_add, vec_sub; simpl; f_equal; lia).
  assert (inside p (mkVec 0 0) (FrameBufferSize (config_ back)) = true) as ->.
  { rewrite FrameBufferSize_eq, HW, HH by done. apply fb_on_screen in Hon; [|done]. unfold inside. simpl. bool_lia. }
  by rewrite andb_true_r.
Qed.

Lemma on_screen_back lm screen p : buffers_ok lm screen → on_screen screen p → on_screen (back_buffer_ lm) p.
Proof. intros [] Hon. apply fb_on_screen in Hon; [|done]. apply fb_on_screen; [done|]. by rewrite bo_width0, bo_height0. Qed.

Lemma Draw_all_spec ws lm screen Ls area : buffers_ok lm screen → resolved lm Ls →
  Forall (drawable ws (back_buffer_ lm)) Ls →
  ∃ screen' back', Draw_all ws lm area = Done (set_buffers lm (Some screen') back') ∧
    buffers_ok (set_buffers lm (Some screen') back') screen' ∧ config_ screen' = config_ screen ∧
    config_ back' = config_ (back_buffer_ lm) ∧
    ∀ p, on_screen screen p →
      fb_pixel back' p = default (fb_pixel (back_buffer_ lm) p) (shows ws Ls area p) ∧
      fb_pixel screen' p = if inside p (rpos area) (rsize area) then fb_pixel back' p else fb_pixel screen p.
Proof.
  intros Hbuf Hres Hd. destruct (draw_run _ ws area _ _ Hres (back_buffer_ lm) (bo_back _ _ Hbuf) Hd) as (back' & E & D).
  unfold Draw_all. rewrite E. cbn [mbind outcome_bind]. rewrite (bo_screen _ _ Hbuf). cbn [of_option mbind outcome_bind].
  pose proof Hbuf as [B1 B2 B3 B4 B5 B6]. pose proof D as [Hc _].
  destruct (Copy_same screen back' area) as (s' & Es & Hok & Hcs & Hp);
    [done|by eapply fb_drawn_ok|by rewrite Hc|by rewrite Hc|by rewrite Hc|].
  rewrite Es. cbn [mbind outcome_bind]. exists s', back'. split; [done|].
  split; [split; simpl; rewrite ?Hc, ?Hcs; by eauto using fb_drawn_ok|]. split; [done|]. split; [done|].
  intros p Hon. split; [|by apply Hp]. eapply fb_drawn_pixel; [done|by eapply on_screen_back].
Qed.
(** The area that [Draw(id, area)] redraws: the window's, cut to [area] in it. *)
Definition redraw_area (l : Layer) (w : Window) (area : Rectangle) : Rectangle :=
  let window_area := mkRect (pos_ l) (Size w) in
  if (0 <=? vx (rsize area)) || (0 <=? vy (rsize area))
  then rect_and window_area (mkRect (rpos area +v pos_ l) (rsize area))
  else window_area.

Lemma redraw_area_window l w area p :
  inside p (rpos (redraw_area l w area)) (rsize (redraw_area l w area)) = true → inside p (pos_ l) (Size w) = true.
Proof.
  unfold redraw_area. destruct (_ || _); [|done]. rewrite rect_and_inside. by intros [? _]%andb_true_iff.
Qed.

(** The layers below the one looked for are passed over. *)
Lemma draw_part_below ws lm id st Ls : Forall2 (λ p l, deref (layers_ lm) p = Done l) st Ls →
  Forall (λ l, id_ l ≠ id) Ls → ∀ area back,
  foldM (draw_part_step ws lm id) st (area, None, back) = Done (area, None, back).
Proof.
  induction 1 as [|p l st Ls Hp Hst IH]; intros Hid area back; [done|]. apply Forall_cons in Hid as [Hl Hid].
  cbn [foldM]. assert (draw_part_step ws lm id p (area, None, back) = Done (area, None, back)) as ->.
  { unfold draw_part_step. rewrite Hp. cbn [mbind outcome_bind]. by destruct (Z.eqb_spec (id_ l) id). }
  by apply IH.
Qed.

(** The layers above it are drawn in the area found. *)
Lemma draw_part_above ws lm id wa st Ls : Forall2 (λ p l, deref (layers_ lm) p = Done l) st Ls →
  Forall (λ l, id_ l ≠ id) Ls → ∀ area fb, fb_ok fb → Forall (drawable ws fb) Ls →
  ∃ fb', foldM (draw_part_step ws lm id) st (area, Some wa, fb) = Done (area, Some wa, fb') ∧
    fb_drawn (shows ws Ls wa) fb fb'.
Proof.
  intros Hst Hid area fb Hfb Hd. destruct (draw_run _ ws wa _ _ Hst fb Hfb Hd) as (fb' & E & D).
  exists fb'. split; [|done]. revert E Hid. clear Hd D Hfb. revert fb.
  induction Hst as [|p l st Ls Hp Hst IH]; intros fb E Hid; [by injection E as ->|].
  apply Forall_cons in Hid as [Hl Hid]. cbn [foldM] in *. rewrite Hp in E. cbn [mbind outcome_bind] in E.
  apply bind_Done_inv in E as (fb1 & E1 & E).
  assert (draw_part_step ws lm id p (area, Some wa, fb) = Done (area, Some wa, fb1)) as ->.
  { unfold draw_part_step. rewrite Hp. cbn [mbind outcome_bind]. destruct (Z.eqb_spec (id_ l) id); [done|].
    cbn [mbind outcome_bind mret outcome_ret]. by rewrite E1. }
  by apply IH.
Qed.

Lemma Draw_part_spec ws lm screen L1 l L2 w area : buffers_ok lm screen → resolved lm (L1 ++ l :: L2) →
  Forall (λ l', id_ l' ≠ id_ l) (L1 ++ L2) → window_of ws l = Done w →
  Forall (drawable ws (back_buffer_ lm)) (l :: L2) →
  let wa := redraw_area l w area in
  ∃ screen' back', Draw_part ws lm (id_ l) area = Done (set_buffers lm (Some screen') back') ∧
    buffers_ok (set_buffers lm (Some screen') back') screen' ∧ config_ screen' = config_ screen ∧
    config_ back' = config_ (back_buffer_ lm) ∧
    ∀ p, on_screen screen p →
      fb_pixel back' p = default (fb_pixel (back_buffer_ lm) p) (shows ws (l :: L2) wa p) ∧
      fb_pixel screen' p = if inside p (rpos wa) (rsize wa) then fb_pixel back' p else fb_pixel screen p.
Proof.
  intros Hbuf Hres Hid Hw Hd wa. apply Forall2_app_inv_r in Hres as (s1 & s2 & Hs1 & Hs2 & Hst).
  inversion Hs2 as [|p l0 s2' L2' Hp Hs3]; subst. apply Forall_app in Hid as [Hid1 Hid2].
  apply Forall_cons in Hd as [Hdl Hd2]. unfold Draw_part. rewrite Hst.
  assert (Happ : ∀ {A S} (f : A → S → outcome S) l1 l2 s, foldM f (l1 ++ l2) s = foldM f l1 s ≫= foldM f l2).
  { clear. intros A S f l1. induction l1 as [|x l1 IH]; intros l2 s; [done|]. simpl. destruct (f x s); simpl; auto. }
  rewrite Happ, (draw_part_below ws lm _ _ _ Hs1 Hid1). cbn [mbind outcome_bind foldM].
  pose proof Hbuf as [B1 B2 B3 B4 B5 B6].
  destruct (layer_DrawTo_drawn ws l (back_buffer_ lm) wa B3 Hdl) as (fb1 & E1 & D1).
  assert (Hstep : ∃ area', draw_part_step ws lm (id_ l) p (area, None, back_buffer_ lm) = Done (area', Some wa, fb1)).
  { unfold draw_part_step. rewrite Hp. cbn [mbind outcome_bind]. rewrite Z.eqb_refl, Hw. cbn [mbind outcome_bind].
    unfold wa, redraw_area in E1 |- *. destruct (_ || _); cbn [mbind outcome_bind mret outcome_ret]; rewrite E1; eexists; done. }
  destruct Hstep as (area' & ->). cbn [mbind outcome_bind].
  destruct (draw_part_above ws lm (id_ l) wa s2' L2 Hs3 Hid2 area' fb1) as (back' & E2 & D2); [by eapply fb_drawn_ok| |].
  { eapply Forall_impl; [done|]. intros l'. apply drawable_config, D1. }
  rewrite E2. cbn [mbind outcome_bind of_option]. rewrite B1. cbn [mbind outcome_bind of_option].
  pose proof (fb_drawn_more _ _ _ _ _ D1 D2) as D. pose proof D as [Hc _].
  destruct (Copy_same screen back' wa) as (s' & Es & Hok & Hcs & Hpx);
    [done|by eapply fb_drawn_ok|by rewrite Hc|by rewrite Hc|by rewrite Hc|].
  rewrite Es. cbn [mbind outcome_bind]. exists s', back'. split; [done|].
  split; [split; simpl; rewrite ?Hc, ?Hcs; by eauto using fb_drawn_ok|]. split; [done|]. split; [done|].
  intros q Hon. split; [|by apply Hpx]. etrans; [eapply fb_drawn_pixel; [done|by eapply on_screen_back]|].
  cbv beta. f_equal. change (l :: L2) with ([l] ++ L2). rewrite shows_app. unfold shows at 3, shows_over. simpl.
  by destruct (layer_view ws l wa q).
Qed.

(** What the layers show at [p] whatever is being redrawn. *)
Definition picture (ws : gmap Z Window) (Ls : list Layer) (p : Vector2D) : option PixelColor :=
  shows ws Ls (mkRect p (mkVec 1 1)) p.

Lemma inside_self p : inside p p (mkVec 1 1) = true.
Proof. unfold inside. simpl. bool_lia. Qed.

Lemma window_view_area w pos a b p : inside p (rpos a) (rsize a) = inside p (rpos b) (rsize b) →
  window_view w pos a p = window_view w pos b p.
Proof. intros H. unfold window_view. by rewrite H. Qed.

Lemma shows_ext ws ws' Ls a b p : Forall (λ l, layer_view ws l a p = layer_view ws' l b p) Ls →
  shows ws Ls a p = shows ws' Ls b p.
Proof.
  intros H. unfold shows, shows_over. generalize (@None PixelColor) as o. induction H as [|l Ls Hl HLs IH]; intros o; [done|].
  simpl. by rewrite Hl, IH.
Qed.

Lemma shows_nothing ws Ls a p : Forall (λ l, layer_view ws l a p = None) Ls → shows ws Ls a p = None.
Proof. induction 1 as [|l Ls Hl HLs IH]; [done|]. unfold shows, shows_over in *. simpl. by rewrite Hl. Qed.

Lemma picture_inside ws Ls a p : inside p (rpos a) (rsize a) = true → shows ws Ls a p = picture ws Ls p.
Proof.
  intros H. apply shows_ext. apply Forall_forall. intros l _. unfold layer_view.
  destruct (window_ l ≫= _); [|done]. apply window_view_area. by rewrite H, inside_self.
Qed.

(** Drawing the topmost layers again changes nothing. *)
Lemma picture_top ws Ls T c p :
  default (default c (picture ws (Ls ++ T) p)) (picture ws T p) = default c (picture ws (Ls ++ T) p).
Proof. unfold picture. rewrite shows_app. by destruct (shows ws T _ p). Qed.

(** The layer's window has no transparent colour; it has one. *)
Definition opaque (ws : gmap Z Window) (l : Layer) : Prop :=
  ∀ wp w, window_ l = Some wp → ws !! wp = Some w → transparent_color_ w = None.
Definition transparent (ws : gmap Z Window) (l : Layer) : Prop :=
  ∃ wp w, window_ l = Some wp ∧ ws !! wp = Some w ∧ transparent_color_ w ≠ None.

Lemma opaque_outside ws l a p : opaque ws l → inside p (rpos a) (rsize a) = false → layer_view ws l a p = None.
Proof.
  intros Ho Hp. unfold layer_view, window_view. destruct (window_ l) as [wp|] eqn:Hl; [simpl|done].
  destruct (ws !! wp) as [w|] eqn:Hw; [|done]. rewrite (Ho wp w Hl Hw), Hp.
  by destruct (inside p (pos_ l) (Size w)).
Qed.

Lemma transparent_any ws l a b p : transparent ws l → layer_view ws l a p = layer_view ws l b p.
Proof.
  intros (wp & w & Hl & Hw & Ht). unfold layer_view, window_view. rewrite Hl. simpl. rewrite Hw.
  by destruct (transparent_color_ w).
Qed.

Lemma layer_view_insert ws wp w l a p : window_ l ≠ Some wp → layer_view (<[wp := w]> ws) l a p = layer_view ws l a p.
Proof.
  intros Hl. unfold layer_view. destruct (window_ l) as [wp'|]; [|done]. simpl.
  by rewrite lookup_insert_ne by congruence.
Qed.
End LayerFacts.

Import DrawFacts FBFacts WindowFacts LayerFacts.

(** ** Properties *)

(** C12 Draw
    Redrawing one layer brings the whole picture up to date.  The back buffer and
    the screen show the layers over some background; the window of one opaque
    layer changes, at most within [area] of it; then [Draw] of that layer and
    area, which draws only it and the layers above it and only there, leaves both
    showing what all the layers now show over the same background.  Among the layers above
    it the transparent ones ([T]) must be on top of the opaque ones ([M]): [DrawTo]
    of a transparent window ignores the area. *)
Theorem Draw_part_refreshes (lm : LayerManager) (screen : FrameBuffer) (ws : gmap Z Window) (wp : Z) (w0 w : Window)
  (L1 : list Layer) (l : Layer) (M T : list Layer) (area : Rectangle) (bg : Vector2D → PixelColor)
  (Hbuf : buffers_ok lm screen) (Hres : resolved lm (L1 ++ l :: M ++ T))
  (Hid : Forall (λ l', id_ l' ≠ id_ l ∧ window_ l' ≠ Some wp) (L1 ++ M ++ T))
  (Hl : window_ l = Some wp) (Hw0 : ws !! wp = Some w0) (Hsize : Size w = Size w0)
  (Hopaque : transparent_color_ w0 = None ∧ transparent_color_ w = None)
  (Hd : Forall (drawable (<[wp := w]> ws) (back_buffer_ lm)) (l :: M ++ T))
  (HM : Forall (opaque ws) M) (HT : Forall (transparent ws) T)
  (Hchange : ∀ p, inside p (rpos (redraw_area l w area)) (rsize (redraw_area l w area)) = false →
     inside p (pos_ l) (Size w) = true → window_pixel w (p -v pos_ l) = window_pixel w0 (p -v pos_ l))
  (Hbefore : ∀ p, on_screen screen p →
     fb_pixel (back_buffer_ lm) p = default (bg p) (picture ws (L1 ++ l :: M ++ T) p) ∧
     fb_pixel screen p = fb_pixel (back_buffer_ lm) p) :
  ∃ lm' screen', Draw_part (<[wp := w]> ws) lm (id_ l) area = Done lm' ∧ buffers_ok lm' screen' ∧
    ∀ p, on_screen screen p →
      fb_pixel (back_buffer_ lm') p = default (bg p) (picture (<[wp := w]> ws) (L1 ++ l :: M ++ T) p) ∧
      fb_pixel screen' p = fb_pixel (back_buffer_ lm') p.
Proof.
  assert (Hid' : Forall (λ l', id_ l' ≠ id_ l) (L1 ++ M ++ T)) by (eapply Forall_impl; [exact Hid|]; naive_solver).
  assert (Hother : ∀ l', l' ∈ L1 ++ M ++ T → ∀ a b p, inside p (rpos a) (rsize a) = inside p (rpos b) (rsize b) →
    layer_view (<[wp := w]> ws) l' a p = layer_view ws l' b p).
  { intros l' Hl' a b p Hab. rewrite Forall_forall in Hid. destruct (Hid l' Hl') as [_ Hne].
    rewrite layer_view_insert by done. unfold layer_view. destruct (window_ l' ≫= _); [by apply window_view_area|done]. }
  destruct (Draw_part_spec (<[wp := w]> ws) lm screen L1 l (M ++ T) w area Hbuf Hres Hid') as (s' & b' & E & Hb' & Hcs & Hcb & Hp).
  { unfold window_of. by rewrite Hl, lookup_insert_eq. }
  { done. }
  set (wa := redraw_area l w area) in *. exists (set_buffers lm (Some s') b'), s'. split; [done|]. split; [done|].
  intros p Hon. destruct (Hp p Hon) as [Hbp Hsp]. destruct (Hbefore p Hon) as [Hb0 Hs0]. simpl. rewrite Hbp, Hsp.
  assert (Hview : ∀ a, layer_view (<[wp := w]> ws) l a p = window_view w (pos_ l) a p).
  { intros a. unfold layer_view. rewrite Hl. simpl. by rewrite lookup_insert_eq. }
  assert (Hview0 : ∀ a, layer_view ws l a p = window_view w0 (pos_ l) a p).
  { intros a. unfold layer_view. rewrite Hl. simpl. by rewrite Hw0. }
  destruct (inside p (rpos wa) (rsize wa)) eqn:Hin; rewrite ?Hbp.
  - split; [|done]. rewrite (picture_inside _ _ wa p Hin). unfold picture. rewrite shows_app.
    assert (Hsome : is_Some (shows (<[wp := w]> ws) (l :: M ++ T) (mkRect p (mkVec 1 1)) p)).
    { change (l :: M ++ T) with ([l] ++ (M ++ T)). rewrite shows_app. destruct (shows _ (M ++ T) _ p); [done|].
      unfold shows, shows_over. simpl. rewrite Hview. unfold window_view.
      rewrite (redraw_area_window l w area p Hin). destruct Hopaque as [_ ->]. cbn [rpos rsize]. by rewrite inside_self. }
    destruct Hsome as [c ->]. done.
  - assert (Hup : shows (<[wp := w]> ws) (l :: M ++ T) wa p = picture ws T p).
    { change (l :: M ++ T) with ([l] ++ (M ++ T)). rewrite !shows_app.
      rewrite (shows_nothing (<[wp := w]> ws) [l]), (shows_nothing (<[wp := w]> ws) M).
      - rewrite (shows_ext (<[wp := w]> ws) ws T wa (mkRect p (mkVec 1 1)) p).
        + fold (picture ws T p). by destruct (picture ws T p).
        + apply Forall_forall. intros l' Hl'. rewrite Forall_forall in Hid. rewrite Forall_forall in HT. destruct (Hid l') as [_ Hne]; [set_solver|].
          rewrite layer_view_insert by done. apply transparent_any. by apply HT.
      - apply Forall_forall. intros l' Hl'. rewrite Forall_forall in Hid, HM. destruct (Hid l') as [_ Hne]; [set_solver|].
        rewrite layer_view_insert by done. apply opaque_outside; [by apply HM|done].
      - apply Forall_cons. split; [|done]. rewrite Hview. unfold window_view. destruct Hopaque as [_ ->]. rewrite Hin.
        by destruct (inside p (pos_ l) (Size w)). }
    assert (Hsame : picture (<[wp := w]> ws) (L1 ++ l :: M ++ T) p = picture ws (L1 ++ l :: M ++ T) p).
    { apply shows_ext. apply Forall_forall. intros l' Hl'. destruct (decide (l' ∈ L1 ++ M ++ T)) as [Hin'|Hnin]; [by apply Hother|].
      assert (l' = l) as -> by set_solver. rewrite Hview, Hview0. unfold window_view. destruct Hopaque as [-> ->].
      rewrite <- Hsize. destruct (inside p (pos_ l) (Size w)) eqn:Hpw; [|done]. by rewrite (Hchange p Hin Hpw). }
    assert (Hdef : default (fb_pixel (back_buffer_ lm) p) (picture ws T p) = fb_pixel (back_buffer_ lm) p).
    { rewrite Hb0. change (l :: M ++ T) with ([l] ++ M ++ T). rewrite !app_assoc. apply picture_top. }
    rewrite Hup, Hdef, Hsame, <- Hb0. by split.
Qed.

(** A window of 2 by 2 pixels whose top left pixel has red [r], on a screen of
    the same size. *)
Definition small_fb (r : Z) : FrameBuffer :=
  let b := mkBuffer (<[0 := r]> ∅) 16 in mkFB (mkConfig (Some b) 2 2 2 kPixelRGBResv8BitPerColor) b.

Definition small_window (r : Z) : Window :=
  mkWindow 2 2 [[mkColor r 0 0; mkColor 0 0 0]; [mkColor 0 0 0; mkColor 0 0 0]] None (small_fb r) PlainWindow.

Lemma small_fb_ok r : fb_ok (small_fb r).
Proof. split; simpl; lia. Qed.

Lemma small_window_ok r : window_ok (small_window r).
Proof.
  split; [apply small_fb_ok|done..|]. intros [x y] Hx Hy. simpl in Hx, Hy.
  assert (x = 0 ∨ x = 1) as [-> | ->] by lia; assert (y = 0 ∨ y = 1) as [-> | ->] by lia; reflexivity.
Qed.

Definition small_lm : LayerManager :=
  mkLM (Some (small_fb 7)) (small_fb 7)
    [(100, mkLayer 1 (mkVec 0 0) (Some 10) false); (200, mkLayer 2 (mkVec 0 0) (Some 20) true)]
    [Some 100; Some 200] 2.

Lemma small_buffers : buffers_ok small_lm (small_fb 7).
Proof. split; try done; apply small_fb_ok. Qed.

Definition small_windows : gmap Z Window := {[10 := small_window 5; 20 := small_window 7]}.

Lemma Draw_part_refreshes_witness :
  ∃ lm' screen', Draw_part (<[20 := small_window 9]> small_windows) small_lm 2 (mkRect (mkVec 0 0) (mkVec 1 1)) = Done lm' ∧
    screen_ lm' = Some screen' ∧ fb_pixel screen' (mkVec 0 0) = mkColor 9 0 0.
Proof.
  assert (Hpx : ∀ r p, window_pixel (small_window r) p = fb_pixel (small_fb r) p) by done.
  destruct (Draw_part_refreshes small_lm (small_fb 7) small_windows 20 (small_window 7) (small_window 9)
    [mkLayer 1 (mkVec 0 0) (Some 10) false] (mkLayer 2 (mkVec 0 0) (Some 20) true) [] []
    (mkRect (mkVec 0 0) (mkVec 1 1)) (λ _, mkColor 0 0 0) small_buffers) as (lm' & s' & E & Hb & Hp).
  - apply Forall2_cons. split; [reflexivity|]. apply Forall2_cons. split; [reflexivity|]. apply Forall2_nil. exact I.
  - apply Forall_cons. split; [split; [discriminate|intros H; discriminate]|]. apply Forall_nil. exact I.
  - reflexivity.
  - reflexivity.
  - reflexivity.
  - split; reflexivity.
  - apply Forall_cons. split; [|apply Forall_nil; exact I]. intros wp [= <-]. exists (small_window 9).
    split; [reflexivity|]. split; [apply small_window_ok|reflexivity].
  - apply Forall_nil. exact I.
  - apply Forall_nil. exact I.
  - intros [x y] Hout Hin. unfold inside in Hout, Hin. simpl in Hout, Hin.
    rewrite !andb_true_iff, !Z.leb_le, !Z.ltb_lt in Hin.
    assert (x = 0 ∨ x = 1) as [-> | ->] by lia; assert (y = 0 ∨ y = 1) as [-> | ->] by lia; try discriminate Hout;
      reflexivity.
  - intros [x y] Hon. apply (proj1 (fb_on_screen _ _ (small_fb_ok 7))) in Hon. simpl in Hon. split; [|reflexivity].
    assert (x = 0 ∨ x = 1) as [-> | ->] by lia; assert (y = 0 ∨ y = 1) as [-> | ->] by lia;
      vm_compute; reflexivity.
  - exists lm', s'. split; [exact E|]. split; [apply Hb|].
    destruct (Hp (mkVec 0 0)) as [H1 H2]; [apply (proj2 (fb_on_screen _ _ (small_fb_ok 7))); simpl; lia|].
    etransitivity; [exact H2|]. etransitivity; [exact H1|]. vm_compute. reflexivity.
Defined.

(** ** The order of the layers *)
Module StackFacts.

(** The manager owns its layers, one per address and id, and the stack holds
    pointers to some of them, each once. *)
Record lm_ok (lm : LayerManager) : Prop := {
  lo_addresses : NoDup (fst <$> layers_ lm);
  lo_ids : NoDup ((λ al, id_ al.2) <$> layers_ lm);
  lo_range : Forall (λ al, 1 ≤ id_ al.2 ≤ latest_id_ lm) (layers_ lm);
  lo_stack : NoDup (layer_stack_ lm);
  lo_valid : Forall (λ p, ∃ a, p = Some a ∧ a ∈ fst <$> layers_ lm) (layer_stack_ lm);
}.

Lemma layer_at_elem ls a l : NoDup (fst <$> ls) → layer_at ls a = Some l ↔ (a, l) ∈ ls.
Proof.
  induction ls as [|[b k] ls IH]; simpl; intros Hnd; [set_solver|]. apply NoDup_cons in Hnd as [Hb Hnd].
  destruct (Z.eqb_spec b a) as [->|Hne].
  - split; [intros [= ->]; set_solver|]. intros [[= ->]|Hin]%elem_of_cons; [done|].
    exfalso. apply Hb. by apply (list_elem_of_fmap_2 fst) in Hin.
  - rewrite IH by done. set_solver.
Qed.

Lemma FindLayer_elem lm id a : NoDup ((λ al, id_ al.2) <$> layers_ lm) →
  FindLayer lm id = Some a ↔ ∃ l, (a, l) ∈ layers_ lm ∧ id_ l = id.
Proof.
  unfold FindLayer. induction (layers_ lm) as [|[b k] ls IH]; simpl; intros Hnd; [set_solver|].
  apply NoDup_cons in Hnd as [Hb Hnd]. destruct (Z.eqb_spec (id_ k) id) as [Hk|Hne]; simpl.
  - split.
    + intros [= ->]. exists k. set_solver.
    + intros (l & Hin & Hl). apply elem_of_cons in Hin as [[= -> ->]|Hin]; [done|].
      exfalso. apply Hb. rewrite Hk, <- Hl. by apply (list_elem_of_fmap_2 (λ al, id_ al.2)) in Hin.
  - rewrite IH by done. split; intros (l & Hin & Hl); exists l; set_solver.
Qed.

Lemma find_entry_None st p : find_entry st p = None ↔ p ∉ st.
Proof.
  induction st as [|q st IH]; simpl; [set_solver|]. case_bool_decide as Hq; [subst; set_solver|].
  destruct (find_entry st p); simpl; [|set_solver]. split; [done|]. intros Hn. exfalso.
  destruct IH as [_ IH]. assert (p ∉ st) by set_solver. by discriminate IH.
Qed.

Lemma find_entry_Some st p i : NoDup st → find_entry st p = Some i →
  st !! i = Some p ∧ delete i st = filter (λ q, q ≠ p) st.
Proof.
  revert i. induction st as [|q st IH]; simpl; [done|]. intros i [Hq Hnd]%NoDup_cons.
  case_bool_decide as Hqp.
  - intros [= <-]. subst. split; [done|]. simpl. rewrite filter_cons_False by (intros H; by apply H).
    symmetry. apply list_filter_all. intros x Hx ->. done.
  - destruct (find_entry st p) as [j|]; simpl; [|done]. intros [= <-]. destruct (IH j Hnd eq_refl) as [H1 H2].
    split; [done|]. simpl. rewrite filter_cons_True by done. by rewrite H2.
Qed.

(** Where [UpDown] and [Hide] leave the stack. *)
Lemma Hide_stack lm id a : lm_ok lm → FindLayer lm id = Some a →
  Hide lm id = set_stack lm (filter (λ q, q ≠ Some a) (layer_stack_ lm)).
Proof.
  intros Hok Ha. unfold Hide. rewrite Ha. destruct (find_entry (layer_stack_ lm) (Some a)) as [i|] eqn:Hi.
  - apply find_entry_Some in Hi as [_ ->]; [done|]. apply Hok.
  - apply find_entry_None in Hi. rewrite list_filter_all; [by destruct lm|]. intros x Hx ->. done.
Qed.

Lemma UpDown_stack lm id a h : lm_ok lm → FindLayer lm id = Some a → 0 ≤ h →
  let others := filter (λ q, q ≠ Some a) (layer_stack_ lm) in
  UpDown lm id h = set_stack lm (insert_at (Z.to_nat h `min` length others) (Some a) others).
Proof.
  intros Hok Ha Hh others. unfold UpDown. destruct (Z.ltb_spec h 0); [lia|]. rewrite Ha.
  destruct (find_entry (layer_stack_ lm) (Some a)) as [i|] eqn:Hi.
  - apply find_entry_Some in Hi as [Hi Hd]; [|apply Hok]. fold others in Hd. rewrite Hd.
    apply lookup_lt_Some in Hi as Hlt.
    assert (Hlen : length others = (length (layer_stack_ lm) - 1)%nat) by (rewrite <- Hd; by apply length_delete).
    rewrite Hlen. f_equal. f_equal.
    destruct (Nat.eqb_spec (Z.to_nat (h `min` Z.of_nat (length (layer_stack_ lm)))) (length (layer_stack_ lm))); lia.
  - apply find_entry_None in Hi. assert (others = layer_stack_ lm) as ->.
    { apply list_filter_all. intros x Hx ->. done. }
    f_equal. f_equal. lia.
Qed.

Lemma elem_of_insert_at {A} n (x : A) l y : y ∈ insert_at n x l ↔ y = x ∨ y ∈ l.
Proof.
  unfold insert_at. rewrite <- (take_drop n l) at 3. rewrite !elem_of_app, elem_of_cons. tauto.
Qed.

Lemma NoDup_insert_at {A} n (x : A) l : x ∉ l → NoDup l → NoDup (insert_at n x l).
Proof.
  intros Hx Hl. unfold insert_at. rewrite <- (take_drop n l) in Hx, Hl. rewrite NoDup_app in Hl |- *.
  destruct Hl as (H1 & H2 & H3). rewrite not_elem_of_app in Hx. split; [done|]. split.
  - intros y Hy. rewrite not_elem_of_cons. split; [intros ->; tauto|by apply H2].
  - apply NoDup_cons. split; [apply Hx|done].
Qed.

Lemma filter_insert_at (P : option Z → Prop) `{∀ q, Decision (P q)} n x l : ¬ P x →
  filter P (insert_at n x l) = filter P l.
Proof.
  intros Hx. unfold insert_at. rewrite filter_app, filter_cons_False by done. by rewrite <- filter_app, take_drop.
Qed.

(** The operations keep the manager well formed. *)
Lemma set_stack_ok lm st : lm_ok lm → NoDup st → (∀ p, p ∈ st → ∃ a, p = Some a ∧ a ∈ fst <$> layers_ lm) →
  lm_ok (set_stack lm st).
Proof. intros [] Hnd Hv. split; try done. by apply Forall_forall. Qed.

Lemma Hide_ok lm id : lm_ok lm → lm_ok (Hide lm id).
Proof.
  intros Hok. unfold Hide. destruct (find_entry _ _) as [i|] eqn:Hi; [|done].
  apply find_entry_Some in Hi as [_ ->]; [|apply Hok]. apply set_stack_ok; [done|apply NoDup_filter, Hok|].
  intros p Hp. apply list_elem_of_filter in Hp as [_ Hp]. pose proof (lo_valid _ Hok) as Hv. rewrite Forall_forall in Hv. auto.
Qed.

Lemma UpDown_ok lm id a h : lm_ok lm → FindLayer lm id = Some a → lm_ok (UpDown lm id h).
Proof.
  intros Hok Ha. destruct (decide (h < 0)) as [Hh|Hh].
  - unfold UpDown. destruct (Z.ltb_spec h 0); [|lia]. by apply Hide_ok.
  - rewrite (UpDown_stack lm id a h Hok Ha) by lia. apply set_stack_ok; [done| |].
    + apply NoDup_insert_at; [|apply NoDup_filter, Hok]. intros [Hne _]%list_elem_of_filter. done.
    + intros p [->|Hp]%elem_of_insert_at.
      * exists a. split; [done|]. apply FindLayer_elem in Ha as (l & Hl & _); [|apply Hok].
        by apply (list_elem_of_fmap_2 fst) in Hl.
      * apply list_elem_of_filter in Hp as [_ Hp]. pose proof (lo_valid _ Hok) as Hv. rewrite Forall_forall in Hv. auto.
Qed.

Lemma NewLayer_ok lm a : lm_ok lm → 0 ≤ latest_id_ lm < 2 ^ 32 - 1 → a ∉ fst <$> layers_ lm →
  lm_ok (NewLayer lm a).2 ∧ FindLayer (NewLayer lm a).2 (latest_id_ lm + 1) = Some a.
Proof.
  intros [H1 H2 H3 H4 H5] Hid Ha. unfold NewLayer. simpl. rewrite wrap_small by lia.
  assert (Hfresh : (latest_id_ lm + 1) ∉ (λ al, id_ al.2) <$> layers_ lm).
  { intros ([b l] & Heq & Hin)%list_elem_of_fmap. simpl in Heq. rewrite Forall_forall in H3. specialize (H3 _ Hin). simpl in H3. lia. }
  assert (Hok : lm_ok (mkLM (screen_ lm) (back_buffer_ lm) (layers_ lm ++ [(a, new_Layer (latest_id_ lm + 1))])
    (layer_stack_ lm) (latest_id_ lm + 1))).
  { split; simpl.
    - rewrite fmap_app. apply NoDup_app. split_and!; [done|set_solver|apply NoDup_singleton].
    - rewrite fmap_app. apply NoDup_app. split_and!; [done|set_solver|apply NoDup_singleton].
    - apply Forall_app. split; [eapply Forall_impl; [done|]; simpl; lia|]. apply Forall_singleton. simpl. lia.
    - done.
    - eapply Forall_impl; [done|]. intros p (b & -> & Hb). exists b. split; [done|]. rewrite fmap_app. set_solver. }
  split; [done|]. apply FindLayer_elem; [apply Hok|]. exists (new_Layer (latest_id_ lm + 1)). split; [|done]. simpl. set_solver.
Qed.

Lemma RemoveLayer_ok lm id : lm_ok lm → lm_ok (RemoveLayer lm id) ∧ FindLayer (RemoveLayer lm id) id = None.
Proof.
  intros Hok. pose proof (Hide_ok lm id Hok) as Hok'. unfold RemoveLayer.
  assert (Hlayers : layers_ (Hide lm id) = layers_ lm) by (unfold Hide; by destruct (find_entry _ _)).
  assert (Hlatest : latest_id_ (Hide lm id) = latest_id_ lm) by (unfold Hide; by destruct (find_entry _ _)).
  destruct Hok' as [H1 H2 H3 H4 H5]. rewrite Hlayers in *. set (keep := filter (λ al : Z * Layer, id_ al.2 ≠ id) (layers_ lm)).
  assert (Hsub : sublist keep (layers_ lm)) by apply sublist_filter.
  assert (Hnone : FindLayer (set_layers (Hide lm id) keep) id = None).
  { destruct (FindLayer _ id) as [a|] eqn:E; [|done]. apply FindLayer_elem in E as (l & Hl & Hi).
    - simpl in Hl. apply list_elem_of_filter in Hl as [Hl _]. done.
    - simpl. eapply sublist_NoDup; [exact H2|]. by apply fmap_sublist. }
  split; [|done]. split; simpl; rewrite ?Hlatest in *.
  - eapply sublist_NoDup; [exact H1|]. by apply fmap_sublist.
  - eapply sublist_NoDup; [exact H2|]. by apply fmap_sublist.
  - apply Forall_forall. intros x [_ Hx]%list_elem_of_filter. rewrite Forall_forall in H3. auto.
  - done.
  - apply Forall_forall. intros p Hp. rewrite Forall_forall in H5. destruct (H5 p Hp) as (a & -> & Ha). exists a. split; [done|].
    apply list_elem_of_fmap in Ha as ([b l] & -> & Hl). apply list_elem_of_fmap. exists (b, l). split; [done|].
    apply list_elem_of_filter. split; [|done]. simpl. intros Hi.
    assert (Hf : FindLayer lm id = Some b) by (apply FindLayer_elem; [done|eauto]).
    rewrite (Hide_stack lm id b Hok Hf) in Hp. simpl in Hp. by apply list_elem_of_filter in Hp as [Hne _].
Qed.
End StackFacts.

(** ** Desktops *)
Module DesktopFacts.
Import StackFacts QueueFacts RunFacts.

Lemma entry_layer lm p : lm_ok lm → p ∈ layer_stack_ lm → ∃ a l, p = Some a ∧ layer_at (layers_ lm) a = Some l.
Proof.
  intros Hok Hp. pose proof (lo_valid _ Hok) as Hv. rewrite Forall_forall in Hv. destruct (Hv p Hp) as (a & -> & Ha).
  apply list_elem_of_fmap in Ha as ([b l] & -> & Hl). exists b, l. split; [done|]. by apply layer_at_elem; [apply Hok|].
Qed.

Lemma same_id lm a b l k : lm_ok lm → layer_at (layers_ lm) a = Some l → layer_at (layers_ lm) b = Some k →
  id_ l = id_ k → a = b.
Proof.
  intros Hok Ha Hb Hid. apply layer_at_elem in Ha, Hb; [|apply Hok..].
  assert (F1 : FindLayer lm (id_ k) = Some a) by (apply FindLayer_elem; [apply Hok|eauto]).
  assert (F2 : FindLayer lm (id_ k) = Some b) by (apply FindLayer_elem; [apply Hok|eauto]). congruence.
Qed.

Lemma FindLayer_layer lm id a : lm_ok lm → FindLayer lm id = Some a ↔ ∃ l, layer_at (layers_ lm) a = Some l ∧ id_ l = id.
Proof.
  intros Hok. rewrite FindLayer_elem by apply Hok. split; intros (l & H1 & H2); exists l; (split; [|done]);
    by apply layer_at_elem; [apply Hok|].
Qed.

Lemma height_from_found ls st id k : ∀ h, (∀ p, p ∈ take k st → ∃ l, deref ls p = Done l ∧ id_ l ≠ id) →
  (∃ p l, st !! k = Some p ∧ deref ls p = Done l ∧ id_ l = id) →
  height_from ls st id h = Done (h + Z.of_nat k).
Proof.
  revert st. induction k as [|k IH]; intros st h Hbelow (p & l & Hk & Hp & Hl); destruct st as [|q st]; try done; simpl.
  - injection Hk as ->. rewrite Hp. simpl. rewrite Hl, Z.eqb_refl. unfold mret, outcome_ret. f_equal. lia.
  - destruct (Hbelow q) as (lq & Hq & Hne); [simpl; set_solver|]. rewrite Hq. simpl.
    destruct (Z.eqb_spec (id_ lq) id); [done|]. rewrite IH; [f_equal; lia| |eauto].
    intros r Hr. apply Hbelow. simpl. set_solver.
Qed.

Lemma height_from_absent ls st id : ∀ h, (∀ p, p ∈ st → ∃ l, deref ls p = Done l ∧ id_ l ≠ id) →
  height_from ls st id h = Done (-1).
Proof.
  induction st as [|q st IH]; intros h Hall; [done|]. simpl. destruct (Hall q) as (l & Hq & Hne); [set_solver|].
  rewrite Hq. simpl. destruct (Z.eqb_spec (id_ l) id); [done|]. apply IH. intros p Hp. apply Hall. set_solver.
Qed.

Lemma GetHeight_at lm id a k : lm_ok lm → FindLayer lm id = Some a → layer_stack_ lm !! k = Some (Some a) →
  GetHeight lm id = Done (Z.of_nat k).
Proof.
  intros Hok Ha Hk. apply FindLayer_layer in Ha as (l & Hl & Hid); [|done]. unfold GetHeight.
  rewrite (height_from_found _ _ _ k); [done| |].
  - intros p Hp. apply list_elem_of_lookup in Hp as (j & Hj). apply lookup_take_Some in Hj as [Hj Hjk].
    destruct (entry_layer lm p Hok) as (b & lb & -> & Hb); [by eapply list_elem_of_lookup_2|]. exists lb. unfold deref. simpl.
    rewrite Hb. split; [done|]. intros Heq. assert (b = a) as -> by (eapply same_id; [done..|]; congruence).
    assert (j = k) by (eapply NoDup_lookup; [apply (lo_stack _ Hok)|done..]). lia.
  - exists (Some a), l. unfold deref. simpl. by rewrite Hl.
Qed.

Lemma GetHeight_absent lm id : lm_ok lm → (∀ a, FindLayer lm id = Some a → Some a ∉ layer_stack_ lm) →
  GetHeight lm id = Done (-1).
Proof.
  intros Hok Hno. apply height_from_absent. intros p Hp. destruct (entry_layer lm p Hok Hp) as (a & l & -> & Hl).
  exists l. unfold deref. simpl. rewrite Hl. split; [done|]. intros Hid. apply (Hno a); [|done]. apply FindLayer_layer; eauto.
Qed.

(** The stack resolved around one of its layers. *)
Lemma resolve_at lm a l : lm_ok lm → Some a ∈ layer_stack_ lm → layer_at (layers_ lm) a = Some l →
  ∃ L1 L2, resolved lm (L1 ++ l :: L2) ∧ Forall (λ l', id_ l' ≠ id_ l) (L1 ++ L2) ∧
    Forall (λ l', ∃ b, (b, l') ∈ layers_ lm) (L1 ++ l :: L2).
Proof.
  intros Hok Ha Hl.
  assert (Hrun : ∀ st, (∀ p, p ∈ st → p ∈ layer_stack_ lm) → Some a ∉ st →
    ∃ Ls, Forall2 (λ p l, deref (layers_ lm) p = Done l) st Ls ∧ Forall (λ l', id_ l' ≠ id_ l) Ls ∧
      Forall (λ l', ∃ b, (b, l') ∈ layers_ lm) Ls).
  { induction st as [|p st IH]; intros Hin Hno; [by exists []|].
    destruct IH as (Ls & H1 & H2 & H3); [set_solver|set_solver|].
    destruct (entry_layer lm p Hok) as (b & k & -> & Hb); [set_solver|]. exists (k :: Ls). split_and!.
    - apply Forall2_cons. split; [|done]. unfold deref. simpl. by rewrite Hb.
    - apply Forall_cons. split; [|done]. intros Hid. apply Hno.
      assert (b = a) as -> by (eapply same_id; done). set_solver.
    - apply Forall_cons. split; [|done]. exists b. by apply layer_at_elem in Hb; [|apply Hok]. }
  apply list_elem_of_split in Ha as (s1 & s2 & Hst). pose proof (lo_stack _ Hok) as Hnd. rewrite Hst in Hnd.
  apply NoDup_app in Hnd as (_ & Hd & [Hno _]%NoDup_cons).
  destruct (Hrun s1) as (L1 & A1 & A2 & A3); [rewrite Hst; set_solver|intros Hs; specialize (Hd _ Hs); set_solver|].
  destruct (Hrun s2) as (L2 & B1 & B2 & B3); [rewrite Hst; set_solver|done|].
  exists L1, L2. split_and!.
  - unfold resolved. rewrite Hst. apply Forall2_app; [done|]. apply Forall2_cons. split; [|done]. unfold deref. simpl. by rewrite Hl.
  - by apply Forall_app.
  - apply Forall_app. split; [done|]. apply Forall_cons. split; [|done]. exists a. by apply layer_at_elem in Hl; [|apply Hok].
Qed.

Section good.
Context `{FontLib}.
(** The windows whose titles can be drawn. *)
Variable good : Window → Prop.

Record keeps_good (f : Window → outcome Window) : Prop := {
  kg_done w : good w → ∃ w', f w = Done w' ∧ good w' ∧
    pixel_format (config_ (shadow_buffer_ w')) = pixel_format (config_ (shadow_buffer_ w));
}.

Record desktop_ok (idle : Z) (d : Desktop) : Prop := {
  dk_lm : lm_ok (layer_manager d);
  dk_buffers : ∃ screen, buffers_ok (layer_manager d) screen;
  dk_windows : Forall (λ al, ∃ wp w, window_ al.2 = Some wp ∧ windows d !! wp = Some w ∧ good w ∧
    pixel_format (config_ (shadow_buffer_ w)) = pixel_format (config_ (back_buffer_ (layer_manager d))))
    (layers_ (layer_manager d));
  dk_tasks : tm_wf idle (task_manager d);
}.

(** The same layers in the same order. *)
Record same_layers (lm lm' : LayerManager) : Prop := {
  sl_layers : layers_ lm' = layers_ lm;
  sl_stack : layer_stack_ lm' = layer_stack_ lm;
  sl_latest : latest_id_ lm' = latest_id_ lm;
}.

Hypothesis good_ok : ∀ w, good w → window_ok w.
#[local] Set Default Proof Using "All".

Lemma draw_layer_ok idle d id a : desktop_ok idle d → FindLayer (layer_manager d) id = Some a →
  Some a ∈ layer_stack_ (layer_manager d) →
  ∃ lm', draw_layer d id = Done (set_lm d lm') ∧ desktop_ok idle (set_lm d lm') ∧ same_layers (layer_manager d) lm'.
Proof.
  intros [Hlm (screen & Hbuf) Hwin Htm] Ha Hst. apply FindLayer_layer in Ha as (l & Hl & <-); [|done].
  destruct (resolve_at _ a l Hlm Hst Hl) as (L1 & L2 & Hres & Hid & Hin).
  rewrite Forall_forall in Hwin. rewrite Forall_forall in Hin.
  assert (Hd : Forall (drawable (windows d) (back_buffer_ (layer_manager d))) (l :: L2)).
  { apply Forall_forall. intros l' Hl' wp Hwp. destruct (Hin l') as (b & Hb); [set_solver|].
    destruct (Hwin _ Hb) as (wp' & w & Hw1 & Hw2 & Hg & Hf). simpl in Hw1. exists w.
    assert (wp' = wp) as -> by congruence. split_and!; [done|by apply good_ok|done]. }
  destruct (Hin l) as (b & Hb); [set_solver|]. destruct (Hwin _ Hb) as (wp & w & Hw1 & Hw2 & _). simpl in Hw1.
  destruct (Draw_part_spec (windows d) (layer_manager d) screen L1 l L2 w (mkRect (mkVec 0 0) (mkVec (-1) (-1))) Hbuf Hres Hid)
    as (s' & b' & E & Hbuf' & _ & Hc & _); [unfold window_of; by rewrite Hw1, Hw2|done|].
  unfold draw_layer, Draw_layer. rewrite E. cbn [mbind outcome_bind].
  eexists. split; [reflexivity|]. split; [|done]. split; simpl; [by destruct Hlm|by eexists| |done].
  apply Forall_forall. rewrite Hc. auto.
Qed.

Lemma with_window_ok idle d id a f : desktop_ok idle d → FindLayer (layer_manager d) id = Some a → keeps_good f →
  ∃ ws', with_window d id f = Done (set_windows d ws') ∧ desktop_ok idle (set_windows d ws').
Proof.
  intros [Hlm Hbuf Hwin Htm] Ha [Hf]. pose proof Ha as (l & Hl & Hid)%FindLayer_layer; [|done].
  rewrite Forall_forall in Hwin. destruct (Hwin (a, l)) as (wp & w & Hw1 & Hw2 & Hg & Hfm); [by apply layer_at_elem; [apply Hlm|]|].
  simpl in Hw1. destruct (Hf w Hg) as (w' & E & Hg' & Hfm'). unfold with_window. rewrite Ha. cbn [of_option mbind outcome_bind].
  rewrite Hl. cbn [of_option mbind outcome_bind]. rewrite Hw1. cbn [of_option mbind outcome_bind].
  rewrite Hw2. cbn [of_option mbind outcome_bind]. rewrite E. cbn [mbind outcome_bind]. eexists. split; [reflexivity|].
  split; [done|done| |done]. apply Forall_forall. intros al Hal. destruct (Hwin _ Hal) as (wp' & w1 & H1 & H2 & H3 & H4).
  simpl. exists wp'. destruct (decide (wp' = wp)) as [->|].
  - exists w'. rewrite lookup_insert_eq. split_and!; [done..|]. congruence.
  - exists w1. by rewrite lookup_insert_ne.
Qed.

Lemma SendWindowActive_ok idle d id v : desktop_ok idle d →
  ∃ err tm', SendWindowActiveMessage d id v = Done (err, set_tm d tm') ∧ desktop_ok idle (set_tm d tm').
Proof.
  intros Hok. unfold SendWindowActiveMessage. assert (Hself : set_tm d (task_manager d) = d) by by destruct d.
  destruct (layer_task_map d !! id) as [t|].
  - unfold SendMessage. destruct (tasks_ (task_manager d) !! t) as [x|] eqn:Hx.
    + destruct (task_SendMessage_spec idle (task_manager d) t x (mkMessage 0 (kWindowActive v)) (dk_tasks _ _ Hok) Hx)
        as (tm' & E & Hwf & _).
      rewrite E. cbn [mbind outcome_bind]. eexists _, tm'. split; [reflexivity|]. destruct Hok. by split.
    + exists kNoSuchTask, (task_manager d). cbn [mbind outcome_bind mret outcome_ret]. by rewrite !Hself.
  - exists kNoSuchTask, (task_manager d). by rewrite !Hself.
Qed.

Lemma lm_change_ok idle d lm' : desktop_ok idle d → lm_ok lm' → layers_ lm' = layers_ (layer_manager d) →
  screen_ lm' = screen_ (layer_manager d) → back_buffer_ lm' = back_buffer_ (layer_manager d) →
  desktop_ok idle (set_lm d lm').
Proof.
  intros [Hlm (screen & []) Hwin Htm] Hok Hl Hs Hb. split; simpl; [done| |by rewrite Hl, Hb|done].
  exists screen. split; by rewrite ?Hs, ?Hb.
Qed.

(** [Activate] up to the second [UpDown]: everything that comes before the new
    layer is put in its place. *)
Lemma Activate_front idle d id a : desktop_ok idle d → keeps_good window_Activate → keeps_good window_Deactivate →
  0 < id → active_layer_ (active_layer d) ≠ id → FindLayer (layer_manager d) id = Some a →
  (0 < active_layer_ (active_layer d) →
   ∃ b, FindLayer (layer_manager d) (active_layer_ (active_layer d)) = Some b ∧ Some b ∈ layer_stack_ (layer_manager d)) →
  ∃ d1, desktop_ok idle d1 ∧ same_layers (layer_manager d) (layer_manager d1) ∧
    active_layer d1 = mkActive id (mouse_layer_ (active_layer d)) ∧
    Activate d id =
      (let lm1 := UpDown (layer_manager d1) id 0 in
       h ← GetHeight lm1 (mouse_layer_ (active_layer d));
       d2 ← draw_layer (set_lm d1 (UpDown lm1 id (h - 1))) id;
       '(_, d3) ← SendWindowActiveMessage d2 id 1; mret d3).
Proof.
  intros Hok Hga Hgd Hid Hne Ha Hact. unfold Activate. destruct (Z.eqb_spec (active_layer_ (active_layer d)) id); [done|].
  assert (Hoff : ∃ d0, desktop_ok idle d0 ∧ same_layers (layer_manager d) (layer_manager d0) ∧ active_layer d0 = active_layer d ∧
    (if 0 <? active_layer_ (active_layer d) then
       d1 ← with_window d (active_layer_ (active_layer d)) window_Deactivate;
       d1 ← draw_layer d1 (active_layer_ (active_layer d));
       '(_, d1) ← SendWindowActiveMessage d1 (active_layer_ (active_layer d)) 0; mret d1
     else mret d) = Done d0).
  { destruct (Z.ltb_spec 0 (active_layer_ (active_layer d))) as [Hpos|]; [|by exists d].
    destruct (Hact Hpos) as (b & Hb & Hbs).
    destruct (with_window_ok idle d _ b _ Hok Hb Hgd) as (ws & -> & Hok1). cbn [mbind outcome_bind].
    destruct (draw_layer_ok idle _ _ b Hok1 Hb Hbs) as (lm & -> & Hok2 & Hsl). cbn [mbind outcome_bind].
    destruct (SendWindowActive_ok idle _ (active_layer_ (active_layer d)) 0 Hok2) as (err & tm & -> & Hok3).
    cbn [mbind outcome_bind]. eexists. split_and!; [exact Hok3|exact Hsl|done|reflexivity]. }
  destruct Hoff as (d0 & Hok0 & [S1 S2 S3] & Hact0 & E). rewrite E. cbn [mbind outcome_bind].
  destruct (Z.ltb_spec 0 id); [|lia].
  assert (Hok0' : desktop_ok idle (set_active d0 (mkActive id (mouse_layer_ (active_layer d0))))) by (destruct Hok0; by split).
  assert (Ha0 : FindLayer (layer_manager (set_active d0 (mkActive id (mouse_layer_ (active_layer d0))))) id = Some a).
  { unfold FindLayer in *. simpl. by rewrite S1. }
  destruct (with_window_ok idle _ id a _ Hok0' Ha0 Hga) as (ws & -> & Hok1). cbn [mbind outcome_bind].
  eexists. split; [exact Hok1|]. simpl. rewrite Hact0. split; [done|]. split; [done|]. reflexivity.
Qed.
End good.
End DesktopFacts.

Import StackFacts DesktopFacts QueueFacts.

(** C30 Activate
    Activating a window raises it right below the mouse cursor.  On a well-formed
    desktop whose windows can be drawn, [Activate] of a layer other than the
    mouse's returns; the layer is then the active one and the entry directly
    under the mouse layer's, the other layers keep their order, the layers
    themselves are unchanged and the desktop is well formed again. *)
Theorem Activate_raises `{FontLib} (good : Window → Prop) (idle : Z) (d : Desktop) (id a m : Z)
  (Hgood : ∀ w, good w → window_ok w) (Hga : keeps_good good window_Activate) (Hgd : keeps_good good window_Deactivate)
  (Hok : desktop_ok good idle d) (Hid : 0 < id) (Hne : active_layer_ (active_layer d) ≠ id)
  (Ha : FindLayer (layer_manager d) id = Some a)
  (Hm : FindLayer (layer_manager d) (mouse_layer_ (active_layer d)) = Some m)
  (Hshown : Some m ∈ layer_stack_ (layer_manager d)) (Ham : a ≠ m)
  (Hact : 0 < active_layer_ (active_layer d) →
   ∃ b, FindLayer (layer_manager d) (active_layer_ (active_layer d)) = Some b ∧ Some b ∈ layer_stack_ (layer_manager d)) :
  ∃ d' k, Activate d id = Done d' ∧ desktop_ok good idle d' ∧ active_layer_ (active_layer d') = id ∧
    layers_ (layer_manager d') = layers_ (layer_manager d) ∧
    let others := filter (λ q, q ≠ Some a) (layer_stack_ (layer_manager d)) in
    others !! k = Some (Some m) ∧ layer_stack_ (layer_manager d') = insert_at k (Some a) others.
Proof.
  destruct (Activate_front good Hgood idle d id a Hok Hga Hgd Hid Hne Ha Hact) as (d1 & Hok1 & [S1 S2 S3] & Hact1 & ->).
  cbv zeta. set (others := filter (λ q, q ≠ Some a) (layer_stack_ (layer_manager d))).
  assert (Hfind : ∀ i lm, layers_ lm = layers_ (layer_manager d) → FindLayer lm i = FindLayer (layer_manager d) i).
  { intros i lm Hl. unfold FindLayer. by rewrite Hl. }
  pose proof (dk_lm _ _ _ Hok1) as Hlm1. assert (Ha1 : FindLayer (layer_manager d1) id = Some a) by by rewrite Hfind.
  pose proof (UpDown_ok _ id a 0 Hlm1 Ha1) as Hlm2. pose proof (UpDown_stack _ id a 0 Hlm1 Ha1 ltac:(lia)) as E0.
  cbv zeta in E0. rewrite S2 in E0. fold others in E0. rewrite Nat.min_0_l in E0. unfold insert_at in E0. simpl in E0.
  rewrite drop_0 in E0. set (lm2 := UpDown (layer_manager d1) id 0) in *.
  assert (Hlayers2 : layers_ lm2 = layers_ (layer_manager d)) by by rewrite E0.
  assert (Hstack2 : layer_stack_ lm2 = Some a :: others) by by rewrite E0.
  assert (Hmo : Some m ∈ others) by (apply list_elem_of_filter; split; [congruence|done]).
  apply list_elem_of_lookup in Hmo as (k & Hk). apply lookup_lt_Some in Hk as Hlt.
  rewrite (GetHeight_at lm2 _ m (S k) Hlm2); [|by rewrite Hfind|by rewrite Hstack2]. cbn [mbind outcome_bind].
  replace (Z.of_nat (S k) - 1) with (Z.of_nat k) by lia.
  assert (Ha2 : FindLayer lm2 id = Some a) by by rewrite Hfind.
  pose proof (UpDown_ok _ id a (Z.of_nat k) Hlm2 Ha2) as Hlm3. pose proof (UpDown_stack _ id a (Z.of_nat k) Hlm2 Ha2 ltac:(lia)) as E3.
  cbv zeta in E3. rewrite Hstack2, filter_cons_False in E3 by (intros Hn; by apply Hn).
  rewrite (list_filter_all _ others), Nat2Z.id, Nat.min_l in E3 by (lia || (intros x Hx; by apply list_elem_of_filter in Hx as [? _])).
  set (lm3 := UpDown lm2 id (Z.of_nat k)) in *.
  assert (Hok3 : desktop_ok good idle (set_lm d1 lm3)).
  { apply (lm_change_ok good Hgood); [done|done|by rewrite E3, E0|by rewrite E3, E0|by rewrite E3, E0]. }
  destruct (draw_layer_ok good Hgood idle (set_lm d1 lm3) id a Hok3) as (lm4 & -> & Hok4 & [T1 T2 T3]).
  { simpl. by rewrite Hfind by (by rewrite E3, E0). }
  { simpl. rewrite E3. simpl. apply elem_of_insert_at. by left. }
  cbn [mbind outcome_bind]. destruct (SendWindowActive_ok good Hgood idle _ id 1 Hok4) as (err & tm & -> & Hok5).
  cbn [mbind outcome_bind]. eexists _, k. split; [reflexivity|]. split; [exact Hok5|]. simpl. simpl in T1, T2. rewrite Hact1, T1, T2, E3, E0.
  simpl. rewrite S1. done.
Qed.

(** With no mouse layer in the stack [Activate] hides the window it should raise,
    and then draws with an uninitialised rectangle. *)
Lemma Activate_without_mouse `{FontLib} (good : Window → Prop) (idle : Z) (d : Desktop) (id a : Z) :
  (∀ w, good w → window_ok w) → keeps_good good window_Activate → keeps_good good window_Deactivate →
  desktop_ok good idle d → 0 < id → active_layer_ (active_layer d) ≠ id → FindLayer (layer_manager d) id = Some a →
  FindLayer (layer_manager d) (mouse_layer_ (active_layer d)) = None →
  (0 < active_layer_ (active_layer d) →
   ∃ b, FindLayer (layer_manager d) (active_layer_ (active_layer d)) = Some b ∧ Some b ∈ layer_stack_ (layer_manager d)) →
  Activate d id = Undef.
Proof.
  intros Hgood Hga Hgd Hok Hid Hne Ha Hm Hact.
  destruct (Activate_front good Hgood idle d id a Hok Hga Hgd Hid Hne Ha Hact) as (d1 & Hok1 & [S1 S2 S3] & Hact1 & ->).
  cbv zeta. pose proof (dk_lm _ _ _ Hok1) as Hlm1.
  assert (Ha1 : FindLayer (layer_manager d1) id = Some a) by (unfold FindLayer in *; by rewrite S1).
  pose proof (UpDown_ok _ id a 0 Hlm1 Ha1) as Hlm2. pose proof (UpDown_stack _ id a 0 Hlm1 Ha1 ltac:(lia)) as E0.
  set (lm2 := UpDown (layer_manager d1) id 0) in *.
  assert (Hl2 : layers_ lm2 = layers_ (layer_manager d)) by (rewrite E0; done).
  rewrite GetHeight_absent; [|done|intros b Hb; unfold FindLayer in *; rewrite Hl2 in Hb; congruence]. cbn [mbind outcome_bind].
  assert (Ha2 : FindLayer lm2 id = Some a) by (unfold FindLayer in *; by rewrite Hl2).
  unfold UpDown at 1. change (-1 - 1 <? 0) with true. cbv iota. rewrite (Hide_stack lm2 id a Hlm2 Ha2).
  unfold draw_layer, Draw_layer, Draw_part. simpl.
  assert (Hrun : ∀ st area back, (∀ p, p ∈ st → ∃ l, deref (layers_ lm2) p = Done l ∧ id_ l ≠ id) →
    foldM (draw_part_step (windows d1) (set_stack lm2 (filter (λ q, q ≠ Some a) (layer_stack_ lm2))) id) st
      (area, None, back) = Done (area, None, back)).
  { induction st as [|p st IH]; intros area back Hst; [done|]. simpl. destruct (Hst p) as (l & Hp & Hl); [set_solver|].
    rewrite Hp. simpl. destruct (Z.eqb_spec (id_ l) id); [done|]. simpl. apply IH. intros q Hq. apply Hst. set_solver. }
  rewrite Hrun; [done|]. intros p [Hpa Hp]%list_elem_of_filter. destruct (entry_layer lm2 p Hlm2 Hp) as (b & l & -> & Hb).
  exists l. unfold deref. simpl. rewrite Hb. split; [done|]. intros Hi. apply Hpa. f_equal.
  assert (FindLayer lm2 id = Some b) by (apply FindLayer_layer; eauto). congruence.
Qed.

#[local] Instance no_fonts : FontLib := {|
  fl_hankaku := ∅; fl_hankaku_size := 0; fl_New_Memory_Face := 1; fl_Set_Pixel_Sizes := 0;
  fl_Get_Char_Index _ := 0; fl_Load_Glyph _ := (0, mkGlyph 0 0 0 ∅ 0 0 0 0 0 1);
|}.

(** Three layers, the mouse's on top. *)
Definition small_desktop : Desktop :=
  mkDesktop
    (mkLM (Some (small_fb 7)) (small_fb 7)
       [(100, mkLayer 1 (mkVec 0 0) (Some 10) false); (200, mkLayer 2 (mkVec 1 0) (Some 20) true);
        (300, mkLayer 3 (mkVec 0 1) (Some 30) false)]
       [Some 100; Some 200; Some 300] 3)
    {[10 := small_window 5; 20 := small_window 7; 30 := small_window 8]} (mkActive 0 3) ∅ sample_tm.

Definition small_good (w : Window) : Prop := window_ok w ∧ window_class w = PlainWindow.

Lemma small_desktop_ok : desktop_ok small_good 2 small_desktop.
Proof.
  split.
  - split.
    + apply (bool_decide_unpack _). reflexivity.
    + apply (bool_decide_unpack _). reflexivity.
    + repeat (apply Forall_cons; split; [simpl; lia|]). apply Forall_nil. exact I.
    + apply (bool_decide_unpack _). reflexivity.
    + repeat (apply Forall_cons; split; [eexists; split; [reflexivity|set_solver]|]). apply Forall_nil. exact I.
  - exists (small_fb 7). split; try reflexivity; apply small_fb_ok.
  - repeat (apply Forall_cons; split;
      [eexists _, _; split; [reflexivity|]; split; [reflexivity|]; split; [split; [apply small_window_ok|reflexivity]|reflexivity]|]).
    apply Forall_nil. exact I.
  - apply sample_tm_wf.
Qed.

Lemma Activate_raises_witness :
  ∃ d', Activate small_desktop 1 = Done d' ∧ layer_stack_ (layer_manager d') = [Some 200; Some 100; Some 300].
Proof.
  destruct (Activate_raises small_good 2 small_desktop 1 100 300) as (d' & k & E & _ & _ & _ & Hk & Hst).
  - intros w Hw. apply Hw.
  - split. intros w [Hw Hc]. exists w. unfold window_Activate. rewrite Hc. split; [reflexivity|]. split; [split; assumption|reflexivity].
  - split. intros w [Hw Hc]. exists w. unfold window_Deactivate. rewrite Hc. split; [reflexivity|]. split; [split; assumption|reflexivity].
  - apply small_desktop_ok.
  - lia.
  - discriminate.
  - reflexivity.
  - reflexivity.
  - set_solver.
  - lia.
  - simpl. lia.
  - exists d'. split; [exact E|]. rewrite Hst. destruct k as [|[|[|k]]]; try discriminate Hk. reflexivity.
Defined.

(** ** Finding the layer under a point *)

(** The layer's window covers [pos]. *)
Definition covers (ws : gmap Z Window) (l : Layer) (pos : Vector2D) : bool :=
  match window_ l ≫= λ wp, ws !! wp with
  | Some w => inside pos (pos_ l) (Size w)
  | None => false
  end.

Lemma at_position_covers ws fb l pos ex : drawable ws fb l →
  at_position ws pos ex l = Done (negb (id_ l =? ex) && covers ws l pos).
Proof.
  intros Hd. unfold at_position, covers, window_of. destruct (id_ l =? ex); [done|]. unfold drawable in Hd.
  destruct (window_ l) as [wp|]; [|done]. destruct (Hd wp eq_refl) as (w & Hw & _). simpl. rewrite Hw. simpl.
  unfold mret, outcome_ret, inside. reflexivity.
Qed.

Lemma find_position_spec ws fb ls pos ex st Ls : Forall2 (λ p l, deref ls p = Done l) st Ls → Forall (drawable ws fb) Ls →
  (find_position ws ls st pos ex = Done None ∧ ∀ l, l ∈ Ls → negb (id_ l =? ex) && covers ws l pos = false) ∨
  (∃ a A l B, Ls = A ++ l :: B ∧ find_position ws ls st pos ex = Done (Some a) ∧ layer_at ls a = Some l ∧
     negb (id_ l =? ex) && covers ws l pos = true ∧ ∀ l', l' ∈ A → negb (id_ l' =? ex) && covers ws l' pos = false).
Proof.
  induction 1 as [|p l st Ls Hp Hst IH]; intros Hd; [left; split; [done|set_solver]|].
  apply Forall_cons in Hd as [Hl Hd]. cbn [find_position]. rewrite Hp. cbn [mbind outcome_bind].
  rewrite (at_position_covers ws fb) by done. cbn [mbind outcome_bind].
  destruct (negb (id_ l =? ex) && covers ws l pos) eqn:E.
  - right. unfold deref in Hp. destruct p as [a|]; [simpl in Hp|done].
    exists a, [], l, Ls. split_and!; [done|done|by apply of_option_Done in Hp|done|set_solver].
  - destruct (IH Hd) as [[H1 H2]|(a & A & k & B & -> & H1 & H2 & H3 & H4)].
    + left. split; [done|]. intros l' [->|Hl']%elem_of_cons; auto.
    + right. exists a, (l :: A), k, B. split_and!; [done..|]. intros l' [->|Hl']%elem_of_cons; auto.
Qed.

(** The hit test finds the layer the user sees.  [FindLayerByPosition] returns null
    exactly when no layer of the stack but the excluded one covers the point, and
    else the topmost that does; when the excluded layer (the mouse's) does not
    cover the point and the layers from the found one up are opaque, the pixel
    that the whole stack shows there is that layer's own. *)
Theorem FindLayerByPosition_visible (ws : gmap Z Window) (fb : FrameBuffer) (lm : LayerManager) (Ls : list Layer)
  (pos : Vector2D) (exclude_id : Z) (Hres : resolved lm Ls) (Hd : Forall (drawable ws fb) Ls) :
  let hit l := negb (id_ l =? exclude_id) && covers ws l pos in
  (FindLayerByPosition ws lm pos exclude_id = Done None ∧ ∀ l, l ∈ Ls → hit l = false) ∨
  ∃ a A l B, Ls = A ++ l :: B ∧ FindLayerByPosition ws lm pos exclude_id = Done (Some a) ∧
    layer_at (layers_ lm) a = Some l ∧ hit l = true ∧ (∀ l', l' ∈ B → hit l' = false) ∧
    ((∀ l', l' ∈ Ls → id_ l' = exclude_id → covers ws l' pos = false) → opaque ws l →
     ∃ wp w, window_ l = Some wp ∧ ws !! wp = Some w ∧ picture ws Ls pos = Some (window_pixel w (pos -v pos_ l))).
Proof.
  intros hit. unfold FindLayerByPosition.
  assert (Hrev : Forall2 (λ p l, deref (layers_ lm) p = Done l) (reverse (layer_stack_ lm)) (reverse Ls)).
  { apply Forall2_reverse. exact Hres. }
  destruct (find_position_spec ws fb _ pos exclude_id _ _ Hrev ltac:(by apply Forall_reverse))
    as [[H1 H2]|(a & A & l & B & HLs & H1 & H2 & H3 & H4)].
  - left. split; [done|]. intros l Hl. apply H2. by apply (proj2 (elem_of_reverse _ _)).
  - right. assert (HL : Ls = reverse B ++ l :: reverse A).
    { rewrite <- (reverse_involutive Ls), HLs, reverse_app, reverse_cons, <- app_assoc. done. }
    exists a, (reverse B), l, (reverse A). split_and!; [done..| |].
    + intros l' Hl'. apply H4. by apply (proj1 (elem_of_reverse _ _)).
    + intros Hex Hop. apply andb_true_iff in H3 as [Hne Hcov]. unfold covers in Hcov.
      destruct (window_ l) as [wp|] eqn:Hw; [simpl in Hcov|done]. destruct (ws !! wp) as [w|] eqn:Hws; [|done].
      exists wp, w. split_and!; [done..|]. unfold picture. rewrite HL, shows_app.
      change (l :: reverse A) with ([l] ++ reverse A). rewrite shows_app, shows_nothing.
      * unfold shows, shows_over. simpl. unfold layer_view. rewrite Hw. simpl. rewrite Hws. unfold window_view.
        rewrite Hcov, (Hop wp w Hw Hws). cbn [rpos rsize]. by rewrite inside_self.
      * apply Forall_forall. intros l' Hl'. assert (Hc : covers ws l' pos = false).
        { destruct (Z.eqb_spec (id_ l') exclude_id) as [He|Hn]; [apply Hex; [|done]; rewrite HL; set_solver|].
          specialize (H4 l' (proj1 (elem_of_reverse _ _) Hl')). destruct (Z.eqb_spec (id_ l') exclude_id); [done|].
          simpl in H4. done. }
        unfold covers in Hc. unfold layer_view. destruct (window_ l' ≫= _) as [w'|]; [|done].
        unfold window_view. by rewrite Hc.
Qed.

Lemma FindLayerByPosition_visible_witness :
  FindLayerByPosition (windows small_desktop) (layer_manager small_desktop) (mkVec 1 0) 3 = Done (Some 200).
Proof.
  destruct (FindLayerByPosition_visible (windows small_desktop) (small_fb 7) (layer_manager small_desktop)
    (snd <$> layers_ (layer_manager small_desktop)) (mkVec 1 0) 3) as [[H _]|(a & A & l & B & _ & H & _)].
  - repeat (apply Forall2_cons; split; [reflexivity|]). apply Forall2_nil. exact I.
  - repeat (apply Forall_cons; split; [intros wp [= <-]; eexists; split; [reflexivity|]; split; [apply small_window_ok|reflexivity]|]).
    apply Forall_nil. exact I.
  - exfalso. vm_compute in H. discriminate H.
  - rewrite H. vm_compute in H. exact (eq_sym H).
Defined.
