(* ===== verification/SafeDesktop.v ===== *)
(** Safety of drawing: operations that draw inside a window or through the layers
    always return and keep the windows, the layers and the buffers sound.  Less is
    asked of a window than in Window.v, so that windows that have been scrolled,
    whose shadow buffer and pixels differ, are covered too. *)
From S2P Require Import Prelude ErrorCode Message Task Timer Graphics FrameBuffer Font Window Layer.
Import QueueFacts SchedFacts RunFacts TickFacts DrawFacts FBFacts WindowFacts LayerFacts StackFacts DesktopFacts.

(** ** Drawing through any pixel writer *)
Module KeptFacts.

(** The ASCII characters, without the terminating zero. *)
Definition ascii (c : Z) : Prop := 0 < c < 128.

(** A loop every turn of which keeps [P]. *)
Lemma for_loop_keeps {S} (P : S → Prop) lo hi (f : Z → S → outcome S) s : P s →
  (∀ i s1, lo ≤ i < hi → P s1 → ∃ s2, f i s1 = Done s2 ∧ P s2) → ∃ s', for_loop lo hi f s = Done s' ∧ P s'.
Proof.
  intros Hs Hf. destruct (decide (lo ≤ hi)) as [Hle|Hgt].
  - apply (for_loop_inv (λ _, P)); [done|done|]. intros i s1 Hi Hs1. by apply Hf.
  - exists s. by rewrite for_loop_nil by lia.
Qed.

Section kept.
Context {S : Type} `{PW : PixelWriter S} {PL : PixelWriterLaws S}.

(** [s'] comes from [s] by drawing: same sizes, still sound. *)
Record kept (s s' : S) : Prop := {
  kp_ok : pw_ok s';
  kp_width : Width s' = Width s;
  kp_height : Height s' = Height s;
}.

Lemma kept_refl s : pw_ok s → kept s s.
Proof. by split. Qed.

Lemma kept_trans s1 s2 s3 : kept s1 s2 → kept s2 s3 → kept s1 s3.
Proof. intros [] []. split; congruence || done. Qed.

Lemma Write_kept s p c : pw_ok s → 0 ≤ vx p < Width s → 0 ≤ vy p < Height s → ∃ s', Write s p c = Done s' ∧ kept s s'.
Proof. intros Hs Hx Hy. destruct (Write_spec s p c Hs Hx Hy) as (s' & E & Hok & HW & HH & _). exists s'. by split. Qed.

Lemma FillRectangle_kept s pos size c : pw_ok s → 0 ≤ vx pos → 0 ≤ vy pos → 0 ≤ vx size → 0 ≤ vy size →
  vx pos + vx size ≤ Width s → vy pos + vy size ≤ Height s → ∃ s', FillRectangle s pos size c = Done s' ∧ kept s s'.
Proof.
  intros. destruct (FillRectangle_painted s pos size c) as (s' & E & []); [done..|]. exists s'. by split.
Qed.

(** A loop that draws at every turn. *)
Lemma for_loop_kept lo hi (f : Z → S → outcome S) s : pw_ok s →
  (∀ i s1, lo ≤ i < hi → kept s s1 → ∃ s2, f i s1 = Done s2 ∧ kept s1 s2) → ∃ s', for_loop lo hi f s = Done s' ∧ kept s s'.
Proof.
  intros Hs Hf. apply (for_loop_keeps (kept s)); [by apply kept_refl|]. intros i s1 Hi Hs1.
  destruct (Hf i s1 Hi Hs1) as (s2 & E & Hs2). exists s2. split; [done|]. by eapply kept_trans.
Qed.

Context `{FontLib}.

Lemma font_ascii_kept s pos c color : pw_ok s → 0 ≤ vx pos → 0 ≤ vy pos → vx pos + 8 ≤ Width s → vy pos + 16 ≤ Height s →
  ∃ s', font_ascii s pos c color = Done s' ∧ kept s s'.
Proof.
  intros Hs Hx Hy HW HH. unfold font_ascii, WriteAscii. destruct (GetFont _ c) as [font|].
  2: { exists s. split; [done|]. by apply kept_refl. }
  apply for_loop_kept; [done|]. intros dy s1 Hdy Hs1. apply for_loop_kept; [apply Hs1|]. intros dx s2 Hdx Hs2.
  pose proof (kept_trans _ _ _ Hs1 Hs2) as [Hok HW2 HH2].
  destruct (negb _); [|exists s2; split; [done|by apply kept_refl]]. apply Write_kept; [done|simpl; lia|simpl; lia].
Qed.

(** A line of ASCII characters inside the picture, and what is behind its end. *)
Lemma font_row_kept s pos cs rest color : pw_ok s → Forall ascii cs → 0 ≤ vx pos → 0 ≤ vy pos →
  vx pos + 8 * Z.of_nat (length cs) ≤ Width s → vy pos + 16 ≤ Height s →
  ∃ s', font_string s pos (cs ++ 0 :: rest) color = Done s' ∧ kept s s'.
Proof.
  intros Hs Hcs Hx Hy. unfold font_string, WriteString.
  assert (Hfuel : (length cs < length (cs ++ 0%Z :: rest))%nat) by (rewrite length_app; simpl; lia). revert Hfuel.
  generalize (length (cs ++ 0%Z :: rest)) as fuel.
  cut (∀ fuel s x, pw_ok s → (length cs < fuel)%nat → 0 ≤ x → vx pos + 8 * (x + Z.of_nat (length cs)) ≤ Width s →
    vy pos + 16 ≤ Height s → ∃ s', write_string_loop fl_hankaku fl_hankaku_size fl_New_Memory_Face fl_Set_Pixel_Sizes
      fl_Get_Char_Index fl_Load_Glyph fuel s pos (cs ++ 0 :: rest) x color = Done s' ∧ kept s s').
  { intros Hcut fuel Hf HW HH. apply Hcut; [done|done|lia|rewrite Z.add_0_l; done|done]. }
  clear s Hs. induction Hcs as [|c cs Hc Hcs IH]; intros fuel s x Hs Hf H0 HW HH;
    (destruct fuel as [|fuel]; [simpl in Hf; lia|]); cbn [write_string_loop app]; unfold char_at;
    cbn [lookup list_lookup of_option mbind outcome_bind].
  - exists s. split; [done|]. by apply kept_refl.
  - unfold ascii in Hc. destruct (Z.eqb_spec c 0); [lia|].
    assert (ConvertUTF8To32 (c :: cs ++ 0 :: rest) = Done (c, 1)) as ->.
    { unfold ConvertUTF8To32, char_at. cbn [lookup list_lookup of_option mbind outcome_bind]. unfold CountUTF8Size.
      by destruct (Z.ltb_spec c 0x80); [|lia]. }
    cbn [mbind outcome_bind].
    destruct (font_ascii_kept s (pos +v mkVec (8 * x) 0) c color Hs) as (s1 & E & Hk); [simpl in *; lia..|].
    unfold WriteUnicode at 1. destruct (Z.leb_spec c 0x7f); [|lia]. unfold font_ascii in E. rewrite E.
    cbn [mbind outcome_bind]. change (drop (Z.to_nat 1) (c :: cs ++ 0 :: rest)) with (cs ++ 0 :: rest).
    unfold IsHankaku. destruct (Z.leb_spec c 0x7f); [|lia]. destruct Hk as [Hs1 HW1 HH1].
    destruct (IH fuel s1 (x + 1)) as (s2 & E2 & Hk2); [done|simpl in Hf; lia|lia|simpl in HW; lia|lia|].
    exists s2. split; [done|]. eapply kept_trans; [|exact Hk2]. by split.
Qed.

Lemma font_line_kept s pos cs color : pw_ok s → Forall ascii cs → 0 ≤ vx pos → 0 ≤ vy pos →
  vx pos + 8 * Z.of_nat (length cs) ≤ Width s → vy pos + 16 ≤ Height s →
  ∃ s', font_string s pos (cs ++ [0]) color = Done s' ∧ kept s s'.
Proof. apply font_row_kept. Qed.
End kept.
End KeptFacts.
Import KeptFacts.

(** ** Windows *)
Module SizedFacts.

Record window_sized (w : Window) : Prop := {
  ws_shadow : fb_ok (shadow_buffer_ w);
  ws_width : horizontal_resolution (config_ (shadow_buffer_ w)) = width_ w;
  ws_height : vertical_resolution (config_ (shadow_buffer_ w)) = height_ w;
  ws_data p : 0 ≤ vx p < width_ w → 0 ≤ vy p < height_ w → ∃ c, data_at (Window.data_ w) p = Done c;
}.

Lemma window_ok_sized w : window_ok w → window_sized w.
Proof. intros [? ? ? Hs]. split; try done. intros p Hx Hy. eexists. by apply Hs. Qed.

(** A sound window with a given configuration of its shadow buffer. *)
Definition sized_as (c : FrameBufferConfig) (w : Window) : Prop := window_sized w ∧ config_ (shadow_buffer_ w) = c.

(** The picture is the shadow buffer's. *)
Program Definition sized_laws (cfg : FrameBufferConfig) : PixelWriterLaws Window :=
  {| pw_ok := sized_as cfg; pixel := window_pixel |}.
Next Obligation.
  intros cfg w p c [Hok Hcfg] Hx Hy. cbn [Width Height WindowWriter] in *.
  assert (HS : Width (shadow_buffer_ w) = width_ w ∧ Height (shadow_buffer_ w) = height_ w).
  { destruct Hok as [Hs HW HH _]. simpl. rewrite <- HW, <- HH. destruct Hs. by rewrite !swrap_small by lia. }
  destruct HS as [HW HH].
  destruct (Write_spec (PixelWriterLaws := FrameBufferWriter_laws) (shadow_buffer_ w) p c (ws_shadow _ Hok))
    as (s & Es & Hs & HsW & HsH & Hpx); [by rewrite HW|by rewrite HH|].
  destruct (ws_data _ Hok p Hx Hy) as [c0 Hc0]. destruct (data_set_spec (Window.data_ w) p c _ Hc0) as (d & Ed & Hd).
  rewrite HW, HH in *. exists (mkWindow (width_ w) (height_ w) d (transparent_color_ w) s (window_class w)).
  split.
  { change (window_Write w p c = Done (mkWindow (width_ w) (height_ w) d (transparent_color_ w) s (window_class w))).
    unfold window_Write. rewrite Ed. cbn [mbind outcome_bind]. by rewrite Es. }
  assert (Hcs : config_ s = config_ (shadow_buffer_ w)) by by eapply fb_Write_config.
  cbn [pixel FrameBufferWriter_laws] in Hpx. change (fb_ok s) in Hs.
  split; [split; [split; simpl|by simpl; rewrite Hcs]|split; [done|]; split; [done|]; intros q Hqx Hqy; by apply Hpx].
  - done.
  - rewrite Hcs. apply Hok.
  - rewrite Hcs. apply Hok.
  - intros q Hqx Hqy. rewrite Hd by lia. destruct (decide (q = p)); [by eexists|]. by apply ws_data.
Qed.

(** [w'] comes from [w] by drawing: same sizes and format, still sound. *)
Record drawn_on (w w' : Window) : Prop := {
  do_sized : window_sized w';
  do_width : width_ w' = width_ w;
  do_height : height_ w' = height_ w;
  do_config : config_ (shadow_buffer_ w') = config_ (shadow_buffer_ w);
}.

Lemma drawn_on_refl w : window_sized w → drawn_on w w.
Proof. by split. Qed.

Lemma drawn_on_trans w1 w2 w3 : drawn_on w1 w2 → drawn_on w2 w3 → drawn_on w1 w3.
Proof. intros [] []. split; congruence || done. Qed.

Lemma kept_drawn w w' : kept (PL := sized_laws (config_ (shadow_buffer_ w))) w w' → drawn_on w w'.
Proof. intros [[] HW HH]. by split. Qed.

Lemma sized_pw_ok w : window_sized w → pw_ok (PixelWriterLaws := sized_laws (config_ (shadow_buffer_ w))) w.
Proof. by split. Qed.

Lemma FillRectangle_sized w pos size c : window_sized w → 0 ≤ vx pos → 0 ≤ vy pos → 0 ≤ vx size → 0 ≤ vy size →
  vx pos + vx size ≤ width_ w → vy pos + vy size ≤ height_ w → ∃ w', FillRectangle w pos size c = Done w' ∧ drawn_on w w'.
Proof.
  intros Hw **. destruct (FillRectangle_kept (PL := sized_laws (config_ (shadow_buffer_ w))) w pos size c) as (w' & E & Hk);
    [by apply sized_pw_ok|done..|]. exists w'. split; [done|by apply kept_drawn].
Qed.

Section fonts.
Context `{FontLib}.

Lemma font_ascii_sized w pos c color : window_sized w → 0 ≤ vx pos → 0 ≤ vy pos →
  vx pos + 8 ≤ width_ w → vy pos + 16 ≤ height_ w → ∃ w', font_ascii w pos c color = Done w' ∧ drawn_on w w'.
Proof.
  intros Hw **. destruct (font_ascii_kept (PL := sized_laws (config_ (shadow_buffer_ w))) w pos c color) as (w' & E & Hk);
    [by apply sized_pw_ok|done..|]. exists w'. split; [done|by apply kept_drawn].
Qed.

Lemma font_line_sized w pos cs color : window_sized w → Forall ascii cs → 0 ≤ vx pos → 0 ≤ vy pos →
  vx pos + 8 * Z.of_nat (length cs) ≤ width_ w → vy pos + 16 ≤ height_ w →
  ∃ w', font_string w pos (cs ++ [0]) color = Done w' ∧ drawn_on w w'.
Proof.
  intros Hw **. destruct (font_line_kept (PL := sized_laws (config_ (shadow_buffer_ w))) w pos cs color) as (w' & E & Hk);
    [by apply sized_pw_ok|done..|]. exists w'. split; [done|by apply kept_drawn].
Qed.
End fonts.

Lemma window_Move_sized w dst src : window_sized w → 0 < vx (rsize src) → 0 < vy (rsize src) →
  vy dst ≠ vy (rpos src) → 0 ≤ vx dst → 0 ≤ vy dst → 0 ≤ vx (rpos src) → 0 ≤ vy (rpos src) →
  vx dst + vx (rsize src) ≤ width_ w → vy dst + vy (rsize src) ≤ height_ w →
  vx (rpos src) + vx (rsize src) ≤ width_ w → vy (rpos src) + vy (rsize src) ≤ height_ w →
  ∃ w', window_Move w dst src = Done w' ∧ drawn_on w w'.
Proof.
  intros [Hs HW HH Hd] Hsx Hsy Hne. intros. destruct (Move_blit (shadow_buffer_ w) dst src Hs Hsx Hsy) as (fb & E & Hok & Hc & _);
    [unfold fits; pose proof (ok_width _ Hs); lia..|by left|].
  unfold window_Move. rewrite E. cbn [mbind outcome_bind]. eexists. split; [reflexivity|].
  split; [|done|done|done]. split; simpl; [done|by rewrite Hc|by rewrite Hc|done].
Qed.

(** *** The area inside a window's frame *)

Definition inner_sized (cfg : FrameBufferConfig) (i : InnerArea) : Prop := sized_as cfg (inner_window i).

Program Definition inner_laws (cfg : FrameBufferConfig) : PixelWriterLaws InnerArea :=
  {| pw_ok := inner_sized cfg; pixel i p := window_pixel (inner_window i) (p +v kTopLeftMargin) |}.
Next Obligation.
  intros cfg i p c Hok Hx Hy. cbn [Width Height InnerAreaWriter] in *. unfold kMarginX, kMarginY in *. simpl in Hx, Hy.
  destruct (Write_spec (PixelWriterLaws := sized_laws cfg) (inner_window i) (p +v kTopLeftMargin) c Hok)
    as (w & E & Hw & HW & HH & Hpx); [simpl; lia..|].
  exists (mkInner w). split_and!.
  - change (inner_Write i p c = Done (mkInner w)). unfold inner_Write. change (window_Write (inner_window i) (p +v kTopLeftMargin) c = Done w) in E.
    by rewrite E.
  - exact Hw.
  - simpl in *. by rewrite HW.
  - simpl in *. by rewrite HH.
  - intros q Hqx Hqy. simpl in Hpx, Hqx, Hqy |- *. rewrite Hpx by (simpl; lia).
    destruct (decide (q = p)) as [->|Hne]; [by rewrite decide_True|]. rewrite decide_False; [done|].
    intros Heq. apply Hne. destruct q, p. unfold vec_add in Heq. simpl in Heq. injection Heq as H1 H2. f_equal; lia.
Qed.

Lemma inner_drawn w i : kept (PL := inner_laws (config_ (shadow_buffer_ w))) (mkInner w) i → drawn_on w (inner_window i).
Proof. intros [[] HW HH]. cbn [Width Height InnerAreaWriter inner_window] in HW, HH. split; [done|lia|lia|done]. Qed.

(** A frame buffer that a window is drawn on keeps its configuration. *)
Lemma window_DrawTo_safe w dst pos area : window_sized w → fb_ok dst →
  pixel_format (config_ dst) = pixel_format (config_ (shadow_buffer_ w)) →
  ∃ dst', window_DrawTo w dst pos area = Done dst' ∧ fb_ok dst' ∧ config_ dst' = config_ dst.
Proof.
  intros Hw Hdst Hf. unfold window_DrawTo. destruct (transparent_color_ w) as [tc|].
  - set (P := λ fb, fb_ok fb ∧ config_ fb = config_ dst).
    apply (for_loop_keeps P); [done|]. intros y d1 Hy Hd1. apply (for_loop_keeps P); [done|]. intros x d2 Hx [Hd2 Hc2].
    unfold At. destruct (ws_data w Hw (mkVec x y)) as [c ->]; [simpl; lia..|]. cbn [mbind outcome_bind].
    destruct (bool_decide (c ≠ tc)); [|by exists d2].
    destruct (Write_spec (PixelWriterLaws := FrameBufferWriter_laws) d2 (pos +v mkVec x y) c Hd2) as (d3 & E & Hd3 & _).
    { simpl in *. rewrite Hc2. lia. }
    { simpl in *. rewrite Hc2. lia. }
    exists d3. split; [exact E|]. split; [exact Hd3|]. rewrite <- Hc2. by eapply fb_Write_config.
  - destruct (_ && _); [|by exists dst].
    match goal with |- context [Copy dst ?p ?s ?a] => destruct (Copy_pixel dst s p a Hdst (ws_shadow _ Hw) Hf) as (d & E & Hok & Hc & _) end.
    rewrite E. by exists d.
Qed.
End SizedFacts.
Import SizedFacts.

(** ** The layers *)
Module SafeFacts.

(** The layer has a window, which can be drawn on [fb]. *)
Definition drawable_on (ws : gmap Z Window) (format : PixelFormat) (l : Layer) : Prop :=
  ∃ wp w, window_ l = Some wp ∧ ws !! wp = Some w ∧ window_sized w ∧ pixel_format (config_ (shadow_buffer_ w)) = format.

(** A layer manager that can draw all its layers. *)
Record lm_safe (ws : gmap Z Window) (lm : LayerManager) : Prop := {
  ls_ok : lm_ok lm;
  ls_buffers : ∃ screen, buffers_ok lm screen;
  ls_windows : Forall (λ al, drawable_on ws (pixel_format (config_ (back_buffer_ lm))) al.2) (layers_ lm);
}.

(** The layer [id] is on the stack. *)
Definition on_stack (lm : LayerManager) (id : Z) : Prop := ∃ a, FindLayer lm id = Some a ∧ Some a ∈ layer_stack_ lm.

(** The same layers, up to their places, in the same order. *)
Record same_order (lm lm' : LayerManager) : Prop := {
  so_find id : FindLayer lm' id = FindLayer lm id;
  so_stack : layer_stack_ lm' = layer_stack_ lm;
  so_latest : latest_id_ lm' = latest_id_ lm;
}.

Lemma same_order_refl lm : same_order lm lm.
Proof. by split. Qed.
Lemma same_order_trans lm1 lm2 lm3 : same_order lm1 lm2 → same_order lm2 lm3 → same_order lm1 lm3.
Proof. intros [F1 S1 L1] [F2 S2 L2]. split; [intros id; by rewrite F2, F1|congruence|congruence]. Qed.
Lemma same_order_on_stack lm lm' id : same_order lm lm' → on_stack lm id → on_stack lm' id.
Proof. intros [F S _] (a & Ha & Hs). exists a. by rewrite F, S. Qed.

Lemma layer_DrawTo_safe ws fmt l fb area : fb_ok fb → pixel_format (config_ fb) = fmt → drawable_on ws fmt l →
  ∃ fb', layer_DrawTo ws l fb area = Done fb' ∧ fb_ok fb' ∧ config_ fb' = config_ fb.
Proof.
  intros Hfb Hf (wp & w & Hl & Hw & Hs & Hwf). unfold layer_DrawTo, window_of. rewrite Hl, Hw. simpl.
  apply window_DrawTo_safe; [done|done|congruence].
Qed.

(** Entries of the stack that lead to layers that can be drawn. *)
Definition entries_ok (ws : gmap Z Window) (fmt : PixelFormat) (ls : list (Z * Layer)) (st : list (option Z)) : Prop :=
  Forall (λ p, ∃ l, deref ls p = Done l ∧ drawable_on ws fmt l) st.

Lemma stack_entries ws lm : lm_safe ws lm →
  entries_ok ws (pixel_format (config_ (back_buffer_ lm))) (layers_ lm) (layer_stack_ lm).
Proof.
  intros [Hok _ Hws]. apply Forall_forall. intros p Hp. destruct (entry_layer lm p Hok Hp) as (a & l & -> & Hl).
  exists l. split; [unfold deref; simpl; by rewrite Hl|]. rewrite Forall_forall in Hws. apply (Hws (a, l)).
  by apply layer_at_elem; [apply Hok|].
Qed.

Lemma draw_entries ws fmt ls area st : entries_ok ws fmt ls st → ∀ fb, fb_ok fb → pixel_format (config_ fb) = fmt →
  ∃ fb', foldM (λ p back, l ← deref ls p; layer_DrawTo ws l back area) st fb = Done fb' ∧ fb_ok fb' ∧ config_ fb' = config_ fb.
Proof.
  induction 1 as [|p st (l & Hp & Hl) Hst IH]; intros fb Hfb Hf; [by exists fb|]. cbn [foldM]. rewrite Hp. cbn [mbind outcome_bind].
  destruct (layer_DrawTo_safe ws fmt l fb area Hfb Hf Hl) as (fb1 & -> & Hfb1 & Hc1). cbn [mbind outcome_bind].
  destruct (IH fb1 Hfb1) as (fb2 & E & Hfb2 & Hc2); [congruence|]. exists fb2. split; [done|]. split; [done|congruence].
Qed.

(** The end of both kinds of drawing: an area is copied to the screen. *)
Lemma copy_to_screen ws lm back area : lm_safe ws lm → fb_ok back → config_ back = config_ (back_buffer_ lm) →
  ∃ lm', (screen ← of_option (screen_ lm); '(_, screen) ← Copy screen (rpos area) back area;
          mret (set_buffers lm (Some screen) back)) = Done lm' ∧ lm_safe ws lm' ∧ same_order lm lm' ∧
    layers_ lm' = layers_ lm.
Proof.
  intros [Hok (screen & [B1 B2 B3 B4 B5 B6]) Hws] Hb Hc. rewrite B1. cbn [of_option mbind outcome_bind].
  destruct (Copy_same screen back area) as (s' & Es & Hs & Hcs & _); [done|done|by rewrite Hc|by rewrite Hc|by rewrite Hc|].
  rewrite Es. cbn [mbind outcome_bind]. eexists. split; [reflexivity|]. split; [|done]. split; simpl.
  - by destruct Hok.
  - exists s'. by split; simpl; rewrite ?Hc, ?Hcs.
  - by rewrite Hc.
Qed.

Lemma Draw_all_safe ws lm area : lm_safe ws lm →
  ∃ lm', Draw_all ws lm area = Done lm' ∧ lm_safe ws lm' ∧ same_order lm lm' ∧ layers_ lm' = layers_ lm.
Proof.
  intros Hlm. pose proof (ls_buffers _ _ Hlm) as (screen & Hbuf). unfold Draw_all.
  destruct (draw_entries ws _ _ area _ (stack_entries _ _ Hlm) (back_buffer_ lm) (bo_back _ _ Hbuf) eq_refl)
    as (back & -> & Hb & Hc). cbn [mbind outcome_bind]. by apply copy_to_screen.
Qed.

Lemma draw_part_entries ws fmt lm id st : entries_ok ws fmt (layers_ lm) st → ∀ area wa fb, fb_ok fb →
  pixel_format (config_ fb) = fmt →
  ∃ area' wa' fb', foldM (draw_part_step ws lm id) st (area, wa, fb) = Done (area', wa', fb') ∧ fb_ok fb' ∧
    config_ fb' = config_ fb ∧
    (is_Some wa ∨ (∃ p l, p ∈ st ∧ deref (layers_ lm) p = Done l ∧ id_ l = id) → is_Some wa').
Proof.
  induction 1 as [|p st (l & Hp & Hl) Hst IH]; intros area wa fb Hfb Hf.
  { exists area, wa, fb. split_and!; try done. intros [?|(p & l & Hp & _)]; [done|set_solver]. }
  cbn [foldM]. assert (Hstep : ∃ area1 wa1 fb1, draw_part_step ws lm id p (area, wa, fb) = Done (area1, wa1, fb1) ∧
    fb_ok fb1 ∧ config_ fb1 = config_ fb ∧ (is_Some wa ∨ id_ l = id → is_Some wa1)).
  { unfold draw_part_step. rewrite Hp. cbn [mbind outcome_bind].
    pose proof Hl as (wp & w & Hw & Hws & Hsz & _).
    assert (Hwof : window_of ws l = Done w) by (unfold window_of; by rewrite Hw, Hws).
    destruct (Z.eqb_spec (id_ l) id) as [He|Hne].
    - rewrite Hwof. cbn [mbind outcome_bind].
      destruct (_ || _); cbn [mbind outcome_bind mret outcome_ret];
      match goal with |- context [layer_DrawTo _ _ _ ?a] =>
        destruct (layer_DrawTo_safe ws fmt l fb a Hfb Hf Hl) as (fb1 & -> & Hfb1 & Hc1) end; cbn [mbind outcome_bind];
      eexists _, _, fb1; (split; [reflexivity|]); (split; [done|]); (split; [done|]); intros _; by eexists.
    - cbn [mbind outcome_bind mret outcome_ret]. destruct wa as [wa|].
      + destruct (layer_DrawTo_safe ws fmt l fb wa Hfb Hf Hl) as (fb1 & -> & Hfb1 & Hc1). cbn [mbind outcome_bind].
        eexists _, _, fb1. split; [reflexivity|]. split; [done|]. split; [done|]. intros _. by eexists.
      + eexists _, _, fb. split; [reflexivity|]. split; [done|]. split; [done|]. by intros [[? ?]|?]. }
  destruct Hstep as (area1 & wa1 & fb1 & -> & Hfb1 & Hc1 & Hs1). cbn [mbind outcome_bind].
  destruct (IH area1 wa1 fb1 Hfb1) as (area2 & wa2 & fb2 & E & Hfb2 & Hc2 & Hs2); [congruence|].
  exists area2, wa2, fb2. split_and!; [done|done|congruence|]. intros Hor. apply Hs2.
  destruct Hor as [?|(q & lq & Hq & Hdq & Hid)]; [left; by auto|]. apply elem_of_cons in Hq as [->|Hq].
  - left. apply Hs1. right. by rewrite Hp in Hdq; injection Hdq as <-.
  - right. by exists q, lq.
Qed.

Lemma Draw_part_safe ws lm id area : lm_safe ws lm → on_stack lm id →
  ∃ lm', Draw_part ws lm id area = Done lm' ∧ lm_safe ws lm' ∧ same_order lm lm' ∧ layers_ lm' = layers_ lm.
Proof.
  intros Hlm (a & Ha & Hst). pose proof (ls_buffers _ _ Hlm) as (screen & Hbuf). pose proof (ls_ok _ _ Hlm) as Hok.
  apply FindLayer_layer in Ha as (l & Hl & Hid); [|done]. unfold Draw_part.
  destruct (draw_part_entries ws _ lm id _ (stack_entries _ _ Hlm) area None (back_buffer_ lm) (bo_back _ _ Hbuf) eq_refl)
    as (area' & wa & back & -> & Hb & Hc & Hwa). cbn [mbind outcome_bind].
  destruct Hwa as [r ->]; [right; exists (Some a), l; split_and!; try done; unfold deref; simpl; by rewrite Hl|].
  cbn [of_option mbind outcome_bind]. by apply copy_to_screen.
Qed.

(** A layer is moved. *)
Lemma update_layer_safe ws lm a f : lm_safe ws lm → (∀ l, id_ (f l) = id_ l ∧ window_ (f l) = window_ l) →
  lm_safe ws (update_layer lm a f) ∧ same_order lm (update_layer lm a f).
Proof.
  intros [[O1 O2 O3 O4 O5] Hbuf Hws] Hf. unfold update_layer.
  set (g := λ al : Z * Layer, if al.1 =? a then (al.1, f al.2) else al).
  assert (Hg : ∀ al, (g al).1 = al.1 ∧ id_ (g al).2 = id_ al.2 ∧ window_ (g al).2 = window_ al.2).
  { intros [b l]. unfold g. simpl. destruct (b =? a); simpl; [|done]. destruct (Hf l). done. }
  assert (Hfst : fst <$> (g <$> layers_ lm) = fst <$> layers_ lm).
  { rewrite <- list_fmap_compose. apply list_fmap_ext. intros i al _. apply (Hg al). }
  assert (Hids : (λ al, id_ al.2) <$> (g <$> layers_ lm) = (λ al, id_ al.2) <$> layers_ lm).
  { rewrite <- list_fmap_compose. apply list_fmap_ext. intros i al _. apply (Hg al). }
  split; [split|split]; simpl; try done.
  - split; simpl; rewrite ?Hfst, ?Hids; try done. apply Forall_fmap. eapply Forall_impl; [exact O3|]. intros al Hal.
    destruct (Hg al) as (_ & Hi & _). unfold compose. cbv beta. by rewrite Hi.
  - destruct Hbuf as (screen & []). exists screen. by split.
  - apply Forall_fmap. eapply Forall_impl; [done|]. intros al (wp & w & Hal). destruct (Hg al) as (_ & _ & Hw).
    exists wp, w. unfold compose. by rewrite Hw.
  - intros id. unfold FindLayer. simpl. clear -Hg. induction (layers_ lm) as [|al ls IH]; [done|]. simpl.
    destruct (Hg al) as (H1 & -> & _). destruct (id_ al.2 =? id); [|done]. simpl. by rewrite H1.
Qed.

Lemma move_layer_safe ws lm id f : lm_safe ws lm → on_stack lm id → (∀ l, id_ (f l) = id_ l ∧ window_ (f l) = window_ l) →
  ∃ lm', move_layer ws lm id f = Done lm' ∧ lm_safe ws lm' ∧ same_order lm lm'.
Proof.
  intros Hlm Hst Hf. pose proof Hst as (a & Ha & _). unfold move_layer. rewrite Ha. cbn [of_option mbind outcome_bind].
  apply FindLayer_layer in Ha as (l & Hl & Hid); [|apply Hlm]. rewrite Hl. cbn [of_option mbind outcome_bind].
  pose proof (ls_windows _ _ Hlm) as Hws. rewrite Forall_forall in Hws.
  destruct (Hws (a, l)) as (wp & w & Hw & Hwp & _); [apply layer_at_elem; [apply Hlm|done]|]. simpl in Hw.
  unfold window_of. rewrite Hw, Hwp. cbn [of_option mbind outcome_bind].
  destruct (update_layer_safe ws lm a f Hlm Hf) as [Hlm1 Hso1].
  destruct (Draw_all_safe ws _ (mkRect (pos_ l) (Size w)) Hlm1) as (lm2 & -> & Hlm2 & Hso2 & _). cbn [mbind outcome_bind].
  pose proof (same_order_trans _ _ _ Hso1 Hso2) as Hso.
  destruct (Draw_part_safe ws lm2 id (mkRect (mkVec 0 0) (mkVec (-1) (-1))) Hlm2) as (lm3 & E & Hlm3 & Hso3 & _);
    [by eapply same_order_on_stack|].
  exists lm3. split; [exact E|]. split; [done|]. by eapply same_order_trans.
Qed.

(** Any operation that a task asks the main task for. *)
Lemma ProcessLayerMessage_safe ws lm msg op id x y w h : lm_safe ws lm → arg msg = kLayer op id x y w h → on_stack lm id →
  ∃ lm', ProcessLayerMessage ws lm msg = Done lm' ∧ lm_safe ws lm' ∧ same_order lm lm'.
Proof.
  intros Hlm Hm Hst. unfold ProcessLayerMessage. rewrite Hm. destruct op.
  - by apply move_layer_safe.
  - by apply move_layer_safe.
  - destruct (Draw_part_safe ws lm id (mkRect (mkVec 0 0) (mkVec (-1) (-1))) Hlm Hst) as (lm' & E & ? & ? & _). by exists lm'.
  - destruct (Draw_part_safe ws lm id (mkRect (mkVec x y) (mkVec w h)) Hlm Hst) as (lm' & E & ? & ? & _). by exists lm'.
Qed.

(** A window is drawn on. *)
Lemma lm_safe_drawn ws lm p w w' : lm_safe ws lm → ws !! p = Some w → drawn_on w w' → lm_safe (<[p := w']> ws) lm.
Proof.
  intros [Hok Hbuf Hws] Hw [Hs _ _ Hc]. split; [done|done|]. eapply Forall_impl; [done|].
  intros al (wp & u & Hal & Hu & Hsz & Hf). exists wp. destruct (decide (wp = p)) as [->|].
  - exists w'. rewrite lookup_insert_eq. split_and!; try done. rewrite Hc. congruence.
  - exists u. by rewrite lookup_insert_ne.
Qed.
End SafeFacts.
