(* ===== verification/Console.v ===== *)
(** The text console: src/kernel/console.{hpp,cpp}, and the set-up of the layers
    around it, [InitializeLayer] of layer.cpp.  The console draws through a
    [PixelWriter*] that is the screen's or a window's; the objects it can reach
    are gathered in [ConsoleEnv]. *)
From S2P Require Import Prelude ErrorCode Message Task Graphics FrameBuffer Font Window Layer.

Definition kMaxRows : Z := 120.
Definition kMaxColumns : Z := 240.

(** [PixelWriter* writer_]: null, [screen_writer] or a window's [Writer()]. *)
Inductive WriterRef : Set := NullWriter | ScreenWriter | WindowWriterOf (window : Z).

#[export] Instance WriterRef_eq_dec : EqDecision WriterRef.
Proof. solve_decision. Defined.

(** The screen's own writer, the windows and [layer_manager] (null at first). *)
Record ConsoleEnv : Set := mkEnv {
  env_screen : FrameBuffer;
  env_windows : gmap Z Window;
  env_manager : option LayerManager;
}.

(** The environment seen through a writer. *)
Record ConsoleDev : Set := mkDev { dev_env : ConsoleEnv; dev_ref : WriterRef }.

Definition dev_Write (d : ConsoleDev) (pos : Vector2D) (c : PixelColor) : outcome ConsoleDev :=
  let e := dev_env d in
  match dev_ref d with
  | NullWriter => Undef
  | ScreenWriter =>
      s ← Write (env_screen e) pos c; mret (mkDev (mkEnv s (env_windows e) (env_manager e)) (dev_ref d))
  | WindowWriterOf p =>
      w ← of_option (env_windows e !! p);
      w ← Write w pos c;
      mret (mkDev (mkEnv (env_screen e) (<[p := w]> (env_windows e)) (env_manager e)) (dev_ref d))
  end.

#[export] Instance ConsoleWriter : PixelWriter ConsoleDev := {|
  Write := dev_Write;
  Width d := match dev_ref d with
             | NullWriter => 0
             | ScreenWriter => Width (env_screen (dev_env d))
             | WindowWriterOf p => default 0 (width_ <$> env_windows (dev_env d) !! p)
             end;
  Height d := match dev_ref d with
              | NullWriter => 0
              | ScreenWriter => Height (env_screen (dev_env d))
              | WindowWriterOf p => default 0 (height_ <$> env_windows (dev_env d) !! p)
              end;
|}.

(** [class Console]; the element [row][column] of [buffer_] is at
    [row * (kMaxColumns + 1) + column]. *)
Record Console : Set := mkConsole {
  writer_ : WriterRef;
  window_ : option Z;
  fg_color_ : PixelColor;
  bg_color_ : PixelColor;
  rows_ : Z;
  columns_ : Z;
  buffer_ : gmap Z Z;
  cursor_row_ : Z;
  cursor_column_ : Z;
  layer_id_ : Z;
}.

Definition new_Console (fg bg : PixelColor) (rows columns : Z) : Console :=
  mkConsole NullWriter None fg bg (Z.min rows kMaxRows) (Z.min columns kMaxColumns) ∅ 0 0 0.

Definition set_cursor (c : Console) (row column : Z) : Console :=
  mkConsole (writer_ c) (window_ c) (fg_color_ c) (bg_color_ c) (rows_ c) (columns_ c) (buffer_ c) row column (layer_id_ c).
Definition set_buffer (c : Console) (b : gmap Z Z) : Console :=
  mkConsole (writer_ c) (window_ c) (fg_color_ c) (bg_color_ c) (rows_ c) (columns_ c) b (cursor_row_ c) (cursor_column_ c)
    (layer_id_ c).
Definition set_writer (c : Console) (r : WriterRef) (w : option Z) : Console :=
  mkConsole r w (fg_color_ c) (bg_color_ c) (rows_ c) (columns_ c) (buffer_ c) (cursor_row_ c) (cursor_column_ c) (layer_id_ c).
Definition SetLayerID (c : Console) (layer_id : Z) : Console :=
  mkConsole (writer_ c) (window_ c) (fg_color_ c) (bg_color_ c) (rows_ c) (columns_ c) (buffer_ c) (cursor_row_ c)
    (cursor_column_ c) layer_id.

Definition row_length : Z := kMaxColumns + 1.

(** [buffer_[row][column] = v] *)
Definition buffer_set (b : gmap Z Z) (row column v : Z) : outcome (gmap Z Z) :=
  if arr_in kMaxRows row && arr_in row_length column then mret (<[row * row_length + column := v]> b) else Undef.

(** The bytes of [buffer_[row]]. *)
Definition buffer_row (b : gmap Z Z) (row : Z) : list Z :=
  (λ j, arr_read b (row * row_length + j)) <$> seqZ 0 row_length.

(** [memcpy(buffer_[row], buffer_[row + 1], n)] and [memset(buffer_[row], 0, n)] *)
Definition buffer_copy_up (b : gmap Z Z) (row n : Z) : gmap Z Z :=
  foldl (λ m j, <[row * row_length + j := arr_read b ((row + 1) * row_length + j)]> m) b (seqZ 0 n).
Definition buffer_clear (b : gmap Z Z) (row n : Z) : gmap Z Z :=
  foldl (λ m j, <[row * row_length + j := 0]> m) b (seqZ 0 n).

Section console.
Context `{FontLib}.

(** A drawing call through [*writer_]. *)
Definition through (c : Console) (e : ConsoleEnv) (f : ConsoleDev → outcome ConsoleDev) : outcome ConsoleEnv :=
  d ← f (mkDev e (writer_ c)); mret (dev_env d).

(** [window_->Move(dst, src)] *)
Definition env_move (e : ConsoleEnv) (p : Z) (dst : Vector2D) (src : Rectangle) : outcome ConsoleEnv :=
  w ← of_option (env_windows e !! p);
  w ← window_Move w dst src;
  mret (mkEnv (env_screen e) (<[p := w]> (env_windows e)) (env_manager e)).

Definition Refresh (c : Console) (e : ConsoleEnv) : outcome ConsoleEnv :=
  e ← through c e (λ d, FillRectangle d (mkVec 0 0) (mkVec (8 * columns_ c) (16 * rows_ c)) (bg_color_ c));
  for_loop 0 (rows_ c) (λ row e,
    through c e (λ d, font_string d (mkVec 0 (16 * row)) (buffer_row (buffer_ c) row) (fg_color_ c))) e.

Definition Newline (c : Console) (e : ConsoleEnv) : outcome (Console * ConsoleEnv) :=
  let c := set_cursor c (cursor_row_ c) 0 in
  if cursor_row_ c <? rows_ c - 1 then mret (set_cursor c (cursor_row_ c + 1) 0, e)
  else
    match window_ c with
    | Some p =>
        let move_src := mkRect (mkVec 0 16) (mkVec (8 * columns_ c) (16 * (rows_ c - 1))) in
        e ← env_move e p (mkVec 0 0) move_src;
        e ← through c e (λ d, FillRectangle d (mkVec 0 (16 * (rows_ c - 1))) (mkVec (8 * columns_ c) 16) (bg_color_ c));
        mret (c, e)
    | None =>
        e ← through c e (λ d, FillRectangle d (mkVec 0 0) (mkVec (8 * columns_ c) (16 * rows_ c)) (bg_color_ c));
        '(b, e) ← for_loop 0 (rows_ c - 1) (λ row '(b, e),
          let b := buffer_copy_up b row (columns_ c + 1) in
          e ← through c e (λ d, font_string d (mkVec 0 (16 * row)) (buffer_row b row) (fg_color_ c));
          mret (b, e)) (buffer_ c, e);
        mret (set_buffer c (buffer_clear b (rows_ c - 1) (columns_ c + 1)), e)
    end.

(** One character of [PutString]. *)
Definition put_char (ch : Z) (st : Console * ConsoleEnv) : outcome (Console * ConsoleEnv) :=
  let '(c, e) := st in
  if ch =? 10 then Newline c e
  else if cursor_column_ c <? columns_ c - 1 then
    e ← through c e (λ d, font_ascii d (mkVec (8 * cursor_column_ c) (16 * cursor_row_ c)) ch (fg_color_ c));
    b ← buffer_set (buffer_ c) (cursor_row_ c) (cursor_column_ c) ch;
    mret (set_cursor (set_buffer c b) (cursor_row_ c) (cursor_column_ c + 1), e)
  else mret (c, e).

(** [PutString]; [s] is the string without its terminating zero. *)
Definition PutString (c : Console) (e : ConsoleEnv) (s : list Z) : outcome (Console * ConsoleEnv) :=
  '(c, e) ← foldM put_char s (c, e);
  match env_manager e with
  | None => mret (c, e)
  | Some lm =>
      lm ← Draw_layer (env_windows e) lm (layer_id_ c);
      mret (c, mkEnv (env_screen e) (env_windows e) (Some lm))
  end.

Definition console_SetWriter (c : Console) (e : ConsoleEnv) (w : WriterRef) : outcome (Console * ConsoleEnv) :=
  if bool_decide (w = writer_ c) then mret (c, e)
  else let c := set_writer c w None in e ← Refresh c e; mret (c, e).

Definition console_SetWindow (c : Console) (e : ConsoleEnv) (p : Z) : outcome (Console * ConsoleEnv) :=
  if bool_decide (Some p = window_ c) then mret (c, e)
  else let c := set_writer c (WindowWriterOf p) (Some p) in e ← Refresh c e; mret (c, e).

(** [InitializeConsole] *)
Definition InitializeConsole (screen_config : FrameBufferConfig) (e : ConsoleEnv) : outcome (Console * ConsoleEnv) :=
  let rows := i32 (u32 (vertical_resolution screen_config - kTaskbarHeight) / 16) in
  let columns := i32 (u32 (horizontal_resolution screen_config) / 8) in
  console_SetWriter (new_Console kDesktopFGColor kDesktopBGColor rows columns) e ScreenWriter.

(** [InitializeLayer]: [a_bg] and [a_con] are the addresses of the new windows,
    [l_bg] and [l_con] those of the new layers. *)
Definition InitializeLayer (screen_config : FrameBufferConfig) (c : Console) (e : ConsoleEnv) (tm : TaskManager)
    (a_bg a_con l_bg l_con : Z) : outcome (Console * FrameBuffer * Desktop) :=
  let screen_size := FrameBufferSize screen_config in
  bgwindow ← new_Window (vx screen_size) (vy screen_size) (pixel_format screen_config);
  bgwindow ← DrawDesktop bgwindow;
  console_window ← new_Window (columns_ c * 8) (rows_ c * 16) (pixel_format screen_config);
  let e := mkEnv (env_screen e) (<[a_con := console_window]> (<[a_bg := bgwindow]> (env_windows e))) (env_manager e) in
  '(c, e) ← console_SetWindow c e a_con;
  let screen := value (Initialize screen_config) in
  let lm := Layer.SetWriter (mkLM None screen [] [] 0) screen in
  let '(l1, lm) := NewLayer lm l_bg in
  let lm := update_layer lm l1 (λ l, layer_Move (SetWindow l (Some a_bg)) (mkVec 0 0)) in
  let bglayer_id := Layer.latest_id_ lm in
  let '(l2, lm) := NewLayer lm l_con in
  let lm := update_layer lm l2 (λ l, layer_Move (SetWindow l (Some a_con)) (mkVec 0 0)) in
  let c := SetLayerID c (Layer.latest_id_ lm) in
  let lm := UpDown lm bglayer_id 0 in
  let lm := UpDown lm (layer_id_ c) 1 in
  mret (c, env_screen e, mkDesktop lm (env_windows e) (mkActive 0 0) ∅ tm).
End console.
