(* ===== verification/SafeConsole.v ===== *)
(** The console is safe: printing ASCII text always returns, draws only inside the
    screen or the console's window, and keeps the console's buffer, cursor and
    everything it is drawn on sound. *)
From S2P Require Import Prelude ErrorCode Message Task Timer Graphics FrameBuffer Font Window Layer SafeDesktop Console.
Import QueueFacts SchedFacts RunFacts TickFacts DrawFacts FBFacts WindowFacts LayerFacts KeptFacts SizedFacts SafeFacts.

(** ** The console's writer *)
Module WriterFacts.

(** What a drawing through a writer may change: the screen's pixels, or those of
    one window. *)
Record env_drawn (r : WriterRef) (e e' : ConsoleEnv) : Prop := {
  ed_manager : env_manager e' = env_manager e;
  ed_drawn : match r with
             | NullWriter => False
             | ScreenWriter => env_windows e' = env_windows e ∧ fb_ok (env_screen e') ∧
                               config_ (env_screen e') = config_ (env_screen e)
             | WindowWriterOf p => env_screen e' = env_screen e ∧
                 ∃ w w', env_windows e !! p = Some w ∧ env_windows e' = <[p := w']> (env_windows e) ∧ drawn_on w w'
             end;
}.

Lemma env_drawn_trans r e1 e2 e3 : env_drawn r e1 e2 → env_drawn r e2 e3 → env_drawn r e1 e3.
Proof.
  intros [M1 D1] [M2 D2]. split; [congruence|]. destruct r as [| |p]; [done| |].
  - destruct D1 as (? & ? & ?), D2 as (? & ? & ?). split_and!; congruence || done.
  - destruct D1 as (? & w & w1 & Hw & Hw1 & Hd1), D2 as (? & w1' & w2 & Hw1' & Hw2 & Hd2).
    rewrite Hw1, lookup_insert_eq in Hw1'. injection Hw1' as <-. split; [congruence|]. exists w, w2. split; [done|].
    split; [by rewrite Hw2, Hw1, insert_insert_eq|by eapply drawn_on_trans].
Qed.

(** The writer leads to a sound picture. *)
Definition writer_ok (r : WriterRef) (e : ConsoleEnv) : Prop :=
  match r with
  | NullWriter => False
  | ScreenWriter => fb_ok (env_screen e)
  | WindowWriterOf p => ∃ w, env_windows e !! p = Some w ∧ window_sized w
  end.

Lemma env_drawn_refl r e : writer_ok r e → env_drawn r e e.
Proof.
  intros Hr. split; [done|]. destruct r as [| |p]; [done|done|]. destruct Hr as (w & Hw & Hs). split; [done|].
  exists w, w. split; [done|]. split; [by rewrite insert_id|by apply drawn_on_refl].
Qed.

Lemma env_drawn_ok r e e' : env_drawn r e e' → writer_ok r e'.
Proof.
  intros [_ Hd]. destruct r as [| |p]; [done|apply Hd|]. destruct Hd as (_ & w & w' & _ & Hw' & [Hs _ _ _]). exists w'.
  by rewrite Hw', lookup_insert_eq.
Qed.

(** The picture behind a writer, for drawings that start in [e0]. *)
Definition dev_ok (r : WriterRef) (e0 : ConsoleEnv) (d : ConsoleDev) : Prop := dev_ref d = r ∧ env_drawn r e0 (dev_env d).

Definition dev_pixel (d : ConsoleDev) (p : Vector2D) : PixelColor :=
  match dev_ref d with
  | NullWriter => mkColor 0 0 0
  | ScreenWriter => pixel (PixelWriterLaws := FrameBufferWriter_laws) (env_screen (dev_env d)) p
  | WindowWriterOf a => from_option (λ w, window_pixel w p) (mkColor 0 0 0) (env_windows (dev_env d) !! a)
  end.

Program Definition dev_laws (r : WriterRef) (e0 : ConsoleEnv) : PixelWriterLaws ConsoleDev :=
  {| pw_ok := dev_ok r e0; pixel := dev_pixel |}.
Next Obligation.
  intros r e0 [e r'] pos c [Hr Hd] Hx Hy. cbn [dev_ref] in Hr. subst r'.
  cbn [Write Width Height ConsoleWriter dev_env dev_ref] in *. unfold dev_Write. cbn [dev_env dev_ref].
  destruct r as [| |p].
  - by destruct Hd.
  - pose proof Hd as [_ (_ & Hok & _)].
    destruct (Write_spec (PixelWriterLaws := FrameBufferWriter_laws) (env_screen e) pos c Hok Hx Hy) as (s & E & Hs & HW & HH & Hpx).
    rewrite E. cbn [mbind outcome_bind]. eexists. split; [reflexivity|]. cbn [dev_env dev_ref env_screen]. split_and!; [|done..].
    split; [done|]. cbn [dev_env]. eapply env_drawn_trans; [exact Hd|]. split; [done|]. cbn [env_windows env_screen].
    split_and!; [done|exact Hs|by eapply fb_Write_config].
  - pose proof (env_drawn_ok _ _ _ Hd) as (w & Hw & Hs). rewrite Hw in *. cbn [of_option mbind outcome_bind fmap option_fmap option_map default] in *.
    destruct (Write_spec (PixelWriterLaws := sized_laws (config_ (shadow_buffer_ w))) w pos c) as (w' & E & [Hs' Hc'] & HW & HH & Hpx);
      [by apply sized_pw_ok|exact Hx|exact Hy|].
    rewrite E. cbn [mbind outcome_bind]. eexists. split; [reflexivity|].
    cbn [dev_env dev_ref env_windows]. rewrite lookup_insert_eq. cbn [fmap option_fmap option_map default]. split_and!; [|exact HW|exact HH|].
    + split; [done|]. cbn [dev_env]. eapply env_drawn_trans; [exact Hd|]. split; [done|]. cbn [env_windows env_screen].
      split; [done|]. exists w, w'. split; [done|]. split; [done|]. by split.
    + intros q Hqx Hqy. unfold dev_pixel. cbn [dev_env dev_ref env_windows]. rewrite lookup_insert_eq, Hw. simpl. by apply Hpx.
Qed.
End WriterFacts.
Import WriterFacts.

(** ** Printing *)
Module PrintFacts.
Section print.
Context `{FontLib}.
Implicit Types (c : Console) (e : ConsoleEnv).

Definition dev c e : ConsoleDev := mkDev e (writer_ c).

(** The character at a place of the buffer. *)
Definition cell (b : gmap Z Z) (r j : Z) : Z := arr_read b (r * row_length + j).

(** A row of the console: characters and zeros, with a zero in the last column. *)
Definition row_ok (columns : Z) (b : gmap Z Z) (r : Z) : Prop :=
  ∀ j, 0 ≤ j < columns → (cell b r j = 0 ∨ ascii (cell b r j)) ∧ (j = columns - 1 → cell b r j = 0).

(** A console whose grid lies on the picture it is drawn on. *)
Record console_ok c e : Prop := {
  co_rows : 1 ≤ rows_ c ≤ kMaxRows;
  co_columns : 1 ≤ columns_ c ≤ kMaxColumns;
  co_row : 0 ≤ cursor_row_ c < rows_ c;
  co_column : 0 ≤ cursor_column_ c < columns_ c;
  co_text r : 0 ≤ r < rows_ c → row_ok (columns_ c) (buffer_ c) r;
  co_writer : writer_ok (writer_ c) e;
  co_width : 8 * columns_ c ≤ Width (dev c e);
  co_height : 16 * rows_ c ≤ Height (dev c e);
  co_window p : Console.window_ c = Some p → writer_ c = WindowWriterOf p;
}.

(** Only the text and the cursor may differ. *)
Record same_console c c' : Prop := {
  sc_writer : writer_ c' = writer_ c;
  sc_window : Console.window_ c' = Console.window_ c;
  sc_rows : rows_ c' = rows_ c;
  sc_columns : columns_ c' = columns_ c;
  sc_layer : Console.layer_id_ c' = Console.layer_id_ c;
}.

Lemma same_console_refl c : same_console c c.
Proof. by split. Qed.
Lemma same_console_trans c1 c2 c3 : same_console c1 c2 → same_console c2 c3 → same_console c1 c3.
Proof. intros [] []. split; congruence. Qed.

Lemma env_drawn_sizes r e e' : env_drawn r e e' →
  Width (mkDev e' r) = Width (mkDev e r) ∧ Height (mkDev e' r) = Height (mkDev e r).
Proof.
  intros [_ Hd]. destruct r as [| |p]; [done| |]; cbn [Width Height ConsoleWriter dev_ref dev_env].
  - destruct Hd as (_ & _ & Hc). simpl. by rewrite Hc.
  - destruct Hd as (_ & w & w' & Hw & -> & [_ HW HH _]). rewrite lookup_insert_eq, Hw. simpl. by rewrite HW, HH.
Qed.

(** A console that is only drawn stays sound. *)
Lemma console_ok_drawn c e e' : console_ok c e → env_drawn (writer_ c) e e' → console_ok c e'.
Proof.
  intros [] Hd. destruct (env_drawn_sizes _ _ _ Hd) as [HW HH]. unfold dev in *.
  split; unfold dev; try eassumption; [by eapply env_drawn_ok|lia|lia].
Qed.

Lemma through_kept c e f : writer_ok (writer_ c) e →
  (∃ d', f (dev c e) = Done d' ∧ kept (PL := dev_laws (writer_ c) e) (dev c e) d') →
  ∃ e', through c e f = Done e' ∧ env_drawn (writer_ c) e e'.
Proof.
  intros Hw (d' & E & [[_ Hd] _ _]). exists (dev_env d'). unfold through. fold (dev c e). rewrite E. done.
Qed.

Lemma dev_pw_ok c e : writer_ok (writer_ c) e → pw_ok (PixelWriterLaws := dev_laws (writer_ c) e) (dev c e).
Proof. intros Hw. split; [done|]. by apply env_drawn_refl. Qed.

Lemma through_rectangle c e pos size col : writer_ok (writer_ c) e → 0 ≤ vx pos → 0 ≤ vy pos → 0 ≤ vx size → 0 ≤ vy size →
  vx pos + vx size ≤ Width (dev c e) → vy pos + vy size ≤ Height (dev c e) →
  ∃ e', through c e (λ d, FillRectangle d pos size col) = Done e' ∧ env_drawn (writer_ c) e e'.
Proof.
  intros Hw **. apply through_kept; [done|]. apply FillRectangle_kept; [by apply dev_pw_ok|done..].
Qed.

(** A list with a zero at [k] and characters or zeros before starts with a line. *)
Lemma line_prefix (l : list Z) : ∀ k, l !! k = Some 0 → (∀ j x, (j < k)%nat → l !! j = Some x → x = 0 ∨ ascii x) →
  ∃ cs rest, l = cs ++ 0 :: rest ∧ Forall ascii cs ∧ (length cs ≤ k)%nat.
Proof.
  induction l as [|x l IH]; intros k Hk Hl; [done|]. destruct (decide (x = 0)) as [->|Hx].
  { exists [], l. split_and!; [done|constructor|simpl; lia]. }
  destruct k as [|k]; [by injection Hk|]. destruct (IH k Hk) as (cs & rest & -> & Hcs & Hlen).
  { intros j y Hj. apply (Hl (S j)). lia. }
  exists (x :: cs), rest. split_and!; [done| |simpl; lia]. constructor; [|done].
  destruct (Hl 0%nat x) as [|]; [lia|done|done|done].
Qed.

Lemma buffer_row_prefix columns b r : 1 ≤ columns ≤ kMaxColumns → row_ok columns b r →
  ∃ cs rest, buffer_row b r = cs ++ 0 :: rest ∧ Forall ascii cs ∧ Z.of_nat (length cs) < columns.
Proof.
  intros Hc Hr. assert (Hl : ∀ j, 0 ≤ j < row_length → buffer_row b r !! Z.to_nat j = Some (cell b r j)).
  { intros j Hj. unfold buffer_row. rewrite list_lookup_fmap, lookup_seqZ_lt by lia. simpl. unfold cell. do 2 f_equal. lia. }
  unfold kMaxColumns in Hc. destruct (line_prefix (buffer_row b r) (Z.to_nat (columns - 1))) as (cs & rest & E & Hcs & Hlen).
  - rewrite Hl by (unfold row_length, kMaxColumns; lia). f_equal. apply Hr; lia.
  - intros j x Hj Hx. replace j with (Z.to_nat (Z.of_nat j)) in Hx by lia.
    rewrite Hl in Hx by (unfold row_length, kMaxColumns; lia). injection Hx as <-. apply Hr. lia.
  - exists cs, rest. split_and!; [done|done|lia].
Qed.

(** A row of text is drawn. *)
Lemma through_row c e b r : console_ok c e → row_ok (columns_ c) b r → 0 ≤ r < rows_ c →
  ∃ e', through c e (λ d, font_string d (mkVec 0 (16 * r)) (buffer_row b r) (fg_color_ c)) = Done e' ∧
    env_drawn (writer_ c) e e'.
Proof.
  intros Hok Hrow Hr. destruct (buffer_row_prefix _ _ _ (co_columns _ _ Hok) Hrow) as (cs & rest & -> & Hcs & Hlen).
  pose proof (co_width _ _ Hok). pose proof (co_height _ _ Hok). apply through_kept; [apply Hok|].
  apply font_row_kept; [apply dev_pw_ok, Hok|done|cbn [vx vy]; lia..].
Qed.

Lemma Refresh_safe c e : console_ok c e → ∃ e', Refresh c e = Done e' ∧ env_drawn (writer_ c) e e'.
Proof.
  intros Hok. pose proof (co_width _ _ Hok). pose proof (co_height _ _ Hok). pose proof (co_rows _ _ Hok). pose proof (co_columns _ _ Hok).
  unfold Refresh. destruct (through_rectangle c e (mkVec 0 0) (mkVec (8 * columns_ c) (16 * rows_ c)) (bg_color_ c)) as (e1 & -> & Hd1);
    [apply Hok|cbn [vx vy]; lia..|]. cbn [mbind outcome_bind].
  apply (for_loop_keeps (λ e2, env_drawn (writer_ c) e e2)); [done|]. intros r e2 Hr Hd2.
  pose proof (console_ok_drawn _ _ _ Hok Hd2) as Hok2.
  destruct (through_row c e2 (buffer_ c) r Hok2) as (e3 & -> & Hd3); [by apply (co_text _ _ Hok)|done|]. exists e3. split; [done|].
  by eapply env_drawn_trans.
Qed.

(** ** The buffer *)

Lemma cell_set b r j v r' j' : 0 ≤ j < row_length → 0 ≤ j' < row_length →
  cell (<[r * row_length + j := v]> b) r' j' = if decide (r = r' ∧ j = j') then v else cell b r' j'.
Proof.
  intros Hj Hj'. unfold cell. rewrite arr_read_set. unfold row_length, kMaxColumns in *.
  destruct (decide (r = r' ∧ j = j')) as [[-> ->]|Hne]; [by rewrite decide_True|]. rewrite decide_False; [done|]. lia.
Qed.

(** A loop that assigns the first [n] cells of a row. *)
Lemma cells_assigned (g : Z → Z) r n b : 0 ≤ n ≤ row_length → ∀ r' j', 0 ≤ j' < row_length →
  cell (foldl (λ m j, <[r * row_length + j := g j]> m) b (seqZ 0 n)) r' j' =
    if decide (r = r' ∧ j' < n) then g j' else cell b r' j'.
Proof.
  intros Hn r' j' Hj'. rewrite <- (Z2Nat.id n) in * by lia. set (k := Z.to_nat n) in *. clearbody k. clear n.
  revert Hn. induction k as [|k IH]; intros Hn.
  - rewrite decide_False by lia. done.
  - rewrite seqZ_S, foldl_app. cbn [foldl]. rewrite cell_set by lia. rewrite IH by lia.
    destruct (decide (r = r' ∧ 0 + Z.of_nat k = j')) as [[-> <-]|Hne].
    + rewrite decide_True by lia. f_equal.
    + destruct (decide (r = r' ∧ j' < Z.of_nat k)); [by rewrite decide_True by lia|by rewrite decide_False by lia].
Qed.

Lemma buffer_copy_up_cell b r n r' j' : 0 ≤ n ≤ row_length → 0 ≤ j' < row_length →
  cell (buffer_copy_up b r n) r' j' = if decide (r = r' ∧ j' < n) then cell b (r + 1) j' else cell b r' j'.
Proof. intros. unfold buffer_copy_up. by apply (cells_assigned (λ j, cell b (r + 1) j)). Qed.

Lemma buffer_clear_cell b r n r' j' : 0 ≤ n ≤ row_length → 0 ≤ j' < row_length →
  cell (buffer_clear b r n) r' j' = if decide (r = r' ∧ j' < n) then 0 else cell b r' j'.
Proof. intros. unfold buffer_clear. by apply (cells_assigned (λ _, 0)). Qed.

Lemma row_ok_copy_up columns b r r' : 1 ≤ columns ≤ kMaxColumns → row_ok columns b (r + 1) → row_ok columns b r' →
  row_ok columns (buffer_copy_up b r (columns + 1)) r'.
Proof.
  intros Hc H1 H2 j Hj. unfold row_ok in *. rewrite buffer_copy_up_cell by (unfold row_length; lia).
  case_decide; [by apply H1|by apply H2].
Qed.

Lemma row_ok_clear columns b r r' : 1 ≤ columns ≤ kMaxColumns → (r ≠ r' → row_ok columns b r') →
  row_ok columns (buffer_clear b r (columns + 1)) r'.
Proof.
  intros Hc H2 j Hj. unfold row_ok in *. rewrite buffer_clear_cell by (unfold row_length; lia).
  case_decide as Hd; [by split; [left|]|]. apply H2; [lia|done].
Qed.

(** ** Characters *)

Lemma Newline_safe c e : console_ok c e →
  ∃ c' e', Newline c e = Done (c', e') ∧ console_ok c' e' ∧ same_console c c' ∧ env_drawn (writer_ c) e e'.
Proof.
  intros Hok. pose proof Hok as [Hr Hc Hcr Hcc Ht Hw HW HH Hwin]. unfold Newline. cbn [cursor_row_ set_cursor rows_ Console.window_ columns_].
  destruct (Z.ltb_spec (cursor_row_ c) (rows_ c - 1)) as [Hlt|Hge].
  { eexists _, e. split; [reflexivity|]. split; [|split; [by split|by apply env_drawn_refl]]. split; try done; simpl; lia. }
  unfold kMaxRows, kMaxColumns in *. destruct (Console.window_ c) as [p|] eqn:Ep.
  - specialize (Hwin p eq_refl). rewrite Hwin in Hw. destruct Hw as (w & Ew & Hs). unfold env_move. rewrite Ew. cbn [of_option mbind outcome_bind].
    unfold dev in HW, HH. rewrite Hwin in HW, HH. cbn [Width Height ConsoleWriter dev_ref dev_env] in HW, HH. rewrite Ew in HW, HH. simpl in HW, HH.
    set (mv := mkRect _ _).
    assert (Hmove : ∃ w', window_Move w (mkVec 0 0) mv = Done w' ∧ drawn_on w w').
    { destruct (decide (rows_ c = 1)) as [E1|E1].
      - unfold window_Move, fb_Move, mv. rewrite E1. cbn [vx vy rpos rsize Z.ltb Z.compare].
        change (Z.to_nat (16 * (1 - 1))) with 0%nat. exists w. split; [by destruct w as [? ? ? ? [? ?] ?]|by apply drawn_on_refl].
      - apply window_Move_sized; unfold mv; cbn [vx vy rpos rsize]; lia || done. }
    destruct Hmove as (w' & -> & Hd). cbn [mbind outcome_bind mret outcome_ret].
    set (e1 := mkEnv _ _ _). assert (Hd1 : env_drawn (writer_ c) e e1).
    { rewrite Hwin. split; [done|]. split; [done|]. by exists w, w'. }
    pose proof (console_ok_drawn _ _ _ Hok Hd1) as Hok1. pose proof (co_width _ _ Hok1). pose proof (co_height _ _ Hok1).
    destruct (through_rectangle c e1 (mkVec 0 (16 * (rows_ c - 1))) (mkVec (8 * columns_ c) 16) (bg_color_ c)) as (e2 & E2 & Hd2);
      [apply Hok1|cbn [vx vy]; lia..|].
    unfold through in E2 |- *. cbn [set_cursor writer_ rows_ columns_ bg_color_] in *. rewrite E2. cbn [mbind outcome_bind].
    eexists _, e2. split; [reflexivity|]. pose proof (console_ok_drawn _ _ _ Hok1 Hd2) as []. split; [|split; [by split|by eapply env_drawn_trans]].
    split; try done. simpl. lia.
  - destruct (through_rectangle c e (mkVec 0 0) (mkVec (8 * columns_ c) (16 * rows_ c)) (bg_color_ c)) as (e1 & E1 & Hd1);
      [done|cbn [vx vy]; lia..|].
    unfold through in E1 |- *. cbn [set_cursor writer_ rows_ columns_ bg_color_ fg_color_ buffer_ cursor_row_]. rewrite E1. cbn [mbind outcome_bind].
    destruct (for_loop_keeps (λ be, (∀ r, 0 ≤ r < rows_ c → row_ok (columns_ c) be.1 r) ∧ env_drawn (writer_ c) e be.2) 0 (rows_ c - 1)
      (λ row '(b, e), let b := buffer_copy_up b row (columns_ c + 1) in
        e ← through c e (λ d, font_string d (mkVec 0 (16 * row)) (buffer_row b row) (fg_color_ c)); mret (b, e)) (buffer_ c, e1))
      as ([b e2] & E2 & Hb & Hd2).
    + done.
    + intros r [b e2] Hrr [Hb Hd2]. cbn [fst snd] in *. pose proof (console_ok_drawn _ _ _ Hok Hd2) as Hok2.
      destruct (through_row c e2 (buffer_copy_up b r (columns_ c + 1)) r Hok2) as (e3 & -> & Hd3).
      { apply row_ok_copy_up; [done|apply Hb; lia..]. }
      { lia. }
      cbn [mbind outcome_bind]. eexists. split; [reflexivity|]. split; [|by eapply env_drawn_trans].
      intros r' Hr'. apply row_ok_copy_up; [done|apply Hb; lia..].
    + cbn [fst snd] in *. unfold through in E2. rewrite E2. cbn [mbind outcome_bind]. eexists _, e2. split; [reflexivity|].
      pose proof (console_ok_drawn _ _ _ Hok Hd2) as []. split; [|split; [by split|done]]. split; try done; simpl; [lia|].
      intros r Hrr. apply row_ok_clear; [done|]. intros _. by apply Hb.
Qed.

(** One ASCII character. *)
Lemma put_char_safe ch c e : ch = 10 ∨ ascii ch → console_ok c e →
  ∃ c' e', put_char ch (c, e) = Done (c', e') ∧ console_ok c' e' ∧ same_console c c' ∧ env_drawn (writer_ c) e e'.
Proof.
  intros Hch Hok. unfold put_char. destruct (Z.eqb_spec ch 10); [by apply Newline_safe|].
  destruct Hch as [|Hch]; [done|]. pose proof Hok as [Hr Hc Hcr Hcc Ht Hw HW HH Hwin].
  destruct (Z.ltb_spec (cursor_column_ c) (columns_ c - 1)) as [Hlt|Hge].
  2: { exists c, e. split_and!; [done|done|by apply same_console_refl|by apply env_drawn_refl]. }
  destruct (through_kept c e (λ d, font_ascii d (mkVec (8 * cursor_column_ c) (16 * cursor_row_ c)) ch (fg_color_ c)) Hw) as (e1 & -> & Hd1).
  { apply font_ascii_kept; [by apply dev_pw_ok|cbn [vx vy]; lia..]. }
  cbn [mbind outcome_bind]. unfold buffer_set, kMaxRows, kMaxColumns in *.
  rewrite (proj2 (arr_in_true 120 _)), (proj2 (arr_in_true row_length _)) by (unfold row_length, kMaxColumns; lia).
  cbn [andb mbind outcome_bind mret outcome_ret]. eexists _, e1. split; [reflexivity|].
  pose proof (console_ok_drawn _ _ _ Hok Hd1) as []. split; [|split; [by split|done]]. split; try done; simpl; [lia|].
  intros r Hrr j Hj. rewrite cell_set by (unfold row_length, kMaxColumns; lia). specialize (Ht r Hrr j Hj).
  case_decide as Hd; [|done]. split; [by right|]. lia.
Qed.

Lemma put_chars_safe s : Forall (λ ch, ch = 10 ∨ ascii ch) s → ∀ c e, console_ok c e →
  ∃ c' e', foldM put_char s (c, e) = Done (c', e') ∧ console_ok c' e' ∧ same_console c c' ∧ env_drawn (writer_ c) e e'.
Proof.
  induction 1 as [|ch s Hch Hs IH]; intros c e Hok.
  - exists c, e. split_and!; [done|done|apply same_console_refl|apply env_drawn_refl, Hok].
  - cbn [foldM]. destruct (put_char_safe ch c e Hch Hok) as (c1 & e1 & -> & Hok1 & Hs1 & Hd1). cbn [mbind outcome_bind].
    destruct (IH c1 e1 Hok1) as (c2 & e2 & -> & Hok2 & Hs2 & Hd2). exists c2, e2. split_and!; [done|done|by eapply same_console_trans|].
    rewrite (sc_writer _ _ Hs1) in Hd2. by eapply env_drawn_trans.
Qed.

(** Before there are layers, nothing else is drawn. *)
Lemma PutString_early c e s : Forall (λ ch, ch = 10 ∨ ascii ch) s → console_ok c e → env_manager e = None →
  ∃ c' e', PutString c e s = Done (c', e') ∧ console_ok c' e' ∧ same_console c c' ∧ env_drawn (writer_ c) e e'.
Proof.
  intros Hs Hok Hm. unfold PutString. destruct (put_chars_safe s Hs c e Hok) as (c' & e' & -> & Hok' & Hsc & Hd).
  cbn [mbind outcome_bind]. pose proof (ed_manager _ _ _ Hd) as Hm'. rewrite Hm, Hm' in *. by exists c', e'.
Qed.

(** With layers, the console's layer is drawn again. *)
Lemma PutString_layers c e lm s : Forall (λ ch, ch = 10 ∨ ascii ch) s → console_ok c e → env_manager e = Some lm →
  writer_ c ≠ ScreenWriter → lm_safe (env_windows e) lm → on_stack lm (Console.layer_id_ c) →
  ∃ c' e' lm', PutString c e s = Done (c', e') ∧ console_ok c' e' ∧ same_console c c' ∧ env_manager e' = Some lm' ∧
    lm_safe (env_windows e') lm' ∧ same_order lm lm' ∧
    ∃ p w w', writer_ c = WindowWriterOf p ∧ env_windows e !! p = Some w ∧ env_windows e' = <[p := w']> (env_windows e) ∧
      drawn_on w w' ∧ env_screen e' = env_screen e.
Proof.
  intros Hs Hok Hm Hne Hlm Hst. unfold PutString. destruct (put_chars_safe s Hs c e Hok) as (c' & e' & -> & Hok' & Hsc & Hd).
  cbn [mbind outcome_bind]. pose proof Hd as [Hm' Hdr]. rewrite Hm', Hm.
  destruct (writer_ c) as [| |p] eqn:Ew; [done|done|]. destruct Hdr as (Hscr & w & w' & Hw & Hw' & Hdw).
  assert (Hlm1 : lm_safe (env_windows e') lm) by (rewrite Hw'; by eapply lm_safe_drawn).
  rewrite (sc_layer _ _ Hsc). unfold Draw_layer.
  destruct (Draw_part_safe _ _ (Console.layer_id_ c) (mkRect (mkVec 0 0) (mkVec (-1) (-1))) Hlm1 Hst) as (lm' & -> & Hlm' & Hso & _).
  cbn [mbind outcome_bind mret outcome_ret]. eexists c', _, lm'. split; [reflexivity|].
  split; [|split; [done|]; split; [done|]; split; [done|]; split; [done|]; by exists p, w, w'].
  destruct Hok'. rewrite (sc_writer _ _ Hsc), Ew in *. by split; rewrite ?(sc_writer _ _ Hsc), ?Ew.
Qed.
End print.
End PrintFacts.
