(* ===== verification/File.v ===== *)
(** The interface of file descriptors and the functions written against it:
    src/kernel/file.{hpp,cpp}. *)
From S2P Require Import Prelude.

(** [class FileDescriptor], over the state that the calls read and change.
    [Read len] gives the bytes stored in the caller's buffer, so the count the C++
    function returns is their number; [Load] reads at an offset without moving the
    descriptor. *)
Class FileDescriptor (S : Type) := {
  Read : S → Z → outcome (list Z * S);
  Write : S → list Z → outcome (Z * S);
  Size : S → outcome Z;
  Load : S → Z → Z → outcome (list Z * S);
}.

Section file.
Context {S : Type} `{FileDescriptor S}.

(** [PrintToFD]: [text] is what [vsprintf] writes into the buffer of 128 bytes,
    together with its terminating zero. *)
Definition PrintToFD (fd : S) (text : list Z) : outcome (Z * S) :=
  if 128 <=? Z.of_nat (length text) then Undef
  else '(_, fd) ← Write fd text; mret (Z.of_nat (length text), fd).

(** The loop of [ReadDelim]: [k] turns are left, [acc] has been read. *)
Fixpoint read_delim_loop (k : nat) (fd : S) (delim : Z) (acc : list Z) : outcome (list Z * S) :=
  match k with
  | O => mret (acc, fd)
  | Datatypes.S k' =>
      '(bytes, fd) ← Read fd 1;
      match bytes with
      | [] => mret (acc, fd)
      | c :: _ => if c =? delim then mret (acc ++ [c], fd) else read_delim_loop k' fd delim (acc ++ [c])
      end
  end.

(** [ReadDelim]: the characters put before the terminating zero. *)
Definition ReadDelim (fd : S) (delim len : Z) : outcome (list Z * S) :=
  read_delim_loop (Z.to_nat (u64 (len - 1))) fd delim [].
End file.

(** ** What [ReadDelim] reads *)

(** A source that still has [rest] to deliver. *)
Class FileSource (S : Type) `{FileDescriptor S} := {
  rest : S → list Z → Prop;
  Read_empty s : rest s [] → ∃ s', Read s 1 = Done ([], s') ∧ rest s' [];
  Read_cons s c l : rest s (c :: l) → ∃ s', Read s 1 = Done ([c], s') ∧ rest s' l;
}.

(** The first line of [l], its delimiter included, of at most [n] bytes. *)
Fixpoint first_line (delim : Z) (n : nat) (l : list Z) : list Z :=
  match n, l with
  | Datatypes.S n, c :: l => if c =? delim then [c] else c :: first_line delim n l
  | _, _ => []
  end.

Lemma read_delim_loop_spec {S} `{FileSource S} delim k : ∀ fd l acc, rest fd l →
  ∃ fd', read_delim_loop k fd delim acc = Done (acc ++ first_line delim k l, fd') ∧
    rest fd' (drop (length (first_line delim k l)) l).
Proof.
  induction k as [|k IH]; intros fd l acc Hl; [exists fd; simpl; by rewrite app_nil_r|].
  cbn [read_delim_loop]. destruct l as [|c l].
  - destruct (Read_empty fd Hl) as (fd1 & -> & Hl1). simpl. exists fd1. by rewrite app_nil_r.
  - destruct (Read_cons fd c l Hl) as (fd1 & -> & Hl1). cbn [mbind outcome_bind first_line].
    destruct (c =? delim); [by exists fd1|].
    destruct (IH fd1 l (acc ++ [c]) Hl1) as (fd' & -> & Hl'). exists fd'. simpl. by rewrite <- app_assoc.
Qed.
