(* ===== verification/Fat.v ===== *)
(** The FAT32 file system on the volume image in memory: src/kernel/fat.{hpp,cpp}.
    The image is a block of bytes; the BIOS parameter block, the allocation table,
    directories and clusters are read from it by the address arithmetic of the
    source.  A C string is the list of its characters before the terminating
    zero. *)
From S2P Require Import Prelude ErrorCode.

(** The image that [boot_volume_image] points to, and the global
    [bytes_per_cluster]. *)
Record Volume : Set := mkVolume {
  image : gmap Z Z;
  image_len : Z;
  bytes_per_cluster : Z;
}.

(** ** Bytes of the image *)

Definition byte (v : Volume) (a : Z) : Z := arr_read (image v) a.

(** An access to [n] bytes at [a] stays in the image. *)
Definition in_image (v : Volume) (a n : Z) : bool := (0 <=? a) && (a + n <=? image_len v).

Definition put8 (v : Volume) (a x : Z) : Volume := mkVolume (<[a := u8 x]> (image v)) (image_len v) (bytes_per_cluster v).

(** Little-endian words at any address. *)
Definition get16 (v : Volume) (a : Z) : Z := byte v a + 256 * byte v (a + 1).
Definition get32 (v : Volume) (a : Z) : Z := get16 v a + 65536 * get16 v (a + 2).
Definition put16 (v : Volume) (a x : Z) : Volume := put8 (put8 v a x) (a + 1) (x / 256).
Definition put32 (v : Volume) (a x : Z) : Volume := put16 (put16 v a x) (a + 2) (x / 65536).

(** [memcpy] out of and into the image, [memset] in it. *)
Definition get_bytes (v : Volume) (a n : Z) : list Z := byte v <$> seqZ a n.
Definition put_bytes (v : Volume) (a : Z) (l : list Z) : Volume :=
  (foldl (λ '(v, a) x, (put8 v a x, a + 1)) (v, a) l).1.

Definition read_bytes (v : Volume) (a n : Z) : outcome (list Z) :=
  if in_image v a n then mret (get_bytes v a n) else Undef.
Definition write_bytes (v : Volume) (a : Z) (l : list Z) : outcome Volume :=
  if in_image v a (Z.of_nat (length l)) then mret (put_bytes v a l) else Undef.

(** ** The BIOS parameter block *)

Definition bytes_per_sector (v : Volume) : Z := get16 v 11.
Definition sectors_per_cluster (v : Volume) : Z := byte v 13.
Definition reserved_sector_count (v : Volume) : Z := get16 v 14.
Definition num_fats (v : Volume) : Z := byte v 16.
Definition fat_size_32 (v : Volume) : Z := get32 v 36.
Definition root_cluster (v : Volume) : Z := get32 v 44.

(** [Initialize] *)
Definition Initialize (img : gmap Z Z) (len : Z) : Volume :=
  let v := mkVolume img len 0 in mkVolume img len (u64 (bytes_per_sector v * sectors_per_cluster v)).

(** [GetClusterAddr], as an offset into the image. *)
Definition GetClusterAddr (v : Volume) (cluster : Z) : Z :=
  let sector_num :=
    u64 (u32 (reserved_sector_count v + u32 (num_fats v * fat_size_32 v)) +
         u64 (u64 (cluster - 2) * sectors_per_cluster v)) in
  u64 (sector_num * bytes_per_sector v).

(** [GetFAT], as an offset. *)
Definition GetFAT (v : Volume) : Z := reserved_sector_count v * bytes_per_sector v.

(** [fat[i]] and [fat[i] = x] *)
Definition fat_get (v : Volume) (i : Z) : outcome Z :=
  let a := GetFAT v + 4 * i in if in_image v a 4 then mret (get32 v a) else Undef.
Definition fat_set (v : Volume) (i x : Z) : outcome Volume :=
  let a := GetFAT v + 4 * i in if in_image v a 4 then mret (put32 v a x) else Undef.

(** ** Directory entries *)

(** [sizeof(DirectoryEntry)] and the attributes. *)
Definition kEntrySize : Z := 32.
Definition kReadOnly : Z := 0x01.
Definition kHidden : Z := 0x02.
Definition kSystem : Z := 0x04.
Definition kVolumeID : Z := 0x08.
Definition kDirectory : Z := 0x10.
Definition kArchive : Z := 0x20.
Definition kLongName : Z := 0x0f.

(** The fields of the entry at [e]. *)
Definition entry_name (v : Volume) (e : Z) : list Z := get_bytes v e 11.
Definition entry_attr (v : Volume) (e : Z) : Z := byte v (e + 11).
Definition first_cluster_high (v : Volume) (e : Z) : Z := get16 v (e + 20).
Definition first_cluster_low (v : Volume) (e : Z) : Z := get16 v (e + 26).
Definition file_size (v : Volume) (e : Z) : Z := get32 v (e + 28).

Definition FirstCluster (v : Volume) (e : Z) : Z :=
  Z.lor (first_cluster_low v e) (Z.shiftl (first_cluster_high v e) 16).

(** ** Names *)

Definition space : Z := 0x20.
Definition dot : Z := 46.
Definition slash : Z := 47.

Definition toupper (c : Z) : Z := if (97 <=? c) && (c <=? 122) then c - 32 else c.

(** Spaces at the head become zeros; at the tail: the loops of [ReadName]. *)
Fixpoint zero_spaces (l : list Z) : list Z :=
  match l with
  | x :: l' => if x =? space then 0 :: zero_spaces l' else l
  | [] => []
  end.
Definition zero_tail (l : list Z) : list Z := rev (zero_spaces (rev l)).

(** The characters before the first zero. *)
Fixpoint cstr (l : list Z) : list Z :=
  match l with
  | x :: l' => if x =? 0 then [] else x :: cstr l'
  | [] => []
  end.

(** [ReadName]: the arrays [base] and [ext], each with its last zero. *)
Definition ReadName (name : list Z) : list Z * list Z :=
  (zero_tail (take 8 name) ++ [0], zero_tail (drop 8 name) ++ [0]).

Definition FormatName (name : list Z) : list Z :=
  let '(base, ext) := ReadName name in
  match cstr ext with
  | [] => cstr base
  | e => cstr base ++ dot :: e
  end.

(** The loop of [NameIsEqual] that fills [name83]. *)
Fixpoint name83_loop (name : list Z) (i83 : nat) (name83 : list Z) : list Z :=
  match name with
  | [] => name83
  | c :: name' =>
      if (i83 <? 11)%nat then
        if c =? dot then name83_loop name' 8 name83
        else name83_loop name' (S i83) (<[i83 := toupper c]> name83)
      else name83
  end.

Definition NameIsEqual (entry : list Z) (name : list Z) : bool :=
  bool_decide (entry = name83_loop name 0 (replicate 11 space)).

(** [strrchr]: what comes before and after the last [c]. *)
Fixpoint split_last (c : Z) (l : list Z) : option (list Z * list Z) :=
  match l with
  | [] => None
  | x :: l' =>
      match split_last c l' with
      | Some (a, b) => Some (x :: a, b)
      | None => if x =? c then Some ([], l') else None
      end
  end.

(** [strchr] *)
Fixpoint split_first (c : Z) (l : list Z) : option (list Z * list Z) :=
  match l with
  | [] => None
  | x :: l' => if x =? c then Some ([], l') else
      match split_first c l' with Some (a, b) => Some (x :: a, b) | None => None end
  end.

(** [l] cut or padded with spaces to [n] characters. *)
Definition pad (n : nat) (l : list Z) : list Z := take n (l ++ replicate n space).

(** [SetFileName]: the eleven bytes of the name. *)
Definition SetFileName (name : list Z) : list Z :=
  match split_last dot name with
  | Some (base, ext) => pad 8 (toupper <$> take 8 base) ++ pad 3 (toupper <$> take 3 ext)
  | None => pad 8 (toupper <$> take 8 name) ++ pad 3 []
  end.

(** ** Cluster chains *)

Definition kEndOfClusterchain : Z := 0x0fffffff.
Definition IsEndOfClusterchain (cluster : Z) : bool := 0x0ffffff8 <=? cluster.

Definition NextCluster (v : Volume) (cluster : Z) : outcome Z :=
  next ← fat_get v cluster;
  mret (if IsEndOfClusterchain next then kEndOfClusterchain else next).

(** The first loop of [ExtendCluster]: the last cluster of the chain. *)
Fixpoint chain_end (fuel : nat) (v : Volume) (cluster : Z) : outcome Z :=
  match fuel with
  | O => NoFuel
  | S fuel' =>
      next ← fat_get v cluster;
      if IsEndOfClusterchain next then mret cluster else chain_end fuel' v next
  end.

(** Its second loop: [left] clusters are still to be found, from [candidate] on. *)
Fixpoint extend_loop (fuel : nat) (v : Volume) (left candidate current : Z) : outcome (Z * Volume) :=
  if left <=? 0 then mret (current, v)
  else
    match fuel with
    | O => NoFuel
    | S fuel' =>
        x ← fat_get v candidate;
        if negb (x =? 0) then extend_loop fuel' v left (candidate + 1) current
        else
          v ← fat_set v current candidate;
          extend_loop fuel' v (left - 1) (candidate + 1) candidate
    end.

(** A chain without a cycle is no longer than the table, and a search leaves the
    image after as many steps as it has words: the fuel of every loop over the
    table. *)
Definition table_fuel (v : Volume) : nat := Z.to_nat (image_len v / 4 + 1).

Definition ExtendCluster (v : Volume) (eoc_cluster n : Z) : outcome (Z * Volume) :=
  last ← chain_end (table_fuel v) v eoc_cluster;
  '(current, v) ← extend_loop (table_fuel v) v n 2 last;
  v ← fat_set v current kEndOfClusterchain;
  mret (current, v).

(** The search of [AllocateClusterChain]. *)
Fixpoint first_free (fuel : nat) (v : Volume) (cluster : Z) : outcome Z :=
  match fuel with
  | O => NoFuel
  | S fuel' => x ← fat_get v cluster; if x =? 0 then mret cluster else first_free fuel' v (cluster + 1)
  end.

Definition AllocateClusterChain (v : Volume) (n : Z) : outcome (Z * Volume) :=
  first_cluster ← first_free (table_fuel v) v 2;
  v ← fat_set v first_cluster kEndOfClusterchain;
  if 1 <? n then '(_, v) ← ExtendCluster v first_cluster (n - 1); mret (first_cluster, v)
  else mret (first_cluster, v).

(** ** Paths *)

(** [NextPathElement] with [path_elem] of 13 characters: the rest of the path and
    whether a slash was seen. *)
Definition NextPathElement (path : list Z) : outcome (list Z * option (list Z) * bool) :=
  let '(elem, next, post) :=
    match split_first slash path with
    | None => (path, None, false)
    | Some (elem, next) => (elem, Some next, true)
    end in
  if 13 <=? Z.of_nat (length elem) then Undef else mret (elem, next, post).

(** What the loop over the entries of one cluster finds. *)
Inductive scan : Set := ScanEnd | ScanFound (entry : Z) | ScanNext.

Fixpoint scan_entries (k : nat) (v : Volume) (e : Z) (elem : list Z) : outcome scan :=
  match k with
  | O => mret ScanNext
  | S k' =>
      name ← read_bytes v e 11;
      if default 0 (head name) =? 0 then mret ScanEnd
      else if NameIsEqual name elem then mret (ScanFound e)
      else scan_entries k' v (e + kEntrySize) elem
  end.

Definition entries_per_cluster (v : Volume) : nat := Z.to_nat (bytes_per_cluster v / kEntrySize).

(** The loop over the clusters of a directory. *)
Fixpoint scan_clusters (fuel : nat) (v : Volume) (cluster : Z) (elem : list Z) : outcome (option Z) :=
  match fuel with
  | O => NoFuel
  | S fuel' =>
      if cluster =? kEndOfClusterchain then mret None
      else
        r ← scan_entries (entries_per_cluster v) v (GetClusterAddr v cluster) elem;
        match r with
        | ScanEnd => mret None
        | ScanFound e => mret (Some e)
        | ScanNext => next ← NextCluster v cluster; scan_clusters fuel' v next elem
        end
  end.

(** [FindFile]; every call takes a character off the path. *)
Fixpoint find_file (fuel : nat) (v : Volume) (path : list Z) (directory_cluster : Z) : outcome (option Z * bool) :=
  match fuel with
  | O => NoFuel
  | S fuel' =>
      let '(directory_cluster, path) :=
        if default 0 (head path) =? slash then (root_cluster v, tail path)
        else if directory_cluster =? 0 then (root_cluster v, path)
        else (directory_cluster, path) in
      '(elem, next, post_slash) ← NextPathElement path;
      let path_last := match next with None => true | Some p => default 0 (head p) =? 0 end in
      found ← scan_clusters (table_fuel v + 1) v directory_cluster elem;
      match found with
      | None => mret (None, post_slash)
      | Some e =>
          if (entry_attr v e =? kDirectory) && negb path_last
          then find_file fuel' v (default [] next) (FirstCluster v e)
          else mret (Some e, post_slash)
      end
  end.

Definition FindFile (v : Volume) (path : list Z) (directory_cluster : Z) : outcome (option Z * bool) :=
  find_file (S (length path)) v path directory_cluster.

(** ** Creating files *)

(** The loop of [AllocateEntry] over one cluster. *)
Fixpoint free_entry (k : nat) (v : Volume) (e : Z) : outcome (option Z) :=
  match k with
  | O => mret None
  | S k' =>
      c ← read_bytes v e 1;
      if (default 0 (head c) =? 0) || (default 0 (head c) =? 0xe5) then mret (Some e)
      else free_entry k' v (e + kEntrySize)
  end.

Fixpoint allocate_entry_loop (fuel : nat) (v : Volume) (dir_cluster : Z) : outcome (Z * Volume) :=
  match fuel with
  | O => NoFuel
  | S fuel' =>
      found ← free_entry (entries_per_cluster v) v (GetClusterAddr v dir_cluster);
      match found with
      | Some e => mret (e, v)
      | None =>
          next ← NextCluster v dir_cluster;
          if next =? kEndOfClusterchain then
            '(dir_cluster, v) ← ExtendCluster v dir_cluster 1;
            let dir := GetClusterAddr v dir_cluster in
            v ← write_bytes v dir (replicate (Z.to_nat (bytes_per_cluster v)) 0);
            mret (dir, v)
          else allocate_entry_loop fuel' v next
      end
  end.

Definition AllocateEntry (v : Volume) (dir_cluster : Z) : outcome (Z * Volume) :=
  allocate_entry_loop (table_fuel v) v dir_cluster.

(** [CreateFile]; [AllocateEntry] never gives null. *)
Definition CreateFile (v : Volume) (path : list Z) : outcome (WithError (option Z) * Volume) :=
  let create v parent_dir_cluster filename :=
    '(dir, v) ← AllocateEntry v parent_dir_cluster;
    v ← write_bytes v dir (replicate (Z.to_nat kEntrySize) 0);
    v ← write_bytes v dir (SetFileName filename);
    mret (mkWithError (Some dir) kSuccess, put32 v (dir + 28) 0) in
  match split_last slash path with
  | None => create v (root_cluster v) path
  | Some (_, []) => mret (mkWithError None kIsDirectory, v)
  | Some ([], filename) => create v (root_cluster v) filename
  | Some (parent_dir_name, filename) =>
      '(parent_dir, _) ← FindFile v parent_dir_name 0;
      match parent_dir with
      | None => mret (mkWithError None kNoSuchEntry, v)
      | Some e => create v (FirstCluster v e) filename
      end
  end.

(** ** Well-formed volumes *)
Module VolFacts.

(** Where the clusters begin, and cluster [c] (from 2 on). *)
Definition data_start (v : Volume) : Z :=
  (reserved_sector_count v + num_fats v * fat_size_32 v) * bytes_per_sector v.
Definition cluster_start (v : Volume) (c : Z) : Z := data_start v + (c - 2) * bytes_per_cluster v.

(** A volume whose table has [N] entries, for the clusters 2 to [N - 1], which lie
    in the image behind it. *)
Record vol_ok (N : Z) (v : Volume) : Prop := {
  vo_sector : 1 ≤ bytes_per_sector v;
  vo_sectors : 1 ≤ sectors_per_cluster v;
  vo_cluster : bytes_per_cluster v = bytes_per_sector v * sectors_per_cluster v;
  vo_bpb : 90 ≤ GetFAT v;
  vo_table : GetFAT v + 4 * N ≤ data_start v;
  vo_count : 2 ≤ N < 0x0ffffff8;
  vo_end : cluster_start v N ≤ image_len v;
  vo_small : image_len v < 2 ^ 32;
  vo_bytes a : 0 ≤ byte v a < 256;
}.

(** The word of the table. *)
Definition fat_val (v : Volume) (i : Z) : Z := get32 v (GetFAT v + 4 * i).

(** *** Bytes and words *)

Lemma byte_put8 v a x b : byte (put8 v a x) b = if decide (a = b) then u8 x else byte v b.
Proof. unfold byte, put8. simpl. apply arr_read_set. Qed.

Lemma byte_put16 v a x b : b ≠ a → b ≠ a + 1 → byte (put16 v a x) b = byte v b.
Proof. intros. unfold put16. by rewrite !byte_put8, !decide_False by lia. Qed.

Lemma byte_put32 v a x b : ¬ (a ≤ b < a + 4) → byte (put32 v a x) b = byte v b.
Proof. intros. unfold put32. by rewrite !byte_put16 by lia. Qed.

Lemma get16_put16 v a x : get16 (put16 v a x) a = u16 x.
Proof.
  unfold get16, put16. rewrite !byte_put8, (decide_False (P := a + 1 = a)), !decide_True by lia.
  unfold wrap. dlia.
Qed.

Lemma get16_put16_other v a b x : b + 2 ≤ a ∨ a + 2 ≤ b → get16 (put16 v a x) b = get16 v b.
Proof. intros. unfold get16. by rewrite !byte_put16 by lia. Qed.

Lemma get32_put32 v a x : get32 (put32 v a x) a = u32 x.
Proof.
  unfold get32, put32. rewrite get16_put16_other, !get16_put16 by lia. unfold wrap. dlia.
Qed.

Lemma get32_agree v v' a : (∀ b, a ≤ b < a + 4 → byte v' b = byte v b) → get32 v' a = get32 v a.
Proof. intros H. unfold get32, get16. by rewrite !H by lia. Qed.

Lemma get16_agree v v' a : (∀ b, a ≤ b < a + 2 → byte v' b = byte v b) → get16 v' a = get16 v a.
Proof. intros H. unfold get16. by rewrite !H by lia. Qed.

Lemma get32_range v a : (∀ b, 0 ≤ byte v b < 256) → 0 ≤ get32 v a < 2 ^ 32.
Proof.
  intros H. unfold get32, get16. pose proof (H a). pose proof (H (a + 1)). pose proof (H (a + 2)).
  pose proof (H (a + 2 + 1)). lia.
Qed.

Lemma get16_range v a : (∀ b, 0 ≤ byte v b < 256) → 0 ≤ get16 v a < 2 ^ 16.
Proof. intros H. unfold get16. pose proof (H a). pose proof (H (a + 1)). lia. Qed.

(** Byte [b] after [put_bytes]. *)
Lemma byte_put_bytes v a l b : byte (put_bytes v a l) b =
  if decide (a ≤ b < a + Z.of_nat (length l)) then u8 (l !!! Z.to_nat (b - a)) else byte v b.
Proof.
  unfold put_bytes. revert v a. induction l as [|x l IH]; intros v a; simpl.
  - by rewrite decide_False by lia.
  - rewrite IH, byte_put8. destruct (decide (a = b)) as [->|Hne].
    + rewrite decide_False, decide_True by lia. by rewrite Z.sub_diag.
    + destruct (decide (a + 1 ≤ b < a + 1 + Z.of_nat (length l))).
      * rewrite decide_True by lia. by replace (Z.to_nat (b - a)) with (S (Z.to_nat (b - (a + 1)))) by lia.
      * by rewrite decide_False by lia.
Qed.

Lemma put_bytes_meta v a l : image_len (put_bytes v a l) = image_len v ∧ bytes_per_cluster (put_bytes v a l) = bytes_per_cluster v.
Proof. unfold put_bytes. revert v a. induction l as [|x l IH]; intros v a; simpl; [done|]. apply (IH (put8 v a x)). Qed.

Lemma put_bytes_range v a l : (∀ b, 0 ≤ byte v b < 256) → ∀ b, 0 ≤ byte (put_bytes v a l) b < 256.
Proof. intros H b. rewrite byte_put_bytes. case_decide; [|done]. apply (wrap_bound 8). lia. Qed.

Lemma put32_range v a x : (∀ b, 0 ≤ byte v b < 256) → ∀ b, 0 ≤ byte (put32 v a x) b < 256.
Proof.
  intros H b. unfold put32, put16. rewrite !byte_put8. repeat case_decide; try done; apply (wrap_bound 8); lia.
Qed.

(** *** Changes that keep the geometry *)

(** [v'] has the parameters of [v] and bytes of its own. *)
Record same_geometry (v v' : Volume) : Prop := {
  sg_len : image_len v' = image_len v;
  sg_bpc : bytes_per_cluster v' = bytes_per_cluster v;
  sg_bpb a : 0 ≤ a < 90 → byte v' a = byte v a;
}.

#[export] Instance same_geometry_preorder : PreOrder same_geometry.
Proof.
  split; [by split|]. intros a b c [H1 H2 H3] [H4 H5 H6]. split; [congruence|congruence|].
  intros x Hx. by rewrite H6, H3.
Qed.

Lemma geometry v v' : same_geometry v v' →
  bytes_per_sector v' = bytes_per_sector v ∧ sectors_per_cluster v' = sectors_per_cluster v ∧
  GetFAT v' = GetFAT v ∧ data_start v' = data_start v ∧ (∀ c, cluster_start v' c = cluster_start v c).
Proof.
  intros [Hl Hc Hb].
  assert (E16 : ∀ a, 0 ≤ a < 80 → get16 v' a = get16 v a) by (intros; apply get16_agree; intros; apply Hb; lia).
  assert (E32 : ∀ a, 0 ≤ a < 80 → get32 v' a = get32 v a) by (intros; apply get32_agree; intros; apply Hb; lia).
  unfold cluster_start, data_start, GetFAT, bytes_per_sector, sectors_per_cluster, reserved_sector_count, num_fats, fat_size_32.
  rewrite !E16, !E32, !Hb, Hc by lia. done.
Qed.

Lemma vol_ok_same N v v' : vol_ok N v → same_geometry v v' → (∀ a, 0 ≤ byte v' a < 256) → vol_ok N v'.
Proof.
  intros [] Hs Hr. destruct (geometry _ _ Hs) as (E1 & E2 & E3 & E4 & E5). destruct Hs as [Hl Hc _].
  split; rewrite ?E1, ?E2, ?E3, ?E4, ?E5, ?Hl, ?Hc; done.
Qed.

Lemma bpc_pos N v : vol_ok N v → 1 ≤ bytes_per_cluster v.
Proof. intros []. rewrite vo_cluster0. nia. Qed.

Lemma cluster_bounds N v c : vol_ok N v → 2 ≤ c < N →
  data_start v ≤ cluster_start v c ∧ cluster_start v c + bytes_per_cluster v ≤ image_len v.
Proof.
  intros Hok Hc. pose proof (bpc_pos N v Hok). destruct Hok. unfold cluster_start in *. nia.
Qed.

(** The clusters do not overlap. *)
Lemma cluster_apart N v c d i j : vol_ok N v → 0 ≤ i < bytes_per_cluster v → 0 ≤ j < bytes_per_cluster v →
  cluster_start v c + i = cluster_start v d + j → c = d ∧ i = j.
Proof. intros Hok Hi Hj. unfold cluster_start. intros H. assert (c = d) by nia. subst. lia. Qed.

Lemma GetClusterAddr_eq N v c : vol_ok N v → 2 ≤ c < N → GetClusterAddr v c = cluster_start v c.
Proof.
  intros Hok Hc. destruct (cluster_bounds N v c Hok Hc) as [Hlo Hhi]. pose proof (bpc_pos N v Hok).
  destruct Hok. unfold GetClusterAddr. unfold cluster_start, data_start in *. rewrite vo_cluster0 in *.
  assert (Hr : ∀ a, 0 ≤ get16 v a) by (intros a; apply get16_range, vo_bytes0).
  assert (Hf : 0 ≤ fat_size_32 v) by apply get32_range, vo_bytes0.
  assert (Hn : 0 ≤ num_fats v) by apply vo_bytes0. assert (Hrs : 0 ≤ reserved_sector_count v) by apply Hr.
  set (R := reserved_sector_count v) in *. set (F := num_fats v * fat_size_32 v) in *.
  assert (HF : 0 ≤ F) by (by apply Z.mul_nonneg_nonneg).
  set (B := bytes_per_sector v) in *. set (S := sectors_per_cluster v) in *.
  assert (Hsum : 0 ≤ R + F + (c - 2) * S < 2 ^ 32) by nia.
  assert (HS : 0 ≤ (c - 2) * S) by nia.
  rewrite (wrap_small 64 (c - 2)), (wrap_small 64 ((c - 2) * S)) by lia.
  rewrite (wrap_small 32 F), (wrap_small 32 (R + F)), (wrap_small 64 (R + F + _)) by lia.
  rewrite wrap_small by nia. ring.
Qed.

(** *** The table *)

Lemma fat_get_ok N v i : vol_ok N v → 0 ≤ i < N → fat_get v i = Done (fat_val v i).
Proof.
  intros Hok Hi. unfold fat_get, in_image. pose proof (bpc_pos N v Hok) as Hp. destruct Hok. unfold cluster_start in *.
  destruct (Z.leb_spec 0 (GetFAT v + 4 * i)); [|lia]. destruct (Z.leb_spec (GetFAT v + 4 * i + 4) (image_len v)); [done|nia].
Qed.

(** [v'] is [v] with the words of the table as [f] says. *)
Record table_set (N : Z) (f : Z → Z) (v v' : Volume) : Prop := {
  ts_ok : vol_ok N v';
  ts_geometry : same_geometry v v';
  ts_val i : 0 ≤ i < N → fat_val v' i = f i;
  ts_data a : ¬ (GetFAT v ≤ a < GetFAT v + 4 * N) → byte v' a = byte v a;
}.

Lemma table_set_refl N v : vol_ok N v → table_set N (fat_val v) v v.
Proof. intros. by split. Qed.

Lemma table_set_trans N f g v1 v2 v3 : table_set N f v1 v2 → table_set N g v2 v3 → table_set N g v1 v3.
Proof.
  intros [A1 A2 A3 A4] [B1 B2 B3 B4]. destruct (geometry _ _ A2) as (_ & _ & E & _).
  split; [done|by etrans|done|]. intros a Ha. rewrite B4, A4 by (rewrite ?E; done). done.
Qed.

Lemma table_set_ext N f g v v' : (∀ i, 0 ≤ i < N → f i = g i) → table_set N f v v' → table_set N g v v'.
Proof. intros H []. split; [done|done| |done]. intros i Hi. by rewrite ts_val0, H. Qed.

Definition upd (f : Z → Z) (c x : Z) : Z → Z := λ i, if decide (i = c) then x else f i.

Lemma fat_set_ok N v i x : vol_ok N v → 0 ≤ i < N → 0 ≤ x < 2 ^ 32 →
  ∃ v', fat_set v i x = Done v' ∧ table_set N (upd (fat_val v) i x) v v'.
Proof.
  intros Hok Hi Hx. unfold fat_set.
  assert (Hin : in_image v (GetFAT v + 4 * i) 4 = true).
  { pose proof (fat_get_ok N v i Hok Hi) as H. unfold fat_get in H. by destruct (in_image _ _ _). }
  rewrite Hin. eexists. split; [reflexivity|]. set (a := GetFAT v + 4 * i).
  assert (Hsg : same_geometry v (put32 v a x)).
  { split; [done|done|]. intros b Hb. apply byte_put32. destruct Hok. lia. }
  destruct (geometry _ _ Hsg) as (_ & _ & EF & _). split; [|done| |].
  - eapply vol_ok_same; [done|done|]. apply put32_range, Hok.
  - intros j Hj. unfold fat_val, upd. rewrite EF. destruct (decide (j = i)) as [->|Hne].
    + fold a. rewrite get32_put32. by apply wrap_small.
    + apply get32_agree. intros b Hb. apply byte_put32. lia.
  - intros b Hb. apply byte_put32. lia.
Qed.

Lemma fat_val_range N v i : vol_ok N v → 0 ≤ fat_val v i < 2 ^ 32.
Proof. intros []. by apply get32_range. Qed.
End VolFacts.

(** ** Chains of clusters *)
Module ChainFacts.
Import VolFacts.

(** [l] is the chain that starts with its first cluster, by the table [f]. *)
Fixpoint is_chain (N : Z) (f : Z → Z) (l : list Z) : Prop :=
  match l with
  | [] => False
  | c :: l' =>
      2 ≤ c < N ∧
      match l' with
      | [] => 0x0ffffff8 ≤ f c
      | d :: _ => f c = d ∧ is_chain N f l'
      end
  end.

(** The free clusters from [c] on, in order. *)
Definition free_from (N : Z) (f : Z → Z) (c : Z) : list Z := filter (λ i, f i = 0) (seqZ c (N - c)).

(** The table after its clusters [c :: l] have been linked one to the next. *)
Fixpoint link (f : Z → Z) (c : Z) (l : list Z) : Z → Z :=
  match l with
  | [] => f
  | d :: l' => link (upd f c d) d l'
  end.

Lemma is_chain_range N f l c : is_chain N f l → c ∈ l → 2 ≤ c < N.
Proof.
  induction l as [|d l IH]; [done|]. intros [Hd Hl] [->|Hc]%elem_of_cons; [done|].
  destruct l as [|e l]; [set_solver|]. apply IH; [apply Hl|done].
Qed.

Lemma is_chain_nonzero N f l c : is_chain N f l → c ∈ l → f c ≠ 0.
Proof.
  induction l as [|d l IH]; [done|]. intros [Hd Hl] Hc. apply elem_of_cons in Hc as [->|Hc].
  - destruct l as [|e l]; [lia|]. destruct Hl as [-> Hl].
    assert (2 ≤ e < N) by (eapply is_chain_range; [exact Hl|set_solver]). lia.
  - destruct l as [|e l]; [set_solver|]. by apply IH; [apply Hl|].
Qed.

Lemma is_chain_ext N f g l : (∀ c, c ∈ l → f c = g c) → is_chain N f l → is_chain N g l.
Proof.
  induction l as [|c l IH]; [done|]. intros Hfg [Hc Hl]. split; [done|].
  assert (Hcc : g c = f c) by (symmetry; apply Hfg; set_solver). destruct l as [|d l]; [by rewrite Hcc|].
  destruct Hl as [Hd Hl]. split; [congruence|]. apply IH; [|done]. intros x Hx. apply Hfg. set_solver.
Qed.

(** The table says how a chain goes on. *)
Lemma is_chain_det N f l1 : N < 0x0ffffff8 → ∀ l2, is_chain N f l1 → is_chain N f l2 → head l1 = head l2 → l1 = l2.
Proof.
  intros HN. induction l1 as [|c l1 IH]; intros [|d l2] H1 H2 Hh; try done. injection Hh as ->.
  destruct H1 as [_ H1], H2 as [_ H2]. f_equal.
  destruct l1 as [|e1 l1], l2 as [|e2 l2]; [done| | |].
  - destruct H2 as [Hd [He _]]. lia.
  - destruct H1 as [Hd [He _]]. lia.
  - destruct H1 as [Hd1 H1], H2 as [Hd2 H2]. apply IH; [done..|]. simpl. congruence.
Qed.

Lemma is_chain_suffix N f l1 l2 : l2 ≠ [] → is_chain N f (l1 ++ l2) → is_chain N f l2.
Proof.
  intros Hne. induction l1 as [|c l1 IH]; [done|]. intros [_ H]. destruct (l1 ++ l2) as [|d l] eqn:E.
  - apply app_eq_nil in E as [_ ->]. done.
  - apply IH. apply H.
Qed.

(** A chain does not come back to a cluster. *)
Lemma is_chain_NoDup N f l : N < 0x0ffffff8 → is_chain N f l → NoDup l.
Proof.
  intros HN. induction l as [|c l IH]; [done|]. intros H. apply NoDup_cons. split.
  - intros Hc. apply list_elem_of_split in Hc as (l1 & l2 & ->).
    assert (Hs : is_chain N f (c :: l2)) by (apply (is_chain_suffix N f (c :: l1)); [done|exact H]).
    pose proof (is_chain_det N f _ HN _ H Hs eq_refl) as Heq. apply (f_equal length) in Heq. simpl in Heq.
    rewrite length_app in Heq. simpl in Heq. lia.
  - destruct l as [|d l]; [apply NoDup_nil_2|]. apply IH, H.
Qed.

Lemma bounded_length N l : NoDup l → (∀ c, c ∈ l → 2 ≤ c < N) → Z.of_nat (length l) ≤ Z.max 0 (N - 2).
Proof.
  intros Hnd Hl. assert (Hs : l ⊆+ seqZ 2 (N - 2)).
  { apply NoDup_submseteq; [done|]. intros x Hx. apply elem_of_seqZ. specialize (Hl x Hx). lia. }
  apply submseteq_length in Hs. rewrite length_seqZ in Hs. lia.
Qed.

Lemma is_chain_length N f l : 2 ≤ N < 0x0ffffff8 → is_chain N f l → Z.of_nat (length l) ≤ N - 2.
Proof.
  intros HN Hl. pose proof (bounded_length N l (is_chain_NoDup N f l ltac:(lia) Hl) (λ c, is_chain_range N f l c Hl)). lia.
Qed.

(** Appending to a chain at its last cluster. *)
Lemma is_chain_join N f g l z F : is_chain N f (l ++ [z]) → (∀ c, c ∈ l → g c = f c) → is_chain N g (z :: F) →
  is_chain N g (l ++ z :: F).
Proof.
  intros Hl Hfg HF. induction l as [|a l IH]; [done|]. destruct Hl as [Ha Hl].
  assert (Hga : g a = f a) by (apply Hfg; set_solver). split; [done|].
  destruct l as [|b l]; simpl in *; (split; [rewrite Hga; apply Hl|]); [done|].
  apply IH; [apply Hl|set_solver].
Qed.

Lemma free_from_cons N f c : c < N →
  free_from N f c = (if decide (f c = 0) then [c] else []) ++ free_from N f (c + 1).
Proof.
  intros Hc. unfold free_from. rewrite seqZ_cons by lia. replace (Z.succ c) with (c + 1) by lia.
  replace (Z.pred (N - c)) with (N - (c + 1)) by lia.
  case_decide; [by rewrite filter_cons_True|by rewrite filter_cons_False].
Qed.

Lemma free_from_nil N f c : N ≤ c → free_from N f c = [].
Proof. intros. unfold free_from. by rewrite seqZ_nil by lia. Qed.

Lemma elem_of_free N f c x : x ∈ free_from N f c ↔ c ≤ x < N ∧ f x = 0.
Proof. unfold free_from. rewrite list_elem_of_filter, elem_of_seqZ. lia. Qed.

Lemma filter_ext_in {A} (P Q : A → Prop) `{∀ x, Decision (P x)} `{∀ x, Decision (Q x)} (l : list A) :
  (∀ x, x ∈ l → P x ↔ Q x) → filter P l = filter Q l.
Proof.
  induction l as [|x l IH]; intros HPQ; [done|]. assert (Hx : P x ↔ Q x) by (apply HPQ; set_solver).
  destruct (decide (P x)) as [HP|HP].
  - rewrite !filter_cons_True by tauto. f_equal. apply IH. set_solver.
  - rewrite !filter_cons_False by tauto. apply IH. set_solver.
Qed.

Lemma free_from_ext N f g c : (∀ x, c ≤ x < N → f x = 0 ↔ g x = 0) → free_from N f c = free_from N g c.
Proof. intros H. apply filter_ext_in. intros x Hx%elem_of_seqZ. apply H. lia. Qed.

Lemma NoDup_free N f c : NoDup (free_from N f c).
Proof. apply NoDup_filter, NoDup_seqZ. Qed.

Lemma link_ext N f g c l : (∀ x, 0 ≤ x < N → f x = g x) → ∀ x, 0 ≤ x < N → link f c l x = link g c l x.
Proof.
  revert f g c. induction l as [|d l IH]; intros f g c H x Hx; [by apply H|]. simpl. apply IH; [|done].
  intros y Hy. unfold upd. by rewrite H.
Qed.

(** Linking touches only the clusters linked. *)
Lemma link_other f c l x : x ∉ c :: l → link f c l x = f x.
Proof.
  revert f c. induction l as [|d l IH]; intros f c Hx; [done|]. simpl.
  rewrite IH by set_solver. unfold upd. rewrite decide_False; [done|]. set_solver.
Qed.

(** The clusters linked form a chain once the last ends it. *)
Lemma link_chain N f c l e : NoDup (c :: l) → (∀ x, x ∈ c :: l → 2 ≤ x < N) → 0x0ffffff8 ≤ e →
  is_chain N (upd (link f c l) (List.last l c) e) (c :: l).
Proof.
  revert f c. induction l as [|d l IH]; intros f c Hnd Hr He.
  - split; [apply Hr; set_solver|]. unfold upd. simpl. by rewrite decide_True.
  - apply NoDup_cons in Hnd as [Hc Hnd]. split; [apply Hr; set_solver|].
    specialize (IH (upd f c d) d Hnd ltac:(set_solver) He).
    assert (Hlast : List.last (d :: l) c = List.last l d).
    { clear. destruct l as [|x l _] using rev_ind; [done|]. rewrite List.last_last. apply (List.last_last (d :: l)). }
    rewrite Hlast. split; [|exact IH].
    assert (Hin : List.last l d ∈ d :: l).
    { clear. destruct l as [|x l _] using rev_ind; [set_solver|]. rewrite List.last_last. set_solver. }
    unfold upd at 1. rewrite decide_False by set_solver. simpl. rewrite link_other by done.
    unfold upd. by rewrite decide_True.
Qed.
End ChainFacts.

(** ** Extending and allocating chains *)
Module AllocFacts.
Import VolFacts ChainFacts.

Lemma table_fuel_enough N v : vol_ok N v → N + 1 ≤ Z.of_nat (table_fuel v).
Proof.
  intros Hok. pose proof (bpc_pos N v Hok). destruct Hok. unfold table_fuel, cluster_start in *.
  assert (N ≤ image_len v / 4) by (apply Z.div_le_lower_bound; nia). lia.
Qed.

Lemma chain_end_spec N v l c : vol_ok N v → ∀ fuel, is_chain N (fat_val v) l → head l = Some c → (length l ≤ fuel)%nat →
  ∃ z l0, l = l0 ++ [z] ∧ chain_end fuel v c = Done z.
Proof.
  intros Hok. revert c. induction l as [|d l IH]; intros c [|fuel] Hl Hc Hf; simpl in *; try done; [lia|].
  injection Hc as ->. destruct Hl as [Hr Hl]. rewrite (fat_get_ok N) by (done || lia). cbn [mbind outcome_bind].
  unfold IsEndOfClusterchain. destruct l as [|e l].
  - destruct (Z.leb_spec 0x0ffffff8 (fat_val v c)); [|lia]. by exists c, [].
  - destruct Hl as [He Hl]. rewrite He. assert (2 ≤ e < N) by (eapply is_chain_range; [exact Hl|set_solver]).
    pose proof (vo_count _ _ Hok). destruct (Z.leb_spec 0x0ffffff8 e); [lia|].
    destruct (IH e fuel Hl eq_refl ltac:(lia)) as (z & l0 & -> & E). exists z, (c :: l0). done.
Qed.

(** The search links the first free clusters behind [cur], in order. *)
Lemma extend_loop_spec N fuel : ∀ v left cand cur, vol_ok N v → 2 ≤ cand → 2 ≤ cur < N →
  fat_val v cur ≠ 0 ∨ cur < cand → (left ≤ length (free_from N (fat_val v) cand))%nat → N - cand ≤ Z.of_nat fuel →
  let F := take left (free_from N (fat_val v) cand) in
  ∃ v', extend_loop fuel v (Z.of_nat left) cand cur = Done (List.last F cur, v') ∧
    table_set N (link (fat_val v) cur F) v v'.
Proof.
  induction fuel as [|fuel IH]; intros v left cand cur Hok Hcand Hcur Hfree Hleft Hfuel; cbv zeta.
  - rewrite free_from_nil in * by lia. simpl in Hleft. assert (left = 0%nat) as -> by lia.
    exists v. split; [done|]. by apply table_set_refl.
  - destruct left as [|left]; [exists v; split; [done|by apply table_set_refl]|].
    assert (Hlt : cand < N).
    { destruct (decide (cand < N)); [done|]. rewrite free_from_nil in Hleft by lia. simpl in Hleft. lia. }
    cbn [extend_loop]. destruct (Z.leb_spec (Z.of_nat (S left)) 0); [lia|].
    rewrite (fat_get_ok N) by (done || lia). cbn [mbind outcome_bind].
    rewrite free_from_cons in * by done. destruct (Z.eqb_spec (fat_val v cand) 0) as [Hz|Hz]; cbn [negb].
    + rewrite decide_True in * by done. simpl in Hleft. pose proof (vo_count _ _ Hok).
      destruct (fat_set_ok N v cur cand Hok) as (v1 & -> & T1); [lia|lia|]. cbn [mbind outcome_bind].
      replace (Z.of_nat (S left) - 1) with (Z.of_nat left) by lia.
      assert (Hval1 : ∀ i, 0 ≤ i < N → fat_val v1 i = upd (fat_val v) cur cand i) by apply T1.
      assert (Hsame : free_from N (fat_val v1) (cand + 1) = free_from N (fat_val v) (cand + 1)).
      { apply free_from_ext. intros x Hx. rewrite Hval1 by lia. unfold upd. case_decide as Hxc; [|done]. subst x. lia. }
      destruct (IH v1 left (cand + 1) cand) as (v' & E & T); [apply T1|lia|lia|right; lia|by rewrite Hsame; lia|lia|].
      cbv zeta in E, T. rewrite Hsame in E, T. exists v'. split.
      * rewrite E. f_equal. f_equal. cbn [take app]. set (F := take left _). clearbody F. clear.
        destruct F as [|x F _] using rev_ind; [done|]. rewrite (List.last_last F). symmetry. apply (List.last_last (cand :: F)).
      * eapply table_set_ext; [|by eapply table_set_trans]. intros i Hi. cbn [app take link]. by apply (link_ext N).
    + rewrite decide_False in * by done. simpl in Hleft.
      apply (IH v (S left) (cand + 1) cur); [done|lia|done| |done|lia]. destruct Hfree; [by left|right; lia].
Qed.

(** What [ExtendCluster] and [AllocateClusterChain] do to the table: [l] is the
    chain, [F] the clusters added, [g] the table afterwards. *)
Record extended (N : Z) (f g : Z → Z) (l F : list Z) : Prop := {
  ex_chain : is_chain N g (l ++ F);
  ex_other i : 0 ≤ i < N → i ∉ l ++ F → g i = f i;
}.

Lemma ExtendCluster_spec N v l c n : vol_ok N v → is_chain N (fat_val v) l → c ∈ l →
  (n ≤ length (free_from N (fat_val v) 2))%nat →
  let F := take n (free_from N (fat_val v) 2) in
  ∃ v' z, ExtendCluster v c (Z.of_nat n) = Done (z, v') ∧ last (l ++ F) = Some z ∧
    table_set N (fat_val v') v v' ∧ extended N (fat_val v) (fat_val v') l F.
Proof.
  intros Hok Hl Hc Hn F. pose proof (vo_count _ _ Hok) as HN. pose proof (table_fuel_enough N v Hok) as Hfuel.
  apply list_elem_of_split in Hc as (l1 & l2 & Hsplit).
  assert (Hs : is_chain N (fat_val v) (c :: l2)) by (rewrite Hsplit in Hl; by apply is_chain_suffix in Hl).
  pose proof (is_chain_length N _ _ HN Hs) as Hlen.
  destruct (chain_end_spec N v (c :: l2) c Hok (table_fuel v) Hs eq_refl) as (z & l0 & Hz & Ez); [lia|].
  assert (Hlz : l = (l1 ++ l0) ++ [z]) by (rewrite Hsplit, Hz; by rewrite app_assoc).
  assert (Hzr : 2 ≤ z < N) by (eapply is_chain_range; [exact Hl|rewrite Hlz; set_solver]).
  assert (Hzv : 0x0ffffff8 ≤ fat_val v z).
  { rewrite Hlz in Hl. apply is_chain_suffix in Hl; [|done]. by destruct Hl. }
  unfold ExtendCluster. rewrite Ez. cbn [mbind outcome_bind].
  destruct (extend_loop_spec N (table_fuel v) v n 2 z Hok ltac:(lia) Hzr) as (v1 & -> & T1); [lia|done|lia|].
  fold F in T1 |- *. cbn [mbind outcome_bind]. pose proof (is_chain_NoDup N _ _ ltac:(lia) Hl) as Hnd.
  assert (HF : ∀ x, x ∈ F → 2 ≤ x < N ∧ fat_val v x = 0).
  { intros x Hx. apply (elem_of_free N _ 2). unfold F in Hx. rewrite <- (take_drop n (free_from _ _ _)). set_solver. }
  assert (HndF : NoDup (z :: F)).
  { apply NoDup_cons. split; [intros Hx; apply HF in Hx; lia|]. unfold F. eapply sublist_NoDup; [apply NoDup_free|apply sublist_take]. }
  assert (Hlast : 2 ≤ List.last F z < N).
  { destruct F as [|x F' _] using rev_ind; [done|]. rewrite List.last_last. apply HF. set_solver. }
  destruct (fat_set_ok N v1 (List.last F z) kEndOfClusterchain) as (v' & -> & T2); [apply T1|lia|unfold kEndOfClusterchain; lia|].
  cbn [mbind outcome_bind].
  assert (Hg : ∀ i, 0 ≤ i < N → fat_val v' i = upd (link (fat_val v) z F) (List.last F z) kEndOfClusterchain i).
  { intros i Hi. rewrite (ts_val _ _ _ _ T2 i Hi). unfold upd. case_decide; [done|]. by apply T1. }
  exists v', (List.last F z). split; [done|]. split; [|split].
  - rewrite Hlz. destruct F as [|x F' _] using rev_ind; [by rewrite app_nil_r, last_snoc|].
    by rewrite List.last_last, app_assoc, last_snoc.
  - eapply table_set_ext; [|by eapply table_set_trans]. intros i Hi. symmetry. by apply (ts_val _ _ _ _ T2).
  - assert (Hin : List.last F z ∈ z :: F).
    { destruct F as [|x F' _] using rev_ind; [set_solver|]. rewrite List.last_last. set_solver. }
    split.
    + rewrite Hlz, <- app_assoc. eapply is_chain_join; [rewrite <- Hlz; exact Hl| |].
      * intros x Hx. rewrite Hlz in Hnd. apply NoDup_app in Hnd as (_ & Hnd & _). specialize (Hnd x Hx).
        assert (Hxl : x ∈ l) by (rewrite Hlz; set_solver).
        pose proof (is_chain_range _ _ _ _ Hl Hxl) as Hxr. pose proof (is_chain_nonzero _ _ _ _ Hl Hxl) as Hxnz.
        assert (Hxn : x ∉ z :: F). { apply not_elem_of_cons. split; [set_solver|]. intros Hx'. apply HF in Hx'. tauto. }
        rewrite Hg by lia. unfold upd. rewrite decide_False by (intros ->; done). by rewrite link_other.
      * eapply is_chain_ext; [|apply (link_chain N (fat_val v) z F kEndOfClusterchain HndF)].
        -- intros x Hx. symmetry. apply Hg. destruct (decide (x = z)); [subst; lia|]. assert (x ∈ F) as [? _]%HF by set_solver. lia.
        -- intros x [->|Hx]%elem_of_cons; [done|]. by apply HF.
        -- unfold kEndOfClusterchain. lia.
    + intros i Hi Hni. rewrite Hg by done. assert (Hnz : i ∉ z :: F) by (rewrite Hlz in Hni; set_solver).
      unfold upd. rewrite decide_False by (intros ->; done). by rewrite link_other.
Qed.

Lemma first_free_spec N v fuel : vol_ok N v → ∀ c, 2 ≤ c → N - c ≤ Z.of_nat fuel → free_from N (fat_val v) c ≠ [] →
  ∃ d F, free_from N (fat_val v) c = d :: F ∧ first_free fuel v c = Done d.
Proof.
  intros Hok. induction fuel as [|fuel IH]; intros c Hc Hf Hne; [by rewrite free_from_nil in Hne by lia|].
  assert (Hlt : c < N) by (destruct (decide (c < N)); [done|by rewrite free_from_nil in Hne by lia]).
  rewrite free_from_cons in * by done. cbn [first_free]. rewrite (fat_get_ok N) by (done || lia). cbn [mbind outcome_bind].
  destruct (Z.eqb_spec (fat_val v c) 0) as [Hz|Hz].
  - rewrite decide_True by done. simpl. eauto.
  - rewrite decide_False in * by done. simpl in *. apply IH; [lia|lia|done].
Qed.

Lemma AllocateClusterChain_spec N v n : vol_ok N v → (1 ≤ n)%nat → (n ≤ length (free_from N (fat_val v) 2))%nat →
  let F := take n (free_from N (fat_val v) 2) in
  ∃ v' c, AllocateClusterChain v (Z.of_nat n) = Done (c, v') ∧ head F = Some c ∧
    table_set N (fat_val v') v v' ∧ extended N (fat_val v) (fat_val v') [] F.
Proof.
  intros Hok Hn1 Hn F. pose proof (vo_count _ _ Hok) as HN. pose proof (table_fuel_enough N v Hok) as Hfuel.
  destruct (first_free_spec N v (table_fuel v) Hok 2) as (d & R & HR & E); [lia|lia|by destruct (free_from _ _ _); [simpl in Hn; lia|]|].
  unfold AllocateClusterChain. rewrite E. cbn [mbind outcome_bind].
  assert (Hd : 2 ≤ d < N ∧ fat_val v d = 0) by (apply (elem_of_free N _ 2); rewrite HR; set_solver).
  destruct (fat_set_ok N v d kEndOfClusterchain Hok) as (v1 & -> & T1); [lia|unfold kEndOfClusterchain; lia|]. cbn [mbind outcome_bind].
  assert (Hval1 : ∀ i, 0 ≤ i < N → fat_val v1 i = upd (fat_val v) d kEndOfClusterchain i) by apply T1.
  assert (Hd1 : fat_val v1 d = kEndOfClusterchain) by (rewrite Hval1 by lia; unfold upd; by rewrite decide_True).
  assert (Hfree1 : free_from N (fat_val v1) 2 = R).
  { assert (HRf : R = filter (λ x, x ≠ d) (d :: R)).
    { rewrite filter_cons_False by (intros Hx; by apply Hx). symmetry. apply list_filter_all. intros x Hx ->.
      pose proof (NoDup_free N (fat_val v) 2) as Hnd. rewrite HR in Hnd. by apply NoDup_cons in Hnd as [? _]. }
    rewrite HRf, <- HR. unfold free_from. rewrite list_filter_filter. apply filter_ext_in.
    intros x Hx%elem_of_seqZ. rewrite Hval1 by lia. unfold upd, kEndOfClusterchain. case_decide; split; (lia || tauto || done). }
  assert (Hch : is_chain N (fat_val v1) [d]) by (split; [lia|]; rewrite Hd1; unfold kEndOfClusterchain; lia).
  assert (HF : F = d :: take (n - 1) R).
  { unfold F. rewrite HR. destruct n as [|n]; [lia|]. simpl. by rewrite Nat.sub_0_r. }
  assert (Hext : ∀ v', extended N (fat_val v1) (fat_val v') [d] (take (n - 1) R) → extended N (fat_val v) (fat_val v') [] F).
  { intros v' [X1 X2]. split; [by rewrite HF|]. intros i Hi Hni. rewrite HF in Hni. rewrite X2 by done.
    rewrite Hval1 by done. unfold upd. rewrite decide_False; [done|]. set_solver. }
  destruct (Z.ltb_spec 1 (Z.of_nat n)) as [Hgt|Hle].
  - rewrite HR in Hn. simpl in Hn.
    destruct (ExtendCluster_spec N v1 [d] d (n - 1) (ts_ok _ _ _ _ T1) Hch ltac:(set_solver)) as (v' & z & E' & _ & T2 & X).
    { rewrite Hfree1. lia. }
    rewrite Hfree1 in X. replace (Z.of_nat n - 1) with (Z.of_nat (n - 1)) by lia. rewrite E'. cbn [mbind outcome_bind].
    exists v', d. split; [done|]. split; [by rewrite HF|]. split; [|by apply Hext].
    eapply table_set_trans; [exact T1|exact T2].
  - exists v1, d. split; [done|]. split; [by rewrite HF|].
    split; [eapply table_set_ext; [|exact T1]; intros i Hi; symmetry; by apply Hval1|].
    apply Hext. replace (n - 1)%nat with 0%nat by lia. simpl. by split.
Qed.
End AllocFacts.

(** ** Names of eight and three characters *)
Module NameFacts.

(** A character that a name or an extension may have. *)
Definition name_char (c : Z) : Prop := 0 < c < 256 ∧ c ≠ space ∧ c ≠ dot ∧ c ≠ slash.

(** [base], or [base.ext] when there is an extension. *)
Definition full_name (base ext : list Z) : list Z :=
  match ext with [] => base | _ => base ++ dot :: ext end.

Record name_ok (base ext : list Z) : Prop := {
  no_base : Forall name_char base;
  no_ext : Forall name_char ext;
  no_base_length : (length base ≤ 8)%nat;
  no_ext_length : (length ext ≤ 3)%nat;
}.

Definition upper (l : list Z) : list Z := toupper <$> l.

Lemma toupper_char c : name_char c → name_char (toupper c) ∧ toupper (toupper c) = toupper c.
Proof.
  unfold name_char, space, dot, slash, toupper. intros Hc.
  destruct (Z.leb_spec 97 c), (Z.leb_spec c 122); simpl; bool_cases; simpl; lia.
Qed.

Lemma upper_chars l : Forall name_char l → Forall name_char (upper l).
Proof. intros H. apply Forall_fmap. eapply Forall_impl; [exact H|]. intros c Hc. by apply toupper_char. Qed.

Lemma split_last_none c l : c ∉ l → split_last c l = None.
Proof.
  induction l as [|x l IH]; intros Hc; [done|]. simpl. rewrite IH by set_solver.
  destruct (Z.eqb_spec x c); [set_solver|done].
Qed.

Lemma split_last_app c l1 l2 : c ∉ l2 → split_last c (l1 ++ c :: l2) = Some (l1, l2).
Proof.
  intros Hc. induction l1 as [|x l1 IH]; simpl.
  - by rewrite split_last_none, Z.eqb_refl.
  - by rewrite IH.
Qed.

Lemma no_dot l : Forall name_char l → dot ∉ l.
Proof. intros H Hd. rewrite Forall_forall in H. specialize (H _ Hd). unfold name_char in H. tauto. Qed.

Lemma pad_short n l : (length l ≤ n)%nat → pad n l = l ++ replicate (n - length l) space.
Proof.
  intros Hl. unfold pad. rewrite take_app_ge by done. f_equal. rewrite take_replicate. f_equal. lia.
Qed.

Lemma length_pad n l : (length l ≤ n)%nat → length (pad n l) = n.
Proof. intros. rewrite pad_short, length_app, length_replicate by done. lia. Qed.

(** The eleven bytes of a valid name. *)
Lemma SetFileName_valid base ext : name_ok base ext →
  SetFileName (full_name base ext) = pad 8 (upper base) ++ pad 3 (upper ext).
Proof.
  intros [Hb He Lb Le]. unfold SetFileName, full_name, upper. destruct ext as [|e ext].
  - rewrite split_last_none by (by apply no_dot). by rewrite take_ge.
  - rewrite split_last_app by (by apply no_dot). by rewrite !take_ge.
Qed.

Lemma name83_run l : ∀ p k r, Forall name_char l → (length l ≤ k)%nat → (length p + length l ≤ 11)%nat →
  name83_loop (l ++ r) (length p) (p ++ replicate k space) =
  name83_loop r (length p + length l) (p ++ upper l ++ replicate (k - length l) space).
Proof.
  induction l as [|c l IH]; intros p k r Hl Hk Hp.
  - simpl. by rewrite Nat.add_0_r, Nat.sub_0_r.
  - apply Forall_cons in Hl as [Hc Hl]. simpl in Hk, Hp. cbn [app name83_loop].
    destruct (Nat.ltb_spec (length p) 11); [|lia]. destruct (Z.eqb_spec c dot) as [->|_]; [unfold name_char in Hc; tauto|].
    destruct k as [|k]; [lia|]. rewrite insert_app_r_alt, Nat.sub_diag by lia. cbn [replicate insert list_insert].
    specialize (IH (p ++ [toupper c]) k r Hl). rewrite length_app, <- !app_assoc in IH. simpl in IH.
    replace (length p + 1)%nat with (S (length p)) in IH by lia. rewrite IH by lia. unfold upper. simpl.
    f_equal. lia.
Qed.

Lemma name83_dot r i b : (i < 11)%nat → name83_loop (dot :: r) i b = name83_loop r 8 b.
Proof. intros Hi. cbn [name83_loop]. by destruct (Nat.ltb_spec i 11); [|lia]. Qed.

Lemma name83_valid base ext : name_ok base ext →
  name83_loop (full_name base ext) 0 (replicate 11 space) = pad 8 (upper base) ++ pad 3 (upper ext).
Proof.
  intros [Hb He Lb Le]. assert (Lub : length (upper base) = length base) by apply length_fmap.
  assert (Lue : length (upper ext) = length ext) by apply length_fmap. unfold full_name.
  pose proof (name83_run base [] 11 (match ext with [] => [] | _ => dot :: ext end) Hb ltac:(lia) ltac:(simpl; lia)) as Hrun.
  simpl length in Hrun. simpl ([] ++ _) in Hrun.
  assert (Hpad : upper base ++ replicate (11 - length base) space = pad 8 (upper base) ++ replicate 3 space).
  { rewrite pad_short, <- app_assoc, <- replicate_add by lia. f_equal. f_equal. lia. }
  rewrite Hpad in Hrun. destruct ext as [|e ext].
  - rewrite app_nil_r in Hrun. etransitivity; [exact Hrun|]. simpl. done.
  - etransitivity; [exact Hrun|]. rewrite name83_dot by lia.
    pose proof (name83_run (e :: ext) (pad 8 (upper base)) 3 [] He ltac:(done)) as Hr2.
    rewrite length_pad in Hr2 by lia. rewrite app_nil_r in Hr2. rewrite Hr2 by (simpl in Le |- *; lia).
    cbn [name83_loop]. rewrite (pad_short 3 (upper (e :: ext))) by (by rewrite Lue). by rewrite Lue.
Qed.

Lemma pad_inj n l1 l2 : Forall name_char l1 → Forall name_char l2 → (length l1 ≤ n)%nat → (length l2 ≤ n)%nat →
  pad n l1 = pad n l2 → l1 = l2.
Proof.
  intros H1 H2 L1 L2. assert (Hf : ∀ l, Forall name_char l → (length l ≤ n)%nat → filter (λ c, c ≠ space) (pad n l) = l).
  { intros l Hl Ll. rewrite pad_short, filter_app, list_filter_all, list_filter_none; [by rewrite app_nil_r|..|done].
    - intros x Hx. apply elem_of_replicate in Hx as [-> _]. tauto.
    - intros x Hx. rewrite Forall_forall in Hl. apply Hl in Hx. unfold name_char in Hx. tauto. }
  intros Heq. rewrite <- (Hf l1), <- (Hf l2), Heq by done. done.
Qed.

Lemma cstr_app l1 l2 : Forall name_char l1 → cstr (l1 ++ 0 :: l2) = l1.
Proof.
  induction 1 as [|c l Hc Hl IH]; [done|]. simpl. destruct (Z.eqb_spec c 0) as [->|_]; [unfold name_char in Hc; lia|].
  by rewrite IH.
Qed.

Lemma zero_spaces_replicate k l : Forall name_char l →
  zero_spaces (replicate k space ++ rev l) = replicate k 0 ++ rev l.
Proof.
  intros Hl. induction k as [|k IH]; simpl; [|by rewrite IH]. destruct (rev l) as [|c l'] eqn:E; [done|].
  simpl. destruct (Z.eqb_spec c space) as [->|_]; [|done]. exfalso.
  assert (Hin : space ∈ rev l) by (rewrite E; set_solver).
  rewrite Forall_forall in Hl. assert (Hin' : space ∈ l).
  { apply list_elem_of_In. apply List.in_rev. apply list_elem_of_In. done. }
  specialize (Hl _ Hin'). unfold name_char in Hl. tauto.
Qed.

Lemma zero_tail_pad n l : Forall name_char l → (length l ≤ n)%nat →
  zero_tail (pad n l) = l ++ replicate (n - length l) 0.
Proof.
  intros Hl Hn. rewrite pad_short by done. unfold zero_tail. rewrite rev_app_distr.
  assert (Hrev : ∀ k (x : Z), rev (replicate k x) = replicate k x).
  { intros k x. induction k as [|k IH]; [done|]. simpl. rewrite IH. clear. induction k; simpl; congruence. }
  rewrite Hrev, zero_spaces_replicate, rev_app_distr, Hrev, rev_involutive by done. done.
Qed.

Lemma cstr_padded n l : Forall name_char l → (length l ≤ n)%nat → cstr (zero_tail (pad n l) ++ [0]) = l.
Proof.
  intros Hl Hn. rewrite zero_tail_pad, <- app_assoc by done.
  destruct (n - length l)%nat as [|k]; [by apply cstr_app|]. simpl. by apply cstr_app.
Qed.
End NameFacts.

Import VolFacts ChainFacts AllocFacts NameFacts.

(** ** Properties *)

(** Extending a chain by [n] clusters appends the first [n] free clusters, in
    order, to it.  Started from any cluster of a chain, with that many clusters
    free, [ExtendCluster] returns the new last cluster; the chain is the old one
    followed by [n] clusters that were free; every other chain of the table is as
    before, the volume is well formed and no byte outside the table changes. *)
Theorem ExtendCluster_extends (N : Z) (v : Volume) (l : list Z) (c : Z) (n : nat)
  (Hok : vol_ok N v) (Hl : is_chain N (fat_val v) l) (Hc : c ∈ l)
  (Hfree : (n ≤ length (free_from N (fat_val v) 2))%nat) :
  ∃ v' z F, ExtendCluster v c (Z.of_nat n) = Done (z, v') ∧ vol_ok N v' ∧
    length F = n ∧ (∀ x, x ∈ F → 2 ≤ x < N ∧ fat_val v x = 0) ∧
    last (l ++ F) = Some z ∧ is_chain N (fat_val v') (l ++ F) ∧
    (∀ l', is_chain N (fat_val v) l' → (∀ x, x ∈ l' → x ∉ l) → is_chain N (fat_val v') l') ∧
    (∀ a, ¬ (GetFAT v ≤ a < GetFAT v + 4 * N) → byte v' a = byte v a).
Proof.
  destruct (ExtendCluster_spec N v l c n Hok Hl Hc Hfree) as (v' & z & E & Hz & T & [X1 X2]).
  set (F := take n _) in *. exists v', z, F.
  assert (HF : ∀ x, x ∈ F → 2 ≤ x < N ∧ fat_val v x = 0).
  { intros x Hx. apply (elem_of_free N _ 2). unfold F in Hx. rewrite <- (take_drop n (free_from _ _ _)). set_solver. }
  split_and!; [done|apply T|unfold F; rewrite length_take; lia|done|done|done| |apply T].
  intros l' Hl' Hd. eapply is_chain_ext; [|exact Hl']. intros x Hx.
  pose proof (is_chain_range _ _ _ _ Hl' Hx). symmetry. apply X2; [lia|]. apply not_elem_of_app. split; [by apply Hd|].
  intros Hx'. apply HF in Hx' as [_ Hx']. by apply (is_chain_nonzero _ _ _ _ Hl' Hx).
Qed.

(** C37 names
    A valid name is stored so that it is found and shown again.  For names of up
    to eight and three characters, the entry made by [SetFileName] is equal, for
    [NameIsEqual], to exactly the valid names that differ in case only, and
    [FormatName] gives the name back in capitals. *)
Theorem SetFileName_roundtrip (base ext base' ext' : list Z) (Hn : name_ok base ext) (Hn' : name_ok base' ext') :
  FormatName (SetFileName (full_name base ext)) = full_name (upper base) (upper ext) ∧
  (NameIsEqual (SetFileName (full_name base ext)) (full_name base' ext') = true ↔
   upper base' = upper base ∧ upper ext' = upper ext).
Proof.
  pose proof (SetFileName_valid _ _ Hn) as E. pose proof (name83_valid _ _ Hn') as E'. rewrite E. unfold NameIsEqual. rewrite E'.
  destruct Hn as [Hb He Lb Le], Hn' as [Hb' He' Lb' Le'].
  apply upper_chars in Hb as Ub, He as Ue, Hb' as Ub', He' as Ue'.
  assert (L : ∀ l, length (upper l) = length l) by (intros; apply length_fmap).
  split.
  - unfold FormatName, ReadName. rewrite take_app_length', drop_app_length' by (rewrite length_pad; [done|by rewrite L]).
    rewrite !cstr_padded by (rewrite ?L; done). unfold full_name. by destruct (upper ext).
  - rewrite bool_decide_eq_true. split.
    + intros Heq. apply app_inj_1 in Heq as [H1 H2]; [|by rewrite !length_pad by (by rewrite L)].
      split; [apply (pad_inj 8)|apply (pad_inj 3)]; rewrite ?L; done.
    + intros [-> ->]. done.
Qed.

Lemma SetFileName_roundtrip_witness :
  FormatName (SetFileName [104; 105; 46; 116; 120; 116]) = [72; 73; 46; 84; 88; 84] ∧
  NameIsEqual (SetFileName [104; 105; 46; 116; 120; 116]) [72; 105; 46; 84; 120; 116] = true.
Proof.
  assert (Hok : ∀ l, Forall (λ c, 0 < c < 256 ∧ c ≠ space ∧ c ≠ dot ∧ c ≠ slash) l → Forall name_char l) by (intros l Hl; exact Hl).
  destruct (SetFileName_roundtrip [104; 105] [116; 120; 116] [72; 105] [84; 120; 116]) as [H1 H2].
  - split; [..|simpl; lia|simpl; lia]; repeat (apply Forall_cons; split; [unfold name_char, space, dot, slash; lia|]); apply Forall_nil; exact I.
  - split; [..|simpl; lia|simpl; lia]; repeat (apply Forall_cons; split; [unfold name_char, space, dot, slash; lia|]); apply Forall_nil; exact I.
  - split; [exact H1|]. apply H2. split; reflexivity.
Defined.

(** A volume of 14 clusters of 64 bytes: a sector of parameters, one of the table,
    the root directory in cluster 2 and a file of 100 bytes in clusters 3 and 5. *)
Definition sample_image : gmap Z Z :=
  list_to_map ([(11, 64); (13, 1); (14, 2); (16, 1); (36, 1); (44, 2)] ++
    [(128, 0xf8); (129, 0xff); (130, 0xff); (131, 0x0f)] ++ [(132, 0xff); (133, 0xff); (134, 0xff); (135, 0x0f)] ++
    [(136, 0xff); (137, 0xff); (138, 0xff); (139, 0x0f)] ++ [(140, 5)] ++
    [(148, 0xff); (149, 0xff); (150, 0xff); (151, 0x0f)] ++
    [(192, 65); (218, 3); (220, 100); (266, 7); (385, 9)]).

Definition sample_volume : Volume := Initialize sample_image 1088.

Lemma image_bytes v : bool_decide (map_Forall (λ _ x, 0 ≤ x < 256) (image v)) = true → ∀ a, 0 ≤ byte v a < 256.
Proof.
  intros H%bool_decide_eq_true a. unfold byte, arr_read. destruct (image v !! a) as [x|] eqn:E; simpl; [|lia]. by apply (H a).
Qed.

Lemma sample_volume_ok : vol_ok 16 sample_volume.
Proof.
  assert (Hb : ∀ a, 0 ≤ byte sample_volume a < 256) by (apply image_bytes; vm_compute; reflexivity).
  split; try exact Hb; vm_compute; try (split; congruence); congruence.
Qed.

Lemma sample_chain : is_chain 16 (fat_val sample_volume) [3; 5].
Proof. vm_compute. repeat split; congruence. Qed.

Lemma ExtendCluster_extends_witness :
  ∃ v' z F, ExtendCluster sample_volume 3 2 = Done (z, v') ∧ length F = 2%nat ∧ is_chain 16 (fat_val v') ([3; 5] ++ F).
Proof.
  destruct (ExtendCluster_extends 16 sample_volume [3; 5] 3 2 sample_volume_ok sample_chain)
    as (v' & z & F & E & _ & HF & _ & _ & Hc & _); [set_solver|vm_compute; lia|].
  exists v', z, F. split; [exact E|]. split; [exact HF|exact Hc].
Defined.
