(* ===== verification/FatFile.v ===== *)
(** Reading and writing files through the FAT: [fat::FileDescriptor] and
    [LoadFile] of src/kernel/fat.{hpp,cpp}. *)
From S2P Require Import Prelude ErrorCode File Fat.

(** [class fat::FileDescriptor]; the entry is known by its place in the image. *)
Record FatFD : Set := mkFD {
  fat_entry_ : Z;
  rd_off_ : Z;
  rd_cluster_ : Z;
  rd_cluster_off_ : Z;
  wr_off_ : Z;
  wr_cluster_ : Z;
  wr_cluster_off_ : Z;
}.

Definition new_FatFD (fat_entry : Z) : FatFD := mkFD fat_entry 0 0 0 0 0 0.

Definition set_rd (fd : FatFD) (off cluster cluster_off : Z) : FatFD :=
  mkFD (fat_entry_ fd) off cluster cluster_off (wr_off_ fd) (wr_cluster_ fd) (wr_cluster_off_ fd).
Definition set_wr (fd : FatFD) (off cluster cluster_off : Z) : FatFD :=
  mkFD (fat_entry_ fd) (rd_off_ fd) (rd_cluster_ fd) (rd_cluster_off_ fd) off cluster cluster_off.

(** Every turn but the first and the last moves a whole cluster. *)
Definition transfer_fuel (v : Volume) (len : Z) : nat := Z.to_nat (len / bytes_per_cluster v + 2).

(** The loop of [Read]: [left] bytes are still to be read from [cluster], [off].
    Gives the bytes and the new place. *)
Fixpoint read_loop (fuel : nat) (v : Volume) (left cluster off : Z) : outcome (list Z * Z * Z) :=
  if left <=? 0 then mret ([], cluster, off)
  else
    match fuel with
    | O => NoFuel
    | S fuel' =>
        let n := Z.min left (bytes_per_cluster v - off) in
        bytes ← read_bytes v (GetClusterAddr v cluster + off) n;
        let off := off + n in
        '(cluster, off) ←
          (if off =? bytes_per_cluster v then cluster ← NextCluster v cluster; mret (cluster, 0) else mret (cluster, off));
        '(more, cluster, off) ← read_loop fuel' v (left - n) cluster off;
        mret (bytes ++ more, cluster, off)
    end.

(** [FileDescriptor::Read]: the difference of the sizes is unsigned. *)
Definition fat_Read (v : Volume) (fd : FatFD) (len : Z) : outcome (list Z * FatFD) :=
  let cluster := if rd_cluster_ fd =? 0 then FirstCluster v (fat_entry_ fd) else rd_cluster_ fd in
  let len := Z.min len (u64 (file_size v (fat_entry_ fd) - rd_off_ fd)) in
  '(bytes, cluster, off) ← read_loop (transfer_fuel v len) v len cluster (rd_cluster_off_ fd);
  mret (bytes, set_rd fd (rd_off_ fd + Z.of_nat (length bytes)) cluster off).

(** [LoadFile] *)
Definition LoadFile (v : Volume) (len entry : Z) : outcome (list Z) :=
  '(bytes, _) ← fat_Read v (new_FatFD entry) len; mret bytes.

(** [num_cluster] *)
Definition num_cluster (v : Volume) (bytes : Z) : Z := (bytes + bytes_per_cluster v - 1) / bytes_per_cluster v.

(** The move to another cluster when one is full. *)
Definition next_write_cluster (v : Volume) (cluster off left : Z) : outcome (Volume * Z * Z) :=
  if off =? bytes_per_cluster v then
    next_cluster ← NextCluster v cluster;
    if next_cluster =? kEndOfClusterchain then
      '(cluster, v) ← ExtendCluster v cluster (num_cluster v left); mret (v, cluster, 0)
    else mret (v, next_cluster, 0)
  else mret (v, cluster, off).

(** The loop of [Write]: [data] is still to be written at [cluster], [off]. *)
Fixpoint write_loop (fuel : nat) (v : Volume) (data : list Z) (cluster off : Z) : outcome (Volume * Z * Z) :=
  if Z.of_nat (length data) <=? 0 then mret (v, cluster, off)
  else
    match fuel with
    | O => NoFuel
    | S fuel' =>
        '(v, cluster, off) ← next_write_cluster v cluster off (Z.of_nat (length data));
        let n := Z.min (Z.of_nat (length data)) (bytes_per_cluster v - off) in
        v ← write_bytes v (GetClusterAddr v cluster + off) (take (Z.to_nat n) data);
        write_loop fuel' v (drop (Z.to_nat n) data) cluster (off + n)
    end.

(** The cluster that the first [Write] of a descriptor starts with. *)
Definition first_write_cluster (v : Volume) (fd : FatFD) (len : Z) : outcome (Volume * Z) :=
  if wr_cluster_ fd =? 0 then
    if negb (FirstCluster v (fat_entry_ fd) =? 0) then mret (v, FirstCluster v (fat_entry_ fd))
    else
      '(cluster, v) ← AllocateClusterChain v (num_cluster v len);
      let v := put16 v (fat_entry_ fd + 26) (Z.land cluster 0xffff) in
      let v := put16 v (fat_entry_ fd + 20) (Z.land (Z.shiftr cluster 16) 0xffff) in
      mret (v, cluster)
  else mret (v, wr_cluster_ fd).

(** [FileDescriptor::Write] *)
Definition fat_Write (v : Volume) (fd : FatFD) (data : list Z) : outcome (Z * Volume * FatFD) :=
  let len := Z.of_nat (length data) in
  '(v, cluster) ← first_write_cluster v fd len;
  '(v, cluster, off) ← write_loop (transfer_fuel v len) v data cluster (wr_cluster_off_ fd);
  let wr_off := wr_off_ fd + len in
  mret (len, put32 v (fat_entry_ fd + 28) wr_off, set_wr fd wr_off cluster off).

(** The loop of [Load] that finds the cluster of an offset. *)
Fixpoint load_cluster (fuel : nat) (v : Volume) (offset cluster : Z) : outcome (Z * Z) :=
  if offset <? bytes_per_cluster v then mret (offset, cluster)
  else
    match fuel with
    | O => NoFuel
    | S fuel' => cluster ← NextCluster v cluster; load_cluster fuel' v (offset - bytes_per_cluster v) cluster
    end.

(** [FileDescriptor::Load] *)
Definition fat_Load (v : Volume) (fd : FatFD) (len offset : Z) : outcome (list Z) :=
  '(off, cluster) ← load_cluster (transfer_fuel v offset) v offset (FirstCluster v (fat_entry_ fd));
  '(bytes, _) ← fat_Read v (set_rd (new_FatFD (fat_entry_ fd)) offset cluster off) len;
  mret bytes.

(** The descriptor with the volume it works on. *)
#[export] Instance FatFile : FileDescriptor (Volume * FatFD) := {|
  Read s len := '(bytes, fd) ← fat_Read s.1 s.2 len; mret (bytes, (s.1, fd));
  Write s data := '(n, v, fd) ← fat_Write s.1 s.2 data; mret (n, (v, fd));
  Size s := mret (file_size s.1 (fat_entry_ s.2));
  Load s len offset := bytes ← fat_Load s.1 s.2 len offset; mret (bytes, s);
|}.

(** ** The bytes of a file *)
Module FileFacts.
Import VolFacts ChainFacts AllocFacts.

(** Byte [i] of the file whose clusters are [l]. *)
Definition fbyte (v : Volume) (l : list Z) (i : Z) : Z :=
  byte v (cluster_start v (l !!! Z.to_nat (i / bytes_per_cluster v)) + i mod bytes_per_cluster v).

(** The bytes from [pos] on, [n] of them. *)
Definition fbytes (v : Volume) (l : list Z) (pos n : Z) : list Z := fbyte v l <$> seqZ pos n.

(** What a reader at [pos] keeps: behind the last cluster there is the end mark. *)
Definition cursor (v : Volume) (l : list Z) (pos cluster off : Z) : Prop :=
  0 ≤ pos ≤ Z.of_nat (length l) * bytes_per_cluster v ∧
  off = pos mod bytes_per_cluster v ∧
  cluster = default kEndOfClusterchain (l !! Z.to_nat (pos / bytes_per_cluster v)).

Lemma fbytes_app v l pos n m : 0 ≤ n → 0 ≤ m → fbytes v l pos (n + m) = fbytes v l pos n ++ fbytes v l (pos + n) m.
Proof. intros. unfold fbytes. by rewrite seqZ_app, fmap_app by done. Qed.

Lemma length_fbytes v l pos n : 0 ≤ n → Z.of_nat (length (fbytes v l pos n)) = n.
Proof. intros. unfold fbytes. rewrite length_fmap, length_seqZ. lia. Qed.

Lemma NextCluster_chain N v l k c : vol_ok N v → is_chain N (fat_val v) l → l !! k = Some c →
  NextCluster v c = Done (default kEndOfClusterchain (l !! S k)).
Proof.
  intros Hok. revert k. induction l as [|d l IH]; intros k Hl Hk; [done|]. pose proof (vo_count _ _ Hok) as HN.
  destruct k as [|k].
  - injection Hk as ->. destruct Hl as [Hc Hl]. unfold NextCluster. rewrite (fat_get_ok N) by (done || lia).
    cbn [mbind outcome_bind]. unfold IsEndOfClusterchain, mret, outcome_ret. destruct l as [|e l]; simpl.
    + by destruct (Z.leb_spec 0x0ffffff8 (fat_val v c)); [|lia].
    + destruct Hl as [-> Hl]. assert (2 ≤ e < N) by (eapply is_chain_range; [exact Hl|set_solver]).
      by destruct (Z.leb_spec 0x0ffffff8 e); [lia|].
  - destruct Hl as [_ Hl]. destruct l as [|e l]; [done|]. apply IH; [apply Hl|done].
Qed.

(** Division by the size of a cluster. *)
Lemma pos_div B k off : 0 < B → 0 ≤ off < B → (k * B + off) / B = k ∧ (k * B + off) mod B = off.
Proof. intros. split; [rewrite Z.div_add_l, Z.div_small; lia|rewrite Z.add_comm, Z.mod_add, Z.mod_small; lia]. Qed.

(** The part of a cluster that a reader or writer can reach at once. *)
Lemma chunk_bytes N v l pos n c : vol_ok N v → 0 ≤ pos → 0 ≤ n → pos mod bytes_per_cluster v + n ≤ bytes_per_cluster v →
  l !! Z.to_nat (pos / bytes_per_cluster v) = Some c →
  get_bytes v (cluster_start v c + pos mod bytes_per_cluster v) n = fbytes v l pos n.
Proof.
  intros Hok Hpos Hn Hfit Hc. pose proof (bpc_pos N v Hok) as HB. set (B := bytes_per_cluster v) in *.
  unfold get_bytes, fbytes. apply list_eq_same_length with (n := Z.to_nat n); [by rewrite length_fmap, length_seqZ..|].
  intros i x y Hi Hx Hy. apply list_lookup_fmap_Some in Hx as (a & -> & Ha), Hy as (b & -> & Hb).
  apply lookup_seqZ in Ha as [-> _], Hb as [-> _]. unfold fbyte. fold B.
  assert (Hdm : pos + Z.of_nat i = pos / B * B + (pos mod B + Z.of_nat i)) by (pose proof (Z.div_mod pos B); lia).
  destruct (pos_div B (pos / B) (pos mod B + Z.of_nat i)) as [E1 E2]; [lia|pose proof (Z.mod_pos_bound pos B); lia|].
  rewrite <- Hdm in E1, E2. rewrite E1, E2. rewrite (list_lookup_total_correct _ _ _ Hc). f_equal. lia.
Qed.

Lemma read_bytes_cluster N v c off n : vol_ok N v → 2 ≤ c < N → 0 ≤ off → 0 ≤ n → off + n ≤ bytes_per_cluster v →
  read_bytes v (GetClusterAddr v c + off) n = Done (get_bytes v (cluster_start v c + off) n).
Proof.
  intros Hok Hc Hoff Hn Hfit. rewrite (GetClusterAddr_eq N) by done. unfold read_bytes, in_image.
  destruct (cluster_bounds N v c Hok Hc) as [Hlo Hhi].
  assert (0 ≤ data_start v) by (destruct Hok; lia).
  destruct (Z.leb_spec 0 (cluster_start v c + off)); [|lia].
  by destruct (Z.leb_spec (cluster_start v c + off + n) (image_len v)); [|lia].
Qed.

Lemma cursor_cluster v l pos cluster off : 1 ≤ bytes_per_cluster v → cursor v l pos cluster off →
  pos < Z.of_nat (length l) * bytes_per_cluster v → l !! Z.to_nat (pos / bytes_per_cluster v) = Some cluster.
Proof.
  intros HB ([Hpos _] & _ & ->) Hlt. destruct (lookup_lt_is_Some_2 l (Z.to_nat (pos / bytes_per_cluster v))) as [c Hc].
  - assert (pos / bytes_per_cluster v < Z.of_nat (length l)) by (apply Z.div_lt_upper_bound; lia).
    assert (0 ≤ pos / bytes_per_cluster v) by (apply Z.div_pos; lia). lia.
  - by rewrite Hc.
Qed.

(** The cursor after [n] more bytes of the same cluster. *)
Lemma cursor_step N v l pos cluster off n : vol_ok N v → is_chain N (fat_val v) l → cursor v l pos cluster off →
  0 < n → off + n ≤ bytes_per_cluster v → pos + n ≤ Z.of_nat (length l) * bytes_per_cluster v →
  ∃ cluster' off', (if off + n =? bytes_per_cluster v then c ← NextCluster v cluster; mret (c, 0) else mret (cluster, off + n))
      = Done (cluster', off') ∧ cursor v l (pos + n) cluster' off'.
Proof.
  intros Hok Hl Hcur Hn Hfit Hend. pose proof (bpc_pos N v Hok) as HB. set (B := bytes_per_cluster v) in *.
  pose proof (cursor_cluster v l pos cluster off HB Hcur ltac:(unfold B in *; lia)) as Hc. fold B in Hc.
  pose proof Hcur as ([Hpos _] & Hoff & _). fold B in Hoff.
  assert (Hdm : pos = pos / B * B + off) by (pose proof (Z.div_mod pos B); lia).
  assert (Hk : 0 ≤ pos / B) by (apply Z.div_pos; lia).
  destruct (Z.eqb_spec (off + n) B) as [Hfull|Hpart].
  - rewrite (NextCluster_chain N v l _ _ Hok Hl Hc). cbn [mbind outcome_bind]. eexists _, _. split; [reflexivity|].
    assert (Hp : pos + n = (pos / B + 1) * B + 0) by lia. destruct (pos_div B (pos / B + 1) 0) as [E1 E2]; [lia|lia|].
    split; [fold B; lia|]. fold B. rewrite Hp, E1, E2. split; [done|].
    by replace (Z.to_nat (pos / B + 1)) with (S (Z.to_nat (pos / B))) by lia.
  - eexists _, _. split; [reflexivity|]. pose proof (Z.mod_pos_bound pos B ltac:(lia)).
    assert (Hp : pos + n = pos / B * B + (off + n)) by lia. destruct (pos_div B (pos / B) (off + n)) as [E1 E2]; [lia|lia|].
    split; [fold B; lia|]. fold B. rewrite Hp, E1, E2. split; [done|]. by rewrite Hc.
Qed.

Lemma read_loop_spec N v l fuel : vol_ok N v → is_chain N (fat_val v) l → ∀ pos left cluster off,
  cursor v l pos cluster off → 0 ≤ left → pos + left ≤ Z.of_nat (length l) * bytes_per_cluster v →
  (0 < left → off + left ≤ Z.of_nat fuel * bytes_per_cluster v) →
  ∃ cluster' off', read_loop fuel v left cluster off = Done (fbytes v l pos left, cluster', off') ∧
    cursor v l (pos + left) cluster' off'.
Proof.
  intros Hok Hl. pose proof (bpc_pos N v Hok) as HB. induction fuel as [|fuel IH]; intros pos left cluster off Hcur Hleft Hend Hfuel.
  - pose proof Hcur as (_ & Hoff & _). pose proof (Z.mod_pos_bound pos (bytes_per_cluster v) ltac:(lia)).
    assert (left = 0) as -> by (destruct (decide (0 < left)); lia). exists cluster, off. by rewrite Z.add_0_r.
  - destruct (decide (left = 0)) as [->|Hne]; [exists cluster, off; by rewrite Z.add_0_r|].
    cbn [read_loop]. destruct (Z.leb_spec left 0); [lia|].
    set (B := bytes_per_cluster v) in *. set (n := left `min` (B - off)).
    pose proof Hcur as ([Hpos _] & Hoff & _). fold B in Hoff. pose proof (Z.mod_pos_bound pos B ltac:(lia)).
    pose proof (cursor_cluster v l pos cluster off HB Hcur ltac:(fold B; lia)) as Hc. fold B in Hc.
    assert (Hr : 2 ≤ cluster < N) by (eapply is_chain_range; [exact Hl|by eapply list_elem_of_lookup_2]).
    rewrite (read_bytes_cluster N) by (done || (fold B; lia)). cbn [mbind outcome_bind].
    pose proof (chunk_bytes N v l pos n cluster Hok) as Hchunk. fold B in Hchunk. rewrite <- Hoff in Hchunk.
    rewrite Hchunk by (done || lia).
    destruct (cursor_step N v l pos cluster off n Hok Hl Hcur) as (c1 & off1 & E1 & Hcur1); [lia|fold B; lia|fold B; lia|].
    fold B in E1. rewrite E1. cbn [mbind outcome_bind]. pose proof Hcur1 as (_ & Hoff1 & _). fold B in Hoff1.
    destruct (IH (pos + n) (left - n) c1 off1 Hcur1) as (c2 & off2 & E2 & Hcur2); [lia|fold B; lia| |].
    { fold B. intros Hmore. revert E1. destruct (Z.eqb_spec (off + n) B); [|lia]. intros E1.
      apply bind_Done_inv in E1 as (? & _ & E1). injection E1 as _ <-. lia. }
    rewrite E2. cbn [mbind outcome_bind]. exists c2, off2.
    replace (pos + n + (left - n)) with (pos + left) in Hcur2 by lia. split; [|done].
    unfold mret, outcome_ret. f_equal. f_equal. f_equal. rewrite <- fbytes_app by lia. f_equal. lia.
Qed.

Lemma transfer_fuel_enough N v off left : vol_ok N v → 0 ≤ off ≤ bytes_per_cluster v → 0 ≤ left →
  off + left ≤ Z.of_nat (transfer_fuel v left) * bytes_per_cluster v.
Proof.
  intros Hok Hoff Hleft. pose proof (bpc_pos N v Hok). unfold transfer_fuel.
  assert (0 ≤ left / bytes_per_cluster v) by (apply Z.div_pos; lia).
  pose proof (Z.div_mod left (bytes_per_cluster v)). pose proof (Z.mod_pos_bound left (bytes_per_cluster v)).
  rewrite Z2Nat.id by lia. nia.
Qed.

(** The entry at [e] names a file whose clusters are [l]. *)
Record file_at (N : Z) (v : Volume) (e : Z) (l : list Z) : Prop := {
  fa_chain : is_chain N (fat_val v) l;
  fa_first : head l = Some (FirstCluster v e);
  fa_size : 0 ≤ file_size v e ≤ Z.of_nat (length l) * bytes_per_cluster v;
  fa_small : file_size v e < 2 ^ 32;
}.

(** The place of a reader: a cluster of 0 stands for the first. *)
Definition rd_place (v : Volume) (fd : FatFD) : Z :=
  if rd_cluster_ fd =? 0 then FirstCluster v (fat_entry_ fd) else rd_cluster_ fd.

Record reader_ok (N : Z) (v : Volume) (l : list Z) (fd : FatFD) : Prop := {
  ro_file : file_at N v (fat_entry_ fd) l;
  ro_off : rd_off_ fd ≤ file_size v (fat_entry_ fd);
  ro_cursor : cursor v l (rd_off_ fd) (rd_place v fd) (rd_cluster_off_ fd);
}.

Lemma cursor_zero N v e l : vol_ok N v → file_at N v e l → cursor v l 0 (FirstCluster v e) 0.
Proof.
  intros Hok [Hl Hf _ _]. pose proof (bpc_pos N v Hok). split; [split; [done|apply Z.mul_nonneg_nonneg; lia]|].
  rewrite Z.mod_0_l, Z.div_0_l by lia. split; [done|]. destruct l as [|c l]; [done|]. by injection Hf as ->.
Qed.

Lemma new_reader_ok N v e l : vol_ok N v → file_at N v e l → reader_ok N v l (new_FatFD e).
Proof. intros Hok Hf. split; [done|apply Hf|]. by eapply cursor_zero. Qed.

Lemma cursor_nonzero N v l pos cluster off : is_chain N (fat_val v) l → cursor v l pos cluster off → cluster ≠ 0.
Proof.
  intros Hl (_ & _ & ->). destruct (l !! _) as [c|] eqn:E; simpl; [|by unfold kEndOfClusterchain].
  assert (2 ≤ c < N) by (eapply is_chain_range; [exact Hl|by eapply list_elem_of_lookup_2]). lia.
Qed.

Lemma fat_Read_spec N v l fd len : vol_ok N v → reader_ok N v l fd → 0 ≤ len →
  let n := Z.min len (file_size v (fat_entry_ fd) - rd_off_ fd) in
  ∃ fd', fat_Read v fd len = Done (fbytes v l (rd_off_ fd) n, fd') ∧ reader_ok N v l fd' ∧
    fat_entry_ fd' = fat_entry_ fd ∧ rd_off_ fd' = rd_off_ fd + n.
Proof.
  intros Hok [[Hl Hfirst Hsize Hsmall] Hoff Hcur] Hlen n. pose proof (bpc_pos N v Hok).
  pose proof Hcur as ([Hpos _] & Hmod & _). pose proof (Z.mod_pos_bound (rd_off_ fd) (bytes_per_cluster v) ltac:(lia)).
  unfold fat_Read. fold (rd_place v fd). rewrite (wrap_small 64 (file_size v _ - _)) by lia. fold n.
  destruct (read_loop_spec N v l (transfer_fuel v n) Hok Hl (rd_off_ fd) n (rd_place v fd) (rd_cluster_off_ fd) Hcur)
    as (c & off & -> & Hcur'); [lia|lia|intros _; apply (transfer_fuel_enough N); [done|lia|lia]|].
  cbn [mbind outcome_bind]. rewrite length_fbytes by lia. eexists. split; [reflexivity|].
  pose proof (cursor_nonzero N v l _ _ _ Hl Hcur') as Hnz. split; [|done].
  split; simpl; [by split|lia|]. unfold rd_place. simpl. by destruct (Z.eqb_spec c 0).
Qed.

Lemma load_cluster_spec N v l fuel : vol_ok N v → is_chain N (fat_val v) l → ∀ k offset,
  0 ≤ offset → Z.of_nat k * bytes_per_cluster v + offset ≤ Z.of_nat (length l) * bytes_per_cluster v →
  offset < (Z.of_nat fuel + 1) * bytes_per_cluster v →
  ∃ c off, load_cluster fuel v offset (default kEndOfClusterchain (l !! k)) = Done (off, c) ∧
    cursor v l (Z.of_nat k * bytes_per_cluster v + offset) c off.
Proof.
  intros Hok Hl. pose proof (bpc_pos N v Hok) as HB. induction fuel as [|fuel IH]; intros k offset Ho Hend Hfuel.
  all: destruct (Z.ltb_spec offset (bytes_per_cluster v)) as [Hlt|Hge].
  all: try (eexists _, offset; cbn [load_cluster]; destruct (Z.ltb_spec offset (bytes_per_cluster v)); [|lia];
    (split; [reflexivity|]); destruct (pos_div (bytes_per_cluster v) (Z.of_nat k) offset) as [E1 E2]; [lia|lia|];
    split; [lia|]; rewrite E1, E2, Nat2Z.id; by split).
  cbn [load_cluster]. destruct (Z.ltb_spec offset (bytes_per_cluster v)); [lia|].
  destruct (lookup_lt_is_Some_2 l k) as [c Hc]; [nia|]. rewrite Hc.
  change (default kEndOfClusterchain (Some c)) with c. rewrite (NextCluster_chain N v l k c Hok Hl Hc). cbn [mbind outcome_bind].
  destruct (IH (S k) (offset - bytes_per_cluster v)) as (c' & off & E & Hcur); [lia|lia|lia|].
  exists c', off. split; [exact E|].
  by replace (Z.of_nat k * bytes_per_cluster v + offset) with (Z.of_nat (S k) * bytes_per_cluster v + (offset - bytes_per_cluster v)) by lia.
Qed.

Lemma fat_Load_spec N v e l fd len offset : vol_ok N v → file_at N v e l → fat_entry_ fd = e → 0 ≤ len →
  0 ≤ offset ≤ file_size v e →
  fat_Load v fd len offset = Done (fbytes v l offset (Z.min len (file_size v e - offset))).
Proof.
  intros Hok Hf <- Hlen Hoff. pose proof (bpc_pos N v Hok). pose proof Hf as [Hl Hfirst Hsize _]. unfold fat_Load.
  destruct (load_cluster_spec N v l (transfer_fuel v offset) Hok Hl 0 offset) as (c & off & E & Hcur); [lia|lia| |].
  { pose proof (transfer_fuel_enough N v 0 offset Hok). lia. }
  assert (Hh : default kEndOfClusterchain (l !! 0%nat) = FirstCluster v (fat_entry_ fd)).
  { destruct l as [|d l]; [done|]. by injection Hfirst as ->. }
  rewrite Hh in E. rewrite E. cbn [mbind outcome_bind]. rewrite Z.mul_0_l, Z.add_0_l in Hcur.
  pose proof (cursor_nonzero N v l _ _ _ Hl Hcur) as Hnz.
  destruct (fat_Read_spec N v l (set_rd (new_FatFD (fat_entry_ fd)) offset c off) len Hok) as (fd' & -> & _); [|done|done].
  split; simpl; [done|lia|]. unfold rd_place. simpl. by destruct (Z.eqb_spec c 0).
Qed.

(** What a reader has still to deliver. *)
Definition unread (v : Volume) (l : list Z) (fd : FatFD) : list Z :=
  fbytes v l (rd_off_ fd) (file_size v (fat_entry_ fd) - rd_off_ fd).

(** A file is a source of its bytes. *)
#[export] Program Instance FatFile_source : FileSource (Volume * FatFD) := {|
  rest s bytes := ∃ N l, vol_ok N s.1 ∧ reader_ok N s.1 l s.2 ∧ bytes = unread s.1 l s.2;
|}.
Next Obligation.
  intros [v fd] (N & l & Hok & Hr & Hb). simpl in *. destruct (fat_Read_spec N v l fd 1 Hok Hr ltac:(lia)) as (fd' & -> & Hr' & He & Ho).
  assert (Hz : file_size v (fat_entry_ fd) - rd_off_ fd = 0).
  { apply (f_equal length) in Hb. unfold unread, fbytes in Hb. rewrite length_fmap, length_seqZ in Hb. simpl in Hb. destruct Hr. lia. }
  rewrite Hz in *. change (1 `min` 0) with 0 in *. simpl. exists (v, fd'). split; [done|]. exists N, l. simpl.
  split_and!; [done..|]. unfold unread. rewrite He, Ho, Z.add_0_r, Hz. done.
Qed.
Next Obligation.
  intros [v fd] c bytes (N & l & Hok & Hr & Hb). simpl in *. destruct (fat_Read_spec N v l fd 1 Hok Hr ltac:(lia)) as (fd' & -> & Hr' & He & Ho).
  assert (Hz : 0 < file_size v (fat_entry_ fd) - rd_off_ fd).
  { apply (f_equal length) in Hb. unfold unread, fbytes in Hb. rewrite length_fmap, length_seqZ in Hb. simpl in Hb. lia. }
  unfold unread in Hb. rewrite Z.min_l in * by lia.
  replace (file_size v (fat_entry_ fd) - rd_off_ fd) with (1 + (file_size v (fat_entry_ fd) - (rd_off_ fd + 1))) in Hb by lia.
  rewrite fbytes_app in Hb by lia. exists (v, fd'). cbn [mbind outcome_bind].
  change (fbytes v l (rd_off_ fd) 1) with [fbyte v l (rd_off_ fd)] in *. injection Hb as -> ->. split; [done|].
  exists N, l. simpl. split_and!; [done..|]. unfold unread. by rewrite He, Ho.
Qed.
End FileFacts.

(** ** Writing *)
Module WriteFacts.
Import VolFacts ChainFacts AllocFacts FileFacts.

(** The place is in none of the clusters [l]. *)
Definition outside (v : Volume) (l : list Z) (a : Z) : Prop :=
  ∀ c, c ∈ l → ¬ (cluster_start v c ≤ a < cluster_start v c + bytes_per_cluster v).

(** [v'] is [v] with the bytes of the file [l] from [pos] on replaced by [data]. *)
Record wrote (N : Z) (v v' : Volume) (l : list Z) (pos : Z) (data : list Z) : Prop := {
  wr_ok : vol_ok N v';
  wr_geometry : same_geometry v v';
  wr_file i : 0 ≤ i < Z.of_nat (length l) * bytes_per_cluster v →
    fbyte v' l i = if decide (pos ≤ i < pos + Z.of_nat (length data)) then data !!! Z.to_nat (i - pos) else fbyte v l i;
  wr_other a : outside v l a → byte v' a = byte v a;
}.

(** Where a writer that has written [pos] bytes is: at the end of a cluster it has
    not yet moved to the next one. *)
Definition wcursor (v : Volume) (l : list Z) (pos cluster off : Z) : Prop :=
  0 ≤ pos ≤ Z.of_nat (length l) * bytes_per_cluster v ∧
  ∃ k, l !! k = Some cluster ∧ pos = Z.of_nat k * bytes_per_cluster v + off ∧ 0 ≤ off ≤ bytes_per_cluster v.

Lemma table_before_data N v a : vol_ok N v → GetFAT v ≤ a < GetFAT v + 4 * N → ∀ l, (∀ c, c ∈ l → 2 ≤ c < N) → outside v l a.
Proof.
  intros Hok Ha l Hl c Hc. destruct (cluster_bounds N v c Hok (Hl c Hc)). destruct Hok. lia.
Qed.

(** A change outside the table leaves its words alone. *)
Lemma fat_val_same N v v' i : same_geometry v v' → (∀ a, GetFAT v ≤ a < GetFAT v + 4 * N → byte v' a = byte v a) →
  0 ≤ i < N → fat_val v' i = fat_val v i.
Proof.
  intros Hs Hb Hi. destruct (geometry _ _ Hs) as (_ & _ & E & _). unfold fat_val. rewrite E.
  apply get32_agree. intros b Hb'. apply Hb. lia.
Qed.

Lemma wrote_table N v v' l pos data : vol_ok N v → (∀ c, c ∈ l → 2 ≤ c < N) → wrote N v v' l pos data →
  ∀ i, 0 ≤ i < N → fat_val v' i = fat_val v i.
Proof.
  intros Hok Hl [_ Hs _ Ho] i Hi. eapply fat_val_same; [done| |done]. intros a Ha. apply Ho. by eapply table_before_data.
Qed.

Lemma wrote_nil N v l pos : vol_ok N v → wrote N v v l pos [].
Proof. intros Hok. split; [done|done| |done]. intros i Hi. simpl. by rewrite decide_False by lia. Qed.

Lemma wrote_app N v v1 v2 l pos d1 d2 : wrote N v v1 l pos d1 → wrote N v1 v2 l (pos + Z.of_nat (length d1)) d2 →
  wrote N v v2 l pos (d1 ++ d2).
Proof.
  intros [A1 A2 A3 A4] [B1 B2 B3 B4]. destruct (geometry _ _ A2) as (_ & _ & _ & _ & Ec). pose proof (sg_bpc _ _ A2) as EB.
  split; [done|by etrans| |].
  - intros i Hi. rewrite B3 by (by rewrite EB). rewrite length_app, Nat2Z.inj_add.
    destruct (decide (pos + Z.of_nat (length d1) ≤ i < _)) as [H2|H2].
    + rewrite decide_True by lia. rewrite lookup_total_app_r by lia. f_equal. lia.
    + rewrite A3 by done. destruct (decide (pos ≤ i < pos + Z.of_nat (length d1))) as [H1|H1].
      * rewrite decide_True by lia. by rewrite lookup_total_app_l by lia.
      * by rewrite decide_False by lia.
  - intros a Ha. rewrite B4, A4; [done|done|]. intros c Hc. rewrite Ec, EB. by apply Ha.
Qed.

Lemma same_bytes_geometry N v v' : vol_ok N v → image_len v' = image_len v → bytes_per_cluster v' = bytes_per_cluster v →
  (∀ a, a < data_start v → byte v' a = byte v a) → same_geometry v v'.
Proof. intros Hok H1 H2 H3. split; [done|done|]. intros a Ha. apply H3. destruct Hok. lia. Qed.

(** One [memcpy] into a cluster of the file. *)
Lemma write_chunk N v l k c off data : vol_ok N v → NoDup l → (∀ c, c ∈ l → 2 ≤ c < N) → l !! k = Some c → 0 ≤ off →
  off + Z.of_nat (length data) ≤ bytes_per_cluster v → Forall (λ x, 0 ≤ x < 256) data →
  ∃ v', write_bytes v (GetClusterAddr v c + off) data = Done v' ∧
    wrote N v v' l (Z.of_nat k * bytes_per_cluster v + off) data.
Proof.
  intros Hok Hnd Hl Hk Hoff Hfit Hdata. assert (Hc : 2 ≤ c < N) by (apply Hl; by eapply list_elem_of_lookup_2).
  pose proof (bpc_pos N v Hok) as HB. destruct (cluster_bounds N v c Hok Hc) as [Hlo Hhi].
  rewrite (GetClusterAddr_eq N) by done. unfold write_bytes, in_image.
  assert (0 ≤ data_start v) by (destruct Hok; lia).
  destruct (Z.leb_spec 0 (cluster_start v c + off)); [|lia].
  destruct (Z.leb_spec (cluster_start v c + off + Z.of_nat (length data)) (image_len v)); [|lia]. cbn [andb].
  eexists. split; [reflexivity|]. set (v' := put_bytes v (cluster_start v c + off) data).
  destruct (put_bytes_meta v (cluster_start v c + off) data) as [Hm1 Hm2]. fold v' in Hm1, Hm2.
  assert (Hbyte : ∀ b, byte v' b = if decide (cluster_start v c + off ≤ b < cluster_start v c + off + Z.of_nat (length data))
    then data !!! Z.to_nat (b - (cluster_start v c + off)) else byte v b).
  { intros b. unfold v'. rewrite byte_put_bytes. case_decide as Hb; [|done]. apply wrap_small.
    rewrite Forall_lookup in Hdata. destruct (lookup_lt_is_Some_2 data (Z.to_nat (b - (cluster_start v c + off)))) as [x Hx]; [lia|].
    rewrite (list_lookup_total_correct _ _ _ Hx). by eapply Hdata. }
  assert (Hs : same_geometry v v').
  { apply (same_bytes_geometry N); [done|done|done|]. intros a Ha. rewrite Hbyte. by rewrite decide_False by lia. }
  destruct (geometry _ _ Hs) as (_ & _ & _ & _ & Ec). split; [|done| |].
  - eapply vol_ok_same; [done|done|]. apply put_bytes_range, Hok.
  - intros i Hi. unfold fbyte. rewrite Hm2, Ec, Hbyte. set (B := bytes_per_cluster v) in *.
    pose proof (Z.mod_pos_bound i B ltac:(lia)) as Hmod. pose proof (Z.div_mod i B ltac:(lia)) as Hdm.
    assert (Hq : 0 ≤ i / B < Z.of_nat (length l)) by (split; [apply Z.div_pos; lia|apply Z.div_lt_upper_bound; lia]).
    destruct (lookup_lt_is_Some_2 l (Z.to_nat (i / B))) as [d Hd]; [lia|]. rewrite (list_lookup_total_correct _ _ _ Hd).
    destruct (decide (Z.of_nat k * B + off ≤ i < Z.of_nat k * B + off + Z.of_nat (length data))) as [Hin|Hout].
    + assert (Hik : i / B = Z.of_nat k) by (symmetry; apply (Z.div_unique i B _ (i - Z.of_nat k * B)); lia).
      rewrite Hik, Nat2Z.id in Hd. assert (d = c) as -> by congruence. rewrite Hik in Hdm.
      rewrite decide_True by lia. f_equal. f_equal. lia.
    + destruct (decide _) as [Hb|Hb]; [|done]. exfalso.
      destruct (cluster_apart N v d c (i mod B) (cluster_start v d + i mod B - cluster_start v c) Hok) as [-> Heq]; [fold B; lia|fold B; lia|lia|].
      assert (Z.to_nat (i / B) = k) by (eapply NoDup_lookup; done). nia.
  - intros a Ha. rewrite Hbyte. rewrite decide_False; [done|]. intros Hin. apply (Ha c); [by eapply list_elem_of_lookup_2|lia].
Qed.

(** The loop of [Write] in clusters the file already has. *)
Lemma write_loop_spec N l fuel : ∀ v data pos cluster off, vol_ok N v → is_chain N (fat_val v) l →
  wcursor v l pos cluster off → pos + Z.of_nat (length data) ≤ Z.of_nat (length l) * bytes_per_cluster v →
  Forall (λ x, 0 ≤ x < 256) data →
  (data ≠ [] → off mod bytes_per_cluster v + Z.of_nat (length data) ≤ Z.of_nat fuel * bytes_per_cluster v) →
  ∃ v' cluster' off', write_loop fuel v data cluster off = Done (v', cluster', off') ∧
    wrote N v v' l pos data ∧ wcursor v l (pos + Z.of_nat (length data)) cluster' off'.
Proof.
  induction fuel as [|fuel IH]; intros v data pos cluster off Hok Hl Hcur Hend Hdata Hfuel; pose proof (bpc_pos N v Hok) as HB.
  - destruct data as [|x data].
    + exists v, cluster, off. split; [done|]. split; [by apply wrote_nil|]. simpl. by rewrite Z.add_0_r.
    + exfalso. specialize (Hfuel ltac:(done)). pose proof (Z.mod_pos_bound off (bytes_per_cluster v) ltac:(lia)). simpl in Hfuel. lia.
  - destruct (decide (data = [])) as [->|Hne].
    { exists v, cluster, off. split; [done|]. split; [by apply wrote_nil|]. simpl. by rewrite Z.add_0_r. }
    assert (Hlen : 0 < Z.of_nat (length data)) by (destruct data; [done|simpl; lia]).
    cbn [write_loop]. destruct (Z.leb_spec (Z.of_nat (length data)) 0); [lia|].
    set (B := bytes_per_cluster v) in *. pose proof (vo_count _ _ Hok) as HN.
    assert (Hnd : NoDup l) by (eapply is_chain_NoDup; [|exact Hl]; lia).
    assert (Hrange : ∀ c, c ∈ l → 2 ≤ c < N) by (intros c Hc; by eapply is_chain_range).
    destruct Hcur as ([Hpos _] & k & Hk & Hposk & Hoff). fold B in Hposk, Hoff.
    (* the cluster to write in *)
    assert (Hnext : ∃ c1 off1 k1, next_write_cluster v cluster off (Z.of_nat (length data)) = Done (v, c1, off1) ∧
      l !! k1 = Some c1 ∧ pos = Z.of_nat k1 * B + off1 ∧ 0 ≤ off1 < B ∧ off1 = off mod B).
    { unfold next_write_cluster. fold B. destruct (Z.eqb_spec off B) as [->|Hnb].
      - rewrite (NextCluster_chain N v l k cluster Hok Hl Hk). cbn [mbind outcome_bind].
        destruct (lookup_lt_is_Some_2 l (S k)) as [c1 Hc1]; [fold B in Hend; nia|]. rewrite Hc1.
        change (default kEndOfClusterchain (Some c1)) with c1. assert (2 ≤ c1 < N) by (apply Hrange; by eapply list_elem_of_lookup_2).
        destruct (Z.eqb_spec c1 kEndOfClusterchain) as [->|_]; [unfold kEndOfClusterchain in *; lia|].
        exists c1, 0, (S k). rewrite Z.mod_same by lia. split_and!; [done|done|lia|lia|lia|done].
      - exists cluster, off, k. rewrite Z.mod_small by lia. split_and!; [done|done|lia|lia|lia|done]. }
    destruct Hnext as (c1 & off1 & k1 & -> & Hk1 & Hpos1 & Hoff1 & Hmod). cbn [mbind outcome_bind].
    fold B. set (n := Z.of_nat (length data) `min` (B - off1)).
    assert (Hn : Z.of_nat (length (take (Z.to_nat n) data)) = n) by (rewrite length_take; lia).
    assert (Hdrop : Z.of_nat (length (drop (Z.to_nat n) data)) = Z.of_nat (length data) - n) by (rewrite length_drop; lia).
    destruct (write_chunk N v l k1 c1 off1 (take (Z.to_nat n) data) Hok Hnd Hrange Hk1) as (v1 & E1 & W1);
      [lia|fold B; lia|by apply Forall_take|].
    fold B in W1. rewrite E1. cbn [mbind outcome_bind]. rewrite <- Hpos1 in W1.
    pose proof (sg_bpc _ _ (wr_geometry _ _ _ _ _ _ W1)) as EB. fold B in EB.
    assert (Hl1 : is_chain N (fat_val v1) l).
    { eapply is_chain_ext; [|exact Hl]. intros c Hc. symmetry. eapply wrote_table; [exact Hok|exact Hrange|exact W1|].
      specialize (Hrange c Hc). lia. }
    destruct (IH v1 (drop (Z.to_nat n) data) (pos + n) c1 (off1 + n)) as (v' & c' & off' & E & W & Hcur').
    + apply W1.
    + done.
    + rewrite <- (Z.mul_1_l n). split; [rewrite EB; fold B in Hend; lia|]. exists k1. rewrite EB. split_and!; [done|lia|lia|lia].
    + rewrite EB, Hdrop. fold B in Hend. lia.
    + by apply Forall_drop.
    + intros Hmore. assert (Hmore' : 0 < Z.of_nat (length data) - n) by (rewrite <- Hdrop; destruct (drop _ _); [done|simpl; lia]).
      rewrite EB, Hdrop. assert (off1 + n = B) as -> by lia. rewrite Z.mod_same by lia. specialize (Hfuel Hne). lia.
    + exists v', c', off'. split; [exact E|]. split.
      * rewrite <- (take_drop (Z.to_nat n) data). eapply wrote_app; [exact W1|]. by rewrite Hn.
      * rewrite Hdrop in Hcur'. replace (pos + n + (Z.of_nat (length data) - n)) with (pos + Z.of_nat (length data)) in Hcur' by lia.
        destruct Hcur' as (H1 & k' & H2 & H3 & H4). rewrite EB in H1, H3, H4. split; [exact H1|]. by exists k'.
Qed.
End WriteFacts.

(** ** Files from nothing *)
Module FreshFacts.
Import VolFacts ChainFacts AllocFacts FileFacts WriteFacts.

(** The entry at [e] lies in the directory cluster [d]. *)
Record entry_at (N : Z) (v : Volume) (d e : Z) : Prop := {
  ea_cluster : 2 ≤ d < N;
  ea_used : fat_val v d ≠ 0;
  ea_lo : cluster_start v d ≤ e;
  ea_hi : e + 32 ≤ cluster_start v d + bytes_per_cluster v;
}.

(** Only bytes of the entry changed. *)
Record entry_set (N : Z) (e : Z) (v v' : Volume) : Prop := {
  es_ok : vol_ok N v';
  es_geometry : same_geometry v v';
  es_other a : ¬ (e ≤ a < e + 32) → byte v' a = byte v a;
}.

Lemma entry_set_refl N e v : vol_ok N v → entry_set N e v v.
Proof. by split. Qed.

Lemma put8_entry N e v v' a x : entry_set N e v v' → data_start v ≤ e → e ≤ a < e + 32 → entry_set N e v (put8 v' a x).
Proof.
  intros [H1 H2 H3] He Ha. assert (Hs : same_geometry v (put8 v' a x)).
  { destruct (geometry _ _ H2) as (_ & _ & E & E' & _). split; [apply H2|apply H2|]. intros b Hb. rewrite byte_put8.
    rewrite decide_False; [by apply H2|]. destruct H1. lia. }
  split; [|done|].
  - destruct (geometry _ _ H2) as (_ & _ & E & E' & _).
    eapply (vol_ok_same N v'); [done| |].
    + split; [done|done|]. intros b Hb. rewrite byte_put8, decide_False; [done|]. destruct H1. lia.
    + intros b. rewrite byte_put8. case_decide; [apply (wrap_bound 8); lia|apply H1].
  - intros b Hb. rewrite byte_put8, decide_False by lia. by apply H3.
Qed.

Lemma put16_entry N e v v' a x : entry_set N e v v' → data_start v ≤ e → e ≤ a → a + 2 ≤ e + 32 → entry_set N e v (put16 v' a x).
Proof. intros. unfold put16. apply put8_entry; [apply put8_entry; [done|done|lia]|done|lia]. Qed.

Lemma put32_entry N e v v' a x : entry_set N e v v' → data_start v ≤ e → e ≤ a → a + 4 ≤ e + 32 → entry_set N e v (put32 v' a x).
Proof. intros. unfold put32. apply put16_entry; [apply put16_entry; [done|done|lia|lia]|done|lia|lia]. Qed.

Lemma entry_set_table N d e v v' i : entry_at N v d e → vol_ok N v → entry_set N e v v' → 0 ≤ i < N → fat_val v' i = fat_val v i.
Proof.
  intros [Hd _ Hlo Hhi] Hok [_ Hs Ho] Hi. eapply fat_val_same; [done| |done]. intros a Ha. apply Ho.
  destruct (cluster_bounds N v d Hok Hd). destruct Hok. lia.
Qed.

(** The entry is apart from the clusters of a file that does not hold it. *)
Lemma entry_outside N v d e l a : vol_ok N v → entry_at N v d e → d ∉ l → e ≤ a < e + 32 → outside v l a.
Proof.
  intros Hok [Hd _ Hlo Hhi] Hdl Ha c Hc Hin. pose proof (bpc_pos N v Hok).
  destruct (cluster_apart N v c d (a - cluster_start v c) (a - cluster_start v d) Hok) as [-> _]; [lia|lia|lia|done].
Qed.

Lemma FirstCluster_get v e : FirstCluster v e = Z.lor (get16 v (e + 26)) (Z.shiftl (get16 v (e + 20)) 16).
Proof. done. Qed.

Lemma join16 c : 0 ≤ c < 2 ^ 32 → Z.lor (u16 (Z.land c 0xffff)) (Z.shiftl (u16 (Z.land (Z.shiftr c 16) 0xffff)) 16) = c.
Proof.
  intros Hc. change 0xffff with (Z.ones 16). rewrite !Z.land_ones, Z.shiftr_div_pow2 by done.
  rewrite !(wrap_small 16) by (apply Z.mod_pos_bound; lia). rewrite Z.shiftl_mul_pow2 by done.
  rewrite lor_disjoint_add; [dlia|]. rewrite <- Z.shiftl_mul_pow2 by done.
  apply Z.bits_inj'. intros i Hi. rewrite Z.land_spec, Z.bits_0, Z.shiftl_spec by done.
  destruct (decide (i < 16)).
  - rewrite (Z.testbit_neg_r _ (i - 16)) by lia. apply andb_false_r.
  - rewrite (testbit_high 16 (c mod 2 ^ 16)); [done|apply Z.mod_pos_bound; lia|lia].
Qed.

Lemma num_cluster_bounds N v len : vol_ok N v → 0 < len →
  1 ≤ num_cluster v len ∧ len ≤ num_cluster v len * bytes_per_cluster v.
Proof.
  intros Hok Hlen. pose proof (bpc_pos N v Hok) as HB. unfold num_cluster. set (B := bytes_per_cluster v) in *.
  pose proof (Z.div_mod (len + B - 1) B ltac:(lia)). pose proof (Z.mod_pos_bound (len + B - 1) B ltac:(lia)).
  split; [apply Z.div_le_lower_bound; lia|lia].
Qed.

(** The first cluster for a file that has none: the chain [F] that is allocated. *)
Lemma first_write_cluster_spec N v d e len : vol_ok N v → entry_at N v d e → FirstCluster v e = 0 → 0 < len →
  num_cluster v len ≤ Z.of_nat (length (free_from N (fat_val v) 2)) →
  let F := take (Z.to_nat (num_cluster v len)) (free_from N (fat_val v) 2) in
  ∃ v1 v3 c, first_write_cluster v (new_FatFD e) len = Done (v3, c) ∧ head F = Some c ∧
    table_set N (fat_val v1) v v1 ∧ extended N (fat_val v) (fat_val v1) [] F ∧ entry_set N e v1 v3 ∧ FirstCluster v3 e = c.
Proof.
  intros Hok He Hf Hlen Hfree F. destruct (num_cluster_bounds N v len Hok Hlen) as [Hk _].
  destruct (AllocateClusterChain_spec N v (Z.to_nat (num_cluster v len)) Hok) as (v1 & c & E & Hc & T & X); [lia|lia|].
  fold F in Hc, X. unfold first_write_cluster. simpl. rewrite Hf. simpl. rewrite Z2Nat.id in E by lia. rewrite E.
  cbn [mbind outcome_bind]. eexists v1, _, c. split; [reflexivity|]. split_and!; [done..| |].
  - destruct (geometry _ _ (ts_geometry _ _ _ _ T)) as (_ & _ & _ & Ed & _).
    assert (data_start v1 ≤ e). { rewrite Ed. destruct He. destruct (cluster_bounds N v d Hok ea_cluster0). lia. }
    apply put16_entry; [apply put16_entry; [by apply entry_set_refl, T|done|lia|lia]|done|lia|lia].
  - rewrite FirstCluster_get, get16_put16_other, !get16_put16 by lia. apply join16.
    assert (Hcr : 2 ≤ c < N).
    { eapply is_chain_range; [apply X|]. simpl. destruct F; [done|]. injection Hc as ->. set_solver. }
    pose proof (vo_count _ _ Hok). lia.
Qed.

Lemma fbyte_same v v' l i : same_geometry v v' →
  (∀ a, ¬ outside v l a → byte v' a = byte v a) →
  0 < bytes_per_cluster v → 0 ≤ i < Z.of_nat (length l) * bytes_per_cluster v → fbyte v' l i = fbyte v l i.
Proof.
  intros Hs Hb HB Hi. destruct (geometry _ _ Hs) as (_ & _ & _ & _ & Ec). unfold fbyte. rewrite (sg_bpc _ _ Hs), Ec.
  apply Hb. intros Hout. set (B := bytes_per_cluster v) in *.
  assert (Hq : 0 ≤ i / B < Z.of_nat (length l)) by (split; [apply Z.div_pos; lia|apply Z.div_lt_upper_bound; lia]).
  destruct (lookup_lt_is_Some_2 l (Z.to_nat (i / B))) as [c Hc]; [lia|]. rewrite (list_lookup_total_correct _ _ _ Hc) in Hout.
  apply (Hout c); [by eapply list_elem_of_lookup_2|]. fold B. pose proof (Z.mod_pos_bound i B HB). lia.
Qed.
(** The volumes a first [Write] goes through: [v1] with the clusters [F] chained,
    [v3] with the entry pointing to them, [v4] with the data, [v5] with the size. *)
Record fresh_write (N : Z) (v : Volume) (d e : Z) (data F : list Z) (v1 v3 v4 v5 : Volume) : Prop := {
  fr_table : table_set N (fat_val v1) v v1;
  fr_chain : is_chain N (fat_val v1) F;
  fr_others i : 0 ≤ i < N → i ∉ F → fat_val v1 i = fat_val v i;
  fr_free x : x ∈ F → 2 ≤ x < N ∧ fat_val v x = 0;
  fr_count : Z.of_nat (length F) = num_cluster v (Z.of_nat (length data));
  fr_entry : entry_set N e v1 v3;
  fr_data : wrote N v3 v4 F 0 data;
  fr_end : entry_set N e v4 v5;
  fr_used : d ∉ F;
  fr_place : entry_at N v4 d e;
  fr_vals i : 0 ≤ i < N → fat_val v5 i = fat_val v1 i;
  fr_first : head F = Some (FirstCluster v5 e);
  fr_size : file_size v5 e = Z.of_nat (length data);
}.

Lemma fat_Write_fresh N v d e data : vol_ok N v → entry_at N v d e → FirstCluster v e = 0 →
  Forall (λ x, 0 ≤ x < 256) data → 0 < Z.of_nat (length data) < 2 ^ 32 →
  num_cluster v (Z.of_nat (length data)) ≤ Z.of_nat (length (free_from N (fat_val v) 2)) →
  ∃ F v1 v3 v4 v5 fd', fat_Write v (new_FatFD e) data = Done (Z.of_nat (length data), v5, fd') ∧
    fresh_write N v d e data F v1 v3 v4 v5.
Proof.
  set (len := Z.of_nat (length data)) in *. intros Hok He Hnew Hdata Hlen Hfree.
  destruct (first_write_cluster_spec N v d e len Hok He Hnew) as (v1 & v3 & c & E1 & Hc & T & [X1 X2] & S3 & Hfc); [lia|done|].
  set (F := take _ _) in *. simpl in X1, X2.
  destruct (num_cluster_bounds N v len Hok) as [Hk Hroom]; [lia|].
  assert (HF : ∀ x, x ∈ F → 2 ≤ x < N ∧ fat_val v x = 0).
  { intros x Hx. apply (elem_of_free N _ 2). unfold F in Hx. rewrite <- (take_drop (Z.to_nat (num_cluster v len)) (free_from _ _ _)). set_solver. }
  assert (HlenF : Z.of_nat (length F) = num_cluster v len) by (unfold F; rewrite length_take; lia).
  assert (HdF : d ∉ F) by (intros Hd; apply HF in Hd as [_ Hd]; by apply (ea_used _ _ _ _ He)).
  (* the geometry is that of [v] throughout *)
  destruct (geometry _ _ (ts_geometry _ _ _ _ T)) as (_ & _ & EF1 & ED1 & EC1).
  pose proof (sg_bpc _ _ (ts_geometry _ _ _ _ T)) as EB1.
  assert (He1 : entry_at N v1 d e).
  { destruct He. split; rewrite ?EC1, ?EB1; try done. rewrite X2; [done|lia|done]. }
  assert (S3' := es_geometry _ _ _ _ S3). destruct (geometry _ _ S3') as (_ & _ & EF3 & ED3 & EC3). pose proof (sg_bpc _ _ S3') as EB3.
  assert (Hv3 : ∀ i, 0 ≤ i < N → fat_val v3 i = fat_val v1 i) by (intros i; eapply entry_set_table; [exact He1|apply T|done]).
  assert (Hch3 : is_chain N (fat_val v3) F).
  { eapply is_chain_ext; [|exact X1]. intros x Hx. symmetry. apply Hv3. apply HF in Hx. lia. }
  assert (Hdl : data_start v1 ≤ e) by (rewrite ED1; destruct He; destruct (cluster_bounds N v d Hok ea_cluster0); lia).
  destruct (write_loop_spec N F (transfer_fuel v3 len) v3 data 0 c 0) as (v4 & c4 & off4 & E4 & W4 & _).
  - apply S3.
  - done.
  - split; [split; [done|apply Z.mul_nonneg_nonneg; [lia|pose proof (bpc_pos N v3 (es_ok _ _ _ _ S3)); lia]]|].
    exists 0%nat. split; [by destruct F|]. pose proof (bpc_pos N v3 (es_ok _ _ _ _ S3)). lia.
  - rewrite HlenF, EB3, EB1. fold len. lia.
  - done.
  - intros _. rewrite Z.mod_0_l by (pose proof (bpc_pos N v3 (es_ok _ _ _ _ S3)); lia).
    pose proof (transfer_fuel_enough N v3 0 len (es_ok _ _ _ _ S3)). pose proof (bpc_pos N v3 (es_ok _ _ _ _ S3)). fold len. lia.
  - assert (S4' := wr_geometry _ _ _ _ _ _ W4). destruct (geometry _ _ S4') as (_ & _ & EF4 & ED4 & EC4). pose proof (sg_bpc _ _ S4') as EB4.
    assert (S5 : entry_set N e v4 (put32 v4 (e + 28) len)).
    { apply put32_entry; [apply entry_set_refl, W4|rewrite ED4, ED3; lia|lia|lia]. }
    assert (He3 : entry_at N v3 d e) by (destruct He1; split; rewrite ?EC3, ?EB3, ?Hv3 by lia; done).
    assert (Hv4 : ∀ i, 0 ≤ i < N → fat_val v4 i = fat_val v3 i).
    { intros i. eapply wrote_table; [apply S3|intros x Hx; by apply HF|exact W4]. }
    assert (He4 : entry_at N v4 d e) by (destruct He3; split; rewrite ?EC4, ?EB4, ?Hv4 by lia; done).
    assert (Hout4 : ∀ a, e ≤ a < e + 32 → byte v4 a = byte v3 a).
    { intros a Ha. apply (wr_other _ _ _ _ _ _ W4). eapply entry_outside; [apply S3|exact He3|done|done]. }
    exists F, v1, v3, v4, (put32 v4 (e + 28) len), (set_wr (new_FatFD e) len c4 off4). split.
    + unfold fat_Write. fold len. rewrite E1. cbn [mbind outcome_bind]. simpl wr_cluster_off_. rewrite E4. cbn [mbind outcome_bind]. done.
    + split; try done.
      * intros i Hi. rewrite <- Hv3, <- Hv4 by done. eapply entry_set_table; [exact He4|apply W4|done|done].
      * rewrite Hc, <- Hfc, !FirstCluster_get. do 2 f_equal; [|f_equal]; apply get16_agree; intros b Hb;
          (rewrite byte_put32 by lia; symmetry; apply Hout4; lia).
      * unfold file_size. rewrite get32_put32. apply wrap_small. lia.
Qed.

(** The file that results: its chain and its bytes. *)
Lemma fresh_file N v d e data F v1 v3 v4 v5 : vol_ok N v → 0 < Z.of_nat (length data) < 2 ^ 32 →
  fresh_write N v d e data F v1 v3 v4 v5 → file_at N v5 e F ∧ fbytes v5 F 0 (Z.of_nat (length data)) = data.
Proof.
  intros Hok Hlen [T X1 X2 HF HlenF S3 W4 S5 HdF He4 Hv5 Hfirst Hsize5].
  destruct (num_cluster_bounds N v (Z.of_nat (length data)) Hok) as [Hk Hroom]; [lia|].
  pose proof (sg_bpc _ _ (ts_geometry _ _ _ _ T)) as EB1. pose proof (sg_bpc _ _ (es_geometry _ _ _ _ S3)) as EB3.
  pose proof (sg_bpc _ _ (wr_geometry _ _ _ _ _ _ W4)) as EB4. pose proof (sg_bpc _ _ (es_geometry _ _ _ _ S5)) as EB5.
  split; [split|].
  - eapply is_chain_ext; [|exact X1]. intros x Hx. symmetry. apply Hv5. apply HF in Hx. lia.
  - done.
  - rewrite Hsize5, HlenF, EB5, EB4, EB3, EB1. lia.
  - rewrite Hsize5. lia.
  - unfold fbytes. apply list_eq_same_length with (n := length data); [done|rewrite length_fmap, length_seqZ; lia|].
    intros i x y Hi Hx Hy. apply list_lookup_fmap_Some in Hx as (a & -> & Ha). apply lookup_seqZ in Ha as [-> _].
    rewrite Z.add_0_l. assert (Hin : 0 ≤ Z.of_nat i < Z.of_nat (length F) * bytes_per_cluster v4) by (rewrite HlenF, EB4, EB3, EB1; lia).
    rewrite (fbyte_same v4 v5) by (first [apply S5|done|(pose proof (bpc_pos N v4 (wr_ok _ _ _ _ _ _ W4)); lia)|
      (intros b Hb; apply (es_other _ _ _ _ S5); intros Hbe; apply Hb; eapply entry_outside; [apply W4|exact He4|done|done])]).
    rewrite EB4 in Hin. rewrite (wr_file _ _ _ _ _ _ W4 _ Hin), decide_True by lia.
    rewrite Z.sub_0_r, Nat2Z.id. by apply list_lookup_total_correct.
Qed.

(** What it leaves alone. *)
Lemma fresh_frame N v d e data F v1 v3 v4 v5 : fresh_write N v d e data F v1 v3 v4 v5 →
  (∀ l, is_chain N (fat_val v) l → is_chain N (fat_val v5) l) ∧
  (∀ a, ¬ (GetFAT v ≤ a < GetFAT v + 4 * N) → ¬ (e ≤ a < e + 32) → outside v F a → byte v5 a = byte v a).
Proof.
  intros [T X1 X2 HF HlenF S3 W4 S5 HdF He4 Hv5 Hfirst Hsize5].
  destruct (geometry _ _ (ts_geometry _ _ _ _ T)) as (_ & _ & _ & _ & EC1). pose proof (sg_bpc _ _ (ts_geometry _ _ _ _ T)) as EB1.
  destruct (geometry _ _ (es_geometry _ _ _ _ S3)) as (_ & _ & _ & _ & EC3). pose proof (sg_bpc _ _ (es_geometry _ _ _ _ S3)) as EB3.
  split.
  - intros l Hl. eapply is_chain_ext; [|exact Hl]. intros x Hx. pose proof (is_chain_range _ _ _ _ Hl Hx).
    rewrite Hv5, X2 by (lia || (intros Hx'; apply HF in Hx' as [_ Hx']; by apply (is_chain_nonzero _ _ _ _ Hl Hx))). done.
  - intros a Ha1 Ha2 Ha3. rewrite (es_other _ _ _ _ S5 a Ha2), (wr_other _ _ _ _ _ _ W4).
    + rewrite (es_other _ _ _ _ S3 a Ha2). by apply (ts_data _ _ _ _ T).
    + intros x Hx. rewrite EC3, EC1, EB3, EB1. by apply Ha3.
Qed.
End FreshFacts.

Import VolFacts ChainFacts AllocFacts FileFacts WriteFacts FreshFacts.

(** ** Properties *)

(** C27 Load
    [Load] gives the bytes of the file at an offset.  For a file whose clusters
    form the chain [l], it returns those from [offset] up to the length asked for
    or the end of the file, wherever they lie in the image, and always ends. *)
Theorem Load_slice (N : Z) (v : Volume) (fd : FatFD) (l : list Z) (len offset : Z)
  (Hok : vol_ok N v) (Hfile : file_at N v (fat_entry_ fd) l) (Hlen : 0 ≤ len)
  (Hoff : 0 ≤ offset ≤ file_size v (fat_entry_ fd)) :
  fat_Load v fd len offset = Done (fbytes v l offset (Z.min len (file_size v (fat_entry_ fd) - offset))).
Proof. by apply (fat_Load_spec N v (fat_entry_ fd)). Qed.

Lemma Load_slice_witness :
  fat_Load sample_volume (new_FatFD 192) 40 60 = Done (fbytes sample_volume [3; 5] 60 40) ∧
  fbytes sample_volume [3; 5] 64 2 = [0; 9].
Proof.
  split; [|vm_compute; reflexivity].
  apply (Load_slice 16 sample_volume (new_FatFD 192) [3; 5] 40 60); [apply sample_volume_ok| |lia|vm_compute; split; congruence].
  split; [apply sample_chain|reflexivity|vm_compute; split; congruence|vm_compute; reflexivity].
Defined.

(** C8 Write
    What is written to a new file is read back.  On a well-formed volume with
    enough free clusters, the first [Write] to an entry without clusters returns
    the length written; reading the entry from the start then gives exactly the
    data, the volume is well formed, every chain there was is still a chain, and
    outside the table, the entry and the clusters newly taken, which were free, no
    byte has changed. *)
Theorem Write_Read_roundtrip (N : Z) (v : Volume) (d e : Z) (data : list Z) (max : Z)
  (Hok : vol_ok N v) (He : entry_at N v d e) (Hnew : FirstCluster v e = 0)
  (Hdata : Forall (λ x, 0 ≤ x < 256) data) (Hlen : 0 < Z.of_nat (length data) < 2 ^ 32)
  (Hmax : Z.of_nat (length data) ≤ max)
  (Hfree : num_cluster v (Z.of_nat (length data)) ≤ Z.of_nat (length (free_from N (fat_val v) 2))) :
  ∃ v' fd' F, fat_Write v (new_FatFD e) data = Done (Z.of_nat (length data), v', fd') ∧
    LoadFile v' max e = Done data ∧ file_size v' e = Z.of_nat (length data) ∧ vol_ok N v' ∧
    (∀ c, c ∈ F → fat_val v c = 0) ∧
    (∀ l, is_chain N (fat_val v) l → is_chain N (fat_val v') l) ∧
    (∀ a, ¬ (GetFAT v ≤ a < GetFAT v + 4 * N) → ¬ (e ≤ a < e + 32) → outside v F a → byte v' a = byte v a).
Proof.
  destruct (fat_Write_fresh N v d e data Hok He Hnew Hdata Hlen Hfree) as (F & v1 & v3 & v4 & v5 & fd' & E & Hfr).
  destruct (fresh_file _ _ _ _ _ _ _ _ _ _ Hok Hlen Hfr) as [Hfile Hbytes]. destruct (fresh_frame _ _ _ _ _ _ _ _ _ _ Hfr) as [Hch Hrest].
  pose proof (es_ok _ _ _ _ (fr_end _ _ _ _ _ _ _ _ _ _ Hfr)) as Hok5.
  exists v5, fd', F. split_and!; [done| |by apply Hfr|done| |done|done].
  - unfold LoadFile. destruct (fat_Read_spec N v5 F (new_FatFD e) max Hok5) as (fd2 & -> & _);
      [by apply new_reader_ok|lia|]. cbn [mbind outcome_bind new_FatFD rd_off_ fat_entry_].
    rewrite (fr_size _ _ _ _ _ _ _ _ _ _ Hfr), Z.sub_0_r, Z.min_r by lia. by rewrite Hbytes.
  - intros x Hx. by apply (fr_free _ _ _ _ _ _ _ _ _ _ Hfr).
Qed.

Lemma Write_Read_roundtrip_witness :
  let data := (λ i, i mod 256) <$> seqZ 1 150 in
  ∃ v' fd', fat_Write sample_volume (new_FatFD 224) data = Done (150, v', fd') ∧ LoadFile v' 4096 224 = Done data.
Proof.
  intros data.
  destruct (Write_Read_roundtrip 16 sample_volume 2 224 data 4096) as (v' & fd' & F & E & EL & _).
  - apply sample_volume_ok.
  - split; vm_compute; try (split; congruence); congruence.
  - reflexivity.
  - apply Forall_fmap. apply Forall_forall. intros i _. simpl. apply Z.mod_pos_bound. lia.
  - change (0 < 150 < 2 ^ 32). lia.
  - change (150 ≤ 4096). lia.
  - vm_compute. congruence.
  - exists v', fd'. split; [exact E|exact EL].
Defined.

(** A later [Write] that needs more than one new cluster does not: [ExtendCluster]
    returns the last of them, so the first is left as it was. *)
Lemma Write_skips_clusters :
  let a := [1] in
  let b := replicate 150 2 in
  ∃ v1 fd1 v2 fd2 got, fat_Write sample_volume (new_FatFD 224) a = Done (1, v1, fd1) ∧
    fat_Write v1 fd1 b = Done (150, v2, fd2) ∧
    LoadFile v2 4096 224 = Done got ∧ length got = length (a ++ b) ∧ got ≠ a ++ b.
Proof. cbv zeta. eexists _, _, _, _, _. split_and!; [vm_compute; reflexivity..|]. vm_compute. congruence. Qed.
