(* ===== verification/Segment.v ===== *)
(** Segment descriptors and the task state segment: src/kernel/segment.{hpp,cpp},
    x86_descriptor.hpp.  Descriptors are 64-bit words read through their bit
    fields; what [lgdt], [ltr] and the segment registers are loaded with is part
    of the result. *)
From S2P Require Import Prelude ErrorCode MemoryMap MemoryManager.
Import BitmapFacts AllocFacts.

(** [enum class DescriptorType] and the values of its enumerators. *)
Inductive DescriptorType : Set :=
| kUpper8Bytes | kLDT | kTSSAvailable | kTSSBusy | kCallGate | kInterruptGate | kTrapGate
| kReadWrite | kExecuteRead.

Definition descriptor_value (t : DescriptorType) : Z :=
  match t with
  | kUpper8Bytes => 0 | kLDT => 2 | kTSSAvailable => 9 | kTSSBusy => 11 | kCallGate => 12
  | kInterruptGate => 14 | kTrapGate => 15 | kReadWrite => 2 | kExecuteRead => 10
  end.

(** The fields of [union SegmentDescriptor]: first bit and width. *)
Inductive SegmentField : Set :=
| limit_low | base_low | base_middle | type_ | system_segment | descriptor_privilege_level | present_
| limit_high | available | long_mode | default_operation_size | granularity | base_high.

Definition field_place (f : SegmentField) : Z * Z :=
  match f with
  | limit_low => (0, 16) | base_low => (16, 16) | base_middle => (32, 8) | type_ => (40, 4)
  | system_segment => (44, 1) | descriptor_privilege_level => (45, 2) | present_ => (47, 1)
  | limit_high => (48, 4) | available => (52, 1) | long_mode => (53, 1)
  | default_operation_size => (54, 1) | granularity => (55, 1) | base_high => (56, 8)
  end.

Definition seg_get (d : Z) (f : SegmentField) : Z := field d (field_place f).1 (field_place f).2.
Definition seg_set (f : SegmentField) (x d : Z) : Z := set_field d (field_place f).1 (field_place f).2 x.

Definition kKernelCS : Z := Z.shiftl 1 3.
Definition kKernelSS : Z := Z.shiftl 2 3.
Definition kKernelDS : Z := 0.
Definition kTSS : Z := Z.shiftl 5 3.
Definition kISTForTimer : Z := 1.

(** [SetCodeSegment]: the new descriptor, whatever the old one was. *)
Definition SetCodeSegment (type : DescriptorType) (dpl base limit : Z) : Z :=
  let d := 0 in
  let d := seg_set base_low (Z.land base 0xffff) d in
  let d := seg_set base_middle (Z.land (Z.shiftr base 16) 0xff) d in
  let d := seg_set base_high (Z.land (Z.shiftr base 24) 0xff) d in
  let d := seg_set limit_low (Z.land limit 0xffff) d in
  let d := seg_set limit_high (Z.land (Z.shiftr limit 16) 0xff) d in
  let d := seg_set type_ (descriptor_value type) d in
  let d := seg_set system_segment 1 d in
  let d := seg_set descriptor_privilege_level dpl d in
  let d := seg_set present_ 1 d in
  let d := seg_set available 0 d in
  let d := seg_set long_mode 1 d in
  let d := seg_set default_operation_size 0 d in
  seg_set granularity 1 d.

Definition SetDataSegment (type : DescriptorType) (dpl base limit : Z) : Z :=
  let d := SetCodeSegment type dpl base limit in
  let d := seg_set long_mode 0 d in
  seg_set default_operation_size 1 d.

Definition SetSystemSegment (type : DescriptorType) (dpl base limit : Z) : Z :=
  let d := SetCodeSegment type dpl base limit in
  let d := seg_set system_segment 0 d in
  seg_set long_mode 0 d.

(** The static arrays [gdt] of 7 descriptors and [tss] of 26 words of 32 bits, and
    the registers that point to them. *)
Record Segments : Set := mkSegments {
  gdt : gmap Z Z;
  tss : gmap Z Z;
  gdtr : option (Z * Z);
  seg_ds : option Z;
  seg_cs_ss : option (Z * Z);
  task_register : option Z;
}.

Definition set_gdt (s : Segments) (i d : Z) : Segments :=
  mkSegments (<[i := d]> (gdt s)) (tss s) (gdtr s) (seg_ds s) (seg_cs_ss s) (task_register s).

(** [SetupSegments]; [gdt_addr] is the address of the array. *)
Definition SetupSegments (gdt_addr : Z) (s : Segments) : Segments :=
  let s := set_gdt s 0 0 in
  let s := set_gdt s 1 (SetCodeSegment kExecuteRead 0 0 0xfffff) in
  let s := set_gdt s 2 (SetDataSegment kReadWrite 0 0 0xfffff) in
  let s := set_gdt s 4 (SetCodeSegment kExecuteRead 3 0 0xfffff) in
  let s := set_gdt s 3 (SetDataSegment kReadWrite 3 0 0xfffff) in
  mkSegments (gdt s) (tss s) (Some (7 * 8 - 1, gdt_addr)) (seg_ds s) (seg_cs_ss s) (task_register s).

Definition InitializeSegmentation (gdt_addr : Z) (s : Segments) : Segments :=
  let s := SetupSegments gdt_addr s in
  mkSegments (gdt s) (tss s) (gdtr s) (Some kKernelDS) (Some (kKernelCS, kKernelSS)) (task_register s).

Definition SetTSS (index value : Z) (s : Segments) : Segments :=
  mkSegments (gdt s) (<[index + 1 := u32 (Z.shiftr value 32)]> (<[index := Z.land value 0xffffffff]> (tss s)))
    (gdtr s) (seg_ds s) (seg_cs_ss s) (task_register s).

(** [AllocateStackArea]; [None]: the kernel ends with [exit(1)]. *)
Definition AllocateStackArea (mm : BitmapMemoryManager) (num_4kframes : Z)
    : outcome (option Z * BitmapMemoryManager) :=
  '(stk, mm) ← Allocate mm num_4kframes;
  if error_bool (error stk) then mret (None, mm)
  else mret (Some (u64 (Frame (value stk) + num_4kframes * 4096)), mm).

(** [InitializeTSS]; [tss_addr] is the address of the array of 26 words. *)
Definition InitializeTSS (tss_addr : Z) (s : Segments) (mm : BitmapMemoryManager)
    : outcome (option Segments * BitmapMemoryManager) :=
  '(stk, mm) ← AllocateStackArea mm 8;
  match stk with
  | None => mret (None, mm)
  | Some stk =>
      let s := SetTSS 1 stk s in
      '(stk, mm) ← AllocateStackArea mm 8;
      match stk with
      | None => mret (None, mm)
      | Some stk =>
          let s := SetTSS (7 + 2 * kISTForTimer) stk s in
          let s := set_gdt s (Z.shiftr kTSS 3)
                     (SetSystemSegment kTSSAvailable 0 (Z.land tss_addr 0xffffffff) (26 * 4 - 1)) in
          let s := set_gdt s (Z.shiftr kTSS 3 + 1) (Z.shiftr tss_addr 32) in
          mret (Some (mkSegments (gdt s) (tss s) (gdtr s) (seg_ds s) (seg_cs_ss s) (Some kTSS)), mm)
      end
  end.

(** ** What the descriptors say *)
Module SegmentFacts.

(** Base and limit of a descriptor, put together from their parts. *)
Definition seg_base (d : Z) : Z := seg_get d base_low + 2 ^ 16 * seg_get d base_middle + 2 ^ 24 * seg_get d base_high.
Definition seg_limit (d : Z) : Z := seg_get d limit_low + 2 ^ 16 * seg_get d limit_high.

(** The descriptor that a selector picks. *)
Definition selected (s : Segments) (selector : Z) : Z := arr_read (gdt s) (Z.shiftr selector 3).

(** A present flat code segment for 64-bit code, and a present data segment. *)
Record code_segment (dpl d : Z) : Prop := {
  code_type : seg_get d type_ = descriptor_value kExecuteRead;
  code_system : seg_get d system_segment = 1;
  code_present : seg_get d present_ = 1;
  code_dpl : seg_get d descriptor_privilege_level = dpl;
  code_long : seg_get d long_mode = 1 ∧ seg_get d default_operation_size = 0;
}.

Record data_segment (dpl d : Z) : Prop := {
  data_type : seg_get d type_ = descriptor_value kReadWrite;
  data_system : seg_get d system_segment = 1;
  data_present : seg_get d present_ = 1;
  data_dpl : seg_get d descriptor_privilege_level = dpl;
}.

(** The 16-byte descriptor of an available 64-bit task state segment. *)
Record tss_segment (base limit d d_upper : Z) : Prop := {
  tss_type : seg_get d type_ = descriptor_value kTSSAvailable;
  tss_system : seg_get d system_segment = 0;
  tss_present : seg_get d present_ = 1;
  tss_base : seg_base d + 2 ^ 32 * d_upper = base;
  tss_limit : seg_limit d = limit;
}.

Lemma seg_get_same f x d : seg_get (seg_set f x d) f = wrap (field_place f).2 x.
Proof. unfold seg_get, seg_set. apply field_set_same; by destruct f. Qed.

Lemma seg_get_other f g x d : f ≠ g → seg_get (seg_set f x d) g = seg_get d g.
Proof. intros. unfold seg_get, seg_set. by apply field_set_other; destruct f, g; simpl; try lia. Qed.

(** Closes goals about the fields of a descriptor built by [seg_set]. *)
Ltac seg_fields := cbv zeta; repeat first [rewrite seg_get_same | rewrite seg_get_other by done].

(** Reads an entry of a [gdt] that is a chain of assignments. *)
Ltac gdt_lookup :=
  unfold selected; cbn [gdt set_gdt SetTSS InitializeSegmentation SetupSegments];
  repeat first [rewrite arr_read_set, decide_True by done | rewrite arr_read_set, decide_False by done].

(** The two words of a pointer in the task state segment. *)
Definition tss_pointer (s : Segments) (index : Z) : Z :=
  arr_read (tss s) index + 2 ^ 32 * arr_read (tss s) (index + 1).

Lemma land_mask x w m : 0 ≤ w → m = Z.ones w → Z.land x m = x mod 2 ^ w.
Proof. intros ? ->. by apply Z.land_ones. Qed.

Lemma seg_base_code type dpl base limit : 0 ≤ base < 2 ^ 32 → seg_base (SetSystemSegment type dpl base limit) = base.
Proof.
  intros Hb. unfold seg_base, SetSystemSegment, SetCodeSegment.
  seg_fields. simpl.
  rewrite (land_mask _ 16), !(land_mask _ 8) by done. rewrite !Z.shiftr_div_pow2 by lia.
  rewrite !wrap_small by (apply Z.mod_pos_bound; lia). dlia.
Qed.

Lemma seg_limit_code type dpl base limit : 0 ≤ limit < 2 ^ 20 → seg_limit (SetSystemSegment type dpl base limit) = limit.
Proof.
  intros Hb. unfold seg_limit, SetSystemSegment, SetCodeSegment.
  seg_fields. simpl.
  rewrite (land_mask _ 16), !(land_mask _ 8) by done. rewrite !Z.shiftr_div_pow2 by lia.
  rewrite !wrap_small by dlia. dlia.
Qed.

Lemma tss_segment_system base low high limit : 0 ≤ low < 2 ^ 32 → 0 ≤ limit < 2 ^ 20 → low + 2 ^ 32 * high = base →
  tss_segment base limit (SetSystemSegment kTSSAvailable 0 low limit) high.
Proof.
  intros Hlow Hlim Hbase. split; [by unfold SetSystemSegment, SetCodeSegment; seg_fields..| |].
  - by rewrite seg_base_code.
  - by apply seg_limit_code.
Qed.

Lemma SetTSS_pointer index v s : 0 ≤ v < 2 ^ 64 → tss_pointer (SetTSS index v s) index = v.
Proof.
  intros Hv. unfold tss_pointer, SetTSS. simpl. rewrite arr_read_set, decide_False, arr_read_set, decide_True by lia.
  rewrite arr_read_set, decide_True by lia. rewrite (land_mask _ 32) by done. rewrite Z.shiftr_div_pow2 by lia.
  rewrite wrap_small by dlia. dlia.
Qed.

Lemma SetTSS_other index v s k : k + 1 < index ∨ index + 1 < k → tss_pointer (SetTSS index v s) k = tss_pointer s k.
Proof. intros. unfold tss_pointer, SetTSS. simpl. by rewrite !arr_read_set, !decide_False by lia. Qed.

(** [AllocateStackArea]: the top of freshly marked frames, or no memory. *)
Lemma AllocateStackArea_spec mm n : mm_wf mm → 0 < n → range_begin_ mm ≤ range_end_ mm →
  ∃ r mm', AllocateStackArea mm n = Done (r, mm') ∧ mm_wf mm' ∧
    range_begin_ mm' = range_begin_ mm ∧ range_end_ mm' = range_end_ mm ∧
    match r with
    | None => mm' = mm
    | Some top => ∃ f, top = (f + n) * 4096 ∧ range_begin_ mm ≤ f ∧ f + n ≤ range_end_ mm ∧
        (∀ g, f ≤ g < f + n → allocated mm g = false) ∧
        (∀ g, frame_ok g → allocated mm' g = if (f <=? g) && (g <? f + n) then true else allocated mm g)
    end.
Proof.
  intros Hwf Hn Hr. destruct (Allocate_spec mm n Hwf Hn Hr) as (r & mm' & E & Hwf' & Hp).
  pose proof (wf_range _ Hwf). rewrite kFrameCount_val in *. unfold AllocateStackArea. rewrite E. cbn [mbind outcome_bind].
  unfold allocate_post in Hp. destruct (error r) eqn:Her; try done.
  - destruct Hp as (Hlo & Hhi & Hfree & _ & [Hm Hb He]). simpl. eexists _, _. split; [reflexivity|].
    split_and!; [done..|]. exists (value r). unfold Frame, kBytesPerFrame, KiB. split_and!; [|lia..|done|done].
    rewrite !wrap_small; try lia. rewrite wrap_small by lia. lia.
  - destruct Hp as (_ & -> & _). simpl. eexists _, _. by split_and!.
Qed.
End SegmentFacts.
Import SegmentFacts.

(** ** Properties *)


