(* ===== verification/Interrupt.v ===== *)
(** Interrupt descriptors and fault handlers: src/kernel/interrupt.{hpp,cpp}.  A
    handler either returns to the interrupted code, leaves the application through
    [ExitApp], or prints the frame and halts. *)
From S2P Require Import Prelude ErrorCode MemoryManager FrameAllocator Paging Message Task Graphics Font Segment.

(** [union InterruptDescriptorAttribute] is a 16-bit word. *)
Definition MakeIDTAttr (type : DescriptorType) (descriptor_privilege_level : Z) (present : bool)
    (interrupt_stack_table : Z) : Z :=
  let attr := 0 in
  let attr := set_field attr 0 3 interrupt_stack_table in
  let attr := set_field attr 8 4 (descriptor_value type) in
  let attr := set_field attr 13 2 descriptor_privilege_level in
  set_field attr 15 1 (if present then 1 else 0).

(** [struct InterruptDescriptor] *)
Record InterruptDescriptor : Set := mkGate {
  offset_low : Z;
  segment_selector : Z;
  attr : Z;
  offset_middle : Z;
  offset_high : Z;
  reserved : Z;
}.

Definition SetIDTEntry (desc : InterruptDescriptor) (attr offset segment_selector : Z) : InterruptDescriptor :=
  mkGate (Z.land offset 0xffff) segment_selector attr (Z.land (Z.shiftr offset 16) 0xffff) (u32 (Z.shiftr offset 32))
    (reserved desc).

(** [struct InterruptFrame] *)
Record InterruptFrame : Set := mkFrame { f_rip : Z; f_cs : Z; f_rflags : Z; f_rsp : Z; f_ss : Z }.

(** [InterruptVector::Number] *)
Definition kXHCI : Z := 0x40.
Definition kLAPICTimer : Z := 0x41.

(** The static array [idt] of 256 zero-initialised entries. *)
Definition idt_at (idt : gmap Z InterruptDescriptor) (i : Z) : InterruptDescriptor :=
  default (mkGate 0 0 0 0 0 0) (idt !! i).

(** The vectors in the order in which [InitializeInterrupt] sets them up; the
    handlers of the exceptions are the functions made by the two macros, and
    [IntHandlerPF] for 14. *)
Definition exception_vectors : list Z := [0; 1; 3; 4; 5; 6; 7; 8; 10; 11; 12; 13; 14; 16; 17; 18; 19; 20].

(** The lambda [set_idt_entry]; [handler] gives the address of a vector's handler. *)
Definition set_idt_entry (handler : Z → Z) (irq : Z) (idt : gmap Z InterruptDescriptor) : gmap Z InterruptDescriptor :=
  <[irq := SetIDTEntry (idt_at idt irq) (MakeIDTAttr kInterruptGate 0 true 0) (handler irq) Segment.kKernelCS]> idt.

(** [InitializeInterrupt]: [handler] gives the address of the handler of a vector;
    the second result is what [LoadIDT] is called with. *)
Definition InitializeInterrupt (handler : Z → Z) (idt_addr : Z) (idt : gmap Z InterruptDescriptor)
    : gmap Z InterruptDescriptor * (Z * Z) :=
  let idt := set_idt_entry handler kXHCI idt in
  let idt := <[kLAPICTimer := SetIDTEntry (idt_at idt kLAPICTimer) (MakeIDTAttr kInterruptGate 0 true kISTForTimer)
                                (handler kLAPICTimer) Segment.kKernelCS]> idt in
  let idt := foldl (λ idt irq, set_idt_entry handler irq idt) idt exception_vectors in
  (idt, (256 * 16 - 1, idt_addr)).

(** ** Handlers *)

(** [IntHandlerXHCI]; the error of [SendMessage] is dropped. *)
Definition IntHandlerXHCI (tm : TaskManager) : outcome TaskManager :=
  '(_, tm) ← SendMessage tm 1 (mkMessage 0 kInterruptXHCI); mret tm.

(** How a fault handler ends: [iretq], [ExitApp(rsp, ret_val)], or an endless
    [hlt] after drawing on [screen_writer]. *)
Inductive fault_end (S A : Type) : Type :=
| Returns (s : A)
| ExitsApp (rsp ret_val : Z) (s : A)
| Halts (screen : S) (s : A).
Arguments Returns {S A} s.
Arguments ExitsApp {S A} rsp ret_val s.
Arguments Halts {S A} screen s.

Definition SIGSEGV : Z := 11.

(** [KillApp]: what [ExitApp] is called with, when the frame is an application's. *)
Definition KillApp (tm : TaskManager) (frame : InterruptFrame) : outcome (option (Z * Z)) :=
  let cpl := Z.land (f_cs frame) 0x3 in
  if negb (cpl =? 3) then mret None
  else
    c ← CurrentTask tm;
    t ← task tm c;
    mret (Some (os_stack_ptr_ t, 128 + SIGSEGV)).

Section handlers.
Context `{FontLib} {S : Type} `{PixelWriter S}.

Definition black : PixelColor := mkColor 0 0 0.

Definition PrintHex (value width : Z) (pos : Vector2D) (screen : S) : outcome S :=
  for_loop 0 width (λ i screen,
    let x := Z.land (Z.shiftr value (4 * (width - i - 1))) 0xf in
    let x := if 10 <=? x then x + (97 - 10) else x + 48 in
    font_ascii screen (pos +v mkVec (8 * i) 0) x black) screen.

(** Strings are the lists of their characters. *)
Definition CS_RIP : list Z := [67; 83; 58; 82; 73; 80].
Definition RFLAGS : list Z := [82; 70; 76; 65; 71; 83].
Definition SS_RSP : list Z := [83; 83; 58; 82; 83; 80].
Definition ERR : list Z := [69; 82; 82].

Definition PrintFrame (frame : InterruptFrame) (exp_name : list Z) (screen : S) : outcome S :=
  s ← font_string screen (mkVec 500 (16 * 0)) exp_name black;
  s ← font_string s (mkVec 500 (16 * 1)) CS_RIP black;
  s ← PrintHex (f_cs frame) 4 (mkVec (500 + 8 * 7) (16 * 1)) s;
  s ← PrintHex (f_rip frame) 16 (mkVec (500 + 8 * 12) (16 * 1)) s;
  s ← font_string s (mkVec 500 (16 * 2)) RFLAGS black;
  s ← PrintHex (f_rflags frame) 16 (mkVec (500 + 8 * 7) (16 * 2)) s;
  s ← font_string s (mkVec 500 (16 * 3)) SS_RSP black;
  s ← PrintHex (f_ss frame) 4 (mkVec (500 + 8 * 7) (16 * 3)) s;
  PrintHex (f_rsp frame) 16 (mkVec (500 + 8 * 12) (16 * 3)) s.

Definition PrintError (error_code : Z) (screen : S) : outcome S :=
  s ← font_string screen (mkVec 500 (16 * 4)) ERR black;
  PrintHex error_code 16 (mkVec (500 + 8 * 4) (16 * 4)) s.

(** The end that the handlers share: kill the application, or print and halt. *)
Definition kill_or_halt {A} (tm : TaskManager) (frame : InterruptFrame) (st : A) (print : S → outcome S)
    (screen : S) : outcome (fault_end S A) :=
  k ← KillApp tm frame;
  match k with
  | Some (rsp, ret_val) => mret (ExitsApp rsp ret_val st)
  | None => s ← print screen; mret (Halts s st)
  end.

(** The handlers that [FaultHandlerWithError] and [FaultHandlerNoError] define;
    [name] is ["#" #fault_name]. *)
Definition FaultHandlerWithError (name : list Z) (tm : TaskManager) (frame : InterruptFrame) (error_code : Z)
    (screen : S) : outcome (fault_end S unit) :=
  kill_or_halt tm frame tt (λ s, s ← PrintFrame frame name s; PrintError error_code s) screen.

Definition FaultHandlerNoError (name : list Z) (tm : TaskManager) (frame : InterruptFrame) (screen : S)
    : outcome (fault_end S unit) :=
  kill_or_halt tm frame tt (PrintFrame frame name) screen.

Context {A : Type} `{FrameAllocator A}.

(** The virtual [Load] of the descriptor that an index of [files_] stands for. *)
Variable Load : Z → Z → Z → Z → pstate A → outcome (Z * pstate A).

(** [IntHandlerPF]: the faulting address [cr2] is handled for the current task. *)
Definition IntHandlerPF (tm : TaskManager) (s : pstate A) (frame : InterruptFrame) (error_code cr2 : Z)
    (screen : S) : outcome (fault_end S (pstate A)) :=
  c ← CurrentTask tm;
  t ← task tm c;
  let fmaps := (λ '(fd, b, e), mkFM fd b e) <$> file_maps_ t in
  '(err, s) ← HandlePageFault Load s (dpaging_begin_ t) (dpaging_end_ t) fmaps (files_ t) error_code cr2;
  if negb (error_bool err) then mret (Returns s)
  else
    kill_or_halt tm frame s
      (λ sc, sc ← PrintFrame frame [35; 80; 70] sc; PrintError error_code sc) screen.
End handlers.

(** ** The descriptor table *)
Module InterruptFacts.

Definition gate_offset (g : InterruptDescriptor) : Z :=
  offset_low g + 2 ^ 16 * offset_middle g + 2 ^ 32 * offset_high g.

(** A present interrupt gate of privilege 0 to a handler, on a stack of the
    interrupt stack table ([0]: the current stack). *)
Record gate_to (handler ist : Z) (g : InterruptDescriptor) : Prop := {
  gate_handler : gate_offset g = handler;
  gate_selector : segment_selector g = Segment.kKernelCS;
  gate_type : field (attr g) 8 4 = descriptor_value kInterruptGate;
  gate_dpl : field (attr g) 13 2 = 0;
  gate_present : field (attr g) 15 1 = 1;
  gate_ist : field (attr g) 0 3 = ist;
}.

Lemma SetIDTEntry_gate desc handler ist : 0 ≤ handler < 2 ^ 64 → 0 ≤ ist < 8 →
  gate_to handler ist (SetIDTEntry desc (MakeIDTAttr kInterruptGate 0 true ist) handler Segment.kKernelCS).
Proof.
  intros Hh Hi. split; simpl; try done.
  - unfold gate_offset. simpl. rewrite !(SegmentFacts.land_mask _ 16), !Z.shiftr_div_pow2 by done.
    rewrite wrap_small by dlia. dlia.
  - unfold MakeIDTAttr. rewrite !field_set_other by lia. by rewrite field_set_same.
  - unfold MakeIDTAttr. rewrite field_set_other by lia. by rewrite field_set_same.
  - unfold MakeIDTAttr. by rewrite field_set_same.
  - unfold MakeIDTAttr. rewrite !field_set_other by lia. rewrite field_set_same by lia. apply wrap_small. simpl. lia.
Qed.

Lemma idt_at_insert m i g j : idt_at (<[i := g]> m) j = if decide (i = j) then g else idt_at m j.
Proof. unfold idt_at. rewrite lookup_insert. by case_decide. Qed.

Lemma set_gates_other handler v vs : v ∉ vs → ∀ idt,
  idt_at (foldl (λ idt irq, set_idt_entry handler irq idt) idt vs) v = idt_at idt v.
Proof.
  induction vs as [|u vs IH]; intros Hn m; [done|]. apply not_elem_of_cons in Hn as [Hu Hn]. cbn [foldl].
  rewrite IH by done. unfold set_idt_entry. rewrite idt_at_insert. by case_decide.
Qed.

Lemma set_gates_in handler v vs : 0 ≤ handler v < 2 ^ 64 → ∀ idt, v ∈ vs ∨ gate_to (handler v) 0 (idt_at idt v) →
  gate_to (handler v) 0 (idt_at (foldl (λ idt irq, set_idt_entry handler irq idt) idt vs) v).
Proof.
  intros Hh. induction vs as [|u vs IH]; intros m Hm; cbn [foldl]; [by destruct Hm as [?%not_elem_of_nil|]|].
  apply IH. unfold set_idt_entry. rewrite idt_at_insert. case_decide as Hu; [|set_solver].
  right. rewrite Hu. by apply SetIDTEntry_gate.
Qed.

(** Every vector that is set up leads to its handler, the timer's alone through
    the interrupt stack table. *)
Lemma InitializeInterrupt_gates handler idt_addr idt v : (∀ i, 0 ≤ handler i < 2 ^ 64) →
  v ∈ kXHCI :: kLAPICTimer :: exception_vectors →
  gate_to (handler v) (if v =? kLAPICTimer then kISTForTimer else 0)
    (idt_at (InitializeInterrupt handler idt_addr idt).1 v).
Proof.
  intros Hh Hv. unfold InitializeInterrupt. cbv zeta. cbn [fst].
  destruct (Z.eqb_spec v kLAPICTimer) as [->|Hne].
  - rewrite set_gates_other.
    + rewrite idt_at_insert, decide_True by done. by apply SetIDTEntry_gate.
    + unfold exception_vectors. rewrite !not_elem_of_cons. split_and!; done || apply not_elem_of_nil.
  - apply set_gates_in; [done|]. rewrite !elem_of_cons in Hv. destruct Hv as [->|[?|?]]; [right|done|by left].
    unfold set_idt_entry. rewrite !idt_at_insert, decide_False, decide_True by done. by apply SetIDTEntry_gate.
Qed.
End InterruptFacts.
