(* ===== verification/Assembly.v ===== *)
(** The assembly routines of src/kernel/asmfunc.asm, over a small machine: the
    registers, a memory of bytes and the instructions that the file uses.  A
    routine is the list of its instructions; one that calls C++ code is cut at the
    call.  Addresses are the kernel's, which every address space maps alike, and
    descriptors are taken to be the valid ones of Segment.v. *)
From S2P Require Import Prelude Task.

(** ** Memory *)

(** [n] bytes at [a], little-endian. *)
Fixpoint load (n : nat) (mem : Z → Z) (a : Z) : Z :=
  match n with
  | O => 0
  | S n' => mem a + 256 * load n' mem (a + 1)
  end.

Definition store (n : Z) (mem : Z → Z) (a v : Z) : Z → Z :=
  λ x, if (a <=? x) && (x <? a + n) then v / 256 ^ (x - a) mod 256 else mem x.

Abbreviation load64 := (load 8).
Abbreviation store64 := (store 8).

(** The 512 bytes of the FPU's state, as [fxsave] and [fxrstor] move them. *)
Definition load_fx (mem : Z → Z) (a : Z) : gmap Z Z := list_to_map ((λ i, (i, mem (a + i))) <$> seqZ 0 512).
Definition store_fx (mem : Z → Z) (a : Z) (fx : gmap Z Z) : Z → Z :=
  λ x, if (a <=? x) && (x <? a + 512) then arr_read fx (x - a) else mem x.

#[global] Arguments load : simpl never.
#[global] Arguments store : simpl never.
#[global] Arguments load_fx : simpl never.
#[global] Arguments store_fx : simpl never.

(** ** The machine *)

Inductive reg : Set :=
| RAX | RBX | RCX | RDX | RSI | RDI | RSP | RBP | R8 | R9 | R10 | R11 | R12 | R13 | R14 | R15.
Inductive sreg : Set := CS | SS | DS | ES | FS | GS.
Inductive creg : Set := CR0 | CR2 | CR3.


(** What a routine does to the rest of the processor and to the devices. *)
Inductive effect : Set :=
| Out32 (port value : Z)
| Lidt (limit offset : Z)
| Lgdt (limit offset : Z)
| Ltr (selector : Z)
| Wrmsr (msr value : Z)
| Invlpg (addr : Z)
| Interrupts (enabled : bool).

(** The general registers. *)
Record gprs : Set := mk_gprs {
  gprs_rax : Z; gprs_rbx : Z; gprs_rcx : Z; gprs_rdx : Z; gprs_rsi : Z; gprs_rdi : Z; gprs_rsp : Z; gprs_rbp : Z; gprs_r8 : Z; gprs_r9 : Z; gprs_r10 : Z; gprs_r11 : Z; gprs_r12 : Z; gprs_r13 : Z; gprs_r14 : Z; gprs_r15 : Z;
}.
Definition get_gprs (g : gprs) (r : reg) : Z :=
  match r with
  | RAX => gprs_rax g | RBX => gprs_rbx g | RCX => gprs_rcx g | RDX => gprs_rdx g | RSI => gprs_rsi g | RDI => gprs_rdi g | RSP => gprs_rsp g | RBP => gprs_rbp g | R8 => gprs_r8 g | R9 => gprs_r9 g | R10 => gprs_r10 g | R11 => gprs_r11 g | R12 => gprs_r12 g | R13 => gprs_r13 g | R14 => gprs_r14 g | R15 => gprs_r15 g
  end.
Definition same_reg (r s : reg) : bool :=
  match r, s with
  | RAX, RAX => true | RBX, RBX => true | RCX, RCX => true | RDX, RDX => true | RSI, RSI => true | RDI, RDI => true | RSP, RSP => true | RBP, RBP => true | R8, R8 => true | R9, R9 => true | R10, R10 => true | R11, R11 => true | R12, R12 => true | R13, R13 => true | R14, R14 => true | R15, R15 => true
  | _, _ => false
  end.
Definition upd_gprs (r : reg) (v : Z) (g : gprs) : gprs :=
  let f x := if same_reg r x then v else get_gprs g x in
  mk_gprs (f RAX) (f RBX) (f RCX) (f RDX) (f RSI) (f RDI) (f RSP) (f RBP) (f R8) (f R9) (f R10) (f R11) (f R12) (f R13) (f R14) (f R15).

(** The segment registers. *)
Record segs : Set := mk_segs {
  segs_cs : Z; segs_ss : Z; segs_ds : Z; segs_es : Z; segs_fs : Z; segs_gs : Z;
}.
Definition get_segs (g : segs) (r : sreg) : Z :=
  match r with
  | CS => segs_cs g | SS => segs_ss g | DS => segs_ds g | ES => segs_es g | FS => segs_fs g | GS => segs_gs g
  end.
Definition same_sreg (r s : sreg) : bool :=
  match r, s with
  | CS, CS => true | SS, SS => true | DS, DS => true | ES, ES => true | FS, FS => true | GS, GS => true
  | _, _ => false
  end.
Definition upd_segs (r : sreg) (v : Z) (g : segs) : segs :=
  let f x := if same_sreg r x then v else get_segs g x in
  mk_segs (f CS) (f SS) (f DS) (f ES) (f FS) (f GS).

(** The control registers. *)
Record ctrls : Set := mk_ctrls {
  ctrls_cr0 : Z; ctrls_cr2 : Z; ctrls_cr3 : Z;
}.
Definition get_ctrls (g : ctrls) (r : creg) : Z :=
  match r with
  | CR0 => ctrls_cr0 g | CR2 => ctrls_cr2 g | CR3 => ctrls_cr3 g
  end.
Definition same_creg (r s : creg) : bool :=
  match r, s with
  | CR0, CR0 => true | CR2, CR2 => true | CR3, CR3 => true
  | _, _ => false
  end.
Definition upd_ctrls (r : creg) (v : Z) (g : ctrls) : ctrls :=
  let f x := if same_creg r x then v else get_ctrls g x in
  mk_ctrls (f CR0) (f CR2) (f CR3).

Record machine : Type := mkMachine {
  m_gprs : gprs; m_segs : segs; m_ctrls : ctrls;
  m_rip : Z; m_rflags : Z; m_fx : gmap Z Z; memory : Z → Z; effects : list effect;
}.
Definition regs (m : machine) : reg → Z := get_gprs (m_gprs m).
Definition sregs (m : machine) : sreg → Z := get_segs (m_segs m).
Definition cregs (m : machine) : creg → Z := get_ctrls (m_ctrls m).

Definition set_reg (r : reg) (v : Z) (m : machine) : machine :=
  mkMachine (upd_gprs r v (m_gprs m)) (m_segs m) (m_ctrls m) (m_rip m) (m_rflags m) (m_fx m) (memory m) (effects m).
Definition set_sreg (r : sreg) (v : Z) (m : machine) : machine :=
  mkMachine (m_gprs m) (upd_segs r v (m_segs m)) (m_ctrls m) (m_rip m) (m_rflags m) (m_fx m) (memory m) (effects m).
Definition set_creg (r : creg) (v : Z) (m : machine) : machine :=
  mkMachine (m_gprs m) (m_segs m) (upd_ctrls r v (m_ctrls m)) (m_rip m) (m_rflags m) (m_fx m) (memory m) (effects m).
Definition set_rip (v : Z) (m : machine) : machine :=
  mkMachine (m_gprs m) (m_segs m) (m_ctrls m) v (m_rflags m) (m_fx m) (memory m) (effects m).
Definition set_rflags (v : Z) (m : machine) : machine :=
  mkMachine (m_gprs m) (m_segs m) (m_ctrls m) (m_rip m) v (m_fx m) (memory m) (effects m).
Definition set_fx (v : gmap Z Z) (m : machine) : machine :=
  mkMachine (m_gprs m) (m_segs m) (m_ctrls m) (m_rip m) (m_rflags m) v (memory m) (effects m).
Definition set_mem (v : Z → Z) (m : machine) : machine :=
  mkMachine (m_gprs m) (m_segs m) (m_ctrls m) (m_rip m) (m_rflags m) (m_fx m) v (effects m).
Definition do_effect (e : effect) (m : machine) : machine :=
  mkMachine (m_gprs m) (m_segs m) (m_ctrls m) (m_rip m) (m_rflags m) (m_fx m) (memory m) (effects m ++ [e]).

(** ** Instructions *)

(** The operand [[b + d]]. *)
Record address : Set := At { base : reg; disp : Z }.
Definition ea (m : machine) (a : address) : Z := u64 (regs m (base a) + disp a).

Inductive instr : Set :=
| mov (d s : reg)
| mov_imm (d : reg) (v : Z)
| mov32 (d s : reg)                  (* mov d32, s32: the upper half is cleared *)
| mov16 (d s : reg)                  (* mov d16, s16: the upper bits stay *)
| mov_load (d : reg) (a : address)
| mov_store (a : address) (s : reg)
| mov_store16 (a : address) (s : reg)
| mov16_seg (d : reg) (s : sreg)     (* mov d16, s *)
| mov_seg16 (d : sreg) (s : reg)     (* mov d, s16 *)
| mov_cr (d : reg) (s : creg)
| mov_to_cr (d : creg) (s : reg)
| lea (d : reg) (a : address)
| add_imm (d : reg) (v : Z)
| and_imm (d : reg) (v : Z)
| and32_imm (d : reg) (v : Z)        (* and d32, v: the upper half is cleared *)
| xor32 (d : reg)                    (* xor d32, d32 *)
| shr (d : reg) (n : Z)
| push (s : reg) | push_mem (a : address) | pop (d : reg)
| pushfq | pop_mem (a : address)
| fxsave (a : address) | fxrstor (a : address)
| ret | retf | iret | sysret
| out_dx_eax | in_eax_dx
| lidt (a : address) | lgdt (a : address) | ltr (s : reg) | wrmsr | invlpg (a : reg) | cli | sti.

Definition push_val (v : Z) (m : machine) : machine :=
  let sp := u64 (regs m RSP - 8) in
  set_reg RSP sp (set_mem (store64 (memory m) sp v) m).
Definition pop_val (m : machine) : Z * machine :=
  (load64 (memory m) (regs m RSP), set_reg RSP (u64 (regs m RSP + 8)) m).

(** What a port gives, and the selector of the program's segments in the STAR
    register (bits 48 to 63). *)
Class Processor := { port_in : Z → Z; star_user : Z }.

Section semantics.
Context `{Processor}.

Definition exec (i : instr) (m : machine) : machine :=
  match i with
  | mov d s => set_reg d (regs m s) m
  | mov_imm d v => set_reg d (u64 v) m
  | mov32 d s => set_reg d (u32 (regs m s)) m
  | mov16 d s => set_reg d (regs m d / 65536 * 65536 + u16 (regs m s)) m
  | mov_load d a => set_reg d (load64 (memory m) (ea m a)) m
  | mov_store a s => set_mem (store64 (memory m) (ea m a) (regs m s)) m
  | mov_store16 a s => set_mem (store 2 (memory m) (ea m a) (u16 (regs m s))) m
  | mov16_seg d s => set_reg d (regs m d / 65536 * 65536 + sregs m s) m
  | mov_seg16 d s => set_sreg d (u16 (regs m s)) m
  | mov_cr d s => set_reg d (cregs m s) m
  | mov_to_cr d s => set_creg d (regs m s) m
  | lea d a => set_reg d (ea m a) m
  | add_imm d v => set_reg d (u64 (regs m d + v)) m
  | and_imm d v => set_reg d (Z.land (regs m d) v) m
  | and32_imm d v => set_reg d (Z.land (u32 (regs m d)) v) m
  | xor32 d => set_reg d 0 m
  | shr d n => set_reg d (Z.shiftr (regs m d) n) m
  | push s => push_val (regs m s) m
  | push_mem a => push_val (load64 (memory m) (ea m a)) m
  | pop d => let '(v, m) := pop_val m in set_reg d v m
  | pushfq => push_val (m_rflags m) m
  | pop_mem a => let '(v, m) := pop_val m in set_mem (store64 (memory m) (ea m a) v) m
  | fxsave a => set_mem (store_fx (memory m) (ea m a) (m_fx m)) m
  | fxrstor a => set_fx (load_fx (memory m) (ea m a)) m
  | ret => let '(v, m) := pop_val m in set_rip v m
  | retf =>
      let '(ip, m) := pop_val m in
      let '(c, m) := pop_val m in
      if c mod 4 =? sregs m CS mod 4 then set_sreg CS (u16 c) (set_rip ip m)
      else
        let '(sp, m) := pop_val m in
        let '(s, m) := pop_val m in
        set_sreg SS (u16 s) (set_reg RSP sp (set_sreg CS (u16 c) (set_rip ip m)))
  | iret =>
      let '(ip, m) := pop_val m in
      let '(c, m) := pop_val m in
      let '(fl, m) := pop_val m in
      let '(sp, m) := pop_val m in
      let '(s, m) := pop_val m in
      set_sreg SS (u16 s) (set_reg RSP sp (set_rflags fl (set_sreg CS (u16 c) (set_rip ip m))))
  | sysret =>
      set_sreg SS (Z.lor (star_user + 8) 3) (set_sreg CS (Z.lor (star_user + 16) 3)
        (set_rflags (regs m R11) (set_rip (regs m RCX) m)))
  | out_dx_eax => do_effect (Out32 (u16 (regs m RDX)) (u32 (regs m RAX))) m
  | in_eax_dx => set_reg RAX (u32 (port_in (u16 (regs m RDX)))) m
  | lidt a => do_effect (Lidt (load 2 (memory m) (ea m a)) (load64 (memory m) (u64 (ea m a + 2)))) m
  | lgdt a => do_effect (Lgdt (load 2 (memory m) (ea m a)) (load64 (memory m) (u64 (ea m a + 2)))) m
  | ltr s => do_effect (Ltr (u16 (regs m s))) m
  | wrmsr => do_effect (Wrmsr (u32 (regs m RCX)) (u32 (regs m RDX) * 2 ^ 32 + u32 (regs m RAX))) m
  | invlpg a => do_effect (Invlpg (regs m a)) m
  | cli => do_effect (Interrupts false) m
  | sti => do_effect (Interrupts true) m
  end.

Definition run (code : list instr) (m : machine) : machine := foldl (λ m i, exec i m) m code.
End semantics.

(** ** The routines *)

Definition mem_ (r : reg) (d : Z) : address := {| base := r; disp := d |}.

Definition IoOut32 : list instr := [mov16 RDX RDI; mov32 RAX RSI; out_dx_eax; ret].
Definition IoIn32 : list instr := [mov16 RDX RDI; in_eax_dx; ret].
Definition GetCS : list instr := [xor32 RAX; mov16_seg RAX CS; ret].

Definition load_table (i : address → instr) : list instr :=
  [push RBP; mov RBP RSP; add_imm RSP (-10); mov_store16 (mem_ RSP 0) RDI; mov_store (mem_ RSP 2) RSI;
   i (mem_ RSP 0); mov RSP RBP; pop RBP; ret].
Definition LoadIDT : list instr := load_table lidt.
Definition LoadGDT : list instr := load_table lgdt.

(** [next] is the address of the label [.next]. *)
Definition SetCSSS (next : Z) : list instr :=
  [push RBP; mov RBP RSP; mov_seg16 SS RSI; mov_imm RAX next; push RDI; push RAX; retf; mov RSP RBP; pop RBP; ret].

Definition SetDSAll : list instr := [mov_seg16 DS RDI; mov_seg16 ES RDI; mov_seg16 FS RDI; mov_seg16 GS RDI; ret].
Definition GetCR0 : list instr := [mov_cr RAX CR0; ret].
Definition SetCR0 : list instr := [mov_to_cr CR0 RDI; ret].
Definition GetCR2 : list instr := [mov_cr RAX CR2; ret].
Definition GetCR3 : list instr := [mov_cr RAX CR3; ret].
Definition SetCR3 : list instr := [mov_to_cr CR3 RDI; ret].

(** [KernelMain] before the call of [KernelMainNewStack]. *)
Definition KernelMain (kernel_main_stack : Z) : list instr := [mov_imm RSP (kernel_main_stack + 1024 * 1024)].

Definition RestoreContext : list instr :=
  [push_mem (mem_ RDI 0x28); push_mem (mem_ RDI 0x70); push_mem (mem_ RDI 0x10); push_mem (mem_ RDI 0x20); push_mem (mem_ RDI 0x08);
   fxrstor (mem_ RDI 0xc0);
   mov_load RAX (mem_ RDI 0x00); mov_to_cr CR3 RAX;
   mov_load RAX (mem_ RDI 0x30); mov_seg16 FS RAX;
   mov_load RAX (mem_ RDI 0x38); mov_seg16 GS RAX;
   mov_load RAX (mem_ RDI 0x40); mov_load RBX (mem_ RDI 0x48); mov_load RCX (mem_ RDI 0x50); mov_load RDX (mem_ RDI 0x58);
   mov_load RSI (mem_ RDI 0x68); mov_load RBP (mem_ RDI 0x78);
   mov_load R8 (mem_ RDI 0x80); mov_load R9 (mem_ RDI 0x88); mov_load R10 (mem_ RDI 0x90); mov_load R11 (mem_ RDI 0x98);
   mov_load R12 (mem_ RDI 0xa0); mov_load R13 (mem_ RDI 0xa8); mov_load R14 (mem_ RDI 0xb0); mov_load R15 (mem_ RDI 0xb8);
   mov_load RDI (mem_ RDI 0x60);
   iret].

(** [SwitchContext] up to the label [RestoreContext]. *)
Definition SaveContext : list instr :=
  [mov_store (mem_ RSI 0x40) RAX; mov_store (mem_ RSI 0x48) RBX; mov_store (mem_ RSI 0x50) RCX; mov_store (mem_ RSI 0x58) RDX;
   mov_store (mem_ RSI 0x60) RDI; mov_store (mem_ RSI 0x68) RSI;
   lea RAX (mem_ RSP 8); mov_store (mem_ RSI 0x70) RAX; mov_store (mem_ RSI 0x78) RBP;
   mov_store (mem_ RSI 0x80) R8; mov_store (mem_ RSI 0x88) R9; mov_store (mem_ RSI 0x90) R10; mov_store (mem_ RSI 0x98) R11;
   mov_store (mem_ RSI 0xa0) R12; mov_store (mem_ RSI 0xa8) R13; mov_store (mem_ RSI 0xb0) R14; mov_store (mem_ RSI 0xb8) R15;
   mov_cr RAX CR3; mov_store (mem_ RSI 0x00) RAX;
   mov_load RAX (mem_ RSP 0); mov_store (mem_ RSI 0x08) RAX;
   pushfq; pop_mem (mem_ RSI 0x10);
   mov16_seg RAX CS; mov_store (mem_ RSI 0x20) RAX; mov16_seg RBX SS; mov_store (mem_ RSI 0x28) RBX;
   mov16_seg RCX FS; mov_store (mem_ RSI 0x30) RCX; mov16_seg RDX GS; mov_store (mem_ RSI 0x38) RDX;
   fxsave (mem_ RSI 0xc0)].
Definition SwitchContext : list instr := SaveContext ++ RestoreContext.

Definition CallApp : list instr :=
  [push RBX; push RBP; push R12; push R13; push R14; push R15; mov_store (mem_ R9 0) RSP;
   push RDX; push R8; add_imm RDX 8; push RDX; push RCX; retf].

Definition ExitApp : list instr :=
  [mov RSP RDI; mov32 RAX RSI; pop R15; pop R14; pop R13; pop R12; pop RBP; pop RBX; ret].

(** [IntHandlerLAPICTimer] before and behind the call of [LAPICTimerOnInterrupt]. *)
Definition timer_entry : list instr :=
  [push RBP; mov RBP RSP; add_imm RSP (-512); fxsave (mem_ RSP 0);
   push R15; push R14; push R13; push R12; push R11; push R10; push R9; push R8;
   push_mem (mem_ RBP 0); push_mem (mem_ RBP 0x20);
   push RSI; push RDI; push RDX; push RCX; push RBX; push RAX;
   mov16_seg RAX FS; mov16_seg RBX GS; mov_cr RCX CR3;
   push RBX; push RAX; push_mem (mem_ RBP 0x28); push_mem (mem_ RBP 0x10); push RBP;
   push_mem (mem_ RBP 0x18); push_mem (mem_ RBP 0x08); push RCX;
   mov RDI RSP].
Definition timer_exit : list instr :=
  [add_imm RSP (8 * 8); pop RAX; pop RBX; pop RCX; pop RDX; pop RDI; pop RSI; add_imm RSP 16;
   pop R8; pop R9; pop R10; pop R11; pop R12; pop R13; pop R14; pop R15; fxrstor (mem_ RSP 0);
   mov RSP RBP; pop RBP; iret].

Definition LoadTR : list instr := [ltr RDI; ret].
Definition WriteMSR : list instr := [mov RDX RSI; shr RDX 32; mov32 RAX RSI; mov32 RCX RDI; wrmsr; ret].

(** [SyscallEntry]: up to the call of [GetCurrentTaskOSStackPointer], up to the
    call of the function of [syscall_table], and behind it, where a program's exit
    goes another way. *)
Definition syscall_enter : list instr :=
  [push RBP; push RCX; push R11; push RAX; mov RCX R10; and32_imm RAX 0x7fffffff; mov RBP RSP;
   and_imm RSP 0xfffffffffffffff0; push RAX; push RDX; cli].
Definition syscall_stack : list instr :=
  [sti; mov_load RDX (mem_ RSP 0); mov_store (mem_ RAX (-16)) RDX; mov_load RDX (mem_ RSP 8); mov_store (mem_ RAX (-8)) RDX;
   lea RSP (mem_ RAX (-16)); pop RDX; pop RAX; and_imm RSP 0xfffffffffffffff0].
Definition syscall_leave : list instr := [mov RSP RBP; pop RSI].
Definition syscall_return : list instr := [pop R11; pop RCX; pop RBP; sysret].
Definition syscall_exit : list instr := [mov RDI RAX; mov32 RSI RDX] ++ ExitApp.

Definition InvalidateTLB : list instr := [invlpg RDI; ret].

Section blocks.
Context `{Processor}.

(** Behind the call of the system call's function: [cmp esi, 0x80000002; je .exit]. *)
Definition syscall_finish (m : machine) : machine :=
  let m := run syscall_leave m in
  if u32 (regs m RSI) =? 0x80000002 then run syscall_exit m else run syscall_return m.
End blocks.
