(* ===== verification/AssemblyFacts.v ===== *)
(** What the C++ code relies on in the assembly routines of Assembly.v: a task that
    was switched away from or interrupted goes on as if nothing had happened, a
    system call comes back to its program, and a program that exits returns from
    [CallApp]. *)
From S2P Require Import Prelude Task Assembly.

Module MachineFacts.

Lemma store_out n mem a v x : x < a ∨ a + n ≤ x → store n mem a v x = mem x.
Proof. intros Hx. unfold store. destruct (Z.leb_spec a x), (Z.ltb_spec x (a + n)); simpl; lia || done. Qed.

Lemma load_agree n mem mem' a : (∀ x, a ≤ x < a + Z.of_nat n → mem' x = mem x) → load n mem' a = load n mem a.
Proof.
  revert a. induction n as [|n IH]; intros a Ha; [done|]. change (mem' a + 256 * load n mem' (a + 1) = mem a + 256 * load n mem (a + 1)).
  rewrite Ha by lia. rewrite IH; [done|]. intros x Hx. apply Ha. lia.
Qed.

Lemma load_store_other n n' mem a a' v : a + Z.of_nat n ≤ a' ∨ a' + n' ≤ a → load n (store n' mem a' v) a = load n mem a.
Proof. intros Ha. apply load_agree. intros x Hx. apply store_out. lia. Qed.

Lemma load_part n N mem a v : ∀ j, 0 ≤ j → j + Z.of_nat n ≤ N →
  load n (store N mem a v) (a + j) = v / 256 ^ j mod 256 ^ Z.of_nat n.
Proof.
  induction n as [|n IH]; intros j Hj Hn; [by rewrite Z.mod_1_r|].
  change (load (S n) ?m ?x) with (m x + 256 * load n m (x + 1)).
  replace (a + j + 1) with (a + (j + 1)) by lia. rewrite IH by lia. unfold store.
  destruct (Z.leb_spec a (a + j)), (Z.ltb_spec (a + j) (a + N)); try lia. cbn [andb]. replace (a + j - a) with j by lia.
  rewrite Nat2Z.inj_succ, !Z.pow_succ_r, Z.pow_add_r by lia. change (256 ^ 1) with 256.
  rewrite <- Z.div_div by lia. rewrite (Z.rem_mul_r (v / 256 ^ j) 256 (256 ^ Z.of_nat n)) by lia. done.
Qed.

Lemma load_store_same n mem a v : 0 ≤ v < 256 ^ Z.of_nat n → load n (store (Z.of_nat n) mem a v) a = v.
Proof.
  intros Hv. pose proof (load_part n (Z.of_nat n) mem a v 0) as H. rewrite Z.add_0_r, Z.div_1_r, Z.mod_small in H by done.
  apply H; lia.
Qed.

Lemma load64_same mem a v : 0 ≤ v < 2 ^ 64 → load64 (store64 mem a v) a = v.
Proof. exact (load_store_same 8 mem a v). Qed.

Lemma load64_at mem a a' v : a = a' → 0 ≤ v < 2 ^ 64 → load64 (store64 mem a' v) a = v.
Proof. intros -> Hv. by apply load64_same. Qed.

Lemma load64_other mem a a' v : a + 8 ≤ a' ∨ a' + 8 ≤ a → load64 (store64 mem a' v) a = load64 mem a.
Proof. exact (load_store_other 8 8 mem a a' v). Qed.

(** The same for offsets from one base, which are compared by computation. *)
Lemma load64_off mem b o o' v : (o + 8 <=? o') || (o' + 8 <=? o) = true → load64 (store64 mem (b + o') v) (b + o) = load64 mem (b + o).
Proof. intros Ho. apply load64_other. apply orb_true_iff in Ho as [?%Z.leb_le|?%Z.leb_le]; lia. Qed.

Lemma add_const b c d s : c + d = s → b + c + d = b + s.
Proof. lia. Qed.

Lemma sub_const b c d : - c = d → b - c = b + d.
Proof. lia. Qed.

Lemma store_fx_out mem a fx x : x < a ∨ a + 512 ≤ x → store_fx mem a fx x = mem x.
Proof. intros Hx. unfold store_fx. destruct (Z.leb_spec a x), (Z.ltb_spec x (a + 512)); simpl; lia || done. Qed.

Lemma load64_fx mem a a' fx : a + 8 ≤ a' ∨ a' + 512 ≤ a → load64 (store_fx mem a' fx) a = load64 mem a.
Proof. intros Ha. apply load_agree. intros x Hx. apply store_fx_out. lia. Qed.

Lemma load_fx_agree mem mem' a : (∀ x, a ≤ x < a + 512 → mem' x = mem x) → load_fx mem' a = load_fx mem a.
Proof.
  intros Ha. unfold load_fx. f_equal. apply list_fmap_ext. intros k i [-> Hk]%lookup_seqZ. rewrite Ha by lia. done.
Qed.

Lemma load_fx_other mem a a' v : a + 512 ≤ a' ∨ a' + 8 ≤ a → load_fx (store64 mem a' v) a = load_fx mem a.
Proof. intros Ha. apply load_fx_agree. intros x Hx. apply store_out. lia. Qed.

Definition bytes_ok (mem : Z → Z) : Prop := ∀ a, 0 ≤ mem a < 256.

(** The FPU's state is 512 bytes. *)
Definition fx_ok (fx : gmap Z Z) : Prop :=
  (∀ i, is_Some (fx !! i) ↔ 0 ≤ i < 512) ∧ ∀ i v, fx !! i = Some v → 0 ≤ v < 256.

Lemma bytes_store n mem a v : bytes_ok mem → bytes_ok (store n mem a v).
Proof. intros Hok x. unfold store. destruct (_ && _); [apply Z.mod_pos_bound; lia|apply Hok]. Qed.

Lemma bytes_store_fx mem a fx : bytes_ok mem → fx_ok fx → bytes_ok (store_fx mem a fx).
Proof.
  intros Hok [_ Hfx] x. unfold store_fx. destruct (_ && _); [|apply Hok]. unfold arr_read.
  destruct (fx !! (x - a)) as [v|] eqn:E; [by eapply Hfx|]. simpl. lia.
Qed.

Lemma load_fx_same mem a fx : fx_ok fx → load_fx (store_fx mem a fx) a = fx.
Proof.
  intros [Hok _]. unfold load_fx. apply map_eq. intros i.
  destruct (fx !! i) as [v|] eqn:E.
  - assert (Hi : 0 ≤ i < 512) by (apply Hok; by rewrite E). apply elem_of_list_to_map_1.
    + rewrite <- list_fmap_compose. change (fst ∘ _) with (λ i : Z, i). rewrite list_fmap_id. apply NoDup_seqZ.
    + apply list_elem_of_fmap. exists i. rewrite elem_of_seqZ. split; [|lia]. f_equal. unfold store_fx.
      destruct (Z.leb_spec a (a + i)), (Z.ltb_spec (a + i) (a + 512)); try lia. cbn [andb].
      replace (a + i - a) with i by lia. unfold arr_read. by rewrite E.
  - apply not_elem_of_list_to_map_1. rewrite <- list_fmap_compose. change (fst ∘ _) with (λ i : Z, i).
    rewrite list_fmap_id, elem_of_seqZ. intros Hi. destruct (proj2 (Hok i)) as [v Hv]; [lia|]. congruence.
Qed.

Lemma load_fx_at mem a a' fx : a = a' → fx_ok fx → load_fx (store_fx mem a' fx) a = fx.
Proof. intros ->. apply load_fx_same. Qed.

Lemma u16_id s : 0 ≤ s < 65536 → u16 s = s.
Proof. apply (wrap_small 16). Qed.

Lemma land_align x : 0 ≤ x < 2 ^ 64 → Z.land x 0xfffffffffffffff0 = x / 16 * 16.
Proof.
  intros Hx. change 0xfffffffffffffff0 with (Z.shiftl (Z.ones 60) 4). apply Z.bits_inj'. intros i Hi.
  change 16 with (2 ^ 4). rewrite <- Z.shiftr_div_pow2, <- Z.shiftl_mul_pow2 by lia.
  rewrite Z.land_spec, !Z.shiftl_spec by lia. destruct (decide (i < 4)).
  - rewrite !(Z.testbit_neg_r _ (i - 4)) by lia. apply andb_false_r.
  - rewrite Z.shiftr_spec by lia. replace (i - 4 + 4) with i by lia. destruct (decide (i < 64)).
    + rewrite Z.ones_spec_low by lia. apply andb_true_r.
    + rewrite Z.ones_spec_high by lia. rewrite andb_false_r. symmetry. apply Z.testbit_false; [lia|].
      rewrite Z.div_small; [done|]. split; [lia|]. apply Z.lt_le_trans with (2 ^ 64); [lia|]. apply Z.pow_le_mono_r; lia.
Qed.

(** The low 16 bits of a register behind [mov r16, s]. *)
Lemma u16_low x s : 0 ≤ s < 65536 → u16 (x / 65536 * 65536 + s) = s.
Proof. intros Hs. unfold wrap. change (2 ^ 16) with 65536. rewrite Z.add_comm, Z_mod_plus_full. by apply Z.mod_small. Qed.
End MachineFacts.
Import MachineFacts.

(** ** Contexts *)

(** The [TaskContext] at [a]. *)
Definition context_at (mem : Z → Z) (a : Z) : TaskContext :=
  let w off := load64 mem (a + off) in
  mkContext (w 0x00) (w 0x08) (w 0x10) (w 0x18) (w 0x20) (w 0x28) (w 0x30) (w 0x38)
    (w 0x40) (w 0x48) (w 0x50) (w 0x58) (w 0x60) (w 0x68) (w 0x70) (w 0x78)
    (w 0x80) (w 0x88) (w 0x90) (w 0x98) (w 0xa0) (w 0xa8) (w 0xb0) (w 0xb8) (load_fx mem (a + 0xc0)).
Definition sizeof_context : Z := 0xc0 + 512.

(** A register in a context. *)
Definition ctx_reg (c : TaskContext) (r : reg) : Z :=
  match r with
  | RAX => rax c | RBX => rbx c | RCX => rcx c | RDX => rdx c | RSI => rsi c | RDI => rdi c | RSP => rsp c | RBP => rbp c
  | R8 => r8 c | R9 => r9 c | R10 => r10 c | R11 => r11 c | R12 => r12 c | R13 => r13 c | R14 => r14 c | R15 => r15 c
  end.

(** The processor is in the context [c]; selectors have 16 bits. *)
Record in_context (m : machine) (c : TaskContext) : Prop := {
  ic_regs : ∀ r, regs m r = ctx_reg c r;
  ic_rip : m_rip m = rip c;
  ic_rflags : m_rflags m = rflags c;
  ic_cr3 : cregs m CR3 = ctx_cr3 c;
  ic_cs : sregs m CS = u16 (cs c);
  ic_ss : sregs m SS = u16 (ss c);
  ic_fs : sregs m FS = u16 (fs c);
  ic_gs : sregs m GS = u16 (gs c);
  ic_fx : m_fx m = fxsave_area c;
}.

(** Registers hold 64 bits, selectors 16, the FPU 512 bytes, memory bytes. *)
Record machine_ok (m : machine) : Prop := {
  mo_regs : ∀ r, 0 ≤ regs m r < 2 ^ 64;
  mo_sregs : ∀ r, 0 ≤ sregs m r < 65536;
  mo_cregs : ∀ r, 0 ≤ cregs m r < 2 ^ 64;
  mo_rip : 0 ≤ m_rip m < 2 ^ 64;
  mo_rflags : 0 ≤ m_rflags m < 2 ^ 64;
  mo_fx : fx_ok (m_fx m);
  mo_memory : bytes_ok (memory m);
}.

(** The areas [a, a + n) and [b, b + k) do not overlap. *)
Definition apart_areas (a n b k : Z) : Prop := a + n ≤ b ∨ b + k ≤ a.

Module ContextFacts.
Lemma run_cons `{Processor} i code m : run (i :: code) m = run code (exec i m).
Proof. done. Qed.

(** The code of [E : m' = run code m] on an explicit machine, an instruction at a time. *)
Ltac step E :=
  rewrite run_cons in E;
  cbv beta iota zeta delta [exec push_val pop_val set_reg set_sreg set_creg set_rip set_rflags set_fx set_mem do_effect
    regs sregs cregs upd_gprs upd_segs upd_ctrls get_gprs get_segs get_ctrls same_reg same_sreg same_creg
    m_gprs m_segs m_ctrls m_rip m_rflags m_fx memory effects ea base disp mem_
    gprs_rax gprs_rbx gprs_rcx gprs_rdx gprs_rsi gprs_rdi gprs_rsp gprs_rbp gprs_r8 gprs_r9 gprs_r10 gprs_r11 gprs_r12
    gprs_r13 gprs_r14 gprs_r15 segs_cs segs_ss segs_ds segs_es segs_fs segs_gs ctrls_cr0 ctrls_cr2 ctrls_cr3] in E.

Ltac bounded := first [lia | match goal with H : ∀ a, 0 ≤ load64 _ a < _ |- 0 ≤ load64 _ _ < _ => apply H end
  | match goal with H : ∀ a, 0 ≤ load64 _ a < _ |- context [load64 ?M ?a] => pose proof (H a); dlia end | dlia].

(** Addresses as base and offset. *)
Ltac is_const c := lazymatch c with Zpos _ => idtac | Zneg _ => idtac | Z0 => idtac end.
Ltac offsets_in E :=
  repeat first
    [ match type of E with context [?b - ?c] => is_const c; let d := eval vm_compute in (- c) in rewrite (sub_const b c d eq_refl) in E end
    | match type of E with context [?b + ?c + ?d] =>
        is_const c; is_const d; let s := eval vm_compute in (c + d) in rewrite (add_const b c d s eq_refl) in E end ].

(** Addresses without their wrap-around, loads behind stores. *)
Ltac tidy E :=
  repeat first
    [ progress offsets_in E
    | match type of E with context [wrap 64 ?x] =>
        lazymatch x with context [wrap _ _] => fail | _ => rewrite (wrap_small 64 x) in E by lia end end
    | match type of E with context [load64 (store64 ?m (?b + ?o') ?v) (?b + ?o)] => rewrite (load64_off m b o o' v eq_refl) in E end
    | match type of E with context [load64 (store64 ?m ?a ?v) ?a] => rewrite (load64_same m a v) in E by bounded end
    | match type of E with context [load64 (store64 ?m ?a' ?v) ?a] =>
        first [ rewrite (load64_other m a a' v) in E by lia
              | let H := fresh in assert (H : a = a') by lia; rewrite (load64_at m a a' v H) in E by bounded; clear H ] end
    | rewrite load64_fx in E by lia
    | rewrite load_fx_other in E by lia
    | rewrite load_fx_at in E by (lia || done) ].

(** The same in the goal. *)
Ltac tidy_goal := lazymatch goal with |- ?x = ?y => let z := fresh "z" in let E := fresh "E" in
  remember y as z eqn:E; tidy E; subst z end.

Ltac tidy_goal_l := symmetry; tidy_goal; symmetry.

Ltac run_code E := repeat (step E; tidy E); cbv [run foldl] in E.

Lemma load64_bound mem a : bytes_ok mem → 0 ≤ load64 mem a < 2 ^ 64.
Proof.
  intros Hok. assert (Hl : ∀ n a, 0 ≤ load n mem a < 256 ^ Z.of_nat n).
  { induction n as [|n IH]; intros b; [done|]. change (load (S n) ?m ?x) with (m x + 256 * load n m (x + 1)).
    specialize (IH (b + 1)). pose proof (Hok b). rewrite Nat2Z.inj_succ, Z.pow_succ_r by lia. lia. }
  exact (Hl 8%nat a).
Qed.

(** Makes the registers of a machine variables with their bounds. *)
Ltac open_machine m Hok :=
  let Hb := fresh "Hb" in let Hr := fresh "Hr" in let Hs := fresh "Hs" in
  assert (Hb : ∀ a, 0 ≤ load64 (memory m) a < 2 ^ 64) by (intros; by apply load64_bound, Hok);
  pose proof (mo_regs m Hok) as Hr; pose proof (mo_sregs m Hok) as Hs; pose proof (mo_cregs m Hok CR3);
  pose proof (mo_rflags m Hok); pose proof (mo_fx m Hok); clear Hok;
  pose proof (Hr RAX); pose proof (Hr RBX); pose proof (Hr RCX); pose proof (Hr RDX); pose proof (Hr RSI); pose proof (Hr RDI);
  pose proof (Hr RSP); pose proof (Hr RBP); pose proof (Hr R8); pose proof (Hr R9); pose proof (Hr R10); pose proof (Hr R11);
  pose proof (Hr R12); pose proof (Hr R13); pose proof (Hr R14); pose proof (Hr R15); clear Hr;
  pose proof (Hs CS); pose proof (Hs SS); pose proof (Hs FS); pose proof (Hs GS); clear Hs;
  destruct m as [[rax rbx rcx rdx rsi rdi rsp rbp r8 r9 r10 r11 r12 r13 r14 r15] [cs ss ds es fs gs] [cr0 cr2 cr3] ip fl fx M ef];
  cbv [regs sregs cregs get_gprs get_segs get_ctrls m_gprs m_segs m_ctrls gprs_rax gprs_rbx gprs_rcx gprs_rdx gprs_rsi gprs_rdi gprs_rsp
    gprs_rbp gprs_r8 gprs_r9 gprs_r10 gprs_r11 gprs_r12 gprs_r13 gprs_r14 gprs_r15 segs_cs segs_ss segs_fs segs_gs ctrls_cr3
    memory m_rflags m_rip m_fx] in *.

Section facts.
Context `{Processor}.

(** [RestoreContext] enters the context that it is given, whatever the processor did
    before; it writes five words below the stack pointer. *)
Lemma RestoreContext_spec m : bytes_ok (memory m) → 40 ≤ regs m RSP < 2 ^ 64 → 0 ≤ regs m RDI → regs m RDI + sizeof_context < 2 ^ 64 →
  apart_areas (regs m RSP - 40) 40 (regs m RDI) sizeof_context →
  let m' := run RestoreContext m in
  in_context m' (context_at (memory m) (regs m RDI)) ∧
  ∀ x, x < regs m RSP - 40 ∨ regs m RSP ≤ x → memory m' x = memory m x.
Proof.
  intros Hok Hsp Hd0 Hdi Hap. assert (Hb : ∀ a, 0 ≤ load64 (memory m) a < 2 ^ 64) by (intros; by apply load64_bound). clear Hok.
  intros m'. remember m' as m2 eqn:E. unfold m' in E. clear m'. unfold apart_areas, sizeof_context in *.
  destruct m as [[rax rbx rcx rdx rsi di sp rbp r8 r9 r10 r11 r12 r13 r14 r15] [cs ss ds es fs gs] [cr0 cr2 cr3] ip fl fx M ef].
  unfold RestoreContext in E. cbv [regs get_gprs m_gprs gprs_rsp gprs_rdi memory] in Hsp, Hd0, Hdi, Hap, Hb |- *.
  run_code E. subst m2. cbn [memory]. split.
  - split; [intros []; reflexivity|reflexivity..].
  - intros x Hx. rewrite !store_out by lia. done.
Qed.

(** [SwitchContext] saves the context in which its call returns. *)
Lemma SaveContext_spec m : machine_ok m → 8 ≤ regs m RSP → regs m RSP + 8 < 2 ^ 64 → regs m RSI + sizeof_context < 2 ^ 64 →
  apart_areas (regs m RSP - 8) 16 (regs m RSI) sizeof_context →
  let m' := run SaveContext m in
  in_context (exec ret m) (context_at (memory m') (regs m RSI)) ∧ regs m' RDI = regs m RDI ∧ regs m' RSP = regs m RSP ∧
  bytes_ok (memory m') ∧
  ∀ x, (x < regs m RSP - 8 ∨ regs m RSP ≤ x) → (x < regs m RSI ∨ regs m RSI + sizeof_context ≤ x) → memory m' x = memory m x.
Proof.
  intros Hok Hsp Hsp2 Hsi Hap m'. remember m' as m2 eqn:E. unfold m' in E. clear m'. unfold apart_areas, sizeof_context in *.
  pose proof (mo_memory m Hok) as Hbytes. open_machine m Hok. unfold SaveContext in E. run_code E. subst m2.
  cbn [memory]. split_and!; [|done|lia|apply bytes_store_fx; [|done]; by repeat apply bytes_store|].
  - assert (u64 (rsp + 8) = rsp + 8) as Hsp8 by (apply wrap_small; lia).
    unfold context_at. split; [intros []|..]; cbn -[load store store_fx load_fx Z.add Z.sub]; rewrite ?Hsp8;
      tidy_goal; by rewrite ?u16_low, ?Z.add_0_r by done.
  - intros x Hx Hx2. by rewrite store_fx_out, !store_out by lia.
Qed.

Lemma run_app c1 c2 m : run (c1 ++ c2) m = run c2 (run c1 m).
Proof. apply foldl_app. Qed.

Lemma context_agree mem mem' a : (∀ x, a ≤ x < a + sizeof_context → mem' x = mem x) → context_at mem' a = context_at mem a.
Proof.
  intros Ha. unfold sizeof_context in Ha. unfold context_at. cbv zeta.
  f_equal; first [apply load_agree|apply load_fx_agree]; intros x Hx; apply Ha; lia.
Qed.
End facts.
End ContextFacts.
Import ContextFacts.

(** The processor of [m'] is in the state of the one of [m]. *)
Definition same_state (m m' : machine) : Prop :=
  (∀ r, regs m' r = regs m r) ∧ m_rip m' = m_rip m ∧ m_rflags m' = m_rflags m ∧ cregs m' CR3 = cregs m CR3 ∧
  (∀ r, r ∈ [CS; SS; FS; GS] → sregs m' r = sregs m r) ∧ m_fx m' = m_fx m.

Lemma in_context_same m m' c : in_context m c → in_context m' c → same_state m m'.
Proof.
  intros [A1 A2 A3 A4 A5 A6 A7 A8 A9] [B1 B2 B3 B4 B5 B6 B7 B8 B9].
  split_and!; [intros r; by rewrite A1, B1|congruence..| |congruence].
  intros r Hr. set_unfold in Hr. destruct Hr as [->|[->|[->|[->|[]]]]]; congruence.
Qed.

Section switch.
Context `{Processor}.

(** [SwitchContext] enters the context of the next task, and the context that it
    saves is the one in which its call returns. *)
Lemma SwitchContext_spec m : machine_ok m → let sp := regs m RSP in let next := regs m RDI in let cur := regs m RSI in
  40 ≤ sp → sp + 8 < 2 ^ 64 → next + sizeof_context < 2 ^ 64 → cur + sizeof_context < 2 ^ 64 →
  apart_areas (sp - 40) 48 next sizeof_context → apart_areas (sp - 40) 48 cur sizeof_context →
  apart_areas next sizeof_context cur sizeof_context →
  let m' := run SwitchContext m in
  in_context m' (context_at (memory m) next) ∧ in_context (exec ret m) (context_at (memory m') cur) ∧
  ∀ x, x < sp - 40 ∨ sp ≤ x → x < cur ∨ cur + sizeof_context ≤ x → memory m' x = memory m x.
Proof.
  intros Hok sp next cur Hsp Hsp8 Hn Hc Han Hac Hnc m'. pose proof (mo_regs m Hok RDI) as Hd.
  destruct (SaveContext_spec m Hok) as (Hret & Hdi & Hrsp & Hb & Hm); [unfold apart_areas, sizeof_context in *; fold sp cur; lia..|].
  unfold m', SwitchContext. rewrite run_app. set (m1 := run SaveContext m) in *.
  destruct (RestoreContext_spec m1) as [Hin Hm1]; rewrite ?Hdi, ?Hrsp; [done|unfold apart_areas, sizeof_context in *; fold sp next; lia..|].
  rewrite Hdi in Hin. rewrite Hrsp in Hm1. unfold apart_areas, sizeof_context in *. fold sp next cur in Hin, Hm, Hm1, Hret. split; [|split].
  - rewrite (context_agree (memory m) (memory m1) next) in Hin; [exact Hin|]. unfold sizeof_context. intros x Hx. apply Hm; lia.
  - rewrite (context_agree (memory m1) (memory (run RestoreContext m1)) cur); [exact Hret|]. unfold sizeof_context. intros x Hx. apply Hm1. lia.
  - intros x Hx Hx'. rewrite Hm1 by lia. apply Hm; lia.
Qed.
(** An interrupt: the processor moves to the handler's stack and leaves there where
    it was.  The handler's selectors are [cs0] and [ss0]. *)
Definition interrupt (stack handler cs0 ss0 : Z) (m : machine) : machine :=
  let m1 := push_val (sregs m SS) (set_reg RSP stack m) in
  let m1 := push_val (sregs m CS) (push_val (m_rflags m) (push_val (regs m RSP) m1)) in
  let m1 := push_val (m_rip m) m1 in
  set_rip handler (set_rflags (Z.land (m_rflags m) (Z.lnot 0x300)) (set_sreg CS cs0 (set_sreg SS ss0 m1))).

(** What [IntHandlerLAPICTimer] puts on its stack below [stack]: the context of the
    interrupted code, RBP and the processor's frame. *)
Definition timer_frame : Z := sizeof_context + 48.

Record timer_stack (mem : Z → Z) (stack : Z) (m : machine) : Prop := {
  ts_context : in_context m (context_at mem (stack - timer_frame));
  ts_rbp : regs m RBP = load64 mem (stack - 48);
  ts_rip : m_rip m = load64 mem (stack - 40);
  ts_cs : sregs m CS = load64 mem (stack - 32);
  ts_rflags : m_rflags m = load64 mem (stack - 24);
  ts_rsp : regs m RSP = load64 mem (stack - 16);
  ts_ss : sregs m SS = load64 mem (stack - 8);
}.

Lemma timer_entry_spec m stack handler cs0 ss0 : machine_ok m → timer_frame ≤ stack < 2 ^ 64 →
  let m' := run timer_entry (interrupt stack handler cs0 ss0 m) in
  timer_stack (memory m') stack m ∧ regs m' RDI = stack - timer_frame ∧ regs m' RSP = stack - timer_frame ∧ regs m' RBP = stack - 48 ∧
  cregs m' CR3 = cregs m CR3 ∧ sregs m' FS = sregs m FS ∧ sregs m' GS = sregs m GS ∧
  (∀ x, x < stack - timer_frame ∨ stack ≤ x → memory m' x = memory m x).
Proof.
  intros Hok Hst m'. remember m' as m2 eqn:E. unfold m' in E. clear m'.
  pose proof (mo_rip m Hok) as Hip. assert (Hf : stack - timer_frame = stack + -752) by (unfold timer_frame, sizeof_context; lia).
  unfold timer_frame, sizeof_context in Hst. open_machine m Hok. unfold interrupt, timer_entry in E. run_code E. subst m2. cbn [memory].
  rewrite Hf. split_and!.
  - split; [unfold context_at; split; [intros []|..]|..]; cbn -[load store store_fx load_fx Z.add Z.sub];
      rewrite ?Hf; tidy_goal; by rewrite ?u16_low, ?u16_id by done.
  - cbn; done.
  - cbn; done.
  - cbn; lia.
  - done.
  - done.
  - done.
  - intros x Hx. rewrite !store_out by lia. rewrite store_fx_out by lia. by rewrite !store_out by lia.
Qed.

(** Behind the call the handler goes back to the interrupted code. *)
Lemma timer_exit_spec m m2 stack : machine_ok m → timer_frame ≤ stack < 2 ^ 64 → timer_stack (memory m2) stack m →
  regs m2 RSP = stack - timer_frame → regs m2 RBP = stack - 48 →
  cregs m2 CR3 = cregs m CR3 → sregs m2 FS = sregs m FS → sregs m2 GS = sregs m GS →
  same_state m (run timer_exit m2).
Proof.
  intros Hok Hst [[Hr Hip Hfl H3 _ _ _ _ Hfx] T1 T2 T3 T4 T5 T6] Hsp Hbp Hc3 Hfs Hgs.
  pose proof (mo_sregs m Hok CS) as Bcs. pose proof (mo_sregs m Hok SS) as Bss. clear Hok H3 Hip Hfl.
  assert (Hf : stack - timer_frame = stack + -752) by (unfold timer_frame, sizeof_context; lia).
  unfold timer_frame, sizeof_context in Hst. rewrite Hf in *. unfold context_at in Hr, Hfx. cbn [fxsave_area] in Hfx.
  remember (run timer_exit m2) as m3 eqn:E.
  destruct m2 as [[rax rbx rcx rdx rsi rdi rsp rbp r8 r9 r10 r11 r12 r13 r14 r15] [cs ss ds es fs gs] [cr0 cr2 cr3] ip fl fx M ef].
  change (rsp = stack + -752) in Hsp. change (rbp = stack - 48) in Hbp. change (cr3 = cregs m CR3) in Hc3.
  change (fs = sregs m FS) in Hfs. change (gs = sregs m GS) in Hgs. cbn [memory] in *. subst rsp rbp. unfold timer_exit in E.
  change (8 * 8) with 64 in E. run_code E. subst m3.
  split_and!; cbn -[load load_fx Z.add regs sregs cregs]; rewrite ?T2, ?T4.
  - intros []; rewrite ?T1, ?T5, ?Hr; cbn -[load Z.add]; f_equal; lia.
  - f_equal; lia.
  - f_equal; lia.
  - done.
  - intros r Hin. set_unfold in Hin. destruct Hin as [->|[->|[->|[->|[]]]]].
    + change (u16 (load64 M (stack + -32)) = sregs m CS). rewrite T3 in *. rewrite u16_id; [f_equal; lia|].
      by replace (stack + -32) with (stack - 32) by lia.
    + change (u16 (load64 M (stack + -8)) = sregs m SS). rewrite T6 in *. rewrite u16_id; [f_equal; lia|].
      by replace (stack + -8) with (stack - 8) by lia.
    + done.
    + done.
  - rewrite Hfx. f_equal. lia.
Qed.

(** ** Programs *)

(** What [CallApp] leaves on the kernel's stack. *)
Record app_frame (mem : Z → Z) (m : machine) : Prop := {
  af_r15 : regs m R15 = load64 mem (regs m RSP - 48);
  af_r14 : regs m R14 = load64 mem (regs m RSP - 40);
  af_r13 : regs m R13 = load64 mem (regs m RSP - 32);
  af_r12 : regs m R12 = load64 mem (regs m RSP - 24);
  af_rbp : regs m RBP = load64 mem (regs m RSP - 16);
  af_rbx : regs m RBX = load64 mem (regs m RSP - 8);
  af_ret : load64 (memory m) (regs m RSP) = load64 mem (regs m RSP);
}.

(** [CallApp] enters the program on its own stack and keeps the place to return to. *)
Lemma CallApp_spec m : machine_ok m → let sp := regs m RSP in let ptr := regs m R9 in
  80 ≤ sp → sp + 8 < 2 ^ 64 → ptr + 8 < 2 ^ 64 → apart_areas (sp - 80) 88 ptr 8 →
  regs m RDX + 8 < 2 ^ 64 → (regs m RDX + 8) mod 4 ≠ sregs m CS mod 4 →
  let m' := run CallApp m in
  m_rip m' = regs m RCX ∧ regs m' RSP = regs m R8 ∧ sregs m' CS = u16 (regs m RDX + 8) ∧ sregs m' SS = u16 (regs m RDX) ∧
  regs m' RDI = regs m RDI ∧ regs m' RSI = regs m RSI ∧
  load64 (memory m') ptr = sp - 48 ∧ app_frame (memory m') m.
Proof.
  intros Hok sp ptr Hsp Hsp8 Hptr Hap Hdx Hpl m'. remember m' as m2 eqn:E. unfold m' in E. clear m'. unfold sp, ptr in *. clear sp ptr.
  unfold apart_areas in *. open_machine m Hok. unfold CallApp in E.
  run_code E. rewrite (proj2 (Z.eqb_neq _ _) Hpl) in E. subst m2. split_and!; try done.
  - tidy_goal_l. lia.
  - split; cbn -[load store Z.add Z.sub]; tidy_goal; done.
Qed.

(** [ExitApp] with what [CallApp] kept returns from that call. *)
Lemma ExitApp_spec m m2 : app_frame (memory m2) m → 48 ≤ regs m RSP → regs m RSP + 8 < 2 ^ 64 → regs m2 RDI = regs m RSP - 48 →
  let m3 := run ExitApp m2 in
  m_rip m3 = load64 (memory m) (regs m RSP) ∧ regs m3 RSP = regs m RSP + 8 ∧ regs m3 RAX = u32 (regs m2 RSI) ∧
  (∀ r, r ∈ [RBX; RBP; R12; R13; R14; R15] → regs m3 r = regs m r) ∧ memory m3 = memory m2.
Proof.
  intros [A15 A14 A13 A12 Abp Abx Ar] Hsp Hsp8 Hdi m3. remember m3 as m4 eqn:E. unfold m3 in E. clear m3.
  rewrite Ar. set (sp := regs m RSP) in *.
  destruct m2 as [[rax rbx rcx rdx rsi rdi rsp rbp r8 r9 r10 r11 r12 r13 r14 r15] [cs ss ds es fs gs] [cr0 cr2 cr3] ip fl fx M ef].
  change (rdi = sp - 48) in Hdi. cbn [memory] in *. subst rdi. unfold ExitApp in E. run_code E. subst m4.
  split_and!; [cbn -[load Z.add]; f_equal; lia|cbn -[load Z.add]; lia|done| |done].
  intros r Hin. set_unfold in Hin.
  destruct Hin as [->|[->|[->|[->|[->|[->|[]]]]]]]; rewrite ?A15, ?A14, ?A13, ?A12, ?Abp, ?Abx; cbn -[load Z.add Z.sub]; f_equal; lia.
Qed.

(** ** System calls *)

(** The program's stack pointer, aligned behind what [SyscallEntry] keeps there. *)
Definition aligned_below (usp : Z) : Z := (usp - 32) / 16 * 16.

(** What [SyscallEntry] keeps on the program's stack. *)
Record call_frame (mem : Z → Z) (m : machine) : Prop := {
  cf_rbp : regs m RBP = load64 mem (regs m RSP - 8);
  cf_rip : regs m RCX = load64 mem (regs m RSP - 16);
  cf_rflags : regs m R11 = load64 mem (regs m RSP - 24);
  cf_number : regs m RAX = load64 mem (regs m RSP - 32);
}.

Lemma call_frame_agree mem mem' m : (∀ x, regs m RSP - 32 ≤ x < regs m RSP → mem' x = mem x) → call_frame mem m → call_frame mem' m.
Proof. intros Ha [A B C D]. split; rewrite (load_agree 8 mem mem'); try done; intros x Hx; apply Ha; lia. Qed.

(** The number of a call without its highest bit. *)
Definition call_number (m : machine) : Z := Z.land (u32 (regs m RAX)) 0x7fffffff.

Lemma syscall_enter_spec m : machine_ok m → 64 ≤ regs m RSP →
  let usp := regs m RSP in let m1 := run syscall_enter m in
  regs m1 RSP = aligned_below usp - 16 ∧ regs m1 RBP = usp - 32 ∧ regs m1 RAX = call_number m ∧ regs m1 RCX = regs m R10 ∧
  (∀ r, r ∈ [RBX; RDX; RSI; RDI; R8; R9; R12; R13; R14; R15] → regs m1 r = regs m r) ∧
  call_frame (memory m1) m ∧ load64 (memory m1) (aligned_below usp - 16) = regs m RDX ∧
  load64 (memory m1) (aligned_below usp - 8) = call_number m.
Proof.
  intros Hok Husp usp m1. remember m1 as m2 eqn:E. unfold m1 in E. clear m1. unfold usp, call_number, aligned_below. clear usp.
  assert (Hn : 0 ≤ Z.land (u32 (regs m RAX)) 0x7fffffff < 2 ^ 64).
  { change 0x7fffffff with (Z.ones 31). rewrite Z.land_ones by lia. pose proof (Z.mod_pos_bound (u32 (regs m RAX)) (2 ^ 31)). lia. }
  open_machine m Hok. unfold syscall_enter in E. do 8 (step E; tidy E).
  rewrite land_align in E by lia. assert (Ha : rsp - 47 ≤ (rsp + -32) / 16 * 16 ≤ rsp - 32) by dlia.
  replace (rsp - 32) with (rsp + -32) by lia. set (a := (rsp + -32) / 16 * 16) in *. clearbody a. set (n := Z.land _ _) in *. clearbody n.
  run_code E. subst m2. split_and!; try done; try (cbn -[load Z.add]; lia).
  - intros r Hin. set_unfold in Hin. by repeat destruct Hin as [->|Hin].
  - split; cbn -[load store Z.add Z.sub]; tidy_goal; done.
  - cbn -[load store Z.add Z.sub]. tidy_goal_l. done.
  - cbn -[load store Z.add Z.sub]. tidy_goal_l. done.
Qed.

(** On the task's own stack, with the arguments where the C++ function expects them. *)
Lemma syscall_stack_spec m2 : let a := regs m2 RSP in let os := regs m2 RAX in
  bytes_ok (memory m2) → 0 ≤ a → a + 16 < 2 ^ 64 → 16 ≤ os < 2 ^ 64 → apart_areas (os - 16) 16 a 16 →
  let m3 := run syscall_stack m2 in
  regs m3 RSP = os / 16 * 16 ∧ regs m3 RDX = load64 (memory m2) a ∧ regs m3 RAX = load64 (memory m2) (a + 8) ∧
  (∀ r, r ∈ [RBX; RCX; RSI; RDI; R8; R9; RBP; R12; R13; R14; R15] → regs m3 r = regs m2 r) ∧
  ∀ x, x < os - 16 ∨ os ≤ x → memory m3 x = memory m2 x.
Proof.
  intros a os Hok Ha0 Ha Hos Hap m3. remember m3 as m4 eqn:E. unfold m3 in E. clear m3. unfold apart_areas, a, os in *. clear a os.
  assert (Hb : ∀ a, 0 ≤ load64 (memory m2) a < 2 ^ 64) by (intros; by apply load64_bound). clear Hok.
  destruct m2 as [[rax rbx rcx rdx rsi rdi rsp rbp r8 r9 r10 r11 r12 r13 r14 r15] [cs ss ds es fs gs] [cr0 cr2 cr3] ip fl fx M ef].
  cbv [regs get_gprs m_gprs gprs_rax gprs_rsp memory] in Ha0, Ha, Hos, Hap, Hb. unfold syscall_stack in E. run_code E.
  rewrite land_align in E by lia. subst m4. split_and!; try done.
  - cbn -[load Z.add Z.div Z.mul]. do 2 f_equal; lia.
  - cbn -[load Z.add]. f_equal; lia.
  - intros r Hin. set_unfold in Hin. by repeat destruct Hin as [->|Hin].
  - intros x Hx. change (x < rax - 16 ∨ rax ≤ x) in Hx. cbn [memory]. by rewrite !store_out by lia.
Qed.

(** Behind the function: back to the program, or out of it. *)
Lemma syscall_finish_spec m m4 : call_frame (memory m4) m → 64 ≤ regs m RSP < 2 ^ 64 → regs m4 RBP = regs m RSP - 32 →
  let m5 := syscall_finish m4 in
  if u32 (regs m RAX) =? 0x80000002 then
    ∃ m6, m5 = run ExitApp m6 ∧ regs m6 RDI = regs m4 RAX ∧ regs m6 RSI = u32 (regs m4 RDX) ∧ memory m6 = memory m4
  else
    m_rip m5 = regs m RCX ∧ m_rflags m5 = regs m R11 ∧ regs m5 RSP = regs m RSP ∧ regs m5 RBP = regs m RBP ∧
    sregs m5 CS = Z.lor (star_user + 16) 3 ∧ sregs m5 SS = Z.lor (star_user + 8) 3 ∧
    (∀ r, r ∈ [RAX; RDX; RBX; R12; R13; R14; R15] → regs m5 r = regs m4 r) ∧ memory m5 = memory m4.
Proof.
  intros [C1 C2 C3 C4] Husp Hbp. rewrite C1, C2, C3, C4. unfold syscall_finish. set (usp := regs m RSP) in *.
  destruct m4 as [[rax rbx rcx rdx rsi rdi rsp rbp r8 r9 r10 r11 r12 r13 r14 r15] [cs ss ds es fs gs] [cr0 cr2 cr3] ip fl fx M ef].
  change (rbp = usp - 32) in Hbp. subst rbp. cbn [memory].
  remember (run syscall_leave _) as ml eqn:E. unfold syscall_leave in E. run_code E.
  assert (Hsi : regs ml RSI = load64 M (usp - 32)) by (subst ml; cbn -[load Z.add Z.sub]; f_equal; lia).
  cbv zeta. rewrite Hsi. destruct (_ =? _).
  - unfold syscall_exit. rewrite run_app. eexists. split; [reflexivity|]. subst ml. done.
  - remember (run syscall_return ml) as m5 eqn:E5. subst ml. unfold syscall_return in E5. run_code E5. subst m5.
    split_and!; try done; try (cbn -[load Z.add Z.sub]; f_equal; lia).
    intros r Hin. set_unfold in Hin. by repeat destruct Hin as [->|Hin].
Qed.

Lemma load_fx_ok mem a : bytes_ok mem → fx_ok (load_fx mem a).
Proof.
  intros Hok. assert (Hfx : ∀ i v, load_fx mem a !! i = Some v ↔ v = mem (a + i) ∧ 0 ≤ i < 512).
  { intros i v. unfold load_fx. rewrite <- elem_of_list_to_map.
    - rewrite list_elem_of_fmap. setoid_rewrite elem_of_seqZ. split; [intros (j & [= -> ->] & Hj); split; [done|lia]|].
      intros [-> Hi]. exists i. split; [done|lia].
    - rewrite <- list_fmap_compose. change (fst ∘ _) with (λ i : Z, i). rewrite list_fmap_id. apply NoDup_seqZ. }
  split; [|intros i v [-> _]%Hfx; apply Hok]. intros i. split; [intros [v [_ Hi]%Hfx]; done|]. intros Hi. exists (mem (a + i)). by apply Hfx.
Qed.

(** Memory stays a memory of bytes. *)
Lemma run_bytes code m : bytes_ok (memory m) → fx_ok (m_fx m) → bytes_ok (memory (run code m)) ∧ fx_ok (m_fx (run code m)).
Proof.
  revert m. induction code as [|i code IH]; intros m Hb Hfx; [done|]. rewrite run_cons.
  assert (bytes_ok (memory (exec i m)) ∧ fx_ok (m_fx (exec i m))) as [? ?]; [|by apply IH].
  destruct i; cbn [exec push_val pop_val]; try exact (conj Hb Hfx); try exact (conj (bytes_store _ _ _ _ Hb) Hfx).
  - exact (conj (bytes_store_fx _ _ _ Hb Hfx) Hfx).
  - exact (conj Hb (load_fx_ok _ _ Hb)).
  - destruct (_ =? _); exact (conj Hb Hfx).
Qed.
End switch.

(** ** Properties *)
Section properties.
Context `{Processor}.

(** [RestoreContext] can be called: the context lies in memory and apart from the
    five words below the stack pointer. *)
Record restorable (m : machine) : Prop := {
  rs_bytes : bytes_ok (memory m);
  rs_stack : 40 ≤ regs m RSP < 2 ^ 64;
  rs_context : 0 ≤ regs m RDI ∧ regs m RDI + sizeof_context < 2 ^ 64;
  rs_apart : apart_areas (regs m RSP - 40) 40 (regs m RDI) sizeof_context;
}.

(** [SwitchContext(next, current)] can be called: the contexts and the stack, with the
    return address on it, lie apart. *)
Record switchable (m : machine) : Prop := {
  sw_machine : machine_ok m;
  sw_stack : 40 ≤ regs m RSP ∧ regs m RSP + 8 < 2 ^ 64;
  sw_next : regs m RDI + sizeof_context < 2 ^ 64;
  sw_current : regs m RSI + sizeof_context < 2 ^ 64;
  sw_next_apart : apart_areas (regs m RSP - 40) 48 (regs m RDI) sizeof_context;
  sw_current_apart : apart_areas (regs m RSP - 40) 48 (regs m RSI) sizeof_context;
  sw_apart : apart_areas (regs m RDI) sizeof_context (regs m RSI) sizeof_context;
}.

(** The two ways into the context at RDI. *)
Definition entered (m m' : machine) : Prop :=
  restorable m ∧ m' = run RestoreContext m ∨ switchable m ∧ m' = run SwitchContext m.

Lemma entered_context m m' : entered m m' → in_context m' (context_at (memory m) (regs m RDI)).
Proof.
  intros [[[Hb Hst [] Hap] ->]|[[Hok [] ? ? ? ? ?] ->]]; [by apply RestoreContext_spec|]. by apply SwitchContext_spec.
Qed.

(** C9 switch
    [SwitchContext] gives the processor to the next task, in the state that its
    context describes, and the task that called it goes on, when its context is
    restored later from whatever state of the processor, as if the call had returned:
    every general register, the instruction and stack pointers, flags, address space,
    segments and the FPU are those of the return.  Only the saved context and five
    words below the stack pointer are written. *)
Theorem SwitchContext_resumes (m : machine) (Hm : switchable m) :
  let m1 := run SwitchContext m in
  in_context m1 (context_at (memory m) (regs m RDI)) ∧
  (∀ x, x < regs m RSP - 40 ∨ regs m RSP ≤ x → x < regs m RSI ∨ regs m RSI + sizeof_context ≤ x → memory m1 x = memory m x) ∧
  ∀ m2 m3, context_at (memory m2) (regs m2 RDI) = context_at (memory m1) (regs m RSI) → entered m2 m3 →
    same_state (exec ret m) m3.
Proof.
  intros m1. pose proof Hm as [Hok [] ? ? ? ? ?]. destruct (SwitchContext_spec m Hok) as (Hin & Hret & Hmem); [done..|].
  split; [exact Hin|]. split; [exact Hmem|]. intros m2 m3 Hc He%entered_context. rewrite Hc in He. by eapply in_context_same.
Qed.

(** The C++ function that a handler calls has returned: it keeps the registers that
    it has to keep, the address space and the segments, and the stack of its caller. *)
Record abi_return (m1 m2 : machine) (top : Z) : Prop := {
  abi_rsp : regs m2 RSP = regs m1 RSP;
  abi_rbp : regs m2 RBP = regs m1 RBP;
  abi_cr3 : cregs m2 CR3 = cregs m1 CR3;
  abi_fs : sregs m2 FS = sregs m1 FS;
  abi_gs : sregs m2 GS = sregs m1 GS;
  abi_stack : ∀ x, regs m1 RSP ≤ x < top → memory m2 x = memory m1 x;
}.

Lemma timer_stack_agree mem mem' stack m : (∀ x, stack - timer_frame ≤ x < stack → mem' x = mem x) →
  timer_stack mem stack m → timer_stack mem' stack m.
Proof.
  intros Ha [Hc T1 T2 T3 T4 T5 T6]. unfold timer_frame, sizeof_context in Ha.
  assert (Hl : ∀ k, 8 ≤ k ≤ 48 → load64 mem' (stack - k) = load64 mem (stack - k)).
  { intros k Hk. apply load_agree. intros x Hx. apply Ha. lia. }
  split; rewrite ?Hl by lia; try done. rewrite (context_agree mem mem'); [exact Hc|].
  unfold timer_frame, sizeof_context. intros x Hx. apply Ha. lia.
Qed.

(** C22 timer
    The timer interrupt is transparent.  The context that [IntHandlerLAPICTimer]
    hands to [LAPICTimerOnInterrupt] is the one of the interrupted code, in every
    register; if that function returns, the handler goes back to the interrupted code
    in the state in which it was interrupted; and if it switches to another task, the
    interrupted one goes on in that same state whenever its context, wherever it was
    copied to, is restored. *)
Theorem timer_interrupt_transparent (m : machine) (stack handler cs0 ss0 : Z)
  (Hm : machine_ok m) (Hstack : timer_frame ≤ stack < 2 ^ 64) :
  let m1 := run timer_entry (interrupt stack handler cs0 ss0 m) in
  in_context m (context_at (memory m1) (regs m1 RDI)) ∧
  (∀ m2, abi_return m1 m2 stack → same_state m (run timer_exit m2)) ∧
  (∀ m2 m3, context_at (memory m2) (regs m2 RDI) = context_at (memory m1) (regs m1 RDI) → entered m2 m3 → same_state m m3) ∧
  ∀ x, x < stack - timer_frame ∨ stack ≤ x → memory m1 x = memory m x.
Proof.
  intros m1. destruct (timer_entry_spec m stack handler cs0 ss0 Hm Hstack) as (Ht & Hdi & Hsp & Hbp & H3 & Hfs & Hgs & Hmem).
  fold m1 in Ht, Hdi, Hsp, Hbp, H3, Hfs, Hgs, Hmem. rewrite Hdi. pose proof (ts_context _ _ _ Ht) as Hc.
  split; [exact Hc|]. split; [|split; [|exact Hmem]].
  - intros m2 [A1 A2 A3 A4 A5 A6]. apply (timer_exit_spec m m2 stack Hm Hstack); [|congruence..].
    apply (timer_stack_agree (memory m1)); [|done]. rewrite <- Hsp. exact A6.
  - intros m2 m3 Hc2 He%entered_context. rewrite Hc2 in He. by eapply in_context_same.
Qed.
(** [GetCurrentTaskOSStackPointer] has returned [os]; it saves every other register. *)
Record os_stack_pointer (m m1 m2 : machine) (os : Z) : Prop := {
  os_regs : ∀ r, regs m2 r = if same_reg RAX r then os else regs m1 r;
  os_memory : ∀ x, regs m1 RSP ≤ x < regs m RSP → memory m2 x = memory m1 x;
  os_bytes : bytes_ok (memory m2);
  os_bound : 16 ≤ os < 2 ^ 64;
  os_apart : apart_areas (os - 16) 16 (regs m1 RSP) (regs m RSP - regs m1 RSP);
}.

(** The function of a system call has returned: the registers that it has to keep and
    what [SyscallEntry] keeps on the program's stack are as they were. *)
Record call_return (m m3 m4 : machine) : Prop := {
  cr_regs : ∀ r, r ∈ [RBX; RBP; R12; R13; R14; R15] → regs m4 r = regs m3 r;
  cr_stack : ∀ x, regs m RSP - 32 ≤ x < regs m RSP → memory m4 x = memory m3 x;
}.

Lemma aligned_below_bound usp : usp - 47 ≤ aligned_below usp ≤ usp - 32.
Proof. unfold aligned_below. dlia. Qed.

Ltac in_list := solve [repeat first [apply list_elem_of_here | apply list_elem_of_further]].


Lemma app_frame_agree mem mem' m : (∀ x, regs m RSP - 48 ≤ x < regs m RSP + 8 → mem' x = mem x) → app_frame mem m → app_frame mem' m.
Proof.
  intros Ha [A1 A2 A3 A4 A5 A6 A7].
  split; rewrite (load_agree 8 mem mem'); try done; intros x Hx; apply Ha; lia.
Qed.

(** [CallApp] can be called: its stack and the place for the stack pointer lie apart,
    and the program's segments have another privilege than the kernel's. *)
Record callable (m : machine) : Prop := {
  ca_machine : machine_ok m;
  ca_stack : 80 ≤ regs m RSP ∧ regs m RSP + 8 < 2 ^ 64;
  ca_ptr : regs m R9 + 8 < 2 ^ 64;
  ca_apart : apart_areas (regs m RSP - 80) 88 (regs m R9) 8;
  ca_ss : regs m RDX + 8 < 2 ^ 64;
  ca_privilege : (regs m RDX + 8) mod 4 ≠ sregs m CS mod 4;
}.

(** C24 callapp
    [CallApp] enters the program at its entry point, on its stack, in its segments and
    with argc and argv; and however the program ends, by the system call or killed by
    a fault, [ExitApp] with the stack pointer that [CallApp] stored returns from that
    call of [CallApp]: to its caller, with the exit code as the result and every
    register that a function keeps, as long as nobody wrote on that part of the
    kernel's stack. *)
Theorem CallApp_exits (m : machine) (Hm : callable m) :
  let m1 := run CallApp m in
  m_rip m1 = regs m RCX ∧ regs m1 RSP = regs m R8 ∧ sregs m1 CS = u16 (regs m RDX + 8) ∧ sregs m1 SS = u16 (regs m RDX) ∧
  regs m1 RDI = regs m RDI ∧ regs m1 RSI = regs m RSI ∧
  ∀ m2, regs m2 RDI = load64 (memory m1) (regs m R9) →
    (∀ x, regs m RSP - 48 ≤ x < regs m RSP + 8 → memory m2 x = memory m1 x) →
    let m3 := run ExitApp m2 in
    m_rip m3 = m_rip (exec ret m) ∧ regs m3 RSP = regs m RSP + 8 ∧ regs m3 RAX = u32 (regs m2 RSI) ∧
    ∀ r, r ∈ [RBX; RBP; R12; R13; R14; R15] → regs m3 r = regs m r.
Proof.
  intros m1. destruct Hm as [Hok [Hsp Hsp8] Hp Hap Hss Hpl].
  destruct (CallApp_spec m Hok Hsp Hsp8 Hp Hap Hss Hpl) as (H1 & H2 & H3 & H4 & H5 & H6 & H7 & H8). fold m1 in H1, H2, H3, H4, H5, H6, H7, H8.
  split_and!; try done. intros m2 Hdi Hmem. rewrite H7 in Hdi.
  destruct (ExitApp_spec m m2) as (E1 & E2 & E3 & E4 & _); [by apply (app_frame_agree (memory m1))|lia|done|done|].
  by split_and!.
Qed.
End properties.

(** ** Examples *)

(** STAR as [InitializeSyscall] sets it. *)
#[local] Instance sample_processor : Processor := {| port_in _ := 0; star_user := 19 |}.

(** A machine with the given general registers. *)
Definition sample_machine (g : gprs) : machine :=
  mkMachine g (mk_segs 8 0 0 0 0 0) (mk_ctrls 0 0 0x1000) 0x100 0x202 (load_fx (λ _, 0) 0) (λ _, 0) [].

Lemma sample_machine_ok g : (∀ r, 0 ≤ get_gprs g r < 2 ^ 64) → machine_ok (sample_machine g).
Proof.
  intros Hg. split; [exact Hg|by intros []|by intros []|done|done|apply load_fx_ok; intros x; lia|intros x; simpl; lia].
Qed.

Definition sample_gprs : gprs := mk_gprs 0x80000000 1 0x7000 27 0x3000 0x2000 0x1000 2 0x6000 0x4000 4 5 6 7 8 9.

Lemma regs_set_reg r v m x : regs (set_reg r v m) x = if same_reg r x then v else regs m x.
Proof. unfold regs, set_reg. cbn [m_gprs]. by destruct x. Qed.

Lemma memory_set_reg r v m : memory (set_reg r v m) = memory m.
Proof. done. Qed.

Lemma sample_ok : machine_ok (sample_machine sample_gprs).
Proof. apply sample_machine_ok. by intros []. Qed.

Lemma SwitchContext_resumes_witness :
  let m := sample_machine sample_gprs in
  let m2 := set_reg RDI 0x3000 (set_reg RSP 0x8000 (run SwitchContext m)) in
  same_state (exec ret m) (run RestoreContext m2).
Proof.
  intros m m2. destruct (SwitchContext_resumes m) as (_ & _ & H1).
  - split; [exact sample_ok|split; reflexivity || discriminate|reflexivity|reflexivity|left; discriminate|left; discriminate|left; discriminate].
  - assert (Hdi : regs m2 RDI = regs m RSI) by (vm_compute; reflexivity).
    apply (H1 m2); [rewrite Hdi; unfold m2; by rewrite !memory_set_reg|]. left. split; [|reflexivity]. split; [|split; [discriminate|reflexivity]|split; [discriminate|reflexivity]|right; discriminate].
    unfold m2. rewrite !memory_set_reg. exact (proj1 (run_bytes SwitchContext m (mo_memory m sample_ok) (mo_fx m sample_ok))).
Defined.

Lemma timer_interrupt_transparent_witness :
  let m := sample_machine sample_gprs in
  let m1 := run timer_entry (interrupt 0x9000 0 8 0 m) in
  same_state m (run timer_exit m1) ∧ same_state m (run RestoreContext m1).
Proof.
  intros m m1. destruct (timer_interrupt_transparent m 0x9000 0 8 0) as (_ & H1 & H2 & _).
  - exact sample_ok.
  - split; [discriminate|reflexivity].
  - split; [apply H1; split; reflexivity|]. apply (H2 m1); [exact eq_refl|]. left. split; [|reflexivity].
    split; [|split; [discriminate|reflexivity]|split; [discriminate|reflexivity]|left; discriminate].
    refine (proj1 (run_bytes timer_entry (interrupt 0x9000 0 8 0 m) _ (mo_fx m sample_ok))).
    exact (bytes_store _ _ _ _ (bytes_store _ _ _ _ (bytes_store _ _ _ _ (bytes_store _ _ _ _ (bytes_store _ _ _ _ (mo_memory m sample_ok)))))).
Defined.


Lemma CallApp_exits_witness :
  let m := sample_machine sample_gprs in
  let m2 := set_reg RDI 0xfd0 (run CallApp m) in
  regs (run CallApp m) RSP = 0x6000 ∧ regs (run ExitApp m2) RSP = 0x1008 ∧ regs (run ExitApp m2) R12 = 6.
Proof.
  intros m m2. destruct (CallApp_exits m) as (_ & H1 & _ & _ & _ & _ & H2).
  - split; [exact sample_ok|split; reflexivity || discriminate|reflexivity|left; discriminate|reflexivity|discriminate].
  - destruct (H2 m2) as (_ & Hsp & _ & Hr); [vm_compute; reflexivity|intros x _; unfold m2; by rewrite memory_set_reg|].
    split; [exact H1|]. split; [exact Hsp|]. exact (Hr R12 (list_elem_of_further _ _ _ (list_elem_of_further _ _ _ (list_elem_of_here _ _)))).
Defined.
