(* ===== verification/Pci.v ===== *)
(** The PCI bus: src/kernel/pci.{hpp,cpp}.  Configuration space is reached through
    two I/O ports; what is behind the ports is an interface, with the law of the
    configuration mechanism that the scan relies on. *)
From S2P Require Import Prelude ErrorCode.

Definition kConfigAddress : Z := 0x0cf8.
Definition kConfigData : Z := 0x0cfc.

(** The instructions [out] and [in] on 32-bit ports ([IoOut32], [IoIn32]), over the
    state of the hardware. *)
Class IoPorts (H : Type) := {
  IoOut32 : H → Z → Z → H;
  IoIn32 : H → Z → Z * H;
}.

Record ClassCode : Set := mkClass { base : Z; sub : Z; interface : Z }.

(** The three overloads of [ClassCode::Match] *)
Definition Match1 (c : ClassCode) (b : Z) : bool := b =? base c.
Definition Match2 (c : ClassCode) (b s : Z) : bool := Match1 c b && (s =? sub c).
Definition Match3 (c : ClassCode) (b s i : Z) : bool := Match2 c b s && (i =? interface c).

Record Device : Set := mkDevice {
  bus : Z; device : Z; function : Z; header_type : Z;
  class_code : ClassCode;
}.

#[export] Instance ClassCode_eq_dec : EqDecision ClassCode.
Proof. solve_decision. Defined.
#[export] Instance Device_eq_dec : EqDecision Device.
Proof. solve_decision. Defined.

Definition MakeAddress (bus device function reg_addr : Z) : Z :=
  let shl x bits := u32 (Z.shiftl x bits) in
  Z.lor (Z.lor (Z.lor (Z.lor (shl 1 31) (shl bus 16)) (shl device 11)) (shl function 8)) (Z.land reg_addr 0xfc).

Definition IsSingleFunctionDevice (header_type : Z) : bool := Z.land header_type 0x80 =? 0.

Definition CalcBarAddress (bar_index : Z) : Z := u8 (0x10 + 4 * bar_index).

Section pci.
Context {H : Type} `{IoPorts H}.

Definition WriteAddress (h : H) (address : Z) : H := IoOut32 h kConfigAddress address.
Definition WriteData (h : H) (value : Z) : H := IoOut32 h kConfigData value.
Definition ReadData (h : H) : Z * H := IoIn32 h kConfigData.

(** The steps [WriteAddress(MakeAddress(...)); ReadData()] *)
Definition read_reg (h : H) (bus device function reg_addr : Z) : Z * H :=
  ReadData (WriteAddress h (MakeAddress bus device function reg_addr)).

Definition ReadVendorId (h : H) (bus device function : Z) : Z * H :=
  let '(v, h) := read_reg h bus device function 0x00 in (Z.land v 0xffff, h).

Definition ReadDeviceId (h : H) (bus device function : Z) : Z * H :=
  let '(v, h) := read_reg h bus device function 0x00 in (Z.shiftr v 16, h).

Definition ReadHeaderType (h : H) (bus device function : Z) : Z * H :=
  let '(v, h) := read_reg h bus device function 0x0c in (Z.land (Z.shiftr v 16) 0xff, h).

Definition ReadClassCode (h : H) (bus device function : Z) : ClassCode * H :=
  let '(reg, h) := read_reg h bus device function 0x08 in
  (mkClass (Z.land (Z.shiftr reg 24) 0xff) (Z.land (Z.shiftr reg 16) 0xff) (Z.land (Z.shiftr reg 8) 0xff), h).

Definition ReadBusNumbers (h : H) (bus device function : Z) : Z * H := read_reg h bus device function 0x18.

Definition ReadConfReg (h : H) (dev : Device) (reg_addr : Z) : Z * H :=
  read_reg h (bus dev) (device dev) (function dev) reg_addr.

Definition WriteConfReg (h : H) (dev : Device) (reg_addr value : Z) : H :=
  WriteData (WriteAddress h (MakeAddress (bus dev) (device dev) (function dev) reg_addr)) value.

(** ** The scan *)

(** The hardware and the first [num_device] entries of the array [devices]. *)
Record PciState : Type := mkPci { hw : H; devices : list Device }.

Definition num_device (s : PciState) : Z := Z.of_nat (length (devices s)).

Definition AddDevice (s : PciState) (d : Device) : Code * PciState :=
  if num_device s =? 256 then (kFull, s) else (kSuccess, mkPci (hw s) (devices s ++ [d])).

(** [for (x : xs) if (auto err = f(x)) return err;] and success at the end. *)
Fixpoint scan_loop (f : Z → PciState → outcome (Code * PciState)) (xs : list Z) (s : PciState)
    : outcome (Code * PciState) :=
  match xs with
  | [] => mret (kSuccess, s)
  | x :: xs => '(err, s) ← f x s; if error_bool err then mret (err, s) else scan_loop f xs s
  end.

(** [if (ReadVendorId(...) == 0xffffu) continue;] before [f] *)
Definition if_present (bus device function : Z) (f : PciState → outcome (Code * PciState)) (s : PciState)
    : outcome (Code * PciState) :=
  let '(v, h) := ReadVendorId (hw s) bus device function in
  let s := mkPci h (devices s) in
  if v =? 0xffff then mret (kSuccess, s) else f s.

(** [ScanFunction] and [ScanDevice]; [scan_bus] is the call of [ScanBus]. *)
Definition ScanFunction (scan_bus : Z → PciState → outcome (Code * PciState)) (bus device function : Z)
    (s : PciState) : outcome (Code * PciState) :=
  let '(class_code, h) := ReadClassCode (hw s) bus device function in
  let '(header_type, h) := ReadHeaderType h bus device function in
  let dev := mkDevice bus device function header_type class_code in
  let '(err, s) := AddDevice (mkPci h (devices s)) dev in
  if error_bool err then mret (err, s)
  else if Match2 class_code 0x06 0x04 then
    let '(bus_numbers, h) := ReadBusNumbers (hw s) bus device function in
    let secondary_bus := Z.land (Z.shiftr bus_numbers 8) 0xff in
    scan_bus secondary_bus (mkPci h (devices s))
  else mret (kSuccess, s).

Definition ScanDevice (scan_bus : Z → PciState → outcome (Code * PciState)) (bus device : Z) (s : PciState)
    : outcome (Code * PciState) :=
  '(err, s) ← ScanFunction scan_bus bus device 0 s;
  if error_bool err then mret (err, s)
  else
    let '(header_type, h) := ReadHeaderType (hw s) bus device 0 in
    let s := mkPci h (devices s) in
    if IsSingleFunctionDevice header_type then mret (kSuccess, s)
    else scan_loop (λ function, if_present bus device function (ScanFunction scan_bus bus device function)) (seqZ 1 7) s.

(** Every nested call of [ScanBus] has added a device, and the array takes 256:
    257 levels are enough. *)
Fixpoint ScanBus (fuel : nat) (bus : Z) (s : PciState) : outcome (Code * PciState) :=
  match fuel with
  | O => NoFuel
  | S fuel' => scan_loop (λ device, if_present bus device 0 (ScanDevice (ScanBus fuel') bus device)) (seqZ 0 32) s
  end.

Definition ScanAllBus (s : PciState) : outcome (Code * PciState) :=
  let '(header_type, h) := ReadHeaderType (hw s) 0 0 0 in
  let functions := if IsSingleFunctionDevice header_type then 1 else 8 in
  scan_loop (λ function, if_present 0 0 function (ScanBus 257 function)) (seqZ 0 functions) (mkPci h []).

(** [InitializePCI]: [None] is [exit(1)]; of every device the vendor and the class
    are read again for its line in the log. *)
Definition InitializePCI (s : PciState) : outcome (option (PciState * list (Z * ClassCode))) :=
  '(err, s) ← ScanAllBus s;
  if error_bool err then mret None
  else
    let '(h, info) := foldl (λ '(h, info) dev,
      let '(vendor_id, h) := ReadVendorId h (bus dev) (device dev) (function dev) in
      let '(class_code, h) := ReadClassCode h (bus dev) (device dev) (function dev) in
      (h, info ++ [(vendor_id, class_code)])) (hw s, []) (devices s) in
    mret (Some (mkPci h (devices s), info)).

(** ** Base address registers *)

Definition ReadBar (h : H) (dev : Device) (bar_index : Z) : WithError Z * H :=
  if 6 <=? bar_index then (mkWithError 0 kIndexOutOfRange, h)
  else
    let addr := CalcBarAddress bar_index in
    let '(bar, h) := ReadConfReg h dev addr in
    if Z.land bar 1 =? 1 then (mkWithError (Z.ldiff bar 0x3) kSuccess, h)
    else if negb (Z.land bar 0x6 =? 0x4) then (mkWithError (Z.ldiff bar 0xf) kSuccess, h)
    else if 5 <=? bar_index then (mkWithError 0 kIndexOutOfRange, h)
    else
      let '(bar_upper, h) := ReadConfReg h dev (u8 (addr + 4)) in
      (mkWithError (Z.lor (Z.shiftl bar_upper 32) (Z.ldiff bar 0xf)) kSuccess, h).

(** ** Message signalled interrupts *)

Definition kCapabilityMSI : Z := 0x05.
Definition kCapabilityMSIX : Z := 0x11.

(** The bit fields of [CapabilityHeader] and of [MSICapability::header]. *)
Definition cap_id (data : Z) : Z := field data 0 8.
Definition next_ptr (data : Z) : Z := field data 8 8.
Definition msi_enable (data : Z) : Z := field data 16 1.
Definition multi_msg_capable (data : Z) : Z := field data 17 3.
Definition multi_msg_enable (data : Z) : Z := field data 20 3.
Definition addr_64_capable (data : Z) : Z := field data 23 1.
Definition per_vector_mask_capable (data : Z) : Z := field data 24 1.
Definition set_msi_enable (data x : Z) : Z := set_field data 16 1 x.
Definition set_multi_msg_enable (data x : Z) : Z := set_field data 20 3 x.

Definition ReadCapabilityHeader (h : H) (dev : Device) (addr : Z) : Z * H := ReadConfReg h dev addr.

Record MSICapability : Set := mkMSI {
  header : Z; msg_addr : Z; msg_upper_addr : Z; msg_data : Z; mask_bits : Z; pending_bits : Z;
}.

Definition ReadMSICapability (h : H) (dev : Device) (cap_addr : Z) : MSICapability * H :=
  let '(header, h) := ReadConfReg h dev cap_addr in
  let '(msg_addr, h) := ReadConfReg h dev (u8 (cap_addr + 4)) in
  let '(msg_upper_addr, msg_data_addr, h) :=
    if negb (addr_64_capable header =? 0)
    then let '(x, h) := ReadConfReg h dev (u8 (cap_addr + 8)) in (x, u8 (cap_addr + 12), h)
    else (0, u8 (cap_addr + 8), h) in
  let '(msg_data, h) := ReadConfReg h dev msg_data_addr in
  if negb (per_vector_mask_capable header =? 0) then
    let '(mask_bits, h) := ReadConfReg h dev (u8 (msg_data_addr + 4)) in
    let '(pending_bits, h) := ReadConfReg h dev (u8 (msg_data_addr + 8)) in
    (mkMSI header msg_addr msg_upper_addr msg_data mask_bits pending_bits, h)
  else (mkMSI header msg_addr msg_upper_addr msg_data 0 0, h).

Definition WriteMSICapability (h : H) (dev : Device) (cap_addr : Z) (msi_cap : MSICapability) : H :=
  let h := WriteConfReg h dev cap_addr (header msi_cap) in
  let h := WriteConfReg h dev (u8 (cap_addr + 4)) (msg_addr msi_cap) in
  let '(msg_data_addr, h) :=
    if negb (addr_64_capable (header msi_cap) =? 0)
    then (u8 (cap_addr + 12), WriteConfReg h dev (u8 (cap_addr + 8)) (msg_upper_addr msi_cap))
    else (u8 (cap_addr + 8), h) in
  let h := WriteConfReg h dev msg_data_addr (msg_data msi_cap) in
  if negb (per_vector_mask_capable (header msi_cap) =? 0) then
    let h := WriteConfReg h dev (u8 (msg_data_addr + 4)) (mask_bits msi_cap) in
    WriteConfReg h dev (u8 (msg_data_addr + 8)) (pending_bits msi_cap)
  else h.

(** The capability that [ConfigureMSIRegister] writes back. *)
Definition configured (c : MSICapability) (msg_addr msg_data num_vector_exponent : Z) : MSICapability :=
  let hd := header c in
  let hd := set_multi_msg_enable hd
    (if multi_msg_capable hd <=? num_vector_exponent then multi_msg_capable hd else num_vector_exponent) in
  mkMSI (set_msi_enable hd 1) msg_addr (msg_upper_addr c) msg_data (mask_bits c) (pending_bits c).

Definition ConfigureMSIRegister (h : H) (dev : Device) (cap_addr msg_addr msg_data num_vector_exponent : Z) : Code * H :=
  let '(msi_cap, h) := ReadMSICapability h dev cap_addr in
  (kSuccess, WriteMSICapability h dev cap_addr (configured msi_cap msg_addr msg_data num_vector_exponent)).

Definition ConfigureMSIXRegister (h : H) : Code * H := (kNotImplemented, h).

(** The walk of [ConfigureMSI] over the list of capabilities. *)
Fixpoint find_msi (fuel : nat) (h : H) (dev : Device) (cap_addr msi_cap_addr msix_cap_addr : Z)
    : outcome (Z * Z * H) :=
  if cap_addr =? 0 then mret (msi_cap_addr, msix_cap_addr, h)
  else
    match fuel with
    | O => NoFuel
    | S fuel' =>
        let '(hd, h) := ReadCapabilityHeader h dev cap_addr in
        if cap_id hd =? kCapabilityMSI then find_msi fuel' h dev (next_ptr hd) cap_addr msix_cap_addr
        else if cap_id hd =? kCapabilityMSIX then find_msi fuel' h dev (next_ptr hd) msi_cap_addr cap_addr
        else find_msi fuel' h dev (next_ptr hd) msi_cap_addr msix_cap_addr
    end.

(** A list without a cycle has at most 255 members, since an address has eight bits;
    a cyclic one is walked for ever. *)
Definition ConfigureMSI (h : H) (dev : Device) (msg_addr msg_data num_vector_exponent : Z) : outcome (Code * H) :=
  let '(reg, h) := ReadConfReg h dev 0x34 in
  '(msi_cap_addr, msix_cap_addr, h) ← find_msi 255 h dev (Z.land reg 0xff) 0 0;
  mret (if negb (msi_cap_addr =? 0) then ConfigureMSIRegister h dev msi_cap_addr msg_addr msg_data num_vector_exponent
        else if negb (msix_cap_addr =? 0) then ConfigureMSIXRegister h
        else (kNoPCIMSI, h)).

Inductive MSITriggerMode : Set := kEdge | kLevel.
Inductive MSIDeliveryMode : Set := kFixed | kLowestPriority | kSMI | kNMI | kINIT | kExtINT.

Definition delivery_value (m : MSIDeliveryMode) : Z :=
  match m with kFixed => 0 | kLowestPriority => 1 | kSMI => 2 | kNMI => 4 | kINIT => 5 | kExtINT => 7 end.

Definition ConfigureMSIFixedDestination (h : H) (dev : Device) (apic_id : Z) (trigger_mode : MSITriggerMode)
    (delivery_mode : MSIDeliveryMode) (vector num_vector_exponent : Z) : outcome (Code * H) :=
  let msg_addr := Z.lor 0xfee00000 (Z.shiftl apic_id 12) in
  let msg_data := Z.lor (Z.shiftl (delivery_value delivery_mode) 8) vector in
  let msg_data := match trigger_mode with kLevel => Z.lor msg_data 0xc000 | kEdge => msg_data end in
  ConfigureMSI h dev msg_addr msg_data num_vector_exponent.
End pci.
Arguments PciState : clear implicits.
Arguments mkPci {H} hw devices.

(** ** What the scan finds *)

(** The configuration mechanism: a read through the ports gives the word of
    configuration space at the address last written, and changes none. *)
Class ConfigMechanism (H : Type) `{IoPorts H} := {
  config : H → Z → Z;
  config_read h a : ∃ h', IoIn32 (IoOut32 h kConfigAddress a) kConfigData = (config h a, h') ∧
    ∀ b, config h' b = config h b;
}.

Module ScanFacts.

(** *** A configuration space *)
Section space.
Variable cfg : Z → Z.

Definition cfg_vendor (b d f : Z) : Z := Z.land (cfg (MakeAddress b d f 0x00)) 0xffff.
Definition cfg_header (b d f : Z) : Z := Z.land (Z.shiftr (cfg (MakeAddress b d f 0x0c)) 16) 0xff.
Definition cfg_class (b d f : Z) : ClassCode :=
  let reg := cfg (MakeAddress b d f 0x08) in
  mkClass (Z.land (Z.shiftr reg 24) 0xff) (Z.land (Z.shiftr reg 16) 0xff) (Z.land (Z.shiftr reg 8) 0xff).
Definition cfg_secondary (b d f : Z) : Z := Z.land (Z.shiftr (cfg (MakeAddress b d f 0x18)) 8) 0xff.

Definition present (b d f : Z) : Prop := cfg_vendor b d f ≠ 0xffff.
Definition multi_function (b d : Z) : Prop := IsSingleFunctionDevice (cfg_header b d 0) = false.
Definition bridge (b d f : Z) : Prop := Match2 (cfg_class b d f) 0x06 0x04 = true.

(** The entry of [devices] for a function. *)
Definition dev_at (x : Z * Z * Z) : Device :=
  let '(b, d, f) := x in mkDevice b d f (cfg_header b d f) (cfg_class b d f).

(** The functions of the devices on a bus. *)
Definition of_device (b d f : Z) : Prop := f = 0 ∨ multi_function b d ∧ 1 ≤ f < 8 ∧ present b d f.
Definition on_bus (b d f : Z) : Prop := 0 ≤ d < 32 ∧ present b d 0 ∧ of_device b d f.

(** The functions on a bus and, through bridges, below it. *)
Inductive below : Z → Z * Z * Z → Prop :=
| below_here b d f : on_bus b d f → below b (b, d, f)
| below_bridge b d f x : on_bus b d f → bridge b d f → below (cfg_secondary b d f) x → below b x.

(** The functions that can be reached from the host bridges. *)
Definition reached (x : Z * Z * Z) : Prop :=
  ∃ f, 0 ≤ f < (if IsSingleFunctionDevice (cfg_header 0 0 0) then 1 else 8) ∧ present 0 0 f ∧ below f x.
End space.

Section scan.
Context {H : Type} `{CM : ConfigMechanism H}.
Variable cfg : Z → Z.

Definition shows_cfg (h : H) : Prop := ∀ a, config h a = cfg a.

Lemma read_reg_spec h b d f r : shows_cfg h →
  ∃ h', read_reg h b d f r = (cfg (MakeAddress b d f r), h') ∧ shows_cfg h'.
Proof.
  intros Hh. unfold read_reg, ReadData, WriteAddress. destruct (config_read h (MakeAddress b d f r)) as (h' & -> & Hs).
  exists h'. split; [by rewrite Hh|]. intros a. by rewrite Hs.
Qed.

(** A step of the scan: with at most [n] devices still to be entered it returns,
    keeps the entries made before, adds entries of functions in [W] only, and
    unless the array is full all of them. *)
Definition scans (n : nat) (W : Z * Z * Z → Prop) (m : PciState H → outcome (Code * PciState H)) : Prop :=
  ∀ s, shows_cfg (hw s) → (length (devices s) ≤ 256)%nat → (257 ≤ n + length (devices s))%nat →
  ∃ err s', m s = Done (err, s') ∧ shows_cfg (hw s') ∧ devices s `prefix_of` devices s' ∧
    (length (devices s') ≤ 256)%nat ∧
    (err = kSuccess ∨ err = kFull ∧ length (devices s') = 256%nat) ∧
    (∀ dev, dev ∈ devices s' → dev ∈ devices s ∨ ∃ x, W x ∧ dev = dev_at cfg x) ∧
    (err = kSuccess → ∀ x, W x → dev_at cfg x ∈ devices s').

Lemma scans_ext n W W' m : (∀ x, W x ↔ W' x) → scans n W m → scans n W' m.
Proof.
  intros HW Hm s H1 H2 H3. destruct (Hm s H1 H2 H3) as (err & s' & E & A & B & C & D & F & G).
  exists err, s'. split_and!; try done.
  - intros dev [?|(x & Hx & ->)]%F; [by left|]. right. exists x. split; [by apply HW|done].
  - intros He x Hx. apply (G He). by apply HW.
Qed.

(** One step after another, unless the first ends with an error. *)
Lemma scans_seq n W1 W2 m1 m2 : scans n W1 m1 → scans n W2 m2 →
  scans n (λ x, W1 x ∨ W2 x) (λ s, '(err, s) ← m1 s; if error_bool err then mret (err, s) else m2 s).
Proof.
  intros Hm1 Hm2 s H1 H2 H3. destruct (Hm1 s H1 H2 H3) as (err & s1 & -> & A & B & C & D & F & G).
  cbn [mbind outcome_bind]. destruct D as [->|[-> Hfull]]; cbn.
  - pose proof (prefix_length _ _ B).
    destruct (Hm2 s1 A C ltac:(lia)) as (err & s2 & -> & A2 & B2 & C2 & D2 & F2 & G2).
    exists err, s2. split_and!; [done|done|by etrans|done|done| |].
    + intros dev [Hd|(x & ? & ->)]%F2; [|right; eauto]. destruct (F _ Hd) as [?|(x & ? & ->)]; [by left|right; eauto].
    + intros He x [Hx|Hx]; [|by apply G2]. apply (elem_of_prefix (devices s1)); [by apply G|done].
  - exists kFull, s1. split_and!; [done|done|done|done|by right| |done].
    intros dev [?|(x & ? & ->)]%F; [by left|right; eauto].
Qed.

Lemma scans_done n : scans n (λ _, False) (λ s, mret (kSuccess, s)).
Proof. intros s H1 H2 H3. exists kSuccess, s. split_and!; [done|done|reflexivity|done|by left|by left|done]. Qed.

Lemma scan_loop_scans n W f xs : (∀ x, x ∈ xs → scans n (W x) (f x)) →
  scans n (λ y, ∃ x, x ∈ xs ∧ W x y) (scan_loop f xs).
Proof.
  induction xs as [|x xs IH]; intros Hf.
  - apply (scans_ext _ (λ _, False)); [|apply scans_done]. intros y. set_solver.
  - apply (scans_ext _ (λ y, W x y ∨ ∃ z, z ∈ xs ∧ W z y)); [intros y; set_solver|].
    apply (scans_seq _ _ _ (f x) (scan_loop f xs)); [apply Hf; set_solver|]. apply IH. set_solver.
Qed.

(** A read of the hardware before a step. *)
Lemma scans_read {A} n W (rd : H → A * H) (m : A → PciState H → outcome (Code * PciState H)) (v : A) :
  (∀ h, shows_cfg h → ∃ h', rd h = (v, h') ∧ shows_cfg h') → scans n W (m v) →
  scans n W (λ s, let '(x, h) := rd (hw s) in m x (mkPci h (devices s))).
Proof.
  intros Hrd Hm s H1 H2 H3. destruct (Hrd _ H1) as (h' & -> & Hh'). by apply (Hm (mkPci h' (devices s))).
Qed.

Lemma ReadVendorId_spec b d f h : shows_cfg h → ∃ h', ReadVendorId h b d f = (cfg_vendor cfg b d f, h') ∧ shows_cfg h'.
Proof. intros Hh. unfold ReadVendorId. destruct (read_reg_spec h b d f 0 Hh) as (h' & -> & ?). by exists h'. Qed.

Lemma ReadHeaderType_spec b d f h : shows_cfg h → ∃ h', ReadHeaderType h b d f = (cfg_header cfg b d f, h') ∧ shows_cfg h'.
Proof. intros Hh. unfold ReadHeaderType. destruct (read_reg_spec h b d f 0x0c Hh) as (h' & -> & ?). by exists h'. Qed.

Lemma ReadClassCode_spec b d f h : shows_cfg h → ∃ h', ReadClassCode h b d f = (cfg_class cfg b d f, h') ∧ shows_cfg h'.
Proof. intros Hh. unfold ReadClassCode. destruct (read_reg_spec h b d f 0x08 Hh) as (h' & -> & ?). by exists h'. Qed.

Lemma if_present_scans n W b d f m : scans n W m →
  scans n (λ x, present cfg b d f ∧ W x) (if_present b d f m).
Proof.
  intros Hm. unfold if_present.
  apply (scans_read n _ (λ h, ReadVendorId h b d f) (λ v s, if v =? 0xffff then mret (kSuccess, s) else m s)
    (cfg_vendor cfg b d f)); [apply ReadVendorId_spec|].
  unfold present. destruct (Z.eqb_spec (cfg_vendor cfg b d f) 0xffff).
  - apply (scans_ext _ (λ _, False)); [tauto|apply scans_done].
  - apply (scans_ext _ W); [tauto|done].
Qed.

(** [ScanFunction] adds its function, then scans below it when it is a bridge. *)
Lemma ScanFunction_scans n sb b d f :
  scans n (below cfg (cfg_secondary cfg b d f)) (sb (cfg_secondary cfg b d f)) →
  scans (S n) (λ x, x = (b, d, f) ∨ bridge cfg b d f ∧ below cfg (cfg_secondary cfg b d f) x) (ScanFunction sb b d f).
Proof.
  intros Hsb s H1 H2 H3. unfold ScanFunction.
  destruct (ReadClassCode_spec b d f (hw s) H1) as (h1 & -> & Hh1).
  destruct (ReadHeaderType_spec b d f h1 Hh1) as (h2 & -> & Hh2).
  unfold AddDevice, num_device. cbn [devices hw]. destruct (Z.eqb_spec (Z.of_nat (length (devices s))) 256).
  { cbn. exists kFull, (mkPci h2 (devices s)). split_and!; [done|done|reflexivity|done|right; split; [done|simpl; lia]|by left|done]. }
  cbn [error_bool]. cbv zeta. fold (dev_at cfg (b, d, f)). set (dev := dev_at cfg (b, d, f)).
  change (error_bool kSuccess) with false. cbv iota.
  assert (Hlen : length (devices s ++ [dev]) = S (length (devices s))) by (rewrite length_app; simpl; lia).
  assert (Hnew : ∀ W : Z * Z * Z → Prop, W (b, d, f) → ∀ x, x ∈ devices s ++ [dev] → x ∈ devices s ∨ ∃ y, W y ∧ x = dev_at cfg y).
  { intros W Hw x [?|Hx%list_elem_of_singleton]%elem_of_app; [by left|right]. by exists (b, d, f). }
  destruct (Match2 (cfg_class cfg b d f) 0x06 0x04) eqn:Hb.
  - unfold ReadBusNumbers. cbn [hw devices]. destruct (read_reg_spec h2 b d f 0x18 Hh2) as (h3 & -> & Hh3).
    fold (cfg_secondary cfg b d f).
    destruct (Hsb (mkPci h3 (devices s ++ [dev])) Hh3) as (err & s' & E & A & B & C & D & F & G); [simpl; lia..|].
    cbn [devices] in *. exists err, s'. split_and!; [done|done| |done|done| |].
    + etrans; [|exact B]. by apply prefix_app_r.
    + intros x [Hx|(y & Hy & ->)]%F; [|right; eauto]. apply Hnew; [by left|done].
    + intros He x [->|[_ Hx]]; [|by apply G]. apply (elem_of_prefix (devices s ++ [dev])); [set_solver|done].
  - eexists _, _. split; [reflexivity|]. cbn [hw devices]. split_and!; [done|by apply prefix_app_r|lia|by left| |].
    + apply Hnew. by left.
    + intros _ x [->|[Hbr _]]; [set_solver|]. unfold bridge in Hbr. congruence.
Qed.

Lemma ScanDevice_scans n sb b d : (∀ c, scans n (below cfg c) (sb c)) →
  scans (S n) (λ x, ∃ f, of_device cfg b d f ∧
    (x = (b, d, f) ∨ bridge cfg b d f ∧ below cfg (cfg_secondary cfg b d f) x)) (ScanDevice sb b d).
Proof.
  intros Hsb. set (V := λ f x, x = (b, d, f) ∨ bridge cfg b d f ∧ below cfg (cfg_secondary cfg b d f) x).
  unfold ScanDevice.
  apply (scans_ext (S n) (λ x, V 0 x ∨ (multi_function cfg b d ∧ ∃ f, f ∈ seqZ 1 7 ∧ (present cfg b d f ∧ V f x)))).
  { intros x. unfold of_device. split.
    - intros [?|(Hm & f & Hf%elem_of_seqZ & Hp & ?)]; [exists 0; auto|]. exists f. split; [right; split_and!; [done|lia|lia|done]|done].
    - intros (f & [->|(Hm & Hf & Hp)] & ?); [by left|right]. split; [done|]. exists f. by rewrite elem_of_seqZ. }
  apply (scans_seq _ _ _ (ScanFunction sb b d 0)); [by apply ScanFunction_scans|].
  apply (scans_read _ _ (λ h, ReadHeaderType h b d 0) (λ ht s, if IsSingleFunctionDevice ht then mret (kSuccess, s)
    else scan_loop (λ function, if_present b d function (ScanFunction sb b d function)) (seqZ 1 7) s)
    (cfg_header cfg b d 0)); [apply ReadHeaderType_spec|].
  unfold multi_function. destruct (IsSingleFunctionDevice (cfg_header cfg b d 0)).
  - apply (scans_ext _ (λ _, False)); [naive_solver|apply scans_done].
  - eapply scans_ext; [|apply (scan_loop_scans (S n) (λ f x, present cfg b d f ∧ V f x))]; [naive_solver|].
    intros f _. apply if_present_scans. by apply ScanFunction_scans.
Qed.

Lemma ScanBus_scans n : ∀ b, scans n (below cfg b) (ScanBus n b).
Proof.
  induction n as [|n IH]; intros b; [intros s _ H2 H3; lia|]. cbn [ScanBus].
  eapply scans_ext; [|apply (scan_loop_scans (S n) (λ d x, present cfg b d 0 ∧ ∃ f, of_device cfg b d f ∧
    (x = (b, d, f) ∨ bridge cfg b d f ∧ below cfg (cfg_secondary cfg b d f) x)))].
  - intros x. split.
    + intros (d & Hd%elem_of_seqZ & Hp & f & Hf & [->|[Hbr Hx]]).
      * apply below_here. unfold on_bus. split_and!; [lia|lia|done|done].
      * apply (below_bridge cfg b d f); [|done|done]. unfold on_bus. split_and!; [lia|lia|done|done].
    + intros Hx. destruct Hx as [b d f (Hd & Hp & Hf)|b d f x (Hd & Hp & Hf) Hbr Hx];
        (exists d; rewrite elem_of_seqZ; split; [lia|]; split; [done|]; exists f; auto).
  - intros d _. apply if_present_scans, ScanDevice_scans, IH.
Qed.
End scan.
End ScanFacts.
Import ScanFacts.

(** ** Properties *)

(** C15 pci
    The scan of the PCI buses ends and is complete.  Whatever the hardware's
    configuration space holds (bridges that lead back to a bus scanned before
    included), [ScanAllBus] returns: with [kSuccess], and then [devices] holds the
    functions that can be reached from the host bridges through devices and
    bridges, all of them and no others, with their class and header type; or with
    [kFull], and then the array is full with functions that can be reached. *)
Theorem ScanAllBus_finds {H : Type} `{ConfigMechanism H} (s : PciState H) :
  ∃ err s', ScanAllBus s = Done (err, s') ∧ (∀ a, config (hw s') a = config (hw s) a) ∧
    (∀ dev, dev ∈ devices s' → ∃ x, reached (config (hw s)) x ∧ dev = dev_at (config (hw s)) x) ∧
    (err = kSuccess ∧ num_device s' ≤ 256 ∧
       (∀ x, reached (config (hw s)) x → dev_at (config (hw s)) x ∈ devices s') ∨
     err = kFull ∧ num_device s' = 256).
Proof.
  set (cfg := config (hw s)). unfold ScanAllBus.
  destruct (ReadHeaderType_spec cfg 0 0 0 (hw s)) as (h & -> & Hh); [done|].
  set (functions := if IsSingleFunctionDevice _ then _ else _).
  destruct (scan_loop_scans cfg 257 (λ f x, present cfg 0 0 f ∧ below cfg f x)
    (λ function, if_present 0 0 function (ScanBus 257 function)) (seqZ 0 functions)) with (s := mkPci h [])
    as (err & s' & -> & A & _ & B & C & D & F); [|done|simpl; lia|simpl; lia|].
  { intros f _. apply if_present_scans, ScanBus_scans. }
  assert (Hreach : ∀ x, reached cfg x ↔ ∃ f, f ∈ seqZ 0 functions ∧ present cfg 0 0 f ∧ below cfg f x).
  { intros x. unfold reached. fold functions. setoid_rewrite elem_of_seqZ. split; intros (f & Hf & ?); exists f; split; lia || done. }
  exists err, s'. split; [done|]. split; [done|]. split.
  - intros dev [Hd|(x & Hx & ->)]%D; [by apply not_elem_of_nil in Hd|]. exists x. by rewrite Hreach.
  - unfold num_device. destruct C as [->|[-> C]]; [left|right; split; [done|lia]].
    split; [done|]. split; [lia|]. intros x Hx%Hreach. by apply F.
Qed.

(** A machine for the witness: a multi-function host bridge at 0.0.0, a bridge to
    bus 1 at 0.1.0 whose device 1.0.0 is a USB controller; everything else reads as
    ones. *)
Record Machine : Set := mkMachine { latch : Z }.

Definition sample_config (a : Z) : Z :=
  if a =? MakeAddress 0 0 0 0x00 then 0x12378086
  else if a =? MakeAddress 0 0 0 0x08 then 0x06000000
  else if a =? MakeAddress 0 0 0 0x0c then 0
  else if a =? MakeAddress 0 1 0 0x00 then 0x12348086
  else if a =? MakeAddress 0 1 0 0x08 then 0x06040000
  else if a =? MakeAddress 0 1 0 0x0c then 0x00010000
  else if a =? MakeAddress 0 1 0 0x18 then 0x00010100
  else if a =? MakeAddress 1 0 0 0x00 then 0x1e318086
  else if a =? MakeAddress 1 0 0 0x08 then 0x0c033000
  else if a =? MakeAddress 1 0 0 0x0c then 0
  else 0xffffffff.

#[export] Instance machine_ports : IoPorts Machine := {|
  IoOut32 h port v := if port =? kConfigAddress then mkMachine v else h;
  IoIn32 h port := (sample_config (latch h), h);
|}.

#[export] Program Instance machine_mechanism : ConfigMechanism Machine := {| config _ := sample_config |}.
Next Obligation. intros h a. exists (mkMachine a). done. Qed.

Lemma ScanAllBus_finds_witness :
  ∃ s', ScanAllBus (mkPci (mkMachine 0) []) = Done (kSuccess, s') ∧
    devices s' = [mkDevice 0 0 0 0 (mkClass 6 0 0); mkDevice 0 1 0 1 (mkClass 6 4 0); mkDevice 1 0 0 0 (mkClass 0x0c 0x03 0x30)] ∧
    (∀ dev, dev ∈ devices s' → ∃ x, reached sample_config x ∧ dev = dev_at sample_config x).
Proof.
  destruct (ScanAllBus_finds (mkPci (mkMachine 0) [])) as (err & s' & E & _ & Hs & _).
  assert (∃ s1, ScanAllBus (mkPci (mkMachine 0) []) = Done (kSuccess, s1) ∧ devices s1 =
    [mkDevice 0 0 0 0 (mkClass 6 0 0); mkDevice 0 1 0 1 (mkClass 6 4 0); mkDevice 1 0 0 0 (mkClass 0x0c 0x03 0x30)])
    as (s1 & E1 & Hd) by (eexists; split; vm_compute; reflexivity).
  rewrite E1 in E. injection E as _ <-. exists s1. split; [exact E1|]. split; [exact Hd|exact Hs].
Defined.
