(* ===== verification/Xhci.v ===== *)
(** The xHCI driver: src/kernel/usb/host/xhci/.  The driver works on a machine
    state through volatile 32-bit loads and stores, which reach both the
    controller's registers and the memory it shares with the driver.  The
    descriptors, the rings and the contexts are words of that memory. *)
From S2P Require Import Prelude ErrorCode Pci.
From Stdlib Require Import Btauto.

(** Loads, stores and [malloc] (0: no memory) over the state of the machine. *)
Class Machine32 (H : Type) := {
  load32 : H → Z → Z * H;
  store32 : H → Z → Z → H;
  malloc : H → Z → Z * H;
}.

(** ** xhci_trb.hpp *)

(** [struct TRB]; the word [i] of the TRB at [a] is at [a + 4 * i]. *)
Record TRB : Set := mkTRB { parameter0 : Z; parameter1 : Z; status : Z; control : Z }.
Definition sizeof_TRB : Z := 16.

#[export] Instance TRB_eq_dec : EqDecision TRB.
Proof. solve_decision. Defined.

Definition TRB_CYCLE : Z := Z.shiftl 1 0.
Definition TRB_CHAIN : Z := Z.shiftl 1 4.
Definition TRB_IOC : Z := Z.shiftl 1 5.
Definition TRB_Type (control : Z) : Z := Z.land (Z.shiftr control 10) 0x3f.
Definition TRB_SetType (type : Z) : Z := u32 (Z.shiftl type 10).

Definition TRB_TYPE_NORMAL : Z := 1.
Definition TRB_TYPE_SETUP_STAGE : Z := 2.
Definition TRB_TYPE_DATA_STAGE : Z := 3.
Definition TRB_TYPE_STATUS_STAGE : Z := 4.
Definition TRB_TYPE_LINK : Z := 6.
Definition TRB_TYPE_ENABLE_SLOT_CMD : Z := 9.
Definition TRB_TYPE_ADDRESS_DEV_CMD : Z := 11.
Definition TRB_TYPE_CONFIGURE_EP_CMD : Z := 12.
Definition TRB_TYPE_NOOP_CMD : Z := 23.
Definition TRB_TYPE_TRANSFER_EVENT : Z := 32.
Definition TRB_TYPE_CMD_COMPLETION : Z := 33.
Definition TRB_TYPE_PORT_STATUS_CHG : Z := 34.
Definition TRB_IDT : Z := Z.shiftl 1 6.
Definition SETUP_TRT_NO_DATA : Z := Z.shiftl 0 16.
Definition SETUP_TRT_OUT : Z := Z.shiftl 2 16.
Definition SETUP_TRT_IN : Z := Z.shiftl 3 16.
Definition TRB_DIR_OUT : Z := Z.shiftl 0 16.
Definition TRB_DIR_IN : Z := Z.shiftl 1 16.
Definition LINK_TRB_TOGGLE_CYCLE : Z := Z.shiftl 1 1.
Definition TRB_COMPLETION_SUCCESS : Z := 1.
Definition TRB_COMPLETION_SHORT_PKT : Z := 13.
Definition TRB_CompletionCode (status : Z) : Z := Z.land (Z.shiftr status 24) 0xff.
Definition TRB_SlotId (control : Z) : Z := Z.land (Z.shiftr control 24) 0xff.

(** ** xhci_registers.hpp *)

(** Offsets of the registers of the five structures. *)
Definition cap_length_and_version : Z := 0x00.
Definition hcs_params1 : Z := 0x04.
Definition hcs_params2 : Z := 0x08.
Definition hcc_params1 : Z := 0x10.
Definition db_off : Z := 0x14.
Definition rts_off : Z := 0x18.

Definition usb_cmd : Z := 0x00.
Definition usb_sts : Z := 0x04.
Definition cr_cr_lo : Z := 0x18.
Definition cr_cr_hi : Z := 0x1c.
Definition dcbaap_lo : Z := 0x30.
Definition dcbaap_hi : Z := 0x34.
Definition config_reg : Z := 0x38.

Definition iman : Z := 0x00.
Definition erstsz : Z := 0x08.
Definition erstba_lo : Z := 0x10.
Definition erstba_hi : Z := 0x14.
Definition erdp_lo : Z := 0x18.
Definition erdp_hi : Z := 0x1c.

Definition CAP_CapLength (v : Z) : Z := Z.land v 0xff.
Definition CAP_HciVersion (v : Z) : Z := Z.land (Z.shiftr v 16) 0xffff.
Definition HCSPARAMS1_MaxSlots (v : Z) : Z := Z.land v 0xff.
Definition HCSPARAMS1_MaxPorts (v : Z) : Z := Z.land (Z.shiftr v 24) 0xff.
Definition HCSPARAMS1_MaxIntrs (v : Z) : Z := Z.land (Z.shiftr v 8) 0x7ff.
Definition HCSPARAMS2_ErstMax (v : Z) : Z := Z.land (Z.shiftr v 4) 0x0f.
Definition HCSPARAMS2_MaxScratchpadBufs (v : Z) : Z :=
  let hi := Z.land (Z.shiftr v 21) 0x1f in
  let lo := Z.land (Z.shiftr v 27) 0x1f in
  Z.lor (Z.shiftl hi 5) lo.
Definition HCCPARAMS1_AC64 (v : Z) : bool := negb (Z.land v 1 =? 0).
Definition HCCPARAMS1_CSZ (v : Z) : bool := negb (Z.land (Z.shiftr v 2) 1 =? 0).
Definition HCCPARAMS1_xECP (v : Z) : Z := Z.land (Z.shiftr v 16) 0xffff.

Definition USBCMD_RUN_STOP : Z := Z.shiftl 1 0.
Definition USBCMD_HCRST : Z := Z.shiftl 1 1.
Definition USBCMD_INTE : Z := Z.shiftl 1 2.
Definition USBSTS_HCH : Z := Z.shiftl 1 0.
Definition USBSTS_CNR : Z := Z.shiftl 1 11.
Definition IMAN_IP : Z := Z.shiftl 1 0.
Definition IMAN_IE : Z := Z.shiftl 1 1.

Definition PORTSC_CCS : Z := Z.shiftl 1 0.
Definition PORTSC_PED : Z := Z.shiftl 1 1.
Definition PORTSC_PR : Z := Z.shiftl 1 4.
Definition PORTSC_CSC : Z := Z.shiftl 1 17.
Definition PORTSC_PRC : Z := Z.shiftl 1 21.
Definition PORTSC_Speed (v : Z) : Z := Z.land (Z.shiftr v 10) 0x0f.

(** The bits of PORTSC that a write of one clears. *)
Definition PORTSC_W1C_BITS : Z :=
  Z.lor PORTSC_CSC (Z.lor (Z.shiftl 1 18) (Z.lor (Z.shiftl 1 19) (Z.lor (Z.shiftl 1 20)
    (Z.lor PORTSC_PRC (Z.lor (Z.shiftl 1 22) (Z.shiftl 1 23)))))).

(** ** xhci_context.hpp: the words of contexts, set by field *)

Definition SC_SetSpeed (dword0 speed : Z) : Z := set_field dword0 20 4 speed.
Definition SC_SetContextEntries (dword0 entries : Z) : Z := set_field dword0 27 5 entries.
Definition SC_SetRootHubPortNumber (dword1 port : Z) : Z := set_field dword1 16 8 port.
Definition EP_TYPE_CONTROL : Z := 4.
Definition EP_SetEPType (dword1 type : Z) : Z := set_field dword1 3 3 type.
Definition EP_SetMaxPacketSize (dword1 size : Z) : Z := set_field dword1 16 16 size.
Definition EP_SetCErr (dword1 cerr : Z) : Z := set_field dword1 1 2 cerr.
Definition EP_SetAvgTRBLength (dword4 len : Z) : Z := set_field dword4 0 16 len.
Definition EP_SetInterval (dword0 interval : Z) : Z := set_field dword0 16 8 interval.

(** [EP_SetTRDequeuePointer]: the words 2 and 3; [~0xFu] is a 32-bit mask. *)
Definition EP_SetTRDequeuePointer (addr : Z) (dcs : bool) : Z * Z :=
  (Z.lor (u32 (Z.land addr 0xfffffff0)) (if dcs then 1 else 0), u32 (Z.shiftr addr 32)).

Definition DefaultMaxPacketSize (speed : Z) : Z :=
  if speed =? 2 then 8 else if speed =? 1 then 8 else if speed =? 3 then 64
  else if speed =? 4 then 512 else if speed =? 5 then 512 else 8.

(** Sizes of [DeviceContext] and [InputContext], and where the parts of the latter are. *)
Definition sizeof_DeviceContext : Z := 1024.
Definition sizeof_InputContext : Z := 1056.
Definition input_add_flags : Z := 4.
Definition input_slot : Z := 32.
Definition input_ep0 : Z := 64.

(** ** setup_packet.hpp *)
Record SetupPacket : Set := mkSetup { bmRequestType : Z; bRequest : Z; wValue : Z; wIndex : Z; wLength : Z }.

Definition REQUEST_DIR_OUT : Z := 0x00.
Definition REQUEST_DIR_IN : Z := 0x80.
Definition REQUEST_GET_DESCRIPTOR : Z := 6.
Definition REQUEST_SET_CONFIGURATION : Z := 9.
Definition DESC_TYPE_DEVICE : Z := 1.

(** ** xhci.hpp *)

(** The state of an endpoint's transfer ring. *)
Record EPRing : Set := mkEP { ring : Z; enqueue : Z; cycle : bool }.

(** [class XhciController]: addresses of registers and of the shared structures
    (0: null), and the positions in the rings.  [slot_data_] is keyed by slot and
    endpoint. *)
Record XhciController : Set := mkXhci {
  dev_ : Device;
  cap_ : Z; op_ : Z; primary_interrupter_ : Z; doorbell_base_ : Z;
  max_ports_ : Z; max_slots_ : Z;
  cmd_ring_ : Z; cmd_ring_size_ : Z; cmd_ring_enqueue_ : Z; cmd_ring_cycle_ : bool;
  event_ring_ : Z; event_ring_size_ : Z; event_ring_dequeue_ : Z; event_ring_cycle_ : bool;
  erst_ : Z; dcbaa_ : Z;
  slot_data_ : gmap (Z * Z) EPRing;
}.

Definition new_XhciController (dev : Device) : XhciController :=
  mkXhci dev 0 0 0 0 0 0 0 0 0 true 0 0 0 true 0 0 ∅.

Definition set_registers (c : XhciController) (cap op pi db ports slots : Z) : XhciController :=
  mkXhci (dev_ c) cap op pi db ports slots (cmd_ring_ c) (cmd_ring_size_ c) (cmd_ring_enqueue_ c) (cmd_ring_cycle_ c)
    (event_ring_ c) (event_ring_size_ c) (event_ring_dequeue_ c) (event_ring_cycle_ c) (erst_ c) (dcbaa_ c) (slot_data_ c).
Definition set_cmd_ring (c : XhciController) (r size enq : Z) (cyc : bool) : XhciController :=
  mkXhci (dev_ c) (cap_ c) (op_ c) (primary_interrupter_ c) (doorbell_base_ c) (max_ports_ c) (max_slots_ c) r size enq cyc
    (event_ring_ c) (event_ring_size_ c) (event_ring_dequeue_ c) (event_ring_cycle_ c) (erst_ c) (dcbaa_ c) (slot_data_ c).
Definition set_event_ring (c : XhciController) (r size deq : Z) (cyc : bool) : XhciController :=
  mkXhci (dev_ c) (cap_ c) (op_ c) (primary_interrupter_ c) (doorbell_base_ c) (max_ports_ c) (max_slots_ c)
    (cmd_ring_ c) (cmd_ring_size_ c) (cmd_ring_enqueue_ c) (cmd_ring_cycle_ c) r size deq cyc (erst_ c) (dcbaa_ c)
    (slot_data_ c).
Definition set_tables (c : XhciController) (erst dcbaa : Z) : XhciController :=
  mkXhci (dev_ c) (cap_ c) (op_ c) (primary_interrupter_ c) (doorbell_base_ c) (max_ports_ c) (max_slots_ c)
    (cmd_ring_ c) (cmd_ring_size_ c) (cmd_ring_enqueue_ c) (cmd_ring_cycle_ c)
    (event_ring_ c) (event_ring_size_ c) (event_ring_dequeue_ c) (event_ring_cycle_ c) erst dcbaa (slot_data_ c).
Definition set_slot_data (c : XhciController) (sd : gmap (Z * Z) EPRing) : XhciController :=
  mkXhci (dev_ c) (cap_ c) (op_ c) (primary_interrupter_ c) (doorbell_base_ c) (max_ports_ c) (max_slots_ c)
    (cmd_ring_ c) (cmd_ring_size_ c) (cmd_ring_enqueue_ c) (cmd_ring_cycle_ c)
    (event_ring_ c) (event_ring_size_ c) (event_ring_dequeue_ c) (event_ring_cycle_ c) (erst_ c) (dcbaa_ c) sd.

Definition kCmdRingSize : Z := 256.
Definition kEventRingSize : Z := 256.
Definition kEp0RingSize : Z := 16.

Section xhci.
Context {H : Type} `{IoPorts H} `{Machine32 H}.

(** [*a = f( *a)] *)
Definition modify32 (h : H) (a : Z) (f : Z → Z) : H := let '(v, h) := load32 h a in store32 h a (f v).

(** The two words of a 64-bit pointer in two registers or words. *)
Definition store_lo_hi (h : H) (lo hi p : Z) : H := store32 (store32 h lo (u32 p)) hi (u32 (Z.shiftr p 32)).

(** [while (load(a) & mask differs from what is awaited) {}]: [fuel] polls. *)
Fixpoint poll (fuel : nat) (h : H) (a : Z) (awaited : Z → bool) : outcome H :=
  match fuel with
  | O => NoFuel
  | S fuel' => let '(v, h) := load32 h a in if awaited v then mret h else poll fuel' h a awaited
  end.

Definition bit_set (mask v : Z) : bool := negb (Z.land v mask =? 0).
Definition bit_clear (mask v : Z) : bool := Z.land v mask =? 0.

(** [AllocAligned] and [AllocAlignedZeroed] (0: null); the sizes are multiples of
    four, and [memset] clears word by word. *)
Definition AllocAligned (h : H) (size alignment : Z) : Z * H :=
  let '(ptr, h) := malloc h (size + alignment) in
  if ptr =? 0 then (0, h) else (Z.ldiff (u64 (ptr + alignment - 1)) (alignment - 1), h).

Definition memset0 (h : H) (ptr size : Z) : H := foldl (λ h i, store32 h (ptr + 4 * i) 0) h (seqZ 0 (size / 4)).

Definition AllocAlignedZeroed (h : H) (size alignment : Z) : Z * H :=
  let '(ptr, h) := AllocAligned h size alignment in
  if ptr =? 0 then (0, h) else (ptr, memset0 h ptr size).

(** ** Intel routing *)

Definition kXusb2Pr : Z := 0xD0.
Definition kUsb2Prm : Z := 0xD4.
Definition kUsb3Pssen : Z := 0xD8.
Definition kUsb3Prm : Z := 0xDC.

Definition IsSwitchableIntelXhci (vendor_id device_id : Z) : bool :=
  if negb (vendor_id =? 0x8086) then false
  else existsb (Z.eqb device_id) [0x1E31; 0x8C31; 0x8CB1; 0x9C31; 0x9CB1].

Definition RouteToXhci (h : H) (dev : Device) : bool * H :=
  let '(vendor_id, h) := ReadVendorId h (bus dev) (device dev) (function dev) in
  let '(device_id, h) := ReadDeviceId h (bus dev) (device dev) (function dev) in
  if negb (IsSwitchableIntelXhci vendor_id device_id) then (false, h)
  else
    let '(usb2_switchable_mask, h) := ReadConfReg h dev kUsb2Prm in
    let '(usb3_enable_mask, h) := ReadConfReg h dev kUsb3Prm in
    let h := WriteConfReg h dev kXusb2Pr usb2_switchable_mask in
    let h := WriteConfReg h dev kUsb3Pssen usb3_enable_mask in
    let '(_, h) := ReadConfReg h dev kXusb2Pr in
    let '(_, h) := ReadConfReg h dev kUsb3Pssen in
    (true, h).

(** [ConfigurePCI], of the xHCI and of the EHCI driver: memory space and bus
    mastering are switched on. *)
Definition ConfigurePCI (h : H) (dev : Device) : H :=
  let '(cmd, h) := ReadConfReg h dev 0x04 in
  WriteConfReg h dev 0x04 (Z.lor cmd (Z.lor (Z.shiftl 1 1) (Z.shiftl 1 2))).

(** ** Bringing the controller up *)

Definition ReadCapabilityRegisters (c : XhciController) (h : H) : Code * XhciController * H :=
  let '(dword0, h) := load32 h (cap_ c + cap_length_and_version) in
  let cap_length := CAP_CapLength dword0 in
  let version := CAP_HciVersion dword0 in
  if (version =? 0xffff) || (cap_length =? 0) then (kNotImplemented, c, h)
  else
    let bar := cap_ c in
    let op := bar + cap_length in
    let '(hcs1, h) := load32 h (bar + hcs_params1) in
    let '(_, h) := load32 h (bar + hcs_params2) in
    let '(_, h) := load32 h (bar + hcc_params1) in
    let '(db, h) := load32 h (bar + db_off) in
    let '(rts, h) := load32 h (bar + rts_off) in
    let db_off := Z.ldiff db 0x3 in
    let rts_off := Z.ldiff rts 0x1f in
    let c := set_registers c bar op (bar + rts_off + 0x20) (bar + db_off)
               (HCSPARAMS1_MaxPorts hcs1) (HCSPARAMS1_MaxSlots hcs1) in
    let '(_, h) := load32 h (op + usb_sts) in
    (kSuccess, c, h).

Definition ResetController (fuel : nat) (c : XhciController) (h : H) : outcome (Code * H) :=
  let h := modify32 h (op_ c + usb_cmd) (λ v, Z.ldiff v USBCMD_RUN_STOP) in
  h ← poll fuel h (op_ c + usb_sts) (bit_set USBSTS_HCH);
  let h := modify32 h (op_ c + usb_cmd) (λ v, Z.lor v USBCMD_HCRST) in
  h ← poll fuel h (op_ c + usb_cmd) (bit_clear USBCMD_HCRST);
  h ← poll fuel h (op_ c + usb_sts) (bit_clear USBSTS_CNR);
  mret (kSuccess, store32 h (op_ c + config_reg) (max_slots_ c)).

(** The link TRB that closes a ring of [size] TRBs; the other words are zero
    from the allocation. *)
Definition write_link (h : H) (ring size : Z) : H :=
  let link := ring + sizeof_TRB * (size - 1) in
  let h := store_lo_hi h link (link + 4) ring in
  store32 h (link + 12) (Z.lor (TRB_SetType TRB_TYPE_LINK) LINK_TRB_TOGGLE_CYCLE).

Definition StartController (fuel : nat) (c : XhciController) (h : H) : outcome (Code * XhciController * H) :=
  let '(dcbaa, h) := AllocAlignedZeroed h ((max_slots_ c + 1) * 8) 64 in
  let c := set_tables c (erst_ c) dcbaa in
  if dcbaa =? 0 then mret (kNoEnoughMemory, c, h)
  else
    let h := store_lo_hi h (op_ c + dcbaap_lo) (op_ c + dcbaap_hi) dcbaa in
    let '(cmd_ring, h) := AllocAlignedZeroed h (kCmdRingSize * sizeof_TRB) 64 in
    let c := set_cmd_ring c cmd_ring kCmdRingSize (cmd_ring_enqueue_ c) (cmd_ring_cycle_ c) in
    if cmd_ring =? 0 then mret (kNoEnoughMemory, c, h)
    else
      let h := write_link h cmd_ring kCmdRingSize in
      let c := set_cmd_ring c cmd_ring kCmdRingSize 0 true in
      let h := store_lo_hi h (op_ c + cr_cr_lo) (op_ c + cr_cr_hi) (Z.lor cmd_ring 1) in
      let '(event_ring, h) := AllocAlignedZeroed h (kEventRingSize * sizeof_TRB) 64 in
      let c := set_event_ring c event_ring kEventRingSize (event_ring_dequeue_ c) (event_ring_cycle_ c) in
      if event_ring =? 0 then mret (kNoEnoughMemory, c, h)
      else
        let c := set_event_ring c event_ring kEventRingSize 0 true in
        let '(erst, h) := AllocAlignedZeroed h 16 64 in
        let c := set_tables c erst (dcbaa_ c) in
        if erst =? 0 then mret (kNoEnoughMemory, c, h)
        else
          let h := store_lo_hi h erst (erst + 4) event_ring in
          let h := store32 h (erst + 8) (event_ring_size_ c) in
          let p := primary_interrupter_ c in
          let h := store32 h (p + erstsz) 1 in
          let h := store_lo_hi h (p + erdp_lo) (p + erdp_hi) event_ring in
          let h := store_lo_hi h (p + erstba_lo) (p + erstba_hi) erst in
          let h := store32 h (p + iman) (Z.lor IMAN_IP IMAN_IE) in
          let h := modify32 h (op_ c + usb_cmd) (λ v, Z.lor v (Z.lor USBCMD_RUN_STOP USBCMD_INTE)) in
          h ← poll fuel h (op_ c + usb_sts) (bit_clear USBSTS_HCH);
          mret (kSuccess, c, h).

(** ** Rings *)

Definition cycle_bit (cycle : bool) : Z := if cycle then TRB_CYCLE else 0.

(** The lines that [PushCommand] and [PushTransfer] share: a TRB is written at the
    enqueue position, and behind the last one the link TRB gets the cycle bit and
    the position wraps. *)
Definition push_trb (h : H) (ring size enqueue : Z) (cycle : bool) (t : TRB) : Z * bool * H :=
  let trb := ring + sizeof_TRB * enqueue in
  let h := store32 h trb (parameter0 t) in
  let h := store32 h (trb + 4) (parameter1 t) in
  let h := store32 h (trb + 8) (status t) in
  let h := store32 h (trb + 12) (Z.lor (control t) (cycle_bit cycle)) in
  let enqueue := u32 (enqueue + 1) in
  if enqueue =? size - 1 then
    let h := modify32 h (ring + sizeof_TRB * enqueue + 12) (λ v, Z.lor (Z.ldiff v TRB_CYCLE) (cycle_bit cycle)) in
    (0, negb cycle, h)
  else (enqueue, cycle, h).

Definition PushCommand (c : XhciController) (h : H) (t : TRB) : XhciController * H :=
  let '(enq, cyc, h) := push_trb h (cmd_ring_ c) (cmd_ring_size_ c) (cmd_ring_enqueue_ c) (cmd_ring_cycle_ c) t in
  (set_cmd_ring c (cmd_ring_ c) (cmd_ring_size_ c) enq cyc, store32 h (doorbell_base_ c) 0).

(** An endpoint without a ring has the null pointer. *)
Definition PushTransfer (c : XhciController) (h : H) (slot_id dci : Z) (t : TRB) : outcome (XhciController * H) :=
  ep ← of_option (slot_data_ c !! (slot_id, dci - 1));
  let '(enq, cyc, h) := push_trb h (ring ep) kEp0RingSize (enqueue ep) (cycle ep) t in
  mret (set_slot_data c (<[(slot_id, dci - 1) := mkEP (ring ep) enq cyc]> (slot_data_ c)), h).

(** [WaitEvent]: the address of the event, after [fuel] polls at most. *)
Fixpoint WaitEvent (fuel : nat) (c : XhciController) (h : H) : outcome (Z * XhciController * H) :=
  match fuel with
  | O => NoFuel
  | S fuel' =>
      let event := event_ring_ c + sizeof_TRB * event_ring_dequeue_ c in
      let '(v, h) := load32 h (event + 12) in
      if negb (Z.land v TRB_CYCLE =? (if event_ring_cycle_ c then 1 else 0)) then WaitEvent fuel' c h
      else
        let deq := u32 (event_ring_dequeue_ c + 1) in
        let c := if deq =? event_ring_size_ c
                 then set_event_ring c (event_ring_ c) (event_ring_size_ c) 0 (negb (event_ring_cycle_ c))
                 else set_event_ring c (event_ring_ c) (event_ring_size_ c) deq (event_ring_cycle_ c) in
        let erdp := event_ring_ c + sizeof_TRB * event_ring_dequeue_ c in
        let h := store32 h (primary_interrupter_ c + erdp_lo) (Z.lor (u32 erdp) (Z.shiftl 1 3)) in
        let h := store32 h (primary_interrupter_ c + erdp_hi) (u32 (Z.shiftr erdp 32)) in
        let '(v, h) := load32 h (event + 12) in
        if TRB_Type v =? TRB_TYPE_PORT_STATUS_CHG then WaitEvent fuel' c h
        else mret (event, c, h)
  end.

(** ** Devices *)

Definition PortAt (c : XhciController) (port_num : Z) : Z := op_ c + 0x400 + (port_num - 1) * 0x10.

Definition AddressDevice (fuel : nat) (c : XhciController) (h : H) (slot_id port speed : Z)
    : outcome (Code * XhciController * H) :=
  let '(dev_ctx, h) := AllocAlignedZeroed h sizeof_DeviceContext 64 in
  if dev_ctx =? 0 then mret (kNoEnoughMemory, c, h)
  else
    let h := store_lo_hi h (dcbaa_ c + 8 * slot_id) (dcbaa_ c + 8 * slot_id + 4) dev_ctx in
    let '(ep0_ring, h) := AllocAlignedZeroed h (kEp0RingSize * sizeof_TRB) 64 in
    if ep0_ring =? 0 then mret (kNoEnoughMemory, c, h)
    else
      let h := write_link h ep0_ring kEp0RingSize in
      let c := set_slot_data c (<[(slot_id, 0) := mkEP ep0_ring 0 true]>
                 (filter (λ e : (Z * Z) * EPRing, e.1.1 ≠ slot_id) (slot_data_ c))) in
      let '(input, h) := AllocAlignedZeroed h sizeof_InputContext 64 in
      if input =? 0 then mret (kNoEnoughMemory, c, h)
      else
        let h := store32 h (input + input_add_flags) (Z.lor (Z.shiftl 1 0) (Z.shiftl 1 1)) in
        let slot := input + input_slot in
        let h := modify32 h slot (λ v, SC_SetSpeed v speed) in
        let h := modify32 h slot (λ v, SC_SetContextEntries v 1) in
        let h := modify32 h (slot + 4) (λ v, SC_SetRootHubPortNumber v port) in
        let max_packet := DefaultMaxPacketSize speed in
        let ep := input + input_ep0 in
        let h := modify32 h (ep + 4) (λ v, EP_SetEPType v EP_TYPE_CONTROL) in
        let h := modify32 h (ep + 4) (λ v, EP_SetMaxPacketSize v max_packet) in
        let h := modify32 h (ep + 4) (λ v, EP_SetCErr v 3) in
        let '(dword2, dword3) := EP_SetTRDequeuePointer ep0_ring true in
        let h := store32 (store32 h (ep + 8) dword2) (ep + 12) dword3 in
        let h := modify32 h (ep + 16) (λ v, EP_SetAvgTRBLength v 8) in
        let '(c, h) := PushCommand c h (mkTRB (u32 input) (u32 (Z.shiftr input 32)) 0
                         (Z.lor (TRB_SetType TRB_TYPE_ADDRESS_DEV_CMD) (Z.shiftl slot_id 24))) in
        '(event, c, h) ← WaitEvent fuel c h;
        let '(st, h) := load32 h (event + 8) in
        if negb (TRB_CompletionCode st =? TRB_COMPLETION_SUCCESS) then mret (kNotImplemented, c, h)
        else mret (kSuccess, c, h).

(** [buf] is the buffer's address, 0 for null. *)
Definition ControlTransfer (fuel : nat) (c : XhciController) (h : H) (slot_id : Z) (setup : SetupPacket) (buf len : Z)
    : outcome (Code * XhciController * H) :=
  let setup_lo := Z.lor (Z.lor (bmRequestType setup) (Z.shiftl (bRequest setup) 8)) (Z.shiftl (wValue setup) 16) in
  let setup_hi := Z.lor (wIndex setup) (Z.shiftl (wLength setup) 16) in
  let has_data := (0 <? len) && negb (buf =? 0) in
  let is_in := negb (Z.land (bmRequestType setup) 0x80 =? 0) in
  let trt := if has_data then (if is_in then SETUP_TRT_IN else SETUP_TRT_OUT) else SETUP_TRT_NO_DATA in
  '(c, h) ← PushTransfer c h slot_id 1
    (mkTRB setup_lo setup_hi 8 (Z.lor (Z.lor (TRB_SetType TRB_TYPE_SETUP_STAGE) TRB_IDT) trt));
  '(c, h) ← (if has_data then
      PushTransfer c h slot_id 1 (mkTRB (u32 buf) (u32 (Z.shiftr buf 32)) len
        (Z.lor (TRB_SetType TRB_TYPE_DATA_STAGE) (if is_in then TRB_DIR_IN else TRB_DIR_OUT)))
    else mret (c, h));
  let status_dir := if negb has_data || is_in then TRB_DIR_OUT else TRB_DIR_IN in
  '(c, h) ← PushTransfer c h slot_id 1
    (mkTRB 0 0 0 (Z.lor (Z.lor (TRB_SetType TRB_TYPE_STATUS_STAGE) TRB_IOC) status_dir));
  let h := store32 h (doorbell_base_ c + 4 * slot_id) 1 in
  '(event, c, h) ← WaitEvent fuel c h;
  let '(st, h) := load32 h (event + 8) in
  let cc := TRB_CompletionCode st in
  if negb (cc =? TRB_COMPLETION_SUCCESS) && negb (cc =? TRB_COMPLETION_SHORT_PKT) then mret (kNotImplemented, c, h)
  else mret (kSuccess, c, h).

(** [UsbDevice::GetDescriptor] and [SetConfiguration] *)
Definition GetDescriptor (fuel : nat) (c : XhciController) (h : H) (slot_id desc_type index buf len : Z)
    : outcome (Code * XhciController * H) :=
  ControlTransfer fuel c h slot_id
    (mkSetup REQUEST_DIR_IN REQUEST_GET_DESCRIPTOR (Z.lor (Z.shiftl desc_type 8) index) 0 len) buf len.

Definition SetConfiguration (fuel : nat) (c : XhciController) (h : H) (slot_id config_value : Z)
    : outcome (Code * XhciController * H) :=
  ControlTransfer fuel c h slot_id (mkSetup REQUEST_DIR_OUT REQUEST_SET_CONFIGURATION config_value 0 0) 0 0.

(** The body of the loop of [ScanPorts]; every [continue] leaves it.  [desc] is the
    address of the local [DeviceDescriptor]. *)
Definition scan_port (fuel : nat) (desc : Z) (c : XhciController) (h : H) (port : Z) : outcome (XhciController * H) :=
  let pr := PortAt c port in
  let '(portsc, h) := load32 h pr in
  if bit_clear PORTSC_CCS portsc then mret (c, h)
  else
    let h := store32 h pr (Z.lor (Z.ldiff portsc PORTSC_W1C_BITS) PORTSC_PR) in
    h ← poll fuel h pr (bit_set PORTSC_PRC);
    let h := modify32 h pr (λ v, Z.lor (Z.ldiff v PORTSC_W1C_BITS) PORTSC_PRC) in
    let '(v, h) := load32 h pr in
    let speed := PORTSC_Speed v in
    let '(_, h) := load32 h pr in
    let '(v, h) := load32 h pr in
    if bit_clear PORTSC_PED v then mret (c, h)
    else
      let '(c, h) := PushCommand c h (mkTRB 0 0 0 (TRB_SetType TRB_TYPE_ENABLE_SLOT_CMD)) in
      '(event, c, h) ← WaitEvent fuel c h;
      let '(st, h) := load32 h (event + 8) in
      let '(ctl, h) := load32 h (event + 12) in
      let slot_id := TRB_SlotId ctl in
      if negb (TRB_CompletionCode st =? TRB_COMPLETION_SUCCESS) then mret (c, h)
      else
        '(err, c, h) ← AddressDevice fuel c h slot_id port speed;
        if error_bool err then mret (c, h)
        else
          '(err, c, h) ← GetDescriptor fuel c h slot_id DESC_TYPE_DEVICE 0 desc 18;
          if error_bool err then mret (c, h)
          else '(_, c, h) ← SetConfiguration fuel c h slot_id 1; mret (c, h).

(** [ScanPorts]: [for (uint8_t port = 1; port <= max_ports_; ++port)], [turns]
    turns at most. *)
Fixpoint scan_ports (turns fuel : nat) (desc : Z) (c : XhciController) (h : H) (port : Z)
    : outcome (XhciController * H) :=
  if max_ports_ c <? port then mret (c, h)
  else
    match turns with
    | O => NoFuel
    | S turns' => '(c, h) ← scan_port fuel desc c h port; scan_ports turns' fuel desc c h (u8 (port + 1))
    end.

Definition ScanPorts (turns fuel : nat) (desc : Z) (c : XhciController) (h : H) : outcome (Code * XhciController * H) :=
  '(c, h) ← scan_ports turns fuel desc c h 1; mret (kSuccess, c, h).

(** [XhciController::Initialize] *)
Definition xhci_Initialize (turns fuel : nat) (desc : Z) (c : XhciController) (h : H)
    : outcome (Code * XhciController * H) :=
  let '(_, h) := RouteToXhci h (dev_ c) in
  let h := ConfigurePCI h (dev_ c) in
  let '(bar, h) := ReadBar h (dev_ c) 0 in
  if error_bool (error bar) then mret (error bar, c, h)
  else
    let c := set_registers c (value bar) (op_ c) (primary_interrupter_ c) (doorbell_base_ c) (max_ports_ c) (max_slots_ c) in
    let '(err, c, h) := ReadCapabilityRegisters c h in
    if error_bool err then mret (err, c, h)
    else
      '(err, h) ← ResetController fuel c h;
      if error_bool err then mret (err, c, h)
      else
        '(err, c, h) ← StartController fuel c h;
        if error_bool err then mret (err, c, h)
        else ScanPorts turns fuel desc c h.

(** ** EHCI and the list of controllers: ehci.cpp, usb.cpp *)

(** [EhciController::Initialize]: the base address of its registers. *)
Definition ehci_Initialize (h : H) (dev : Device) : WithError Z * H :=
  let '(_, h) := ReadVendorId h (bus dev) (device dev) (function dev) in
  let '(_, h) := ReadDeviceId h (bus dev) (device dev) (function dev) in
  let h := ConfigurePCI h dev in
  ReadBar h dev 0.

Definition ehci_ControlTransfer : Code := kNotImplemented.

Inductive HostController : Set := Xhci (c : XhciController) | Ehci (dev : Device) (mmio_base : Z).

(** One turn of the first loop of [usb::Initialize]; the array [controllers] takes 8. *)
Definition add_xhci (turns fuel : nat) (desc : Z) (dev : Device) (st : list HostController * H)
    : outcome (list HostController * H) :=
  let '(controllers, h) := st in
  if Match3 (class_code dev) 0x0c 0x03 0x30 then
    '(err, c, h) ← xhci_Initialize turns fuel desc (new_XhciController dev) h;
    if error_bool err then mret (controllers, h)
    else if 8 <=? Z.of_nat (length controllers) then Undef
    else mret (controllers ++ [Xhci c], h)
  else mret (controllers, h).

Definition add_ehci (dev : Device) (st : list HostController * H) : outcome (list HostController * H) :=
  let '(controllers, h) := st in
  if 8 <=? Z.of_nat (length controllers) then mret (controllers, h)
  else if Match3 (class_code dev) 0x0c 0x03 0x20 then
    let '(bar, h) := ehci_Initialize h dev in
    if error_bool (error bar) then mret (controllers, h)
    else mret (controllers ++ [Ehci dev (value bar)], h)
  else mret (controllers, h).

(** [usb::Initialize], over the devices of the PCI scan *)
Definition usb_Initialize (turns fuel : nat) (desc : Z) (devices : list Device) (h : H)
    : outcome (list HostController * H) :=
  st ← foldM (add_xhci turns fuel desc) devices ([], h);
  foldM add_ehci devices st.
End xhci.

(** ** Rings as queues *)

(** Memory that the machine's other parts leave alone: loads and stores of the
    [owned] words behave as memory, and stores elsewhere (registers) do not
    change them. *)
Class OwnedMemory (H : Type) `{Machine32 H} (owned : Z → Prop) := {
  word : H → Z → Z;
  load_owned h a : owned a → ∃ h', load32 h a = (word h a, h') ∧ ∀ b, owned b → word h' b = word h b;
  store_owned h a v b : owned b → word (store32 h a v) b = if decide (b = a) then v else word h b;
}.

(** What a controller does to take a TRB from a ring (xHCI specification, 4.9.2):
    the TRB at its dequeue position is ready when its cycle bit equals the
    consumer's cycle state; a link TRB leads back to the start and toggles the
    state. [T] gives the TRBs of the ring. *)
Definition ready (T : Z → TRB) (deq : Z) (ccs : bool) : bool := bool_decide (Z.testbit (control (T deq)) 0 = ccs).

Definition take_trb (T : Z → TRB) (deq : Z) (ccs : bool) : option (TRB * Z * bool) :=
  if negb (ready T deq ccs) then None
  else if TRB_Type (control (T deq)) =? TRB_TYPE_LINK then
    let ccs := if Z.testbit (control (T deq)) 1 then negb ccs else ccs in
    if ready T 0 ccs then Some (T 0, 1, ccs) else None
  else Some (T deq, deq + 1, ccs).

(** A TRB as the driver passes it: the cycle bit clear, and no link. *)
Definition plain_trb (t : TRB) : Prop :=
  Z.testbit (control t) 0 = false ∧ TRB_Type (control t) ≠ TRB_TYPE_LINK.

(** The TRB without its cycle bit. *)
Definition strip (t : TRB) : TRB := mkTRB (parameter0 t) (parameter1 t) (status t) (Z.ldiff (control t) TRB_CYCLE).

Inductive ring_op : Set := Push (t : TRB) | Take.

(** A queue of TRBs, and a ring of [size] TRBs at [ring] with the driver's and the
    controller's positions. *)
Fixpoint run_queue (q : list TRB) (ops : list ring_op) : list (option TRB) :=
  match ops with
  | [] => []
  | Push t :: ops => run_queue (q ++ [t]) ops
  | Take :: ops => match q with [] => None :: run_queue q ops | t :: q => Some t :: run_queue q ops end
  end.

(** No push when the queue holds [n] TRBs. *)
Fixpoint fits (n : Z) (q : list TRB) (ops : list ring_op) : Prop :=
  match ops with
  | [] => True
  | Push t :: ops => Z.of_nat (length q) < n ∧ plain_trb t ∧ fits n (q ++ [t]) ops
  | Take :: ops => fits n (tail q) ops
  end.

Section queue.
Context {H : Type} `{M : Machine32 H}.
Variables (owned : Z → Prop).
Context `{OM : !OwnedMemory H owned}.

Definition trb_at (h : H) (ring j : Z) : TRB :=
  let a := ring + sizeof_TRB * j in mkTRB (word h a) (word h (a + 4)) (word h (a + 8)) (word h (a + 12)).

Fixpoint run_ring (ring size : Z) (h : H) (enq : Z) (cyc : bool) (deq : Z) (ccs : bool) (ops : list ring_op)
    : list (option TRB) :=
  match ops with
  | [] => []
  | Push t :: ops =>
      let '(enq, cyc, h) := push_trb h ring size enq cyc t in run_ring ring size h enq cyc deq ccs ops
  | Take :: ops =>
      match take_trb (trb_at h ring) deq ccs with
      | None => None :: run_ring ring size h enq cyc deq ccs ops
      | Some (t, deq, ccs) => Some (strip t) :: run_ring ring size h enq cyc deq ccs ops
      end
  end.
End queue.
Arguments trb_at {H M} owned {OM} h ring j.
Arguments run_ring {H M} owned {OM} ring size h enq cyc deq ccs ops.

Module RingFacts.
Section ring.
Context {H : Type} `{M : Machine32 H}.
Variables (owned : Z → Prop).
Context `{OM : !OwnedMemory H owned}.
Variables (ring size : Z).
Hypothesis Hsize : 2 ≤ size < 2 ^ 32.
Hypothesis Howned : ∀ a, ring ≤ a < ring + sizeof_TRB * size → owned a.

Abbreviation T h := (trb_at owned h ring).
#[local] Set Default Proof Using "All".
Let N := size - 1.

(** The TRB with the cycle bit that the producer gives it. *)
Definition with_cycle (t : TRB) (b : bool) : TRB :=
  mkTRB (parameter0 t) (parameter1 t) (status t) (Z.lor (control t) (cycle_bit b)).

Definition relink (t : TRB) (b : bool) : TRB :=
  mkTRB (parameter0 t) (parameter1 t) (status t) (Z.lor (Z.ldiff (control t) TRB_CYCLE) (cycle_bit b)).

Lemma store_words h j t k : 0 ≤ j < size → 0 ≤ k < size →
  let a := ring + sizeof_TRB * j in
  T (store32 (store32 (store32 (store32 h a (parameter0 t)) (a + 4) (parameter1 t)) (a + 8) (status t)) (a + 12) (control t)) k =
    if decide (k = j) then t else T h k.
Proof.
  intros Hj Hk a. unfold sizeof_TRB in *. unfold trb_at. unfold sizeof_TRB. cbv zeta.
  rewrite !store_owned by (apply Howned; lia). unfold a. destruct (decide (k = j)) as [Hkj|Hkj].
  - subst k. destruct t. f_equal; repeat case_decide; done || lia.
  - by rewrite !decide_False by lia.
Qed.

Lemma modify_control h j f k : 0 ≤ j < size → 0 ≤ k < size →
  T (modify32 h (ring + sizeof_TRB * j + 12) f) k =
    if decide (k = j) then mkTRB (parameter0 (T h j)) (parameter1 (T h j)) (status (T h j)) (f (control (T h j))) else T h k.
Proof.
  intros Hj Hk. unfold modify32. unfold sizeof_TRB in *.
  destruct (load_owned h (ring + 16 * j + 12)) as (h' & -> & Hw); [apply Howned; lia|].
  unfold trb_at. unfold sizeof_TRB. cbv zeta. cbn [parameter0 parameter1 status control].
  rewrite !store_owned by (apply Howned; lia). rewrite !Hw by (apply Howned; lia).
  destruct (decide (k = j)) as [Hkj|Hkj].
  - subst k. f_equal; repeat case_decide; done || lia.
  - by rewrite !decide_False by lia.
Qed.

Lemma push_trb_spec h enq cyc t : 0 ≤ enq < N →
  ∃ h', push_trb h ring size enq cyc t = (if enq + 1 =? N then (0, negb cyc, h') else (enq + 1, cyc, h')) ∧
    (∀ k, 0 ≤ k < N → T h' k = if decide (k = enq) then with_cycle t cyc else T h k) ∧
    T h' N = if enq + 1 =? N then relink (T h N) cyc else T h N.
Proof.
  intros Henq. unfold N in *. unfold push_trb. cbv zeta. rewrite (wrap_small 32 (enq + 1)) by lia.
  set (a := ring + sizeof_TRB * enq).
  set (h1 := store32 (store32 (store32 (store32 h a _) _ _) _ _) _ _).
  assert (H1 : ∀ k, 0 ≤ k < size → T h1 k = if decide (k = enq) then with_cycle t cyc else T h k).
  { intros k Hk. by apply (store_words h enq (with_cycle t cyc) k ltac:(lia) Hk). }
  destruct (Z.eqb_spec (enq + 1) (size - 1)) as [He|He].
  - eexists. split; [reflexivity|]. rewrite He. split.
    + intros k Hk. rewrite modify_control, decide_False, H1 by lia. done.
    + rewrite modify_control, decide_True, H1, decide_False by lia. done.
  - exists h1. split; [done|]. split; [intros; apply H1; lia|]. by rewrite H1, decide_False by lia.
Qed.

(** *** Positions

    The driver has written [p] TRBs and the controller has taken [c]; TRB number
    [i] is in slot [i mod N], with the cycle bit of its lap. *)
Definition par (i : Z) : bool := Z.even (i / N).

Definition consumer_at (c deq : Z) (ccs : bool) : Prop :=
  deq = c mod N ∧ ccs = par c ∨ c mod N = 0 ∧ deq = N ∧ ccs = negb (par c).

Record ring_inv (q : list TRB) (h : H) (enq : Z) (cyc : bool) (deq : Z) (ccs : bool) (c : Z) : Prop := {
  ri_c : 0 ≤ c;
  ri_len : Z.of_nat (length q) < N;
  ri_enq : enq = (c + Z.of_nat (length q)) mod N;
  ri_cyc : cyc = par (c + Z.of_nat (length q));
  ri_consumer : consumer_at c deq ccs;
  ri_plain : Forall plain_trb q;
  ri_full i t : q !! i = Some t → T h ((c + Z.of_nat i) mod N) = with_cycle t (par (c + Z.of_nat i));
  ri_free i : c + Z.of_nat (length q) ≤ i < c + N → Z.testbit (control (T h (i mod N))) 0 = negb (par i);
  ri_link : TRB_Type (control (T h N)) = TRB_TYPE_LINK ∧ Z.testbit (control (T h N)) 1 = true ∧
    Z.testbit (control (T h N)) 0 = negb (par (c + Z.of_nat (length q)));
}.

Lemma slot_next i : 0 ≤ i → (i + 1) mod N = (if i mod N + 1 =? N then 0 else i mod N + 1) ∧
  par (i + 1) = (if i mod N + 1 =? N then negb (par i) else par i).
Proof.
  intros Hi. unfold par. assert (0 < N) by (unfold N; lia). pose proof (Z.div_mod i N ltac:(lia)).
  pose proof (Z.mod_pos_bound i N ltac:(lia)). destruct (Z.eqb_spec (i mod N + 1) N) as [He|He].
  - assert ((i + 1) / N = i / N + 1) as -> by (symmetry; apply (Z.div_unique _ _ _ 0); lia).
    split; [symmetry; apply (Z.mod_unique _ _ (i / N + 1)); lia|]. rewrite Z.even_add. by destruct (Z.even (i / N)).
  - assert ((i + 1) / N = i / N) as -> by (symmetry; apply (Z.div_unique _ _ _ (i mod N + 1)); lia).
    split; [symmetry; apply (Z.mod_unique _ _ (i / N)); lia|done].
Qed.

Lemma slot_lap i : 0 ≤ i → (i + N) mod N = i mod N ∧ par (i + N) = negb (par i).
Proof.
  intros Hi. unfold par. assert (0 < N) by (unfold N; lia). replace (i + N) with (i + 1 * N) by lia.
  rewrite Z_mod_plus_full, Z_div_plus_full by lia. split; [done|]. rewrite Z.even_add. by destruct (Z.even (i / N)).
Qed.

(** Numbers of one window of [N] have different slots. *)
Lemma ring_slot_inj c i j : c ≤ i < c + N → c ≤ j < c + N → i mod N = j mod N → i = j.
Proof.
  intros Hi Hj He. pose proof (Z.div_mod i N ltac:(unfold N; lia)). pose proof (Z.div_mod j N ltac:(unfold N; lia)).
  assert (i / N = j / N) by nia. nia.
Qed.

Lemma testbit_relink v b k : k ≠ 0 → 0 ≤ k → Z.testbit (Z.lor (Z.ldiff v TRB_CYCLE) (cycle_bit b)) k = Z.testbit v k.
Proof.
  intros Hk Hk0. rewrite Z.lor_spec, Z.ldiff_spec. change TRB_CYCLE with (2 ^ 0). rewrite Z.pow2_bits_false by done.
  unfold cycle_bit. destruct b; [change TRB_CYCLE with (2 ^ 0); rewrite Z.pow2_bits_false by done|rewrite Z.bits_0]; btauto.
Qed.

Lemma type_bits v w : (∀ k, 10 ≤ k → Z.testbit v k = Z.testbit w k) → TRB_Type v = TRB_Type w.
Proof.
  intros Hb. unfold TRB_Type. f_equal. apply Z.bits_inj'. intros k Hk. rewrite !Z.shiftr_spec by done. apply Hb. lia.
Qed.

Lemma testbit_cycle v b k : 0 ≤ k → Z.testbit (Z.lor v (cycle_bit b)) k = Z.testbit v k || (b && (k =? 0)).
Proof.
  intros Hk. rewrite Z.lor_spec. f_equal. destruct b; [|by rewrite Z.bits_0].
  change (cycle_bit true) with (2 ^ 0). destruct (Z.eqb_spec k 0) as [->|]; [done|]. by rewrite Z.pow2_bits_false by lia.
Qed.

Lemma with_cycle_plain t b : plain_trb t → Z.testbit (control (with_cycle t b)) 0 = b ∧
  TRB_Type (control (with_cycle t b)) ≠ TRB_TYPE_LINK ∧ strip (with_cycle t b) = t.
Proof.
  intros [H0 Ht]. unfold with_cycle. cbn [control]. rewrite testbit_cycle, H0 by lia. split_and!; [by destruct b| |].
  - intros Hl. apply Ht. rewrite <- Hl. apply type_bits. intros k Hk. rewrite testbit_cycle by lia.
    destruct (Z.eqb_spec k 0); [lia|]. by rewrite andb_false_r, orb_false_r.
  - unfold strip. destruct t as [p0 p1 st ctl]. cbn [control parameter0 parameter1 status] in *. f_equal. apply Z.bits_inj'. intros k Hk.
    rewrite Z.ldiff_spec, testbit_cycle by lia. change TRB_CYCLE with (2 ^ 0).
    destruct (Z.eqb_spec k 0) as [->|]; [rewrite H0; by destruct b|]. rewrite Z.pow2_bits_false by lia. btauto.
Qed.

Lemma push_inv q h enq cyc deq ccs c t : ring_inv q h enq cyc deq ccs c →
  Z.of_nat (length q) < N - 1 → plain_trb t →
  ∃ enq' cyc' h', push_trb h ring size enq cyc t = (enq', cyc', h') ∧ ring_inv (q ++ [t]) h' enq' cyc' deq ccs c.
Proof.
  intros [Hc Hlen -> -> Hcon Hpl Hfull Hfree Hlink] Hroom Ht. set (p := c + Z.of_nat (length q)) in *.
  assert (Hp : 0 ≤ p) by lia. pose proof (Z.mod_pos_bound p N ltac:(unfold N; lia)) as Hpm.
  destruct (push_trb_spec h (p mod N) (par p) t Hpm) as (h' & E & Hslots & HN).
  destruct (slot_next p Hp) as [Hnext Hpar].
  assert (Hlen' : c + Z.of_nat (length (q ++ [t])) = p + 1) by (rewrite length_app; simpl; lia).
  exists ((p + 1) mod N), (par (p + 1)), h'. split.
  { rewrite E, Hnext, Hpar. by destruct (p mod N + 1 =? N). }
  split; rewrite ?Hlen'; try done.
  - lia.
  - by apply Forall_app_2; [|constructor].
  - intros i u Hi. apply lookup_app_Some in Hi as [Hi|[Hge Hi]].
    + pose proof (lookup_lt_Some _ _ _ Hi). rewrite Hslots, decide_False; [by apply Hfull| |].
      * intros He. apply (ring_slot_inj c) in He; lia.
      * apply Z.mod_pos_bound. unfold N. lia.
    + apply list_lookup_singleton_Some in Hi as [Hi <-]. replace (c + Z.of_nat i) with p by lia.
      by rewrite Hslots, decide_True.
  - intros i Hi. rewrite Hslots by (apply Z.mod_pos_bound; unfold N; lia).
    rewrite decide_False; [apply Hfree; lia|]. intros He. apply (ring_slot_inj c) in He; lia.
  - rewrite HN, Hpar. destruct (p mod N + 1 =? N); [|done]. destruct Hlink as (Hl1 & Hl2 & Hl3).
    unfold relink. cbn [control]. split_and!.
    + rewrite <- Hl1. apply type_bits. intros k Hk. apply testbit_relink; lia.
    + rewrite testbit_relink by lia. done.
    + rewrite testbit_cycle, Z.ldiff_spec by lia. change TRB_CYCLE with (2 ^ 0). simpl. rewrite andb_false_r, negb_involutive. by destruct (par p).
Qed.

(** The controller finds the oldest TRB, or none. *)
Lemma take_slot q h enq cyc deq ccs c : ring_inv q h enq cyc deq ccs c →
  take_trb (T h) deq ccs =
    match q with
    | [] => None
    | t :: _ => Some (with_cycle t (par c), c mod N + 1, par c)
    end.
Proof.
  intros [Hc Hlen -> -> Hcon Hpl Hfull Hfree (Hl1 & Hl2 & Hl3)].
  assert (Hready : ready (T h) (c mod N) (par c) = match q with [] => false | _ => true end).
  { unfold ready. destruct q as [|t q].
    - rewrite Hfree by (simpl; unfold N; lia). apply bool_decide_eq_false_2. by destruct (par c).
    - pose proof (Hfull 0%nat t eq_refl) as H0. rewrite Z.add_0_r in H0. rewrite H0.
      apply Forall_cons in Hpl as [Ht _]. apply bool_decide_eq_true_2. by apply with_cycle_plain. }
  assert (Hhead : match q with [] => True | t :: _ => T h (c mod N) = with_cycle t (par c) ∧ plain_trb t end).
  { destruct q as [|t q]; [done|]. pose proof (Hfull 0%nat t eq_refl) as H0. rewrite Z.add_0_r in H0.
    by apply Forall_cons in Hpl as [Ht _]. }
  destruct Hcon as [[-> ->]|(Hcm & -> & ->)]; unfold take_trb.
  - rewrite Hready. destruct q as [|t q]; [done|]. destruct Hhead as [-> Ht]. simpl negb. cbv iota.
    destruct (Z.eqb_spec (TRB_Type (control (with_cycle t (par c)))) TRB_TYPE_LINK) as [He|]; [|done].
    exfalso. by apply (proj1 (proj2 (with_cycle_plain t (par c) Ht))) in He.
  - assert (Hsame : par (c + Z.of_nat (length q)) = par c).
    { unfold par. f_equal. symmetry. pose proof (Z.div_mod c N ltac:(unfold N; lia)).
      apply (Z.div_unique _ _ _ (Z.of_nat (length q))); lia. }
    unfold ready at 1. rewrite Hl3, Hsame, bool_decide_eq_true_2 by done. simpl negb. cbv iota.
    rewrite Hl1, Z.eqb_refl, Hl2, negb_involutive. rewrite Hcm in Hready, Hhead. rewrite Hready.
    destruct q as [|t q]; [done|]. destruct Hhead as [-> _]. by rewrite Hcm.
Qed.

Lemma take_inv t q h enq cyc deq ccs c : ring_inv (t :: q) h enq cyc deq ccs c →
  ring_inv q h enq cyc (c mod N + 1) (par c) (c + 1).
Proof.
  intros [Hc Hlen -> -> Hcon Hpl Hfull Hfree Hlink]. cbn [length] in *.
  destruct (slot_next c Hc) as [Hnext Hpar].
  replace (c + Z.of_nat (S (length q))) with (c + 1 + Z.of_nat (length q)) in * by lia.
  apply Forall_cons in Hpl as [Ht Hpl]. split; try done; try lia.
  - unfold consumer_at. rewrite Hnext, Hpar. destruct (Z.eqb_spec (c mod N + 1) N); [right|left; done].
    rewrite negb_involutive. done.
  - intros i u Hi. specialize (Hfull (S i) u Hi). by replace (c + 1 + Z.of_nat i) with (c + Z.of_nat (S i)) by lia.
  - intros i Hi. destruct (decide (i = c + N)) as [->|]; [|apply Hfree; lia].
    destruct (slot_lap c Hc) as [-> ->]. rewrite negb_involutive.
    pose proof (Hfull 0%nat t eq_refl) as H0. rewrite Z.add_0_r in H0. rewrite H0. by apply with_cycle_plain.
Qed.

Lemma run_ring_queue ops : ∀ q h enq cyc deq ccs c, ring_inv q h enq cyc deq ccs c → fits (N - 1) q ops →
  run_ring owned ring size h enq cyc deq ccs ops = run_queue q ops.
Proof.
  induction ops as [|[t|] ops IH]; intros q h enq cyc deq ccs c Hinv Hfit; [done| |].
  - destruct Hfit as (Hroom & Ht & Hfit). destruct (push_inv q h enq cyc deq ccs c t Hinv Hroom Ht)
      as (enq' & cyc' & h' & E & Hinv'). cbn [run_ring run_queue]. rewrite E. by apply (IH _ _ _ _ _ _ c).
  - cbn [run_ring run_queue fits] in *. rewrite (take_slot q h enq cyc deq ccs c) by done.
    destruct q as [|t q]; [f_equal; by apply (IH _ _ _ _ _ _ c)|].
    pose proof (ri_plain _ _ _ _ _ _ _ Hinv) as [Ht _]%Forall_cons.
    destruct (with_cycle_plain t (par c) Ht) as (_ & _ & ->). f_equal.
    apply (IH _ _ _ _ _ _ (c + 1)); [by apply (take_inv t q h enq cyc deq ccs)|done].
Qed.

(** A ring of zeros closed by a link TRB is empty. *)
Lemma fresh_ring h : (∀ j, 0 ≤ j < N → T h j = mkTRB 0 0 0 0) →
  control (T h N) = Z.lor (TRB_SetType TRB_TYPE_LINK) LINK_TRB_TOGGLE_CYCLE → ring_inv [] h 0 true 0 true 0.
Proof.
  intros Hz Hl. assert (HN : 0 < N) by (unfold N; lia).
  assert (H0 : par 0 = true) by (unfold par; by rewrite Z.div_0_l by lia).
  split; cbn [length]; rewrite ?Z.add_0_r, ?Z.mod_0_l, ?H0 by lia; try done; try lia.
  - left. by rewrite Z.mod_0_l, H0 by lia.
  - intros i Hi. rewrite Z.mod_small, Hz by lia. unfold par. by rewrite Z.div_small by lia.
  - by rewrite Hl.
Qed.

Lemma memset_words ptr l b : owned b → ∀ h,
  word (foldl (λ h i, store32 h (ptr + 4 * i) 0) h l) b =
    if bool_decide (Exists (λ i, b = ptr + 4 * i) l) then 0 else word h b.
Proof.
  intros Hb. induction l as [|i l IH]; intros h; cbn [foldl]; [done|]. rewrite IH, store_owned by done.
  case_bool_decide as Hl; case_bool_decide as Hil; try done.
  - exfalso. apply Hil. by right.
  - apply Exists_cons in Hil as [->|]; [by rewrite decide_True|done].
  - rewrite decide_False; [done|]. intros ->. apply Hil. by left.
Qed.

(** What the driver makes of the memory it allocates for a ring. *)
Lemma new_ring_fresh h : ring_inv [] (write_link (memset0 h ring (size * sizeof_TRB)) ring size) 0 true 0 true 0.
Proof.
  assert (Hzero : ∀ j k, 0 ≤ j < size → 0 ≤ k < 4 →
    word (memset0 h ring (size * sizeof_TRB)) (ring + sizeof_TRB * j + 4 * k) = 0).
  { intros j k Hj Hk. unfold memset0. rewrite memset_words by (apply Howned; unfold sizeof_TRB in *; lia).
    rewrite bool_decide_eq_true_2; [done|]. apply Exists_exists. exists (4 * j + k). unfold sizeof_TRB in *.
    split; [apply elem_of_seqZ; dlia|lia]. }
  set (h0 := memset0 _ _ _) in *. apply fresh_ring.
  - intros j Hj. unfold N in Hj. unfold write_link, store_lo_hi, trb_at. unfold sizeof_TRB in *. cbv zeta.
    rewrite !store_owned by (apply Howned; unfold sizeof_TRB; lia). rewrite !decide_False by lia.
    pose proof (Hzero j 0) as E0. pose proof (Hzero j 1) as E1. pose proof (Hzero j 2) as E2. pose proof (Hzero j 3) as E3.
    rewrite Z.mul_0_r, Z.add_0_r in E0.
    change (4 * 1) with 4 in E1. change (4 * 2) with 8 in E2. change (4 * 3) with 12 in E3. by rewrite E0, E1, E2, E3 by lia.
  - unfold write_link, trb_at. cbn [control]. unfold N.
    rewrite store_owned by (apply Howned; unfold sizeof_TRB; lia). by rewrite decide_True.
Qed.
End ring.
End RingFacts.

(** ** The loop over the ports *)
Module PortFacts.
Section ports.
Context {H : Type} `{IoPorts H} `{Machine32 H}.

(** Splits a hypothesis [... = Done (.., c, ..)] into the steps of the function. *)
Ltac steps :=
  repeat match goal with
  | E : mbind _ _ = Done _ |- _ => apply bind_Done_inv in E; destruct E as (? & ? & E)
  | E : of_option _ = Done _ |- _ => clear E
  | E : mret _ = Done _ |- _ => injection E as E
  | E : Done _ = Done _ |- _ => injection E as E
  | x : (_ * _)%type |- _ => destruct x
  | E : context [let '(_, _) := ?x in _] |- _ => destruct x eqn:?
  | E : context [if ?b then _ else _] |- _ => destruct b
  | E : (_, _) = (_, _) |- _ => injection E as E
  end; subst.

Lemma PushCommand_ports (c c' : XhciController) (h h' : H) t :
  PushCommand c h t = (c', h') → max_ports_ c' = max_ports_ c.
Proof. unfold PushCommand. intros E. steps. done. Qed.

Lemma PushTransfer_ports (c c' : XhciController) (h h' : H) slot dci t :
  PushTransfer c h slot dci t = Done (c', h') → max_ports_ c' = max_ports_ c.
Proof. unfold PushTransfer. intros E. steps. done. Qed.

Lemma WaitEvent_ports fuel : ∀ (c c' : XhciController) (h h' : H) e,
  WaitEvent fuel c h = Done (e, c', h') → max_ports_ c' = max_ports_ c.
Proof.
  induction fuel as [|fuel IH]; intros c c' h h' e E; [done|]. cbn [WaitEvent] in E. cbv zeta in E.
  destruct (load32 h _) as [v h1]. destruct (negb _); [by apply IH in E|].
  destruct (load32 (store32 _ _ _) _) as [v' h2].
  set (c1 := if u32 (event_ring_dequeue_ c + 1) =? event_ring_size_ c then _ else _) in *.
  assert (max_ports_ c1 = max_ports_ c) by (unfold c1; by destruct (_ =? _)).
  destruct (TRB_Type v' =? _); [by apply IH in E as ->|]. injection E as _ <- _. done.
Qed.

(** Closes [max_ports_ c' = max_ports_ c] from the steps of a function. *)
Ltac ports :=
  repeat match goal with
  | E : PushCommand _ _ _ = _ |- _ => apply PushCommand_ports in E
  | E : PushTransfer _ _ _ _ _ = _ |- _ => apply PushTransfer_ports in E
  | E : WaitEvent _ _ _ = _ |- _ => apply WaitEvent_ports in E
  end; simpl in *; congruence.

Lemma AddressDevice_ports fuel (c c' : XhciController) (h h' : H) slot port speed err :
  AddressDevice fuel c h slot port speed = Done (err, c', h') → max_ports_ c' = max_ports_ c.
Proof. unfold AddressDevice. intros E. steps; ports. Qed.

Lemma ControlTransfer_ports fuel (c c' : XhciController) (h h' : H) slot setup buf len err :
  ControlTransfer fuel c h slot setup buf len = Done (err, c', h') → max_ports_ c' = max_ports_ c.
Proof. unfold ControlTransfer. intros E. cbv zeta in E. steps; ports. Qed.

Lemma scan_port_ports fuel desc (c c' : XhciController) (h h' : H) port :
  scan_port fuel desc c h port = Done (c', h') → max_ports_ c' = max_ports_ c.
Proof.
  unfold scan_port, GetDescriptor, SetConfiguration. intros E. steps;
    repeat match goal with
    | E : AddressDevice _ _ _ _ _ _ = _ |- _ => apply AddressDevice_ports in E
    | E : ControlTransfer _ _ _ _ _ _ _ = _ |- _ => apply ControlTransfer_ports in E
    end; ports.
Qed.

(** With 255 ports the counter, a [uint8_t], is never above the bound: the loop of
    [ScanPorts] does not end, however many turns it is given. *)
Lemma scan_ports_endless turns fuel desc : ∀ (c : XhciController) (h : H) port r, max_ports_ c = 255 → port ≤ 255 →
  scan_ports turns fuel desc c h port ≠ Done r.
Proof.
  induction turns as [|turns IH]; intros c h port r Hm Hp; cbn [scan_ports];
    (destruct (Z.ltb_spec (max_ports_ c) port); [lia|]); [done|].
  destruct (scan_port fuel desc c h port) as [[c' h']| |] eqn:E; [|done|done]. cbn [mbind outcome_bind].
  apply IH; [by apply scan_port_ports in E as ->|]. pose proof (wrap_bound 8 (port + 1)). simpl in *. lia.
Qed.
End ports.
End PortFacts.

(** ** Properties *)

(** C11 ring
    A ring that the driver sets up ([AllocAlignedZeroed] and the link TRB of
    [StartController] and [AddressDevice]) is a first-in-first-out queue between
    the driver and the controller: for every interleaving of driver pushes
    ([PushCommand], [PushTransfer]) and controller steps in which fewer than
    [size - 2] TRBs are outstanding at each push, the controller takes the pushed
    TRBs in order, each once and unchanged but for the cycle bit, across the link
    and both cycle states, and finds the ring empty exactly when the queue is. *)
Theorem ring_is_queue {H : Type} `{Machine32 H} (owned : Z → Prop) `{!OwnedMemory H owned} (h : H)
  (ring size : Z) (ops : list ring_op)
  (Hsize : 2 ≤ size < 2 ^ 32) (Howned : ∀ a, ring ≤ a < ring + sizeof_TRB * size → owned a)
  (Hfits : fits (size - 2) [] ops) :
  run_ring owned ring size (write_link (memset0 h ring (size * sizeof_TRB)) ring size) 0 true 0 true ops =
    run_queue [] ops.
Proof.
  apply (RingFacts.run_ring_queue owned ring size Hsize Howned) with (c := 0).
  - by apply RingFacts.new_ring_fresh.
  - by replace (size - 1 - 1) with (size - 2) by lia.
Qed.

(** A machine that is nothing but memory. *)
#[export] Instance ram_machine : Machine32 (gmap Z Z) := {|
  load32 m a := (arr_read m a, m);
  store32 m a v := <[a := v]> m;
  malloc m _ := (0x1000, m);
|}.

#[export] Program Instance ram_owned : OwnedMemory (gmap Z Z) (λ _, True) := {| word := arr_read |}.
Next Obligation. intros m a _. by exists m. Qed.
Next Obligation. intros m a v b _. change (arr_read (<[a := v]> m) b = if decide (b = a) then v else arr_read m b).
  rewrite arr_read_set. by repeat case_decide; congruence. Qed.

Lemma ring_is_queue_witness :
  let t i := mkTRB i 0 0 (TRB_SetType TRB_TYPE_ENABLE_SLOT_CMD) in
  let ops := [Push (t 1); Push (t 2); Take; Take; Take; Push (t 3); Push (t 4); Take; Push (t 5); Take; Take] in
  run_ring (λ _, True) 0x40 5 (write_link (memset0 ∅ 0x40 (5 * sizeof_TRB)) 0x40 5) 0 true 0 true ops =
    [Some (t 1); Some (t 2); None; Some (t 3); Some (t 4); Some (t 5)].
Proof.
  cbv zeta. rewrite (ring_is_queue (λ _, True) (∅ : gmap Z Z) 0x40 5); [reflexivity|lia|done|].
  vm_compute. repeat split; discriminate.
Defined.
