(* ===== verification/Mouse.v ===== *)
(** The mouse: src/kernel/mouse.{hpp,cpp}.  An interrupt moves the cursor's layer,
    may activate or drag a layer, and sends messages to the task of the active
    layer. *)
From S2P Require Import Prelude ErrorCode Message Task Graphics FrameBuffer Font Window Layer.

Definition kMouseCursorWidth : Z := 15.
Definition kMouseCursorHeight : Z := 24.
Definition kMouseTransparentColor : PixelColor := mkColor 0 0 1.

Definition mouse_cursor_shape : list string := [
  "@              ";
  "@@             ";
  "@.@            ";
  "@..@           ";
  "@...@          ";
  "@....@         ";
  "@.....@        ";
  "@......@       ";
  "@.......@      ";
  "@........@     ";
  "@.........@    ";
  "@..........@   ";
  "@...........@  ";
  "@............@ ";
  "@......@@@@@@@@";
  "@.....@        ";
  "@....@         ";
  "@...@          ";
  "@..@           ";
  "@.@            ";
  "@@             ";
  "@              ";
  "               ";
  "               "]%string.

(** [class Mouse] *)
Record Mouse : Set := mkMouse {
  layer_id_ : Z;
  position_ : Vector2D;
  drag_layer_id_ : Z;
  previous_buttons_ : Z;
}.

Definition new_Mouse (layer_id : Z) : Mouse := mkMouse layer_id (mkVec 0 0) 0 0.

(** [DrawMouseCursor] *)
Definition cursor_color (c : Z) : PixelColor :=
  if c =? 64 then mkColor 0 0 0 else if c =? 46 then mkColor 255 255 255 else kMouseTransparentColor.

Definition DrawMouseCursor {S : Type} `{PixelWriter S} (pixel_writer : S) (position : Vector2D) : outcome S :=
  for_loop 0 kMouseCursorHeight (λ dy, for_loop 0 kMouseCursorWidth (λ dx w,
    row ← of_option (mouse_cursor_shape !! Z.to_nat dy);
    c ← of_option (chars row !! Z.to_nat dx);
    Write w (position +v mkVec dx dy) (cursor_color c))) pixel_writer.

(** [FindActiveLayerTask]: the active layer (its address, or null) and its task
    (0: none). *)
Definition FindActiveLayerTask (d : Desktop) : option Z * Z :=
  let act := active_layer_ (active_layer d) in
  if act =? 0 then (None, 0)
  else
    match FindLayer (layer_manager d) act with
    | None => (None, 0)
    | Some layer =>
        match layer_task_map d !! act with
        | None => (Some layer, 0)
        | Some task_id => (Some layer, task_id)
        end
    end.

(** [task_manager->SendMessage(task_id, msg)] with its error dropped. *)
Definition post (d : Desktop) (task_id : Z) (msg : Message) : outcome Desktop :=
  '(_, tm) ← SendMessage (task_manager d) task_id msg; mret (set_tm d tm).

Definition SendMouseMessage (d : Desktop) (newpos posdiff : Vector2D) (buttons previous_buttons : Z) : outcome Desktop :=
  match FindActiveLayerTask d with
  | (Some a, task_id) =>
      if task_id =? 0 then mret d
      else
        layer ← of_option (layer_at (layers_ (layer_manager d)) a);
        let relpos := newpos -v pos_ layer in
        d ← (if negb (vx posdiff =? 0) || negb (vy posdiff =? 0)
             then post d task_id (mkMessage 0 (kMouseMove (vx relpos) (vy relpos) (vx posdiff) (vy posdiff) buttons))
             else mret d);
        if negb (previous_buttons =? buttons) then
          let diff := Z.lxor previous_buttons buttons in
          for_loop 0 8 (λ i d,
            if negb (Z.land (Z.shiftr diff i) 1 =? 0)
            then post d task_id (mkMessage 0 (kMouseButton (vx relpos) (vy relpos) (Z.land (Z.shiftr buttons i) 1) i))
            else mret d) d
        else mret d
  | (None, _) => mret d
  end.

Definition SendCloseMessage (d : Desktop) : outcome Desktop :=
  match FindActiveLayerTask d with
  | (Some a, task_id) =>
      if task_id =? 0 then mret d
      else
        layer ← of_option (layer_at (layers_ (layer_manager d)) a);
        post d task_id (mkMessage 0 (kWindowClose (id_ layer)))
  | (None, _) => mret d
  end.

(** [layer_manager->Move] and [MoveRelative] *)
Definition move_in (d : Desktop) (f : LayerManager → outcome LayerManager) : outcome Desktop :=
  lm ← f (layer_manager d); mret (set_lm d lm).

Definition SetPosition (m : Mouse) (d : Desktop) (position : Vector2D) : outcome (Mouse * Desktop) :=
  d ← move_in d (λ lm, lm_Move (windows d) lm (layer_id_ m) position);
  mret (mkMouse (layer_id_ m) position (drag_layer_id_ m) (previous_buttons_ m), d).

(** The position after a displacement: the one sent in messages, before the clamp
    to the screen's top left, and the cursor's. *)
Definition moved (screen_size : Vector2D) (position_ displacement : Vector2D) : Vector2D * Vector2D :=
  let newpos := ElementMin (position_ +v displacement) (screen_size +v mkVec (-1) (-1)) in
  (newpos, ElementMax newpos (mkVec 0 0)).

Section mouse.
Context `{FontLib}.

(** The branches of [OnInterrupt] on the left button: the layer being dragged, the
    layer to close. *)
Definition left_button (m : Mouse) (d : Desktop) (position posdiff : Vector2D) (buttons : Z)
    : outcome (Z * Z * Desktop) :=
  let previous_left_pressed := negb (Z.land (previous_buttons_ m) 1 =? 0) in
  let left_pressed := negb (Z.land buttons 1 =? 0) in
  if negb previous_left_pressed && left_pressed then
    found ← FindLayerByPosition (windows d) (layer_manager d) position (layer_id_ m);
    layer ← match found with
            | Some a => l ← of_option (layer_at (layers_ (layer_manager d)) a); mret (Some l)
            | None => mret None
            end;
    match layer with
    | Some l =>
        if draggable_ l then
          w ← window_of (windows d) l;
          let '(drag, close) :=
            match GetWindowRegion w (position -v pos_ l) with
            | kTitleBar => (id_ l, 0)
            | kCloseButton => (drag_layer_id_ m, id_ l)
            | _ => (drag_layer_id_ m, 0)
            end in
          d ← Activate d (id_ l);
          mret (drag, close, d)
        else d ← Activate d 0; mret (drag_layer_id_ m, 0, d)
    | None => d ← Activate d 0; mret (drag_layer_id_ m, 0, d)
    end
  else if previous_left_pressed && left_pressed then
    d ← (if 0 <? drag_layer_id_ m
         then move_in d (λ lm, lm_MoveRelative (windows d) lm (drag_layer_id_ m) posdiff)
         else mret d);
    mret (drag_layer_id_ m, 0, d)
  else if previous_left_pressed && negb left_pressed then mret (0, 0, d)
  else mret (drag_layer_id_ m, 0, d).

Definition OnInterrupt (screen_size : Vector2D) (m : Mouse) (d : Desktop) (buttons displacement_x displacement_y : Z)
    : outcome (Mouse * Desktop) :=
  let oldpos := position_ m in
  let '(newpos, position) := moved screen_size oldpos (mkVec displacement_x displacement_y) in
  let posdiff := position -v oldpos in
  d ← move_in d (λ lm, lm_Move (windows d) lm (layer_id_ m) position);
  '(drag, close_layer_id, d) ← left_button m d position posdiff buttons;
  d ← (if drag =? 0 then
         if close_layer_id =? 0 then SendMouseMessage d newpos posdiff buttons (previous_buttons_ m)
         else SendCloseMessage d
       else mret d);
  mret (mkMouse (layer_id_ m) position drag buttons, d).

(** [InitializeMouse]; [a_win] and [a_layer] are the addresses of the new window and
    layer. *)
Definition InitializeMouse (screen_format : PixelFormat) (d : Desktop) (a_win a_layer : Z) : outcome (Mouse * Desktop) :=
  mouse_window ← new_Window kMouseCursorWidth kMouseCursorHeight screen_format;
  let mouse_window := SetTransparentColor mouse_window (Some kMouseTransparentColor) in
  mouse_window ← DrawMouseCursor mouse_window (mkVec 0 0);
  let d := set_windows d (<[a_win := mouse_window]> (windows d)) in
  let '(a, lm) := NewLayer (layer_manager d) a_layer in
  let lm := update_layer lm a (λ l, SetWindow l (Some a_win)) in
  let mouse_layer_id := Layer.latest_id_ lm in
  '(m, d) ← SetPosition (new_Mouse mouse_layer_id) (set_lm d lm) (mkVec 200 200);
  let d := set_lm d (UpDown (layer_manager d) (layer_id_ m) (2 ^ 31 - 1)) in
  mret (m, SetMouseLayer d mouse_layer_id).
End mouse.

Module MouseFacts.

(** The cursor stays on the screen; the position that messages carry may lie left
    of it or above it. *)
Lemma moved_on_screen screen p v : 1 ≤ vx screen → 1 ≤ vy screen →
  0 ≤ vx (moved screen p v).2 < vx screen ∧ 0 ≤ vy (moved screen p v).2 < vy screen.
Proof. intros. unfold moved. simpl. lia. Qed.

Lemma moved_message screen p v : (moved screen p v).1 ≠ (moved screen p v).2 ↔
  vx (moved screen p v).1 < 0 ∨ vy (moved screen p v).1 < 0.
Proof.
  unfold moved. cbn [fst snd]. generalize (ElementMin (p +v v) (screen +v mkVec (-1) (-1))) as q.
  intros [qx qy]. unfold ElementMax. cbn [vx vy]. split.
  - intros Hne. destruct (decide (qx < 0)), (decide (qy < 0)); auto. exfalso. apply Hne. f_equal; lia.
  - intros Hneg He. injection He as Hx Hy. lia.
Qed.

Lemma OnInterrupt_position `{FontLib} screen m d buttons dx dy m' d' : 1 ≤ vx screen → 1 ≤ vy screen →
  OnInterrupt screen m d buttons dx dy = Done (m', d') →
  0 ≤ vx (position_ m') < vx screen ∧ 0 ≤ vy (position_ m') < vy screen ∧ previous_buttons_ m' = buttons.
Proof.
  intros Hx Hy E. unfold OnInterrupt in E. destruct (moved screen (position_ m) (mkVec dx dy)) as [np p] eqn:Em.
  pose proof (moved_on_screen screen (position_ m) (mkVec dx dy) Hx Hy) as [H1 H2]. rewrite Em in H1, H2.
  apply bind_Done_inv in E as (d1 & _ & E). apply bind_Done_inv in E as ([[drag cl] d2] & _ & E).
  apply bind_Done_inv in E as (d3 & _ & E). injection E as <- <-. simpl. auto.
Qed.
End MouseFacts.
