(* ===== verification/AppLoad.v ===== *)
(** Loading applications: the argument vector, the ELF loader and the table of
    loaded applications of src/kernel/terminal.cpp, with the structures of
    src/kernel/elf.hpp.  An executable is the list of its bytes; the loader writes
    to virtual addresses, through the page tables. *)
From S2P Require Import Prelude ErrorCode MemoryManager FrameAllocator Paging Task Fat FatFile.

(** [isspace] of the C locale *)
Definition isspace (c : Z) : bool := ((9 <=? c) && (c <=? 13)) || (c =? 32).

(** ** The argument vector *)

(** What [MakeArgVector] has written: the offsets in [argbuf] that the elements of
    [argv] point to, and the bytes of [argbuf]. *)
Record ArgVector : Set := mkArgs { argv : list Z; argbuf : list Z }.

(** [push_to_argv]; [argv_len] and [argbuf_len] are the sizes of the arrays, and
    [strcpy] behind the end of [argbuf] is undefined. *)
Definition push_to_argv (argv_len argbuf_len : Z) (a : ArgVector) (s : list Z) : outcome (Code * ArgVector) :=
  let argc := Z.of_nat (length (argv a)) in
  let argbuf_index := Z.of_nat (length (argbuf a)) in
  if (argv_len <=? argc) || (argbuf_len <=? argbuf_index) then mret (kFull, a)
  else
    let buf := argbuf a ++ s ++ [0] in
    if argbuf_len <? Z.of_nat (length buf) then Undef
    else mret (kSuccess, mkArgs (argv a ++ [argbuf_index]) buf).

(** One word of the line, and what follows its separator: [None] at the end. *)
Fixpoint next_arg (l : list Z) : list Z * option (list Z) :=
  match l with
  | [] => ([], None)
  | c :: l' => if isspace c then ([], Some l') else let '(w, r) := next_arg l' in (c :: w, r)
  end.

(** The loop over [first_arg]: a turn takes at least a character off the string. *)
Fixpoint arg_loop (fuel : nat) (argv_len argbuf_len : Z) (a : ArgVector) (p : list Z) : outcome (Code * ArgVector) :=
  match fuel with
  | O => NoFuel
  | S fuel' =>
      match p with
      | [] => mret (kSuccess, a)
      | _ =>
          let '(arg, next) := next_arg p in
          '(err, a) ← push_to_argv argv_len argbuf_len a arg;
          if error_bool err then mret (err, a)
          else
            match next with
            | None => mret (kSuccess, a)
            | Some p => arg_loop fuel' argv_len argbuf_len a p
            end
      end
  end.

(** [MakeArgVector]; the count [argc] is the length of [argv].  The zeros that it
    writes over the separators of the line are not read again. *)
Definition MakeArgVector (command : list Z) (first_arg : option (list Z)) (argv_len argbuf_len : Z)
    : outcome (Code * ArgVector) :=
  '(err, a) ← push_to_argv argv_len argbuf_len (mkArgs [] []) command;
  if error_bool err then mret (err, a)
  else
    match first_arg with
    | None => mret (kSuccess, a)
    | Some p => arg_loop (S (length p)) argv_len argbuf_len a p
    end.

(** ** ELF files *)

(** A little-endian number of [n] bytes at [off]; outside the file the access is
    undefined. *)
Fixpoint little_endian (l : list Z) : Z :=
  match l with [] => 0 | b :: l => b + 256 * little_endian l end.

Definition get (file : list Z) (off n : Z) : outcome Z :=
  if (0 <=? off) && (off + n <=? Z.of_nat (length file))
  then mret (little_endian (take (Z.to_nat n) (drop (Z.to_nat off) file))) else Undef.

(** The fields of [Elf64_Ehdr] that the loader reads. *)
Definition e_type (f : list Z) : outcome Z := get f 16 2.
Definition e_entry (f : list Z) : outcome Z := get f 24 8.
Definition e_phoff (f : list Z) : outcome Z := get f 32 8.
Definition e_phnum (f : list Z) : outcome Z := get f 56 2.
Definition ET_EXEC : Z := 2.
Definition PT_LOAD : Z := 1.

(** [Elf64_Phdr] *)
Record Elf64_Phdr : Set := mkPhdr {
  p_type : Z; p_flags : Z; p_offset : Z; p_vaddr : Z; p_paddr : Z; p_filesz : Z; p_memsz : Z; p_align : Z;
}.
Definition sizeof_Phdr : Z := 56.

(** [GetProgramHeader(ehdr)[i]] *)
Definition program_header (f : list Z) (i : Z) : outcome Elf64_Phdr :=
  phoff ← e_phoff f;
  let a := phoff + sizeof_Phdr * i in
  t ← get f a 4; fl ← get f (a + 4) 4; off ← get f (a + 8) 8; va ← get f (a + 16) 8; pa ← get f (a + 24) 8;
  fsz ← get f (a + 32) 8; msz ← get f (a + 40) 8; al ← get f (a + 48) 8;
  mret (mkPhdr t fl off va pa fsz msz al).

(** The loop of [GetFirstLoadAddress], [k] headers left from [i] on. *)
Fixpoint first_load (k : nat) (f : list Z) (i : Z) : outcome Z :=
  match k with
  | O => mret 0
  | S k' => p ← program_header f i; if negb (p_type p =? PT_LOAD) then first_load k' f (i + 1) else mret (p_vaddr p)
  end.

Definition GetFirstLoadAddress (f : list Z) : outcome Z := n ← e_phnum f; first_load (Z.to_nat n) f 0.

Section load.
Context {A : Type} `{FA : FrameAllocator A}.
Implicit Types s : pstate A.

(** A byte at a virtual address; the write protection of page entries does not
    bind the kernel (CR0.WP is clear), an unmapped address is undefined here. *)
Definition vload8 s (va : Z) : outcome Z :=
  pa ← of_option (translate (mem s) 4 (cr3 s) va);
  mret (field (rd s (pa / 8 * 8)) (8 * (pa mod 8)) 8).

Definition vstore8 s (va b : Z) : outcome (pstate A) :=
  pa ← of_option (translate (mem s) 4 (cr3 s) va);
  let w := pa / 8 * 8 in
  mret (wr s w (set_field (rd s w) (8 * (pa mod 8)) 8 b)).

(** [memcpy] of bytes to a virtual address. *)
Fixpoint vstore_bytes s (va : Z) (bytes : list Z) : outcome (pstate A) :=
  match bytes with
  | [] => mret s
  | b :: bytes => s ← vstore8 s va b; vstore_bytes s (va + 1) bytes
  end.

(** The body of the loop of [CopyLoadSegments] for one LOAD segment.  With
    [p_memsz < p_filesz] the count of [memset] wraps to nearly 2^64 bytes. *)
Definition copy_segment (f : list Z) (p : Elf64_Phdr) s : outcome (Code * pstate A) :=
  let num_4kpages := u64 (u64 (Z.land (p_vaddr p) 4095 + p_memsz p) + 4095) / 4096 in
  '(err, s) ← SetupPageMaps s (p_vaddr p) num_4kpages false;
  if error_bool err then mret (err, s)
  else if p_memsz p <? p_filesz p then Undef
  else
    _ ← (if p_offset p + p_filesz p <=? Z.of_nat (length f) then mret tt else Undef);
    s ← vstore_bytes s (p_vaddr p) (take (Z.to_nat (p_filesz p)) (drop (Z.to_nat (p_offset p)) f));
    s ← vstore_bytes s (p_vaddr p + p_filesz p) (replicate (Z.to_nat (p_memsz p - p_filesz p)) 0);
    mret (kSuccess, s).

(** The loop, [k] headers left; the result is [last_addr] and the error. *)
Fixpoint copy_segments (k : nat) (f : list Z) (i last_addr : Z) s : outcome (WithError Z * pstate A) :=
  match k with
  | O => mret (mkWithError last_addr kSuccess, s)
  | S k' =>
      p ← program_header f i;
      if negb (p_type p =? PT_LOAD) then copy_segments k' f (i + 1) last_addr s
      else
        let last_addr := Z.max last_addr (u64 (p_vaddr p + p_memsz p)) in
        '(err, s) ← copy_segment f p s;
        if error_bool err then mret (mkWithError last_addr err, s)
        else copy_segments k' f (i + 1) last_addr s
  end.

Definition CopyLoadSegments (f : list Z) s : outcome (WithError Z * pstate A) :=
  n ← e_phnum f; copy_segments (Z.to_nat n) f 0 0 s.

Definition LoadELF (f : list Z) s : outcome (WithError Z * pstate A) :=
  t ← e_type f;
  if negb (t =? ET_EXEC) then mret (mkWithError 0 kInvalidFormat, s)
  else
    addr_first ← GetFirstLoadAddress f;
    if addr_first <? 0xffff800000000000 then mret (mkWithError 0 kInvalidFormat, s)
    else CopyLoadSegments f s.

(** ** Page tables of a task *)

(** [current_task.Context().cr3 = cr3] *)
Definition set_ctx_cr3 (c : TaskContext) (x : Z) : TaskContext :=
  mkContext x (rip c) (rflags c) (reserved1 c) (cs c) (ss c) (fs c) (gs c) (rax c) (rbx c) (rcx c) (rdx c)
    (rdi c) (rsi c) (rsp c) (rbp c) (r8 c) (r9 c) (r10 c) (r11 c) (r12 c) (r13 c) (r14 c) (r15 c) (fxsave_area c).
Definition set_task_cr3 (t : Task) (x : Z) : Task := set_context t (set_ctx_cr3 (context_ t) x).

(** [memcpy(dst, src, 256 * sizeof(uint64_t))] between page tables *)
Definition copy_lower_half (m : gmap Z Z) (dst src : Z) : gmap Z Z :=
  foldr (λ i m', <[slot dst i := arr_read m (slot src i)]> m') m (seqZ 0 256).

Definition SetupPML4 s (t : Task) : outcome (WithError Z * pstate A * Task) :=
  '(pml4, s) ← NewPageMap s;
  if error_bool (error pml4) then mret (pml4, s, t)
  else
    let m := copy_lower_half (mem s) (value pml4) (cr3 s) in
    mret (pml4, mkPS (value pml4) m (frames s), set_task_cr3 t (value pml4)).

(** [FreePML4]; [pml4_table] is the kernel's own table. *)
Definition FreePML4 (pml4_table : Z) s (t : Task) : outcome (Code * pstate A * Task) :=
  let table := ctx_cr3 (context_ t) in
  let s := ResetCR3 pml4_table s in
  '(err, s) ← FreePageMap s table;
  mret (err, s, set_task_cr3 t 0).

(** ** Applications *)

(** [struct AppLoadInfo] *)
Record AppLoadInfo : Set := mkApp { app_vaddr_end : Z; app_entry : Z; app_pml4 : Z }.

(** [LoadApp]; [app_loads] is keyed by the place of the directory entry. *)
Definition LoadApp (v : Volume) (app_loads : gmap Z AppLoadInfo) (file_entry : Z) s (t : Task)
    : outcome (WithError AppLoadInfo * gmap Z AppLoadInfo * pstate A * Task) :=
  let none := mkApp 0 0 0 in
  '(pml4, s, t) ← SetupPML4 s t;
  if error_bool (error pml4) then mret (mkWithError none (error pml4), app_loads, s, t)
  else
    let temp_pml4 := value pml4 in
    match app_loads !! file_entry with
    | Some app_load =>
        '(err, s) ← CopyPageMaps 4 256 s temp_pml4 (app_pml4 app_load);
        mret (mkWithError (mkApp (app_vaddr_end app_load) (app_entry app_load) temp_pml4) err, app_loads, s, t)
    | None =>
        file_buf ← LoadFile v (file_size v file_entry) file_entry;
        let file_buf := file_buf ++ replicate (Z.to_nat (file_size v file_entry) - length file_buf) 0 in
        ident ← (if 4 <=? Z.of_nat (length file_buf) then mret (take 4 file_buf) else Undef);
        if negb (bool_decide (ident = 0x7f :: chars "ELF"))
        then mret (mkWithError none kInvalidFile, app_loads, s, t)
        else
          '(r, s) ← LoadELF file_buf s;
          if error_bool (error r) then mret (mkWithError none (error r), app_loads, s, t)
          else
            entry ← e_entry file_buf;
            let app_load := mkApp (value r) entry temp_pml4 in
            let app_loads := match app_loads !! file_entry with
                             | Some _ => app_loads
                             | None => <[file_entry := app_load]> app_loads
                             end in
            '(pml4, s, t) ← SetupPML4 s t;
            if error_bool (error pml4) then mret (mkWithError app_load (error pml4), app_loads, s, t)
            else
              '(err, s) ← CopyPageMaps 4 256 s (value pml4) temp_pml4;
              mret (mkWithError (mkApp (value r) entry (value pml4)) err, app_loads, s, t)
    end.
End load.

(** [FindCommand]: in the directory [dir_cluster], or with 0 in the root and then in
    [apps]; [fuel] counts the nested calls. *)
Fixpoint FindCommand (fuel : nat) (v : Volume) (command : list Z) (dir_cluster : Z) : outcome (option Z) :=
  match fuel with
  | O => NoFuel
  | S fuel' =>
      '(file, post_slash) ← FindFile v command dir_cluster;
      match file with
      | Some e => if (entry_attr v e =? kDirectory) || post_slash then mret None else mret (Some e)
      | None =>
          if negb (dir_cluster =? 0) || bool_decide (is_Some (split_first slash command)) then mret None
          else
            '(apps_entry, _) ← FindFile v (chars "apps") 0;
            match apps_entry with
            | None => mret None
            | Some e =>
                if negb (entry_attr v e =? kDirectory) then mret None
                else FindCommand fuel' v command (FirstCluster v e)
            end
      end
  end.

(** ** The argument vector against a reference *)
Module ArgFacts.

(** The fields of a line between single white spaces, and without a last one that
    is empty. *)
Fixpoint split_on (l : list Z) : list (list Z) :=
  match l with
  | [] => [[]]
  | c :: l' =>
      if isspace c then [] :: split_on l'
      else match split_on l' with w :: ws => (c :: w) :: ws | [] => [[c]] end
  end.

Definition drop_empty_last (ws : list (list Z)) : list (list Z) :=
  match last ws with Some [] => removelast ws | _ => ws end.

Definition fields (l : list Z) : list (list Z) := drop_empty_last (split_on l).

(** The strings that [argv] points to. *)
Definition argv_strings (a : ArgVector) : list (list Z) := (λ off, cstr (drop (Z.to_nat off) (argbuf a))) <$> argv a.

(** The vector that holds the strings [ss] one behind the other. *)
Definition flat (ss : list (list Z)) : list Z := ss ≫= (λ s, s ++ [0]).

Fixpoint offsets (ss : list (list Z)) (n : nat) : list Z :=
  match ss with
  | [] => []
  | s :: ss => Z.of_nat n :: offsets ss (n + length s + 1)
  end.

Definition pack (ss : list (list Z)) : ArgVector := mkArgs (offsets ss 0) (flat ss).

Lemma length_offsets ss : ∀ n, length (offsets ss n) = length ss.
Proof. induction ss as [|s ss IH]; intros n; simpl; auto. Qed.

Lemma flat_app ss ss' : flat (ss ++ ss') = flat ss ++ flat ss'.
Proof. apply bind_app. Qed.

Lemma offsets_app ss ss' : ∀ n, offsets (ss ++ ss') n = offsets ss n ++ offsets ss' (n + length (flat ss)).
Proof.
  induction ss as [|s ss IH]; intros n; simpl; [by rewrite Nat.add_0_r|]. rewrite IH. do 3 f_equal.
  rewrite length_app. cbn. rewrite !length_app. simpl. lia.
Qed.

Lemma cstr_zero s l : 0 ∉ s → cstr (s ++ 0 :: l) = s.
Proof.
  induction s as [|c s IH]; simpl; [done|]. intros [Hc Hs]%not_elem_of_cons.
  destruct (Z.eqb_spec c 0); [congruence|]. f_equal. auto.
Qed.

Lemma offsets_strings ss : ∀ pre, Forall (λ s, 0 ∉ s) ss →
  (λ off, cstr (drop (Z.to_nat off) (pre ++ flat ss))) <$> offsets ss (length pre) = ss.
Proof.
  induction ss as [|s ss IH]; intros pre Hss; [done|]. inversion Hss as [|? ? Hs Hss']; subst.
  cbn [offsets fmap list_fmap]. f_equal.
  - rewrite Nat2Z.id, drop_app_length. unfold flat. simpl. rewrite <- app_assoc. by apply cstr_zero.
  - specialize (IH (pre ++ s ++ [0]) Hss').
    replace (length pre + length s + 1)%nat with (length (pre ++ s ++ [0])) by (rewrite !length_app; simpl; lia).
    etransitivity; [|exact IH]. apply list_fmap_ext. intros i off _. do 2 f_equal.
    unfold flat. simpl. by rewrite <- !app_assoc.
Qed.

Lemma argv_strings_pack ss : Forall (λ s, 0 ∉ s) ss → argv_strings (pack ss) = ss.
Proof. exact (offsets_strings ss []). Qed.

Lemma push_pack n L ss s : Z.of_nat (length ss) < n → Z.of_nat (length (flat ss) + length s) < L →
  push_to_argv n L (pack ss) s = Done (kSuccess, pack (ss ++ [s])).
Proof.
  intros Hn HL. unfold push_to_argv, pack. cbn [argv argbuf]. rewrite length_offsets.
  destruct (Z.leb_spec n (Z.of_nat (length ss))); [lia|].
  destruct (Z.leb_spec L (Z.of_nat (length (flat ss)))); [lia|]. cbn [orb].
  destruct (Z.ltb_spec L (Z.of_nat (length (flat ss ++ s ++ [0])))) as [Hlt|_].
  { rewrite !length_app in Hlt. simpl in Hlt. lia. }
  rewrite offsets_app, flat_app. unfold flat at 4. simpl. by rewrite app_nil_r.
Qed.

Lemma push_full n L ss s : n ≤ Z.of_nat (length ss) → push_to_argv n L (pack ss) s = Done (kFull, pack ss).
Proof.
  intros Hn. unfold push_to_argv, pack. cbn [argv argbuf]. rewrite length_offsets.
  by destruct (Z.leb_spec n (Z.of_nat (length ss))); [|lia].
Qed.

Lemma split_on_cons l : ∃ w ws, split_on l = w :: ws.
Proof. destruct l as [|c l]; simpl; [by eexists _, _|]. destruct (isspace c); [by eexists _, _|]. destruct (split_on l); by eexists _, _. Qed.

Lemma next_arg_split l : match next_arg l with
  | (w, None) => l = w ∧ split_on l = [w]
  | (w, Some r) => (length l = length w + 1 + length r)%nat ∧ split_on l = w :: split_on r ∧ (∀ c, c ∈ r → c ∈ l) ∧ (∀ c, c ∈ w → c ∈ l)
  end.
Proof.
  induction l as [|c l IH]; [done|]. cbn [next_arg split_on]. destruct (isspace c).
  - split_and!; [done|done|set_solver|set_solver].
  - destruct (next_arg l) as [w [r|]].
    + destruct IH as (H1 & -> & H2 & H3). split_and!; [simpl; lia|done|set_solver|set_solver].
    + destruct IH as [-> ->]. done.
Qed.

Lemma fields_next l : l ≠ [] → fields l = let '(w, r) := next_arg l in w :: default [] (fields <$> r).
Proof.
  intros Hl. pose proof (next_arg_split l) as H. destruct (next_arg l) as [w [r|]]; unfold fields.
  - destruct H as (_ & -> & _). destruct (split_on_cons r) as (u & us & Hu). simpl. rewrite Hu.
    unfold drop_empty_last. change (last (w :: u :: us)) with (last (u :: us)). by destruct (last (u :: us)) as [[|]|].
  - destruct H as [-> ->]. unfold drop_empty_last. simpl. by destruct w.
Qed.

(** The loop pushes the fields until the array is full. *)
Lemma arg_loop_spec n L fuel : ∀ ss p, (length p < fuel)%nat → Z.of_nat (length ss) ≤ n →
  Z.of_nat (length (flat ss) + length p) < L →
  arg_loop fuel n L (pack ss) p =
    Done (if Z.of_nat (length (ss ++ fields p)) <=? n then kSuccess else kFull, pack (take (Z.to_nat n) (ss ++ fields p))).
Proof.
  induction fuel as [|fuel IH]; intros ss p Hfuel Hn HL; [lia|]. cbn [arg_loop].
  destruct p as [|c p']; [|set (p := c :: p') in *; assert (Hp : p ≠ []) by done; clearbody p].
  - change (fields []) with (@nil (list Z)). rewrite app_nil_r. destruct (Z.leb_spec (Z.of_nat (length ss)) n); [|lia].
    by rewrite take_ge by lia.
  - transitivity (let '(arg, next) := next_arg p in
      '(err, a) ← push_to_argv n L (pack ss) arg;
      if error_bool err then mret (err, a)
      else match next with None => mret (kSuccess, a) | Some p => arg_loop fuel n L a p end); [by destruct p|].
    rewrite (fields_next p Hp). pose proof (next_arg_split p) as Hsplit. destruct (next_arg p) as [w r].
    assert (Hw : (length w ≤ length p)%nat) by (destruct r; [lia|destruct Hsplit as [-> _]; lia]).
    destruct (decide (Z.of_nat (length ss) < n)) as [Hlt|Hge].
    + rewrite push_pack by lia. cbn [mbind outcome_bind error_bool negb bool_decide]. destruct r as [r|].
      * destruct Hsplit as (Hlen & _). change (error_bool kSuccess) with false. cbv iota.
        assert (Hfl : length (flat (ss ++ [w])) = (length (flat ss) + length w + 1)%nat).
        { rewrite flat_app, length_app. unfold flat at 2. simpl. rewrite app_nil_r, length_app. simpl. lia. }
        rewrite IH; [|lia|rewrite length_app; simpl; lia|rewrite Hfl; lia].
        rewrite <- app_assoc. done.
      * change (error_bool kSuccess) with false. cbv iota. simpl default. rewrite length_app. simpl.
        destruct (Z.leb_spec (Z.of_nat (length ss + 1)) n); [|lia]. rewrite take_ge; [done|]. rewrite length_app. simpl. lia.
    + rewrite push_full by lia. cbn [mbind outcome_bind]. change (error_bool kFull) with true. cbv iota.
      rewrite length_app. simpl. destruct (Z.leb_spec (Z.of_nat (length ss + S (length (default [] (fields <$> r))))) n); [lia|].
      by rewrite take_app_le, take_ge by lia.
Qed.

Lemma fields_chars l s c : s ∈ fields l → c ∈ s → c ∈ l.
Proof.
  assert (Hs : ∀ l s, s ∈ split_on l → c ∈ s → c ∈ l).
  { clear. induction l as [|x l IH]; intros s Hs Hc; cbn [split_on] in Hs.
    - apply list_elem_of_singleton in Hs as ->. done.
    - destruct (isspace x).
      + apply elem_of_cons in Hs as [->|Hs]; [by apply not_elem_of_nil in Hc|]. right. eauto.
      + destruct (split_on l) as [|w ws]; [apply list_elem_of_singleton in Hs as ->; apply list_elem_of_singleton in Hc as ->; constructor|].
        apply elem_of_cons in Hs as [->|Hs].
        * apply elem_of_cons in Hc as [->|Hc]; [constructor|]. right. apply (IH w); [constructor|done].
        * right. apply (IH s); [by right|done]. }
  intros Hin. apply Hs. unfold fields, drop_empty_last in Hin. destruct (last (split_on l)) as [[|]|] eqn:El; [|done..].
  clear -Hin. induction (split_on l) as [|w [|w' ws] IH]; [done|by apply not_elem_of_nil in Hin|].
  change (removelast (w :: w' :: ws)) with (w :: removelast (w' :: ws)) in Hin.
  apply elem_of_cons in Hin as [->|Hin]; [constructor|]. right. auto.
Qed.

(** The fields take no more room than the line and one zero. *)
Lemma length_flat_fields l : (length (flat (fields l)) ≤ length l + 1)%nat.
Proof.
  remember (length l) as n eqn:En. revert l En. induction (lt_wf n) as [n _ IH]. intros l ->.
  destruct l as [|c l']; [simpl; lia|]. set (l := c :: l') in *. assert (Hl : l ≠ []) by done. clearbody l.
  rewrite (fields_next l Hl). pose proof (next_arg_split l) as H. destruct (next_arg l) as [w r].
  change (w :: ?x) with ([w] ++ x). rewrite flat_app, length_app.
  assert (length (flat [w]) = (length w + 1)%nat) as -> by (unfold flat; simpl; rewrite app_nil_r, length_app; done).
  destruct r as [r|]; simpl.
  - destruct H as (Hlen & _). specialize (IH (length r) ltac:(lia) r eq_refl). lia.
  - destruct H as [-> _]. lia.
Qed.
End ArgFacts.

Import ArgFacts.

(** ** Properties *)


