(* ===== verification/LoadFacts.v ===== *)
(** What the loader of AppLoad.v builds: the bytes that a program finds at its
    addresses, and the theorem that [LoadApp] gives a task a read-only image of the
    executable file. *)
From S2P Require Import Prelude ErrorCode MemoryManager FrameAllocator Paging AddressSpace Task Fat FatFile AppLoad.
Import EntryFacts SetupFacts CopyFacts FaultFacts SpaceFacts.

(** The page tables of a loaded image: nothing in them is shared. *)
Abbreviation app_tables s root lev := (space false (λ _, False) s root lev).

(** ** Bytes at virtual addresses *)
Module ByteFacts.
Section bytes.
Context {A : Type} `{FA : FrameAllocator A} {FL : FrameAllocatorLaws A}.
Implicit Types (s : pstate A) (lev : ghost).

(** The physical address behind [va]. *)
Lemma translate_own s lev va : app_tables s (cr3 s) lev → upper va →
  translate (mem s) 4 (cr3 s) va = (λ e, Pointer e + va mod 4096) <$> walk s 4 (cr3 s) va.
Proof. intros Hat Hva. rewrite translate_walk; [done|lia|]. by eapply root_small. Qed.

Definition byte_at s (pa : Z) : Z := field (rd s (pa / 8 * 8)) (8 * (pa mod 8)) 8.

Lemma vload8_walk s lev va c : app_tables s (cr3 s) lev → upper va → vload8 s va = Done c ↔
  ∃ e, walk s 4 (cr3 s) va = Some e ∧ c = byte_at s (Pointer e + va mod 4096).
Proof.
  intros Hat Hva. unfold vload8. rewrite (translate_own _ _ _ Hat Hva). destruct (walk _ _ _ _) as [e|]; simpl.
  - split; [intros [= <-]; by exists e|]. intros (e' & [= <-] & ->). done.
  - split; [done|]. by intros (? & ? & _).
Qed.

(** The page of a mapped address is one of the application's, recorded for it. *)
Lemma walk_page s lev va e : app_tables s (cr3 s) lev → upper va → walk s 4 (cr3 s) va = Some e →
  lev !! (Pointer e / 4096) = Some (0%nat, va / 4096).
Proof.
  intros Hat Hva (g & Hg & -> & Hp)%(walk_root _ _ _ _ _ Hat va _ Hva).
  destruct (sp_down _ _ _ _ _ Hat _ _ _ _ Hg Hp) as [[-> _]|(_ & ? & _)]; [|done].
  do 2 f_equal. pose proof (part_down 0 va ltac:(lia)) as Hd. change (512 ^ Z.of_nat 1) with 512 in Hd.
  rewrite Hd. apply Z.div_1_r.
Qed.

Lemma in_page e x y : x = Pointer e + y mod 4096 → x / 4096 = Pointer e / 4096 ∧ x / 8 * 8 / 4096 = Pointer e / 4096.
Proof. pose proof (Pointer_aligned e). intros ->. dlia. Qed.

(** Mappings that stay and pages that stay are bytes that stay. *)
Lemma vload8_keeps s lev s' lev' va c : app_tables s (cr3 s) lev → app_tables s' (cr3 s') lev' → lev ⊆ lev' →
  keeps s lev s' → (∀ a v, lev !! (a / 4096) = Some (0%nat, v) → rd s' a = rd s a) →
  upper va → vload8 s va = Done c → vload8 s' va = Done c.
Proof.
  intros Hat Hat' Hsub Hk Hrd Hva (e & Hw & ->)%(vload8_walk _ _ _ _ Hat Hva).
  pose proof (walk_page _ _ _ _ Hat Hva Hw) as Hpage.
  apply (walk_root _ _ _ _ _ Hat va _ Hva) in Hw as (g & Hg & -> & Hp). destruct (Hk _ _ _ _ Hg Hp) as [Hp' Hq'].
  apply (vload8_walk _ _ _ _ Hat' Hva). exists (entry s' g (Part 1 va)). split.
  - apply (walk_root _ _ _ _ _ Hat' va _ Hva). exists g. split; [|done]. by eapply own_entry_sub.
  - rewrite Hq'. unfold byte_at. destruct (in_page (entry s g (Part 1 va)) _ va eq_refl) as [_ Hpw].
    symmetry. f_equal. eapply Hrd. by rewrite Hpw.
Qed.

(** What writing bytes leaves alone: the tables and every frame but the pages. *)
Record wrote s lev s' : Prop := {
  wr_tables : app_tables s' (cr3 s') lev;
  wr_cr3 : cr3 s' = cr3 s;
  wr_frames : frames s' = frames s;
  wr_other : ∀ a, (∀ v, lev !! (a / 4096) ≠ Some (0%nat, v)) → rd s' a = rd s a;
}.

Lemma wrote_keeps s lev s' : wrote s lev s' → keeps s lev s'.
Proof.
  intros W f l q i Ho Hp. pose proof (own_entry_bound _ _ _ _ _ Ho) as Hi. destruct Ho as [Hf _].
  unfold entry. rewrite (wr_other _ _ _ W); [done|]. intros v. rewrite slot_page by done. congruence.
Qed.

(** A byte is stored at its address and nowhere else. *)
Lemma vstore8_spec s lev va b c : app_tables s (cr3 s) lev → upper va → vload8 s va = Done c → 0 ≤ b < 256 →
  ∃ s', vstore8 s va b = Done s' ∧ wrote s lev s' ∧
    (∀ va' d, upper va' → vload8 s va' = Done d → vload8 s' va' = Done (if decide (va' = va) then b else d)).
Proof.
  intros Hat Hva Hl Hb. apply (vload8_walk _ _ _ _ Hat Hva) in Hl as (e & Hw & _).
  unfold vstore8. rewrite (translate_own _ _ _ Hat Hva), Hw. cbn [fmap option_fmap option_map of_option mbind outcome_bind].
  set (pa := Pointer e + va mod 4096). set (w := pa / 8 * 8). set (x := set_field _ _ _ _).
  pose proof (walk_page _ _ _ _ Hat Hva Hw) as Hpage. destruct (in_page e pa va eq_refl) as [Hpa Hpw]. fold w in Hpw.
  assert (Hrd : ∀ a, (∀ v, lev !! (a / 4096) ≠ Some (0%nat, v)) → rd (wr s w x) a = rd s a).
  { intros a Ha. rewrite rd_wr, decide_False; [done|]. intros <-. rewrite Hpw in Ha. by destruct (Ha (va / 4096)). }
  assert (W : wrote s lev (wr s w x)).
  { split; [|done..]. apply (space_agree _ _ s); [apply (sp_alloc _ _ _ _ _ Hat)|by intros f| |done].
    intros f l q a Hf <-. apply Hrd. intros v. congruence. }
  exists (wr s w x). split; [done|]. split; [done|]. pose proof (wr_tables _ _ _ W) as Hat'.
  intros va' d Hva' Hl'. apply (vload8_walk _ _ _ _ Hat Hva') in Hl' as (e' & Hw' & ->).
  pose proof (walk_page _ _ _ _ Hat Hva' Hw') as Hpage'.
  apply (walk_root _ _ _ _ _ Hat _ _ Hva') in Hw' as (g & Hg & He' & Hp).
  assert (Hsame : entry (wr s w x) g (Part 1 va') = e').
  { pose proof (own_entry_bound _ _ _ _ _ Hg) as Hi. destruct Hg as [Hg _].
    rewrite He'. unfold entry. apply Hrd. intros v. rewrite slot_page by done. congruence. }
  apply (vload8_walk _ _ _ _ Hat' Hva'). exists e'. split.
  { apply (walk_root _ _ _ _ _ Hat' _ _ Hva'). exists g. rewrite Hsame. by subst e'. }
  set (pa' := Pointer e' + va' mod 4096). unfold byte_at. rewrite rd_wr.
  pose proof (Pointer_aligned e) as Hal. pose proof (Pointer_aligned e') as Hal'. clear He' Hsame Hp Hat'.
  destruct (in_page e' pa' va' eq_refl) as [Hpa' _]. case_decide as Heq.
  - subst va'. assert (Pointer e' / 4096 = Pointer e / 4096) as Hee by (eapply (sp_inj _ _ _ _ _ Hat); eassumption).
    assert (pa' = pa) as -> by (unfold pa, pa'; clear -Hal Hal' Hee; dlia). rewrite decide_True by done.
    unfold x. rewrite field_set_same by dlia. by rewrite wrap_small by lia.
  - case_decide as Hword; [|done]. unfold x. rewrite <- Hword. fold w. rewrite field_set_other; [done|dlia..|].
    assert (Hne : pa' ≠ pa).
    { intros Hpp. apply Heq. rewrite <- Hpa in Hpage. rewrite <- Hpa', Hpp, Hpage in Hpage'. injection Hpage' as Hvv.
      assert (Hee : Pointer e / 4096 = Pointer e' / 4096) by congruence.
      unfold pa, pa' in Hpp. clear -Hvv Hpp Hee Hal Hal'. dlia. }
    unfold w in Hword. clear -Hne Hword. dlia.
Qed.

Lemma vstore_bytes_spec bytes : ∀ s lev va, app_tables s (cr3 s) lev → Forall (λ b, 0 ≤ b < 256) bytes →
  (∀ k, 0 ≤ k < Z.of_nat (length bytes) → upper (va + k) ∧ ∃ c, vload8 s (va + k) = Done c) →
  ∃ s', vstore_bytes s va bytes = Done s' ∧ wrote s lev s' ∧
    ∀ va' d, upper va' → vload8 s va' = Done d →
      vload8 s' va' = Done (if decide (va ≤ va' < va + Z.of_nat (length bytes))
                            then bytes !!! Z.to_nat (va' - va) else d).
Proof.
  induction bytes as [|b bytes IH]; intros s lev va Hat Hb Hm.
  { exists s. split; [done|]. split; [by split|]. intros va' d _ Hd. rewrite decide_False by (simpl; lia). done. }
  apply Forall_cons in Hb as [Hb Hbs]. cbn [vstore_bytes length] in *.
  destruct (Hm 0 ltac:(lia)) as [Hva (c & Hc)]. rewrite Z.add_0_r in Hva, Hc.
  destruct (vstore8_spec s lev va b c Hat Hva Hc Hb) as (s1 & -> & [Hat1 Hcr1 Hf1 Ho1] & Hl1).
  cbn [mbind outcome_bind]. destruct (IH s1 lev (va + 1)) as (s2 & -> & [Hat2 Hcr2 Hf2 Ho2] & Hl2); [done..| |].
  { intros k Hk. destruct (Hm (k + 1) ltac:(lia)) as [Hu (d & Hd)]. replace (va + (k + 1)) with (va + 1 + k) in * by lia.
    split; [done|]. eexists. by apply Hl1. }
  exists s2. split; [done|]. split; [split; [done|congruence..|]|].
  { intros a Ha. by rewrite Ho2, Ho1. }
  intros va' d Hu Hd. rewrite (Hl2 va' _ Hu (Hl1 va' d Hu Hd)). f_equal.
  destruct (decide (va' = va)) as [->|Hne].
  - rewrite decide_False, decide_True by lia. by rewrite Z.sub_diag.
  - destruct (decide (va + 1 ≤ va' < _)) as [Hin|Hout].
    + rewrite decide_True by lia. by replace (Z.to_nat (va' - va)) with (S (Z.to_nat (va' - (va + 1)))) by lia.
    + by rewrite decide_False by lia.
Qed.

Lemma accessible_walk w s l p va : (1 ≤ l)%nat → accessible w s l p va → is_Some (walk s l p va).
Proof.
  revert p. induction l as [|l IH]; intros p Hl; [lia|]. cbn [accessible walk]. intros (-> & _ & _ & Ha).
  destruct l as [|l]; [by eexists|]. apply IH; [lia|done].
Qed.

(** New mappings for a range, and the bytes that were there before. *)
Lemma SetupPageMaps_bytes s lev addr n w : app_tables s (cr3 s) lev → upper addr → 0 ≤ n →
  ∃ err s' lev', SetupPageMaps s addr n w = Done (err, s') ∧ (err = kSuccess ∨ err = kNoEnoughMemory) ∧
    app_tables s' (cr3 s') lev' ∧ grown s lev s' lev' ∧
    (∀ va d, upper va → vload8 s va = Done d → vload8 s' va = Done d) ∧
    (err = kSuccess → ∀ va, upper va → addr / 4096 ≤ va / 4096 < addr / 4096 + n → ∃ d, vload8 s' va = Done d).
Proof.
  intros Hat Hu Hn. pose proof (upper_part addr 4 Hu ltac:(lia)) as [Hlow _].
  assert (Ha0 : 0 ≤ addr) by (unfold upper in Hu; lia).
  destruct (sp_root _ _ _ _ _ Hat) as [Hr1 Hr2]. assert (Hroot : cr3 s = 4096 * (cr3 s / 4096)) by dlia.
  destruct (SetupPageMap_correct (λ _, False) w 4 ltac:(lia) s (cr3 s) 256 addr n) as (r & s' & E & _ & Hext & Hr);
    [split; [apply (sp_alloc _ _ _ _ _ Hat)|done]|apply (space_tree _ _ _ _ _ lev Hat); tauto|split; [lia|exact Hlow]|lia|lia|].
  assert (E' := E). rewrite Hroot in E'.
  destruct (SetupPageMap_builds false (λ _, False) 4 w ltac:(lia) ltac:(done) s (cr3 s) lev (cr3 s / 4096) addr n r s' Hat Ha0)
    as (lev' & [Hat' Hg Hk _] & _); [|done|done|done|].
  { rewrite Hr2. do 2 f_equal. symmetry. by apply upper_high. }
  pose proof (gr_cr3 _ _ _ _ Hg) as Hcr. rewrite <- Hcr in Hat'.
  exists (error r), s', lev'. unfold SetupPageMaps. rewrite E. split; [done|].
  split; [destruct Hr as [(-> & _)| ->]; tauto|]. split; [done|]. split; [done|]. split.
  - intros va d Hva Hd. apply (vload8_keeps s lev s' lev'); [done|done|apply Hg|done| |done|done].
    intros a v Ha. apply (gr_frame _ _ _ _ Hg); [by eapply (sp_used _ _ _ _ _ Hat)|].
    intros (f & l & q & i & Ho & ->). pose proof (own_entry_bound _ _ _ _ _ Ho). rewrite slot_page in Ha by done.
    destruct Ho as [Ho _]. congruence.
  - intros Her va Hva Hin. destruct Hr as [(_ & _ & Hreach)|Hr]; [|congruence].
    assert (Hacc : accessible w s' 4 (cr3 s) va).
    { apply reach_accessible; [lia|]. apply Hreach; [lia|]. change (512 ^ Z.of_nat 4) with (512 ^ 4). by rewrite !upper_high. }
    apply accessible_walk in Hacc as [e Hw]; [|lia]. eexists. apply (vload8_walk _ _ _ _ Hat' Hva).
    exists e. by rewrite Hcr.
Qed.
End bytes.
End ByteFacts.
Import ByteFacts.

(** ** The image of an executable file *)

(** The headers of type LOAD, as the loops of [GetFirstLoadAddress] and
    [CopyLoadSegments] see them. *)
Fixpoint load_headers (k : nat) (f : list Z) (i : Z) : outcome (list Elf64_Phdr) :=
  match k with
  | O => Done []
  | S k' =>
      p ← program_header f i; ps ← load_headers k' f (i + 1);
      Done (if p_type p =? PT_LOAD then p :: ps else ps)
  end.

Definition segments (f : list Z) : outcome (list Elf64_Phdr) := n ← e_phnum f; load_headers (Z.to_nat n) f 0.

(** A segment lies in the upper half and its bytes in the file. *)
Definition segment_ok (f : list Z) (p : Elf64_Phdr) : Prop :=
  0xffff800000000000 ≤ p_vaddr p ∧ p_vaddr p + p_memsz p < 2 ^ 64 ∧
  (0 ≤ p_filesz p ∧ p_filesz p ≤ p_memsz p) ∧ 0 ≤ p_offset p ∧ p_offset p + p_filesz p ≤ Z.of_nat (length f).

Definition segment_end (p : Elf64_Phdr) : Z := p_vaddr p + p_memsz p.

Definition apart (p q : Elf64_Phdr) : Prop := segment_end p ≤ p_vaddr q ∨ segment_end q ≤ p_vaddr p.

(** An executable file with segments [ps], at least one, that do not overlap. *)
Record executable (f : list Z) (ps : list Elf64_Phdr) : Prop := {
  ex_type : e_type f = Done ET_EXEC;
  ex_segments : segments f = Done ps;
  ex_some : ps ≠ [];
  ex_ok : Forall (segment_ok f) ps;
  ex_apart : ForallOrdPairs apart ps;
  ex_bytes : Forall (λ b, 0 ≤ b < 256) f;
}.

(** Byte [k] of a segment in memory: from the file, or zero behind its bytes. *)
Definition segment_byte (f : list Z) (p : Elf64_Phdr) (k : Z) : Z :=
  if k <? p_filesz p then f !!! Z.to_nat (p_offset p + k) else 0.

(** The end of the image, [last_addr]. *)
Definition image_end (ps : list Elf64_Phdr) : Z := foldl (λ m p, Z.max m (segment_end p)) 0 ps.

Module ImageFacts.
Section image.
Context {A : Type} `{FA : FrameAllocator A} {FL : FrameAllocatorLaws A}.
Implicit Types (s : pstate A) (lev : ghost).

(** The image of [f] at the addresses of its segments. *)
Definition image s (f : list Z) (ps : list Elf64_Phdr) : Prop :=
  ∀ p k, p ∈ ps → 0 ≤ k < p_memsz p → vload8 s (p_vaddr p + k) = Done (segment_byte f p k).

(** Loading changes no used frame but those of the application, and not the
    kernel's half of its root. *)
Record loading s lev s' lev' : Prop := {
  lo_tables : app_tables s' (cr3 s') lev';
  lo_sub : lev ⊆ lev';
  lo_cr3 : cr3 s' = cr3 s;
  lo_used : ∀ f, used s' f = true ↔ used s f = true ∨ is_Some (lev' !! f);
  lo_new : ∀ f x, lev' !! f = Some x → lev !! f = None → used s f = false;
  lo_frame : ∀ a, used s (a / 4096) = true →
    lev !! (a / 4096) = None ∨ (∃ i, 0 ≤ i < 256 ∧ a = slot (cr3 s) i) → rd s' a = rd s a;
}.

Lemma loading_mono s lev s' lev' : loading s lev s' lev' → mono s s'.
Proof. intros L f Hf. apply (lo_used _ _ _ _ L). by left. Qed.

Lemma own_used s lev f : app_tables s (cr3 s) lev → used s f = true ↔ used s f = true ∨ is_Some (lev !! f).
Proof. intros Hat. split; [by left|]. intros [?|[x Hx]]; [done|]. by eapply (sp_used _ _ _ _ _ Hat). Qed.

Lemma loading_refl s lev : app_tables s (cr3 s) lev → loading s lev s lev.
Proof. intros Hat. split; [done|done|done|intros f; by apply own_used|intros f l H1 H2; congruence|done]. Qed.

Lemma loading_trans s1 l1 s2 l2 s3 l3 : loading s1 l1 s2 l2 → loading s2 l2 s3 l3 → loading s1 l1 s3 l3.
Proof.
  intros G1 G2. split.
  - apply G2.
  - etransitivity; [apply G1|apply G2].
  - by rewrite (lo_cr3 _ _ _ _ G2), (lo_cr3 _ _ _ _ G1).
  - intros f. rewrite (lo_used _ _ _ _ G2), (lo_used _ _ _ _ G1). split; [|tauto].
    intros [[?|[x Hx]]|?]; [tauto| |tauto]. right. exists x. by eapply lookup_weaken; [|apply G2].
  - intros f l Hl Hn. destruct (l2 !! f) as [l0|] eqn:E; [by apply (lo_new _ _ _ _ G1 f l0)|].
    pose proof (lo_new _ _ _ _ G2 f l Hl E) as Hu. destruct (used s1 f) eqn:Hu1; [|done].
    apply (loading_mono _ _ _ _ G1) in Hu1. congruence.
  - intros a Hu Ha. rewrite (lo_frame _ _ _ _ G2); [by apply (lo_frame _ _ _ _ G1)|by apply (loading_mono _ _ _ _ G1)|].
    rewrite (lo_cr3 _ _ _ _ G1). destruct Ha as [Ha|Ha]; [left|by right].
    destruct (l2 !! (a / 4096)) as [l|] eqn:E; [|done]. rewrite (lo_new _ _ _ _ G1 _ l E Ha) in Hu. done.
Qed.

Lemma grown_loading s lev s' lev' : app_tables s (cr3 s) lev → app_tables s' (cr3 s') lev' →
  grown s lev s' lev' → loading s lev s' lev'.
Proof.
  intros Hat Hat' G. split; [done|apply G|apply G|apply G|apply G|].
  intros a Hu Ha. apply (gr_frame _ _ _ _ G); [done|].
  intros (f & l & q & i & Ho & ->). pose proof (own_entry_bound _ _ _ _ _ Ho) as Hi. rewrite slot_page in Ha by done.
  destruct Ho as [Hl Hlow]. destruct Ha as [Ha|(j & Hj & Heq)]; [congruence|].
  destruct (sp_root _ _ _ _ _ Hat) as [H1 H2]. replace (cr3 s) with (4096 * (cr3 s / 4096)) in Heq by dlia.
  apply slot_frame_inj in Heq as [-> ->]; [|lia..]. rewrite H2 in Hl. injection Hl as <- _.
  unfold lowest in Hlow. simpl in Hlow. lia.
Qed.

Lemma wrote_loading s lev s' : app_tables s (cr3 s) lev → wrote s lev s' → loading s lev s' lev.
Proof.
  intros Hat [Hat' Hcr Hf Ho]. destruct (sp_root _ _ _ _ _ Hat) as [H1 H2].
  split; [done|done|done|intros f; unfold used; rewrite Hf; by apply own_used|intros f x E1 E2; congruence|].
  intros a _ [Ha|(i & Hi & ->)]; apply Ho; intros v; [congruence|]. rewrite dest_slot by lia. congruence.
Qed.

(** One segment: its bytes are there, those outside it stay. *)
Lemma copy_segment_spec f p s lev : app_tables s (cr3 s) lev → segment_ok f p → Forall (λ b, 0 ≤ b < 256) f →
  ∃ err s' lev', copy_segment f p s = Done (err, s') ∧ (err = kSuccess ∨ err = kNoEnoughMemory) ∧
    loading s lev s' lev' ∧
    (∀ va d, upper va → vload8 s va = Done d → ¬ p_vaddr p ≤ va < segment_end p → vload8 s' va = Done d) ∧
    (err = kSuccess → image s' f [p]).
Proof.
  intros Hat (Hlo & Hhi & (Hf0 & Hfm) & Ho0 & Hof) Hbytes. unfold copy_segment, segment_end. cbv zeta.
  set (va := p_vaddr p) in *. set (m := p_memsz p) in *. set (z := p_filesz p) in *.
  assert (Hn : u64 (u64 (Z.land va 4095 + m) + 4095) / 4096 = (va mod 4096 + m + 4095) / 4096).
  { change 4095 with (Z.ones 12) at 1. rewrite Z.land_ones by lia. change (2 ^ 12) with 4096.
    pose proof (Z.mod_pos_bound va 4096 ltac:(lia)). rewrite (wrap_small 64 (va mod 4096 + m)) by lia. by rewrite wrap_small by lia. }
  rewrite Hn. clear Hn. set (n := (va mod 4096 + m + 4095) / 4096).
  assert (Hup : ∀ k, 0 ≤ k < m → upper (va + k)) by (unfold upper; lia).
  assert (Hu0 : upper va) by (unfold upper; lia).
  destruct (SetupPageMaps_bytes s lev va n false Hat Hu0 ltac:(unfold n; dlia)) as (err & s1 & lev1 & -> & Herr & Hat1 & Hg & Hk & Hr).
  pose proof (grown_loading _ _ _ _ Hat Hat1 Hg) as L1. cbn [mbind outcome_bind].
  destruct Herr as [-> | ->];
    [change (error_bool kSuccess) with false|change (error_bool kNoEnoughMemory) with true]; cbv iota.
  2: { exists kNoEnoughMemory, s1, lev1. split_and!; [done|tauto|done| |done]. intros v d Hv Hd _. by apply Hk. }
  specialize (Hr eq_refl).
  assert (Hmap : ∀ k, 0 ≤ k < m → upper (va + k) ∧ ∃ c, vload8 s1 (va + k) = Done c).
  { intros k Hkm. split; [by apply Hup|]. apply Hr; [by apply Hup|]. unfold n. dlia. }
  destruct (Z.ltb_spec m z); [lia|]. destruct (Z.leb_spec (p_offset p + z) (Z.of_nat (length f))); [|lia].
  cbn [mbind outcome_bind mret outcome_ret]. set (bs := take _ _). set (zs := replicate _ 0).
  assert (Hlb : Z.of_nat (length bs) = z).
  { unfold bs. rewrite length_take, length_drop. lia. }
  assert (Hlz : Z.of_nat (length zs) = m - z) by (unfold zs; rewrite length_replicate; lia).
  destruct (vstore_bytes_spec bs s1 lev1 va Hat1) as (s2 & -> & W2 & Hl2).
  { by apply Forall_take, Forall_drop. }
  { intros k Hkz. apply Hmap. lia. }
  pose proof (wr_tables _ _ _ W2) as Hat2. cbn [mbind outcome_bind].
  destruct (vstore_bytes_spec zs s2 lev1 (va + z) Hat2) as (s3 & -> & W3 & Hl3).
  { apply Forall_replicate. lia. }
  { intros k Hkz. destruct (Hmap (z + k) ltac:(lia)) as [Hu (c & Hc)]. replace (va + (z + k)) with (va + z + k) in * by lia.
    split; [done|]. eexists. by apply Hl2. }
  cbn [mbind outcome_bind]. exists kSuccess, s3, lev1. split; [done|]. split; [by left|]. split; [|split].
  - apply loading_trans with s1 lev1; [done|]. apply loading_trans with s2 lev1; by apply wrote_loading.
  - intros v d Hv Hd Hout. rewrite (Hl3 v _ Hv (Hl2 v _ Hv (Hk v d Hv Hd))). by rewrite !decide_False by lia.
  - intros _ q k ->%list_elem_of_singleton Hkm. fold va m in Hkm |- *. destruct (Hmap k Hkm) as [Hv (c & Hc)].
    rewrite (Hl3 _ _ Hv (Hl2 _ _ Hv Hc)). f_equal. unfold segment_byte. fold z. destruct (Z.ltb_spec k z).
    + rewrite decide_False, decide_True by lia. unfold bs. replace (va + k - va) with k by lia.
      rewrite list_lookup_total_alt, lookup_take_lt, lookup_drop, list_lookup_total_alt by lia. do 2 f_equal. lia.
    + rewrite decide_True by lia. unfold zs. by rewrite list_lookup_total_alt, lookup_replicate_2 by lia.
Qed.

(** The loop over the headers: the segments, which do not overlap. *)
Lemma copy_segments_spec f k : Forall (λ b, 0 ≤ b < 256) f → ∀ i last s lev ps, app_tables s (cr3 s) lev →
  load_headers k f i = Done ps → Forall (segment_ok f) ps → ForallOrdPairs apart ps →
  ∃ r s' lev', copy_segments k f i last s = Done (r, s') ∧ (error r = kSuccess ∨ error r = kNoEnoughMemory) ∧
    loading s lev s' lev' ∧
    (∀ va d, upper va → vload8 s va = Done d → Forall (λ p, ¬ p_vaddr p ≤ va < segment_end p) ps → vload8 s' va = Done d) ∧
    (error r = kSuccess → value r = foldl (λ m p, Z.max m (segment_end p)) last ps ∧ image s' f ps).
Proof.
  intros Hbytes. induction k as [|k IH]; intros i last s lev ps Hat; cbn [load_headers copy_segments].
  { intros [= <-] _ _. exists (mkWithError last kSuccess), s, lev. split_and!; [done|by left|by apply loading_refl|done|].
    intros _. split; [done|]. by intros p ? ?%not_elem_of_nil. }
  intros E. apply bind_Done_inv in E as (p & -> & E). apply bind_Done_inv in E as (qs & Eq & E).
  injection E as <-. cbn [mbind outcome_bind]. destruct (p_type p =? PT_LOAD); cbn [negb]; [|by apply IH].
  intros [Hp Hqs]%Forall_cons Hap. inversion Hap as [|? ? Hpq Hapq]; subst.
  destruct (copy_segment_spec f p s lev Hat Hp Hbytes) as (err & s1 & lev1 & -> & Herr & L1 & Hk1 & Hi1).
  cbn [mbind outcome_bind]. pose proof Hp as (Hlo & Hhi & _).
  rewrite (wrap_small 64 (p_vaddr p + p_memsz p)) by (destruct Hp as (? & ? & ? & ?); lia). fold (segment_end p).
  destruct Herr as [-> | ->];
    [change (error_bool kSuccess) with false|change (error_bool kNoEnoughMemory) with true]; cbv iota.
  2: { eexists _, s1, lev1. split; [reflexivity|]. split_and!; [by right|done| |done].
       intros va d Hva Hd [Hout _]%Forall_cons. by apply Hk1. }
  destruct (IH (i + 1) (Z.max last (segment_end p)) s1 lev1 qs (lo_tables _ _ _ _ L1) Eq Hqs Hapq)
    as (r & s2 & lev2 & -> & Herr & L2 & Hk2 & Hi2).
  exists r, s2, lev2. split; [done|]. split; [done|]. split; [by apply loading_trans with s1 lev1|]. split.
  - intros va d Hva Hd [Hout Houts]%Forall_cons. apply Hk2; [done| |done]. by apply Hk1.
  - intros Her. destruct (Hi2 Her) as [-> Him]. split; [done|].
    intros q j [->|Hq]%elem_of_cons Hj; [|by apply Him].
    assert (Hup : upper (p_vaddr p + j)) by (unfold upper; lia).
    apply Hk2; [done|apply (Hi1 eq_refl); [by apply list_elem_of_singleton|done]|].
    eapply Forall_impl; [exact Hpq|]. intros q' Hq'. unfold apart, segment_end in *. lia.
Qed.

Lemma first_load_headers f k : ∀ i ps, load_headers k f i = Done ps →
  first_load k f i = Done (match ps with [] => 0 | p :: _ => p_vaddr p end).
Proof.
  induction k as [|k IH]; intros i ps; cbn [load_headers first_load]; [by intros [= <-]|].
  intros E. apply bind_Done_inv in E as (p & -> & E). apply bind_Done_inv in E as (qs & Eq & E). injection E as <-.
  cbn [mbind outcome_bind]. destruct (p_type p =? PT_LOAD); [done|]. by apply IH.
Qed.

Lemma LoadELF_spec f ps s lev : app_tables s (cr3 s) lev → executable f ps →
  ∃ r s' lev', LoadELF f s = Done (r, s') ∧ (error r = kSuccess ∨ error r = kNoEnoughMemory) ∧
    loading s lev s' lev' ∧ (error r = kSuccess → value r = image_end ps ∧ image s' f ps).
Proof.
  intros Hat [Ht Hs Hne Hok Hap Hb]. unfold LoadELF. rewrite Ht. cbn [mbind outcome_bind].
  change (ET_EXEC =? ET_EXEC) with true. cbn [negb]. unfold segments in Hs. apply bind_Done_inv in Hs as (n & En & Hs).
  unfold GetFirstLoadAddress, CopyLoadSegments. rewrite En. cbn [mbind outcome_bind].
  rewrite (first_load_headers _ _ _ _ Hs). destruct ps as [|p ps]; [done|]. cbn [mbind outcome_bind].
  pose proof Hok as [(Hlo & _) _]%Forall_cons. destruct (Z.ltb_spec (p_vaddr p) 0xffff800000000000); [lia|].
  destruct (copy_segments_spec f _ Hb 0 0 s lev (p :: ps) Hat Hs Hok Hap) as (r & s' & lev' & E & Her & L & _ & Hi).
  exists r, s', lev'. done.
Qed.

(** Bytes stay where the words of the application's frames stay. *)
Lemma vload8_agree s s' lev va c : app_tables s (cr3 s) lev → alloc_ok (frames s') → mono s s' → cr3 s' = cr3 s →
  (∀ a, is_Some (lev !! (a / 4096)) → rd s' a = rd s a) → upper va → vload8 s va = Done c → vload8 s' va = Done c.
Proof.
  intros Hat Hok Hm Hcr Ha Hva. apply (vload8_keeps s lev s' lev); [done| |done| | |done].
  - rewrite Hcr. apply (space_agree _ _ s); [done|done| |done]. intros f l q a Hf <-. apply Ha. by eexists.
  - intros f l q i Ho Hp. pose proof (own_entry_bound _ _ _ _ _ Ho). destruct Ho as [Hf _]. unfold entry.
    rewrite Ha; [done|]. rewrite slot_page by done. by eexists.
  - intros a v Hv. apply Ha. by eexists.
Qed.

(** An image in memory at the page tables [root], in use or not. *)
Definition loaded s (root : Z) (f : list Z) (ps : list Elf64_Phdr) : Prop :=
  ∃ lev, app_tables s root lev ∧ image (ResetCR3 root s) f ps.

Lemma app_tables_at s root cr lev : app_tables s root lev ↔ app_tables (ResetCR3 cr s) root lev.
Proof.
  split; intros Hat; [apply (space_agree _ _ s)|apply (space_agree _ _ (ResetCR3 cr s))];
    [exact (sp_alloc _ _ _ _ _ Hat)|by intros f|done|done|exact (sp_alloc _ _ _ _ _ Hat)|by intros f|done|done].
Qed.

Lemma image_agree s s' lev f ps : Forall (segment_ok f) ps → app_tables s (cr3 s) lev → alloc_ok (frames s') → mono s s' →
  cr3 s' = cr3 s → (∀ a, is_Some (lev !! (a / 4096)) → rd s' a = rd s a) → image s f ps → image s' f ps.
Proof.
  intros Hok Hat Hal Hm Hcr Ha Him p k Hp Hk. apply (vload8_agree s s' lev); [done..| |by apply Him].
  rewrite Forall_forall in Hok. destruct (Hok p Hp) as (? & ? & _). unfold upper. lia.
Qed.

Lemma loaded_agree s s' root f ps : Forall (segment_ok f) ps → alloc_ok (frames s') → mono s s' →
  (∀ a, used s (a / 4096) = true → rd s' a = rd s a) → loaded s root f ps → loaded s' root f ps.
Proof.
  intros Hps Hok Hm Ha (lev & Hat & Him). exists lev.
  assert (Hl : ∀ a, is_Some (lev !! (a / 4096)) → rd s' a = rd s a).
  { intros a [x Hx]. apply Ha. by eapply (sp_used _ _ _ _ _ Hat). }
  split.
  - apply (space_agree _ _ s); [done|done| |done]. intros h l q a Hf <-. apply Hl. by eexists.
  - apply (image_agree (ResetCR3 root s) (ResetCR3 root s') lev); [done|by apply app_tables_at|done..].
Qed.

(** [SetupPML4]: a fresh root with the kernel's half of the current one. *)
Lemma SetupPML4_spec s t : alloc_ok (frames s) → used s (cr3 s / 4096) = true → cr3 s mod 4096 = 0 →
  ∃ r s' t', SetupPML4 s t = Done (r, s', t') ∧ alloc_ok (frames s') ∧ mono s s' ∧
    (∀ a, used s (a / 4096) = true → rd s' a = rd s a) ∧
    ((error r = kSuccess ∧ cr3 s' = value r ∧ ctx_cr3 (context_ t') = value r ∧
      ∃ f, value r = 4096 * f ∧ used s f = false ∧ (∀ h, used s' h = (h =? f) || used s h) ∧
        (∀ i, 0 ≤ i < 256 → rd s' (slot (4096 * f) i) = rd s (slot (cr3 s) i)) ∧
        (∀ i, 256 ≤ i < 512 → rd s' (slot (4096 * f) i) = 0)) ∨
     error r = kNoEnoughMemory).
Proof.
  intros Hok Hu Hal. unfold SetupPML4.
  destruct (NewPageMap_spec s Hok) as
    (r & s1 & -> & Hok1 & Hcr & [(Her & f & Hv & Hf & Hfu & Hus & Hm)|(Her & Hus & Hm)]);
    cbn [mbind outcome_bind]; rewrite Her;
    [change (error_bool kSuccess) with false|change (error_bool kNoEnoughMemory) with true]; cbv iota.
  2: { eexists _, _, _. split; [reflexivity|]. split_and!; [done|intros g; by rewrite Hus|intros; unfold rd; by rewrite Hm|by right]. }
  set (s2 := mkPS _ _ _). eexists _, s2, _. split; [reflexivity|].
  assert (Hrd : ∀ a, rd s2 a = if decide (0 ≤ (a - 4096 * f) / 8 < 256 ∧ (a - 4096 * f) mod 8 = 0)
                     then rd s1 (slot (cr3 s) ((a - 4096 * f) / 8)) else rd s1 a).
  { intros a. unfold rd at 1, s2. cbn [mem]. unfold copy_lower_half. rewrite Hv, Hcr.
    apply (fill_read (λ i, rd s1 (slot (cr3 s) i)) _ 256 0). }
  assert (Hout : ∀ a, a / 4096 ≠ f → rd s1 a = rd s a).
  { intros a Ha. unfold rd. rewrite Hm. by apply zero_page_out. }
  split; [done|]. split; [intros g Hg; unfold used, s2; cbn [frames]; change (used s1 g = true); by rewrite Hus, Hg, orb_true_r|].
  split.
  { intros a Ha. rewrite Hrd, decide_False; [apply Hout; congruence|]. intros [H1 _].
    assert (a / 4096 = f) by dlia. congruence. }
  left. split; [done|]. split; [done|]. split; [done|]. exists f. split; [done|]. split; [done|].
  split; [exact Hus|]. split.
  - intros i Hi. rewrite Hrd, decide_True by (unfold slot; dlia). replace ((slot (4096 * f) i - 4096 * f) / 8) with i by (unfold slot; dlia).
    apply Hout. rewrite dest_slot by lia. congruence.
  - intros i Hi. rewrite Hrd, decide_False by (unfold slot; dlia). unfold rd. rewrite Hm. apply zero_page_in. lia.
Qed.

Lemma fresh_space task Sh s f : alloc_ok (frames s) → used s f = true → (∀ h, Sh h → used s h = true ∧ h ≠ f) →
  (∀ i, 256 ≤ i < 512 → rd s (slot (4096 * f) i) = 0) → space task Sh s (4096 * f) {[f := (4%nat, upper_prefix)]}.
Proof.
  intros Hok Hu Hsh Hz. assert (Hno : ∀ g l q i, own_entry {[f := (4%nat, upper_prefix)]} g l q i → entry s g i = 0).
  { intros g l q i [Hg Hi]. apply lookup_singleton_Some in Hg as [<- [= <- <-]].
    apply Hz. unfold lowest in Hi. by rewrite decide_True in Hi by done. }
  assert (Hf : 4096 * f / 4096 = f) by dlia.
  split.
  - done.
  - rewrite Hf. split; [dlia|]. apply lookup_singleton_eq.
  - intros g x Hg. by apply lookup_singleton_Some in Hg as [<- _].
  - intros h Hh. destruct (Hsh h Hh). split; [done|]. by apply lookup_singleton_ne.
  - intros g g' x Hg Hg'. apply lookup_singleton_Some in Hg as [<- _], Hg' as [<- _]. done.
  - intros g l r Hg. apply lookup_singleton_Some in Hg as [<- [= <- <-]]. left. by rewrite Hf.
  - intros g l q i Ho. by rewrite (Hno _ _ _ _ Ho).
  - intros g l q i Ho _. by rewrite (Hno _ _ _ _ Ho).
Qed.

(** [CopyPageMaps] into a fresh root: the same bytes, none of them writable. *)
Lemma copy_root s root lev : app_tables s root lev →
  used s (cr3 s / 4096) = true → cr3 s mod 4096 = 0 → lev !! (cr3 s / 4096) = None →
  (∀ i, 256 ≤ i < 512 → rd s (slot (cr3 s) i) = 0) →
  ∃ err s', CopyPageMaps 4 256 s (cr3 s) root = Done (err, s') ∧ (err = kSuccess ∨ err = kNoEnoughMemory) ∧
    alloc_ok (frames s') ∧ cr3 s' = cr3 s ∧ mono s s' ∧ agree (λ f, f = cr3 s / 4096) s s' ∧
    (err = kSuccess →
      (∀ i, 0 ≤ i < 256 → rd s' (slot (cr3 s) i) = rd s (slot (cr3 s) i)) ∧
      (∀ va x, upper va → walk s' 4 (cr3 s) va = Some x → writable x = false) ∧
      (∀ va c, upper va → vload8 (ResetCR3 root s) va = Done c → vload8 s' va = Done c)).
Proof.
  intros Hat Hu Hal Hl Hz.
  assert (Htree : tree_from (λ f, f = cr3 s / 4096) s 4 root 256).
  { apply (space_tree _ _ _ _ _ lev Hat). intros f l q Hf ->. congruence. }
  destruct (CopyPageMaps_walk 4 256 s (cr3 s) root ltac:(lia) ltac:(lia)) as (err & s' & E & Hok' & Hcr & Hm & Ha & Hr).
  { split_and!; [exact (sp_alloc _ _ _ _ _ Hat)|done|done|lia|done]. }
  { intros i Hi. by rewrite Hz. }
  exists err, s'. split; [done|]. split; [destruct Hr as [[-> _]| ->]; tauto|]. split_and!; [done..|].
  intros ->. destruct Hr as [(_ & Hlow & Hsm & Hw)|?]; [|done]. split; [done|].
  assert (Hpart : ∀ va, upper va → 256 ≤ Part 4 va) by (intros va Hva; apply (upper_part va 4 Hva); lia).
  split.
  - intros va x Hva Hx. rewrite Hw in Hx by by apply Hpart. destruct (walk s 4 root va) as [e|]; [|done].
    injection Hx as <-. unfold writable, set_writable. by rewrite bit_set_bit by lia.
  - intros va c Hva Hc. destruct (sp_root _ _ _ _ _ Hat) as [H1 H2].
    assert (Hat0 : app_tables (ResetCR3 root s) (cr3 (ResetCR3 root s)) lev) by (by apply app_tables_at).
    apply (vload8_walk _ _ _ _ Hat0 Hva) in Hc as (e & He & ->). change (walk s 4 root va = Some e) in He.
    pose proof (walk_page _ _ _ _ Hat0 Hva He) as Hpage.
    unfold vload8. rewrite Hcr, translate_walk; [|lia|].
    + rewrite Hw, He by by apply Hpart. cbn [fmap option_fmap option_map of_option mbind outcome_bind].
      unfold set_writable. rewrite Pointer_set_bit by lia. change kPageSize4K with 4096.
      set (pa := Pointer e + va mod 4096). destruct (in_page e pa va eq_refl) as [_ Hpw].
      change (mret ?x) with (Done x). unfold byte_at. do 2 f_equal. change (rd (ResetCR3 root s)) with (rd s).
      apply Ha; cbn beta; rewrite Hpw; [by eapply (sp_used _ _ _ _ _ Hat)|congruence].
    + apply Hsm; [by apply Hpart|]. by eapply root_small.
Qed.
End image.
End ImageFacts.
Import ImageFacts.

(** ** Loaded applications *)
Section apps.
Context {A : Type} `{FA : FrameAllocator A} {FL : FrameAllocatorLaws A}.
Implicit Types (s : pstate A).

(** What [LoadApp] has in [file_buf]: the file, with zeros if it is shorter than its
    directory entry says. *)
Definition file_buffer (v : Volume) (e : Z) (f : list Z) : Prop :=
  ∃ bytes, LoadFile v (file_size v e) e = Done bytes ∧
    f = bytes ++ replicate (Z.to_nat (file_size v e) - length bytes) 0.

(** The file of directory entry [e] is the executable [f]. *)
Definition executable_file (v : Volume) (e : Z) (f : list Z) (ps : list Elf64_Phdr) (entry : Z) : Prop :=
  file_buffer v e f ∧ take 4 f = 0x7f :: chars "ELF" ∧ executable f ps ∧ e_entry f = Done entry.

(** Every entry of [app_loads] describes the image of its file, in page tables that
    no task uses. *)
Definition app_loads_ok (v : Volume) s (app_loads : gmap Z AppLoadInfo) : Prop :=
  ∀ e a, app_loads !! e = Some a → ∃ f ps, executable_file v e f ps (app_entry a) ∧
    app_vaddr_end a = image_end ps ∧ loaded s (app_pml4 a) f ps.

Lemma executable_file_eq v e f ps x f' ps' x' : executable_file v e f ps x → executable_file v e f' ps' x' →
  f = f' ∧ ps = ps' ∧ x = x'.
Proof.
  intros ((b & E & Hf) & _ & Hx & He) ((b' & E' & Hf') & _ & Hx' & He').
  assert (b = b') as <- by congruence. assert (f = f') as <- by congruence.
  pose proof (ex_segments _ _ Hx). pose proof (ex_segments _ _ Hx'). split_and!; congruence.
Qed.

Lemma app_loads_agree v s s' apps : alloc_ok (frames s') → mono s s' →
  (∀ a, used s (a / 4096) = true → rd s' a = rd s a) → app_loads_ok v s apps → app_loads_ok v s' apps.
Proof.
  intros Hok Hm Ha Hap e a (f & ps & Hf & Hend & Hl)%Hap. exists f, ps. split; [done|]. split; [done|].
  apply (loaded_agree s); [apply Hf|done..].
Qed.

(** No word of a frame in use changes. *)
Definition quiet s s' : Prop :=
  alloc_ok (frames s') ∧ mono s s' ∧ ∀ a, used s (a / 4096) = true → rd s' a = rd s a.

Lemma quiet_trans s1 s2 s3 : quiet s1 s2 → quiet s2 s3 → quiet s1 s3.
Proof.
  intros (_ & Hm1 & H1) (Hok & Hm2 & H2). split; [done|]. split; [by apply mono_trans with s2|].
  intros a Ha. rewrite H2 by by apply Hm1. by apply H1.
Qed.

(** What a task gets: page tables of its own with the kernel's lower half and the
    image of the file, which it can read and not write. *)
Definition app_image s0 s (root : Z) (f : list Z) (ps : list Elf64_Phdr) : Prop :=
  cr3 s = root ∧ image s f ps ∧
  (∀ va x, upper va → walk s 4 root va = Some x → writable x = false) ∧
  (∀ i, 0 ≤ i < 256 → rd s (slot root i) = rd s0 (slot (cr3 s0) i)).

(** The current page tables can be copied. *)
Definition current_ok s : Prop := alloc_ok (frames s) ∧ used s (cr3 s / 4096) = true ∧ cr3 s mod 4096 = 0.

(** The last steps of [LoadApp]: a root for the task, and the copy of the loaded image. *)
Lemma own_page_map s t root f ps : current_ok s → Forall (segment_ok f) ps → loaded s root f ps →
  ∃ r s1 t1, SetupPML4 s t = Done (r, s1, t1) ∧
    ((error r = kNoEnoughMemory ∧ quiet s s1) ∨
     (error r = kSuccess ∧ ctx_cr3 (context_ t1) = value r ∧
      ∃ err s', CopyPageMaps 4 256 s1 (value r) root = Done (err, s') ∧
        (err = kSuccess ∨ err = kNoEnoughMemory) ∧ quiet s s' ∧ (err = kSuccess → app_image s s' (value r) f ps))).
Proof.
  intros (Hok & Hu & Hal) Hps (lev & Hat & Him).
  destruct (SetupPML4_spec s t Hok Hu Hal) as (r & s1 & t1 & E & Hok1 & Hm1 & Ha1 & Hr). exists r, s1, t1. split; [done|].
  destruct Hr as [(Her & Hcr & Ht & g & Hv & Hgu & Hus1 & Hlow & Hhigh)|Her]; [right|by left].
  assert (Hgu1 : used s1 g = true) by (by rewrite Hus1, Z.eqb_refl).
  split; [done|]. split; [done|].
  assert (Hlev : ∀ h l, lev !! h = Some l → used s h = true) by (intros h l Hh; by eapply (sp_used _ _ _ _ _ Hat)).
  assert (Hat1 : app_tables s1 root lev).
  { apply (space_agree _ _ s); [done|done| |done]. intros h l q a Hh <-. by eapply Ha1, Hlev. }
  assert (Hgv : value r / 4096 = g) by (rewrite Hv; dlia).
  destruct (copy_root s1 root lev) as (err & s' & Ec & Herr & Hok' & Hcr' & Hm' & Ha' & Hs); rewrite ?Hcr, ?Hgv; [done|done|rewrite Hv; dlia| |by rewrite Hv|].
  { destruct (lev !! g) as [l|] eqn:El; [|done]. apply Hlev in El. congruence. }
  rewrite Hcr in Ec, Hcr', Hs. rewrite Hcr, Hgv in Ha'.
  exists err, s'. split; [done|]. split; [done|]. split.
  - split; [done|]. split; [by apply mono_trans with s1|]. intros a Ha. rewrite Ha'; [by apply Ha1|by apply Hm1|]. cbn. congruence.
  - intros ->. destruct (Hs eq_refl) as (Hl & Hro & Hv8). split; [done|]. split; [|split; [done|]].
    + intros p k Hp Hk. rewrite Forall_forall in Hps. destruct (Hps p Hp) as (H1 & H2 & _).
      assert (Hup : upper (p_vaddr p + k)) by (unfold upper; lia). apply Hv8; [done|].
      apply (vload8_agree (ResetCR3 root s) (ResetCR3 root s1) lev); [by apply app_tables_at|done|done|done| |done|by apply Him].
      intros a [l Hl']. by eapply Ha1, Hlev.
    + intros i Hi. rewrite Hl by done. rewrite Hv. by apply Hlow.
Qed.

(** An image in fresh page tables: nothing else has been taken into use. *)
Definition fresh_image s s2 (root : Z) (f : list Z) (ps : list Elf64_Phdr) : Prop :=
  ∃ lev, app_tables s2 root lev ∧ image (ResetCR3 root s2) f ps ∧ ∀ g, used s2 g = true ↔ used s g = true ∨ is_Some (lev !! g).

Lemma fresh_image_loaded s s2 root f ps : fresh_image s s2 root f ps → loaded s2 root f ps.
Proof. intros (lev & Hat & Him & _). by exists lev. Qed.

(** The first steps: the file is loaded into fresh page tables. *)
Lemma load_fresh s t f ps : current_ok s → executable f ps →
  ∃ r s1 t1, SetupPML4 s t = Done (r, s1, t1) ∧
    ((error r = kNoEnoughMemory ∧ quiet s s1) ∨
     (error r = kSuccess ∧ ∃ n s2, LoadELF f s1 = Done (n, s2) ∧ (error n = kSuccess ∨ error n = kNoEnoughMemory) ∧
        quiet s s2 ∧
        (error n = kSuccess → value n = image_end ps ∧ cr3 s2 = value r ∧ current_ok s2 ∧ fresh_image s s2 (value r) f ps ∧
           ∀ i, 0 ≤ i < 256 → rd s2 (slot (value r) i) = rd s (slot (cr3 s) i)))).
Proof.
  intros (Hok & Hu & Hal) Hex.
  destruct (SetupPML4_spec s t Hok Hu Hal) as (r & s1 & t1 & E & Hok1 & Hm1 & Ha1 & Hr). exists r, s1, t1. split; [done|].
  destruct Hr as [(Her & Hcr & Ht & g & Hv & Hgu & Hus1 & Hlow & Hhigh)|Her]; [right|by left].
  assert (Hgu1 : used s1 g = true) by (by rewrite Hus1, Z.eqb_refl). split; [done|].
  pose proof (fresh_space false (λ _, False) s1 g Hok1 Hgu1 ltac:(done) Hhigh) as Hat1. rewrite <- Hv, <- Hcr in Hat1.
  destruct (LoadELF_spec f ps s1 _ Hat1 Hex) as (n & s2 & lev2 & En & Hern & L & Hs).
  exists n, s2. split; [done|]. split; [done|]. pose proof (lo_tables _ _ _ _ L) as Hat2.
  assert (Hq : ∀ a, used s (a / 4096) = true → rd s2 a = rd s a).
  { intros a Ha. rewrite (lo_frame _ _ _ _ L); [by apply Ha1|by apply Hm1|]. left. apply lookup_singleton_ne. congruence. }
  split; [split; [exact (sp_alloc _ _ _ _ _ Hat2)|]; split; [apply mono_trans with s1; [done|apply (loading_mono _ _ _ _ L)]|done]|].
  intros Hn. destruct (Hs Hn) as [Hvn Him]. split; [done|]. pose proof (lo_cr3 _ _ _ _ L) as Hcr2.
  split; [congruence|]. rewrite <- Hcr, <- Hcr2. destruct (sp_root _ _ _ _ _ Hat2) as [R1 R2]. split; [|split].
  - split; [exact (sp_alloc _ _ _ _ _ Hat2)|]. split; [by eapply (sp_used _ _ _ _ _ Hat2)|done].
  - exists lev2. split; [done|]. split; [by destruct s2|]. intros h. rewrite (lo_used _ _ _ _ L), Hus1, orb_true_iff, Z.eqb_eq.
    assert (Hg2 : is_Some (lev2 !! g)) by (eexists; eapply lookup_weaken; [|apply L]; apply lookup_singleton_eq).
    split; [|tauto]. by intros [[->|?]|?]; [right|left|right].
  - intros i Hi. rewrite Hcr2, (lo_frame _ _ _ _ L).
    + rewrite Hcr, Hv. by apply Hlow.
    + rewrite Hcr, Hv, slot_page by lia. done.
    + right. by exists i.
Qed.
(** What a call of [LoadApp] promises. *)
Definition load_result v (apps : gmap Z AppLoadInfo) e s f ps entry (r : WithError AppLoadInfo) apps' s' (t' : Task) : Prop :=
  (error r = kSuccess ∨ error r = kNoEnoughMemory) ∧ quiet s s' ∧
  app_loads_ok v s' apps' ∧ (∀ e', e' ≠ e → apps' !! e' = apps !! e') ∧
  (error r = kSuccess →
     app_entry (value r) = entry ∧ app_vaddr_end (value r) = image_end ps ∧
     ctx_cr3 (context_ t') = app_pml4 (value r) ∧ app_image s s' (app_pml4 (value r)) f ps ∧
     is_Some (apps' !! e)).

Lemma quiet_loads v s s' apps : app_loads_ok v s apps → quiet s s' → app_loads_ok v s' apps.
Proof. intros Hap (?&?&?). by apply (app_loads_agree v s). Qed.

(** Without memory nothing is promised but that nothing changes. *)
Lemma load_result_nomem v apps e s f ps entry r s' t' : app_loads_ok v s apps → quiet s s' → error r = kNoEnoughMemory →
  load_result v apps e s f ps entry r apps s' t'.
Proof. intros Hap Hq Her. split_and!; [by right|done|by apply (quiet_loads v s)|done|]. by rewrite Her. Qed.

Lemma LoadApp_again v apps e s t a f ps entry : current_ok s → app_loads_ok v s apps →
  executable_file v e f ps entry → apps !! e = Some a →
  ∃ r apps' s' t', LoadApp v apps e s t = Done (r, apps', s', t') ∧ load_result v apps e s f ps entry r apps' s' t'.
Proof.
  intros Hcur Hap Hfile Ea. destruct (Hap e a Ea) as (f' & ps' & Hfile' & Hend & Hl).
  destruct (executable_file_eq v e _ _ _ _ _ _ Hfile Hfile') as (<- & <- & ->).
  pose proof Hfile as (_ & _ & Hex & _). unfold LoadApp.
  destruct (own_page_map s t (app_pml4 a) f ps Hcur (ex_ok _ _ Hex) Hl)
    as (r & s1 & t1 & -> & [(Her & Hq)|(Her & Ht & err & s2 & E & Herr & Hq & Hi)]);
    cbn [mbind outcome_bind]; rewrite Her.
  - change (error_bool kNoEnoughMemory) with true. cbv iota. eexists _, _, _, _. split; [reflexivity|].
    by apply load_result_nomem.
  - change (error_bool kSuccess) with false. cbv iota. rewrite Ea, E. cbn [mbind outcome_bind].
    eexists _, _, _, _. split; [reflexivity|].
    split_and!; [done|done|by apply (quiet_loads v s)|done|]. intros Hs. split_and!; [done|done|done|by apply Hi|by rewrite Ea].
Qed.

Lemma insert_loads v s s2 apps e app f ps : app_loads_ok v s apps → quiet s s2 →
  executable_file v e f ps (app_entry app) → app_vaddr_end app = image_end ps → loaded s2 (app_pml4 app) f ps →
  app_loads_ok v s2 (<[e := app]> apps).
Proof.
  intros Hap Hq Hfile Hend Hl e' a' [[<- <-]|[Hne Ha']]%lookup_insert_Some; [by exists f, ps|].
  by apply (quiet_loads v s s2 apps Hap Hq).
Qed.

Lemma LoadApp_first v apps e s t f ps entry : current_ok s → app_loads_ok v s apps →
  executable_file v e f ps entry → apps !! e = None →
  ∃ r apps' s' t', LoadApp v apps e s t = Done (r, apps', s', t') ∧ load_result v apps e s f ps entry r apps' s' t'.
Proof.
  intros Hcur Hap Hfile Ea. pose proof Hfile as ((bytes & Hread & Hf) & Hmagic & Hex & Hentry).
  assert (Hnomem : error_bool kNoEnoughMemory = true) by done. assert (Hsucc : error_bool kSuccess = false) by done.
  unfold LoadApp.
  destruct (load_fresh s t f ps Hcur Hex) as (r & s1 & t1 & -> & [(Her & Hq)|(Her & n & s2 & E & Hern & Hq & Hs)]);
    cbn [mbind outcome_bind]; rewrite Her, ?Hnomem, ?Hsucc.
  { eexists _, _, _, _. split; [reflexivity|]. by apply load_result_nomem. }
  rewrite Ea, Hread. cbn [mbind outcome_bind]. rewrite <- Hf, Hmagic, E.
  assert (H4 : 4 ≤ Z.of_nat (length f)).
  { apply (f_equal length) in Hmagic. rewrite length_take in Hmagic. change (length (0x7f :: chars "ELF")) with 4%nat in Hmagic. lia. }
  destruct (Z.leb_spec 4 (Z.of_nat (length f))); [|lia]. cbn [mbind outcome_bind mret outcome_ret].
  rewrite bool_decide_eq_true_2 by done. cbn [negb].
  destruct Hern as [Hern|Hern]; rewrite Hern, ?Hnomem, ?Hsucc.
  2: { eexists _, _, _, _. split; [reflexivity|]. by apply load_result_nomem. }
  destruct (Hs Hern) as (Hend & Hcr2 & Hcur2 & Hl2%fresh_image_loaded & Hlow2). rewrite Hentry. cbn [mbind outcome_bind].
  set (app := mkApp (value n) entry (value r)). pose proof (insert_loads v s s2 apps e app f ps Hap Hq Hfile Hend Hl2) as Happ.
  destruct (own_page_map s2 t1 (value r) f ps Hcur2 (ex_ok _ _ Hex) Hl2)
    as (r3 & s3 & t3 & -> & [(Her3 & Hq3)|(Her3 & Ht3 & err & s4 & E4 & Herr & Hq4 & Hi)]);
    cbn [mbind outcome_bind]; rewrite Her3, ?Hnomem, ?Hsucc, ?E4; cbn [mbind outcome_bind];
    eexists _, _, _, _; (split; [reflexivity|]);
    (split_and!; [by (right + idtac)|by apply quiet_trans with s2|by apply (quiet_loads v s2)|intros e' He'; by apply lookup_insert_ne|]).
  - cbn [error]. intros Hs3. congruence.
  - intros Hs4. destruct (Hi Hs4) as (Hc4 & Him & Hro & Hlow). split_and!; [done|done|done| |by rewrite lookup_insert_eq].
    split; [done|]. split; [done|]. split; [done|]. intros i Hi'. rewrite Hlow by done. rewrite Hcr2. by apply Hlow2.
Qed.
End apps.

(** ** Properties *)

(** C4 loadapp
    [LoadApp] of an executable file: unless memory runs out, the task gets page
    tables of its own in which every segment's bytes stand at their addresses, zeros
    behind them, none of them writable (a write makes a private copy), with the
    kernel's lower half as it was; entry point and end of the image are the file's.
    The first run reads the file, later ones copy the tables kept in [app_loads],
    whose entries stay images of their files.  Whether or not it succeeds, no word
    of a frame in use changes, the memory of other tasks included. *)
Theorem LoadApp_loads {A : Type} {FA : FrameAllocator A} {FL : FrameAllocatorLaws A}
  (v : Volume) (app_loads : gmap Z AppLoadInfo) (e : Z) (s : pstate A) (t : Task)
  (f : list Z) (ps : list Elf64_Phdr) (entry : Z)
  (Hcurrent : current_ok s) (Hloads : app_loads_ok v s app_loads) (Hfile : executable_file v e f ps entry) :
  ∃ r app_loads' s' t', LoadApp v app_loads e s t = Done (r, app_loads', s', t') ∧
    (error r = kSuccess ∨ error r = kNoEnoughMemory) ∧ quiet s s' ∧
    app_loads_ok v s' app_loads' ∧ (∀ e', e' ≠ e → app_loads' !! e' = app_loads !! e') ∧
    (error r = kSuccess →
       app_entry (value r) = entry ∧ app_vaddr_end (value r) = image_end ps ∧
       ctx_cr3 (context_ t') = app_pml4 (value r) ∧ app_image s s' (app_pml4 (value r)) f ps ∧
       is_Some (app_loads' !! e)).
Proof.
  destruct (app_loads !! e) as [a|] eqn:Ea; [by apply (LoadApp_again _ _ _ _ _ a)|by apply LoadApp_first].
Qed.

(** The volume of Fat.v whose file is a program of one segment: four bytes at
    0xffff800000001ffe, across a page boundary, and two zeros. *)
Definition elf_file : list Z :=
  [0x7f; 69; 76; 70] ++ replicate 12 0 ++ [2; 0] ++ replicate 6 0 ++ [0xfe; 0x1f; 0; 0; 0; 0x80; 0xff; 0xff] ++
  [64] ++ replicate 23 0 ++ [1; 0] ++ replicate 6 0 ++
  [1] ++ replicate 7 0 ++ [120] ++ replicate 7 0 ++ [0xfe; 0x1f; 0; 0; 0; 0x80; 0xff; 0xff] ++ replicate 8 0 ++
  [4] ++ replicate 7 0 ++ [6] ++ replicate 15 0 ++ [11; 22; 33; 44].
Definition elf_segment : Elf64_Phdr := mkPhdr 1 0 120 0xffff800000001ffe 0 4 6 0.
Definition elf_volume : Volume :=
  mkVolume (<[220 := 124]> (list_to_map (imap (λ i b, (256 + (Z.of_nat i + if (i <? 64)%nat then 0 else 64), b)) elf_file)
    ∪ sample_image)) 1088 (bytes_per_cluster sample_volume).

Lemma elf_executable : executable_file elf_volume 192 elf_file [elf_segment] 0xffff800000001ffe.
Proof.
  split; [exists elf_file; split; vm_compute; reflexivity|]. split; [vm_compute; reflexivity|].
  split; [|vm_compute; reflexivity]. split; [vm_compute; reflexivity..|done| | |].
  - apply Forall_singleton. unfold segment_ok. vm_compute. repeat split; congruence.
  - repeat constructor.
  - apply (bool_decide_unpack _). vm_compute. exact I.
Qed.

Lemma LoadApp_loads_witness :
  ∃ r apps' s' t', LoadApp elf_volume ∅ 192 sample (new_Task 1) = Done (r, apps', s', t') ∧ error r = kSuccess ∧
    app_vaddr_end (value r) = 0xffff800000002004 ∧
    vload8 s' 0xffff800000002000 = Done 33 ∧ vload8 s' 0xffff800000002003 = Done 0.
Proof.
  destruct (LoadApp_loads elf_volume ∅ 192 sample (new_Task 1) elf_file [elf_segment] 0xffff800000001ffe)
    as (r & apps' & s' & t' & E & _ & _ & _ & _ & Hs).
  - split; [exact sample_alloc_ok|]. split; reflexivity.
  - intros e a He. rewrite lookup_empty in He. discriminate He.
  - exact elf_executable.
  - assert (Hr : match LoadApp elf_volume ∅ 192 sample (new_Task 1) with
                 | Done (r, _, _, _) => bool_decide (error r = kSuccess) | _ => false end = true) by (vm_compute; reflexivity).
    rewrite E in Hr. apply bool_decide_eq_true in Hr. destruct (Hs Hr) as (_ & Hend & _ & (_ & Him & _) & _).
    exists r, apps', s', t'. split; [exact E|]. split; [exact Hr|]. split; [rewrite Hend; reflexivity|]. split.
    + refine (Him elf_segment 2 _ _); [left|split; reflexivity || discriminate].
    + refine (Him elf_segment 5 _ _); [left|split; reflexivity || discriminate].
Defined.
