(* ===== verification/LifeFacts.v ===== *)
(** The frames of a program from its start to its end: what [CopyPageMaps], page
    faults and stores make of its address space, what [CleanPageMaps] and
    [FreePML4] give back, and the theorem that a run leaves memory as it was. *)
From S2P Require Import Prelude ErrorCode MemoryManager FrameAllocator Paging AddressSpace Task Fat FatFile AppLoad LoadFacts.
Import EntryFacts SetupFacts CopyFacts FaultFacts CleanFacts SpaceFacts ByteFacts ImageFacts.

(** ** The space of a task *)
Module TaskFacts.
Section task.
Context {A : Type} `{FA : FrameAllocator A} {FL : FrameAllocatorLaws A}.
Implicit Types (s : pstate A) (lev : ghost).

(** The space of a task over the frames [Sh], which it may share. *)
Abbreviation task_space Sh s root lev := (space true Sh s root lev).

(** A frame allocation that fails changes nothing. *)
Lemma nomem_grown task Sh s s' root lev : alloc_ok (frames s') → cr3 s' = cr3 s → mem s' = mem s →
  (∀ f, used s' f = used s f) → space task Sh s root lev → space task Sh s' root lev ∧ grown s lev s' lev.
Proof.
  intros Hok Hcr Hm Hus Hsp. assert (Hrd : ∀ a, rd s' a = rd s a) by (intros; unfold rd; by rewrite Hm). split.
  - apply (space_agree _ _ s); [done|intros f; by rewrite Hus|intros; apply Hrd|done].
  - split; [done|done| |intros f x H1 H2; congruence|by intros a _ _].
    intros f. rewrite Hus. split; [tauto|]. intros [?|[x Hx]]; [done|]. by eapply (sp_used _ _ _ _ _ Hsp).
Qed.

(** ** Copying an image *)
Section copy.
(** The tables [levm] of the image, all of whose frames may be shared. *)
Variables (Sh : Z → Prop) (mroot : Z) (levm : ghost).
Hypothesis Hshared : ∀ f x, levm !! f = Some x → Sh f.

(** The words of shared frames stay. *)
Lemma shared_words s root lev s' lev' a : task_space Sh s root lev → grown s lev s' lev' → Sh (a / 4096) → rd s' a = rd s a.
Proof.
  intros Hsp G Ha. destruct (sp_shared _ _ _ _ _ Hsp _ Ha) as [Hu Hn]. apply (gr_frame _ _ _ _ G); [done|].
  intros (f & l & q & i & Ho & ->). rewrite slot_page in Hn by by eapply own_entry_bound. destruct Ho. congruence.
Qed.

Lemma image_stays s root lev s' lev' : task_space Sh s root lev → task_space Sh s' root lev' → grown s lev s' lev' →
  app_tables s mroot levm → app_tables s' mroot levm.
Proof using Hshared.
  intros Hsp Hsp' G Hm. apply (space_agree _ _ s); [apply (sp_alloc _ _ _ _ _ Hsp')|by eapply gr_mono| |done].
  intros f l q a Hf <-. eapply shared_words; [done..|]. by eapply Hshared.
Qed.

Definition copies (level : nat) (start : Z) (rec : pstate A → Z → Z → outcome (Code * pstate A)) : Prop :=
  ∀ s root lev f g q err s', task_space Sh s root lev → app_tables s mroot levm →
    lev !! f = Some (level, q) → levm !! g = Some (level, q) → lowest level ≤ start →
    (∀ i, start ≤ i < 512 → entry s f i = 0) → rec s (4096 * f) (4096 * g) = Done (err, s') →
    ∃ lev', task_space Sh s' root lev' ∧ grown s lev s' lev' ∧ agree (λ x, x = f) s s'.

Lemma copy_leaves_copies k : ∀ i s root lev f g q, task_space Sh s root lev → app_tables s mroot levm →
  lev !! f = Some (1%nat, q) → levm !! g = Some (1%nat, q) → 0 ≤ i → i + Z.of_nat k = 512 →
  (∀ j, i ≤ j < 512 → entry s f j = 0) →
  let s' := copy_leaves (4096 * f) (4096 * g) k i s in
  task_space Sh s' root lev ∧ grown s lev s' lev ∧ agree (λ x, x = f) s s'.
Proof using Hshared.
  induction k as [|k IH]; intros i s root lev f g q Hsp Hm Hf Hg Hi Hk Hz; cbn [copy_leaves].
  { split; [done|]. split; [by eapply grown_refl|done]. }
  change (rd s (slot (4096 * g) i)) with (entry s g i).
  assert (Ho : own_entry lev f 0 q i) by (split; [done|unfold lowest; rewrite decide_False by done; lia]).
  assert (Hom : own_entry levm g 0 q i) by (split; [done|unfold lowest; rewrite decide_False by done; lia]).
  destruct (present (entry s g i)) eqn:Hp; cbn [negb]; [|apply (IH (i + 1) s root lev f g q); try done; [lia|lia|intros; apply Hz; lia]].
  destruct (sp_down _ _ _ _ _ Hm _ _ _ _ Hom Hp) as [[Hd _]|(_ & ? & _)]; [|done].
  set (s2 := wr (wr s _ _) _ _).
  assert (Hrd : ∀ a, rd s2 a = if decide (slot (4096 * f) i = a) then set_writable (entry s g i) false else rd s a).
  { intros a. unfold s2. rewrite rd_wr. case_decide as Ha; [by rewrite rd_wr, decide_True|by rewrite rd_wr, decide_False]. }
  assert (He : entry s2 f i = set_writable (entry s g i) false) by (unfold entry at 1; by rewrite Hrd, decide_True).
  assert (Hcr2 : cr3 s2 = cr3 s) by done. assert (Hfr2 : frames s2 = frames s) by done. clearbody s2.
  destruct (share_grown true Sh s root lev f q i s2) as [Hsp2 G2]; [done|done| |done|done|done| | | |].
  { intros [Hx _]. by rewrite Hz in Hx by lia. }
  { rewrite He. unfold set_writable. rewrite Pointer_set_bit by lia. by eapply Hshared. }
  { rewrite He. unfold writable, set_writable. by rewrite bit_set_bit by lia. }
  { intros a Ha. by rewrite Hrd, decide_False. }
  destruct (IH (i + 1) s2 root lev f g q) as (H1 & H2 & H3); [done|by apply (image_stays s root lev s2 lev)|done|done|lia|lia| |].
  { intros j Hj. unfold entry. rewrite Hrd, decide_False by (intros ?%slot_inj; lia). apply Hz. lia. }
  split; [done|]. split; [by eapply grown_trans|]. apply agree_trans with s2; [by eapply gr_mono| |done].
  intros a _ Ha. rewrite Hrd, decide_False; [done|]. intros <-. rewrite slot_page in Ha by lia. done.
Qed.

(** One turn of the loop over tables: a fresh table in the entry, without its contents. *)
Lemma link_copy s root lev f g l q i n s1 : task_space Sh s root lev → app_tables s mroot levm →
  own_entry lev f l q i → own_entry levm g l q i → l ≠ 0%nat → present (entry s g i) = true → entry s f i = 0 →
  NewPageMap s = Done (n, s1) →
  if error_bool (error n) then task_space Sh s1 root lev ∧ grown s lev s1 lev ∧ agree (λ x, x = f) s s1
  else
    let s2 := wr s1 (slot (4096 * f) i) (rd s1 (slot (4096 * g) i)) in
    let s3 := wr s2 (slot (4096 * f) i) (SetPointer (rd s2 (slot (4096 * f) i)) (value n)) in
    ∃ h, value n = 4096 * h ∧ used s h = false ∧ task_space Sh s3 root (<[h := (l, 512 * q + i)]> lev) ∧
      grown s lev s3 (<[h := (l, 512 * q + i)]> lev) ∧ agree (λ x, x = f) s s3 ∧
      (∀ j, 0 ≤ j < 512 → j ≠ i → entry s3 f j = entry s f j) ∧ (∀ j, 0 ≤ j < 512 → entry s3 h j = 0).
Proof using Hshared.
  intros Hsp Hm Ho Hom Hl Hp Hz E. pose proof (own_entry_bound _ _ _ _ _ Ho) as Hi.
  destruct (NewPageMap_spec s (sp_alloc _ _ _ _ _ Hsp)) as
    (n' & s1' & En & Hok & Hcr & [(Her & h & Hv & Hh & Hhu & Hus & Hmem)|(Her & Hus & Hmem)]);
    rewrite En in E; injection E as -> ->; rewrite Her.
  2: { change (error_bool kNoEnoughMemory) with true. cbv iota.
       destruct (nomem_grown true Sh s s1 root lev Hok Hcr Hmem Hus Hsp). split; [done|]. split; [done|].
       intros a _ _. unfold rd. by rewrite Hmem. }
  change (error_bool kSuccess) with false. cbv iota. intros s2 s3.
  assert (Hout : ∀ a, a / 4096 ≠ h → rd s1 a = rd s a) by (intros; unfold rd; rewrite Hmem; by apply zero_page_out).
  assert (Hfu : used s f = true) by (destruct Ho as [Hf _]; by eapply (sp_used _ _ _ _ _ Hsp)).
  assert (Hgu : used s g = true) by (destruct Hom as [Hg _]; by eapply (sp_used _ _ _ _ _ Hm)).
  set (e := SetPointer (entry s g i) (4096 * h)).
  assert (Hrd : ∀ a, rd s3 a = if decide (slot (4096 * f) i = a) then e else rd s1 a).
  { intros a. unfold s3. rewrite rd_wr. case_decide as Ha; [|unfold s2; by rewrite rd_wr, decide_False].
    unfold s2. rewrite rd_wr, decide_True, Hv, Hout by (done || rewrite slot_page by done; congruence). done. }
  assert (Hc3 : cr3 s3 = cr3 s1) by done. assert (Hf3 : frames s3 = frames s1) by done. clearbody s3. clear s2.
  assert (He : entry s3 f i = e) by (unfold entry; by rewrite Hrd, decide_True).
  assert (Hz3 : ∀ j, 0 ≤ j < 512 → entry s3 h j = 0).
  { intros j Hj. unfold entry. rewrite Hrd, decide_False by (intros [-> _]%slot_frame_inj; [congruence|done|done]).
    unfold rd. rewrite Hmem. by apply zero_page_in. }
  destruct (sp_down _ _ _ _ _ Hm _ _ _ _ Hom Hp) as [[_ Hw]|(? & _)]; [|done].
  pose proof (sp_small _ _ _ _ _ Hm _ _ _ _ Hom Hl) as Hhuge.
  exists h. split; [done|]. split; [done|].
  destruct (link_grown true Sh s root lev f l q i h s3 e Hsp Ho) as [H1 H2];
    [intros [Hx _]; by rewrite Hz in Hx|done|lia|by rewrite Hf3|by rewrite Hc3| | |done| | | |done|].
  { intros x. unfold used. rewrite Hf3. apply Hus. }
  { split; rewrite He; unfold e; [unfold present; by rewrite bit_SetPointer by lia|by rewrite Pointer_SetPointer by lia]. }
  { intros _. unfold e, huge_page. by rewrite bit_SetPointer by lia. }
  { intros _. unfold e, writable. rewrite bit_SetPointer by lia. apply Hw. by left. }
  { intros a Hau Ha. rewrite Hrd, decide_False by done. apply Hout. congruence. }
  split; [done|]. split; [done|]. split; [|split; [|done]].
  - intros a Hu Ha. rewrite Hrd, decide_False; [apply Hout; congruence|]. intros <-. by rewrite slot_page in Ha.
  - intros j Hj Hji. unfold entry. rewrite Hrd, decide_False by (intros ?%slot_inj; lia). apply Hout. rewrite slot_page by done. congruence.
Qed.

Lemma copy_tables_copies l rec k : (1 ≤ l < 4)%nat → copies l 0 rec → ∀ i s root lev f g q err s',
  task_space Sh s root lev → app_tables s mroot levm →
  lev !! f = Some (S l, q) → levm !! g = Some (S l, q) → lowest (S l) ≤ i → i + Z.of_nat k = 512 →
  (∀ j, i ≤ j < 512 → entry s f j = 0) →
  copy_tables rec (4096 * f) (4096 * g) k i s = Done (err, s') →
  ∃ lev', task_space Sh s' root lev' ∧ grown s lev s' lev' ∧ agree (λ x, x = f) s s'.
Proof using Hshared.
  intros Hl Hrec. induction k as [|k IH]; intros i s root lev f g q err s' Hsp Hm Hf Hg Hlow Hk Hz; cbn [copy_tables].
  { intros [= <- <-]. exists lev. split; [done|]. split; [by eapply grown_refl|done]. }
  change (rd s (slot (4096 * g) i)) with (entry s g i).
  assert (Hi0 : 0 ≤ i) by (revert Hlow; unfold lowest; case_decide; lia).
  destruct (present (entry s g i)) eqn:Hp; cbn [negb]; [|apply IH with q; try done; [lia|lia|intros; apply Hz; lia]].
  intros E. apply bind_Done_inv in E as ((n & s1) & E1 & E).
  pose proof (link_copy s root lev f g l q i n s1 Hsp Hm) as L. specialize (L ltac:(split; [done|lia]) ltac:(split; [done|lia])
    ltac:(lia) Hp ltac:(apply Hz; lia) E1).
  destruct (error_bool (error n)); [injection E as <- <-; by exists lev|].
  destruct L as (h & Hv & Hhu & Hsp3 & G3 & Ha3 & Hoth & Hz3).
  set (s2 := wr s1 _ _) in *. set (s3 := wr s2 _ _) in *. clearbody s3. clear s2.
  apply bind_Done_inv in E as ((err4 & s4) & E4 & E).
  assert (Hm3 : app_tables s3 mroot levm) by exact (image_stays s root lev s3 _ Hsp Hsp3 G3 Hm).
  assert (Hsrc : rd s3 (slot (4096 * g) i) = entry s g i).
  { apply (shared_words s root lev s3 _ _ Hsp G3). rewrite slot_page by lia. by eapply Hshared. }
  rewrite Hsrc, Hv, (Pointer_page (entry s g i)) in E4.
  destruct (sp_down _ _ _ _ _ Hm g l q i) as [[Hd _]|(? & _)]; [split; [done|lia]|done| |lia].
  assert (Hfh : f ≠ h) by (intros ->; apply (sp_used _ _ _ _ _ Hsp) in Hf; congruence).
  destruct (Hrec s3 root _ h (Pointer (entry s g i) / 4096) (512 * q + i) err4 s4 Hsp3 Hm3) as (lev4 & Hsp4 & G4 & Ha4);
    [by rewrite lookup_insert_eq|done|unfold lowest; rewrite decide_False by lia; lia|intros; apply Hz3; lia|done|].
  assert (G : grown s lev s4 lev4) by by eapply grown_trans.
  assert (Hag : agree (λ x, x = f) s s4).
  { intros a Hu Ha. rewrite Ha4; [by apply Ha3|by eapply gr_mono|]. cbn. congruence. }
  destruct (error_bool err4); [injection E as <- <-; by exists lev4|].
  assert (Hf4 : lev4 !! f = Some (S l, q)) by (eapply lookup_weaken; [exact Hf|apply G]).
  destruct (IH (i + 1) s4 root lev4 f g q err s' Hsp4) as (lev' & H1 & H2 & H3); [by apply (image_stays s root lev s4 lev4)|done|done|lia|lia| |done|].
  { intros j Hj. transitivity (entry s3 f j); [|rewrite Hoth by lia; apply Hz; lia].
    apply Ha4; [rewrite slot_page by lia; eapply gr_mono; [exact G3|]; by eapply (sp_used _ _ _ _ _ Hsp)|].
    rewrite slot_page by lia. done. }
  exists lev'. split; [done|]. split; [by eapply grown_trans|]. apply agree_trans with s4; [by eapply gr_mono|done..].
Qed.

Lemma CopyPageMaps_copies level : (1 ≤ level ≤ 4)%nat → ∀ start, 0 ≤ start ≤ 512 → copies level start (CopyPageMaps level start).
Proof using Hshared.
  induction level as [|l IH]; intros Hl start Hs s root lev f g q err s' Hsp Hm Hf Hg Hlow Hz; [lia|].
  destruct l as [|l].
  - cbn [CopyPageMaps]. intros [= _ <-]. exists lev.
    apply (copy_leaves_copies (Z.to_nat (512 - start)) start s root lev f g q); [done|done|done|done|lia|lia|done].
  - change (CopyPageMaps (S (S l)) start s (4096 * f) (4096 * g))
      with (copy_tables (CopyPageMaps (S l) 0) (4096 * f) (4096 * g) (Z.to_nat (512 - start)) start s).
    intros E. apply (copy_tables_copies (S l) (CopyPageMaps (S l) 0) (Z.to_nat (512 - start)) ltac:(lia) (IH ltac:(lia) 0 ltac:(lia)) start s root lev f g q err s');
      [done|done|done|done|done|lia|done|done].
Qed.
End copy.

(** ** A task between its start and its end *)

(** The task's space over the state [s0] before its start: what is in use is what
    was, and the task's own frames; the words of the former are as they were. *)
Record task_state s0 s lev : Prop := {
  ts_space : task_space (λ f, used s0 f = true) s (cr3 s) lev;
  ts_used : ∀ f, used s f = true ↔ used s0 f = true ∨ is_Some (lev !! f);
  ts_words : ∀ a, used s0 (a / 4096) = true → rd s a = rd s0 a;
}.

Lemma task_state_grown s0 s lev s' lev' : task_state s0 s lev →
  task_space (λ f, used s0 f = true) s' (cr3 s) lev' → grown s lev s' lev' → task_state s0 s' lev' ∧ cr3 s' = cr3 s.
Proof.
  intros [Hsp Hu Hw] Hsp' G. split; [|apply G]. rewrite <- (gr_cr3 _ _ _ _ G) in Hsp'. split; [done| |].
  - intros f. rewrite (gr_used _ _ _ _ G), Hu. split; [|tauto]. intros [[?|[x Hx]]|?]; [tauto| |tauto].
    right. exists x. by eapply lookup_weaken; [|apply G].
  - intros a Ha. rewrite <- Hw by done. by apply (shared_words _ s (cr3 s) lev s' lev' a Hsp G).
Qed.

(** An own entry that is read-only leads out of the space. *)
Lemma read_only_shared Sh s root lev f q i : task_space Sh s root lev → own_entry lev f 0 q i →
  present (entry s f i) = true → writable (entry s f i) = false →
  Sh (Pointer (entry s f i) / 4096) ∧ ¬ own_target s lev f 0 q i.
Proof.
  intros Hsp Ho Hp Hw. destruct (sp_down _ _ _ _ _ Hsp _ _ _ _ Ho Hp) as [[_ H]|(_ & _ & H & _)].
  - rewrite H in Hw by by right. done.
  - split; [done|]. intros [_ Ht]. destruct (sp_shared _ _ _ _ _ Hsp _ H). congruence.
Qed.

Lemma path_levels Sh s root lev l va : task_space Sh s root lev → upper va → ∀ f e,
  lev !! f = Some (l, va / 4096 / 512 ^ Z.of_nat l) → walk s l (4096 * f) va = Some e →
  NoDup (path_tables s l (4096 * f) va) ∧
  ∀ x, x ∈ path_tables s l (4096 * f) va → ∃ k q, lev !! x = Some (k, q) ∧ (1 ≤ k ≤ l)%nat.
Proof.
  intros Hsp Hva. induction l as [|l IH]; intros f e Hf; [done|]. cbn [walk path_tables].
  pose proof (own_part _ _ _ _ _ Hsp f l va Hva Hf) as Ho. fold (entry s f (Part (S l) va)).
  destruct (present (entry _ _ _)) eqn:Hp; [|done]. replace (4096 * f / 4096) with f by dlia. destruct l as [|l].
  - intros _. cbn [path_tables]. split; [apply NoDup_singleton|]. intros x ->%list_elem_of_singleton. exists 1%nat. eexists. split; [done|lia].
  - destruct (sp_down _ _ _ _ _ Hsp _ _ _ _ Ho Hp) as [[Hd _]|(? & _)]; [|done].
    pose proof (own_level _ _ _ _ _ Hsp _ _ _ Hf). rewrite part_down in Hd by lia.
    rewrite (Pointer_page (entry s f _)). intros Hw. destruct (IH _ _ Hd Hw) as [Hnd Hin]. split.
    + constructor; [|done]. intros (k & q & Hk & ?)%Hin. rewrite Hf in Hk. injection Hk as <-. lia.
    + intros x [->|Hx]%elem_of_cons; [exists (S (S l)), (va / 4096 / 512 ^ Z.of_nat (S (S l))); split; [done|lia]|].
      destruct (Hin x Hx) as (k & q & Hk & ?). exists k, q. split; [done|lia].
Qed.

(** A private copy of a shared page joins the space. *)
Lemma CopyOnePage_task s0 s lev va e err s' : task_state s0 s lev → upper va →
  walk s 4 (cr3 s) va = Some e → writable e = false → CopyOnePage s va = Done (err, s') →
  ∃ lev', task_state s0 s' lev' ∧ cr3 s' = cr3 s.
Proof.
  intros Hts Hva Hw Hro E. pose proof (ts_space _ _ _ Hts) as Hsp. pose proof Hw as Hleaf.
  apply (walk_root _ _ _ _ _ Hsp va _ Hva) in Hleaf as (g & Hg & He & Hp).
  destruct (read_only_shared _ s (cr3 s) lev g _ _ Hsp Hg) as [Hsh Hnt]; [by subst e|by subst e|].
  destruct (sp_root _ _ _ _ _ Hsp) as [Hr1 Hr2]. assert (Hroot : cr3 s = 4096 * (cr3 s / 4096)) by dlia.
  assert (Htop : lev !! (cr3 s / 4096) = Some (4%nat, va / 4096 / 512 ^ Z.of_nat 4)).
  { rewrite Hr2. do 2 f_equal. symmetry. by apply upper_high. }
  pose proof (own_entry_bound _ _ _ _ _ Hg) as Hi.
  destruct (walk_climb _ _ _ _ _ Hsp 3 1 g va eq_refl ltac:(lia) Hva) as [_ Hls]; [apply Hg|].
  change (leaf_slot s 1 (4096 * g) va) with (slot (4096 * g) (Part 1 va)) in Hls.
  destruct (CopyOnePage_spec s va e 256) as (err' & s1 & E1 & Hcr & Hok & Hr);
    [exact (sp_alloc _ _ _ _ _ Hsp)|apply (space_tree _ _ _ _ _ lev Hsp); tauto|apply (upper_part va 4 Hva); lia
    |unfold upper in Hva; lia|done|by eapply root_small| | |].
  { rewrite Hroot in Hw |- *. by eapply (path_levels _ s _ lev 4 va Hsp Hva _ e Htop). }
  { subst e. by apply (sp_shared _ _ _ _ _ Hsp). }
  rewrite E in E1. injection E1 as <- <-. destruct Hr as [(_ & f & Hfu & Hus & (e' & _ & Hq' & Hw' & Hb' & He') & _ & Hm)|(_ & Hm & Hus)].
  - rewrite Hls in He', Hm.
    destruct (link_grown true (λ f, used s0 f = true) s (cr3 s) lev g 0 (va / 4096 / 512) (Part 1 va) f s' e') as [Hsp' G]; try done.
    + assert (used s' f = true) as Hf by (by rewrite Hus, Z.eqb_refl). pose proof (in_use_bound _ _ Hok Hf). lia.
    + split; unfold entry; rewrite He'; [|done]. unfold present. rewrite Hb' by lia. by subst e.
    + eexists. by eapply task_state_grown.
  - destruct (nomem_grown true (λ f, used s0 f = true) s s' (cr3 s) lev Hok Hcr Hm Hus Hsp) as [Hsp' G].
    eexists. by eapply task_state_grown.
Qed.

Lemma SetupPageMaps_run s addr n x err s' : SetupPageMaps s addr n x = Done (err, s') →
  ∃ r, SetupPageMap 4 x s (cr3 s) addr n = Done (r, s').
Proof.
  unfold SetupPageMaps. destruct (SetupPageMap 4 x s (cr3 s) addr n) as [[r s1]| |]; [|done..].
  intros [= _ <-]. by exists r.
Qed.

(** New pages where there were none. *)
Lemma SetupPageMaps_task s0 s lev addr n err s' : task_state s0 s lev → upper addr →
  (∀ va, upper va → addr / 4096 ≤ va / 4096 < addr / 4096 + n → walk s 4 (cr3 s) va = None) →
  SetupPageMaps s addr n true = Done (err, s') →
  ∃ lev', task_state s0 s' lev' ∧ cr3 s' = cr3 s.
Proof.
  intros Hts Hu Hnone E. pose proof (ts_space _ _ _ Hts) as Hsp. apply SetupPageMaps_run in E as [r E].
  destruct (sp_root _ _ _ _ _ Hsp) as [Hr1 Hr2]. assert (Hroot : cr3 s = 4096 * (cr3 s / 4096)) by dlia. rewrite Hroot in E.
  destruct (SetupPageMap_builds true (λ f, used s0 f = true) 4 true ltac:(lia) ltac:(done) s (cr3 s) lev (cr3 s / 4096) addr n r s' Hsp)
    as (lev' & [Hsp' G _ _] & _); [unfold upper in Hu; lia| |by apply (upper_part addr 4 Hu); lia| |done|].
  - rewrite Hr2. do 2 f_equal. symmetry. by apply upper_high.
  - intros _ h q j Ho Hp Hin. pose proof (own_entry_bound _ _ _ _ _ Ho) as Hj.
    destruct (own_page_upper _ _ _ _ _ Hsp h q j Ho) as (Hup & Hv & Hleaf).
    specialize (Hnone (4096 * (512 * q + j)) Hup ltac:(by rewrite Hv)).
    assert (Hw : walk s 4 (cr3 s) (4096 * (512 * q + j)) = Some (entry s h j)); [|congruence].
    apply (walk_root _ _ _ _ _ Hsp _ _ Hup). exists h. destruct Hleaf as [Hl Hj']. split; [done|]. by rewrite Hj'.
  - exists lev'. by eapply task_state_grown.
Qed.

(** A store of the program: a word of a page that it may write. *)
Definition store s s' : Prop := ∃ va e i x, upper va ∧ walk s 4 (cr3 s) va = Some e ∧ writable e = true ∧
  0 ≤ i < 512 ∧ s' = wr s (slot (Pointer e) i) x.

Lemma store_task s0 s lev s' : task_state s0 s lev → store s s' → task_state s0 s' lev ∧ cr3 s' = cr3 s.
Proof.
  intros [Hsp Hu Hw] (va & e & i & x & Hva & Hwalk & Hwr & Hi & ->).
  apply (walk_root _ _ _ _ _ Hsp va _ Hva) in Hwalk as (g & Hg & -> & Hp).
  destruct (sp_down _ _ _ _ _ Hsp _ _ _ _ Hg Hp) as [[Hd _]|(_ & _ & _ & H)]; [|congruence].
  set (p := Pointer (entry s g (Part 1 va))) in *.
  assert (Hpg : slot p i / 4096 = p / 4096) by (apply dest_slot; [apply Pointer_aligned|done]).
  split; [|done]. split.
  - apply (space_agree _ _ s); [exact (sp_alloc _ _ _ _ _ Hsp)|by intros f| |done].
    intros f l q a Hf <-. rewrite rd_wr, decide_False; [done|]. intros <-. rewrite Hpg in Hf. congruence.
  - done.
  - intros a Ha. rewrite rd_wr, decide_False; [by apply Hw|]. intros <-. rewrite Hpg in Ha.
    destruct (sp_shared _ _ _ _ _ Hsp _ Ha) as [_ Hn]. congruence.
Qed.

(** ** The end of a program *)
Section clean.
Variables (Sh : Z → Prop) (s : pstate A) (root : Z) (lev : ghost).
Hypothesis Hsp : task_space Sh s root lev.

(** The table of level [m] above a frame. *)
Lemma ancestor k : ∀ f l r, lev !! f = Some (l, r) → (l + k ≤ 4)%nat →
  ∃ h, lev !! h = Some ((l + k)%nat, r / 512 ^ Z.of_nat k).
Proof using All.
  induction k as [|k IH]; intros f l r Hf Hk.
  { exists f. rewrite Nat.add_0_r, Z.div_1_r. done. }
  destruct (IH f l r Hf ltac:(lia)) as [h Hh]. destruct (up_target _ _ _ _ _ _ _ _ Hsp Hh ltac:(lia)) as (p & [Hp _] & _).
  exists p. rewrite Hp. replace (l + S k)%nat with (S (l + k)) by lia. do 2 f_equal.
  rewrite Nat2Z.inj_succ, Z.pow_succ_r, (Z.mul_comm 512 (512 ^ _)) by lia. apply Z.div_div; lia.
Qed.

(** The frames below a table. *)
Definition below_table (f : Z) (l : nat) (q : Z) : Prop :=
  ∃ k r, lev !! f = Some (k, r) ∧ (k < l)%nat ∧ r / 512 ^ Z.of_nat (l - k) = q.

Lemma below_step f l q i : 0 ≤ i < 512 → below_table f l (512 * q + i) ∨ lev !! f = Some (l, 512 * q + i) → below_table f (S l) q.
Proof.
  intros Hi. assert (Hq : (512 * q + i) / 512 = q) by dlia. intros [(k & r & Hf & Hk & Hr)|Hf].
  - exists k, r. split; [done|]. split; [lia|]. replace (S l - k)%nat with (S (l - k)) by lia.
    rewrite Nat2Z.inj_succ, Z.pow_succ_r, (Z.mul_comm 512 (512 ^ _)), <- Z.div_div by lia. by rewrite Hr.
  - exists l, (512 * q + i). split; [done|]. split; [lia|]. replace (S l - l)%nat with 1%nat by lia. done.
Qed.

Lemma below_inv f g l q : lev !! g = Some (S l, q) → below_table f (S l) q →
  ∃ i, own_entry lev g l q i ∧ present (entry s g i) = true ∧ lev !! (Pointer (entry s g i) / 4096) = Some (l, 512 * q + i) ∧
    (below_table f l (512 * q + i) ∨ f = Pointer (entry s g i) / 4096).
Proof using All.
  intros Hg (k & r & Hf & Hk & Hr). pose proof (own_level _ _ _ _ _ Hsp _ _ _ Hg) as Hl.
  destruct (ancestor (l - k) f k r Hf ltac:(lia)) as [h Hh]. replace (k + (l - k))%nat with l in Hh by lia.
  set (c := r / 512 ^ Z.of_nat (l - k)) in *.
  assert (Hc : c / 512 = q).
  { rewrite <- Hr. replace (S l - k)%nat with (S (l - k)) by lia.
    rewrite Nat2Z.inj_succ, Z.pow_succ_r, (Z.mul_comm 512 (512 ^ _)) by lia. apply Z.div_div; lia. }
  destruct (up_target _ _ _ _ _ _ _ _ Hsp Hh ltac:(lia)) as (g' & Ho & Hle & _). rewrite Hc in Ho.
  assert (g' = g) as -> by (eapply (sp_inj _ _ _ _ _ Hsp); [apply Ho|done]).
  assert (Hcq : 512 * q + c mod 512 = c) by (rewrite <- Hc; dlia).
  exists (c mod 512). split; [done|]. split; [apply Hle|]. rewrite (leads_target _ _ _ _ Hle), Hcq. split; [done|].
  destruct (decide (k = l)) as [->|Hkl].
  - right. assert (c = r) as Hcr by (unfold c; rewrite Nat.sub_diag; apply Z.div_1_r). rewrite Hcr in Hh.
    by eapply (sp_inj _ _ _ _ _ Hsp).
  - left. exists k, r. split; [done|]. split; [lia|done].
Qed.

(** The addresses from which all of the upper half is walked. *)
Definition from_start (addr : Z) : Prop := ∀ l, (l < 4)%nat → Part (S l) addr = lowest (S l).

Lemma owned_below addr l : from_start addr → ∀ g q f, lev !! g = Some (l, q) →
  f ∈ owned s l (4096 * g) addr ↔ below_table f l q.
Proof using All.
  intros Haddr. induction l as [|l IH]; intros g q f Hg.
  { cbn [owned]. rewrite elem_of_nil. split; [done|]. intros (k & r & _ & ? & _). lia. }
  pose proof (own_level _ _ _ _ _ Hsp _ _ _ Hg) as Hl. rewrite elem_of_owned, Haddr by lia.
  assert (Hent : ∀ i, lowest (S l) ≤ i < 512 → present (entry s g i) = true →
    (f ∈ owned s l (Pointer (entry s g i)) addr ∨ holds (entry s g i) f) ↔
    lev !! (Pointer (entry s g i) / 4096) = Some (l, 512 * q + i) ∧
      (below_table f l (512 * q + i) ∨ f = Pointer (entry s g i) / 4096)).
  { intros i Hi Hp. destruct (sp_down _ _ _ _ _ Hsp g l q i (conj Hg Hi) Hp) as [[Hd Hw]|(-> & _ & Hs & Hro)].
    - rewrite Hd. rewrite (Pointer_page (entry s g i)) at 1. rewrite (IH _ _ f Hd). unfold holds.
      assert (writable (entry s g i) = true) as -> by (apply Hw; by right). naive_solver.
    - cbn [owned]. rewrite elem_of_nil. unfold holds. rewrite Hro.
      destruct (sp_shared _ _ _ _ _ Hsp _ Hs) as [_ ->]. naive_solver. }
  split.
  - intros (i & Hi & Hp & Hf). apply (Hent i Hi Hp) in Hf as [Hd Hf].
    apply (below_step f l q i); [by eapply own_entry_bound|]. destruct Hf as [?| ->]; [by left|by right].
  - intros (i & Ho & Hp & Hd & Hf)%(below_inv f g l q Hg). exists i. split; [apply Ho|]. split; [done|].
    apply (Hent i); [apply Ho|done|done].
Qed.

(** A table under the table of level [l] with the prefix [q], or this table. *)
Definition table_at (x : Z) (l : nat) (q : Z) : Prop :=
  ∃ k r, lev !! x = Some (k, r) ∧ (1 ≤ k ≤ l)%nat ∧ r / 512 ^ Z.of_nat (l - k) = q.

Lemma table_at_up x l q i : 0 ≤ i < 512 → table_at x l (512 * q + i) → table_at x (S l) q.
Proof.
  intros Hi (k & r & Hx & Hk & Hr). exists k, r. split; [done|]. split; [lia|].
  replace (S l - k)%nat with (S (l - k)) by lia.
  rewrite Nat2Z.inj_succ, Z.pow_succ_r, (Z.mul_comm 512 (512 ^ _)), <- Z.div_div, Hr by lia. dlia.
Qed.

Lemma table_at_prefix x l q q' : table_at x l q → table_at x l q' → q = q'.
Proof. intros (k & r & Hx & _ & <-) (k' & r' & Hx' & _ & <-). congruence. Qed.

(** The tables are distinct. *)
Lemma tables_own l : ∀ g q, lev !! g = Some (l, q) →
  NoDup (tables_from s l (4096 * g) (lowest l)) ∧ ∀ x, x ∈ tables_from s l (4096 * g) (lowest l) → table_at x l q.
Proof using All.
  induction l as [|l IH]; intros g q Hg; [split; [constructor|by intros x ?%not_elem_of_nil]|].
  pose proof (own_level _ _ _ _ _ Hsp _ _ _ Hg) as Hl. cbn [tables_from].
  replace (4096 * g / 4096) with g by dlia. set (sub := λ i, if present _ then _ else _).
  assert (Hsub : ∀ i, i ∈ seqZ (lowest (S l)) (512 - lowest (S l)) →
    own_entry lev g l q i ∧ NoDup (sub i) ∧ ∀ x, x ∈ sub i → table_at x l (512 * q + i)).
  { intros i Hi%elem_of_seqZ. assert (Ho : own_entry lev g l q i) by (split; [done|lia]). split; [done|].
    unfold sub. fold (entry s g i). destruct (present (entry s g i)) eqn:Hp; [|split; [constructor|by intros x ?%not_elem_of_nil]].
    destruct (sp_down _ _ _ _ _ Hsp _ _ _ _ Ho Hp) as [[Hd _]|(-> & _)]; [|split; [constructor|by intros x ?%not_elem_of_nil]].
    rewrite (Pointer_page (entry s g i)). apply IH in Hd. unfold lowest in Hd. by rewrite decide_False in Hd by lia. }
  clearbody sub. split.
  - constructor.
    + intros (i & Hg' & Hi)%list_elem_of_bind. destruct (Hsub i Hi) as (_ & _ & Hx). apply Hx in Hg' as (k & r & Hk & ? & _).
      rewrite Hg in Hk. injection Hk. lia.
    + apply NoDup_bind; [|by intros i Hi; apply Hsub|apply NoDup_seqZ]. intros i j y Hi Hj Hyi Hyj.
      destruct (Hsub i Hi) as (_ & _ & Hx). destruct (Hsub j Hj) as (_ & _ & Hx').
      pose proof (table_at_prefix y l _ _ (Hx y Hyi) (Hx' y Hyj)). lia.
  - intros x [->|Hx]%elem_of_cons.
    + exists (S l), q. split; [done|]. split; [lia|]. rewrite Nat.sub_diag. apply Z.div_1_r.
    + apply list_elem_of_bind in Hx as (i & Hx & Hi). destruct (Hsub i Hi) as (Ho & _ & H).
      apply (table_at_up x l q i); [by eapply own_entry_bound|by apply H].
Qed.

(** [CleanPageMaps] releases all of a space but its root, and touches only tables. *)
Lemma clean_space addr : cr3 s = root → from_start addr →
  ∃ s', CleanPageMaps s addr = Done (kSuccess, s') ∧ alloc_ok (frames s') ∧ cr3 s' = root ∧
    (∀ f, used s' f = true ↔ used s f = true ∧ (lev !! f = None ∨ f = root / 4096)) ∧
    ∀ a, lev !! (a / 4096) = None → rd s' a = rd s a.
Proof using All.
  intros Hcr Haddr. destruct (sp_root _ _ _ _ _ Hsp) as [Hr1 Hr2].
  assert (Hroot : 4096 * (root / 4096) = root) by dlia. pose proof (sp_alloc _ _ _ _ _ Hsp) as Hok.
  destruct (tables_own 4 _ _ Hr2) as [Hnd Hin]. rewrite Hroot in Hnd, Hin.
  assert (Howned : ∀ f, f ∈ owned s 4 root addr ↔ is_Some (lev !! f) ∧ f ≠ root / 4096).
  { intros f. pose proof (owned_below addr 4 Haddr _ _ f Hr2) as Ho. rewrite Hroot in Ho. rewrite Ho. split.
    - intros (k & r & Hf & Hk & _). split; [by eexists|]. intros ->. rewrite Hr2 in Hf. injection Hf. lia.
    - intros [[[k r] Hf] Hne]. exists k, r. split; [done|].
      destruct (sp_up _ _ _ _ _ Hsp f k r Hf) as [[_ ?]|[Hk _]]; [done|]. split; [done|].
      destruct (ancestor (4 - k) f k r Hf ltac:(lia)) as [h Hh]. replace (k + (4 - k))%nat with 4%nat in Hh by lia.
      destruct (sp_up _ _ _ _ _ Hsp h _ _ Hh) as [[_ ->]|[? _]]; [|lia]. rewrite Hr2 in Hh. congruence. }
  destruct (CleanPageMap_correct 4 addr ltac:(lia) s root (lowest 4) Hok Hr1) as (s' & E & [Hok' Hcr' Hu Hm] & _).
  { rewrite Haddr by lia. unfold lowest. simpl. lia. }
  { done. }
  { apply Forall_forall. intros f [[x Hx] _]%Howned. apply (in_use_bound (frames s)); [done|]. by eapply (sp_used _ _ _ _ _ Hsp). }
  exists s'. unfold CleanPageMaps. rewrite Hcr. split; [exact E|]. split; [done|]. split; [congruence|]. split.
  - intros f. rewrite Hu, andb_true_iff, negb_true_iff, bool_decide_eq_false, Howned, eq_None_not_Some.
    destruct (decide (f = root / 4096)); tauto.
  - intros a Ha. apply Hm. intros (k & r & Hx & _)%Hin. congruence.
Qed.
End clean.

Lemma upper_start : from_start 0xffff800000000000.
Proof. intros l Hl. do 4 (destruct l as [|l]; [done|]). lia. Qed.

(** The end of a program: [CleanPageMaps] and [FreePML4] give back what its space
    took. *)
Lemma space_given_back pml4_table s0 s lev t : task_state s0 s lev → ctx_cr3 (context_ t) = cr3 s →
  ∃ s1 s2 t2, CleanPageMaps s 0xffff800000000000 = Done (kSuccess, s1) ∧
    FreePML4 pml4_table s1 t = Done (kSuccess, s2, t2) ∧ alloc_ok (frames s2) ∧ cr3 s2 = pml4_table ∧
    (∀ f, used s2 f = used s0 f) ∧ ∀ a, used s0 (a / 4096) = true → rd s2 a = rd s0 a.
Proof.
  intros [Hsp Hu Hw] Ht. destruct (clean_space _ s (cr3 s) lev Hsp _ eq_refl upper_start) as (s1 & E1 & Hok1 & Hcr1 & Hu1 & Hm1).
  destruct (sp_root _ _ _ _ _ Hsp) as [Hr1 Hr2].
  assert (Hroot : used s1 (cr3 s / 4096) = true) by (apply Hu1; split; [by eapply (sp_used _ _ _ _ _ Hsp)|by right]).
  destruct (free_frame_spec (frames s1) (cr3 s / 4096) Hok1 (in_use_bound _ _ Hok1 Hroot)) as (fa & Ef & Hokf & Huf).
  assert (Hold : ∀ f, used s0 f = true → used s f = true ∧ lev !! f = None).
  { intros f. exact (sp_shared _ _ _ _ _ Hsp f). }
  eexists s1, (mkPS pml4_table (mem s1) fa), _. split; [exact E1|]. unfold FreePML4, FreePageMap. rewrite Ht.
  change kBytesPerFrame with 4096. unfold ResetCR3. cbn [frames mem cr3]. rewrite Ef. split; [reflexivity|]. split; [done|]. split; [done|]. split.
  - intros f. change (in_use fa f = used s0 f). rewrite Huf. apply Bool.eq_iff_eq_true.
    change (in_use (frames s1) f) with (used s1 f). rewrite andb_true_iff, negb_true_iff, Z.eqb_neq, Hu1, Hu. split.
    + intros (Hne & [Hf|Hf] & [Hn|Hn]); [done|done|rewrite Hn in Hf; by destruct Hf|done].
    + intros Hf. destruct (Hold f Hf) as [_ Hn]. split; [congruence|]. split; by left.
  - intros a Ha. change (rd s1 a = rd s0 a). rewrite Hm1 by by apply Hold. by apply Hw.
Qed.

(** ** A run *)

Lemma own_walk_page Sh s root lev va va' : task_space Sh s root lev → upper va → upper va' → va / 4096 = va' / 4096 →
  walk s 4 root va = walk s 4 root va'.
Proof.
  intros Hsp Hva Hva' Hp. assert (Hpart : Part 1 va = Part 1 va') by (rewrite !Part_prefix by lia; by rewrite Hp).
  apply option_eq. intros e. rewrite !(walk_root _ _ _ _ _ Hsp) by done. unfold leaf_at. by rewrite Hp, Hpart.
Qed.

(** The walks stay where the tables stay. *)
Lemma store_walk s0 s lev s' va : task_state s0 s lev → store s s' → upper va → walk s' 4 (cr3 s') va = walk s 4 (cr3 s) va.
Proof.
  intros Hts Hst Hva. pose proof (ts_space _ _ _ Hts) as Hsp. pose proof (ts_space _ _ _ (proj1 (store_task _ _ _ _ Hts Hst))) as Hsp'.
  assert (He : ∀ g q i, own_entry lev g 0 q i → entry s' g i = entry s g i).
  { destruct Hst as (va' & e & i' & x & Hva' & Hw & Hwr & Hi' & ->). intros g q i Hg.
    apply (walk_root _ _ _ _ _ Hsp va' _ Hva') in Hw as (h & Hh & -> & Hp).
    destruct (sp_down _ _ _ _ _ Hsp _ _ _ _ Hh Hp) as [[Hd _]|(_ & _ & _ & H)]; [|congruence].
    unfold entry. rewrite rd_wr, decide_False; [done|]. intros Heq. apply (f_equal (λ a, a / 4096)) in Heq.
    pose proof (own_entry_bound _ _ _ _ _ Hg) as Hi. rewrite (dest_slot _ i' (Pointer_aligned _) Hi'), slot_page in Heq by done.
    destruct Hg as [Hg _]. unfold entry in Hd. congruence. }
  apply option_eq. intros e. rewrite (walk_root _ _ _ _ _ Hsp), (walk_root _ _ _ _ _ Hsp') by done.
  split; intros (g & Hg & -> & Hp); exists g; (split; [done|]);
    [rewrite (He _ _ _ Hg) in Hp |- *|rewrite (He _ _ _ Hg)]; done.
Qed.

(** An address whose page the program may write. *)
Definition writable_at s va : Prop := upper va ∧ ∃ e, walk s 4 (cr3 s) va = Some e ∧ writable e = true.

Lemma vstore8_store s0 s lev va b s' : task_state s0 s lev → writable_at s va → vstore8 s va b = Done s' → store s s'.
Proof.
  intros Hts (Hva & e & Hw & Hwr). pose proof (ts_space _ _ _ Hts) as Hsp. unfold vstore8.
  rewrite translate_walk by first [lia|by eapply root_small]. rewrite Hw. cbn [fmap option_fmap option_map of_option mbind outcome_bind].
  set (x := set_field _ _ _ _). intros [= <-]. exists va, e, (va mod 4096 / 8), x. split; [done|]. split; [done|]. split; [done|].
  split; [dlia|]. f_equal. unfold slot. change kPageSize4K with 4096. pose proof (Pointer_aligned e). dlia.
Qed.

Lemma vstore_bytes_task s0 lev bytes : ∀ s va s', task_state s0 s lev →
  (∀ k, 0 ≤ k < Z.of_nat (length bytes) → writable_at s (va + k)) → vstore_bytes s va bytes = Done s' → task_state s0 s' lev ∧ cr3 s' = cr3 s.
Proof.
  induction bytes as [|b bytes IH]; intros s va s' Hts Hw; cbn [vstore_bytes length] in *; [by intros [= <-]|].
  intros (s1 & E1 & E)%bind_Done_inv. assert (Hst : store s s1).
  { apply (vstore8_store s0 s lev va b); [done| |done]. rewrite <- (Z.add_0_r va). apply Hw. lia. }
  destruct (store_task s0 s lev s1 Hts Hst) as [Hts1 <-]. apply (IH s1 (va + 1) s' Hts1); [|done]. intros k Hk.
  destruct (Hw (k + 1) ltac:(lia)) as [Hu He]. replace (va + (k + 1)) with (va + 1 + k) in * by lia.
  split; [done|]. by rewrite (store_walk s0 s lev s1 _ Hts Hst Hu).
Qed.

(** What a descriptor of a task loads: bytes of a file of the volume, or nothing for
    a terminal and a pipe ([None]). *)
Definition descriptor_Load (v : Volume) (d : option FatFD) (buf len offset : Z) s : outcome (Z * pstate A) :=
  bytes ← (match d with Some fd => fat_Load v fd len offset | None => mret [] end);
  s ← vstore_bytes s buf bytes;
  mret (Z.of_nat (length bytes), s).

Lemma read_loop_length v fuel : ∀ left cluster off bytes c' o', off < bytes_per_cluster v → 0 < bytes_per_cluster v →
  read_loop fuel v left cluster off = Done (bytes, c', o') → Z.of_nat (length bytes) ≤ Z.max 0 left.
Proof.
  induction fuel as [|fuel IH]; intros left cluster off bytes c' o' Hoff Hb; cbn [read_loop];
    (destruct (Z.leb_spec left 0); [intros [= <- <- <-]; simpl; lia|]); [done|]. cbv zeta.
  set (n := Z.min left (bytes_per_cluster v - off)). assert (Hn : 0 < n ≤ left) by lia.
  intros (bs & E1 & E)%bind_Done_inv. apply bind_Done_inv in E as ((c1 & o1) & E2 & E).
  apply bind_Done_inv in E as (((more & c2) & o2) & E3 & E). injection E as <- <- <-.
  assert (Hlen : Z.of_nat (length bs) = n).
  { unfold read_bytes in E1. destruct (in_image _ _ _); [|done]. injection E1 as <-. unfold get_bytes. rewrite length_fmap, length_seqZ. lia. }
  apply IH in E3; [rewrite length_app; lia| |done]. destruct (Z.eqb_spec (off + n) (bytes_per_cluster v)).
  - apply bind_Done_inv in E2 as (c & _ & E2). by injection E2 as <- <-.
  - injection E2 as <- <-. lia.
Qed.

Lemma fat_Load_length v fd len offset bytes : 0 < bytes_per_cluster v → fat_Load v fd len offset = Done bytes →
  Z.of_nat (length bytes) ≤ Z.max 0 len.
Proof.
  intros Hb. unfold fat_Load. intros ((off & c) & E & E')%bind_Done_inv. apply bind_Done_inv in E' as ((bs & fd') & E' & E2).
  injection E2 as <-. assert (Hoff : off < bytes_per_cluster v).
  { clear E'. revert E. generalize (transfer_fuel v offset), (FirstCluster v (fat_entry_ fd)). intros fuel. revert offset.
    induction fuel as [|fuel IH]; intros o c0; cbn [load_cluster];
      (destruct (Z.ltb_spec o (bytes_per_cluster v)); [intros [= <- _]; done|]); [done|].
    intros (c1 & _ & E)%bind_Done_inv. by eapply IH. }
  unfold fat_Read in E'. apply bind_Done_inv in E' as (((bs' & c') & o') & E' & E2). injection E2 as <- _.
  apply read_loop_length in E'; [|done|done]. lia.
Qed.

(** The error code of a page fault: bit 0 says whether the page is there, and a
    write to a page that is there faults because its entry is read-only. *)
Definition fault_code s (code va : Z) : Prop :=
  match walk s 4 (cr3 s) va with
  | Some e => Z.testbit code 0 = true ∧ (Z.testbit code 1 = true → writable e = false)
  | None => Z.testbit code 0 = false
  end.

(** One step of a program's run, as far as its memory goes: a store, pages for its
    stack and arguments where there were none, a page fault at an address of the
    upper half. *)
Inductive run_step s s' : Prop :=
| run_store : store s s' → run_step s s'
| run_pages addr n err : upper addr →
    (∀ va, upper va → addr / 4096 ≤ va / 4096 < addr / 4096 + n → walk s 4 (cr3 s) va = None) →
    SetupPageMaps s addr n true = Done (err, s') → run_step s s'
| run_fault v dpaging_begin dpaging_end maps files code va err : 0 < bytes_per_cluster v →
    upper va → fault_code s code va →
    HandlePageFault (descriptor_Load v) s dpaging_begin dpaging_end maps files code va = Done (err, s') → run_step s s'.

Lemma accessible_writable s l p va : (1 ≤ l)%nat → accessible true s l p va → ∃ e, walk s l p va = Some e ∧ writable e = true.
Proof.
  revert p. induction l as [|l IH]; intros p Hl; [lia|]. cbn [accessible walk]. intros (-> & _ & Hw & Ha).
  destruct l as [|l]; [eexists; split; [done|by apply Hw]|]. apply IH; [lia|done].
Qed.

(** The page of a page fault, if memory allows, can be written. *)
Lemma fault_page_writable s0 s lev va s' : task_state s0 s lev → upper va → walk s 4 (cr3 s) va = None →
  SetupPageMaps s (va / 4096 * 4096) 1 true = Done (kSuccess, s') →
  ∀ k, 0 ≤ k < 4096 → writable_at s' (va / 4096 * 4096 + k).
Proof.
  intros Hts Hva _ E k Hk. set (va' := va / 4096 * 4096 + k). pose proof (ts_space _ _ _ Hts) as Hsp.
  assert (Hva' : upper va') by (unfold upper in *; dlia). assert (Hp : va / 4096 * 4096 / 4096 = va' / 4096) by dlia.
  pose proof (upper_part va' 4 Hva' ltac:(lia)) as Hpart. unfold lowest in Hpart. simpl in Hpart.
  destruct (SetupPageMaps_page (λ _, False) s 256 (va / 4096 * 4096) va') as (err & s1 & E1 & Hext & Ha);
    [split; [exact (sp_alloc _ _ _ _ _ Hsp)|done]|apply (space_tree _ _ _ _ _ lev Hsp); tauto|lia|unfold upper in Hva; dlia|done|].
  rewrite E in E1. injection E1 as <- <-. split; [done|]. apply accessible_writable; [lia|by apply Ha].
Qed.

Lemma page_cache_task s0 s lev v d m va err s' : task_state s0 s lev → 0 < bytes_per_cluster v → upper va →
  walk s 4 (cr3 s) va = None → PreparePageCache (descriptor_Load v) s d m va = Done (err, s') →
  ∃ lev', task_state s0 s' lev' ∧ cr3 s' = cr3 s.
Proof.
  intros Hts Hb Hva Hw. unfold PreparePageCache. rewrite SetPart_offset by (unfold upper in Hva; lia).
  intros ((err1 & s1) & E1 & E)%bind_Done_inv.
  destruct (SetupPageMaps_task s0 s lev (va / 4096 * 4096) 1 err1 s1) as (lev1 & Hts1 & Hcr1);
    [done|unfold upper in *; dlia| |done|].
  { intros va' Hva' Hin. rewrite (own_walk_page _ s (cr3 s) lev va' va (ts_space _ _ _ Hts)); [done|done|done|dlia]. }
  destruct err1; try (injection E as _ <-; by exists lev1). apply bind_Done_inv in E as ((n & s2) & E2 & E). injection E as _ <-.
  unfold descriptor_Load in E2. apply bind_Done_inv in E2 as (bytes & Eb & E2). apply bind_Done_inv in E2 as (s3 & E3 & E2).
  injection E2 as _ <-. exists lev1. rewrite <- Hcr1. apply (vstore_bytes_task s0 lev1 bytes s1 (va / 4096 * 4096)); [done| |done].
  intros k Hk. apply (fault_page_writable s0 s lev va s1 Hts Hva Hw E1). split; [lia|].
  destruct d as [fd'|]; [apply fat_Load_length in Eb; [lia|done]|injection Eb as <-; simpl in Hk; lia].
Qed.

Lemma fault_task s0 s lev v b e maps files code va err s' : task_state s0 s lev → 0 < bytes_per_cluster v → upper va →
  fault_code s code va → HandlePageFault (descriptor_Load v) s b e maps files code va = Done (err, s') →
  ∃ lev', task_state s0 s' lev' ∧ cr3 s' = cr3 s.
Proof.
  intros Hts Hb Hva Hcode. pose proof (ts_space _ _ _ Hts) as Hsp. unfold HandlePageFault. rewrite !testbit_flag by lia.
  unfold fault_code in Hcode. destruct (walk s 4 (cr3 s) va) as [x|] eqn:Hw.
  - destruct Hcode as [-> Hro]. destruct (Z.testbit code 1), (Z.testbit code 2); cbn [andb]; try (intros [= _ <-]; by exists lev).
    by apply (CopyOnePage_task s0 s lev va x); [..|apply Hro].
  - rewrite Hcode. cbn [andb].
    assert (Hnone : ∀ a, a / 4096 = va / 4096 → ∀ va', upper va' → a / 4096 ≤ va' / 4096 < a / 4096 + 1 → walk s 4 (cr3 s) va' = None).
    { intros a Ha va' Hva' Hin. rewrite (own_walk_page _ _ _ _ va' va Hsp); [done|done|done|lia]. }
    destruct (_ && _); [apply (SetupPageMaps_task s0 s lev); [done|done|by apply Hnone]|].
    destruct (FindFileMapping maps va) as [m|]; [|intros [= _ <-]; by exists lev].
    destruct (fd m <? 0); [done|]. intros (d & _ & E)%bind_Done_inv. apply bind_Done_inv in E as (d' & _ & E).
    by apply (page_cache_task s0 s lev v d' m va err).
Qed.

(** A run keeps the task's space. *)
Lemma run_task s0 s s' : rtc run_step s s' → ∀ lev, task_state s0 s lev → ∃ lev', task_state s0 s' lev' ∧ cr3 s' = cr3 s.
Proof.
  induction 1 as [s|s s1 s2 Hstep _ IH]; intros lev Hts; [by exists lev|].
  assert (∃ lev1, task_state s0 s1 lev1 ∧ cr3 s1 = cr3 s) as (lev1 & Hts1 & <-).
  { destruct Hstep as [Hst|addr n err Hu Hnone E|v b e maps files code va err Hb Hva Hcode E].
    - exists lev. by apply (store_task s0 s).
    - by apply (SetupPageMaps_task s0 s lev addr n err).
    - by apply (fault_task s0 s lev v b e maps files code va err). }
  by apply (IH lev1).
Qed.

(** ** The start of a program *)

(** The last steps of [LoadApp] give the task its space. *)
Lemma own_page_map_task s t root levm r s1 t1 err s' : current_ok s → app_tables s root levm →
  SetupPML4 s t = Done (r, s1, t1) → error r = kSuccess → CopyPageMaps 4 256 s1 (value r) root = Done (err, s') →
  ∃ lev, task_state s s' lev ∧ cr3 s' = ctx_cr3 (context_ t1).
Proof.
  intros (Hok & Hu & Hal) Hm E Her Ec. destruct (SetupPML4_spec s t Hok Hu Hal) as (r' & s1' & t1' & E' & Hok1 & Hm1 & Ha1 & Hr).
  rewrite E' in E. injection E as -> -> ->. destruct Hr as [(_ & Hcr & Ht & g & Hv & Hgu & Hus1 & _ & Hz)|Hr]; [|congruence].
  assert (Hgu1 : used s1 g = true) by (by rewrite Hus1, Z.eqb_refl).
  set (Sh := λ f, used s f = true). pose proof (fresh_space true Sh s1 g Hok1 Hgu1) as Hsp1.
  specialize (Hsp1 ltac:(intros h Hh; split; [by apply Hm1|unfold Sh in Hh; congruence]) Hz). rewrite Hv in Ec.
  assert (Hlev : ∀ h x, levm !! h = Some x → Sh h) by (intros h x Hh; by eapply (sp_used _ _ _ _ _ Hm)).
  assert (Hm' : app_tables s1 root levm).
  { apply (space_agree _ _ s); [done|done| |done]. intros h l q a Hh <-. by eapply Ha1, Hlev. }
  destruct (sp_root _ _ _ _ _ Hm) as [Hr1 Hr2]. replace root with (4096 * (root / 4096)) in Ec by dlia.
  destruct (CopyPageMaps_copies Sh root levm Hlev 4 ltac:(lia) 256 ltac:(lia) s1 (4096 * g) _ g (root / 4096) upper_prefix err s' Hsp1 Hm')
    as (lev & Hsp & G & _); [apply lookup_singleton_eq|exact Hr2|done|exact Hz|exact Ec|].
  pose proof (gr_cr3 _ _ _ _ G) as Hcr'. exists lev. split; [|congruence]. split.
  - rewrite Hcr', Hcr, Hv. exact Hsp.
  - intros h. rewrite (gr_used _ _ _ _ G), Hus1, orb_true_iff, Z.eqb_eq.
    assert (Hg' : is_Some (lev !! g)) by (eexists; eapply lookup_weaken; [|apply G]; apply lookup_singleton_eq).
    split; [|tauto]. by intros [[->|?]|?]; [right|left|right].
  - intros a Ha. rewrite <- Ha1 by done. by apply (shared_words Sh s1 (4096 * g) _ s' lev a Hsp1 G).
Qed.

(** What stays in use behind a first start: the tables and pages of the image that
    [app_loads] keeps. *)
Definition keeps_image s s2 (apps apps' : gmap Z AppLoadInfo) (e : Z) : Prop :=
  match apps !! e with
  | Some _ => ∀ f, used s2 f = used s f
  | None => ∃ a lev, apps' !! e = Some a ∧ app_tables s2 (app_pml4 a) lev ∧
      ∀ f, used s2 f = true ↔ used s f = true ∨ is_Some (lev !! f)
  end.

Lemma LoadApp_task v apps e s t f ps entry r apps' s' t' : current_ok s → app_loads_ok v s apps →
  executable_file v e f ps entry → LoadApp v apps e s t = Done (r, apps', s', t') → error r = kSuccess →
  ∃ s2 lev, quiet s s2 ∧ app_loads_ok v s2 apps' ∧ keeps_image s s2 apps apps' e ∧
    task_state s2 s' lev ∧ cr3 s' = ctx_cr3 (context_ t').
Proof.
  intros Hcur Hap Hfile E Her. pose proof Hfile as ((bytes & Hread & Hf) & Hmagic & Hex & Hentry). unfold keeps_image.
  unfold LoadApp in E. destruct (apps !! e) as [a|] eqn:Ea.
  - destruct (Hap e a Ea) as (f' & ps' & _ & _ & levm & Hm & _).
    apply bind_Done_inv in E as (((r1 & s1) & t1) & E1 & E). cbv beta iota in E.
    destruct (error_bool (error r1)) eqn:Hr1; [injection E as <- <- <- <-; cbn [error] in Her; by rewrite Her in Hr1|].
    apply bind_Done_inv in E as ((err & s3) & Ec & E). injection E as <- <- <- <-.
    assert (Hs1 : error r1 = kSuccess) by (by destruct (error r1)).
    destruct (own_page_map_task s t (app_pml4 a) levm r1 s1 t1 err s3 Hcur Hm E1 Hs1 Ec) as (lev & Hts & Hcr).
    exists s, lev. split; [split; [apply Hcur|]; split; [by intros ?|done]|]. done.
  - assert (Hnomem : error_bool kNoEnoughMemory = true) by done. assert (Hsucc : error_bool kSuccess = false) by done.
    destruct (load_fresh s t f ps Hcur Hex) as (r1 & s1 & t1 & E1 & H1). rewrite E1 in E. cbn [mbind outcome_bind] in E.
    destruct H1 as [(Hr1 & _)|(Hr1 & n & s2 & E2 & Hn & Hq & Hs)]; rewrite Hr1 in E; [injection E as <- _ _ _; done|].
    rewrite Hsucc, Hread in E. cbn [mbind outcome_bind] in E. rewrite <- Hf in E.
    destruct (4 <=? _) in E; [|done]. cbn [mbind outcome_bind mret outcome_ret] in E.
    rewrite Hmagic, E2 in E. rewrite bool_decide_eq_true_2 in E by done. cbn [negb mbind outcome_bind] in E.
    destruct Hn as [Hn|Hn]; rewrite Hn in E; [|injection E as <- _ _ _; done]. rewrite Hsucc, Hentry in E. cbn [mbind outcome_bind] in E.
    destruct (Hs Hn) as (Hend & Hcr2 & Hcur2 & (levm & Hm & Him & Hu2) & _).
    set (app := mkApp (value n) entry (value r1)) in *.
    apply bind_Done_inv in E as (((r3 & s3) & t3) & E3 & E). cbv beta iota in E.
    destruct (error_bool (error r3)) eqn:Hr3; [injection E as <- <- <- <-; cbn [error] in Her; by rewrite Her in Hr3|].
    apply bind_Done_inv in E as ((err & s4) & Ec & E). injection E as <- <- <- <-.
    assert (Hs3 : error r3 = kSuccess) by (by destruct (error r3)).
    destruct (own_page_map_task s2 t1 (value r1) levm r3 s3 t3 err s4 Hcur2 Hm E3 Hs3 Ec) as (lev & Hts & Hcr).
    exists s2, lev. split; [done|]. split; [apply (insert_loads v s s2 apps e app f ps Hap Hq Hfile Hend); by exists levm|].
    split; [|done]. exists app, levm. by rewrite lookup_insert_eq.
Qed.
End task.
End TaskFacts.
Import TaskFacts.

(** ** Two defects *)

(** The write protection of a shared page does not bind the kernel: a system call
    that stores into such a page changes the image in [app_loads] with it. *)
Lemma kernel_store_shared :
  match LoadApp elf_volume ∅ 192 sample (new_Task 1) with
  | Done (_, apps, s, _) =>
      match apps !! 192, vstore8 s 0xffff800000002000 77 with
      | Some a, Done s' =>
          (vload8 (ResetCR3 (app_pml4 a) s) 0xffff800000002000, vload8 (ResetCR3 (app_pml4 a) s') 0xffff800000002000)
      | _, _ => (Undef, Undef)
      end
  | _ => (Undef, Undef)
  end = (Done 33, Done 77).
Proof. vm_compute. reflexivity. Qed.

(** A program that writes to an address of the kernel, which is mapped by large
    pages: the fault is treated as one on a shared page, succeeds, and stores a page
    table entry into the large page itself, here over the word at the physical
    address 8; the mapping stays as it was, so that the program faults again. *)
Definition kernel_tables : pstate BitmapMemoryManager :=
  mkPS (4096 * 1) (list_to_map [(slot 4096 0, 4096 * 2 + 3); (slot 8192 0, 4096 * 3 + 3); (slot 12288 0, 0x083); (8, 0)])
    (mkMM {[ 0 := 0xe ]} 1 100).

Lemma kernel_write_fault :
  match HandlePageFault (descriptor_Load elf_volume) kernel_tables 0 0 [] [] 7 0x1000 with
  | Done (err, s) => bool_decide (err = kSuccess) && bool_decide (rd s 8 = 4096 * 4 + 2) &&
      bool_decide (translate (mem s) 4 (cr3 s) 0x1000 = Some 0x1000)
  | _ => false
  end = true.
Proof. vm_compute. reflexivity. Qed.

(** ** Properties *)

Lemma keeps_image_agree {A : Type} `{FA : FrameAllocator A} {FL : FrameAllocatorLaws A} (s s2 s4 : pstate A) apps apps' e :
  alloc_ok (frames s4) → (∀ f, used s4 f = used s2 f) → (∀ a, used s2 (a / 4096) = true → rd s4 a = rd s2 a) →
  keeps_image s s2 apps apps' e → keeps_image s s4 apps apps' e.
Proof.
  intros Hok Hu Ha. unfold keeps_image. destruct (apps !! e); [intros H f; by rewrite Hu|].
  intros (a & lev & Hap & Hm & H). exists a, lev. split; [done|]. split; [|intros f; by rewrite Hu].
  apply (space_agree _ _ s2); [done|intros f; by rewrite Hu| |done].
  intros f l q x Hf <-. apply Ha. by eapply (sp_used _ _ _ _ _ Hm).
Qed.


(** A run: a write to a shared page, which gets a private copy, the store itself, and
    a page from demand paging. *)
Definition demo_va : Z := 0xffff800000002000.
Definition demo_fault (s : pstate BitmapMemoryManager) (code va : Z) : outcome (Code * pstate BitmapMemoryManager) :=
  HandlePageFault (descriptor_Load elf_volume) s 0xffff800000003000 0xffff800000005000 [] [] code va.

Definition demo_store (s : pstate BitmapMemoryManager) (e : Z) : pstate BitmapMemoryManager := wr s (slot (Pointer e) 0) 77.

Definition demo_check : bool :=
  match LoadApp elf_volume ∅ 192 sample (new_Task 1) with
  | Done (r, _, s1, _) =>
      bool_decide (error r = kSuccess) && bool_decide (vload8 s1 demo_va = Done 33) &&
      match walk s1 4 (cr3 s1) demo_va, demo_fault s1 7 demo_va with
      | Some e1, Done (_, s2) =>
          negb (writable e1) &&
          match walk s2 4 (cr3 s2) demo_va with
          | Some e2 =>
              let s3 := demo_store s2 e2 in
              writable e2 && bool_decide (walk s3 4 (cr3 s3) 0xffff800000003008 = None) &&
              match demo_fault s3 6 0xffff800000003008 with
              | Done (_, s4) => bool_decide (vload8 s4 demo_va = Done 77)
              | _ => false
              end
          | None => false
          end
      | _, _ => false
      end
  | _ => false
  end.

Lemma demo_check_true : demo_check = true.
Proof. vm_compute. reflexivity. Qed.

Lemma demo_fault_step s code va err s' : upper va → fault_code s code va → demo_fault s code va = Done (err, s') → run_step s s'.
Proof.
  intros Hva Hc E. apply (run_fault s s' elf_volume 0xffff800000003000 0xffff800000005000 [] [] code va err); [vm_compute; reflexivity|done|done|].
  exact E.
Qed.

Lemma demo_run : ∃ r apps' s1 t1 s2, LoadApp elf_volume ∅ 192 sample (new_Task 1) = Done (r, apps', s1, t1) ∧
  error r = kSuccess ∧ rtc run_step s1 s2 ∧ vload8 s1 demo_va = Done 33 ∧ vload8 s2 demo_va = Done 77.
Proof.
  pose proof demo_check_true as Hr. unfold demo_check in Hr.
  assert (Hup : upper demo_va ∧ upper 0xffff800000003008) by (unfold upper, demo_va; lia).
  destruct (LoadApp _ _ _ _ _) as [[[[r apps'] s1] t1]| |] eqn:E; [|discriminate..].
  apply andb_true_iff in Hr as [[Her%bool_decide_eq_true Hl1%bool_decide_eq_true]%andb_true_iff Hr].
  destruct (walk s1 4 (cr3 s1) demo_va) as [e1|] eqn:Hw1; [|discriminate].
  destruct (demo_fault s1 7 demo_va) as [[err2 s2]| |] eqn:E2; [|discriminate..].
  apply andb_true_iff in Hr as [Hro%negb_true_iff Hr].
  destruct (walk s2 4 (cr3 s2) demo_va) as [e2|] eqn:Hw2; [|discriminate].
  apply andb_true_iff in Hr as [[Hwr Hnone%bool_decide_eq_true]%andb_true_iff Hr].
  destruct (demo_fault (demo_store s2 e2) 6 _) as [[err4 s4]| |] eqn:E4; [|discriminate..].
  apply bool_decide_eq_true in Hr. exists r, apps', s1, t1, s4. split; [reflexivity|]. split; [exact Her|]. split; [|split; [exact Hl1|exact Hr]].
  apply rtc_l with s2; [|apply rtc_l with (demo_store s2 e2); [|apply rtc_once]].
  - refine (demo_fault_step _ _ _ _ _ (proj1 Hup) _ E2). unfold fault_code. rewrite Hw1. split; [reflexivity|]. intros _. exact Hro.
  - apply run_store. exists demo_va, e2, 0, 77. split; [exact (proj1 Hup)|]. split; [exact Hw2|]. split; [exact Hwr|]. split; [lia|reflexivity].
  - refine (demo_fault_step _ _ _ _ _ (proj2 Hup) _ E4). unfold fault_code. rewrite Hnone. reflexivity.
Qed.

