(* ===== verification/Acpi.v ===== *)
(** ACPI tables and the PM timer, src/kernel/acpi.{hpp,cpp}, and the calibration of
    the LAPIC timer against it, [InitializeLAPICTimer] of src/kernel/timer.cpp. *)
From S2P Require Import Prelude Task Timer Interrupt Pci Xhci AppLoad.

(** ** Tables in memory *)

Section tables.
(** The byte at an address; the firmware's tables do not change. *)
Context (mem : Z → Z).

Definition bytes_at (a n : Z) : list Z := (λ i, mem (a + i)) <$> seqZ 0 n.
Definition number_at (a n : Z) : Z := little_endian (bytes_at a n).

Definition SumBytes (data bytes : Z) : Z := foldl (λ sum b, u8 (sum + b)) 0 (bytes_at data bytes).

(** [strncmp(s, t, n) == 0] *)
Fixpoint strncmp_eq (s t : list Z) (n : nat) : bool :=
  match n, s, t with
  | O, _, _ => true
  | S n, c :: s, e :: t => if c =? e then if c =? 0 then true else strncmp_eq s t n else false
  | _, _, _ => false
  end.

(** [struct RSDP] at [a] *)
Definition rsdp_signature (a : Z) : list Z := bytes_at a 8.
Definition rsdp_revision (a : Z) : Z := number_at (a + 15) 1.
Definition xsdt_address (a : Z) : Z := number_at (a + 24) 8.

Definition RSDP_IsValid (a : Z) : bool :=
  if negb (strncmp_eq (rsdp_signature a) (chars "RSD PTR " ++ [0]) 8) then false
  else if negb (rsdp_revision a =? 2) then false
  else if negb (SumBytes a 20 =? 0) then false
  else if negb (SumBytes a 36 =? 0) then false
  else true.

(** [struct DescriptionHeader] at [a] *)
Definition signature (a : Z) : list Z := bytes_at a 4.
Definition table_length (a : Z) : Z := number_at (a + 4) 4.
Definition sizeof_DescriptionHeader : Z := 36.

Definition Header_IsValid (a : Z) (expected_signature : list Z) : bool :=
  if negb (strncmp_eq (signature a) (expected_signature ++ [0]) 4) then false
  else if negb (SumBytes a (table_length a) =? 0) then false
  else true.

(** [struct XSDT] at [a] *)
Definition XSDT_entry (a i : Z) : Z := number_at (a + sizeof_DescriptionHeader + 8 * i) 8.
Definition XSDT_Count (a : Z) : Z := u64 (table_length a - sizeof_DescriptionHeader) / 8.

(** [struct FADT] at [a] *)
Definition pm_tmr_blk (a : Z) : Z := number_at (a + 76) 4.
Definition fadt_flags (a : Z) : Z := number_at (a + 112) 4.

(** The search of [Initialize] from entry [i]; [int] overflows after 2^31 - 1. *)
Fixpoint find_fadt (fuel : nat) (xsdt i : Z) : outcome (option Z) :=
  match fuel with
  | O => NoFuel
  | S fuel' =>
      if i <? XSDT_Count xsdt then
        let entry := XSDT_entry xsdt i in
        if Header_IsValid entry (chars "FACP") then mret (Some entry)
        else if i =? 2 ^ 31 - 1 then Undef
        else find_fadt fuel' xsdt (i + 1)
      else mret None
  end.

(** [Initialize]: the new value of [fadt]; [None] is [exit(1)]. *)
Definition acpi_Initialize (fuel : nat) (rsdp : Z) : outcome (option Z) :=
  if negb (RSDP_IsValid rsdp) then mret None
  else
    let xsdt := xsdt_address rsdp in
    if negb (Header_IsValid xsdt (chars "XSDT")) then mret None
    else find_fadt fuel xsdt 0.
End tables.

(** ** The PM timer *)

Definition kPMTimerFreq : Z := 3579545.

Section wait.
Context {H : Type} `{IoPorts H}.

(** [while (go(IoIn32(port)));] *)
Fixpoint poll_port (fuel : nat) (port : Z) (go : Z → bool) (h : H) : outcome H :=
  match fuel with
  | O => NoFuel
  | S fuel' => let '(v, h) := IoIn32 h port in if go v then poll_port fuel' port go h else mret h
  end.

(** The end of the wait on the counter, which has 32 or 24 bits. *)
Definition wait_end (pm_timer_32 : bool) (start msec : Z) : Z :=
  let e := u32 (start + u64 (kPMTimerFreq * msec) / 1000) in
  if pm_timer_32 then e else Z.land e 0x00ffffff.

Definition WaitMilliseconds (fuel : nat) (mem : Z → Z) (fadt msec : Z) (h : H) : outcome H :=
  let port := u16 (pm_tmr_blk mem fadt) in
  let pm_timer_32 := Z.testbit (fadt_flags mem fadt) 8 in
  let '(start, h) := IoIn32 h port in
  let e := wait_end pm_timer_32 start msec in
  h ← (if e <? start then poll_port fuel port (λ v, start <=? v) h else mret h);
  poll_port fuel port (λ v, v <? e) h.

(** ** The LAPIC timer *)
Context `{Machine32 H}.

Definition kCountMax : Z := 0xffffffff.
Definition lvt_timer : Z := 0xfee00320.
Definition initial_count : Z := 0xfee00380.
Definition current_count : Z := 0xfee00390.
Definition divide_config : Z := 0xfee003e0.

Definition StartLAPICTimer (h : H) : H := store32 h initial_count kCountMax.
Definition LAPICTimerElapsed (h : H) : Z * H := let '(c, h) := load32 h current_count in (u32 (kCountMax - c), h).
Definition StopLAPICTimer (h : H) : H := store32 h initial_count 0.

(** [InitializeLAPICTimer]: [lapic_timer_freq]. *)
Definition InitializeLAPICTimer (fuel : nat) (mem : Z → Z) (fadt : Z) (h : H) : outcome (Z * H) :=
  let h := store32 h divide_config 11 in
  let h := store32 h lvt_timer (Z.shiftl 1 16) in
  let h := StartLAPICTimer h in
  h ← WaitMilliseconds fuel mem fadt 1000 h;
  let '(elapsed, h) := LAPICTimerElapsed h in
  let h := StopLAPICTimer h in
  let h := store32 h divide_config 11 in
  let h := store32 h lvt_timer (Z.lor (Z.shiftl 2 16) kLAPICTimer) in
  mret (elapsed, store32 h initial_count (elapsed / kTimerFreq)).
End wait.

(** ** What makes a table valid *)
Module TableFacts.
Section facts.
Context (mem : Z → Z).
Hypothesis Hmem : ∀ a, 0 ≤ mem a < 256.

Definition sum (l : list Z) : Z := foldr Z.add 0 l.

(** The [n] bytes at [a] add up to a multiple of 256. *)
Definition checksum_ok (a n : Z) : Prop := sum (bytes_at mem a n) mod 256 = 0.

Definition valid_table (sig : string) (a : Z) : Prop :=
  signature mem a = chars sig ∧ checksum_ok a (table_length mem a).

Definition valid_rsdp (a : Z) : Prop :=
  rsdp_signature mem a = chars "RSD PTR " ∧ rsdp_revision mem a = 2 ∧ checksum_ok a 20 ∧ checksum_ok a 36.

#[export] Instance checksum_ok_dec a n : Decision (checksum_ok a n).
Proof using Type. unfold checksum_ok. apply _. Defined.
#[export] Instance valid_table_dec sig a : Decision (valid_table sig a).
Proof using Type. unfold valid_table. apply _. Defined.
#[export] Instance valid_rsdp_dec a : Decision (valid_rsdp a).
Proof using Type. unfold valid_rsdp. apply _. Defined.

(** The tables that the XSDT lists. *)
Definition entries (xsdt : Z) : list Z := XSDT_entry mem xsdt <$> seqZ 0 ((table_length mem xsdt - 36) / 8).

Lemma SumBytes_sum a n : SumBytes mem a n = u8 (sum (bytes_at mem a n)).
Proof using Type.
  unfold SumBytes. change 0 with (u8 0) at 1. rewrite <- (Z.add_0_l (sum _)). generalize 0 as s.
  induction (bytes_at mem a n) as [|b l IH]; intros s; cbn [foldl]; [by rewrite Z.add_0_r|].
  replace (u8 (u8 s + b)) with (u8 (s + b)) by (unfold wrap; by rewrite Zplus_mod_idemp_l).
  rewrite IH. simpl. f_equal. unfold sum. lia.
Qed.

Lemma SumBytes_zero a n : (SumBytes mem a n =? 0) = bool_decide (checksum_ok a n).
Proof using Type.
  rewrite SumBytes_sum. unfold checksum_ok, wrap. change (2 ^ 8) with 256.
  destruct (Z.eqb_spec (sum (bytes_at mem a n) mod 256) 0); [by rewrite bool_decide_true|by rewrite bool_decide_false].
Qed.

Lemma strncmp_eq_spec s t : length s = length t → 0 ∉ t →
  strncmp_eq s (t ++ [0]) (length t) = bool_decide (s = t).
Proof using Type.
  revert s. induction t as [|e t IH]; intros s Hl Ht; destruct s as [|c s]; try done.
  cbn [length app strncmp_eq]. apply not_elem_of_cons in Ht as [He Ht].
  destruct (Z.eqb_spec c e) as [->|Hne].
  - destruct (Z.eqb_spec e 0); [done|]. rewrite IH by (simpl in Hl; congruence || lia).
    apply bool_decide_ext. split; [by intros ->|congruence].
  - rewrite bool_decide_false; [done|congruence].
Qed.

Lemma length_bytes_at a n : 0 ≤ n → length (bytes_at mem a n) = Z.to_nat n.
Proof using Type. intros Hn. unfold bytes_at. by rewrite length_fmap, length_seqZ. Qed.

Lemma Header_IsValid_spec a sig : length (chars sig) = 4%nat → 0 ∉ chars sig →
  Header_IsValid mem a (chars sig) = bool_decide (valid_table sig a).
Proof using Type.
  intros Hl H0. unfold Header_IsValid. rewrite <- Hl.
  rewrite strncmp_eq_spec by (try done; unfold signature; by rewrite length_bytes_at, Hl by lia).
  rewrite SumBytes_zero. unfold valid_table. repeat case_bool_decide; tauto.
Qed.

Lemma RSDP_IsValid_spec a : RSDP_IsValid mem a = bool_decide (valid_rsdp a).
Proof using Type.
  unfold RSDP_IsValid. change 8%nat with (length (chars "RSD PTR ")). rewrite (strncmp_eq_spec (rsdp_signature mem a) (chars "RSD PTR ")).
  2: { unfold rsdp_signature. by rewrite length_bytes_at by lia. }
  2: { by apply (bool_decide_unpack _). }
  rewrite !SumBytes_zero. unfold valid_rsdp.
  destruct (Z.eqb_spec (rsdp_revision mem a) 2); repeat case_bool_decide; tauto.
Qed.

Lemma table_length_bound a : 0 ≤ table_length mem a < 2 ^ 32.
Proof using Hmem.
  unfold table_length, number_at, bytes_at. change (seqZ 0 4) with [0; 1; 2; 3]. cbn [fmap list_fmap little_endian].
  pose proof (Hmem (a + 4 + 0)). pose proof (Hmem (a + 4 + 1)). pose proof (Hmem (a + 4 + 2)). pose proof (Hmem (a + 4 + 3)). lia.
Qed.

(** The number of entries, for a table at least as long as its header. *)
Lemma XSDT_Count_spec a : 36 ≤ table_length mem a →
  XSDT_Count mem a = (table_length mem a - 36) / 8 ∧ 0 ≤ XSDT_Count mem a < 2 ^ 29.
Proof using Hmem.
  intros Hl. pose proof (table_length_bound a). unfold XSDT_Count, sizeof_DescriptionHeader. rewrite wrap_small by lia.
  split; [done|]. split; [apply Z.div_pos; lia|apply Z.div_lt_upper_bound; lia].
Qed.

Lemma find_fadt_spec xsdt : 36 ≤ table_length mem xsdt → ∀ fuel i, 0 ≤ i ≤ XSDT_Count mem xsdt →
  (Z.to_nat (XSDT_Count mem xsdt - i) < fuel)%nat →
  find_fadt mem fuel xsdt i =
    Done (head (filter (valid_table "FACP") (XSDT_entry mem xsdt <$> seqZ i (XSDT_Count mem xsdt - i)))).
Proof using Hmem.
  intros Hl. destruct (XSDT_Count_spec xsdt Hl) as [_ Hc]. set (n := XSDT_Count mem xsdt) in *.
  induction fuel as [|fuel IH]; intros i Hi Hf; [lia|]. cbn [find_fadt]. fold n. destruct (Z.ltb_spec i n).
  - rewrite seqZ_cons by lia. rewrite fmap_cons, filter_cons. rewrite (Header_IsValid_spec _ "FACP");
      [|done|by apply (bool_decide_unpack _)].
    case_bool_decide; [by rewrite decide_True|]. rewrite decide_False by done.
    destruct (Z.eqb_spec i (2 ^ 31 - 1)); [lia|]. rewrite IH by lia. do 4 f_equal; f_equal; lia.
  - by rewrite seqZ_nil by lia.
Qed.
End facts.
End TableFacts.

(** ** A counter that runs *)

(** The PM timer behind [port]: reading gives the ticks so far modulo [M], and from
    one reading to the next at least one and at most [gap] ticks pass. *)
Class PmTimer (H : Type) `{IoPorts H} (port M gap : Z) := {
  now : H → Z;
  read_now h : ∃ h', IoIn32 h port = (now h mod M, h') ∧ now h < now h' ≤ now h + gap;
}.

Module WaitFacts.
Section wait.
Context {H : Type} `{IoPorts H} {port M gap : Z} `{!PmTimer H port M gap}.

(** Polling until the counter reaches [E], when it then shows the end for [W] ticks. *)
Lemma poll_until E W go fuel h : gap ≤ W → now h < E + W →
  (∀ t, now h ≤ t < E → go (t mod M) = true) → (∀ t, E ≤ t < E + W → go (t mod M) = false) →
  (Z.to_nat (E - now h) < fuel)%nat →
  ∃ h', poll_port fuel port go h = Done h' ∧ E < now h' < E + W + gap.
Proof.
  intros HW. revert h. induction fuel as [|fuel IH]; intros h HT Hgo Hstop Hf; [lia|]. cbn [poll_port].
  destruct (read_now h) as (h1 & -> & Hh1). destruct (decide (now h < E)).
  - rewrite Hgo by lia. apply IH; [lia| |done|lia]. intros t Ht. apply Hgo. lia.
  - rewrite Hstop by lia. exists h1. split; [done|lia].
Qed.

Lemma mod_at T0 t k : 0 < M → k * M ≤ T0 mod M + (t - T0) < (k + 1) * M → t mod M = T0 mod M + (t - T0) - k * M.
Proof.
  intros HM Hk. pose proof (Z.div_mod T0 M ltac:(lia)). symmetry. apply (Z.mod_unique_pos _ _ (T0 / M + k)); [lia|nia].
Qed.

(** The two loops of the wait for [n] ticks from the reading at [T0]. *)
Lemma two_polls n T0 h fuel : 0 < M → 0 < n → n + 2 * gap ≤ M → T0 < now h ≤ T0 + gap →
  (T0 mod M + n < M → T0 mod M + n + gap ≤ M) → (Z.to_nat n < fuel)%nat →
  let e := (T0 mod M + n) mod M in
  ∃ h', (h ← (if e <? T0 mod M then poll_port fuel port (λ v, T0 mod M <=? v) h else mret h);
         poll_port fuel port (λ v, v <? e) h) = Done h' ∧ T0 + n < now h' < T0 + n + 3 * gap.
Proof.
  intros HM Hn Hgap HT Hend Hf e. pose proof (Z.mod_pos_bound T0 M HM) as Hs. set (s := T0 mod M) in *.
  destruct (Z.lt_ge_cases (s + n) M) as [Hlt|Hge].
  - unfold e. rewrite (Z.mod_small (s + n)) by lia. destruct (Z.ltb_spec (s + n) s); [lia|]. cbn [mbind outcome_bind].
    destruct (poll_until (T0 + n) gap (λ v, v <? s + n) fuel h) as (h' & E & Hh'); [lia|lia|..|lia|].
    + intros t Ht. rewrite (mod_at T0 t 0) by (fold s; lia). fold s. bool_cases; [done|lia].
    + intros t Ht. rewrite (mod_at T0 t 0) by (fold s; lia). fold s. bool_cases; [lia|done].
    + exists h'. split; [exact E|lia].
  - assert (He : e = s + n - M).
    { unfold e. symmetry. apply (Z.mod_unique_pos _ _ 1); lia. }
    rewrite He. destruct (Z.ltb_spec (s + n - M) s); [|lia].
    destruct (poll_until (T0 + (M - s)) gap (λ v, s <=? v) fuel h) as (h1 & -> & Hh1); [lia|lia|..|lia|].
    + intros t Ht. rewrite (mod_at T0 t 0) by (fold s; lia). fold s. bool_cases; [done|lia].
    + intros t Ht. rewrite (mod_at T0 t 1) by (fold s; lia). fold s. bool_cases; [lia|done].
    + cbn [mbind outcome_bind].
      destruct (poll_until (T0 + n) (2 * gap) (λ v, v <? s + n - M) fuel h1) as (h' & E & Hh'); [lia|lia|..|lia|].
      * intros t Ht. rewrite (mod_at T0 t 1) by (fold s; lia). fold s. bool_cases; [done|lia].
      * intros t Ht. rewrite (mod_at T0 t 1) by (fold s; lia). fold s. bool_cases; [lia|done].
      * exists h'. split; [exact E|lia].
Qed.
End wait.

(** The end of the wait, modulo the width of the counter. *)
Lemma wait_end_mod b start msec : 0 ≤ kPMTimerFreq * msec < 2 ^ 64 →
  wait_end b start msec = (start + kPMTimerFreq * msec / 1000) mod (if b then 2 ^ 32 else 2 ^ 24).
Proof.
  intros Hm. unfold wait_end. rewrite (wrap_small 64) by done. destruct b; [done|]. unfold wrap.
  change 0x00ffffff with (Z.ones 24). rewrite Z.land_ones by lia.
  apply Z.mod_mod_divide. by exists 256.
Qed.
End WaitFacts.

Import TableFacts WaitFacts.

(** ** Properties *)

(** ACPI tables
    With a valid root pointer and a valid XSDT at least as long as a header,
    [Initialize] finds the first valid FADT among the tables the XSDT lists, and
    exits when there is none or when one of the two is not valid.  Valid means: the
    signature is right and the bytes add up to a multiple of 256. *)
Theorem acpi_Initialize_finds (mem : Z → Z) (rsdp : Z) (fuel : nat)
    (Hmem : ∀ a, 0 ≤ mem a < 256) (Hlen : 36 ≤ table_length mem (xsdt_address mem rsdp))
    (Hfuel : (Z.to_nat (XSDT_Count mem (xsdt_address mem rsdp)) < fuel)%nat) :
  acpi_Initialize mem fuel rsdp =
    Done (if decide (valid_rsdp mem rsdp ∧ valid_table mem "XSDT" (xsdt_address mem rsdp))
          then head (filter (valid_table mem "FACP") (entries mem (xsdt_address mem rsdp))) else None).
Proof.
  unfold acpi_Initialize. rewrite RSDP_IsValid_spec, (Header_IsValid_spec _ _ "XSDT") by (done || by apply (bool_decide_unpack _)).
  destruct (decide (valid_rsdp mem rsdp)) as [Hr|Hr].
  2: { rewrite bool_decide_false by done. by rewrite decide_False by tauto. }
  rewrite bool_decide_true by done. destruct (decide (valid_table mem "XSDT" (xsdt_address mem rsdp))) as [Hx|Hx].
  2: { rewrite bool_decide_false by done. by rewrite decide_False by tauto. }
  rewrite bool_decide_true by done. rewrite decide_True by done. cbn [negb].
  destruct (XSDT_Count_spec mem Hmem _ Hlen) as [Hc Hb].
  rewrite find_fadt_spec by (try done; lia). unfold entries. by rewrite Z.sub_0_r, Hc.
Qed.

(** C39 waiting
    [WaitMilliseconds] on a running PM timer of 24 or 32 bits returns, with or
    without a wrap of the counter, after at least the ticks of [msec] milliseconds
    and at most three readings more: provided the counter outlasts the wait and the
    reading does not jump over the counter's last values when the wait ends there. *)
Theorem WaitMilliseconds_waits {H : Type} `{IoPorts H} (mem : Z → Z) (fadt msec gap : Z) (fuel : nat) (h : H)
    (M := if Z.testbit (fadt_flags mem fadt) 8 then 2 ^ 32 else 2 ^ 24) (n := kPMTimerFreq * msec / 1000)
    `{!PmTimer H (u16 (pm_tmr_blk mem fadt)) M gap}
    (Hmsec : 0 < msec) (Hn : n + 2 * gap ≤ M) (Hend : now h mod M + n < M → now h mod M + n + gap ≤ M)
    (Hfuel : (Z.to_nat n < fuel)%nat) :
  ∃ h', WaitMilliseconds fuel mem fadt msec h = Done h' ∧ now h + n < now h' < now h + n + 3 * gap.
Proof.
  unfold WaitMilliseconds. destruct (read_now h) as (h1 & -> & Hh1).
  assert (HM : 0 < M ≤ 2 ^ 32) by (unfold M; destruct (Z.testbit _ 8); lia).
  assert (Hn0 : 3579 ≤ n) by (unfold n, kPMTimerFreq; apply Z.div_le_lower_bound; lia).
  assert (Hn1 : kPMTimerFreq * msec < 1000 * (n + 1)).
  { unfold n. pose proof (Z.div_mod (kPMTimerFreq * msec) 1000 ltac:(lia)).
    pose proof (Z.mod_pos_bound (kPMTimerFreq * msec) 1000 ltac:(lia)). lia. }
  rewrite wait_end_mod by (unfold kPMTimerFreq in *; lia). fold M n.
  destruct (two_polls (port := u16 (pm_tmr_blk mem fadt)) (M := M) n (now h) h1 fuel) as (h' & E & Hh'); [lia..|].
  exists h'. split; [exact E|exact Hh'].
Qed.

(** A timer of 24 bits that is read at every tick, just before it wraps. *)
#[local] Instance tick_ports : IoPorts Z := {| IoOut32 h _ _ := h; IoIn32 h _ := (h mod 2 ^ 24, h + 1) |}.

#[local] Instance tick_timer port : PmTimer Z port (2 ^ 24) 1.
Proof. refine {| now h := h |}. intros h. exists (h + 1). split; [reflexivity|lia]. Defined.

Lemma WaitMilliseconds_waits_witness :
  ∃ h', WaitMilliseconds (Z.to_nat 4000) (λ _, 0) 0 1 (2 ^ 24 - 1000) = Done h' ∧
    2 ^ 24 + 2579 < h' < 2 ^ 24 + 2582.
Proof.
  destruct (WaitMilliseconds_waits (λ _, 0) 0 1 1 (Z.to_nat 4000) (2 ^ 24 - 1000)) as (h' & E & Hh').
  - lia.
  - vm_compute. discriminate.
  - intros Hlt. vm_compute in Hlt. discriminate Hlt.
  - vm_compute. lia.
  - exists h'. split; [exact E|]. assert (Hk : kPMTimerFreq * 1 / 1000 = 3579) by reflexivity. rewrite Hk in Hh'.
    change (now (2 ^ 24 - 1000)) with (2 ^ 24 - 1000) in Hh'. change (now h') with h' in Hh'. lia.
Defined.
