(* ===== verification/Pipe.v ===== *)
(** Pipes between two terminals: [PipeDescriptor] of src/kernel/terminal.{hpp,cpp}.
    The writer sends chunks as messages to the reader's task; the reader keeps what
    it has not yet been asked for. *)
From S2P Require Import Prelude ErrorCode Message Task File.

(** ** Calls that wait

    What a call that puts its own task to sleep needs of the system's state: the
    task manager, and [others], everything that other tasks and interrupts do from
    the context switch until the caller is given the processor again. *)
Class Multitasking (S : Type) := {
  tasks_of : S → TaskManager;
  with_tasks : TaskManager → S → S;
  others : switch → S → outcome S;
  tasks_of_with tm s : tasks_of (with_tasks tm s) = tm;
}.

(** ** The descriptor *)

(** [class PipeDescriptor] *)
Record PipeDescriptor : Set := mkPipe {
  task_ : Z;
  data_ : list Z;
  len_ : Z;
  closed_ : bool;
}.

(** [sizeof(msg.arg.pipe.data)] and [sizeof(data_)] *)
Definition kPipeBytes : Z := 16.

Definition new_PipeDescriptor (task : Z) : PipeDescriptor :=
  mkPipe task (replicate (Z.to_nat kPipeBytes) 0) 0 false.

(** [n] bytes copied over the start of the array. *)
Definition refill (p : PipeDescriptor) (bytes : list Z) (n : Z) : PipeDescriptor :=
  mkPipe (task_ p) (take (Z.to_nat n) bytes ++ drop (Z.to_nat n) (data_ p)) n (closed_ p).

Definition close (p : PipeDescriptor) : PipeDescriptor := mkPipe (task_ p) (data_ p) (len_ p) true.

(** The part of [Read] before its loop: what is left of an earlier message, or the
    end of a pipe that is closed. *)
Definition Read_buffered (p : PipeDescriptor) (len : Z) : option (list Z * PipeDescriptor) :=
  if 0 <? len_ p then
    let copy_bytes := Z.min (len_ p) len in
    Some (take (Z.to_nat copy_bytes) (data_ p), refill p (drop (Z.to_nat copy_bytes) (data_ p)) (len_ p - copy_bytes))
  else if closed_ p then Some ([], p)
  else None.

(** What a turn of the loop of [Read] comes to: it returns, it drops a message of
    another kind, or the task sleeps. *)
Inductive turn : Set := Got (bytes : list Z) | Dropped | Slept (sw : switch).

Definition Read_turn (tm : TaskManager) (p : PipeDescriptor) (len : Z)
    : outcome (turn * TaskManager * PipeDescriptor) :=
  '(msg, tm) ← ReceiveMessage tm (task_ p);
  match msg with
  | None => '(sw, tm) ← Sleep tm (task_ p); mret (Slept sw, tm, p)
  | Some m =>
      match arg m with
      | kPipe data n =>
          if n =? 0 then mret (Got [], tm, close p)
          else
            let copy_bytes := Z.min n len in
            mret (Got (take (Z.to_nat copy_bytes) data), tm, refill p (drop (Z.to_nat copy_bytes) data) (n - copy_bytes))
      | _ => mret (Dropped, tm, p)
      end
  end.

(** One turn of the loop of [Write]: the message's array keeps the bytes of the
    turn before behind the new ones. *)
Definition Write_turn (tm : TaskManager) (p : PipeDescriptor) (data chunk : list Z) : outcome (list Z * TaskManager) :=
  let data := chunk ++ drop (length chunk) data in
  tm ← task_SendMessage tm (task_ p) (mkMessage 0 (kPipe data (Z.of_nat (length chunk))));
  mret (data, tm).

(** The loop; each turn sends at least a byte. *)
Fixpoint Write_loop (fuel : nat) (tm : TaskManager) (p : PipeDescriptor) (data buf : list Z) : outcome TaskManager :=
  match buf with
  | [] => mret tm
  | _ =>
      match fuel with
      | O => NoFuel
      | S fuel' =>
          '(data, tm) ← Write_turn tm p data (take (Z.to_nat kPipeBytes) buf);
          Write_loop fuel' tm p data (drop (Z.to_nat kPipeBytes) buf)
      end
  end.

Definition pipe_Write (tm : TaskManager) (p : PipeDescriptor) (buf : list Z) : outcome (Z * TaskManager) :=
  tm ← Write_loop (length buf) tm p (replicate (Z.to_nat kPipeBytes) 0) buf;
  mret (Z.of_nat (length buf), tm).

Definition FinishWrite (tm : TaskManager) (p : PipeDescriptor) : outcome TaskManager :=
  task_SendMessage tm (task_ p) (mkMessage 0 (kPipe (replicate (Z.to_nat kPipeBytes) 0) 0)).

Section read.
Context {S : Type} `{Multitasking S}.

(** [Read]; [turns] bounds how often the loop turns, and nothing in the code does. *)
Fixpoint Read_loop (turns : nat) (s : S) (p : PipeDescriptor) (len : Z) : outcome (list Z * S * PipeDescriptor) :=
  match turns with
  | O => NoFuel
  | Datatypes.S turns' =>
      '(r, tm, p) ← Read_turn (tasks_of s) p len;
      let s := with_tasks tm s in
      match r with
      | Got bytes => mret (bytes, s, p)
      | Dropped => Read_loop turns' s p len
      | Slept sw => s ← others sw s; Read_loop turns' s p len
      end
  end.

Definition pipe_Read (turns : nat) (s : S) (p : PipeDescriptor) (len : Z) : outcome (list Z * S * PipeDescriptor) :=
  match Read_buffered p len with
  | Some (bytes, p) => mret (bytes, s, p)
  | None => Read_loop turns s p len
  end.
End read.

(** ** Runs of a pipe *)
Module PipeFacts.
Import QueueFacts SchedFacts RunFacts.

(** Messages that are not the pipe's. *)
Definition other_message (m : Message) : Prop :=
  match arg m with kPipe _ _ => False | _ => True end.

#[export] Instance other_message_dec m : Decision (other_message m).
Proof. unfold other_message. destruct (arg m); apply _. Defined.

Definition mailbox (tm : TaskManager) (t : Z) : list Message :=
  match tasks_ tm !! t with Some x => msgs_ x | None => [] end.

(** What one side does at a time, with interrupts masked: a turn of [Write],
    [FinishWrite], a call of [Read] that finds bytes, a turn of its loop that does
    not return; and anything else the system does, as long as it leaves the
    scheduler in order, the reader alive and the pipe's messages alone. *)
Inductive event : Set := EWrite (chunk : list Z) | EClose | ERead (len : Z) (bytes : list Z) | EWait | EOthers.

Inductive step (idle : Z) : TaskManager * PipeDescriptor → event → TaskManager * PipeDescriptor → Prop :=
| step_write tm p data data' chunk tm' : 0 < Z.of_nat (length chunk) ≤ kPipeBytes → Z.of_nat (length data) = kPipeBytes →
    Write_turn tm p data chunk = Done (data', tm') → step idle (tm, p) (EWrite chunk) (tm', p)
| step_close tm p tm' : FinishWrite tm p = Done tm' → step idle (tm, p) EClose (tm', p)
| step_buffered tm p len bytes p' : 0 < len → Read_buffered p len = Some (bytes, p') →
    step idle (tm, p) (ERead len bytes) (tm, p')
| step_read tm p len bytes tm' p' : 0 < len → Read_buffered p len = None →
    Read_turn tm p len = Done (Got bytes, tm', p') → step idle (tm, p) (ERead len bytes) (tm', p')
| step_dropped tm p len tm' p' : 0 < len → Read_buffered p len = None →
    Read_turn tm p len = Done (Dropped, tm', p') → step idle (tm, p) EWait (tm', p')
| step_slept tm p len sw tm' p' : 0 < len → Read_buffered p len = None →
    Read_turn tm p len = Done (Slept sw, tm', p') → step idle (tm, p) EWait (tm', p')
| step_others tm p tm' more : tm_wf idle tm' → is_Some (tasks_ tm' !! task_ p) →
    mailbox tm' (task_ p) = mailbox tm (task_ p) ++ more → Forall other_message more →
    step idle (tm, p) EOthers (tm', p).

Inductive steps (idle : Z) : TaskManager * PipeDescriptor → list event → TaskManager * PipeDescriptor → Prop :=
| steps_nil st : steps idle st [] st
| steps_snoc st1 evs st2 e st3 : steps idle st1 evs st2 → step idle st2 e st3 → steps idle st1 (evs ++ [e]) st3.

(** The bytes that writes sent and that reads got. *)
Definition written (evs : list event) : list Z :=
  concat ((λ e, match e with EWrite chunk => chunk | _ => [] end) <$> evs).
Definition got (evs : list event) : list Z :=
  concat ((λ e, match e with ERead _ bytes => bytes | _ => [] end) <$> evs).

(** The writer is done once it has closed the pipe: nothing is written, or closed,
    after [EClose]. *)
Fixpoint closes_last (evs : list event) (fin : bool) : Prop :=
  match evs with
  | [] => True
  | EWrite _ :: evs => fin = false ∧ closes_last evs fin
  | EClose :: evs => fin = false ∧ closes_last evs true
  | _ :: evs => closes_last evs fin
  end.

(** The abstract pipe: the bytes in a mailbox, and whether the end is in it. *)
Fixpoint in_mail (ms : list Message) : list Z * bool :=
  match ms with
  | [] => ([], false)
  | m :: ms =>
      let '(bytes, fin) := in_mail ms in
      match arg m with
      | kPipe data n => if n =? 0 then ([], true) else (take (Z.to_nat n) data ++ bytes, fin)
      | _ => (bytes, fin)
      end
  end.

Definition unread (tm : TaskManager) (p : PipeDescriptor) : list Z :=
  take (Z.to_nat (len_ p)) (data_ p) ++ (in_mail (mailbox tm (task_ p))).1.

Definition finished (tm : TaskManager) (p : PipeDescriptor) : bool :=
  closed_ p || (in_mail (mailbox tm (task_ p))).2.

(** Every message of the pipe carries a chunk, or is the last one of the pipe. *)
Fixpoint mail_ok (ms : list Message) : Prop :=
  match ms with
  | [] => True
  | m :: ms =>
      mail_ok ms ∧
      match arg m with
      | kPipe data n => Z.of_nat (length data) = kPipeBytes ∧ 0 ≤ n ≤ kPipeBytes ∧ (n = 0 → Forall other_message ms)
      | _ => True
      end
  end.

Record pipe_ok (idle : Z) (tm : TaskManager) (p : PipeDescriptor) : Prop := {
  po_wf : tm_wf idle tm;
  po_reader : ∃ x, tasks_ tm !! task_ p = Some x;
  po_idle : task_ p ≠ idle;
  po_data : Z.of_nat (length (data_ p)) = kPipeBytes;
  po_len : 0 ≤ len_ p ≤ kPipeBytes;
  po_mail : mail_ok (mailbox tm (task_ p));
  po_closed : closed_ p = true → len_ p = 0 ∧ Forall other_message (mailbox tm (task_ p));
}.
(** [EClose] is among the events. *)
Definition closes (evs : list event) : bool :=
  existsb (λ e, match e with EClose => true | _ => false end) evs.

Lemma closes_last_snoc evs e : ∀ fin, closes_last (evs ++ [e]) fin →
  closes_last evs fin ∧ match e with EWrite _ | EClose => fin || closes evs = false | _ => True end.
Proof.
  induction evs as [|e' evs IH]; intros fin H; simpl in H.
  - split; [done|]. destruct e; try done; destruct H as [-> _]; done.
  - destruct e'; simpl in H |- *; try (destruct (IH fin H) as [? ?]; done).
    + destruct H as [-> H]. destruct (IH _ H) as [? ?]. done.
    + destruct H as [-> H]. destruct (IH _ H) as [? Hc]. split; [done|]. destruct e; done.
Qed.

Lemma closes_snoc evs e : closes (evs ++ [e]) = closes evs || match e with EClose => true | _ => false end.
Proof. unfold closes. rewrite existsb_app. simpl. by rewrite orb_false_r. Qed.

Lemma written_snoc evs e : written (evs ++ [e]) = written evs ++ match e with EWrite chunk => chunk | _ => [] end.
Proof. unfold written. rewrite fmap_app, concat_app. simpl. by rewrite app_nil_r. Qed.

Lemma got_snoc evs e : got (evs ++ [e]) = got evs ++ match e with ERead _ bytes => bytes | _ => [] end.
Proof. unfold got. rewrite fmap_app, concat_app. simpl. by rewrite app_nil_r. Qed.

(** ** The mailbox as a queue of bytes *)

Lemma in_mail_others ms : Forall other_message ms → in_mail ms = ([], false).
Proof.
  induction 1 as [|m ms Hm _ IH]; [done|]. simpl. rewrite IH. unfold other_message in Hm. by destruct (arg m).
Qed.

Lemma in_mail_app ms ms' : (in_mail ms).2 = false →
  in_mail (ms ++ ms') = ((in_mail ms).1 ++ (in_mail ms').1, (in_mail ms').2).
Proof.
  induction ms as [|m ms IH]; simpl; intros Hfin; [by destruct (in_mail ms')|].
  destruct (in_mail ms) as [bytes fin], (arg m); simpl in *;
    try (rewrite IH by done; done).
  destruct (_ =? 0); [done|]. simpl in *. rewrite IH by done. by rewrite <- app_assoc.
Qed.

Lemma in_mail_app_others ms more : Forall other_message more → in_mail (ms ++ more) = in_mail ms.
Proof.
  intros Hmore. induction ms as [|m ms IH]; [by apply in_mail_others|]. simpl. by rewrite IH.
Qed.

Lemma mail_ok_others ms : Forall other_message ms → mail_ok ms.
Proof.
  induction 1 as [|m ms Hm _ IH]; [done|]. split; [done|]. unfold other_message in Hm. by destruct (arg m).
Qed.

Lemma mail_ok_app_others ms more : Forall other_message more → mail_ok ms → mail_ok (ms ++ more).
Proof.
  intros Hmore. induction ms as [|m ms IH]; simpl; [intros _; by apply mail_ok_others|].
  intros [Hms Hm]. split; [by apply IH|]. destruct (arg m); try done. destruct Hm as (? & ? & Hn).
  split; [done|]. split; [done|]. intros ->. apply Forall_app. auto.
Qed.

Lemma mail_ok_snoc ms src data n : (in_mail ms).2 = false → mail_ok ms →
  Z.of_nat (length data) = kPipeBytes → 0 ≤ n ≤ kPipeBytes → mail_ok (ms ++ [mkMessage src (kPipe data n)]).
Proof.
  intros Hfin. induction ms as [|m ms IH]; simpl in *; [intros _; done|].
  intros [Hms Hm] Hd Hn. destruct (in_mail ms) as [bytes fin] eqn:E, (arg m); simpl in *; try (split; [by apply IH|done]).
  destruct (Z.eqb_spec len 0); [done|]. split; [by apply IH|]. destruct Hm as (? & ? & _). split_and!; lia || done.
Qed.

(** ** The steps, on the abstract pipe *)

Lemma send_spec idle tm p msg : pipe_ok idle tm p →
  ∃ tm', task_SendMessage tm (task_ p) msg = Done tm' ∧ tm_wf idle tm' ∧
    (∃ x, tasks_ tm' !! task_ p = Some x) ∧ mailbox tm' (task_ p) = mailbox tm (task_ p) ++ [msg].
Proof.
  intros Hok. destruct (po_reader _ _ _ Hok) as [x Hx].
  destruct (task_SendMessage_spec idle tm _ x msg (po_wf _ _ _ Hok) Hx) as (tm' & E & Hwf' & Ht & _).
  exists tm'. split_and!; [done|done| |].
  - rewrite Ht, lookup_insert_eq. by eexists.
  - unfold mailbox. by rewrite Ht, lookup_insert_eq, Hx.
Qed.

(** Sending a message of the pipe, when its end has not been sent. *)
Lemma send_pipe idle tm p data n tm' : pipe_ok idle tm p → finished tm p = false →
  Z.of_nat (length data) = kPipeBytes → 0 ≤ n ≤ kPipeBytes →
  task_SendMessage tm (task_ p) (mkMessage 0 (kPipe data n)) = Done tm' →
  pipe_ok idle tm' p ∧ unread tm' p = unread tm p ++ take (Z.to_nat n) data ∧ finished tm' p = (n =? 0).
Proof.
  intros Hok Hfin Hd Hn E. destruct (send_spec idle tm p (mkMessage 0 (kPipe data n)) Hok) as (tm1 & E1 & Hwf & Hx & Hm).
  assert (tm1 = tm') as -> by congruence. unfold finished in Hfin. apply orb_false_elim in Hfin as [Hc Hin].
  split_and!.
  - destruct Hok as [? ? ? ? ? Hmail _]. split; try done; rewrite ?Hm; [by apply mail_ok_snoc|by rewrite Hc].
  - unfold unread. rewrite Hm, in_mail_app by done. simpl. rewrite <- !app_assoc. do 2 f_equal.
    destruct (Z.eqb_spec n 0) as [->|]; [done|]. simpl. by rewrite app_nil_r.
  - unfold finished. rewrite Hm, in_mail_app, Hc by done. simpl. by destruct (Z.eqb_spec n 0).
Qed.

(** Taking [n] of the [m] bytes in front. *)
Lemma take_refill p bytes n m : 0 ≤ n ≤ m → m ≤ Z.of_nat (length bytes) →
  take (Z.to_nat m) bytes = take (Z.to_nat n) bytes ++
    take (Z.to_nat (len_ (refill p (drop (Z.to_nat n) bytes) (m - n)))) (data_ (refill p (drop (Z.to_nat n) bytes) (m - n))).
Proof.
  intros Hn Hm. simpl. rewrite take_app_le by (rewrite length_take, length_drop; lia).
  rewrite take_take, take_drop_commute. rewrite <- (take_drop (Z.to_nat n) (take (Z.to_nat m) bytes)) at 1.
  rewrite take_take. f_equal; [f_equal; lia|]. f_equal. f_equal. lia.
Qed.

Lemma refill_ok idle tm p bytes n : pipe_ok idle tm p → closed_ p = false → 0 ≤ n ≤ kPipeBytes →
  n ≤ Z.of_nat (length bytes) → pipe_ok idle tm (refill p bytes n).
Proof.
  intros [? ? ? Hd ? ? _] Hc Hn Hl. split; simpl; try done; [|by rewrite Hc].
  rewrite length_app, length_take, length_drop. lia.
Qed.

Lemma Read_buffered_spec idle tm p len bytes p' : pipe_ok idle tm p → 0 < len →
  Read_buffered p len = Some (bytes, p') →
  pipe_ok idle tm p' ∧ task_ p' = task_ p ∧ unread tm p = bytes ++ unread tm p' ∧ finished tm p' = finished tm p ∧
  Z.of_nat (length bytes) ≤ len ∧ (bytes = [] → unread tm p = [] ∧ finished tm p = true).
Proof.
  intros Hok Hlen. unfold Read_buffered. pose proof (po_len _ _ _ Hok). pose proof (po_data _ _ _ Hok).
  destruct (Z.ltb_spec 0 (len_ p)).
  - intros [= <- <-]. assert (Hc : closed_ p = false).
    { destruct (closed_ p) eqn:Hc; [|done]. destruct (po_closed _ _ _ Hok Hc). lia. }
    split_and!; [apply refill_ok; [done..|lia|rewrite length_drop; lia]|done| |done| |].
    + unfold unread. rewrite (take_refill p (data_ p) (len_ p `min` len)) by lia. by rewrite <- app_assoc.
    + rewrite length_take. lia.
    + intros Hnil%(f_equal length). rewrite length_take in Hnil. simpl in Hnil. lia.
  - destruct (closed_ p) eqn:Hc; intros [= <- <-]. destruct (po_closed _ _ _ Hok Hc) as [Hl Hm].
    split_and!; [done..|simpl; lia|]. intros _. unfold unread, finished. by rewrite Hl, Hc, in_mail_others.
Qed.

Lemma ReceiveMessage_spec idle tm r x : tm_wf idle tm → tasks_ tm !! r = Some x →
  ∃ tm', ReceiveMessage tm r = Done (head (mailbox tm r), tm') ∧ tm_wf idle tm' ∧
    (∃ y, tasks_ tm' !! r = Some y) ∧ mailbox tm' r = tail (mailbox tm r).
Proof.
  intros Hwf Hx. unfold ReceiveMessage, mailbox. rewrite Hx, (proj2 (task_lookup tm r x)) by done.
  cbn [mbind outcome_bind]. unfold task_ReceiveMessage.
  pose proof (proj2 (base_ids _ _ (wf_base _ _ Hwf) r x Hx)) as Hid.
  destruct (msgs_ x) as [|m ms] eqn:Em; eexists; (split; [reflexivity|]);
    (split; [by apply (set_task_same_wf _ _ _ x)|]); simpl; rewrite lookup_insert_eq;
    (split; [by eexists|]); done.
Qed.

Lemma Read_turn_spec idle tm p len : pipe_ok idle tm p → 0 < len → Read_buffered p len = None →
  ∃ r tm' p', Read_turn tm p len = Done (r, tm', p') ∧ pipe_ok idle tm' p' ∧ task_ p' = task_ p ∧
    finished tm' p' = finished tm p ∧
    match r with
    | Got bytes => unread tm p = bytes ++ unread tm' p' ∧ Z.of_nat (length bytes) ≤ len ∧
        (bytes = [] → unread tm p = [] ∧ finished tm p = true)
    | Dropped => unread tm' p' = unread tm p ∧ mailbox tm' (task_ p) = tail (mailbox tm (task_ p)) ∧
        mailbox tm (task_ p) ≠ []
    | Slept _ => unread tm p = [] ∧ unread tm' p' = [] ∧ finished tm p = false
    end.
Proof.
  intros Hok Hlen Hb. unfold Read_buffered in Hb. pose proof (po_len _ _ _ Hok). pose proof (po_data _ _ _ Hok).
  destruct (Z.ltb_spec 0 (len_ p)); [done|]. destruct (closed_ p) eqn:Hc; [done|]. clear Hb.
  assert (Hl : len_ p = 0) by lia. destruct (po_reader _ _ _ Hok) as [x Hx].
  destruct (ReceiveMessage_spec idle tm (task_ p) x (po_wf _ _ _ Hok) Hx) as (tm1 & E1 & Hwf1 & (y & Hy) & Hm1).
  unfold Read_turn. rewrite E1. cbn [mbind outcome_bind]. pose proof (po_mail _ _ _ Hok) as Hmail.
  assert (Hok1 : mail_ok (mailbox tm1 (task_ p)) → pipe_ok idle tm1 p).
  { intros ?. destruct Hok. split; try done; [by exists y|by rewrite Hc]. }
  destruct (mailbox tm (task_ p)) as [|m ms] eqn:Em; cbn [head tail] in *.
  - destruct (Sleep_wf idle tm1 (task_ p) y Hwf1 Hy (po_idle _ _ _ Hok)) as (sw & tm2 & -> & Hwf2 & Ht & _).
    cbn [mbind outcome_bind]. eexists _, tm2, p. split; [reflexivity|].
    assert (Hm2 : mailbox tm2 (task_ p) = []).
    { unfold mailbox in Hm1 |- *. rewrite Hy in Hm1. rewrite Ht. destruct (task_running y); [rewrite lookup_insert_eq|rewrite Hy]; done. }
    split_and!; [|done|..].
    + destruct Hok. split; try done; rewrite ?Hm2; [|done|by rewrite Hc].
      rewrite Ht. destruct (task_running y); [rewrite lookup_insert_eq; by eexists|by exists y].
    + unfold finished. by rewrite Hm2, Em.
    + unfold unread. by rewrite Hl, Em.
    + unfold unread. by rewrite Hl, Hm2.
    + unfold finished. by rewrite Hc, Em.
  - destruct Hmail as [Hms Hm]. rewrite Hm1 in Hok1. specialize (Hok1 Hms).
    assert (Hun : unread tm1 p = (in_mail ms).1) by (unfold unread; by rewrite Hl, Hm1).
    assert (Hun0 : unread tm p = (in_mail (m :: ms)).1) by (unfold unread; by rewrite Hl, Em).
    assert (Hfin1 : finished tm1 p = (in_mail ms).2) by (unfold finished; by rewrite Hc, Hm1).
    assert (Hfin0 : finished tm p = (in_mail (m :: ms)).2) by (unfold finished; by rewrite Hc, Em).
    simpl in Hun0, Hfin0. destruct (in_mail ms) as [rest fin] eqn:Ein.
    destruct (arg m) eqn:Ea;
      try (eexists Dropped, tm1, p; (split; [reflexivity|]); (split; [done|]); (split; [done|]);
           rewrite Hfin1, Hfin0, Hun, Hun0; done).
    destruct Hm as (Hd & Hn & Hlast). destruct (Z.eqb_spec len0 0) as [->|Hn0].
    + specialize (Hlast eq_refl). eexists (Got []), tm1, (close p). split; [reflexivity|].
      assert (unread tm1 (close p) = []) as -> by (unfold unread; simpl; by rewrite Hl, Hm1, in_mail_others).
      rewrite Hun0, Hfin0. unfold finished. simpl. split_and!; try done; [|lia].
      destruct Hok1. split; try done. intros _. split; [exact Hl|]. change (task_ (close p)) with (task_ p). by rewrite Hm1.
    + set (k := len0 `min` len). eexists (Got _), tm1, _. split; [reflexivity|]. unfold finished in Hfin1.
      split_and!.
      * apply refill_ok; [done|done|lia|rewrite length_drop; lia].
      * done.
      * rewrite Hfin0. exact Hfin1.
      * rewrite Hun0. unfold unread. simpl task_. rewrite Hm1, Ein. simpl fst.
        rewrite (take_refill p data k len0) by lia. by rewrite <- app_assoc.
      * rewrite length_take. lia.
      * intros Hnil%(f_equal length). rewrite length_take in Hnil. simpl in Hnil. lia.
Qed.

(** Every step is a step of the abstract pipe. *)
Lemma step_spec idle tm p e tm' p' : pipe_ok idle tm p → step idle (tm, p) e (tm', p') →
  (match e with EWrite _ | EClose => finished tm p = false | _ => True end) →
  pipe_ok idle tm' p' ∧ task_ p' = task_ p ∧
  unread tm p ++ match e with EWrite chunk => chunk | _ => [] end =
    match e with ERead _ bytes => bytes | _ => [] end ++ unread tm' p' ∧
  finished tm' p' = finished tm p || match e with EClose => true | _ => false end.
Proof.
  intros Hok Hstep Hfin.
  inversion Hstep as [? ? data data' chunk ? Hc Hd E|? ? ? E|? ? len bytes ? Hlen E|? ? len bytes ? ? Hlen Hb E
    |? ? len ? ? Hlen Hb E|? ? len sw ? ? Hlen Hb E|? ? ? more Hwf Hx Hm Hmore]; subst.
  - unfold Write_turn in E. apply bind_Done_inv in E as (tm1 & E & [= <- <-]). unfold kPipeBytes in *.
    apply (send_pipe idle) in E as (Hok' & Hun & Hf); [|done|done|rewrite length_app, length_drop; unfold kPipeBytes; lia|unfold kPipeBytes; lia].
    split_and!; [done..| |].
    + rewrite Hun, Nat2Z.id. by rewrite take_app_length.
    + rewrite Hf, Hfin. by destruct (Z.eqb_spec (Z.of_nat (length chunk)) 0); [lia|].
  - apply (send_pipe idle) in E as (Hok' & Hun & Hf); [|done|done|done|unfold kPipeBytes; lia].
    split_and!; [done..| |by rewrite Hf, Hfin]. rewrite Hun. simpl. by rewrite !app_nil_r.
  - destruct (Read_buffered_spec _ _ _ _ _ _ Hok Hlen E) as (Hok' & Ht & Hun & Hf & _).
    rewrite app_nil_r, orb_false_r. done.
  - destruct (Read_turn_spec _ _ _ _ Hok Hlen Hb) as (r & tm2 & p2 & E2 & Hok' & Ht & Hf & Hr).
    rewrite E in E2. injection E2 as <- <- <-. rewrite app_nil_r, orb_false_r. tauto.
  - destruct (Read_turn_spec _ _ _ _ Hok Hlen Hb) as (r & tm2 & p2 & E2 & Hok' & Ht & Hf & Hr).
    rewrite E in E2. injection E2 as <- <- <-. rewrite app_nil_r, orb_false_r. destruct Hr as [-> _]. done.
  - destruct (Read_turn_spec _ _ _ _ Hok Hlen Hb) as (r & tm2 & p2 & E2 & Hok' & Ht & Hf & Hr).
    rewrite E in E2. injection E2 as <- <- <-. rewrite app_nil_r, orb_false_r. destruct Hr as (-> & -> & _). done.
  - rewrite app_nil_r, orb_false_r. unfold unread, finished. rewrite Hm, in_mail_app_others by done.
    split_and!; [|done..]. destruct Hok as [? ? ? ? ? Hmail Hcl]. split; try done; rewrite Hm.
    + by apply mail_ok_app_others.
    + intros Hc. destruct (Hcl Hc). split; [done|]. by apply Forall_app.
Qed.

Lemma steps_spec idle tm p evs tm' p' : pipe_ok idle tm p → unread tm p = [] → finished tm p = false →
  closes_last evs false → steps idle (tm, p) evs (tm', p') →
  pipe_ok idle tm' p' ∧ task_ p' = task_ p ∧ written evs = got evs ++ unread tm' p' ∧ finished tm' p' = closes evs.
Proof.
  intros Hok Hun Hfin Hlast Hsteps. remember (tm, p) as st0 eqn:E0. remember (tm', p') as st eqn:E. revert tm' p' E.
  induction Hsteps as [st|st1 evs [tm2 p2] e st3 _ IH Hstep]; intros tm' p' ->.
  - injection E0 as -> ->. by rewrite Hun, Hfin.
  - apply closes_last_snoc in Hlast as [Hlast He].
    destruct (IH Hlast E0 tm2 p2 eq_refl) as (Hok2 & Ht2 & Hw2 & Hf2).
    destruct (step_spec idle tm2 p2 e tm' p' Hok2 Hstep) as (Hok' & Ht & Hbytes & Hf).
    { destruct e; try done; simpl in He; congruence. }
    rewrite written_snoc, got_snoc, closes_snoc, Hw2, <- Hf2. split_and!; [done|congruence| |done].
    rewrite <- !app_assoc. f_equal. exact Hbytes.
Qed.

(** A whole [Write] is a sequence of steps. *)
Lemma steps_app idle st1 evs1 st2 evs2 st3 : steps idle st1 evs1 st2 → steps idle st2 evs2 st3 →
  steps idle st1 (evs1 ++ evs2) st3.
Proof.
  intros H1 H2. induction H2 as [|st2 evs st4 e st5 _ IH Hs]; [by rewrite app_nil_r|].
  rewrite app_assoc. econstructor; [by apply IH|done].
Qed.

Lemma Write_loop_steps idle p fuel : ∀ tm data buf, pipe_ok idle tm p → finished tm p = false →
  Z.of_nat (length data) = kPipeBytes → (length buf ≤ fuel)%nat →
  ∃ tm' evs, Write_loop fuel tm p data buf = Done tm' ∧ steps idle (tm, p) evs (tm', p) ∧ written evs = buf.
Proof.
  induction fuel as [|fuel IH]; intros tm data buf Hok Hfin Hd Hlen.
  - destruct buf; [|simpl in Hlen; lia]. exists tm, []. split_and!; [done|constructor|done].
  - destruct buf as [|b buf']; [exists tm, []; split_and!; [done|constructor|done]|].
    set (buf := b :: buf') in *. set (chunk := take (Z.to_nat kPipeBytes) buf).
    assert (Hchunk : 0 < Z.of_nat (length chunk) ≤ kPipeBytes).
    { assert (0 < length buf)%nat by (simpl; lia). unfold chunk. rewrite length_take. unfold kPipeBytes. lia. }
    assert (E1 : ∃ tm1, Write_turn tm p data chunk = Done (chunk ++ drop (length chunk) data, tm1)).
    { unfold Write_turn. destruct (send_spec idle tm p (mkMessage 0 (kPipe (chunk ++ drop (length chunk) data) (Z.of_nat (length chunk)))) Hok) as (tm1 & -> & _).
      by exists tm1. }
    destruct E1 as [tm1 E1].
    assert (Hstep : step idle (tm, p) (EWrite chunk) (tm1, p)) by by econstructor.
    destruct (step_spec idle tm p _ tm1 p Hok Hstep Hfin) as (Hok1 & _ & _ & Hf1).
    destruct (IH tm1 (chunk ++ drop (length chunk) data) (drop (Z.to_nat kPipeBytes) buf)) as (tm' & evs & E & Hs & Hw);
      [done|by rewrite Hf1, Hfin|rewrite length_app, length_drop; lia|rewrite length_drop; change (length buf) with (S (length buf')) in *; unfold kPipeBytes; lia|].
    exists tm', ([EWrite chunk] ++ evs). split_and!.
    + cbn [Write_loop]. fold chunk. unfold buf at 1. rewrite E1. cbn [mbind outcome_bind]. exact E.
    + eapply steps_app; [|exact Hs]. apply (steps_snoc idle _ [] (tm, p) _ _); [constructor|exact Hstep].
    + transitivity (chunk ++ written evs); [done|]. rewrite Hw. apply take_drop.
Qed.

Lemma pipe_Write_steps idle tm p buf : pipe_ok idle tm p → finished tm p = false →
  ∃ tm' evs, pipe_Write tm p buf = Done (Z.of_nat (length buf), tm') ∧ steps idle (tm, p) evs (tm', p) ∧ written evs = buf.
Proof.
  intros Hok Hfin. destruct (Write_loop_steps idle p (length buf) tm (replicate (Z.to_nat kPipeBytes) 0) buf)
    as (tm' & evs & E & H); [done|done|done|lia|]. exists tm', evs. unfold pipe_Write. by rewrite E.
Qed.

Lemma new_pipe_ok idle tm r x : tm_wf idle tm → tasks_ tm !! r = Some x → Forall other_message (msgs_ x) → r ≠ idle →
  pipe_ok idle tm (new_PipeDescriptor r) ∧ unread tm (new_PipeDescriptor r) = [] ∧
  finished tm (new_PipeDescriptor r) = false.
Proof.
  intros Hwf Hx Hm Hr. assert (Hmb : mailbox tm r = msgs_ x) by (unfold mailbox; by rewrite Hx).
  split_and!.
  - split; simpl; try done; [by exists x|]. rewrite Hmb. by apply mail_ok_others.
  - unfold unread. simpl. by rewrite Hmb, in_mail_others.
  - unfold finished. simpl. by rewrite Hmb, in_mail_others.
Qed.

(** A pipe whose reader has finished: the next write follows a dangling reference. *)
Lemma pipe_Write_after_finish tm p b buf : tasks_ tm !! task_ p = None → pipe_Write tm p (b :: buf) = Undef ∧ FinishWrite tm p = Undef.
Proof.
  intros Hx. assert (Hs : ∀ m, task_SendMessage tm (task_ p) m = Undef) by (intros m; unfold task_SendMessage, task; by rewrite Hx).
  split; [|apply Hs]. unfold pipe_Write. cbn [length Write_loop]. unfold Write_turn. by rewrite Hs.
Qed.
End PipeFacts.

Import QueueFacts PipeFacts.

(** ** Properties *)

(** What a call of [Read] may give: [rest] is what was written and not yet read. *)
Definition read_ok (rest : list Z) (fin : bool) (len : Z) (bytes : list Z) : Prop :=
  bytes `prefix_of` rest ∧ Z.of_nat (length bytes) ≤ len ∧ (bytes = [] → rest = [] ∧ fin = true).

(** C13 pipe
    A pipe is a first-in first-out stream of bytes with an end.  In every
    interleaving of the turns of [Write] and [Read] with whatever else the system
    does, what has been read is exactly the front of what has been written, and
    nothing is lost: a writer that has not closed the pipe can write any buffer,
    as a sequence of such turns; a reader's call returns between 1 and [len] of
    the bytes that follow, reports the end only when the pipe is closed and all
    is read, sleeps only when nothing is left and the pipe is open, and otherwise
    drops one message of another kind. *)
Theorem pipe_is_stream (idle : Z) (tm : TaskManager) (r : Z) (x : Task) (evs : list event)
  (tm' : TaskManager) (p' : PipeDescriptor)
  (Hwf : tm_wf idle tm) (Hx : tasks_ tm !! r = Some x) (Hmail : Forall other_message (msgs_ x)) (Hidle : r ≠ idle)
  (Hrun : steps idle (tm, new_PipeDescriptor r) evs (tm', p')) (Hclose : closes_last evs false) :
  ∃ rest, written evs = got evs ++ rest ∧
    (closes evs = false → ∀ buf, ∃ tm'' evs', pipe_Write tm' p' buf = Done (Z.of_nat (length buf), tm'') ∧
       steps idle (tm', p') evs' (tm'', p') ∧ written evs' = buf) ∧
    ∀ len, 0 < len →
      match Read_buffered p' len with
      | Some (bytes, _) => read_ok rest (closes evs) len bytes
      | None => ∃ t tm'' p'', Read_turn tm' p' len = Done (t, tm'', p'') ∧
          match t with
          | Got bytes => read_ok rest (closes evs) len bytes
          | Dropped => mailbox tm'' r = tail (mailbox tm' r) ∧ mailbox tm' r ≠ []
          | Slept _ => rest = [] ∧ closes evs = false
          end
      end.
Proof.
  destruct (new_pipe_ok idle tm r x Hwf Hx Hmail Hidle) as (Hok0 & Hun0 & Hf0).
  destruct (steps_spec idle tm _ evs tm' p' Hok0 Hun0 Hf0 Hclose Hrun) as (Hok & Ht & Hw & Hfin).
  simpl in Ht. exists (unread tm' p'). split; [done|]. split.
  - intros Hopen buf. apply pipe_Write_steps; [done|congruence].
  - intros len Hlen. destruct (Read_buffered p' len) as [[bytes p2]|] eqn:Eb.
    + destruct (Read_buffered_spec _ _ _ _ _ _ Hok Hlen Eb) as (_ & _ & Hun & _ & Hl & Hnil).
      split; [by eexists|]. rewrite <- Hfin. done.
    + destruct (Read_turn_spec _ _ _ _ Hok Hlen Eb) as (t & tm2 & p2 & E & _ & _ & _ & Hr).
      exists t, tm2, p2. split; [done|]. rewrite <- Hfin. destruct t as [bytes| |sw].
      * destruct Hr as (Hun & Hl & Hnil). split; [by eexists|done].
      * rewrite <- Ht. tauto.
      * tauto.
Qed.

Lemma pipe_is_stream_witness : ∃ tm' p', let evs := [EWrite [1; 2; 3]; ERead 2 [1; 2]; EClose] in
  steps 2 (sample_tm, new_PipeDescriptor 3) evs (tm', p') ∧ ∃ rest, written evs = got evs ++ rest ∧
    ∃ bytes p'', Read_buffered p' 5 = Some (bytes, p'') ∧ read_ok rest true 5 bytes.
Proof.
  assert (H : ∃ tm' p', steps 2 (sample_tm, new_PipeDescriptor 3) ((([] ++ [EWrite [1; 2; 3]]) ++ [ERead 2 [1; 2]]) ++ [EClose]) (tm', p') ∧
    Read_buffered p' 5 = Some ([3], refill p' (drop 1 (data_ p')) 0)).
  { eexists _, _. split.
    - eapply steps_snoc; [eapply steps_snoc; [eapply steps_snoc; [constructor|]|]|].
      + eapply (step_write _ _ _ (replicate 16 0)); [by split|done|reflexivity].
      + eapply step_read; [lia|reflexivity|reflexivity].
      + eapply step_close. reflexivity.
    - reflexivity. }
  destruct H as (tm' & p' & Hs & Hb). exists tm', p'. cbv zeta. split; [exact Hs|].
  destruct (pipe_is_stream 2 sample_tm 3 (sample_task 3 1 true) [EWrite [1; 2; 3]; ERead 2 [1; 2]; EClose] tm' p'
    sample_tm_wf eq_refl (Forall_nil_2 _) ltac:(lia) Hs ltac:(done)) as (rest & Hw & _ & Hr).
  exists rest. split; [exact Hw|]. specialize (Hr 5 ltac:(lia)). rewrite Hb in Hr. eexists _, _. split; [exact Hb|exact Hr].
Defined.
