(* ===== verification/Terminal.v ===== *)
(** The text of a terminal: the data of [class Terminal] of
    src/kernel/terminal.{hpp,cpp}, its cursor, its printing and its history.
    Running commands is in ExecuteLine.v. *)
From S2P Require Import Prelude ErrorCode Message Task Graphics FrameBuffer Font Window Layer Fat.

(** [class Terminal].  The window and the descriptors are shared: they are named by
    their addresses.  A terminal without a window has no [layer_id_]. *)
Record Terminal : Set := mkTerminal {
  window_ : option Z;
  term_layer_id_ : option Z;
  term_task_ : Z;
  cursor_ : Vector2D;
  cursor_visible_ : bool;
  linebuf_index_ : Z;
  linebuf_ : list Z;
  cmd_history_ : list (list Z);
  cmd_history_index_ : Z;
  show_window_ : bool;
  term_files_ : list (option Z);
  last_exit_code_ : Z;
}.

Definition kRows : Z := 15.
Definition kColumns : Z := 60.
Definition kLineMax : Z := 128.

Definition set_cursor (t : Terminal) (c : Vector2D) : Terminal :=
  mkTerminal (window_ t) (term_layer_id_ t) (term_task_ t) c (cursor_visible_ t) (linebuf_index_ t) (linebuf_ t)
    (cmd_history_ t) (cmd_history_index_ t) (show_window_ t) (term_files_ t) (last_exit_code_ t).
Definition set_cursor_visible (t : Terminal) (b : bool) : Terminal :=
  mkTerminal (window_ t) (term_layer_id_ t) (term_task_ t) (cursor_ t) b (linebuf_index_ t) (linebuf_ t)
    (cmd_history_ t) (cmd_history_index_ t) (show_window_ t) (term_files_ t) (last_exit_code_ t).
Definition set_line (t : Terminal) (index : Z) (buf : list Z) : Terminal :=
  mkTerminal (window_ t) (term_layer_id_ t) (term_task_ t) (cursor_ t) (cursor_visible_ t) index buf
    (cmd_history_ t) (cmd_history_index_ t) (show_window_ t) (term_files_ t) (last_exit_code_ t).
Definition set_history (t : Terminal) (h : list (list Z)) (index : Z) : Terminal :=
  mkTerminal (window_ t) (term_layer_id_ t) (term_task_ t) (cursor_ t) (cursor_visible_ t) (linebuf_index_ t)
    (linebuf_ t) h index (show_window_ t) (term_files_ t) (last_exit_code_ t).
Definition set_term_files (t : Terminal) (fs : list (option Z)) : Terminal :=
  mkTerminal (window_ t) (term_layer_id_ t) (term_task_ t) (cursor_ t) (cursor_visible_ t) (linebuf_index_ t)
    (linebuf_ t) (cmd_history_ t) (cmd_history_index_ t) (show_window_ t) fs (last_exit_code_ t).
Definition set_exit_code (t : Terminal) (code : Z) : Terminal :=
  mkTerminal (window_ t) (term_layer_id_ t) (term_task_ t) (cursor_ t) (cursor_visible_ t) (linebuf_index_ t)
    (linebuf_ t) (cmd_history_ t) (cmd_history_index_ t) (show_window_ t) (term_files_ t) code.
Definition set_term_window (t : Terminal) (w layer_id : option Z) : Terminal :=
  mkTerminal w layer_id (term_task_ t) (cursor_ t) (cursor_visible_ t) (linebuf_index_ t)
    (linebuf_ t) (cmd_history_ t) (cmd_history_index_ t) (show_window_ t) (term_files_ t) (last_exit_code_ t).

(** [linebuf_[i] = c] *)
Definition linebuf_set (t : Terminal) (i c : Z) : outcome (list Z) :=
  if (0 <=? i) && (i <? Z.of_nat (length (linebuf_ t))) then mret (<[Z.to_nat i := c]> (linebuf_ t)) else Undef.

Definition CalcCursorPos (t : Terminal) : Vector2D :=
  kTopLeftMargin +v mkVec (4 + 8 * vx (cursor_ t)) (4 + 16 * vy (cursor_ t)).

Section terminal.
Context `{FontLib}.

Definition font_unicode {S : Type} `{PixelWriter S} (writer : S) (pos : Vector2D) (c : Z) (color : PixelColor)
    : outcome (Code * S) :=
  WriteUnicode fl_hankaku fl_hankaku_size fl_New_Memory_Face fl_Set_Pixel_Sizes fl_Get_Char_Index fl_Load_Glyph
    writer pos c color.

(** [*window_]; a null pointer for a terminal that shows no window. *)
Definition term_window (t : Terminal) (d : Desktop) : outcome Window :=
  p ← of_option (window_ t); of_option (windows d !! p).

(** Drawing with [window_->Writer()] and with [window_->InnerWriter()]. *)
Definition on_window (t : Terminal) (d : Desktop) (f : Window → outcome Window) : outcome Desktop :=
  p ← of_option (window_ t);
  w ← of_option (windows d !! p);
  w ← f w;
  mret (set_windows d (<[p := w]> (windows d))).

Definition on_inner (t : Terminal) (d : Desktop) (f : InnerArea → outcome InnerArea) : outcome Desktop :=
  on_window t d (λ w, i ← f (mkInner w); mret (inner_window i)).

Definition white : PixelColor := mkColor 255 255 255.
Definition black : PixelColor := mkColor 0 0 0.

Definition DrawCursor (t : Terminal) (d : Desktop) (visible : bool) : outcome Desktop :=
  if show_window_ t then
    let color := if visible then ToColor 0xffffff else ToColor 0 in
    on_window t d (λ w, FillRectangle w (CalcCursorPos t) (mkVec 7 15) color)
  else mret d.

Definition BlinkCursor (t : Terminal) (d : Desktop) : outcome (Rectangle * Terminal * Desktop) :=
  let t := set_cursor_visible t (negb (cursor_visible_ t)) in
  d ← DrawCursor t d (cursor_visible_ t);
  mret (mkRect (CalcCursorPos t) (mkVec 7 15), t, d).

Definition Scroll1 (t : Terminal) (d : Desktop) : outcome Desktop :=
  let move_src := mkRect (kTopLeftMargin +v mkVec 4 (4 + 16)) (mkVec (8 * kColumns) (16 * (kRows - 1))) in
  d ← on_window t d (λ w, window_Move w (kTopLeftMargin +v mkVec 4 4) move_src);
  on_inner t d (λ i, FillRectangle i (mkVec 4 (4 + 16 * vy (cursor_ t))) (mkVec (8 * kColumns) 16) black).

(** [newline] of [Print]: to the start of the next row, scrolling at the last. *)
Definition newline (t : Terminal) (d : Desktop) : outcome (Terminal * Desktop) :=
  let t := set_cursor t (mkVec 0 (vy (cursor_ t))) in
  if vy (cursor_ t) <? kRows - 1 then mret (set_cursor t (mkVec 0 (vy (cursor_ t) + 1)), d)
  else d ← Scroll1 t d; mret (t, d).

(** [Print(char32_t)] *)
Definition Print_char (t : Terminal) (d : Desktop) (c : Z) : outcome (Terminal * Desktop) :=
  if negb (show_window_ t) then mret (t, d)
  else if c =? 10 then newline t d
  else if IsHankaku c then
    '(t, d) ← (if vx (cursor_ t) =? kColumns then newline t d else mret (t, d));
    d ← on_window t d (λ w, '(_, w) ← font_unicode w (CalcCursorPos t) c white; mret w);
    mret (set_cursor t (mkVec (vx (cursor_ t) + 1) (vy (cursor_ t))), d)
  else
    '(t, d) ← (if kColumns - 1 <=? vx (cursor_ t) then newline t d else mret (t, d));
    d ← on_window t d (λ w, '(_, w) ← font_unicode w (CalcCursorPos t) c white; mret w);
    mret (set_cursor t (mkVec (vx (cursor_ t) + 2) (vy (cursor_ t))), d).

(** The loop of [Print(const char*, ...)]: [s] is the rest of the string with its
    zero, [i] the bytes taken; a byte that starts no character takes none. *)
Fixpoint print_loop (fuel : nat) (t : Terminal) (d : Desktop) (s : list Z) (i len : Z) : outcome (Terminal * Desktop) :=
  match fuel with
  | O => NoFuel
  | S fuel' =>
      c ← char_at s 0;
      if negb (c =? 0) && (i <? len) then
        '(u32, bytes) ← ConvertUTF8To32 s;
        '(t, d) ← Print_char t d u32;
        print_loop fuel' t d (drop (Z.to_nat bytes) s) (i + bytes) len
      else mret (t, d)
  end.

(** [task_manager->SendMessage(1, msg)] with its error dropped. *)
Definition send_to_main (d : Desktop) (msg : Message) : outcome Desktop :=
  '(_, tm) ← SendMessage (task_manager d) 1 msg; mret (set_tm d tm).

Definition draw_message (t : Terminal) (area : Rectangle) : outcome Message :=
  layer ← of_option (term_layer_id_ t);
  mret (MakeLayerMessage (term_task_ t) layer Message.DrawArea area).

(** [Print(const char*, optional<size_t>)]; without a length it is the largest
    [size_t].  [s] ends with a zero. *)
Definition Print (t : Terminal) (d : Desktop) (s : list Z) (len : option Z) : outcome (Terminal * Desktop) :=
  let cursor_before := CalcCursorPos t in
  d ← DrawCursor t d false;
  '(t, d) ← print_loop (length s) t d s 0 (default (2 ^ 64 - 1) len);
  d ← DrawCursor t d true;
  let cursor_after := CalcCursorPos t in
  w ← term_window t d;
  let draw_pos := mkVec (vx kTopLeftMargin) (vy cursor_before) in
  let draw_size := mkVec (vx (InnerSize w)) (vy cursor_after - vy cursor_before + 16) in
  msg ← draw_message t (mkRect draw_pos draw_size);
  d ← send_to_main d msg;
  mret (t, d).

Definition Redraw (t : Terminal) (d : Desktop) : outcome Desktop :=
  w ← term_window t d;
  msg ← draw_message t (mkRect kTopLeftMargin (InnerSize w));
  send_to_main d msg.

(** [&cmd_history_[i][0]] as a string *)
Definition history_line (t : Terminal) (i : Z) : outcome (list Z) :=
  if i <? 0 then Undef else h ← of_option (cmd_history_ t !! Z.to_nat i); mret (cstr h).

(** [strcpy(&linebuf_[0], s)] *)
Definition linebuf_strcpy (t : Terminal) (s : list Z) : outcome (list Z) :=
  if Z.of_nat (length s) <? Z.of_nat (length (linebuf_ t))
  then mret (s ++ [0] ++ drop (S (length s)) (linebuf_ t)) else Undef.

Definition HistoryUpDown (t : Terminal) (d : Desktop) (direction : Z) : outcome (Rectangle * Terminal * Desktop) :=
  let index := cmd_history_index_ t in
  let index :=
    if (direction =? -1) && (0 <=? index) then index - 1
    else if (direction =? 1) && (index + 1 <? Z.of_nat (length (cmd_history_ t))) then index + 1
    else index in
  let t := set_history t (cmd_history_ t) index in
  let t := set_cursor t (mkVec 1 (vy (cursor_ t))) in
  let first_pos := CalcCursorPos t in
  let draw_area := mkRect first_pos (mkVec (8 * (kColumns - 1)) 16) in
  d ← on_window t d (λ w, FillRectangle w (rpos draw_area) (rsize draw_area) black);
  history ← (if 0 <=? index then history_line t index else mret []);
  line ← linebuf_strcpy t history;
  let t := set_line t (Z.of_nat (length history)) line in
  d ← on_window t d (λ w, font_string w first_pos (history ++ [0]) white);
  mret (draw_area, set_cursor t (mkVec (linebuf_index_ t + 1) (vy (cursor_ t))), d).

(** *** The constructor *)

(** The members' initial values, with the descriptors and whether the terminal
    shows a window. *)
Definition blank_terminal (task : Z) (show_window : bool) (files : list (option Z)) : Terminal :=
  mkTerminal None None task (mkVec 0 0) false 0 (replicate (Z.to_nat kLineMax) 0) [] (-1) show_window files 0.

(** The window and its layer; [a_win] and [a_layer] are the addresses of the new
    objects. *)
Definition open_window (screen_format : PixelFormat) (t : Terminal) (d : Desktop) (a_win a_layer : Z)
    : outcome (Terminal * Desktop) :=
  if show_window_ t then
    w ← new_ToplevelWindow (kColumns * 8 + 8 + kMarginX) (kRows * 16 + 8 + kMarginY) screen_format
          (chars "Terminal" ++ [0]);
    i ← DrawTerminal (mkInner w) (mkVec 0 0) (InnerSize w);
    let d := set_windows d (<[a_win := inner_window i]> (windows d)) in
    let '(a, lm) := NewLayer (layer_manager d) a_layer in
    let lm := update_layer lm a (λ l, SetDraggable (SetWindow l (Some a_win)) true) in
    let t := set_term_window t (Some a_win) (Some (Layer.latest_id_ lm)) in
    Print t (set_lm d lm) (chars ">" ++ [0]) None
  else mret (t, d).

Definition new_Terminal (screen_format : PixelFormat) (d : Desktop) (task : Z) (show_window : bool)
    (files : list (option Z)) (a_win a_layer : Z) : outcome (Terminal * Desktop) :=
  '(t, d) ← open_window screen_format (blank_terminal task show_window files) d a_win a_layer;
  mret (set_history t (replicate 8 (replicate (Z.to_nat kLineMax) 0)) (cmd_history_index_ t), d).

(** *** Keys that do not run a command *)

(** The back space key of [InputKey]. *)
Definition input_backspace (t : Terminal) (d : Desktop) (draw_area : Rectangle)
    : outcome (Rectangle * Terminal * Desktop) :=
  if 1 <? vx (cursor_ t) then
    let t := set_cursor t (mkVec (vx (cursor_ t) - 1) (vy (cursor_ t))) in
    d ← (if show_window_ t then on_window t d (λ w, FillRectangle w (CalcCursorPos t) (mkVec 8 16) black) else mret d);
    let t := if 0 <? linebuf_index_ t then set_line t (linebuf_index_ t - 1) (linebuf_ t) else t in
    mret (mkRect (CalcCursorPos t) (rsize draw_area), t, d)
  else mret (draw_area, t, d).

(** A key with a character. *)
Definition input_char (t : Terminal) (d : Desktop) (ascii : Z) : outcome (Terminal * Desktop) :=
  if (vx (cursor_ t) <? kColumns - 1) && (linebuf_index_ t <? kLineMax - 1) then
    line ← linebuf_set t (linebuf_index_ t) ascii;
    let t := set_line t (linebuf_index_ t + 1) line in
    d ← (if show_window_ t then on_window t d (λ w, font_ascii w (CalcCursorPos t) ascii white) else mret d);
    mret (set_cursor t (mkVec (vx (cursor_ t) + 1) (vy (cursor_ t))), d)
  else mret (t, d).

(** The line is ended, put into the history, and the cursor moves on. *)
Definition input_newline (t : Terminal) (d : Desktop) : outcome (Terminal * Desktop) :=
  line ← linebuf_set t (linebuf_index_ t) 0;
  let t := set_line t (linebuf_index_ t) line in
  t ← (if 0 <? linebuf_index_ t then
         match cmd_history_ t with
         | [] => Undef
         | h => mret (set_history t (linebuf_ t :: removelast h) (cmd_history_index_ t))
         end
       else mret t);
  let t := set_history (set_line t 0 (linebuf_ t)) (cmd_history_ t) (-1) in
  newline t d.
End terminal.
