(* ===== verification/Logger.v ===== *)
(** The logger, src/kernel/logger.{hpp,cpp}, and the conversions of [vsprintf] that
    the kernel's messages use. *)
From S2P Require Import Prelude ErrorCode Font Layer Console File Fat FatFile.

(** ** Formatting of the C library *)

Definition digit (d : Z) : Z := if d <? 10 then 48 + d else 87 + d.

(** The digits of [n] in base [b], put before [acc]. *)
Fixpoint digits (fuel : nat) (b n : Z) (acc : list Z) : list Z :=
  match fuel with
  | O => acc
  | S fuel' => let acc := digit (n mod b) :: acc in if n <? b then acc else digits fuel' b (n / b) acc
  end.

(** [%lu], [%d] and [%x] of 64-bit numbers: at most 20 digits. *)
Definition fmt_u (n : Z) : list Z := digits 20 10 n [].
Definition fmt_d (n : Z) : list Z := if n <? 0 then 45 :: fmt_u (- n) else fmt_u n.
Definition fmt_x (n : Z) : list Z := digits 20 16 n [].

(** The width of [%02x]. *)
Definition zero_pad (w : nat) (l : list Z) : list Z := replicate (w - length l) 48 ++ l.

(** ** The logger *)

Definition kError : Z := 3.
Definition kWarn : Z := 4.
Definition kInfo : Z := 6.
Definition kDebug : Z := 7.

(** [log_level], [log_fd] and the console behind the global [console]. *)
Record Logger : Set := mkLogger { log_level : Z; log_fd : option FatFD; console : Console }.

Definition new_Logger (c : Console) : Logger := mkLogger kWarn None c.

Definition SetLogLevel (l : Logger) (level : Z) : Logger := mkLogger level (log_fd l) (console l).

Definition InitializeLogFile (l : Logger) (v : Volume) : outcome (Logger * Volume) :=
  '(entry, _) ← FindFile v (chars "kernlog.txt") 0;
  match entry with
  | Some e => mret (mkLogger (log_level l) (Some (new_FatFD e)) (console l), v)
  | None =>
      '(r, v) ← CreateFile v (chars "kernlog.txt");
      if error_bool (error r) then mret (l, v)
      else entry ← of_option (value r); mret (mkLogger (log_level l) (Some (new_FatFD entry)) (console l), v)
  end.

Section log.
Context `{FontLib}.

(** [Log]; [text] is what [vsprintf] puts into the buffer of 1024 bytes. *)
Definition Log (l : Logger) (e : ConsoleEnv) (v : Volume) (level : Z) (text : list Z)
    : outcome (Z * Logger * ConsoleEnv * Volume) :=
  if log_level l <? level then mret (0, l, e, v)
  else if 1024 <=? Z.of_nat (length text) then Undef
  else
    '(c, e) ← PutString (console l) e text;
    '(fd, v) ← match log_fd l with
               | Some fd => '(_, v, fd) ← fat_Write v fd text; mret (Some fd, v)
               | None => mret (None, v)
               end;
    mret (Z.of_nat (length text), mkLogger (log_level l) fd c, e, v).
End log.
