(* ===== verification/Kernel.v ===== *)
(** The state of the running kernel, and the descriptors of an open file, a
    terminal and a pipe behind one interface: the globals that
    src/kernel/terminal.cpp and syscall.cpp work on, [TerminalFileDescriptor], and
    the [Task] members for files and mappings of task.cpp. *)
From S2P Require Import Prelude ErrorCode MemoryManager FrameAllocator Paging Message Task Timer Graphics.
From S2P Require Import FrameBuffer Font Window Layer Console File Fat FatFile Pci AppLoad Pipe Terminal Logger.

(** The dynamic classes of [FileDescriptor]; a terminal is named by its address. *)
Inductive FileObject : Set :=
| FatDescriptor (fd : FatFD)
| TerminalDescriptorOf (term : Z)
| PipeEnd (p : PipeDescriptor).

(** [struct TerminalDescriptor] *)
Record TerminalDescriptor : Set := mkTermDesc {
  command_line : list Z;
  exit_after_command : bool;
  desc_show_window : bool;
  desc_files : list (option Z);
}.

(** The globals: [desktop] holds the layers, the windows and the task manager,
    [pages] the memory, CR3 and the memory manager, [hw] the devices behind the
    I/O ports.  Objects made with [new] are known by addresses; [next_addr] is the
    next one. *)
Record Kernel (H : Type) : Type := mkKernel {
  desktop : Desktop;
  timer_manager : TimerManager (list Timer);
  volume : Volume;
  pages : pstate BitmapMemoryManager;
  logger : Logger;
  screen : FrameBuffer;
  file_objects : gmap Z FileObject;
  terminal_objects : gmap Z Terminal;
  terminals : gmap Z Z;
  term_descs : gmap Z TerminalDescriptor;
  app_loads : gmap Z AppLoadInfo;
  pci_devices : list Device;
  hw : H;
  next_addr : Z;
}.
Arguments mkKernel {H}. Arguments desktop {H} _. Arguments timer_manager {H} _. Arguments volume {H} _.
Arguments pages {H} _. Arguments logger {H} _. Arguments screen {H} _. Arguments file_objects {H} _.
Arguments terminal_objects {H} _. Arguments terminals {H} _. Arguments term_descs {H} _. Arguments app_loads {H} _.
Arguments pci_devices {H} _. Arguments hw {H} _. Arguments next_addr {H} _.

Section setters.
Context {H : Type}.
Implicit Types k : Kernel H.

Definition set_desktop k (x : Desktop) : Kernel H :=
  mkKernel x (timer_manager k) (volume k) (pages k) (logger k) (screen k) (file_objects k) (terminal_objects k)
    (terminals k) (term_descs k) (app_loads k) (pci_devices k) (hw k) (next_addr k).
Definition set_timers k (x : TimerManager (list Timer)) : Kernel H :=
  mkKernel (desktop k) x (volume k) (pages k) (logger k) (screen k) (file_objects k) (terminal_objects k)
    (terminals k) (term_descs k) (app_loads k) (pci_devices k) (hw k) (next_addr k).
Definition set_volume k (x : Volume) : Kernel H :=
  mkKernel (desktop k) (timer_manager k) x (pages k) (logger k) (screen k) (file_objects k) (terminal_objects k)
    (terminals k) (term_descs k) (app_loads k) (pci_devices k) (hw k) (next_addr k).
Definition set_pages k (x : pstate BitmapMemoryManager) : Kernel H :=
  mkKernel (desktop k) (timer_manager k) (volume k) x (logger k) (screen k) (file_objects k) (terminal_objects k)
    (terminals k) (term_descs k) (app_loads k) (pci_devices k) (hw k) (next_addr k).
Definition set_logger k (x : Logger) (s : FrameBuffer) : Kernel H :=
  mkKernel (desktop k) (timer_manager k) (volume k) (pages k) x s (file_objects k) (terminal_objects k)
    (terminals k) (term_descs k) (app_loads k) (pci_devices k) (hw k) (next_addr k).
Definition set_file_objects k (x : gmap Z FileObject) : Kernel H :=
  mkKernel (desktop k) (timer_manager k) (volume k) (pages k) (logger k) (screen k) x (terminal_objects k)
    (terminals k) (term_descs k) (app_loads k) (pci_devices k) (hw k) (next_addr k).
Definition set_terminal_objects k (x : gmap Z Terminal) : Kernel H :=
  mkKernel (desktop k) (timer_manager k) (volume k) (pages k) (logger k) (screen k) (file_objects k) x
    (terminals k) (term_descs k) (app_loads k) (pci_devices k) (hw k) (next_addr k).
Definition set_terminals k (x : gmap Z Z) : Kernel H :=
  mkKernel (desktop k) (timer_manager k) (volume k) (pages k) (logger k) (screen k) (file_objects k)
    (terminal_objects k) x (term_descs k) (app_loads k) (pci_devices k) (hw k) (next_addr k).
Definition set_term_descs k (x : gmap Z TerminalDescriptor) : Kernel H :=
  mkKernel (desktop k) (timer_manager k) (volume k) (pages k) (logger k) (screen k) (file_objects k)
    (terminal_objects k) (terminals k) x (app_loads k) (pci_devices k) (hw k) (next_addr k).
Definition set_app_loads k (x : gmap Z AppLoadInfo) : Kernel H :=
  mkKernel (desktop k) (timer_manager k) (volume k) (pages k) (logger k) (screen k) (file_objects k)
    (terminal_objects k) (terminals k) (term_descs k) x (pci_devices k) (hw k) (next_addr k).
Definition set_hw k (x : H) : Kernel H :=
  mkKernel (desktop k) (timer_manager k) (volume k) (pages k) (logger k) (screen k) (file_objects k)
    (terminal_objects k) (terminals k) (term_descs k) (app_loads k) (pci_devices k) x (next_addr k).

Definition tm_of k : TaskManager := task_manager (desktop k).
Definition set_ktm k (tm : TaskManager) : Kernel H := set_desktop k (set_tm (desktop k) tm).

(** [new]: an address that no object has. *)
Definition new_addr k : Z * Kernel H :=
  (next_addr k,
   mkKernel (desktop k) (timer_manager k) (volume k) (pages k) (logger k) (screen k) (file_objects k)
     (terminal_objects k) (terminals k) (term_descs k) (app_loads k) (pci_devices k) (hw k)
     (next_addr k + kDefaultStackBytes)).

(** [std::make_shared] of a descriptor. *)
Definition new_file k (f : FileObject) : Z * Kernel H :=
  let '(a, k) := new_addr k in (a, set_file_objects k (<[a := f]> (file_objects k))).

(** [CurrentTask()] and changes of a task. *)
Definition current_task k : outcome (Z * Task) :=
  id ← CurrentTask (tm_of k); t ← task (tm_of k) id; mret (id, t).
Definition update_task k (id : Z) (f : Task → Task) : outcome (Kernel H) :=
  t ← task (tm_of k) id; mret (set_ktm k (set_task (tm_of k) id (f t))).

(** Work on a terminal and the desktop. *)
Definition on_terminal {R} k (a : Z) (f : Terminal → Desktop → outcome (R * Terminal * Desktop)) : outcome (R * Kernel H) :=
  t ← of_option (terminal_objects k !! a);
  '(r, t, d) ← f t (desktop k);
  mret (r, set_terminal_objects (set_desktop k d) (<[a := t]> (terminal_objects k))).

Definition on_terminal_ k (a : Z) (f : Terminal → Desktop → outcome (Terminal * Desktop)) : outcome (Kernel H) :=
  '(_, k) ← on_terminal k a (λ t d, '(t, d) ← f t d; mret (tt, t, d)); mret k.
End setters.

(** ** Members of [Task] *)

Definition set_files (t : Task) (fs : list (option Z)) : Task :=
  mkTask (Task.id_ t) (stack_words t) (context_ t) (os_stack_ptr_ t) (msgs_ t) (level_ t) (task_running t)
    fs (dpaging_begin_ t) (dpaging_end_ t) (file_map_end_ t) (file_maps_ t).
Definition SetDPagingBegin (t : Task) (v : Z) : Task :=
  mkTask (Task.id_ t) (stack_words t) (context_ t) (os_stack_ptr_ t) (msgs_ t) (level_ t) (task_running t)
    (files_ t) v (dpaging_end_ t) (file_map_end_ t) (file_maps_ t).
Definition SetDPagingEnd (t : Task) (v : Z) : Task :=
  mkTask (Task.id_ t) (stack_words t) (context_ t) (os_stack_ptr_ t) (msgs_ t) (level_ t) (task_running t)
    (files_ t) (dpaging_begin_ t) v (file_map_end_ t) (file_maps_ t).
Definition SetFileMapEnd (t : Task) (v : Z) : Task :=
  mkTask (Task.id_ t) (stack_words t) (context_ t) (os_stack_ptr_ t) (msgs_ t) (level_ t) (task_running t)
    (files_ t) (dpaging_begin_ t) (dpaging_end_ t) v (file_maps_ t).
Definition set_file_maps (t : Task) (ms : list (Z * Z * Z)) : Task :=
  mkTask (Task.id_ t) (stack_words t) (context_ t) (os_stack_ptr_ t) (msgs_ t) (level_ t) (task_running t)
    (files_ t) (dpaging_begin_ t) (dpaging_end_ t) (file_map_end_ t) ms.

(** ** What the kernel runs on

    The screen's pixel format, the address of the kernel's own page table, the
    address of [TaskTerminal], what other tasks and interrupts do while a task
    sleeps, how many turns waiting loops may take, and an application's run from
    [CallApp] to its exit, system calls included: its arguments are argc, argv, the
    entry point and the stack pointer. *)
Class System (H : Type) := {
  screen_format : PixelFormat;
  pml4_table : Z;
  TaskTerminal_entry : Z;
  run_others : switch → Kernel H → outcome (Kernel H);
  wait_turns : nat;
  CallApp : Kernel H → Z → Z → Z → Z → outcome (Z * Kernel H);
}.

#[export] Program Instance kernel_tasks {H} `{System H} : Multitasking (Kernel H) := {|
  tasks_of := tm_of;
  with_tasks tm k := set_ktm k tm;
  others := run_others;
|}.
Next Obligation. done. Qed.

Definition kLControlBitMask : Z := 1.
Definition kRControlBitMask : Z := 16.

Section kernel.
Context {H : Type} `{System H} `{FontLib}.
Implicit Types k : Kernel H.

(** [Log(level, ...)] *)
Definition kernel_Log k (level : Z) (text : list Z) : outcome (Kernel H) :=
  '(_, l, e, v) ← Log (logger k) (mkEnv (screen k) (windows (desktop k)) (Some (layer_manager (desktop k)))) (volume k) level text;
  lm ← of_option (env_manager e);
  let k := set_desktop k (set_windows (set_lm (desktop k) lm) (env_windows e)) in
  mret (set_volume (set_logger k l (env_screen e)) v).

(** ** Terminals as files *)

(** A turn of the loop of [TerminalFileDescriptor::Read]: what it returns, if it
    does, and whether the task slept. *)
Definition term_read_turn k (a : Z) : outcome (option (list Z) * option switch * Kernel H) :=
  t ← of_option (terminal_objects k !! a);
  '(msg, tm) ← ReceiveMessage (tm_of k) (term_task_ t);
  let k := set_ktm k tm in
  match msg with
  | None => '(sw, tm) ← Sleep (tm_of k) (term_task_ t); mret (None, Some sw, set_ktm k tm)
  | Some m =>
      match arg m with
      | kKeyPush modifier keycode ascii press =>
          if press =? 0 then mret (None, None, k)
          else if negb (Z.land modifier (Z.lor kLControlBitMask kRControlBitMask) =? 0) then
            k ← on_terminal_ k a (λ t d, Print t d [94; toupper ascii; 0] None);
            if keycode =? 7 then mret (Some [], None, k) else mret (None, None, k)
          else
            k ← on_terminal_ k a (λ t d, Print t d [ascii; 0] (Some 1));
            k ← on_terminal_ k a (λ t d, d ← Redraw t d; mret (t, d));
            mret (Some [ascii], None, k)
      | _ => mret (None, None, k)
      end
  end.

Fixpoint term_read_loop (turns : nat) k (a : Z) : outcome (list Z * Kernel H) :=
  match turns with
  | O => NoFuel
  | S turns' =>
      '(r, sw, k) ← term_read_turn k a;
      match r with
      | Some bytes => mret (bytes, k)
      | None => k ← match sw with Some sw => run_others sw k | None => mret k end; term_read_loop turns' k a
      end
  end.

(** [TerminalFileDescriptor::Write]; the byte behind the buffer, which the loop of
    [Print] reads before it compares the length, is taken to be a zero. *)
Definition term_Write k (a : Z) (bytes : list Z) : outcome (Z * Kernel H) :=
  k ← on_terminal_ k a (λ t d, Print t d (bytes ++ [0]) (Some (Z.of_nat (length bytes))));
  k ← on_terminal_ k a (λ t d, d ← Redraw t d; mret (t, d));
  mret (Z.of_nat (length bytes), k).

(** ** The virtual calls on a descriptor *)

Definition put_file k (a : Z) (f : FileObject) : Kernel H := set_file_objects k (<[a := f]> (file_objects k)).

#[export] Instance kernel_file : FileDescriptor (Kernel H * Z) := {|
  Read '(k, a) len :=
    f ← of_option (file_objects k !! a);
    match f with
    | FatDescriptor fd =>
        '(bytes, fd) ← fat_Read (volume k) fd len; mret (bytes, (put_file k a (FatDescriptor fd), a))
    | TerminalDescriptorOf t => '(bytes, k) ← term_read_loop wait_turns k t; mret (bytes, (k, a))
    | PipeEnd p => '(bytes, k, p) ← pipe_Read wait_turns k p len; mret (bytes, (put_file k a (PipeEnd p), a))
    end;
  Write '(k, a) bytes :=
    f ← of_option (file_objects k !! a);
    match f with
    | FatDescriptor fd =>
        '(n, v, fd) ← fat_Write (volume k) fd bytes; mret (n, (put_file (set_volume k v) a (FatDescriptor fd), a))
    | TerminalDescriptorOf t => '(n, k) ← term_Write k t bytes; mret (n, (k, a))
    | PipeEnd p => '(n, tm) ← pipe_Write (tm_of k) p bytes; mret (n, (set_ktm k tm, a))
    end;
  Size '(k, a) :=
    f ← of_option (file_objects k !! a);
    match f with FatDescriptor fd => mret (file_size (volume k) (fat_entry_ fd)) | _ => mret 0 end;
  Load '(k, a) len offset :=
    f ← of_option (file_objects k !! a);
    match f with
    | FatDescriptor fd => bytes ← fat_Load (volume k) fd len offset; mret (bytes, (k, a))
    | _ => mret ([], (k, a))
    end;
|}.

(** [PrintToFD] *)
Definition print_to k (fd : option Z) (text : list Z) : outcome (Kernel H) :=
  a ← of_option fd;
  '(_, (k, _)) ← PrintToFD (k, a) text;
  mret k.
End kernel.
