(* ===== verification/ExecuteLine.v ===== *)
(** Running a command line: [ListAllEntries], [Terminal::ExecuteLine],
    [ExecuteFile], [InputKey] and [TaskTerminal] of src/kernel/terminal.cpp. *)
From S2P Require Import Prelude ErrorCode MemoryManager FrameAllocator Paging Message Task Timer Graphics.
From S2P Require Import FrameBuffer Font Window Layer Console File Fat FatFile Pci AppLoad Pipe Terminal Logger Kernel.

(** ** Cutting up the line *)

(** The place of the first [c] in [l]. *)
Fixpoint index_of (c : Z) (l : list Z) : option nat :=
  match l with
  | [] => None
  | x :: l => if x =? c then Some O else S <$> index_of c l
  end.

(** [strchr(&buf[0], c)], the C string at [&buf[i]], and [while (isspace(buf[i])) ++i]. *)
Definition strchr (buf : list Z) (c : Z) : option nat := index_of c (cstr buf).
Definition str_at (buf : list Z) (i : nat) : list Z := cstr (drop i buf).

Fixpoint count_spaces (l : list Z) : nat :=
  match l with
  | [] => O
  | c :: l => if isspace c then S (count_spaces l) else O
  end.
Definition skip_spaces (buf : list Z) (i : nat) : nat := (i + count_spaces (drop i buf))%nat.

(** The pointers that [ExecuteLine] takes into the line before it changes it, and
    [first_arg] once the space before it is a zero. *)
Record LineParts : Set := mkParts { line : list Z; first_arg : option nat; redir_char : option nat; pipe_char : option nat }.

Definition split_line (linebuf : list Z) : LineParts :=
  let redir := strchr linebuf 62 in
  let pipe := strchr linebuf 124 in
  match strchr linebuf 32 with
  | None => mkParts linebuf None redir pipe
  | Some i => let buf := <[i := 0]> linebuf in mkParts buf (Some (skip_spaces buf (S i))) redir pipe
  end.

(** The zero over a redirection or pipe character, and what follows it. *)
Definition cut_at (buf : list Z) (i : nat) : list Z * list Z :=
  let buf := <[i := 0]> buf in (buf, str_at buf (skip_spaces buf (S i))).

Section execute.
Context {H : Type} `{IoPorts H} `{System H} `{FontLib}.
Implicit Types k : Kernel H.

(** [terminal->files_[i]] and its assignment *)
Definition term_file k (a : Z) (i : nat) : outcome (option Z) :=
  t ← of_option (terminal_objects k !! a); of_option (term_files_ t !! i).

Definition update_terminal k (a : Z) (f : Terminal → Terminal) : outcome (Kernel H) :=
  t ← of_option (terminal_objects k !! a);
  mret (set_terminal_objects k (<[a := f t]> (terminal_objects k))).

Definition set_stdout k (a : Z) (fd : option Z) : outcome (Kernel H) :=
  update_terminal k a (λ t, set_term_files t (<[1%nat := fd]> (term_files_ t))).

(** [PrintToFD( *files_[i], ...)] *)
Definition print_file k (a : Z) (i : nat) (text : list Z) : outcome (Kernel H) :=
  fd ← term_file k a i; print_to k fd text.

Definition nl : list Z := [10].

(** ** Commands *)

(** The loop of [ListAllEntries] over a cluster, [n] entries left from [e] on; the
    result tells whether the end of the directory was met. *)
Fixpoint list_cluster (n : nat) k (fd : option Z) (e : Z) : outcome (bool * Kernel H) :=
  match n with
  | O => mret (false, k)
  | S n' =>
      name ← read_bytes (volume k) e 11;
      let c := default 0 (head name) in
      if c =? 0 then mret (true, k)
      else if (c =? 0xe5) || (entry_attr (volume k) e =? kLongName) then list_cluster n' k fd (e + kEntrySize)
      else k ← print_to k fd (FormatName name ++ nl); list_cluster n' k fd (e + kEntrySize)
  end.

Fixpoint list_clusters (fuel : nat) k (fd : option Z) (dir_cluster : Z) : outcome (Kernel H) :=
  match fuel with
  | O => NoFuel
  | S fuel' =>
      if dir_cluster =? kEndOfClusterchain then mret k
      else
        '(ended, k) ← list_cluster (entries_per_cluster (volume k)) k fd (GetClusterAddr (volume k) dir_cluster);
        if ended : bool then mret k
        else next ← NextCluster (volume k) dir_cluster; list_clusters fuel' k fd next
  end.

Definition ListAllEntries k (fd : option Z) (dir_cluster : Z) : outcome (Kernel H) :=
  list_clusters (table_fuel (volume k) + 1) k fd dir_cluster.

Definition cmd_echo k (a : Z) (arg : option (list Z)) : outcome (Kernel H) :=
  t ← of_option (terminal_objects k !! a);
  k ← match arg with
      | Some (36 :: rest) =>
          if bool_decide (rest = [63]) then print_file k a 1 (fmt_d (last_exit_code_ t)) else mret k
      | Some text => print_file k a 1 text
      | None => mret k
      end;
  print_file k a 1 nl.

Definition cmd_clear k (a : Z) : outcome (Kernel H) :=
  on_terminal_ k a (λ t d,
    d ← (if show_window_ t
         then on_inner t d (λ i, FillRectangle i (mkVec 4 4) (mkVec (8 * kColumns) (16 * kRows)) black) else mret d);
    mret (Terminal.set_cursor t (mkVec (vx (cursor_ t)) 0), d)).

(** A line of [lspci]. *)
Definition lspci_line (dev : Device) (vendor_id : Z) : list Z :=
  let x2 z := zero_pad 2 (fmt_x z) in
  let c := class_code dev in
  x2 (bus dev) ++ chars ":" ++ x2 (device dev) ++ chars "." ++ fmt_d (function dev) ++
  chars " vend=" ++ zero_pad 4 (fmt_x vendor_id) ++ chars " head=" ++ x2 (header_type dev) ++
  chars " class=" ++ x2 (base c) ++ chars "." ++ x2 (sub c) ++ chars "." ++ x2 (interface c) ++ nl.

Definition cmd_lspci k (a : Z) : outcome (Kernel H) :=
  foldM (λ dev k,
    let '(vendor_id, h) := ReadVendorId (hw k) (bus dev) (device dev) (function dev) in
    print_file (set_hw k h) a 1 (lspci_line dev vendor_id)) (pci_devices k) k.

Definition cmd_ls k (a : Z) (arg : option (list Z)) : outcome (Z * Kernel H) :=
  out ← term_file k a 1;
  match arg with
  | None | Some [] => k ← ListAllEntries k out (root_cluster (volume k)); mret (0, k)
  | Some path =>
      '(dir, post_slash) ← FindFile (volume k) path 0;
      match dir with
      | None => k ← print_file k a 2 (chars "No such file or directory: " ++ path ++ nl); mret (1, k)
      | Some e =>
          if entry_attr (volume k) e =? kDirectory
          then k ← ListAllEntries k out (FirstCluster (volume k) e); mret (0, k)
          else
            let name := FormatName (entry_name (volume k) e) in
            if post_slash : bool then k ← print_file k a 2 (name ++ chars " is not a directory" ++ nl); mret (1, k)
            else k ← print_file k a 1 (name ++ nl); mret (0, k)
      end
  end.

(** The descriptor that [cat] reads, if there is one. *)
Definition cat_source k (a : Z) (arg : option (list Z)) : outcome (option Z * Z * Kernel H) :=
  match arg with
  | None | Some [] => fd ← term_file k a 0; mret (fd, 0, k)
  | Some path =>
      '(file_entry, post_slash) ← FindFile (volume k) path 0;
      match file_entry with
      | None => k ← print_file k a 2 (chars "no such file: " ++ path ++ nl); mret (None, 1, k)
      | Some e =>
          if negb (entry_attr (volume k) e =? kDirectory) && post_slash then
            k ← print_file k a 2 (FormatName (entry_name (volume k) e) ++ chars " is not a directory" ++ nl);
            mret (None, 1, k)
          else let '(fd, k) := new_file k (FatDescriptor (new_FatFD e)) in mret (Some fd, 0, k)
      end
  end.

(** The loop of [cat]: a line of at most 1023 bytes at a time; [%s] stops at a zero. *)
Fixpoint cat_loop (fuel : nat) k (a fd : Z) : outcome (Kernel H) :=
  match fuel with
  | O => NoFuel
  | S fuel' =>
      '(u8buf, (k, _)) ← ReadDelim (k, fd) 10 1024;
      match u8buf with
      | [] => mret k
      | _ => k ← print_file k a 1 (cstr u8buf); cat_loop fuel' k a fd
      end
  end.

(** Every turn reads at least a byte of a file; on a terminal or pipe the loop may
    go on as long as the other side does. *)
Definition cmd_cat k (a : Z) (arg : option (list Z)) : outcome (Z * Kernel H) :=
  '(fd, exit_code, k) ← cat_source k a arg;
  match fd with
  | None => mret (exit_code, k)
  | Some fd =>
      k ← on_terminal_ k a (λ t d, d ← DrawCursor t d false; mret (t, d));
      size ← Size (k, fd);
      k ← cat_loop (wait_turns + Z.to_nat size + 1) k a fd;
      k ← on_terminal_ k a (λ t d, d ← DrawCursor t d true; mret (t, d));
      mret (exit_code, k)
  end.

(** A new task that runs [TaskTerminal] with a descriptor:
    [NewTask().InitContext(TaskTerminal, desc).Wakeup()]. *)
Definition start_terminal k (id : Z) (desc : TerminalDescriptor) : outcome (Kernel H) :=
  let '(desc_addr, k) := new_addr k in
  let k := set_term_descs k (<[desc_addr := desc]> (term_descs k)) in
  let '(stack, k) := new_addr k in
  k ← update_task k id (λ t, InitContext t (cr3 (pages k)) stack TaskTerminal_entry desc_addr);
  tm ← Wakeup (tm_of k) id (-1);
  mret (set_ktm k tm).

Definition cmd_noterm k (a : Z) (arg : option (list Z)) : outcome (Kernel H) :=
  command ← of_option arg;
  t ← of_option (terminal_objects k !! a);
  let '(id, tm) := NewTask (tm_of k) in
  start_terminal (set_ktm k tm) id (mkTermDesc command true false (term_files_ t)).

Definition memstat_line (name : list Z) (frames : Z) : list Z :=
  chars "Phys " ++ name ++ fmt_u frames ++ chars " frames (" ++
  fmt_u (u64 (frames * kBytesPerFrame) / 1024 / 1024) ++ chars " MiB)" ++ nl.

Definition cmd_memstat k (a : Z) : outcome (Kernel H) :=
  let total_cnt := TotalTaskCount (tm_of k) in
  let running_cnt := RunningTaskCount (tm_of k) in
  p_stat ← Stat (frames (pages k));
  k ← print_file k a 1 (chars "total task: " ++ fmt_u total_cnt ++ chars ", running task: " ++ fmt_u running_cnt ++ nl);
  k ← print_file k a 1 (memstat_line (chars "used : ") (allocated_frames p_stat));
  print_file k a 1 (memstat_line (chars "total: ") (total_frames p_stat)).

(** ** Running an application *)

Definition kStackSize : Z := 0x100 * 4096.
Definition kArgsFrame : Z := 0xfffffffffffff000.
Definition kStackFrame : Z := kArgsFrame - kStackSize.
Definition kArgvLen : Z := 32.

(** The bytes of a number in memory. *)
Definition le_bytes (n : nat) (x : Z) : list Z := (λ i, field x (8 * i) 8) <$> seqZ 0 (Z.of_nat n).

(** What [MakeArgVector] writes to the page of arguments: the pointers, and behind
    the array the characters. *)
Definition store_args k (v : ArgVector) : outcome (Kernel H) :=
  let argbuf_addr := kArgsFrame + 8 * kArgvLen in
  s ← vstore_bytes (pages k) kArgsFrame (argv v ≫= (λ off, le_bytes 8 (argbuf_addr + off)));
  s ← vstore_bytes s argbuf_addr (argbuf v);
  mret (set_pages k s).

(** [ExecuteFile] up to [CallApp]: the application's load information and argc, or
    an error. *)
Definition prepare_app k (file_entry : Z) (command : list Z) (arg : option (list Z))
    : outcome (WithError (AppLoadInfo * Z) * Kernel H) :=
  '(id, t) ← current_task k;
  '(app_load, loads, s, t) ← LoadApp (volume k) (app_loads k) file_entry (pages k) t;
  let k := set_app_loads (set_pages (set_ktm k (set_task (tm_of k) id t)) s) loads in
  let failed (err : Code) k := mret (mkWithError (mkApp 0 0 0, 0) err, k) in
  if error_bool (error app_load) then failed (error app_load) k
  else
    '(err, s) ← SetupPageMaps (pages k) kStackFrame (kStackSize / 4096) true;
    let k := set_pages k s in
    if error_bool err then failed err k
    else
      '(err, s) ← SetupPageMaps (pages k) kArgsFrame 1 true;
      let k := set_pages k s in
      if error_bool err then failed err k
      else
        '(err, args) ← MakeArgVector command arg kArgvLen (4096 - 8 * kArgvLen);
        k ← store_args k args;
        if error_bool err then failed err k
        else mret (mkWithError (value app_load, Z.of_nat (length (argv args))) kSuccess, k).

(** The task's descriptors and its address ranges. *)
Definition setup_task k (id a : Z) (app_load : AppLoadInfo) : outcome (Kernel H) :=
  t ← of_option (terminal_objects k !! a);
  let elf_next_page := Z.land (u64 (app_vaddr_end app_load + 4095)) 0xfffffffffffff000 in
  update_task k id (λ x,
    SetFileMapEnd (SetDPagingEnd (SetDPagingBegin (set_files x (files_ x ++ term_files_ t)) elf_next_page)
                     elf_next_page) kStackFrame).

Definition ExecuteFile k (a file_entry : Z) (command : list Z) (arg : option (list Z)) : outcome (WithError Z * Kernel H) :=
  '(id, _) ← current_task k;
  '(r, k) ← prepare_app k file_entry command arg;
  if error_bool (error r) then mret (mkWithError 0 (error r), k)
  else
    let '(app_load, argc) := value r in
    k ← setup_task k id a app_load;
    '(ret, k) ← CallApp k argc kArgsFrame (app_entry app_load) (kStackFrame + kStackSize - 8);
    k ← update_task k id (λ x, set_file_maps (set_files x []) []);
    k ← on_terminal_ k a (λ t d, Print t d (chars "app exited. ret = " ++ fmt_d ret ++ nl ++ [0]) None);
    '(err, s) ← CleanPageMaps (pages k) 0xffff800000000000;
    let k := set_pages k s in
    if error_bool err then mret (mkWithError ret err, k)
    else
      t ← task (tm_of k) id;
      '(err, s, t) ← FreePML4 pml4_table (pages k) t;
      mret (mkWithError ret err, set_pages (set_ktm k (set_task (tm_of k) id t)) s).

Definition cmd_file k (a : Z) (command : list Z) (arg : option (list Z)) : outcome (Z * Kernel H) :=
  file_entry ← FindCommand 2 (volume k) command 0;
  match file_entry with
  | None => k ← print_file k a 2 (chars "no such command: " ++ command ++ nl); mret (1, k)
  | Some e =>
      '(r, k) ← ExecuteFile k a e command arg;
      if error_bool (error r) then
        name ← Name (error r);
        k ← print_file k a 2 (chars "failed to exec file: " ++ chars name ++ nl);
        mret (- value r, k)
      else mret (value r, k)
  end.

(** The chain of [strcmp]s. *)
Definition run_command k (a : Z) (command : list Z) (arg : option (list Z)) : outcome (Z * Kernel H) :=
  let named name := bool_decide (command = chars name) in
  let ok (m : outcome (Kernel H)) := k ← m; mret (0, k) in
  if named "echo"%string then ok (cmd_echo k a arg)
  else if named "clear"%string then ok (cmd_clear k a)
  else if named "lspci"%string then ok (cmd_lspci k a)
  else if named "ls"%string then cmd_ls k a arg
  else if named "cat"%string then cmd_cat k a arg
  else if named "noterm"%string then ok (cmd_noterm k a arg)
  else if named "memstat"%string then ok (cmd_memstat k a)
  else match command with [] => mret (0, k) | _ => cmd_file k a command arg end.

(** ** Redirections and pipes *)

(** Opening the file of a redirection: its descriptor, or [None] after a message. *)
Definition open_redirect k (a : Z) (redir_dest : list Z) : outcome (option Z * Kernel H) :=
  '(file, post_slash) ← FindFile (volume k) redir_dest 0;
  match file with
  | None =>
      '(r, v) ← CreateFile (volume k) redir_dest;
      let k := set_volume k v in
      if error_bool (error r) then
        name ← Name (error r);
        k ← print_file k a 2 (chars "failed to create a redirect file: " ++ chars name ++ nl);
        mret (None, k)
      else
        e ← of_option (value r);
        let '(fd, k) := new_file k (FatDescriptor (new_FatFD e)) in mret (Some fd, k)
  | Some e =>
      if (entry_attr (volume k) e =? kDirectory) || post_slash then
        k ← print_file k a 2 (chars "cannot redirect to a directory" ++ nl); mret (None, k)
      else let '(fd, k) := new_file k (FatDescriptor (new_FatFD e)) in mret (Some fd, k)
  end.

(** [( *layer_task_map)[layer_id_] = task] *)
Definition map_layer k (a task : Z) : outcome (Kernel H) :=
  t ← of_option (terminal_objects k !! a);
  layer ← of_option (term_layer_id_ t);
  mret (set_desktop k (set_task_map (desktop k) (<[layer := task]> (layer_task_map (desktop k))))).

(** The terminal of the command behind a pipe character: its task and the pipe. *)
Definition start_pipe k (a : Z) (subcommand : list Z) : outcome (Z * Z * Kernel H) :=
  let '(subtask, tm) := NewTask (tm_of k) in
  let k := set_ktm k tm in
  let '(pipe_fd, k) := new_file k (PipeEnd (new_PipeDescriptor subtask)) in
  out ← term_file k a 1;
  err ← term_file k a 2;
  k ← set_stdout k a (Some pipe_fd);
  k ← start_terminal k subtask (mkTermDesc subcommand true false [Some pipe_fd; out; err]);
  k ← map_layer k a subtask;
  mret (subtask, pipe_fd, k).

(** [task_manager->WaitFinish(task_id)] *)
Fixpoint wait_finish (turns : nat) k (current_task task_id : Z) : outcome (Z * Kernel H) :=
  match turns with
  | O => NoFuel
  | S turns' =>
      '(code, sw, tm) ← WaitFinish_turn (tm_of k) current_task task_id;
      let k := set_ktm k tm in
      match code with
      | Some code => mret (code, k)
      | None =>
          k ← match sw with NoSwitch => mret k | _ => run_others sw k end;
          wait_finish turns' k current_task task_id
      end
  end.

(** After the command: the end of the pipe, and the exit code of the other side. *)
Definition finish_pipe k (a subtask pipe_fd : Z) : outcome (Z * Kernel H) :=
  f ← of_option (file_objects k !! pipe_fd);
  p ← match f with PipeEnd p => mret p | _ => Undef end;
  tm ← FinishWrite (tm_of k) p;
  let k := set_ktm k tm in
  c ← CurrentTask (tm_of k);
  '(ec, k) ← wait_finish wait_turns k c subtask;
  t ← of_option (terminal_objects k !! a);
  k ← map_layer k a (term_task_ t);
  mret (ec, k).

(** [ExecuteLine] *)
Definition ExecuteLine k (a : Z) : outcome (Kernel H) :=
  t ← of_option (terminal_objects k !! a);
  let parts := split_line (linebuf_ t) in
  let buf := line parts in
  original_stdout ← term_file k a 1;
  '(buf, opened, k) ←
    match redir_char parts with
    | None => mret (buf, true, k)
    | Some i =>
        let '(buf, redir_dest) := cut_at buf i in
        '(fd, k) ← open_redirect k a redir_dest;
        match fd with
        | None => mret (buf, false, k)
        | Some fd => k ← set_stdout k a (Some fd); mret (buf, true, k)
        end
    end;
  if negb opened then update_terminal k a (λ t, set_line t (linebuf_index_ t) buf)
  else
    '(buf, pipe, k) ←
      match pipe_char parts with
      | None => mret (buf, None, k)
      | Some i =>
          let '(buf, subcommand) := cut_at buf i in
          '(subtask, pipe_fd, k) ← start_pipe k a subcommand; mret (buf, Some (subtask, pipe_fd), k)
      end;
    k ← update_terminal k a (λ t, set_line t (linebuf_index_ t) buf);
    '(exit_code, k) ← run_command k a (cstr buf) (str_at buf <$> first_arg parts);
    '(exit_code, k) ← match pipe with
                      | None => mret (exit_code, k)
                      | Some (subtask, pipe_fd) => finish_pipe k a subtask pipe_fd
                      end;
    k ← update_terminal k a (λ t, set_exit_code t exit_code);
    set_stdout k a original_stdout.
(** ** Keys and the terminal's task *)

(** [InputKey]: the area to draw again. *)
Definition InputKey k (a keycode ascii : Z) : outcome (Rectangle * Kernel H) :=
  t ← of_option (terminal_objects k !! a);
  k ← on_terminal_ k a (λ t d, d ← DrawCursor t d false; mret (t, d));
  let draw_area := mkRect (CalcCursorPos t) (mkVec (8 * 2) 16) in
  '(draw_area, k) ←
    (if ascii =? 10 then
       k ← on_terminal_ k a input_newline;
       k ← ExecuteLine k a;
       k ← on_terminal_ k a (λ t d, Print t d (chars ">" ++ [0]) None);
       t ← of_option (terminal_objects k !! a);
       w ← term_window t (desktop k);
       mret (mkRect kTopLeftMargin (InnerSize w), k)
     else if ascii =? 8 then on_terminal k a (λ t d, input_backspace t d draw_area)
     else if negb (ascii =? 0) then k ← on_terminal_ k a (λ t d, input_char t d ascii); mret (draw_area, k)
     else if keycode =? 0x51 then on_terminal k a (λ t d, HistoryUpDown t d (-1))
     else if keycode =? 0x52 then on_terminal k a (λ t d, HistoryUpDown t d 1)
     else mret (draw_area, k));
  k ← on_terminal_ k a (λ t d, d ← DrawCursor t d true; mret (t, d));
  mret (draw_area, k).

(** [new Terminal(task, term_desc)]: without a descriptor the three files are the
    terminal itself. *)
Definition make_terminal k (task : Z) (desc : option TerminalDescriptor) : outcome (Z * Kernel H) :=
  let '(a, k) := new_addr k in
  let '(a_win, k) := new_addr k in
  let '(a_layer, k) := new_addr k in
  let '(show, files, k) :=
    match desc with
    | Some desc => (desc_show_window desc, desc_files desc, k)
    | None =>
        let '(f0, k) := new_file k (TerminalDescriptorOf a) in
        let '(f1, k) := new_file k (TerminalDescriptorOf a) in
        let '(f2, k) := new_file k (TerminalDescriptorOf a) in
        (true, [Some f0; Some f1; Some f2], k)
    end in
  '(t, d) ← new_Terminal screen_format (desktop k) task show files a_win a_layer;
  mret (a, set_terminal_objects (set_desktop k d) (<[a := t]> (terminal_objects k))).

(** A terminal's place on the screen and in the maps. *)
Definition show_terminal k (a task_id : Z) : outcome (Kernel H) :=
  t ← of_option (terminal_objects k !! a);
  layer ← of_option (term_layer_id_ t);
  lm ← lm_Move (windows (desktop k)) (layer_manager (desktop k)) layer (mkVec 100 200);
  let d := set_lm (desktop k) lm in
  let m := match layer_task_map d !! layer with
           | Some _ => layer_task_map d
           | None => <[layer := task_id]> (layer_task_map d)
           end in
  d ← Activate (set_task_map d m) layer;
  mret (set_desktop k d).

(** The keys of a command line given to the terminal. *)
Definition input_line k (a : Z) (line : list Z) : outcome (Kernel H) :=
  k ← foldM (λ c k, '(_, k) ← InputKey k a 0 c; mret k) line k;
  '(_, k) ← InputKey k a 0 10;
  mret k.

(** [add_blink_timer] *)
Definition add_blink_timer k (task_id t : Z) : Kernel H :=
  set_timers k (AddTimer (timer_manager k) (mkTimer (u64 (t + kTimerFreq / 2)) 1 task_id)).

(** What [TaskTerminal] comes to: its loop goes on, or the task has finished and the
    processor goes to another. *)
Inductive task_state : Type :=
| Looping (term : Z) (show_window window_isactive : bool) (slept : option switch) (k : Kernel H)
| Finished (sw : switch) (k : Kernel H).

Definition finish_task k (a : Z) : outcome task_state :=
  t ← of_option (terminal_objects k !! a);
  '(sw, tm) ← Finish (tm_of k) (last_exit_code_ t);
  mret (Finished sw (set_ktm k tm)).

(** [TaskTerminal] up to its loop; [data] is the address of a descriptor or null. *)
Definition TaskTerminal_start k (task_id data : Z) : outcome task_state :=
  desc ← (if data =? 0 then mret None else d ← of_option (term_descs k !! data); mret (Some d));
  let show_window := match desc with Some d => desc_show_window d | None => true end in
  '(task, _) ← current_task k;
  '(a, k) ← make_terminal k task desc;
  k ← (if show_window : bool then show_terminal k a task_id else mret k);
  let k := set_terminals k (<[task_id := a]> (terminals k)) in
  k ← match desc with
      | Some d => if bool_decide (command_line d = []) then mret k else input_line k a (command_line d)
      | None => mret k
      end;
  if match desc with Some d => exit_after_command d | None => false end
  then finish_task (set_term_descs k (delete data (term_descs k))) a
  else mret (Looping a show_window false None (add_blink_timer k task_id (tick_ (timer_manager k)))).

(** The message that asks the main task to draw an area of the terminal again. *)
Definition send_draw k (a task_id : Z) (area : Rectangle) : outcome (Kernel H) :=
  t ← of_option (terminal_objects k !! a);
  layer ← of_option (term_layer_id_ t);
  d ← send_to_main (desktop k) (MakeLayerMessage task_id layer Message.DrawArea area);
  mret (set_desktop k d).

(** One turn of the loop of [TaskTerminal]. *)
Definition TaskTerminal_turn k (task_id a : Z) (show_window window_isactive : bool) : outcome task_state :=
  '(msg, tm) ← ReceiveMessage (tm_of k) task_id;
  let k := set_ktm k tm in
  let continue k active := mret (Looping a show_window active None k) in
  match msg with
  | None => '(sw, tm) ← Sleep (tm_of k) task_id; mret (Looping a show_window window_isactive (Some sw) (set_ktm k tm))
  | Some m =>
      match arg m with
      | kTimerTimeout timeout _ =>
          let k := add_blink_timer k task_id timeout in
          k ← (if show_window && window_isactive
               then '(area, k) ← on_terminal k a BlinkCursor; send_draw k a task_id area
               else mret k);
          continue k window_isactive
      | kKeyPush modifier keycode ascii press =>
          if press =? 0 then continue k window_isactive
          else
            '(area, k) ← InputKey k a keycode ascii;
            k ← (if show_window then send_draw k a task_id area else mret k);
            continue k window_isactive
      | kWindowActive activate => continue k (negb (activate =? 0))
      | kWindowClose layer_id =>
          '(_, d) ← CloseLayer (desktop k) layer_id;
          finish_task (set_desktop k d) a
      | _ => continue k window_isactive
      end
  end.
End execute.
