(* ===== verification/Syscall.v ===== *)
(** System calls: src/kernel/syscall.cpp with msr.hpp and app_event.hpp.  An
    argument that points into the application's memory is what it points to: a C
    string its characters, an array or number to be written part of the result. *)
From S2P Require Import Prelude ErrorCode MemoryManager FrameAllocator Paging Message Task Timer Graphics.
From S2P Require Import FrameBuffer Font Window Layer Console File Fat FatFile Pci AppLoad Pipe Terminal Logger Kernel.
From Stdlib Require Import Floats.SpecFloat.

(** [struct Result] *)
Record Result : Set := mkResult { res_value : Z; res_error : Z }.

(** newlib's errno.h and fcntl.h *)
Definition EPERM : Z := 1.
Definition ENOENT : Z := 2.
Definition E2BIG : Z := 7.
Definition EBADF : Z := 9.
Definition EFAULT : Z := 14.
Definition EISDIR : Z := 21.
Definition EINVAL : Z := 22.
Definition ENOSPC : Z := 28.
Definition O_CREAT : Z := 0x200.

(** ** Lines

    [double] is IEEE 754's binary64, as the standard library specifies it. *)
Definition double : Set := spec_float.
Definition dbl (z : Z) : double := binary_normalize 53 1024 z 0 false.
Definition dmul : double → double → double := SFmul 53 1024.
Definition dadd : double → double → double := SFadd 53 1024.
Definition ddiv : double → double → double := SFdiv 53 1024.

(** [floor] and [ceil] of a finite number, converted to [int]. *)
Definition dfloor (x : double) : outcome Z :=
  match x with
  | S754_zero _ => mret 0
  | S754_finite s m e => mret (Z.shiftl (if s then - Z.pos m else Z.pos m) e)
  | _ => Undef
  end.
Definition dceil (x : double) : outcome Z :=
  match x with
  | S754_zero _ => mret 0
  | S754_finite s m e => mret (- Z.shiftl (if s then Z.pos m else - Z.pos m) e)
  | _ => Undef
  end.

Definition line_sign (x : Z) : Z := if 0 <? x then 1 else if x <? 0 then -1 else 0.

(** The difference of two [int]s as the line's code needs it: one more than the
    difference must fit as well. *)
Definition int_diff (a b : Z) : outcome Z :=
  let d := a - b + line_sign (a - b) in if (- 2 ^ 31 <? d) && (d <? 2 ^ 31) then mret d else Undef.

(** The loop along the longer axis, from [a0] to [a1]; [b0] and [b1] are the ends
    on the other axis, [point] makes a place of both. *)
Definition line_loop (a0 a1 b0 b1 da db : Z) (point : Z → Z → Vector2D) (color : PixelColor) (win : Window)
    : outcome Window :=
  let '(a0, a1, b0, b1) := if da <? 0 then (a1, a0, b1, b0) else (a0, a1, b0, b1) in
  let roundish := if b0 <=? b1 then dfloor else dceil in
  let m := ddiv (dbl db) (dbl da) in
  for_loop a0 (a1 + 1) (λ a win,
    b ← roundish (dadd (dmul m (dbl (a - a0))) (dbl b0));
    Graphics.Write win (point a b) color) win.

Definition draw_line (win : Window) (x0 y0 x1 y1 color : Z) : outcome Window :=
  dx ← int_diff x1 x0;
  dy ← int_diff y1 y0;
  if (dx =? 0) && (dy =? 0) then Graphics.Write win (mkVec x0 y0) (ToColor color)
  else if Z.abs dy <=? Z.abs dx then line_loop x0 x1 y0 y1 dx dy mkVec (ToColor color) win
  else line_loop y0 y1 x0 x1 dy dx (λ y x, mkVec x y) (ToColor color) win.

(** ** Events *)

(** [struct AppEvent], its type with the member of the union in use. *)
Inductive AppEvent : Set :=
| evQuit
| evMouseMove (x y dx dy buttons : Z)
| evMouseButton (x y press button : Z)
| evTimerTimeout (timeout value : Z)
| evKeyPush (modifier keycode ascii press : Z).

(** The value of [Message::Type]. *)
Definition message_type (m : Message) : Z :=
  match arg m with
  | kInterruptXHCI => 0 | kTimerTimeout _ _ => 1 | kKeyPush _ _ _ _ => 2 | kLayer _ _ _ _ _ _ => 3
  | kLayerFinish => 4 | kMouseMove _ _ _ _ _ => 5 | kMouseButton _ _ _ _ => 6 | kWindowActive _ => 7
  | kPipe _ _ => 8 | kWindowClose _ => 9
  end.

(** What a message becomes: an event, nothing, or a line of the log. *)
Inductive event_of : Set := Event (e : AppEvent) | Ignored | Uncaught.

Definition app_event (m : Message) : event_of :=
  match arg m with
  | kKeyPush modifier keycode ascii press =>
      if (keycode =? 20) && negb (Z.land modifier (Z.lor kLControlBitMask kRControlBitMask) =? 0)
      then Event evQuit else Event (evKeyPush modifier keycode ascii press)
  | kMouseMove x y dx dy buttons => Event (evMouseMove x y dx dy buttons)
  | kMouseButton x y press button => Event (evMouseButton x y press button)
  | kTimerTimeout timeout value => if value <? 0 then Event (evTimerTimeout timeout (- value)) else Ignored
  | kWindowClose _ => Event evQuit
  | _ => Uncaught
  end.

(** [InitializeSyscall]: the registers written, in order. *)
Definition kIA32_EFER : Z := 0xc0000080.
Definition kIA32_STAR : Z := 0xc0000081.
Definition kIA32_LSTAR : Z := 0xc0000082.
Definition kIA32_FMASK : Z := 0xc0000084.

Definition InitializeSyscall (SyscallEntry : Z) : list (Z * Z) := [
  (kIA32_EFER, 0x0501);
  (kIA32_LSTAR, SyscallEntry);
  (kIA32_STAR, Z.lor (Z.shiftl 8 32) (Z.shiftl (Z.lor 16 3) 48));
  (kIA32_FMASK, 0)].

(** The numbers of the calls: [syscall_table]. *)
Inductive call : Set :=
| cLogString | cPutString | cExit | cOpenWindow | cWinWriteString | cWinFillRectangle | cGetCurrentTick | cWinRedraw
| cWinDrawLine | cCloseWindow | cReadEvent | cCreateTimer | cOpenFile | cReadFile | cDemandPages | cMapFile.

Definition syscall_table : list call := [
  cLogString; cPutString; cExit; cOpenWindow; cWinWriteString; cWinFillRectangle; cGetCurrentTick; cWinRedraw;
  cWinDrawLine; cCloseWindow; cReadEvent; cCreateTimer; cOpenFile; cReadFile; cDemandPages; cMapFile].

Section syscall.
Context {H : Type} `{System H} `{FontLib}.
Implicit Types k : Kernel H.

Definition done {A} (r : A) k : outcome (A * Kernel H) := mret (r, k).
Definition failed (errno : Z) k : outcome (Result * Kernel H) := mret (mkResult 0 errno, k).

Definition LogString k (level : Z) (s : list Z) : outcome (Result * Kernel H) :=
  if negb (level =? kError) && negb (level =? kWarn) && negb (level =? kInfo) && negb (level =? kDebug)
  then failed EPERM k
  else
    let len := Z.of_nat (length s) in
    if 1024 <? len then failed E2BIG k
    else k ← kernel_Log k level s; done (mkResult len 0) k.

(** [task.Files()[fd]], when [fd] is a descriptor of the current task. *)
Definition open_file k (fd : Z) : outcome (option Z) :=
  '(_, t) ← current_task k;
  mret (if fd <? 0 then None else mjoin (files_ t !! Z.to_nat fd)).

(** [PutString]: [s] are the [len] bytes. *)
Definition PutString k (fd : Z) (s : list Z) : outcome (Result * Kernel H) :=
  if 1024 <? Z.of_nat (length s) then failed E2BIG k
  else
    f ← open_file k fd;
    match f with
    | None => failed EBADF k
    | Some a => '(n, (k, _)) ← File.Write (k, a) s; done (mkResult n 0) k
    end.

Definition Exit k (code : Z) : outcome (Result * Kernel H) :=
  '(_, t) ← current_task k; done (mkResult (os_stack_ptr_ t) (i32 code)) k.

Definition OpenWindow k (w h x y : Z) (title : list Z) : outcome (Result * Kernel H) :=
  win ← new_ToplevelWindow (i32 w) (i32 h) screen_format (title ++ [0]);
  let '(a_win, k) := new_addr k in
  let '(a_layer, k) := new_addr k in
  let d := set_windows (desktop k) (<[a_win := win]> (windows (desktop k))) in
  let '(a, lm) := NewLayer (layer_manager d) a_layer in
  let lm := update_layer lm a (λ l, layer_Move (SetDraggable (SetWindow l (Some a_win)) true) (mkVec (i32 x) (i32 y))) in
  let layer_id := Layer.latest_id_ lm in
  d ← Activate (set_lm d lm) layer_id;
  task_id ← CurrentTask (task_manager d);
  let m := match layer_task_map d !! layer_id with
           | Some _ => layer_task_map d
           | None => <[layer_id := task_id]> (layer_task_map d)
           end in
  done (mkResult layer_id 0) (set_desktop k (set_task_map d m)).

(** [DoWinFunc]; none of the functions given to it fails. *)
Definition DoWinFunc k (f : Window → outcome Window) (layer_id_flags : Z) : outcome (Result * Kernel H) :=
  let layer_flags := Z.shiftr layer_id_flags 32 in
  let layer_id := Z.land layer_id_flags 0xffffffff in
  match FindLayer (layer_manager (desktop k)) layer_id with
  | None => failed EBADF k
  | Some _ =>
      d ← with_window (desktop k) layer_id f;
      d ← (if Z.land layer_flags 1 =? 0 then draw_layer d layer_id else mret d);
      done (mkResult 0 0) (set_desktop k d)
  end.

Definition WinWriteString k (layer x y color : Z) (s : list Z) : outcome (Result * Kernel H) :=
  DoWinFunc k (λ win, font_string win (mkVec (i32 x) (i32 y)) (s ++ [0]) (ToColor (u32 color))) layer.

Definition WinFillRectangle k (layer x y w h color : Z) : outcome (Result * Kernel H) :=
  DoWinFunc k (λ win, FillRectangle win (mkVec (i32 x) (i32 y)) (mkVec (i32 w) (i32 h)) (ToColor (u32 color))) layer.

(** The number of ticks in a second comes in place of the error. *)
Definition GetCurrentTick k : outcome (Result * Kernel H) :=
  done (mkResult (tick_ (timer_manager k)) kTimerFreq) k.

Definition WinRedraw k (layer : Z) : outcome (Result * Kernel H) := DoWinFunc k mret layer.

Definition WinDrawLine k (layer x0 y0 x1 y1 color : Z) : outcome (Result * Kernel H) :=
  DoWinFunc k (λ win, draw_line win (i32 x0) (i32 y0) (i32 x1) (i32 y1) (u32 color)) layer.

(** [CloseWindow]: the error code comes back as the value. *)
Definition CloseWindow k (layer : Z) : outcome (Result * Kernel H) :=
  '(err, d) ← CloseLayer (desktop k) (Z.land layer 0xffffffff);
  let k := set_desktop k d in
  if bool_decide (err = kNoSuchEntry) then done (mkResult EBADF 0) k else done (mkResult 0 0) k.

(** A turn of the loop of [ReadEvent]: [n] events have been stored. *)
Inductive read_event : Set := NoMore | Again (sw : switch) | Stored (e : AppEvent) | Skipped.

Definition ReadEvent_turn k (id n : Z) : outcome (read_event * Kernel H) :=
  '(msg, tm) ← ReceiveMessage (tm_of k) id;
  let k := set_ktm k tm in
  match msg with
  | None =>
      if n =? 0 then '(sw, tm) ← Sleep (tm_of k) id; mret (Again sw, set_ktm k tm) else mret (NoMore, k)
  | Some m =>
      match app_event m with
      | Event e => mret (Stored e, k)
      | Ignored => mret (Skipped, k)
      | Uncaught => k ← kernel_Log k kInfo (chars "uncaught event type: " ++ fmt_u (message_type m) ++ [10]); mret (Skipped, k)
      end
  end.

Fixpoint ReadEvent_loop (turns : nat) k (id len : Z) (events : list AppEvent) : outcome (list AppEvent * Kernel H) :=
  if len <=? Z.of_nat (length events) then mret (events, k)
  else
    match turns with
    | O => NoFuel
    | S turns' =>
        '(r, k) ← ReadEvent_turn k id (Z.of_nat (length events));
        match r with
        | NoMore => mret (events, k)
        | Again sw => k ← match sw with NoSwitch => mret k | _ => run_others sw k end; ReadEvent_loop turns' k id len events
        | Stored e => ReadEvent_loop turns' k id len (events ++ [e])
        | Skipped => ReadEvent_loop turns' k id len events
        end
    end.

(** [ReadEvent]: [app_events] is the array's address; the events stored are part of
    the result. *)
Definition ReadEvent k (app_events len : Z) : outcome (Result * list AppEvent * Kernel H) :=
  if app_events <? 0x8000000000000000 then mret (mkResult 0 EFAULT, [], k)
  else
    '(id, _) ← current_task k;
    '(events, k) ← ReadEvent_loop wait_turns k id len [];
    mret (mkResult (Z.of_nat (length events)) 0, events, k).

Definition CreateTimer k (mode timer_value timeout_ms : Z) : outcome (Result * Kernel H) :=
  let mode := u32 mode in
  let timer_value := i32 timer_value in
  if timer_value <=? 0 then failed EINVAL k
  else
    '(task_id, _) ← current_task k;
    let timeout := u64 (timeout_ms * kTimerFreq) / 1000 in
    let timeout := if negb (Z.land mode 1 =? 0) then u64 (timeout + tick_ (timer_manager k)) else timeout in
    let k := set_timers k (AddTimer (timer_manager k) (mkTimer timeout (- timer_value) task_id)) in
    done (mkResult (u64 (timeout * 1000) / kTimerFreq) 0) k.

(** ** Files *)

(** The first null descriptor at or after [i], or the end. *)
Fixpoint free_slot (files : list (option Z)) (i : nat) : option nat :=
  match files with
  | [] => None
  | None :: _ => Some i
  | Some _ :: files => free_slot files (S i)
  end.

(** [AllocateFD] *)
Definition AllocateFD (t : Task) : nat * Task :=
  match free_slot (files_ t) 0 with
  | Some i => (i, t)
  | None => (length (files_ t), set_files t (files_ t ++ [None]))
  end.

(** [CreateFile] of syscall.cpp: the entry and the errno. *)
Definition create_file (v : Volume) (path : list Z) : outcome (option Z * Z * Volume) :=
  '(r, v) ← Fat.CreateFile v path;
  mret (value r, match error r with
                 | kIsDirectory => EISDIR
                 | kNoSuchEntry => ENOENT
                 | kNoEnoughMemory => ENOSPC
                 | _ => 0
                 end, v).

(** The last part of [OpenFile], for the entry at [file]. *)
Definition open_entry k (id file : Z) : outcome (Result * Kernel H) :=
  let '(a, k) := new_file k (FatDescriptor (new_FatFD file)) in
  t ← task (tm_of k) id;
  let '(fd, t) := AllocateFD t in
  done (mkResult (Z.of_nat fd) 0) (set_ktm k (set_task (tm_of k) id (set_files t (<[fd := Some a]> (files_ t))))).

Definition OpenFile k (path : list Z) (flags : Z) : outcome (Result * Kernel H) :=
  let flags := i32 flags in
  '(id, _) ← current_task k;
  if bool_decide (path = chars "@stdin") then done (mkResult 0 0) k
  else
    '(file, post_slash) ← FindFile (volume k) path 0;
    match file with
    | None =>
        if Z.land flags O_CREAT =? 0 then failed ENOENT k
        else
          '(new_file, err, v) ← create_file (volume k) path;
          if negb (err =? 0) then mret (mkResult 0 err, set_volume k v)
          else file ← of_option new_file; open_entry (set_volume k v) id file
    | Some e =>
        if negb (entry_attr (volume k) e =? kDirectory) && post_slash then failed ENOENT k
        else open_entry k id e
    end.

(** [ReadFile]: the bytes stored in the buffer are part of the result. *)
Definition ReadFile k (fd count : Z) : outcome (Result * list Z * Kernel H) :=
  f ← open_file k (i32 fd);
  match f with
  | None => mret (mkResult 0 EBADF, [], k)
  | Some a => '(bytes, (k, _)) ← Read (k, a) count; mret (mkResult (Z.of_nat (length bytes)) 0, bytes, k)
  end.

Definition DemandPages k (num_pages : Z) : outcome (Result * Kernel H) :=
  '(id, t) ← current_task k;
  let dp_end := dpaging_end_ t in
  k ← update_task k id (λ t, SetDPagingEnd t (u64 (dp_end + 4096 * num_pages)));
  done (mkResult dp_end 0) k.

(** [MapFile]: the file's size is part of the result. *)
Definition MapFile k (fd : Z) : outcome (Result * option Z * Kernel H) :=
  let fd := i32 fd in
  f ← open_file k fd;
  match f with
  | None => mret (mkResult 0 EBADF, None, k)
  | Some a =>
      '(id, t) ← current_task k;
      file_size ← File.Size (k, a);
      let vaddr_end := file_map_end_ t in
      let vaddr_begin := Z.land (u64 (vaddr_end - file_size)) 0xfffffffffffff000 in
      k ← update_task k id (λ t, set_file_maps (SetFileMapEnd t vaddr_begin) (file_maps_ t ++ [(fd, vaddr_begin, vaddr_end)]));
      mret (mkResult vaddr_begin 0, Some file_size, k)
  end.
End syscall.

(** ** Calls on files *)
Module FileCallFacts.

Inductive file_call : Set :=
| CallPut (fd : Z) (s : list Z)
| CallOpen (path : list Z) (flags : Z)
| CallRead (fd count : Z)
| CallMap (fd : Z).

(** The descriptors of a task that are open. *)
Definition is_open (t : Task) (fd : Z) : bool :=
  (0 <=? fd) && match files_ t !! Z.to_nat fd with Some (Some _) => true | _ => false end.

(** Why a file cannot be made at a path. *)
Definition create_errno (v : Volume) (path : list Z) : outcome Z :=
  match split_last slash path with
  | None => mret 0
  | Some (_, []) => mret EISDIR
  | Some ([], _) => mret 0
  | Some (parent, _) => '(dir, _) ← FindFile v parent 0; mret (match dir with None => ENOENT | Some _ => 0 end)
  end.

(** The error that each call documents: an empty one means that it succeeds. *)
Definition expected_errno (v : Volume) (t : Task) (c : file_call) : outcome Z :=
  match c with
  | CallPut fd s => mret (if 1024 <? Z.of_nat (length s) then E2BIG else if is_open t fd then 0 else EBADF)
  | CallRead fd _ | CallMap fd => mret (if is_open t (i32 fd) then 0 else EBADF)
  | CallOpen path flags =>
      if bool_decide (path = chars "@stdin") then mret 0
      else
        '(file, post_slash) ← FindFile v path 0;
        match file with
        | None => if Z.land (i32 flags) O_CREAT =? 0 then mret ENOENT else create_errno v path
        | Some e => mret (if negb (entry_attr v e =? kDirectory) && post_slash then ENOENT else 0)
        end
  end.

Section calls.
Context {H : Type} `{System H} `{FontLib}.
Implicit Types k : Kernel H.

Definition run_call k (c : file_call) : outcome (Result * Kernel H) :=
  match c with
  | CallPut fd s => PutString k fd s
  | CallOpen path flags => OpenFile k path flags
  | CallRead fd count => '(r, _, k) ← ReadFile k fd count; mret (r, k)
  | CallMap fd => '(r, _, k) ← MapFile k fd; mret (r, k)
  end.

Lemma open_file_spec k id t fd : current_task k = Done (id, t) →
  ∃ f, open_file k fd = Done f ∧ is_open t fd = bool_decide (is_Some f).
Proof.
  intros E. unfold open_file, is_open. rewrite E. cbn [mbind outcome_bind]. eexists. split; [reflexivity|].
  destruct (Z.ltb_spec fd 0), (Z.leb_spec 0 fd); try lia; [done|]. simpl.
  by destruct (files_ t !! Z.to_nat fd) as [[a|]|].
Qed.

(** A creation that returns has made an entry. *)
Ltac by_creation E :=
  apply bind_Done_inv in E as ([? ?] & _ & E); apply bind_Done_inv in E as (? & _ & E);
  apply bind_Done_inv in E as (? & _ & E); by injection E as <- <-.

Lemma create_file_spec v path e : create_errno v path = Done e →
  (e ≠ 0 → create_file v path = Done (None, e, v)) ∧
  (e = 0 → ∀ r err v', create_file v path = Done (r, err, v') → err = 0 ∧ is_Some r).
Proof.
  unfold create_errno, create_file.
  assert (Hc : ∀ r err v', ('(r, v) ← Fat.CreateFile v path;
      mret (value r, match error r with kIsDirectory => EISDIR | kNoSuchEntry => ENOENT | kNoEnoughMemory => ENOSPC | _ => 0 end, v))
      = Done (r, err, v') → (∀ r1 v1, Fat.CreateFile v path = Done (r1, v1) → error r1 = kSuccess ∧ is_Some (value r1)) →
      err = 0 ∧ is_Some r).
  { intros r err v' E Hr. apply bind_Done_inv in E as ([r1 v1] & E1 & [= <- <- <-]).
    destruct (Hr r1 v1 E1) as [-> ?]. done. }
  unfold Fat.CreateFile in *. cbv zeta in *.
  destruct (split_last slash path) as [[[|p parent] [|c name]]|]; cbn [mbind outcome_bind] in *;
    try (intros [= <-]; split; [done|]; intros _ r err v' E; apply (Hc _ _ _ E); intros r1 v1 E1; by_creation E1);
    [by intros [= <-]..|].
  destruct (FindFile v (p :: parent) 0) as [[[d|] ps]| |]; [| |done..]; cbn [mbind outcome_bind] in *; intros [= <-].
  - split; [done|]. intros _ r err v' E. apply (Hc _ _ _ E). intros r1 v1 E1. by_creation E1.
  - split; [done|]. unfold ENOENT. done.
Qed.

(** The lowest descriptor that is not open. *)
Definition lowest_free (t : Task) (fd : nat) : Prop :=
  is_open t (Z.of_nat fd) = false ∧ ∀ i, (i < fd)%nat → is_open t (Z.of_nat i) = true.

Lemma free_slot_spec fs : ∀ i, match free_slot fs i with
  | Some j => (i ≤ j < i + length fs)%nat ∧ fs !! (j - i)%nat = Some None ∧
      ∀ n, (n < j - i)%nat → ∃ a, fs !! n = Some (Some a)
  | None => ∀ n, (n < length fs)%nat → ∃ a, fs !! n = Some (Some a)
  end.
Proof.
  induction fs as [|[a|] fs IH]; intros i; cbn [free_slot]; [simpl; lia| |].
  - specialize (IH (S i)). destruct (free_slot fs (S i)) as [j|].
    + destruct IH as (Hj & Hnone & Hn). simpl. split; [lia|]. replace (j - i)%nat with (S (j - S i)) by lia. split; [done|].
      intros [|n] Hlt; [by exists a|]. apply Hn. lia.
    + intros [|n] Hlt; [by exists a|]. apply IH. simpl in Hlt. lia.
  - rewrite Nat.sub_diag. simpl. split_and!; [lia|lia|done|lia].
Qed.

Lemma AllocateFD_spec t : let '(fd, t') := AllocateFD t in lowest_free t fd ∧ (fd < length (files_ t'))%nat ∧
  (∀ i a, files_ t !! i = Some (Some a) → files_ t' !! i = Some (Some a)).
Proof.
  unfold AllocateFD, lowest_free, is_open. pose proof (free_slot_spec (files_ t) 0) as Hf.
  destruct (free_slot (files_ t) 0) as [j|]; rewrite ?Nat.sub_0_r in *.
  - destruct Hf as (Hj & Hnone & Hn). split_and!; [| |lia|done].
    + rewrite Nat2Z.id, Hnone. apply andb_false_r.
    + intros i Hi. rewrite Nat2Z.id. destruct (Hn i Hi) as [a ->]. by destruct (Z.leb_spec 0 (Z.of_nat i)); [|lia].
  - split_and!; [| |simpl; rewrite length_app; simpl; lia|simpl].
    + rewrite Nat2Z.id, lookup_ge_None_2 by lia. apply andb_false_r.
    + intros i Hi. rewrite Nat2Z.id. destruct (Hf i Hi) as [a ->]. by destruct (Z.leb_spec 0 (Z.of_nat i)); [|lia].
    + intros i a Hi. by apply lookup_app_l_Some.
Qed.

(** Opening an entry gives the lowest free descriptor, at the start of the file. *)
Lemma open_entry_spec k id t e : tasks_ (tm_of k) !! id = Some t →
  ∃ fd a k' t', open_entry k id e = Done (mkResult (Z.of_nat fd) 0, k') ∧ lowest_free t fd ∧
    tasks_ (tm_of k') !! id = Some t' ∧ files_ t' !! fd = Some (Some a) ∧
    file_objects k' !! a = Some (FatDescriptor (new_FatFD e)) ∧
    ∀ i b, files_ t !! i = Some (Some b) → files_ t' !! i = Some (Some b).
Proof.
  intros Ht. unfold open_entry. cbn [new_file new_addr]. unfold task.
  change (tm_of (set_file_objects _ _)) with (tm_of k). rewrite Ht. cbn [of_option mbind outcome_bind].
  pose proof (AllocateFD_spec t) as Ha. destruct (AllocateFD t) as [fd t1]. destruct Ha as (Hlow & Hlen & Hold).
  eexists fd, _, _, _. split; [reflexivity|]. split; [done|]. split; [apply lookup_insert_eq|].
  split; [simpl; by apply list_lookup_insert_eq|]. split; [apply lookup_insert_eq|].
  intros i b Hb. destruct (decide (i = fd)) as [->|Hne].
  - destruct Hlow as [Hc _]. unfold is_open in Hc. rewrite Nat2Z.id, Hb in Hc.
    destruct (Z.leb_spec 0 (Z.of_nat fd)); [done|lia].
  - simpl. rewrite list_lookup_insert_ne by done. by apply Hold.
Qed.

Lemma current_task_lookup k id t : current_task k = Done (id, t) → tasks_ (tm_of k) !! id = Some t.
Proof.
  unfold current_task. intros E. apply bind_Done_inv in E as (i & _ & E).
  apply bind_Done_inv in E as (u & Eu & [= <- <-]). by apply of_option_Done.
Qed.
End calls.
End FileCallFacts.

Import FileCallFacts.

(** ** Properties *)

(** C20 file calls
    The errors of the calls on files.  [PutString], [OpenFile], [ReadFile] and
    [MapFile] fail exactly when expected: with E2BIG for more than 1024 bytes, EBADF
    for a descriptor that is not open, ENOENT for a file that does not exist and may
    not be made, for a missing parent directory and for a slash behind a regular
    file, EISDIR for a new file's path that ends in a slash.  A call that fails
    returns 0 and leaves the whole kernel as it was.  A call that should not fail
    returns no error; [OpenFile] then gives the lowest descriptor that is not open,
    the others stay. *)
Theorem file_calls_errors {H : Type} `{System H} `{FontLib} (k : Kernel H) (id : Z) (t : Task) (c : file_call) (e : Z)
  (Hcur : current_task k = Done (id, t)) (Hexp : expected_errno (volume k) t c = Done e) :
  (e ≠ 0 → run_call k c = Done (mkResult 0 e, k)) ∧
  (e = 0 → ∀ r k', run_call k c = Done (r, k') → res_error r = 0 ∧
     match c with
     | CallOpen path _ => path ≠ chars "@stdin" →
         ∃ fd a t' entry, res_value r = Z.of_nat fd ∧ lowest_free t fd ∧ tasks_ (tm_of k') !! id = Some t' ∧
           files_ t' !! fd = Some (Some a) ∧ file_objects k' !! a = Some (FatDescriptor (new_FatFD entry)) ∧
           ∀ i b, files_ t !! i = Some (Some b) → files_ t' !! i = Some (Some b)
     | _ => True
     end).
Proof.
  pose proof (current_task_lookup k id t Hcur) as Ht.
  assert (Hentry : ∀ v entry r k', open_entry (set_volume k v) id entry = Done (r, k') → res_error r = 0 ∧
    ∃ fd a t' entry, res_value r = Z.of_nat fd ∧ lowest_free t fd ∧ tasks_ (tm_of k') !! id = Some t' ∧
      files_ t' !! fd = Some (Some a) ∧ file_objects k' !! a = Some (FatDescriptor (new_FatFD entry)) ∧
      ∀ i b, files_ t !! i = Some (Some b) → files_ t' !! i = Some (Some b)).
  { intros v entry r k' E. destruct (open_entry_spec (set_volume k v) id t entry Ht) as (fd & a & k2 & t2 & E2 & Hrest).
    rewrite E in E2. injection E2 as -> ->. split; [done|]. exists fd, a, t2, entry. done. }
  destruct c as [fd s|path flags|fd count|fd]; cbn [expected_errno run_call] in *.
  - injection Hexp as <-. unfold PutString. destruct (1024 <? Z.of_nat (length s)); [done|].
    destruct (open_file_spec k id t fd Hcur) as (f & -> & ->). cbn [mbind outcome_bind].
    destruct f as [a|]; simpl; [|done]. split; [done|]. intros _ r k' E. apply bind_Done_inv in E as ([n [k1 b]] & _ & [= <- <-]). done.
  - unfold OpenFile. rewrite Hcur. cbn [mbind outcome_bind]. case_bool_decide as Hstdin.
    + injection Hexp as <-. split; [done|]. intros _ r k' [= <- <-]. by split.
    + apply bind_Done_inv in Hexp as ([file ps] & -> & Hexp). cbn [mbind outcome_bind]. destruct file as [entry|].
      * injection Hexp as <-. destruct (negb (entry_attr (volume k) entry =? kDirectory) && ps); [done|]. split; [done|].
        intros _ r k' E. destruct (Hentry (volume k) entry r k') as [? ?]; [by destruct k|by split].
      * destruct (Z.land (i32 flags) O_CREAT =? 0); [by injection Hexp as <-|].
        destruct (create_file_spec _ _ _ Hexp) as [Hfail Hok]. split.
        -- intros He. rewrite (Hfail He). cbn [mbind outcome_bind]. destruct (Z.eqb_spec e 0); [done|]. by destruct k.
        -- intros He r k' E. apply bind_Done_inv in E as ([[nf err] v] & Ec & E).
           destruct (Hok He _ _ _ Ec) as [-> [x ->]]. simpl in E. destruct (Hentry v x r k' E). by split.
  - injection Hexp as <-. unfold ReadFile. destruct (open_file_spec k id t (i32 fd) Hcur) as (f & -> & ->).
    cbn [mbind outcome_bind]. destruct f as [a|]; simpl; [|done]. split; [done|]. intros _ r k' E.
    apply bind_Done_inv in E as ([[r1 b] k1] & E & [= <- <-]).
    apply bind_Done_inv in E as ([bytes [k2 b2]] & _ & [= <- _ _]). done.
  - injection Hexp as <-. unfold MapFile. destruct (open_file_spec k id t (i32 fd) Hcur) as (f & -> & ->).
    cbn [mbind outcome_bind]. destruct f as [a|]; simpl; [|done]. split; [done|]. intros _ r k' E.
    apply bind_Done_inv in E as ([[r1 b] k1] & E & [= <- <-]). rewrite Hcur in E. cbn [mbind outcome_bind] in E.
    apply bind_Done_inv in E as (sz & _ & E). apply bind_Done_inv in E as (k2 & _ & [= <- _ _]). done.
Qed.

#[local] Instance sample_fonts : FontLib := {|
  fl_hankaku := ∅; fl_hankaku_size := 0; fl_New_Memory_Face := 1; fl_Set_Pixel_Sizes := 0;
  fl_Get_Char_Index _ := 0; fl_Load_Glyph _ := (0, mkGlyph 0 0 0 ∅ 0 0 0 0 0 1);
|}.
#[local] Instance sample_system : System unit := {|
  screen_format := kPixelRGBResv8BitPerColor; pml4_table := 0; TaskTerminal_entry := 0;
  run_others _ k := mret k; wait_turns := 1; CallApp k _ _ _ _ := mret (0, k);
|}.

(** A kernel whose current task has no open file. *)
Definition sample_kernel : Kernel unit :=
  mkKernel small_desktop new_TimerManager sample_volume (mkPS 0 ∅ sample_mm)
    (new_Logger (new_Console (mkColor 0 0 0) (mkColor 0 0 0) 1 1)) (small_fb 7) ∅ ∅ ∅ ∅ ∅ [] tt 0x1000.

Lemma file_calls_errors_witness :
  run_call sample_kernel (CallOpen (chars "d/x") 0x200) = Done (mkResult 0 ENOENT, sample_kernel) ∧
  run_call sample_kernel (CallRead 3 10) = Done (mkResult 0 EBADF, sample_kernel) ∧
  ∀ r k', run_call sample_kernel (CallOpen (chars "x") 0x200) = Done (r, k') → res_error r = 0.
Proof.
  assert (Hcur : current_task sample_kernel = Done (1, sample_task 1 1 true)) by reflexivity.
  split; [|split].
  - apply (file_calls_errors sample_kernel 1 _ (CallOpen (chars "d/x") 0x200) ENOENT Hcur); [vm_compute; reflexivity|done].
  - apply (file_calls_errors sample_kernel 1 _ (CallRead 3 10) EBADF Hcur); [vm_compute; reflexivity|done].
  - intros r k' E. apply (file_calls_errors sample_kernel 1 _ (CallOpen (chars "x") 0x200) 0 Hcur) in E as [H _];
      [exact H|vm_compute; reflexivity|done].
Defined.
