(* ===== verification/TerminalText.v ===== *)
(** What a terminal draws: printing text and typing keys stay inside the window,
    and the cursor follows the text. *)
From S2P Require Import Prelude ErrorCode MemoryManager FrameAllocator Paging Message Task Timer Graphics.
From S2P Require Import FrameBuffer Font Window Layer SafeDesktop Console File Fat FatFile.
From S2P Require Import Pci Pipe Terminal Logger Kernel ExecuteLine.
Import QueueFacts SchedFacts RunFacts TickFacts DrawFacts FBFacts WindowFacts KeptFacts SizedFacts.

(** ** Printing *)
Module TextFacts.

(** A terminal that shows a window of its size, with its cursor in the grid. *)
Record text_ok (idle win layer : Z) (t : Terminal) (d : Desktop) : Prop := {
  tx_shows : show_window_ t = true;
  tx_window : Terminal.window_ t = Some win;
  tx_layer : term_layer_id_ t = Some layer;
  tx_pixels : ∃ w, windows d !! win = Some w ∧ window_sized w ∧ width_ w = 496 ∧ height_ w = 276;
  tx_x : 0 ≤ vx (cursor_ t) ≤ kColumns;
  tx_y : 0 ≤ vy (cursor_ t) < kRows;
  tx_tm : tm_wf idle (task_manager d);
}.

(** Only the window [win] of the desktop has changed, by drawing. *)
Definition redrawn (win : Z) (d d' : Desktop) : Prop :=
  ∃ w w', windows d !! win = Some w ∧ drawn_on w w' ∧ d' = set_windows d (<[win := w']> (windows d)).

Lemma redrawn_refl win w d : windows d !! win = Some w → window_sized w → redrawn win d d.
Proof. intros Hw Hs. exists w, w. rewrite insert_id by done. split_and!; [done|by apply drawn_on_refl|by destruct d]. Qed.

Lemma redrawn_trans win d1 d2 d3 : redrawn win d1 d2 → redrawn win d2 d3 → redrawn win d1 d3.
Proof.
  intros (w1 & w2 & H1 & D1 & ->) (w2' & w3 & H2 & D2 & ->). simpl in H2. rewrite lookup_insert_eq in H2. injection H2 as <-.
  exists w1, w3. split_and!; [done|by eapply drawn_on_trans|]. unfold set_windows. simpl. by rewrite insert_insert_eq.
Qed.

Lemma text_ok_cursor idle win layer t d c : text_ok idle win layer t d → 0 ≤ vx c ≤ kColumns → 0 ≤ vy c < kRows →
  text_ok idle win layer (set_cursor t c) d.
Proof. intros [] ? ?. by split. Qed.

Lemma text_redrawn idle win layer t d : text_ok idle win layer t d → redrawn win d d.
Proof. intros [_ _ _ (w & Hw & Hs & _) _ _ _]. by eapply redrawn_refl. Qed.

(** Drawing that stays inside the window. *)
Lemma on_window_ok idle win layer t d f : text_ok idle win layer t d →
  (∀ w, window_sized w → width_ w = 496 → height_ w = 276 → ∃ w', f w = Done w' ∧ drawn_on w w') →
  ∃ d', on_window t d f = Done d' ∧ text_ok idle win layer t d' ∧ redrawn win d d'.
Proof.
  intros [Hs Hwin Hl (w & Hw & Hsz & HW & HH) Hx Hy Htm] Hf. destruct (Hf w Hsz HW HH) as (w' & E & Hd). pose proof Hd as [Hsz' HW' HH' _].
  unfold on_window. rewrite Hwin. cbn [of_option mbind outcome_bind]. rewrite Hw. cbn [of_option mbind outcome_bind].
  rewrite E. cbn [mbind outcome_bind]. eexists. split; [reflexivity|]. split; [|by exists w, w'].
  split; try done. exists w'. simpl. rewrite lookup_insert_eq. split_and!; [done|done|lia|lia].
Qed.

Lemma foldM_map {A S S'} (g : S' → S) (f : A → S → outcome S) (f' : A → S' → outcome S') l :
  (∀ x s, f x (g s) = (s' ← f' x s; mret (g s'))) → ∀ s, foldM f l (g s) = (s' ← foldM f' l s; mret (g s')).
Proof.
  intros Hf. induction l as [|x l IH]; intros s; [done|]. cbn [foldM]. rewrite Hf.
  destruct (f' x s); simpl; [apply IH|done|done].
Qed.

Lemma FillRectangle_inner w pos size c :
  FillRectangle (mkInner w) pos size c = (w' ← FillRectangle w (pos +v kTopLeftMargin) size c; mret (mkInner w')).
Proof.
  unfold FillRectangle, for_loop. apply foldM_map. intros dy s. apply foldM_map. intros dx s'.
  change (inner_Write (mkInner s') (pos +v mkVec dx dy) c = (w ← window_Write s' (pos +v kTopLeftMargin +v mkVec dx dy) c; mret (mkInner w))).
  unfold inner_Write. simpl inner_window. do 2 f_equal. unfold vec_add. simpl. f_equal; lia.
Qed.

Lemma on_inner_fill idle win layer t d pos size c : text_ok idle win layer t d →
  0 ≤ vx pos → 0 ≤ vy pos → 0 ≤ vx size → 0 ≤ vy size → vx pos + vx size ≤ 492 → vy pos + vy size ≤ 252 →
  ∃ d', on_inner t d (λ i, FillRectangle i pos size c) = Done d' ∧ text_ok idle win layer t d' ∧ redrawn win d d'.
Proof.
  intros Hok Hx Hy Hsx Hsy HW HH. apply (on_window_ok _ _ _ _ _ _ Hok). intros w Hw EW EH.
  destruct (FillRectangle_sized w (pos +v kTopLeftMargin) size c) as (w' & E & Hd); [done|simpl; lia..|].
  exists w'. rewrite FillRectangle_inner, E. done.
Qed.

Lemma Scroll1_ok idle win layer t d : text_ok idle win layer t d →
  ∃ d', Scroll1 t d = Done d' ∧ text_ok idle win layer t d' ∧ redrawn win d d'.
Proof.
  intros Hok. unfold Scroll1.
  destruct (on_window_ok idle win layer t d (λ w, window_Move w (kTopLeftMargin +v mkVec 4 4)
    (mkRect (kTopLeftMargin +v mkVec 4 (4 + 16)) (mkVec (8 * kColumns) (16 * (kRows - 1))))) Hok) as (d1 & -> & Hok1 & Hr1).
  { intros w Hw EW EH. apply window_Move_sized; simpl; unfold kColumns, kRows; lia || done. }
  cbn [mbind outcome_bind]. pose proof (tx_y _ _ _ _ _ Hok) as Hy. unfold kRows in Hy.
  destruct (on_inner_fill idle win layer t d1 (mkVec 4 (4 + 16 * vy (cursor_ t))) (mkVec (8 * kColumns) 16) black Hok1)
    as (d2 & -> & Hok2 & Hr2); [simpl; unfold kColumns; lia..|].
  exists d2. split; [done|]. split; [done|]. by eapply redrawn_trans.
Qed.

(** *** The layout of text on the grid *)

(** The start of the next row; the last row stays the last. *)
Definition next_row (p : Vector2D) : Vector2D := mkVec 0 (Z.min (vy p + 1) (kRows - 1)).

(** Where the cursor goes with an ASCII character: past the last column it first
    goes to the next row. *)
Definition advance (p : Vector2D) (c : Z) : Vector2D :=
  if c =? 10 then next_row p
  else let p := if vx p =? kColumns then next_row p else p in mkVec (vx p + 1) (vy p).

Definition layout (cs : list Z) (p : Vector2D) : Vector2D := foldl advance p cs.

Definition in_grid (p : Vector2D) : Prop := 0 ≤ vx p ≤ kColumns ∧ 0 ≤ vy p < kRows.

Lemma next_row_grid p : in_grid p → in_grid (next_row p).
Proof. unfold in_grid, next_row, kColumns, kRows. simpl. lia. Qed.

Lemma advance_grid p c : in_grid p → in_grid (advance p c).
Proof.
  intros Hp. pose proof (next_row_grid p Hp). unfold advance. destruct (c =? 10); [done|].
  destruct (Z.eqb_spec (vx p) kColumns); unfold in_grid, next_row, kColumns, kRows in *; simpl in *; lia.
Qed.

Section text.
Context `{FontLib}.

Lemma DrawCursor_ok idle win layer t d b : text_ok idle win layer t d →
  ∃ d', DrawCursor t d b = Done d' ∧ text_ok idle win layer t d' ∧ redrawn win d d'.
Proof.
  intros Hok. unfold DrawCursor. rewrite (tx_shows _ _ _ _ _ Hok). apply on_window_ok; [done|].
  pose proof (tx_x _ _ _ _ _ Hok). pose proof (tx_y _ _ _ _ _ Hok). unfold kColumns, kRows in *.
  intros w Hw EW EH. apply FillRectangle_sized; simpl; lia || done.
Qed.

Lemma newline_ok idle win layer t d : text_ok idle win layer t d →
  ∃ d', newline t d = Done (set_cursor t (next_row (cursor_ t)), d') ∧
    text_ok idle win layer (set_cursor t (next_row (cursor_ t))) d' ∧ redrawn win d d'.
Proof.
  intros Hok. pose proof (tx_x _ _ _ _ _ Hok). pose proof (tx_y _ _ _ _ _ Hok).
  assert (Hn : in_grid (next_row (cursor_ t))) by by apply next_row_grid.
  pose proof (text_ok_cursor _ _ _ _ _ _ Hok (proj1 Hn) (proj2 Hn)) as Hok'.
  unfold newline, next_row in *. simpl vy in *. destruct (Z.ltb_spec (vy (cursor_ t)) (kRows - 1)).
  - replace (Z.min (vy (cursor_ t) + 1) (kRows - 1)) with (vy (cursor_ t) + 1) in * by lia.
    exists d. split; [by destruct t|]. split; [done|]. by eapply text_redrawn.
  - replace (Z.min (vy (cursor_ t) + 1) (kRows - 1)) with (vy (cursor_ t)) in * by lia.
    destruct (Scroll1_ok _ _ _ _ _ Hok') as (d' & -> & Hok2 & Hr). by exists d'.
Qed.

(** One ASCII character drawn at the cursor. *)
Lemma draw_char_ok idle win layer t d c : text_ok idle win layer t d → c ≤ 0x7f → vx (cursor_ t) < kColumns →
  ∃ d', on_window t d (λ w, '(_, w) ← font_unicode w (CalcCursorPos t) c white; mret w) = Done d' ∧
    text_ok idle win layer t d' ∧ redrawn win d d'.
Proof.
  intros Hok Hc Hx. apply on_window_ok; [done|]. intros w Hw EW EH.
  pose proof (tx_x _ _ _ _ _ Hok). pose proof (tx_y _ _ _ _ _ Hok). unfold kColumns, kRows in *.
  destruct (font_ascii_sized w (CalcCursorPos t) c white Hw) as (w' & E & Hd); [simpl; lia..|].
  exists w'. split; [|done]. unfold font_unicode, WriteUnicode. destruct (Z.leb_spec c 0x7f); [|lia].
  unfold font_ascii in E. rewrite E. done.
Qed.

Lemma Print_char_ok idle win layer t d c : text_ok idle win layer t d → ascii c →
  ∃ d', Print_char t d c = Done (set_cursor t (advance (cursor_ t) c), d') ∧
    text_ok idle win layer (set_cursor t (advance (cursor_ t) c)) d' ∧ redrawn win d d'.
Proof.
  intros Hok Hc. unfold Print_char, advance. rewrite (tx_shows _ _ _ _ _ Hok). cbn [negb].
  destruct (c =? 10); [by apply newline_ok|]. unfold ascii in Hc. unfold IsHankaku. destruct (Z.leb_spec c 0x7f); [|lia].
  assert (H1 : ∃ t1 d1, (if vx (cursor_ t) =? kColumns then newline t d else mret (t, d)) = Done (t1, d1) ∧
    text_ok idle win layer t1 d1 ∧ redrawn win d d1 ∧ t1 = set_cursor t (cursor_ t1) ∧ vx (cursor_ t1) < kColumns ∧
    cursor_ t1 = if vx (cursor_ t) =? kColumns then next_row (cursor_ t) else cursor_ t).
  { pose proof (tx_x _ _ _ _ _ Hok). destruct (Z.eqb_spec (vx (cursor_ t)) kColumns).
    - destruct (newline_ok _ _ _ _ _ Hok) as (d1 & -> & Hok1 & Hr1). eexists _, d1. split; [reflexivity|]. done.
    - exists t, d. split_and!; [done|done|by eapply text_redrawn|by destruct t|lia|done]. }
  destruct H1 as (t1 & d1 & -> & Hok1 & Hr1 & Ht1 & Hx1 & Hc1). cbn [mbind outcome_bind].
  destruct (draw_char_ok _ _ _ _ _ c Hok1 ltac:(lia) Hx1) as (d2 & -> & Hok2 & Hr2). cbn [mbind outcome_bind].
  exists d2. rewrite <- Hc1. split; [by rewrite Ht1|]. split; [|by eapply redrawn_trans].
  pose proof (text_ok_cursor _ _ _ _ _ (mkVec (vx (cursor_ t1) + 1) (vy (cursor_ t1))) Hok2) as Hcur.
  rewrite Ht1 in Hcur. apply Hcur; [|apply (tx_y _ _ _ _ _ Hok1)].
  pose proof (tx_x _ _ _ _ _ Hok1). simpl. lia.
Qed.

Lemma ConvertUTF8To32_ascii c s : ascii c → ConvertUTF8To32 (c :: s) = Done (c, 1).
Proof.
  intros Hc. unfold ascii in Hc. unfold ConvertUTF8To32, char_at. cbn [lookup list_lookup of_option mbind outcome_bind].
  unfold CountUTF8Size. by destruct (Z.ltb_spec c 0x80); [|lia].
Qed.

Lemma print_loop_ok idle win layer cs : Forall ascii cs → ∀ fuel t d i len, text_ok idle win layer t d →
  (length cs < fuel)%nat → 0 ≤ i →
  ∃ d', print_loop fuel t d (cs ++ [0]) i len =
      Done (set_cursor t (layout (take (Z.to_nat (len - i)) cs) (cursor_ t)), d') ∧
    text_ok idle win layer (set_cursor t (layout (take (Z.to_nat (len - i)) cs) (cursor_ t))) d' ∧ redrawn win d d'.
Proof.
  induction 1 as [|c cs Hc Hcs IH]; intros fuel t d i len Hok Hfuel Hi;
    (destruct fuel as [|fuel]; [simpl in Hfuel; lia|]); cbn [print_loop app]; unfold char_at; cbn [lookup list_lookup of_option mbind outcome_bind].
  - rewrite take_nil. exists d. split; [by destruct t|]. split; [by destruct t|]. by eapply text_redrawn.
  - destruct (Z.eqb_spec c 0); [unfold ascii in Hc; lia|]. destruct (Z.ltb_spec i len); cbn [negb andb].
    + rewrite ConvertUTF8To32_ascii by done. cbn [mbind outcome_bind].
      destruct (Print_char_ok _ _ _ _ _ c Hok Hc) as (d1 & -> & Hok1 & Hr1). cbn [mbind outcome_bind].
      change (drop (Z.to_nat 1) (c :: cs ++ [0])) with (cs ++ [0]).
      destruct (IH fuel _ d1 (i + 1) len Hok1) as (d2 & E & Hok2 & Hr2); [simpl in Hfuel; lia|lia|].
      rewrite E. replace (Z.to_nat (len - i)) with (S (Z.to_nat (len - (i + 1)))) by lia.
      exists d2. split; [done|]. split; [done|]. by eapply redrawn_trans.
    + replace (Z.to_nat (len - i)) with O by lia. exists d. split; [by destruct t|]. split; [by destruct t|].
      by eapply text_redrawn.
Qed.
End text.
End TextFacts.

Import TextFacts.

(** ** Typing *)
Module KeyFacts.

(** The line being edited: its characters, the column of the cursor, and the place
    in the history. *)
Record editor : Set := mkEd { ed_line : list Z; ed_column : Z; ed_history : Z }.

(** What a key other than Enter does to it, with the lines of the history. *)
Definition edit (history : list (list Z)) (e : editor) (keycode ascii : Z) : editor :=
  let recall i := let l := if 0 <=? i then default [] (history !! Z.to_nat i) else [] in mkEd l (Z.of_nat (length l) + 1) i in
  if ascii =? 8 then
    if 1 <? ed_column e then mkEd (removelast (ed_line e)) (ed_column e - 1) (ed_history e) else e
  else if negb (ascii =? 0) then
    if ed_column e <? kColumns - 1 then mkEd (ed_line e ++ [ascii]) (ed_column e + 1) (ed_history e) else e
  else if keycode =? 0x51 then recall (if 0 <=? ed_history e then ed_history e - 1 else ed_history e)
  else if keycode =? 0x52 then
    recall (if ed_history e + 1 <? Z.of_nat (length history) then ed_history e + 1 else ed_history e)
  else e.

(** The line that a terminal holds. *)
Definition edited (t : Terminal) : editor :=
  mkEd (take (Z.to_nat (linebuf_index_ t)) (linebuf_ t)) (vx (cursor_ t)) (cmd_history_index_ t).
Definition history (t : Terminal) : list (list Z) := cstr <$> cmd_history_ t.

(** A terminal at its prompt: the line is shorter than the columns left of the
    cursor, and every line of the history fits a row. *)
Record term_ok (idle win layer : Z) (t : Terminal) (d : Desktop) : Prop := {
  tk_text : text_ok idle win layer t d;
  tk_buf : Z.of_nat (length (linebuf_ t)) = kLineMax;
  tk_column : 1 ≤ vx (cursor_ t);
  tk_index : 0 ≤ linebuf_index_ t ≤ vx (cursor_ t) - 1;
  tk_short : linebuf_index_ t ≤ kColumns - 2;
  tk_history : Forall (λ h, Z.of_nat (length h) = kLineMax ∧ Z.of_nat (length (cstr h)) ≤ kColumns - 2 ∧ Forall ascii (cstr h))
                 (cmd_history_ t);
  tk_place : -1 ≤ cmd_history_index_ t < Z.of_nat (length (cmd_history_ t));
  tk_some : 1 ≤ Z.of_nat (length (cmd_history_ t));
}.

Lemma term_ok_redrawn idle win layer t d d' : term_ok idle win layer t d → text_ok idle win layer t d' →
  term_ok idle win layer t d'.
Proof. intros []. by split. Qed.

Section keys.
Context `{FontLib}.

Lemma input_char_ok idle win layer t d c : term_ok idle win layer t d → ascii c → c ≠ 8 → c ≠ 10 →
  ∃ t' d', input_char t d c = Done (t', d') ∧ term_ok idle win layer t' d' ∧ redrawn win d d' ∧
    edited t' = edit (history t) (edited t) 0 c ∧ history t' = history t ∧ vy (cursor_ t') = vy (cursor_ t).
Proof.
  intros Hok Hc H8 H10. destruct Hok as [Htx Hbuf Hcol Hidx Hshort Hhist Hpl Hsm]. unfold ascii in Hc.
  unfold input_char, edit. destruct (Z.eqb_spec c 8); [done|]. destruct (Z.eqb_spec c 0); [lia|]. cbn [negb].
  cbn [edited ed_column ed_line ed_history]. unfold kLineMax, kColumns in *.
  destruct (Z.ltb_spec (vx (cursor_ t)) (60 - 1)); cbn [andb].
  2: { exists t, d. split_and!; try done. by eapply text_redrawn. }
  destruct (Z.ltb_spec (linebuf_index_ t) (128 - 1)); [|lia]. unfold linebuf_set.
  destruct (Z.leb_spec 0 (linebuf_index_ t)); [|lia]. destruct (Z.ltb_spec (linebuf_index_ t) (Z.of_nat (length (linebuf_ t)))); [|lia].
  cbn [andb mbind outcome_bind]. set (t1 := set_line t (linebuf_index_ t + 1) (<[Z.to_nat (linebuf_index_ t) := c]> (linebuf_ t))).
  assert (Htx1 : text_ok idle win layer t1 d) by (destruct Htx; by split).
  cbn [mret outcome_ret mbind outcome_bind]. fold t1.
  change (show_window_ t1) with (show_window_ t). rewrite (tx_shows _ _ _ _ _ Htx).
  destruct (on_window_ok _ _ _ _ _ (λ w, font_ascii w (CalcCursorPos t1) c white) Htx1) as (d1 & -> & Htx2 & Hr).
  { pose proof (tx_y _ _ _ _ _ Htx). unfold kRows in *. intros w Hw EW EH. apply font_ascii_sized; simpl; lia || done. }
  cbn [mbind outcome_bind]. eexists _, d1. split; [reflexivity|]. split_and!; [|done| |done|done].
  - split; simpl; unfold kColumns, kLineMax; try done; try lia; [|by rewrite length_insert].
    apply (text_ok_cursor _ _ _ t1); [done|simpl; unfold kColumns; lia|apply (tx_y _ _ _ _ _ Htx)].
  - unfold edited. simpl. f_equal. rewrite Z2Nat.inj_add by lia. change (Z.to_nat 1) with 1%nat. rewrite Nat.add_1_r.
    rewrite (take_S_r _ _ c) by (apply list_lookup_insert_eq; lia). by rewrite take_insert_ge by lia.
Qed.

Lemma input_backspace_ok idle win layer t d area : term_ok idle win layer t d →
  ∃ area' t' d', input_backspace t d area = Done (area', t', d') ∧ term_ok idle win layer t' d' ∧ redrawn win d d' ∧
    edited t' = edit (history t) (edited t) 0 8 ∧ history t' = history t ∧ vy (cursor_ t') = vy (cursor_ t).
Proof.
  intros Hok. destruct Hok as [Htx Hbuf Hcol Hidx Hshort Hhist Hpl Hsm]. unfold input_backspace, edit. rewrite Z.eqb_refl.
  cbn [edited ed_column ed_line ed_history]. destruct (Z.ltb_spec 1 (vx (cursor_ t))).
  2: { eexists _, t, d. split_and!; try done. by eapply text_redrawn. }
  set (t1 := set_cursor t (mkVec (vx (cursor_ t) - 1) (vy (cursor_ t)))). pose proof (tx_y _ _ _ _ _ Htx). pose proof (tx_x _ _ _ _ _ Htx). unfold kColumns, kRows in *.
  assert (Htx1 : text_ok idle win layer t1 d) by (apply text_ok_cursor; simpl; unfold kColumns, kRows; lia || done).
  change (show_window_ t1) with (show_window_ t). rewrite (tx_shows _ _ _ _ _ Htx).
  destruct (on_window_ok _ _ _ _ _ (λ w, FillRectangle w (CalcCursorPos t1) (mkVec 8 16) black) Htx1) as (d1 & -> & Htx2 & Hr).
  { intros w Hw EW EH. apply FillRectangle_sized; simpl; lia || done. }
  cbn [mbind outcome_bind]. eexists _, _, d1. split; [reflexivity|].
  change (linebuf_index_ t1) with (linebuf_index_ t). change (linebuf_ t1) with (linebuf_ t).
  destruct (Z.ltb_spec 0 (linebuf_index_ t)).
  - split_and!; [|done| |done|done].
    + split; simpl; unfold kColumns; try done; try lia. destruct Htx2. by split.
    + unfold edited. simpl. f_equal. replace (Z.to_nat (linebuf_index_ t)) with (S (Z.to_nat (linebuf_index_ t - 1))) by lia.
      destruct (lookup_lt_is_Some_2 (linebuf_ t) (Z.to_nat (linebuf_index_ t - 1))) as [x Hx]; [unfold kLineMax in *; lia|].
      rewrite (take_S_r _ _ x) by done. by rewrite removelast_last.
  - split_and!; [|done| |done|done].
    + split; simpl; unfold kColumns; try done; lia.
    + unfold edited. simpl. f_equal. replace (linebuf_index_ t) with 0 by lia. done.
Qed.

(** The line of the history that is recalled. *)
Lemma history_recalled t i h : cmd_history_ t !! Z.to_nat i = Some h → default [] (history t !! Z.to_nat i) = cstr h.
Proof. intros Hh. unfold history. by rewrite list_lookup_fmap, Hh. Qed.

Lemma linebuf_strcpy_ok t s : Z.of_nat (length (linebuf_ t)) = kLineMax → Z.of_nat (length s) ≤ kColumns - 2 →
  ∃ l, linebuf_strcpy t s = Done l ∧ Z.of_nat (length l) = kLineMax ∧ take (length s) l = s.
Proof.
  unfold kLineMax, kColumns, linebuf_strcpy. intros Hl Hs. destruct (Z.ltb_spec (Z.of_nat (length s)) (Z.of_nat (length (linebuf_ t)))); [|lia].
  eexists. split; [reflexivity|]. split; [rewrite !length_app, length_drop; simpl; lia|by rewrite take_app_length].
Qed.

(** The place in the history after a move. *)
Definition history_place (direction : Z) (t : Terminal) : Z :=
  let index := cmd_history_index_ t in
  if (direction =? -1) && (0 <=? index) then index - 1
  else if (direction =? 1) && (index + 1 <? Z.of_nat (length (cmd_history_ t))) then index + 1
  else index.

Lemma HistoryUpDown_ok idle win layer t d direction : term_ok idle win layer t d →
  ∃ area t' d', HistoryUpDown t d direction = Done (area, t', d') ∧ term_ok idle win layer t' d' ∧ redrawn win d d' ∧
    (let i := history_place direction t in
     let l := if 0 <=? i then default [] (history t !! Z.to_nat i) else [] in
     edited t' = mkEd l (Z.of_nat (length l) + 1) i) ∧
    history t' = history t ∧ vy (cursor_ t') = vy (cursor_ t).
Proof.
  intros Hok. destruct Hok as [Htx Hbuf Hcol Hidx Hshort Hhist Hpl Hsm]. unfold HistoryUpDown. fold (history_place direction t).
  assert (Hi : -1 ≤ history_place direction t < Z.of_nat (length (cmd_history_ t))).
  { unfold history_place. cbn zeta. repeat case_match; lia. }
  cbn zeta. set (i := history_place direction t) in *. set (t1 := set_cursor (set_history t (cmd_history_ t) i) _).
  pose proof (tx_y _ _ _ _ _ Htx). unfold kRows in *.
  assert (Htx1 : text_ok idle win layer t1 d).
  { apply text_ok_cursor; [destruct Htx; by split|simpl; unfold kColumns; lia|simpl; unfold kRows; lia]. }
  destruct (on_window_ok _ _ _ _ _ (λ w, FillRectangle w (CalcCursorPos t1) (mkVec (8 * (kColumns - 1)) 16) black) Htx1)
    as (d1 & E1 & Htx2 & Hr1).
  { intros w Hw EW EH. apply FillRectangle_sized; simpl; unfold kColumns; lia || done. }
  cbn [rpos rsize]. rewrite E1. cbn [mbind outcome_bind].
  set (l := if 0 <=? i then default [] (history t !! Z.to_nat i) else []).
  assert (Hl : (if 0 <=? i then history_line t1 i else mret []) = Done l ∧
    Z.of_nat (length l) ≤ kColumns - 2 ∧ Forall ascii l).
  { unfold l. destruct (Z.leb_spec 0 i); [|split_and!; [done|done|by constructor]].
    destruct (lookup_lt_is_Some_2 (cmd_history_ t) (Z.to_nat i)) as [h Hh]; [lia|].
    unfold history_line. destruct (Z.ltb_spec i 0); [lia|]. change (cmd_history_ t1) with (cmd_history_ t).
    rewrite (history_recalled _ _ _ Hh), Hh. split; [done|]. by apply (Forall_lookup_1 _ _ _ _ Hhist Hh). }
  destruct Hl as (-> & Hlen & Hasc). cbn [mbind outcome_bind].
  destruct (linebuf_strcpy_ok t1 l Hbuf Hlen) as (buf & -> & Hbuf' & Htake). cbn [mbind outcome_bind].
  set (t2 := set_line t1 (Z.of_nat (length l)) buf).
  assert (Htx3 : text_ok idle win layer t2 d1) by (destruct Htx2; by split).
  destruct (on_window_ok _ _ _ _ _ (λ w, font_string w (CalcCursorPos t1) (l ++ [0]) white) Htx3) as (d2 & -> & Htx4 & Hr2).
  { intros w Hw EW EH. unfold kColumns in *. apply font_line_sized; simpl; lia || done. }
  cbn [mbind outcome_bind]. eexists _, _, d2. split; [reflexivity|]. split_and!; [| | |done|done].
  - split; simpl; unfold kColumns in *; try done; try lia.
    apply (text_ok_cursor _ _ _ t2); [done|simpl; unfold kColumns; lia|simpl; unfold kRows; lia].
  - by eapply redrawn_trans.
  - unfold edited. simpl. by rewrite Nat2Z.id, Htake.
Qed.

(** The keys of this part: every one with an ASCII character but Enter. *)
Definition editing_key (key : Z * Z) : Prop := 0 ≤ key.2 < 128 ∧ key.2 ≠ 10.

(** A step of [InputKey] between the two drawings of the cursor. *)
Lemma key_step idle win layer t d keycode c (draw_area : Rectangle) : term_ok idle win layer t d → editing_key (keycode, c) →
  ∃ area t' d',
    (if c =? 8 then input_backspace t d draw_area
     else if negb (c =? 0) then '(t, d) ← input_char t d c; mret (draw_area, t, d)
     else if keycode =? 0x51 then HistoryUpDown t d (-1)
     else if keycode =? 0x52 then HistoryUpDown t d 1
     else mret (draw_area, t, d)) = Done (area, t', d') ∧
    term_ok idle win layer t' d' ∧ redrawn win d d' ∧
    edited t' = edit (history t) (edited t) keycode c ∧ history t' = history t.
Proof.
  intros Hok [Hc H10]. simpl in Hc, H10. destruct (Z.eqb_spec c 8) as [->|H8].
  { destruct (input_backspace_ok _ _ _ _ _ draw_area Hok) as (area & t' & d' & E & Hok' & Hr & He & Hh & _).
    exists area, t', d'. split_and!; try done. }
  destruct (Z.eqb_spec c 0) as [->|H0]; cbn [negb].
  2: { destruct (input_char_ok _ _ _ _ _ c Hok) as (t' & d' & -> & Hok' & Hr & He & Hh & _); [unfold ascii; lia|done..|].
       exists draw_area, t', d'. split_and!; try done. rewrite He. unfold edit. destruct (Z.eqb_spec c 8); [done|].
       by destruct (Z.eqb_spec c 0). }
  unfold edit. cbn [Z.eqb negb]. pose proof (tk_text _ _ _ _ _ Hok) as Htx.
  destruct (Z.eqb_spec keycode 0x51); [|destruct (Z.eqb_spec keycode 0x52)].
  - destruct (HistoryUpDown_ok _ _ _ _ _ (-1) Hok) as (area & t' & d' & E & Hok' & Hr & He & Hh & _).
    exists area, t', d'. split_and!; try done.
  - destruct (HistoryUpDown_ok _ _ _ _ _ 1 Hok) as (area & t' & d' & E & Hok' & Hr & He & Hh & _).
    assert (Hlen : length (history t) = length (cmd_history_ t)) by apply length_fmap.
    exists area, t', d'. rewrite Hlen. split; [done|]. split; [done|]. split; [done|]. by rewrite He.
  - exists draw_area, t, d. split_and!; try done. by eapply text_redrawn.
Qed.

(** A kernel whose terminal [a] is [t]. *)
Record shows (idle win layer : Z) {H} (k : Kernel H) (a : Z) (t : Terminal) : Prop := {
  sh_terminal : terminal_objects k !! a = Some t;
  sh_ok : term_ok idle win layer t (desktop k);
}.
End keys.

Section typing.
Context {H : Type} `{IoPorts H} `{System H} `{FontLib}.

Lemma on_terminal_done {R} (k : Kernel H) a t (r : R) t' d' f : terminal_objects k !! a = Some t → f t (desktop k) = Done (r, t', d') →
  on_terminal k a f = Done (r, set_terminal_objects (set_desktop k d') (<[a := t']> (terminal_objects k))).
Proof. intros Ht Hf. unfold on_terminal. rewrite Ht. cbn [of_option mbind outcome_bind]. by rewrite Hf. Qed.

Lemma shows_set idle win layer (k : Kernel H) a t d : term_ok idle win layer t d →
  shows idle win layer (set_terminal_objects (set_desktop k d) (<[a := t]> (terminal_objects k))) a t.
Proof. split; [|done]. simpl. by rewrite lookup_insert_eq. Qed.

Lemma draw_cursor_step idle win layer (k : Kernel H) a t b : shows idle win layer k a t →
  ∃ k', on_terminal_ k a (λ t d, d ← DrawCursor t d b; mret (t, d)) = Done k' ∧ shows idle win layer k' a t ∧
    redrawn win (desktop k) (desktop k').
Proof.
  intros [Ht Hok]. destruct (DrawCursor_ok _ _ _ _ _ b (tk_text _ _ _ _ _ Hok)) as (d' & E & Htx & Hr).
  unfold on_terminal_. rewrite (on_terminal_done k a t tt t d') by (try done; by rewrite E).
  cbn [mbind outcome_bind]. eexists. split; [reflexivity|]. split; [|done]. apply shows_set. by eapply term_ok_redrawn.
Qed.

(** The keys that are not Enter as one function of the terminal and the desktop. *)
Lemma key_on_terminal (k : Kernel H) a t keycode c (draw_area : Rectangle) : terminal_objects k !! a = Some t →
  (if c =? 8 then on_terminal k a (λ t d, input_backspace t d draw_area)
   else if negb (c =? 0) then k ← on_terminal_ k a (λ t d, input_char t d c); mret (draw_area, k)
   else if keycode =? 0x51 then on_terminal k a (λ t d, HistoryUpDown t d (-1))
   else if keycode =? 0x52 then on_terminal k a (λ t d, HistoryUpDown t d 1)
   else mret (draw_area, k)) =
  on_terminal k a (λ t d,
    if c =? 8 then input_backspace t d draw_area
    else if negb (c =? 0) then '(t, d) ← input_char t d c; mret (draw_area, t, d)
    else if keycode =? 0x51 then HistoryUpDown t d (-1)
    else if keycode =? 0x52 then HistoryUpDown t d 1
    else mret (draw_area, t, d)).
Proof.
  intros Ht. destruct (c =? 8); [done|]. destruct (negb (c =? 0)).
  - unfold on_terminal_, on_terminal. rewrite Ht. cbn [of_option mbind outcome_bind].
    by destruct (input_char t (desktop k) c) as [[t' d']| |].
  - destruct (keycode =? 0x51); [done|]. destruct (keycode =? 0x52); [done|].
    unfold on_terminal. rewrite Ht. cbn [of_option mbind outcome_bind mret outcome_ret].
    rewrite insert_id by done. by destruct k.
Qed.

Lemma InputKey_ok idle win layer (k : Kernel H) a t keycode c : shows idle win layer k a t → editing_key (keycode, c) →
  ∃ area t' k', InputKey k a keycode c = Done (area, k') ∧ shows idle win layer k' a t' ∧
    redrawn win (desktop k) (desktop k') ∧
    edited t' = edit (history t) (edited t) keycode c ∧ history t' = history t.
Proof.
  intros Hs Hk. unfold InputKey. rewrite (sh_terminal _ _ _ _ _ _ Hs). cbn [of_option mbind outcome_bind].
  destruct (draw_cursor_step _ _ _ _ _ _ false Hs) as (k1 & -> & [Ht1 Hok1] & Hr1). cbn [mbind outcome_bind].
  destruct (Z.eqb_spec c 10); [by destruct Hk|].
  rewrite (key_on_terminal _ _ _ _ _ _ Ht1).
  destruct (key_step _ _ _ _ _ keycode c (mkRect (CalcCursorPos t) (mkVec (8 * 2) 16)) Hok1 Hk)
    as (area & t2 & d2 & E & Hok2 & Hr2 & He & Hh).
  rewrite (on_terminal_done k1 a t area t2 d2 _ Ht1 E). cbn [mbind outcome_bind].
  destruct (draw_cursor_step _ _ _ _ _ _ true (shows_set _ _ _ k1 a _ _ Hok2)) as (k3 & -> & Hs3 & Hr3).
  cbn [mbind outcome_bind]. exists area, t2, k3. split_and!; try done.
  eapply redrawn_trans; [done|]. by eapply redrawn_trans.
Qed.
End typing.
End KeyFacts.

Import KeyFacts.

Definition type_keys {H : Type} `{IoPorts H} `{System H} `{FontLib} (k : Kernel H) (a : Z) (keys : list (Z * Z))
    : outcome (Kernel H) :=
  foldM (λ key k, '(_, k) ← InputKey k a key.1 key.2; mret k) keys k.

(** C14 typing
    Keys other than Enter, in any order and number, edit the line as [edit] says: a
    character is appended while there is room, back space takes the last one away,
    and the arrows fetch lines of the history; the line stays inside its buffer and
    inside the row, the history is kept, and on the desktop only the pixels of the
    terminal's own window change. *)
Theorem typing_edits {H : Type} `{IoPorts H} `{System H} `{FontLib} idle win layer (k : Kernel H) a t keys
    (Hs : shows idle win layer k a t) (Hkeys : Forall editing_key keys) :
  ∃ t' k', type_keys k a keys = Done k' ∧ shows idle win layer k' a t' ∧
    edited t' = foldl (λ e key, edit (history t) e key.1 key.2) (edited t) keys ∧
    history t' = history t ∧ redrawn win (desktop k) (desktop k').
Proof.
  revert k t Hs. induction Hkeys as [|[keycode c] keys Hk Hkeys IH]; intros k t Hs.
  - exists t, k. split_and!; try done. eapply text_redrawn. apply (tk_text _ _ _ _ _ (sh_ok _ _ _ _ _ _ Hs)).
  - destruct (InputKey_ok _ _ _ _ _ _ keycode c Hs Hk) as (area & t1 & k1 & E & Hs1 & Hr1 & He1 & Hh1).
    destruct (IH k1 t1 Hs1) as (t2 & k2 & E2 & Hs2 & He2 & Hh2 & Hr2).
    exists t2, k2. split_and!; [|done| |congruence|by eapply redrawn_trans].
    + unfold type_keys in *. cbn [foldM fst snd]. rewrite E. cbn [mbind outcome_bind]. apply E2.
    + cbn [foldl fst snd]. by rewrite He2, Hh1, He1.
Qed.


(** *** A terminal on a small system *)

#[local] Instance sample_fonts : FontLib := {|
  fl_hankaku := ∅; fl_hankaku_size := 4096; fl_New_Memory_Face := 1; fl_Set_Pixel_Sizes := 0;
  fl_Get_Char_Index _ := 0; fl_Load_Glyph _ := (0, mkGlyph 0 0 0 ∅ 0 0 0 0 0 1);
|}.
#[local] Instance sample_ports : IoPorts unit := {| IoOut32 h _ _ := h; IoIn32 h _ := (0, h) |}.
#[local] Instance sample_system : System unit := {|
  screen_format := kPixelRGBResv8BitPerColor; pml4_table := 0; TaskTerminal_entry := 0;
  run_others _ k := mret k; wait_turns := 1; CallApp k _ _ _ _ := mret (0, k);
|}.

(** The line [ls] was typed before; the prompt is on the last row. *)
Definition sample_terminal : Terminal :=
  mkTerminal (Some 10) (Some 1) 1 (mkVec 1 14) false 0 (replicate 128 0)
    ((chars "ls" ++ replicate 126 0) :: replicate 7 (replicate 128 0)) (-1) true [] 0.
Definition sample_desktop (w : Window) : Desktop := set_windows small_desktop (<[10 := w]> (windows small_desktop)).

Lemma sample_text_ok w : window_ok w → width_ w = 496 → height_ w = 276 →
  text_ok 2 10 1 sample_terminal (sample_desktop w).
Proof.
  intros Hw HW HH. split; try done; try (simpl; unfold kColumns, kRows; lia); [|apply sample_tm_wf].
  exists w. split; [apply lookup_insert_eq|]. split; [by apply window_ok_sized|done].
Qed.

Lemma text_window : ∃ w, window_ok w ∧ width_ w = 496 ∧ height_ w = 276.
Proof.
  destruct (new_Window_ok 496 276 kPixelRGBResv8BitPerColor) as (w & _ & Hw & HW & HH & _); [lia..|]. by exists w.
Qed.


Definition terminal_kernel (w : Window) : Kernel unit :=
  mkKernel (sample_desktop w) new_TimerManager sample_volume (mkPS 0 ∅ sample_mm)
    (new_Logger (new_Console (mkColor 0 0 0) (mkColor 0 0 0) 1 1)) (small_fb 7) ∅ {[0x2000 := sample_terminal]}
    ∅ ∅ ∅ [] tt 0x3000.

(** The last line is recalled, and its end is typed anew. *)
Lemma typing_edits_witness :
  ∃ w t' k', type_keys (terminal_kernel w) 0x2000 [(0, 120); (0x52, 0); (0, 8); (0, 115); (0, 33)] = Done k' ∧
    terminal_objects k' !! 0x2000 = Some t' ∧ edited t' = mkEd (chars "ls!") 4 0.
Proof.
  destruct text_window as (w & Hw & HW & HH). exists w.
  destruct (typing_edits 2 10 1 (terminal_kernel w) 0x2000 sample_terminal [(0, 120); (0x52, 0); (0, 8); (0, 115); (0, 33)])
    as (t' & k' & E & Hs & He & _).
  - split; [apply lookup_singleton_eq|]. split.
    + apply sample_text_ok; assumption.
    + reflexivity.
    + simpl. lia.
    + simpl. lia.
    + simpl. unfold kColumns. lia.
    + apply (bool_decide_unpack _). vm_compute. reflexivity.
    + simpl. lia.
    + simpl. lia.
  - repeat (apply Forall_cons; split; [unfold editing_key; simpl; lia|]). apply Forall_nil. exact I.
  - exists t', k'. split; [exact E|]. split; [apply Hs|]. rewrite He. vm_compute. reflexivity.
Defined.
