(* ===== verification/MainLoop.v ===== *)
(** The main task: its windows and its event loop, src/kernel/main.cpp. *)
From S2P Require Import Prelude ErrorCode MemoryManager FrameAllocator Paging Message Task Timer Graphics.
From S2P Require Import FrameBuffer Font Window Layer SafeDesktop Console File Fat FatFile Pci Pipe Terminal Logger Kernel ExecuteLine Syscall.
Import QueueFacts SchedFacts RunFacts TickFacts KeptFacts SizedFacts SafeFacts.

Section main.
Context {H : Type} `{System H} `{FontLib}.
Implicit Types k : Kernel H.

(** [printk]; [text] is what [vsprintf] puts into the buffer of 1024 bytes. *)
Definition printk k (text : list Z) : outcome (Kernel H) :=
  if 1024 <=? Z.of_nat (length text) then Undef
  else
    '(c, e) ← Console.PutString (console (logger k))
      (mkEnv (screen k) (windows (desktop k)) (Some (layer_manager (desktop k)))) text;
    lm ← of_option (env_manager e);
    let k := set_desktop k (set_windows (set_lm (desktop k) lm) (env_windows e)) in
    mret (set_logger k (mkLogger (log_level (logger k)) (log_fd (logger k)) c) (env_screen e)).

(** Drawing on the window at an address. *)
Definition draw_on (d : Desktop) (p : Z) (f : Window → outcome Window) : outcome Desktop :=
  w ← of_option (windows d !! p);
  w ← f w;
  mret (set_windows d (<[p := w]> (windows d))).

Definition inner_area (f : InnerArea → outcome InnerArea) (w : Window) : outcome Window :=
  i ← f (mkInner w); mret (inner_window i).

(** ** The windows *)

(** The new window's layer at [pos] on top of the others: its id. *)
Definition new_top_layer (d : Desktop) (a_win a_layer : Z) (pos : Vector2D) : Z * Desktop :=
  let '(a, lm) := NewLayer (layer_manager d) a_layer in
  let lm := update_layer lm a (λ l, layer_Move (SetDraggable (SetWindow l (Some a_win)) true) pos) in
  let id := Layer.latest_id_ lm in
  (id, set_lm d (UpDown lm id (2 ^ 31 - 1))).

Definition InitializeMainWindow (d : Desktop) (a_win a_layer : Z) : outcome (Z * Desktop) :=
  w ← new_ToplevelWindow 260 100 screen_format (chars "Hello Window" ++ [0]);
  w ← font_string w (mkVec 24 28) (chars "Welcome to" ++ [0]) black;
  w ← font_string w (mkVec 24 44) (chars " MinOS World!!" ++ [0]) black;
  mret (new_top_layer (set_windows d (<[a_win := w]> (windows d))) a_win a_layer (mkVec 300 100)).

Definition InitializeTextWindow (d : Desktop) (a_win a_layer : Z) : outcome (Z * Desktop) :=
  w ← new_ToplevelWindow 160 52 screen_format (chars "Text Box Test" ++ [0]);
  w ← inner_area (λ i, DrawTextBox i (mkVec 0 0) (InnerSize w)) w;
  mret (new_top_layer (set_windows d (<[a_win := w]> (windows d))) a_win a_layer (mkVec 500 100)).

(** The globals of main.cpp and [textbox_cursor_visible]; windows are addresses. *)
Record MainTask : Type := mkMain {
  kernel : Kernel H;
  main_window : Z;
  main_window_layer_id : Z;
  text_window : Z;
  text_window_layer_id : Z;
  text_window_index : Z;
  textbox_cursor_visible : bool;
}.
Implicit Types m : MainTask.

Definition set_kernel m k : MainTask :=
  mkMain k (main_window m) (main_window_layer_id m) (text_window m) (text_window_layer_id m) (text_window_index m)
    (textbox_cursor_visible m).
Definition set_text_index m (i : Z) : MainTask :=
  mkMain (kernel m) (main_window m) (main_window_layer_id m) (text_window m) (text_window_layer_id m) i
    (textbox_cursor_visible m).
Definition set_textbox_cursor m (b : bool) : MainTask :=
  mkMain (kernel m) (main_window m) (main_window_layer_id m) (text_window m) (text_window_layer_id m)
    (text_window_index m) b.

(** Drawing on the text window's inner area, and [layer_manager->Draw(id)]. *)
Definition on_text m (f : InnerArea → outcome InnerArea) : outcome MainTask :=
  d ← draw_on (desktop (kernel m)) (text_window m) (inner_area f); mret (set_kernel m (set_desktop (kernel m) d)).
Definition redraw_layer m (id : Z) : outcome MainTask :=
  d ← draw_layer (desktop (kernel m)) id; mret (set_kernel m (set_desktop (kernel m) d)).

Definition DrawTextCursor m (visible : bool) : outcome MainTask :=
  let color := if visible then ToColor 0 else ToColor 0xffffff in
  on_text m (λ i, FillRectangle i (mkVec (4 + 8 * text_window_index m) 5) (mkVec 7 15) color).

Definition text_pos m : Vector2D := mkVec (4 + 8 * text_window_index m) 6.

Definition InputTextWindow m (c : Z) : outcome MainTask :=
  if c =? 0 then mret m
  else
    w ← of_option (windows (desktop (kernel m)) !! text_window m);
    let max_chars := Z.quot (vx (InnerSize w) - 8) 8 - 1 in
    m ← (if (c =? 8) && (0 <? text_window_index m) then
           m ← DrawTextCursor m false;
           let m := set_text_index m (text_window_index m - 1) in
           m ← on_text m (λ i, FillRectangle i (text_pos m) (mkVec 8 16) (ToColor 0xffffff));
           DrawTextCursor m true
         else if (32 <=? c) && (text_window_index m <? max_chars) then
           m ← DrawTextCursor m false;
           m ← on_text m (λ i, font_ascii i (text_pos m) c (ToColor 0));
           DrawTextCursor (set_text_index m (text_window_index m + 1)) true
         else mret m);
    redraw_layer m (text_window_layer_id m).

(** ** The event loop *)

Definition kTextboxCursorTimer : Z := 17.
Definition kTimer05Sec : Z := 500.

(** The timers that are set before the loop. *)
Definition main_timers (tm : TimerManager (list Timer)) : TimerManager (list Timer) :=
  AddTimer (AddTimer tm (mkTimer 60000 1 1)) (mkTimer kTimer05Sec kTextboxCursorTimer 1).

(** The tick counter in the main window. *)
Definition show_tick m : outcome MainTask :=
  let str := zero_pad 10 (fmt_u (tick_ (timer_manager (kernel m)))) in
  d ← draw_on (desktop (kernel m)) (main_window m) (λ w,
        w ← inner_area (λ i, FillRectangle i (mkVec 20 44) (mkVec (8 * 10) 16) (mkColor 0xc6 0xc6 0xc6)) w;
        inner_area (λ i, font_string i (mkVec 20 44) (str ++ [0]) black) w);
  redraw_layer (set_kernel m (set_desktop (kernel m) d)) (main_window_layer_id m).

Definition send m (task_id : Z) (msg : Message) : outcome MainTask :=
  '(_, tm) ← SendMessage (tm_of (kernel m)) task_id msg; mret (set_kernel m (set_ktm (kernel m) tm)).

(** A key: for the text window, F2 for a new terminal, or for the task of the active
    layer. *)
Definition key_push m (msg : Message) (keycode ascii press : Z) : outcome MainTask :=
  let k := kernel m in
  let act := active_layer_ (active_layer (desktop k)) in
  if act =? text_window_layer_id m then
    if negb (press =? 0) then InputTextWindow m ascii else mret m
  else if negb (press =? 0) && (keycode =? 59) then
    let '(id, tm) := NewTask (tm_of k) in
    let '(stack, k) := new_addr (set_ktm k tm) in
    k ← update_task k id (λ t, InitContext t (cr3 (pages k)) stack TaskTerminal_entry 0);
    tm ← Wakeup (tm_of k) id (-1);
    mret (set_kernel m (set_ktm k tm))
  else
    match layer_task_map (desktop k) !! act with
    | Some task_id => send m task_id msg
    | None =>
        k ← printk k (chars "key push not handled: keycode " ++ zero_pad 2 (fmt_x keycode) ++
                      chars ", ascii " ++ zero_pad 2 (fmt_x (u32 ascii)) ++ [10]);
        mret (set_kernel m k)
    end.

(** The [switch] over the message's type. *)
Definition handle m (msg : Message) : outcome MainTask :=
  match arg msg with
  | kInterruptXHCI => mret m
  | kTimerTimeout timeout value =>
      if value =? kTextboxCursorTimer then
        let k := set_timers (kernel m)
                   (AddTimer (timer_manager (kernel m)) (mkTimer (u64 (timeout + kTimer05Sec)) kTextboxCursorTimer 1)) in
        let m := set_textbox_cursor (set_kernel m k) (negb (textbox_cursor_visible m)) in
        m ← DrawTextCursor m (textbox_cursor_visible m);
        redraw_layer m (text_window_layer_id m)
      else mret m
  | kKeyPush modifier keycode ascii press => key_push m msg keycode ascii press
  | kLayer _ _ _ _ _ _ =>
      let d := desktop (kernel m) in
      lm ← ProcessLayerMessage (windows d) (layer_manager d) msg;
      send (set_kernel m (set_desktop (kernel m) (set_lm d lm))) (src_task msg) (mkMessage 0 kLayerFinish)
  | _ =>
      k ← kernel_Log (kernel m) kError (chars "Unknown message type: " ++ fmt_d (message_type msg) ++ [10]);
      mret (set_kernel m k)
  end.

(** One turn of the loop of [KernelMainNewStack], in the task [main_task]: the
    processor's switch when the task went to sleep. *)
Definition main_turn m (main_task : Z) : outcome (option switch * MainTask) :=
  m ← show_tick m;
  '(msg, tm) ← ReceiveMessage (tm_of (kernel m)) main_task;
  let m := set_kernel m (set_ktm (kernel m) tm) in
  match msg with
  | None => '(sw, tm) ← Sleep (tm_of (kernel m)) main_task; mret (Some sw, set_kernel m (set_ktm (kernel m) tm))
  | Some msg => m ← handle m msg; mret (None, m)
  end.
End main.

Arguments MainTask H : clear implicits.

(** ** The main task's invariant *)
Module MainFacts.

(** A window of a given size. *)
Definition window_at (ws : gmap Z Window) (p width height : Z) : Prop :=
  ∃ w, ws !! p = Some w ∧ window_sized w ∧ width_ w = width ∧ height_ w = height.

Lemma window_at_drawn ws p width height q w w' : window_at ws p width height → ws !! q = Some w → drawn_on w w' →
  window_at (<[q := w']> ws) p width height.
Proof.
  intros (u & Hu & Hs & HW & HH) Hw [Hs' HW' HH' _]. destruct (decide (p = q)) as [->|].
  - exists w'. rewrite lookup_insert_eq. assert (u = w) as -> by congruence. split_and!; [done|done|congruence|congruence].
  - exists u. by rewrite lookup_insert_ne.
Qed.

(** The digits of the tick counter are characters. *)
Lemma digits_ascii fuel b n acc : 2 ≤ b ≤ 16 → 0 ≤ n → Forall ascii acc → Forall ascii (digits fuel b n acc).
Proof.
  intros Hb. revert n acc. induction fuel as [|fuel IH]; intros n acc Hn Hacc; [done|]. cbn [digits].
  assert (Forall ascii (digit (n mod b) :: acc)).
  { constructor; [|done]. pose proof (Z.mod_pos_bound n b ltac:(lia)). unfold ascii, digit. destruct (Z.ltb_spec (n mod b) 10); lia. }
  destruct (n <? b); [done|]. apply IH; [|done]. apply Z.div_pos; lia.
Qed.

Lemma digits_length fuel b n acc : (length (digits fuel b n acc) ≤ fuel + length acc)%nat.
Proof.
  revert n acc. induction fuel as [|fuel IH]; intros n acc; [simpl; lia|]. cbn [digits]. destruct (n <? b); [simpl; lia|].
  etrans; [apply IH|]. simpl. lia.
Qed.

Lemma tick_text n : 0 ≤ n → Forall ascii (zero_pad 10 (fmt_u n)) ∧ (length (zero_pad 10 (fmt_u n)) ≤ 20)%nat.
Proof.
  intros Hn. pose proof (digits_length 20 10 n []) as Hl. cbn [length] in Hl. unfold zero_pad, fmt_u. split.
  - apply Forall_app. split; [apply Forall_replicate; unfold ascii; lia|]. by apply digits_ascii.
  - rewrite length_app, length_replicate. lia.
Qed.

Section main.
Context {H : Type} `{System H} `{FontLib}.
Implicit Types m : MainTask H.

Definition dsk m : Desktop := desktop (kernel m).

(** What drawing needs and keeps: both windows, their layers, and the text's length. *)
Record screen_ok m : Prop := {
  so_layers : lm_safe (windows (dsk m)) (layer_manager (dsk m));
  so_main : window_at (windows (dsk m)) (main_window m) 260 100;
  so_text : window_at (windows (dsk m)) (text_window m) 160 52;
  so_main_layer : on_stack (layer_manager (dsk m)) (main_window_layer_id m);
  so_text_layer : on_stack (layer_manager (dsk m)) (text_window_layer_id m);
  so_index : 0 ≤ text_window_index m ≤ 17;
}.

(** Only pictures, the text's length, the cursor and the timers may differ. *)
Record same_main m m' : Prop := {
  sm_order : same_order (layer_manager (dsk m)) (layer_manager (dsk m'));
  sm_active : active_layer (dsk m') = active_layer (dsk m);
  sm_map : layer_task_map (dsk m') = layer_task_map (dsk m);
  sm_tasks : task_manager (dsk m') = task_manager (dsk m);
  sm_text : text_window_layer_id m' = text_window_layer_id m;
  sm_tick : tick_ (timer_manager (kernel m')) = tick_ (timer_manager (kernel m));
}.

Lemma same_main_refl m : same_main m m.
Proof. by split. Qed.
Lemma same_main_trans m1 m2 m3 : same_main m1 m2 → same_main m2 m3 → same_main m1 m3.
Proof. intros [] []. split; [by eapply same_order_trans|congruence..]. Qed.

Lemma draw_on_ok d p f width height : lm_safe (windows d) (layer_manager d) → window_at (windows d) p width height →
  (∀ w, window_sized w → width_ w = width → height_ w = height → ∃ w', f w = Done w' ∧ drawn_on w w') →
  ∃ w w', draw_on d p f = Done (set_windows d (<[p := w']> (windows d))) ∧ windows d !! p = Some w ∧ drawn_on w w' ∧
    lm_safe (<[p := w']> (windows d)) (layer_manager d).
Proof.
  intros Hlm (w & Hw & Hs & HW & HH) Hf. destruct (Hf w Hs HW HH) as (w' & E & Hd). exists w, w'.
  unfold draw_on. rewrite Hw. cbn [of_option mbind outcome_bind]. rewrite E. split_and!; [done|done|done|].
  by eapply lm_safe_drawn.
Qed.

(** A drawing on the text window. *)
Lemma on_text_ok m f : screen_ok m →
  (∀ w, window_sized w → width_ w = 160 → height_ w = 52 →
     ∃ i, f (mkInner w) = Done i ∧ drawn_on w (inner_window i)) →
  ∃ m', on_text m f = Done m' ∧ screen_ok m' ∧ same_main m m' ∧ text_window_index m' = text_window_index m.
Proof.
  intros [Hlm Hm Ht Hml Htl Hi] Hf. unfold on_text.
  destruct (draw_on_ok (dsk m) (text_window m) (inner_area f) 160 52 Hlm Ht) as (w & w' & E & Hw & Hd & Hlm').
  { intros w Hs HW HH. destruct (Hf w Hs HW HH) as (i & Ei & Hi'). exists (inner_window i). split; [|done].
    unfold inner_area. by rewrite Ei. }
  unfold dsk in *. rewrite E. cbn [mbind outcome_bind]. eexists. split; [reflexivity|]. split; [|split; [by split|done]].
  split; simpl; try done; by eapply window_at_drawn.
Qed.

Lemma redraw_layer_ok m id : screen_ok m → on_stack (layer_manager (dsk m)) id →
  ∃ m', redraw_layer m id = Done m' ∧ screen_ok m' ∧ same_main m m' ∧ text_window_index m' = text_window_index m.
Proof.
  intros [Hlm Hm Ht Hml Htl Hi] Hid. unfold redraw_layer, draw_layer, Draw_layer, dsk in *.
  destruct (Draw_part_safe _ _ id (mkRect (mkVec 0 0) (mkVec (-1) (-1))) Hlm Hid) as (lm' & -> & Hlm' & Hso & _).
  cbn [mbind outcome_bind mret outcome_ret]. eexists. split; [reflexivity|]. split; [|split; [by split|done]].
  split; simpl; try done; by eapply same_order_on_stack.
Qed.

(** Rectangles and characters in the area inside the text window's frame. *)
Lemma text_rectangle w pos size c : window_sized w → width_ w = 160 → height_ w = 52 → 0 ≤ vx pos → 0 ≤ vy pos →
  0 ≤ vx size → 0 ≤ vy size → vx pos + vx size ≤ 152 → vy pos + vy size ≤ 24 →
  ∃ i, FillRectangle (mkInner w) pos size c = Done i ∧ drawn_on w (inner_window i).
Proof.
  intros Hw HW HH **. destruct (FillRectangle_kept (PL := inner_laws (config_ (shadow_buffer_ w))) (mkInner w) pos size c)
    as (i & E & Hk); [by split|done..|simpl; unfold kMarginX; simpl; lia|simpl; unfold kMarginY; simpl; lia|].
  exists i. split; [done|]. by apply inner_drawn.
Qed.

Lemma text_char w pos c color : window_sized w → width_ w = 160 → height_ w = 52 → 0 ≤ vx pos → 0 ≤ vy pos →
  vx pos + 8 ≤ 152 → vy pos + 16 ≤ 24 →
  ∃ i, font_ascii (mkInner w) pos c color = Done i ∧ drawn_on w (inner_window i).
Proof.
  intros Hw HW HH **. destruct (font_ascii_kept (PL := inner_laws (config_ (shadow_buffer_ w))) (mkInner w) pos c color)
    as (i & E & Hk); [by split|done..|simpl; unfold kMarginX; simpl; lia|simpl; unfold kMarginY; simpl; lia|].
  exists i. split; [done|]. by apply inner_drawn.
Qed.

Lemma DrawTextCursor_ok m b : screen_ok m →
  ∃ m', DrawTextCursor m b = Done m' ∧ screen_ok m' ∧ same_main m m' ∧ text_window_index m' = text_window_index m.
Proof.
  intros Hm. pose proof (so_index _ Hm). apply on_text_ok; [done|]. intros w Hs HW HH. apply text_rectangle; simpl; lia || done.
Qed.

(** A change of the text's length. *)
Definition new_length (g : MainTask H → MainTask H) (i j : Z) : Prop :=
  ∀ m, screen_ok m → text_window_index m = i → screen_ok (g m) ∧ same_main m (g m) ∧ text_window_index (g m) = j.

Lemma set_text_index_ok d i : 0 ≤ i + d ≤ 17 → new_length (λ m, set_text_index m (text_window_index m + d)) i (i + d).
Proof. intros Hd m [] <-. by split_and!. Qed.

(** One edit of the text: the cursor goes, the text and its length change, the
    cursor is drawn again. *)
Lemma text_edit_ok m g1 g2 i j f : screen_ok m → new_length g1 (text_window_index m) i → new_length g2 i j →
  (∀ m' w, text_window_index m' = i → window_sized w → width_ w = 160 → height_ w = 52 →
     ∃ a, f m' (mkInner w) = Done a ∧ drawn_on w (inner_window a)) →
  ∃ m', (m ← DrawTextCursor m false; m ← on_text (g1 m) (f (g1 m)); DrawTextCursor (g2 m) true) = Done m' ∧
    screen_ok m' ∧ same_main m m'.
Proof.
  intros Hm Hg1 Hg2 Hf. destruct (DrawTextCursor_ok m false Hm) as (m1 & -> & Hm1 & Hs1 & Hi1). cbn [mbind outcome_bind].
  destruct (Hg1 m1 Hm1 Hi1) as (Hm2 & Hs2 & Hi2).
  destruct (on_text_ok (g1 m1) (f (g1 m1)) Hm2) as (m3 & E & Hm3 & Hs3 & Hi3); [intros w Hw HW HH; by apply Hf|].
  rewrite E. cbn [mbind outcome_bind]. destruct (Hg2 m3 Hm3) as (Hm4 & Hs4 & _); [congruence|].
  destruct (DrawTextCursor_ok _ true Hm4) as (m5 & -> & Hm5 & Hs5 & _). exists m5. split; [done|]. split; [done|].
  by repeat (eapply same_main_trans; [eassumption|]).
Qed.

Lemma InputTextWindow_ok m c : screen_ok m → ∃ m', InputTextWindow m c = Done m' ∧ screen_ok m' ∧ same_main m m'.
Proof.
  intros Hm. unfold InputTextWindow. destruct (c =? 0); [exists m; split_and!; done|].
  destruct (so_text _ Hm) as (w & Hw & Hsz & HW & HH). unfold dsk in Hw. rewrite Hw. cbn [of_option mbind outcome_bind].
  replace (Z.quot (vx (InnerSize w) - 8) 8 - 1) with 17 by (simpl; by rewrite HW).
  cbn zeta. pose proof (so_index _ Hm) as Hi.
  assert (Hedit : ∃ m', (if (c =? 8) && (0 <? text_window_index m) then
        m ← DrawTextCursor m false;
        m ← on_text (set_text_index m (text_window_index m - 1))
              (λ i, FillRectangle i (text_pos (set_text_index m (text_window_index m - 1))) (mkVec 8 16) (ToColor 0xffffff));
        DrawTextCursor m true
      else if (32 <=? c) && (text_window_index m <? 17) then
        m ← DrawTextCursor m false;
        m ← on_text m (λ i, font_ascii i (text_pos m) c (ToColor 0));
        DrawTextCursor (set_text_index m (text_window_index m + 1)) true
      else mret m) = Done m' ∧ screen_ok m' ∧ same_main m m').
  { destruct ((c =? 8) && (0 <? text_window_index m)) eqn:Hb.
    { apply andb_true_iff in Hb as [_ ?%Z.ltb_lt].
      apply (text_edit_ok m (λ m, set_text_index m (text_window_index m + -1)) id (text_window_index m + -1) (text_window_index m + -1)
        (λ m i, FillRectangle i (text_pos m) (mkVec 8 16) (ToColor 0xffffff))); [done|by apply set_text_index_ok; lia|done|].
      intros m' u Hi' Hu HWu HHu. unfold text_pos. apply text_rectangle; simpl; lia || done. }
    destruct ((32 <=? c) && (text_window_index m <? 17)) eqn:Hb'; [|by exists m].
    apply andb_true_iff in Hb' as [_ ?%Z.ltb_lt].
    apply (text_edit_ok m id (λ m, set_text_index m (text_window_index m + 1)) (text_window_index m) (text_window_index m + 1)
      (λ m i, font_ascii i (text_pos m) c (ToColor 0))); [done|done|by apply set_text_index_ok; lia|].
    intros m' u Hi' Hu HWu HHu. unfold text_pos. apply text_char; simpl; lia || done. }
  destruct Hedit as (m1 & -> & Hm1 & Hs1). cbn [mbind outcome_bind].
  destruct (redraw_layer_ok m1 (text_window_layer_id m) Hm1) as (m2 & E & Hm2 & Hs2 & _).
  { rewrite <- (sm_text _ _ Hs1). apply (so_text_layer _ Hm1). }
  rewrite (sm_text _ _ Hs1), E. exists m2. split; [done|]. split; [done|]. by eapply same_main_trans.
Qed.

(** The tick counter. *)
Lemma show_tick_ok m : screen_ok m → 0 ≤ tick_ (timer_manager (kernel m)) →
  ∃ m', show_tick m = Done m' ∧ screen_ok m' ∧ same_main m m'.
Proof.
  intros [Hlm Hm Ht Hml Htl Hi] Htick. destruct (tick_text _ Htick) as [Hasc Hlen]. unfold show_tick.
  match goal with |- context [draw_on _ _ ?f] =>
    destruct (draw_on_ok (dsk m) (main_window m) f 260 100 Hlm Hm) as (w & w' & E & Hw & Hd & Hlm') end.
  { intros w Hs HW HH. destruct (FillRectangle_kept (PL := inner_laws (config_ (shadow_buffer_ w))) (mkInner w)
      (mkVec 20 44) (mkVec (8 * 10) 16) (mkColor 0xc6 0xc6 0xc6)) as (i & E & Hk);
      [by split|simpl; unfold kMarginX, kMarginY; simpl; lia..|].
    apply inner_drawn in Hk as Hd. unfold inner_area. rewrite E. cbn [mbind outcome_bind mret outcome_ret].
    destruct Hd as [Hs' HW' HH' Hc']. set (w1 := inner_window i) in *.
    destruct (font_line_kept (PL := inner_laws (config_ (shadow_buffer_ w1))) (mkInner w1) (mkVec 20 44)
      (zero_pad 10 (fmt_u (tick_ (timer_manager (kernel m))))) black) as (i2 & E2 & Hk2);
      [by split|done|simpl; unfold kMarginX, kMarginY; simpl; lia..|].
    rewrite E2. exists (inner_window i2). split; [done|]. eapply drawn_on_trans; [by split|].
    by apply inner_drawn. }
  unfold dsk in *. rewrite E. cbn [mbind outcome_bind].
  set (m1 := set_kernel m (set_desktop (kernel m) (set_windows (desktop (kernel m)) (<[main_window m := w']> (windows (desktop (kernel m))))))).
  assert (Hm1 : screen_ok m1) by (split; simpl; try done; by eapply window_at_drawn).
  destruct (redraw_layer_ok m1 (main_window_layer_id m) Hm1) as (m2 & E2 & Hm2 & Hs2 & _); [done|].
  exists m2. split; [exact E2|]. split; [done|]. eapply same_main_trans; [|done]. by split.
Qed.

(** *** Messages *)

(** The messages the main task can deal with without the console: a layer operation
    names a layer on the stack, a key that is not for the text window goes to the
    task of the active layer, and no answer goes to the main task itself. *)
Definition message_ok (task : Z) m (msg : Message) : Prop :=
  match arg msg with
  | kInterruptXHCI | kTimerTimeout _ _ => True
  | kKeyPush _ keycode _ press =>
      let act := active_layer_ (active_layer (dsk m)) in
      act = text_window_layer_id m ∨
      (press = 0 ∨ keycode ≠ 59) ∧ ∃ t, layer_task_map (dsk m) !! act = Some t ∧ t ≠ task
  | kLayer _ id _ _ _ _ => on_stack (layer_manager (dsk m)) id ∧ src_task msg ≠ task
  | _ => False
  end.

(** What [message_ok] looks at. *)
Record same_view m m' : Prop := {
  sv_order : same_order (layer_manager (dsk m)) (layer_manager (dsk m'));
  sv_active : active_layer (dsk m') = active_layer (dsk m);
  sv_map : layer_task_map (dsk m') = layer_task_map (dsk m);
  sv_text : text_window_layer_id m' = text_window_layer_id m;
}.

Lemma same_main_view m m' : same_main m m' → same_view m m'.
Proof. intros []. by split. Qed.
Lemma same_view_trans m1 m2 m3 : same_view m1 m2 → same_view m2 m3 → same_view m1 m3.
Proof. intros [] []. split; [by eapply same_order_trans|congruence..]. Qed.

Lemma message_ok_view task m m' msg : same_view m m' → message_ok task m msg → message_ok task m' msg.
Proof.
  intros [Ho Ha Hm Ht]. unfold message_ok. destruct (arg msg); try done.
  - by rewrite Ha, Hm, Ht.
  - intros [Hs Hsrc]. split; [by eapply same_order_on_stack|done].
Qed.

(** The main task may go on: its windows are sound, the scheduler is, and every
    message in its queue can be handled. *)
Record main_ok (idle task : Z) m : Prop := {
  mk_screen : screen_ok m;
  mk_tasks : tm_wf idle (task_manager (dsk m));
  mk_task : task ≠ idle ∧ ∃ x, tasks_ (task_manager (dsk m)) !! task = Some x ∧ Forall (message_ok task m) (msgs_ x);
  mk_tick : 0 ≤ tick_ (timer_manager (kernel m));
}.

Lemma queue_ok_view task m m' ms : same_view m m' → Forall (message_ok task m) ms → Forall (message_ok task m') ms.
Proof. intros Hv Hms. eapply Forall_impl; [exact Hms|]. intros msg. by apply message_ok_view. Qed.

Lemma main_ok_same idle task m m' : main_ok idle task m → screen_ok m' → same_main m m' →
  main_ok idle task m'.
Proof.
  intros [Hs Ht (Hi & x & Hx & Hms) Hk] Hs' Hsm. pose proof (sm_tasks _ _ Hsm) as E.
  split; [done|by rewrite E| |by rewrite (sm_tick _ _ Hsm)].
  split; [done|]. exists x. rewrite E. split; [done|]. eapply queue_ok_view; [by apply same_main_view|done].
Qed.

(** Another state of the tasks with a queue that can be handled. *)
Lemma main_ok_tasks idle task m tm x : main_ok idle task m → tm_wf idle tm → tasks_ tm !! task = Some x →
  Forall (message_ok task m) (msgs_ x) → main_ok idle task (set_kernel m (set_ktm (kernel m) tm)).
Proof. intros [[] _ [Hi _] Hk] Hwf Hx Hms. split; [by split|done| |done]. split; [done|]. exists x. done. Qed.

Lemma send_ok idle task m t msg : main_ok idle task m → (t = task → message_ok task m msg) →
  ∃ m', send m t msg = Done m' ∧ main_ok idle task m' ∧ same_view m m'.
Proof.
  intros Hok Hmsg. pose proof Hok as [Hs Hwf (Hi & x & Hx & Hms) Hk]. unfold send, SendMessage, dsk in *.
  change (tm_of (kernel m)) with (task_manager (desktop (kernel m))).
  destruct (tasks_ (task_manager (desktop (kernel m))) !! t) as [y|] eqn:Hy.
  - destruct (task_SendMessage_spec idle _ t y msg Hwf Hy) as (tm' & -> & Hwf' & Ht & _). cbn [mbind outcome_bind mret outcome_ret].
    eexists. split; [reflexivity|]. split; [|by split].
    destruct (decide (t = task)) as [->|Hne].
    + eapply main_ok_tasks; [done|done|by rewrite Ht, lookup_insert_eq|].
      assert (y = x) as -> by congruence. simpl. apply Forall_app. split; [done|]. constructor; [by apply Hmsg|constructor].
    + eapply main_ok_tasks; [done|done|by rewrite Ht, lookup_insert_ne|done].
  - cbn [mbind outcome_bind mret outcome_ret]. eexists. split; [reflexivity|]. split; [|by split].
    by eapply main_ok_tasks.
Qed.

Lemma handle_ok idle task m msg : main_ok idle task m → message_ok task m msg →
  ∃ m', handle m msg = Done m' ∧ main_ok idle task m' ∧ same_view m m'.
Proof.
  intros Hok Hmsg. pose proof Hok as [Hs Hwf Htask Hk]. unfold handle, message_ok in *.
  assert (Hself : same_view m m) by by split.
  destruct (arg msg) as [|timeout value|mods keycode ascii press|op id x y w h| | | | | |] eqn:Ha; try done.
  - by exists m.
  - destruct (value =? kTextboxCursorTimer); [|by exists m]. cbn zeta.
    set (m1 := set_textbox_cursor _ _). assert (Hs1 : screen_ok m1) by (destruct Hs; by split).
    destruct (DrawTextCursor_ok m1 (textbox_cursor_visible m1) Hs1) as (m2 & E2 & Hs2 & Hsm2 & _). rewrite E2. cbn [mbind outcome_bind].
    destruct (redraw_layer_ok m2 (text_window_layer_id m2) Hs2 (so_text_layer _ Hs2)) as (m3 & E3 & Hs3 & Hsm3 & _).
    rewrite E3. exists m3. split; [done|]. assert (Hsm : same_main m m3).
    { eapply same_main_trans; [|exact (same_main_trans _ _ _ Hsm2 Hsm3)]. by split. }
    split; [by eapply main_ok_same|by apply same_main_view].
  - unfold key_push. fold (dsk m). destruct (Z.eqb_spec (active_layer_ (active_layer (dsk m))) (text_window_layer_id m)) as [He|Hne].
    + destruct (negb (press =? 0)); [|by exists m].
      destruct (InputTextWindow_ok m ascii Hs) as (m' & E & Hs' & Hsm'). exists m'. split; [done|].
      split; [by eapply main_ok_same|by apply same_main_view].
    + destruct Hmsg as [?|[Hkey (t & Ht & Htne)]]; [done|].
      replace (negb (press =? 0) && (keycode =? 59)) with false.
      2: { symmetry. destruct Hkey as [->|Hkey]; [done|]. destruct (Z.eqb_spec keycode 59); [done|]. apply andb_false_r. }
      rewrite Ht. by apply (send_ok idle task).
  - destruct Hmsg as [Hst Hsrc].
    destruct (ProcessLayerMessage_safe (windows (dsk m)) (layer_manager (dsk m)) msg op id x y w h (so_layers _ Hs) Ha Hst)
      as (lm' & E & Hlm' & Hso). unfold dsk in *. rewrite E. cbn [mbind outcome_bind].
    set (m1 := set_kernel m (set_desktop (kernel m) (set_lm (desktop (kernel m)) lm'))).
    assert (Hsm1 : same_main m m1) by by split.
    assert (Hok1 : main_ok idle task m1).
    { eapply main_ok_same; [done| |done]. destruct Hs. split; simpl; try done; by eapply same_order_on_stack. }
    destruct (send_ok idle task m1 (src_task msg) (mkMessage 0 kLayerFinish) Hok1) as (m2 & E2 & Hok2 & Hv2); [done|].
    exists m2. split; [exact E2|]. split; [done|]. eapply same_view_trans; [by apply same_main_view|done].
Qed.

Lemma ReceiveMessage_queue idle tm task x : tm_wf idle tm → tasks_ tm !! task = Some x →
  ∃ tm' y, ReceiveMessage tm task = Done (head (msgs_ x), tm') ∧ tm_wf idle tm' ∧ tasks_ tm' !! task = Some y ∧
    msgs_ y = tail (msgs_ x).
Proof.
  intros Hwf Hx. unfold ReceiveMessage. rewrite (proj2 (task_lookup tm task x)) by done. cbn [mbind outcome_bind].
  assert (Hid : Task.id_ x = task) by exact (proj2 (base_ids _ _ (wf_base _ _ Hwf) task x Hx)).
  unfold task_ReceiveMessage. destruct (msgs_ x) as [|msg ms] eqn:Em.
  - eexists _, x. split; [reflexivity|]. split; [by eapply set_task_same_wf|]. split; [simpl; by rewrite lookup_insert_eq|by rewrite Em].
  - eexists _, (set_msgs x ms). split; [reflexivity|]. split; [by eapply set_task_same_wf|].
    split; [simpl; by rewrite lookup_insert_eq|done].
Qed.

Lemma main_turn_ok idle task m : main_ok idle task m →
  ∃ sw m', main_turn m task = Done (sw, m') ∧ main_ok idle task m' ∧ same_view m m'.
Proof.
  intros Hok. unfold main_turn.
  destruct (show_tick_ok m (mk_screen _ _ _ Hok) (mk_tick _ _ _ Hok)) as (m1 & -> & Hs1 & Hsm1). cbn [mbind outcome_bind].
  pose proof (main_ok_same _ _ _ _ Hok Hs1 Hsm1) as Hok1. apply same_main_view in Hsm1 as Hv1.
  pose proof Hok1 as [_ Hwf (Hi & x & Hx & Hms) _]. unfold dsk in Hwf, Hx.
  destruct (ReceiveMessage_queue idle _ task x Hwf Hx) as (tm & y & E & Hwf2 & Hy & Hmy).
  change (tm_of (kernel m1)) with (task_manager (desktop (kernel m1))). rewrite E. cbn [mbind outcome_bind]. cbn zeta.
  set (m2 := set_kernel m1 (set_ktm (kernel m1) tm)).
  assert (Hv2 : same_view m1 m2) by by split.
  assert (Hok2 : main_ok idle task m2).
  { eapply main_ok_tasks; [done|done|done|]. rewrite Hmy. destruct (msgs_ x); [done|]. by apply Forall_cons in Hms as [_ ?]. }
  destruct (msgs_ x) as [|msg ms] eqn:Em; cbn [head].
  - change (tm_of (kernel m2)) with tm.
    destruct (Sleep_wf idle tm task y Hwf2 Hy Hi) as (sw & tm3 & -> & Hwf3 & Ht3 & _). cbn [mbind outcome_bind mret outcome_ret].
    exists (Some sw). eexists. split; [reflexivity|]. split; [|eapply same_view_trans; [exact Hv1|by split]].
    destruct (task_running y).
    + eapply main_ok_tasks; [done|done|by rewrite Ht3, lookup_insert_eq|]. simpl. by rewrite Hmy.
    + eapply main_ok_tasks; [done|done|by rewrite Ht3|]. by rewrite Hmy.
  - apply Forall_cons in Hms as [Hmsg _].
    destruct (handle_ok idle task m2 msg Hok2) as (m3 & -> & Hok3 & Hv3); [by eapply message_ok_view|].
    cbn [mbind outcome_bind mret outcome_ret]. exists None, m3. split; [done|]. split; [done|].
    eapply same_view_trans; [exact Hv1|]. by eapply same_view_trans.
Qed.
End main.
End MainFacts.

Import MainFacts.

(** ** Properties *)

(** What happens to the main task: a turn of its loop, or a message sent by others. *)
Inductive main_event : Set := Turn | Post (msg : Message).

Definition main_step {H : Type} `{System H} `{FontLib} (task : Z) (ev : main_event) (m : MainTask H) : outcome (MainTask H) :=
  match ev with
  | Turn => '(_, m) ← main_turn m task; mret m
  | Post msg => send m task msg
  end.

(** Turns of the loop, and messages of the others between them. *)
Lemma main_steps_ok {H : Type} `{System H} `{FontLib} (idle task : Z) (evs : list main_event) : ∀ m : MainTask H,
  main_ok idle task m → Forall (λ ev, match ev with Turn => True | Post msg => message_ok task m msg end) evs →
  ∃ m', foldM (main_step task) evs m = Done m' ∧ main_ok idle task m' ∧ same_view m m'.
Proof.
  induction evs as [|ev evs IH]; intros m Hok Hposts.
  - exists m. split; [done|]. split; [done|]. by split.
  - apply Forall_cons in Hposts as [Hev Hposts]. cbn [foldM].
    assert (Hstep : ∃ m1, main_step task ev m = Done m1 ∧ main_ok idle task m1 ∧ same_view m m1).
    { destruct ev as [|msg]; cbn [main_step].
      - destruct (main_turn_ok idle task m Hok) as (sw & m1 & -> & ? & ?). by exists m1.
      - by apply send_ok. }
    destruct Hstep as (m1 & -> & Hok1 & Hv1). cbn [mbind outcome_bind].
    destruct (IH m1 Hok1) as (m2 & E & Hok2 & Hv2).
    { eapply Forall_impl; [exact Hposts|]. intros [|msg]; [done|]. by apply message_ok_view. }
    exists m2. split; [done|]. split; [done|]. by eapply same_view_trans.
Qed.


(** A small system: the two windows and three tasks, of which 1 is the main task. *)
#[local] Instance sample_fonts : FontLib := {|
  fl_hankaku := ∅; fl_hankaku_size := 4096; fl_New_Memory_Face := 1; fl_Set_Pixel_Sizes := 0;
  fl_Get_Char_Index _ := 0; fl_Load_Glyph _ := (0, mkGlyph 0 0 0 ∅ 0 0 0 0 0 1);
|}.
#[local] Instance sample_system : System unit := {|
  screen_format := kPixelRGBResv8BitPerColor; pml4_table := 0; TaskTerminal_entry := 0;
  run_others _ k := mret k; wait_turns := 1; CallApp k _ _ _ _ := mret (0, k);
|}.

Definition sample_main (w1 w2 : Window) : MainTask unit :=
  mkMain (mkKernel (mkDesktop
      (mkLM (Some (small_fb 7)) (small_fb 7)
         [(100, mkLayer 1 (mkVec 0 0) (Some 10) true); (200, mkLayer 2 (mkVec 1 0) (Some 20) true)] [Some 100; Some 200] 2)
      {[10 := w1; 20 := w2]} (mkActive 2 0) ∅ sample_tm)
    new_TimerManager sample_volume (mkPS 0 ∅ sample_mm)
    (new_Logger (new_Console (mkColor 0 0 0) (mkColor 0 0 0) 1 1)) (small_fb 7) ∅ ∅ ∅ ∅ ∅ [] tt 0x3000)
    10 1 20 2 0 false.

(** A sound window of any small size. *)
Lemma some_window width height : 0 ≤ width ≤ 4096 → 0 ≤ height ≤ 4096 →
  ∃ w, window_sized w ∧ width_ w = width ∧ height_ w = height ∧
    pixel_format (config_ (shadow_buffer_ w)) = kPixelRGBResv8BitPerColor.
Proof.
  intros Hw Hh. destruct (WindowFacts.new_Window_ok width height kPixelRGBResv8BitPerColor) as (w & E & Hok & HW & HH & _);
    [lia|lia|lia|nia|]. exists w. split_and!; [by apply window_ok_sized|done|done|].
  unfold new_Window in E. destruct (_ || _); [done|]. by injection E as <-.
Qed.

Lemma sample_main_ok w1 w2 : window_sized w1 → window_sized w2 → width_ w1 = 260 → height_ w1 = 100 → width_ w2 = 160 →
  height_ w2 = 52 → pixel_format (config_ (shadow_buffer_ w1)) = kPixelRGBResv8BitPerColor →
  pixel_format (config_ (shadow_buffer_ w2)) = kPixelRGBResv8BitPerColor → main_ok 2 1 (sample_main w1 w2).
Proof.
  intros. assert (Hw1 : ({[10 := w1; 20 := w2]} : gmap Z Window) !! 10 = Some w1) by apply lookup_insert_eq.
  assert (Hw2 : ({[10 := w1; 20 := w2]} : gmap Z Window) !! 20 = Some w2).
  { by rewrite lookup_insert_ne, lookup_singleton_eq by done. }
  split; [| apply sample_tm_wf | | simpl; lia].
  - split; [split|..]; simpl; try (by eexists _; split_and!); try lia.
    + split; try (by apply (bool_decide_unpack _)).
      repeat (apply Forall_cons; split; [eexists; split; [reflexivity|simpl; set_solver]|]). by apply Forall_nil.
    + exists (small_fb 7). split; try reflexivity; apply small_fb_ok.
    + repeat (apply Forall_cons; split; [by eexists _, _; split_and!|]). by apply Forall_nil.
    + exists 100. split; [done|set_solver].
    + exists 200. split; [done|set_solver].
  - split; [done|]. eexists. split; [reflexivity|]. by apply Forall_nil.
Qed.

