(* ===== verification/Startup.v ===== *)
(** The way to the event loop: [InitializeGraphics] of src/kernel/graphics.cpp,
    [InitializeFont] of font.cpp and the part of [KernelMainNewStack] of main.cpp
    before its loop; and the theorem that a start-up leaves the main task able to
    run for ever. *)
From S2P Require Import Prelude ErrorCode MemoryMap MemoryManager FrameAllocator Paging Message Task Timer Graphics.
From S2P Require Import FrameBuffer Font Window Layer SafeDesktop Console SafeConsole File Fat FatFile Segment Interrupt Pci Xhci.
From S2P Require Import AppLoad Acpi Pipe Terminal Logger Kernel ExecuteLine Syscall MainLoop.
Import QueueFacts SchedFacts RunFacts TickFacts DrawFacts FBFacts WindowFacts LayerFacts StackFacts KeptFacts SizedFacts SafeFacts.
Import WriterFacts PrintFacts MainFacts.

(** A step that may end in [exit(1)], which is [None]; what is printed before the
    end is lost with the rest. *)
Definition or_exit {A B} (m : outcome (option A)) (f : A → outcome (option B)) : outcome (option B) :=
  r ← m; match r with None => mret None | Some x => f x end.

(** ** The parts that other files do not have *)

(** [InitializeGraphics]: the screen behind [screen_writer].  There is a case for
    both formats, so [exit(1)] is not reached. *)
Definition InitializeGraphics (screen_config : FrameBufferConfig) : outcome FrameBuffer :=
  b ← of_option (frame_buffer screen_config); DrawDesktop (mkFB screen_config b).

(** [FT_Init_FreeType], and what the USB drivers log while they start, by level. *)
Class StartupLib (H : Type) := {
  fl_Init_FreeType : Z;
  usb_messages : H → list (Z * list Z);
}.

(** [InitializeFont]: the bytes of [korean_buf]. *)
Definition InitializeFont (init_err : Z) (v : Volume) : outcome (option (list Z)) :=
  if negb (init_err =? 0) then mret None
  else
    '(entry, post_slash) ← FindFile v (chars "/resource/korddm.ttf") 0;
    match entry with
    | None => mret None
    | Some e =>
        if (post_slash : bool) then mret None
        else
          let size := file_size v e in
          data ← LoadFile v size e;
          if Z.of_nat (length data) =? size then mret (Some data) else mret None
    end.

(** ** Printing before there is a desktop *)

Definition pad_x (w : nat) (n : Z) : list Z := zero_pad w (fmt_x n).
Definition pad_d (w : nat) (n : Z) : list Z := zero_pad w (fmt_d n).
Definition newline : list Z := [10].

Section early.
Context `{FontLib}.

Definition early_printk (text : list Z) (st : Logger * ConsoleEnv) : outcome (Logger * ConsoleEnv) :=
  let '(l, e) := st in
  if 1024 <=? Z.of_nat (length text) then Undef
  else '(c, e) ← Console.PutString (console l) e text; mret (mkLogger (log_level l) (log_fd l) c, e).

(** The texts printed about the volume image: 16 lines of 16 bytes. *)
Definition dump_byte (v : Volume) (p : Z) : outcome (list Z) :=
  bs ← read_bytes v p 1; mret (chars " " ++ pad_x 2 (default 0 (head bs))).

Definition dump_bytes (v : Volume) (p : Z) (st : Logger * ConsoleEnv) : outcome (Logger * ConsoleEnv) :=
  for_loop 0 8 (λ j st, text ← dump_byte v (p + j); early_printk text st) st.

Definition dump_line (v : Volume) (i : Z) (st : Logger * ConsoleEnv) : outcome (Logger * ConsoleEnv) :=
  st ← early_printk (pad_x 4 (i * 16) ++ chars ":") st;
  st ← dump_bytes v (16 * i) st;
  st ← early_printk (chars " ") st;
  st ← dump_bytes v (16 * i + 8) st;
  early_printk newline st.

Definition dump_volume (v : Volume) (st : Logger * ConsoleEnv) : outcome (Logger * ConsoleEnv) :=
  for_loop 0 16 (dump_line v) st.

(** The texts about the file system. *)
Definition volume_text (v : Volume) : list Z :=
  chars "ReservedSec=" ++ fmt_u (reserved_sector_count v) ++ chars ", FATSize=" ++ fmt_u (fat_size_32 v) ++
  chars ", NumFATs=" ++ fmt_u (num_fats v) ++ newline.

Definition fat_text (v : Volume) : outcome (list Z) :=
  f0 ← fat_get v 0; f1 ← fat_get v 1; f2 ← fat_get v 2; f3 ← fat_get v 3;
  mret (chars "FAT[0]=" ++ pad_x 8 f0 ++ chars " FAT[1]=" ++ pad_x 8 f1 ++ chars " FAT[2]=" ++ pad_x 8 f2 ++
        chars " FAT[3]=" ++ pad_x 8 f3 ++ newline).

(** The line that [InitializePCI] logs of the device [i]. *)
Definition pci_text (i : nat) (dev : Device) (info : Z * ClassCode) : list Z :=
  pad_d 2 (Z.of_nat i) ++ chars ") " ++ fmt_d (bus dev) ++ chars "." ++ fmt_d (device dev) ++ chars "." ++
  fmt_d (function dev) ++ chars ": vend " ++ pad_x 4 info.1 ++ chars ", class " ++ pad_x 2 (base info.2) ++
  chars " " ++ pad_x 2 (sub info.2) ++ chars " " ++ pad_x 2 (interface info.2) ++ chars ", head " ++
  pad_x 2 (header_type dev) ++ newline.

Definition pci_texts (devs : list Device) (infos : list (Z * ClassCode)) : list (list Z) :=
  imap (λ i di, pci_text i di.1 di.2) (zip devs infos).

Definition early_Log (level : Z) (text : list Z) (st : Logger * ConsoleEnv * Volume)
    : outcome (Logger * ConsoleEnv * Volume) :=
  let '(l, e, v) := st in '(_, l, e, v) ← Log l e v level text; mret (l, e, v).
End early.

(** ** The start-up *)

(** The addresses of static objects and functions, and those that [new] returns. *)
Record Layout : Set := mkLayout {
  ly_gdt : Z; ly_tss : Z; ly_idt : Z; ly_pdp_table : Z; ly_page_directory : Z; ly_memory_map : Z; ly_volume : Z;
  ly_handler : Z → Z; ly_SyscallEntry : Z; ly_TaskIdle : Z; ly_idle_stack : Z;
  ly_bgwindow : Z; ly_console_window : Z; ly_main_window : Z; ly_text_window : Z;
  ly_bglayer : Z; ly_console_layer : Z; ly_main_layer : Z; ly_text_layer : Z;
  ly_next : Z;
}.

(** The arguments of [KernelMainNewStack], the volume image being [img] of [len]
    bytes, and the memory the machine starts with. *)
Record Handover : Set := mkHandover {
  ho_config : FrameBufferConfig;
  ho_memory_map : list MemoryDescriptor;
  ho_acpi_table : Z;
  ho_image : gmap Z Z;
  ho_image_len : Z;
}.

(** [task_manager] is null before [InitializeTask]. *)
Definition null_task_manager : TaskManager := mkTM ∅ 0 [] 0 false ∅ ∅.

(** What the start-up leaves behind, next to what the main task works on. *)
Record Started (H : Type) : Type := mkStarted {
  st_main : MainTask H;
  st_segments : Segments;
  st_idt : gmap Z InterruptDescriptor;
  st_idtr : Z * Z;
  st_msrs : list (Z * Z);
  st_heap : Heap;
  st_fadt : Z;
  st_lapic_timer_freq : Z;
  st_korean_buf : list Z;
  st_controllers : list HostController;
}.
Arguments mkStarted {H}. Arguments st_main {H} _. Arguments st_segments {H} _. Arguments st_idt {H} _.
Arguments st_idtr {H} _. Arguments st_msrs {H} _. Arguments st_heap {H} _. Arguments st_fadt {H} _.
Arguments st_lapic_timer_freq {H} _. Arguments st_korean_buf {H} _. Arguments st_controllers {H} _.

(** [SetLogLevel] on the kernel's logger, the first drawing of all layers, and the
    devices found. *)
Definition kernel_SetLogLevel {H} (k : Kernel H) (level : Z) : Kernel H :=
  set_logger k (SetLogLevel (logger k) level) (screen k).
Definition draw_screen {H} (k : Kernel H) (config : FrameBufferConfig) : outcome (Kernel H) :=
  lm ← Draw_all (windows (desktop k)) (layer_manager (desktop k)) (mkRect (mkVec 0 0) (FrameBufferSize config));
  mret (set_desktop k (set_lm (desktop k) lm)).

Section startup.
Context {H : Type} `{SYS : System H} `{FL : FontLib} `{PORTS : IoPorts H} `{M32 : Machine32 H} `{SL : StartupLib H}.
(** Turns of the waiting loops; the firmware's memory; the address of a buffer of
    the USB driver. *)
Variables (fuel turns : nat) (acpi_mem : Z → Z) (desc : Z).

(** Up to [InitializeInterrupt]: the console, the segments, memory. *)
Record Early : Set := mkEarly {
  ea_logger : Logger;
  ea_env : ConsoleEnv;
  ea_segments : Segments;
  ea_pages : pstate BitmapMemoryManager;
  ea_heap : Heap;
}.

Definition start_console (ho : Handover) : outcome (Logger * ConsoleEnv) :=
  screen ← InitializeGraphics (ho_config ho);
  '(c, e) ← InitializeConsole (ho_config ho) (mkEnv screen ∅ None);
  mret (new_Logger c, e).

Definition start_early (ly : Layout) (ho : Handover) (pages : pstate BitmapMemoryManager) : outcome (option Early) :=
  st ← start_console ho;
  st ← early_printk (chars "Welcome to MikanOS!" ++ newline) st;
  '(l, e) ← early_printk (chars "Welcome to Min-OS!" ++ newline) st;
  let l := SetLogLevel l kDebug in
  st ← early_printk (chars "Volume Image: 0x" ++ fmt_x (ly_volume ly) ++ newline) (l, e);
  st ← dump_volume (mkVolume (ho_image ho) (ho_image_len ho) 0) st;
  let seg := InitializeSegmentation (ly_gdt ly) (mkSegments ∅ ∅ None None None None) in
  let pages := SetupIdentityPageTable pml4_table (ly_pdp_table ly) (ly_page_directory ly) pages in
  '(l, e) ← early_printk (chars "memory_map: 0x" ++ fmt_x (ly_memory_map ly) ++ newline) st;
  '(heap, mm) ← InitializeMemoryManager (ho_memory_map ho);
  if error_bool (error heap) then mret None
  else
    '(seg, mm) ← InitializeTSS (ly_tss ly) seg mm;
    match seg with
    | None => mret None
    | Some seg => mret (Some (mkEarly l e seg (mkPS (cr3 pages) (mem pages) mm) (value heap)))
    end.

(** From [fat::Initialize] to [InitializePCI]: the log, the font's data, the
    devices. *)
Definition start_devices (ho : Handover) (ea : Early) (h : H)
    : outcome (option (Logger * ConsoleEnv * Volume * list Z * PciState H)) :=
  let v := Fat.Initialize (ho_image ho) (ho_image_len ho) in
  st ← early_printk (volume_text v) (ea_logger ea, ea_env ea);
  text ← fat_text v;
  '(l, e) ← early_printk text st;
  '(l, v) ← InitializeLogFile l v;
  or_exit (InitializeFont fl_Init_FreeType v) (λ korean_buf,
  or_exit (InitializePCI (mkPci h [])) (λ '(pci, infos),
    '(l, e, v) ← foldM (early_Log kDebug) (pci_texts (devices pci) infos) (l, e, v);
    mret (Some (l, e, v, korean_buf, pci)))).

(** From [InitializeLayer] to the first picture. *)
Definition start_desktop (ly : Layout) (ho : Handover) (ea : Early) (l : Logger) (e : ConsoleEnv) (v : Volume)
    (pci : PciState H) : outcome (MainTask H) :=
  '(c, screen, d) ← InitializeLayer (ho_config ho) (console l) e null_task_manager (ly_bgwindow ly) (ly_console_window ly)
                      (ly_bglayer ly) (ly_console_layer ly);
  '(main_window_layer_id, d) ← InitializeMainWindow d (ly_main_window ly) (ly_main_layer ly);
  '(text_window_layer_id, d) ← InitializeTextWindow d (ly_text_window ly) (ly_text_layer ly);
  let k := mkKernel d new_TimerManager v (ea_pages ea) (mkLogger (log_level l) (log_fd l) c) screen ∅ ∅ ∅ ∅ ∅
             (devices pci) (Pci.hw pci) (ly_next ly) in
  k ← draw_screen k (ho_config ho);
  mret (mkMain k (ly_main_window ly) main_window_layer_id (ly_text_window ly) text_window_layer_id 0 false).

(** The tasks, the timers and the USB controllers; then only warnings are logged. *)
Definition start_tasks (ly : Layout) (k : Kernel H) (fadt : Z) : outcome (Kernel H * Z * list HostController) :=
  '(freq, h) ← InitializeLAPICTimer fuel acpi_mem fadt (hw k);
  let k := set_timers (set_hw k h) (main_timers new_TimerManager) in
  tm ← new_TaskManager (cr3 (pages k)) (ly_idle_stack ly) (ly_TaskIdle ly);
  let k := set_timers (set_ktm k tm) (add_task_timer (timer_manager k)) in
  '(controllers, h) ← usb_Initialize turns fuel desc (pci_devices k) (hw k);
  k ← foldM (λ m k, kernel_Log k m.1 m.2)
        (usb_messages (hw k) ++
         [(kInfo, chars "USB: " ++ fmt_d (Z.of_nat (length controllers)) ++ chars " controller(s) initialized" ++ newline)])
        k;
  mret (kernel_SetLogLevel (set_hw k h) kWarn, freq, controllers).

(** [KernelMainNewStack] up to the event loop; the registers and tables start out
    empty. *)
Definition KernelMainNewStack (ly : Layout) (ho : Handover) (pages : pstate BitmapMemoryManager) (h : H)
    : outcome (option (Started H)) :=
  or_exit (start_early ly ho pages) (λ ea,
  let '(idt, idtr) := InitializeInterrupt (ly_handler ly) (ly_idt ly) ∅ in
  or_exit (start_devices ho ea h) (λ '(l, e, v, korean_buf, pci),
  m ← start_desktop ly ho ea l e v pci;
  or_exit (acpi_Initialize acpi_mem fuel (ho_acpi_table ho)) (λ fadt,
  '(k, freq, controllers) ← start_tasks ly (kernel m) fadt;
  mret (Some (mkStarted (set_kernel m k) (ea_segments ea) idt idtr (InitializeSyscall (ly_SyscallEntry ly)) (ea_heap ea)
                fadt freq korean_buf controllers))))).
End startup.
