(* ===== verification/StartupFacts.v ===== *)
(** The start-up establishes what the event loop needs: the console, the windows
    and the layers are built and printed on safely, and the main task runs. *)
From S2P Require Import Prelude ErrorCode MemoryMap MemoryManager FrameAllocator Paging Message Task Timer Graphics.
From S2P Require Import FrameBuffer Font Window Layer SafeDesktop Console SafeConsole File Fat FatFile Segment Interrupt Pci Xhci.
From S2P Require Import AppLoad Acpi Pipe Terminal Logger Kernel ExecuteLine Syscall MainLoop Startup.
Import QueueFacts SchedFacts RunFacts TickFacts DrawFacts FBFacts WindowFacts LayerFacts StackFacts KeptFacts SizedFacts SafeFacts.
Import WriterFacts PrintFacts MainFacts VolFacts MemoryManager.BitmapFacts MemoryManager.AllocFacts MemoryManager.InitFacts Regions SegmentFacts.

(** ** Texts *)
Module TextFacts.

(** A text of at most [n] ASCII characters and newlines. *)
Definition line (n : Z) (s : list Z) : Prop := Forall (λ ch, ch = 10 ∨ ascii ch) s ∧ Z.of_nat (length s) ≤ n.

Definition line_bool (n : Z) (s : list Z) : bool :=
  forallb (λ ch, (0 <? ch) && (ch <? 128)) s && (Z.of_nat (length s) <=? n).

(** Constant texts are checked by evaluation. *)
Lemma line_const n s : line_bool n s = true → line n s.
Proof.
  unfold line_bool. rewrite andb_true_iff, forallb_forall, Z.leb_le. intros [H ?]. split; [|done]. apply Forall_forall.
  intros ch Hch. right. apply list_elem_of_In, H in Hch. unfold ascii. lia.
Qed.

Lemma line_chars s : line_bool (Z.of_nat (length s)) s = true → line (Z.of_nat (length s)) s.
Proof. apply line_const. Qed.

Lemma line_app n m s t : line n s → line m t → line (n + m) (s ++ t).
Proof. intros [Hs ?] [Ht ?]. split; [by apply Forall_app|]. rewrite length_app. lia. Qed.

Lemma line_le n m s : line n s → n ≤ m → line m s.
Proof. intros [Hs ?] ?. split; [done|lia]. Qed.

Lemma digits_printable fuel b n acc : 2 ≤ b ≤ 16 → Forall (λ ch, ch = 10 ∨ ascii ch) acc →
  Forall (λ ch, ch = 10 ∨ ascii ch) (digits fuel b n acc).
Proof.
  intros Hb. revert n acc. induction fuel as [|fuel IH]; intros n acc Hacc; [done|]. cbn [digits].
  assert (Forall (λ ch, ch = 10 ∨ ascii ch) (digit (n mod b) :: acc)).
  { constructor; [|done]. right. pose proof (Z.mod_pos_bound n b ltac:(lia)). unfold ascii, digit.
    destruct (Z.ltb_spec (n mod b) 10); lia. }
  destruct (n <? b); [done|by apply IH].
Qed.

Lemma line_digits b n : 2 ≤ b ≤ 16 → line 20 (digits 20 b n []).
Proof. intros Hb. split; [by apply digits_printable|]. pose proof (digits_length 20 b n []) as Hl. cbn [length] in Hl. lia. Qed.

Lemma line_u n : line 20 (fmt_u n).
Proof. by apply line_digits. Qed.
Lemma line_x n : line 20 (fmt_x n).
Proof. by apply line_digits. Qed.
Lemma line_d n : line 21 (fmt_d n).
Proof.
  unfold fmt_d. destruct (n <? 0); [|by eapply line_le; [apply line_u|]].
  apply (line_app 1 20 [45]); [by apply line_const|apply line_u].
Qed.

Lemma line_pad w n s : line n s → line (Z.of_nat w + n) (zero_pad w s).
Proof.
  intros [Hs Hn]. unfold zero_pad. split.
  - apply Forall_app. split; [|done]. apply Forall_replicate. right. unfold ascii. lia.
  - rewrite length_app, length_replicate. lia.
Qed.

Lemma line_pad_x w n : line (Z.of_nat w + 20) (pad_x w n).
Proof. apply line_pad, line_x. Qed.
Lemma line_pad_d w n : line (Z.of_nat w + 21) (pad_d w n).
Proof. apply line_pad, line_d. Qed.
End TextFacts.
Import TextFacts.

(** A text put together from constants and numbers is a line of fewer than 1024
    characters. *)
Ltac line_parts :=
  lazymatch goal with
  | |- line _ (_ ++ _) => apply line_app; line_parts
  | |- line _ (fmt_u _) => apply line_u
  | |- line _ (fmt_x _) => apply line_x
  | |- line _ (fmt_d _) => apply line_d
  | |- line _ (pad_x _ _) => apply line_pad_x
  | |- line _ (pad_d _ _) => apply line_pad_d
  | |- _ => apply line_chars; vm_compute; reflexivity
  end.

Ltac line_text := eapply line_le; [line_parts|vm_compute; discriminate].

(** ** New windows *)
Module NewWindowFacts.

(** Drawing that every new window goes through, on any writer. *)
Section kept.
Context {S : Type} `{PW : PixelWriter S} {PL : PixelWriterLaws S} `{FontLib}.

(** Sequences of rectangles. *)
Lemma kept_bind s f g : (∃ s1, f = Done s1 ∧ kept s s1) → (∀ s1, kept s s1 → ∃ s2, g s1 = Done s2 ∧ kept s1 s2) →
  ∃ s2, (s1 ← f; g s1) = Done s2 ∧ kept s s2.
Proof.
  intros (s1 & -> & H1) Hg. cbn [mbind outcome_bind]. destruct (Hg s1 H1) as (s2 & -> & H2). exists s2. split; [done|].
  by eapply kept_trans.
Qed.

Lemma kept_rectangle s s1 pos size c : kept s s1 → 0 ≤ vx pos → 0 ≤ vy pos → 0 ≤ vx size → 0 ≤ vy size →
  vx pos + vx size ≤ Width s → vy pos + vy size ≤ Height s → ∃ s2, FillRectangle s1 pos size c = Done s2 ∧ kept s1 s2.
Proof. intros [Hok HW HH] **. apply FillRectangle_kept; rewrite ?HW, ?HH; done. Qed.

(** The next rectangle of a drawing that began with [s]. *)
Ltac next_rectangle s := apply kept_bind; [apply (kept_rectangle s); cbn [vx vy]; done || lia|].

Lemma DrawDesktop_kept s : pw_ok s → 40 ≤ Width s → 50 ≤ Height s → ∃ s', DrawDesktop s = Done s' ∧ kept s s'.
Proof.
  intros Hok HW HH. unfold DrawDesktop, kTaskbarHeight. pose proof (kept_refl s Hok) as K0.
  assert (0 ≤ Z.quot (Width s) 5 ≤ Width s) by (rewrite Z.quot_div_nonneg by lia; Z.div_mod_to_equations; lia).
  next_rectangle s. intros s1 K1.
  next_rectangle s. intros s2 K2.
  pose proof (kept_trans _ _ _ K1 K2) as K12.
  next_rectangle s. intros s3 K3.
  apply (kept_rectangle s); cbn [vx vy]; [by eapply kept_trans|lia..].
Qed.

Lemma close_button_at x y : 0 ≤ x < 16 → 0 ≤ y < 14 →
  ∃ row c, close_button !! Z.to_nat y = Some row ∧ row !! Z.to_nat x = Some c.
Proof.
  intros Hx Hy. assert (Hall : Forall (λ row, length row = 16%nat) close_button) by by apply (bool_decide_unpack _).
  destruct (lookup_lt_is_Some_2 close_button (Z.to_nat y)) as [row Hrow]; [change (length close_button) with 14%nat; lia|].
  rewrite Forall_lookup in Hall. specialize (Hall _ _ Hrow).
  destruct (lookup_lt_is_Some_2 row (Z.to_nat x)) as [c Hc]; [lia|]. by exists row, c.
Qed.

Lemma DrawWindowTitle_kept s title active : pw_ok s → Forall ascii title → 24 + 8 * Z.of_nat (length title) ≤ Width s →
  24 ≤ Width s → 24 ≤ Height s → ∃ s', DrawWindowTitle s (title ++ [0]) active = Done s' ∧ kept s s'.
Proof.
  intros Hok Ht HW HW2 HH. unfold DrawWindowTitle. pose proof (kept_refl s Hok) as K0.
  next_rectangle s. intros s1 K1. pose proof K1 as [Hok1 W1 H1].
  apply kept_bind; [apply font_line_kept; cbn [vx vy]; try done; lia|]. intros s2 K2.
  pose proof (kept_trans _ _ _ K1 K2) as [Hok2 W2 H2]. unfold kCloseButtonHeight, kCloseButtonWidth.
  apply for_loop_kept; [done|]. intros y s3 Hy K3. apply for_loop_kept; [apply K3|]. intros x s4 Hx K4.
  destruct (close_button_at x y Hx Hy) as (row & c & -> & Hc). cbn [of_option mbind outcome_bind]. rewrite Hc.
  cbn [of_option mbind outcome_bind]. pose proof (kept_trans _ _ _ K3 K4) as [Hok4 W4 H4].
  apply Write_kept; [done|cbn [vx vy]; lia..].
Qed.

Lemma DrawWindow_kept s title : pw_ok s → Forall ascii title → 24 + 8 * Z.of_nat (length title) ≤ Width s →
  24 ≤ Width s → 24 ≤ Height s → ∃ s', DrawWindow s (title ++ [0]) = Done s' ∧ kept s s'.
Proof.
  intros Hok Ht HW HW2 HH. unfold DrawWindow. pose proof (kept_refl s Hok) as K0.
  next_rectangle s. intros s1 K1.
  do 8 (next_rectangle s; let s' := fresh "s" in let K' := fresh "K" in intros s' K';
    match goal with K1 : kept s ?s1 |- _ => match type of K' with kept s1 _ =>
      pose proof (kept_trans _ _ _ K1 K'); clear K1 K' end end).
  match goal with K : kept s ?s' |- context [DrawWindowTitle ?s' _ _] => destruct K as [? HW' HH']; apply DrawWindowTitle_kept end;
    [done|done|by rewrite HW'|by rewrite HW'|by rewrite HH'].
Qed.
End kept.

(** A sound window of a given size and format. *)
Definition window_made (width height : Z) (format : PixelFormat) (w : Window) : Prop :=
  window_sized w ∧ width_ w = width ∧ height_ w = height ∧ pixel_format (config_ (shadow_buffer_ w)) = format.

Lemma window_made_drawn width height format w w' : window_made width height format w → drawn_on w w' →
  window_made width height format w'.
Proof. intros (Hs & HW & HH & Hf) [Hs' HW' HH' Hc]. split_and!; congruence || done. Qed.

Lemma window_made_at ws p width height format w : ws !! p = Some w → window_made width height format w →
  window_at ws p width height.
Proof. intros Hp (Hs & HW & HH & _). by exists w. Qed.

Lemma new_Window_made width height format : 0 ≤ width → 0 ≤ height < 2 ^ 31 → 4 * width < 2 ^ 31 →
  4 * (width * height) < 2 ^ 31 → ∃ w, new_Window width height format = Done w ∧ window_made width height format w.
Proof.
  intros **. destruct (new_Window_ok width height format) as (w & E & Hok & HW & HH & _); [done..|]. exists w. split; [done|].
  split_and!; [by apply window_ok_sized|done|done|].
  unfold new_Window in E. destruct (_ || _); [done|]. by injection E as <-.
Qed.

Section toplevel.
Context `{FontLib}.

(** Every kind of drawing on a window. *)
Lemma on_window width height format w (f : Window → outcome Window) : window_made width height format w →
  (∀ PL : PixelWriterLaws Window, pw_ok w → ∃ w', f w = Done w' ∧ kept w w') →
  ∃ w', f w = Done w' ∧ window_made width height format w'.
Proof.
  intros Hw Hf. pose proof Hw as (Hs & HW & HH & _).
  destruct (Hf (sized_laws (config_ (shadow_buffer_ w))) (sized_pw_ok w Hs)) as (w' & E & Hk). exists w'. split; [done|].
  eapply window_made_drawn; [done|]. by apply kept_drawn.
Qed.

Lemma new_ToplevelWindow_made width height format title : 24 ≤ width → 24 ≤ height < 2 ^ 31 → 4 * width < 2 ^ 31 →
  4 * (width * height) < 2 ^ 31 → Forall ascii title → 24 + 8 * Z.of_nat (length title) ≤ width →
  ∃ w, new_ToplevelWindow width height format (title ++ [0]) = Done w ∧ window_made width height format w.
Proof.
  intros HW HH H4 Hsz Ht Hl. unfold new_ToplevelWindow.
  destruct (new_Window_made width height format) as (w & -> & Hw); [lia..|]. cbn [mbind outcome_bind].
  set (w1 := mkWindow _ _ _ _ _ _).
  assert (Hw1 : window_made width height format w1) by (destruct Hw as ([] & ? & ? & ?); by split_and!).
  apply (on_window width height format w1 (λ w, DrawWindow w (title ++ [0]))); [done|]. intros PL Hpw. pose proof Hw1 as (_ & W1 & H1 & _). apply DrawWindow_kept; cbn [Width Height WindowWriter];
    rewrite ?W1, ?H1; done || lia.
Qed.

(** A rectangle of the inner area that stays within the frame. *)
Lemma frame_rectangle w i pos size c : window_sized w → drawn_on w (inner_window i) → 0 ≤ vx pos + 4 → 0 ≤ vy pos + 24 →
  vx pos + 4 + vx size ≤ width_ w → vy pos + 24 + vy size ≤ height_ w →
  ∃ i', FillRectangle i pos size c = Done i' ∧ drawn_on w (inner_window i').
Proof.
  intros Hw Hi Hx Hy HW HH. unfold FillRectangle.
  apply (for_loop_keeps (λ j, drawn_on w (inner_window j))); [done|]. intros dy j1 Hdy Hj1.
  apply (for_loop_keeps (λ j, drawn_on w (inner_window j))); [done|]. intros dx j2 Hdx [Hs W2 H2 Hc].
  destruct (Write_kept (PL := sized_laws (config_ (shadow_buffer_ (inner_window j2)))) (inner_window j2)
    (pos +v mkVec dx dy +v kTopLeftMargin) c) as (w' & E & Hk).
  { by apply sized_pw_ok. }
  { cbn [Width WindowWriter]. rewrite W2. simpl. lia. }
  { cbn [Height WindowWriter]. rewrite H2. simpl. lia. }
  exists (mkInner w'). split; [|eapply drawn_on_trans; [by split|by apply kept_drawn]].
  change (Graphics.Write j2 (pos +v mkVec dx dy) c) with (inner_Write j2 (pos +v mkVec dx dy) c). unfold inner_Write.
  change (Graphics.Write (inner_window j2) (pos +v mkVec dx dy +v kTopLeftMargin) c) with
    (window_Write (inner_window j2) (pos +v mkVec dx dy +v kTopLeftMargin) c) in E. by rewrite E.
Qed.

Lemma DrawTextBox_made width height format w : window_made width height format w → 9 ≤ width → 29 ≤ height →
  ∃ w', inner_area (λ i, DrawTextBox i (mkVec 0 0) (InnerSize w)) w = Done w' ∧ window_made width height format w'.
Proof.
  intros Hw HW HH. pose proof Hw as (Hs & W & Hh & _). unfold inner_area, DrawTextBox, DrawTextbox.
  assert (Hsize : InnerSize w = mkVec (width - 8) (height - 28)).
  { unfold InnerSize, Size, vec_sub. simpl. rewrite W, Hh. f_equal; lia. }
  rewrite Hsize.
  assert (Hr : ∀ i pos size c, drawn_on w (inner_window i) → 0 ≤ vx pos + 4 → 0 ≤ vy pos + 24 →
    vx pos + 4 + vx size ≤ width → vy pos + 24 + vy size ≤ height →
    ∃ i', FillRectangle i pos size c = Done i' ∧ drawn_on w (inner_window i')).
  { intros. apply frame_rectangle; rewrite ?W, ?Hh; done. }
  pose proof (drawn_on_refl w Hs) as D0.
  match goal with |- context [FillRectangle (mkInner w) ?p ?s ?c] => destruct (Hr (mkInner w) p s c) as (i1 & -> & D1);
    [done|simpl; lia..|] end. cbn [mbind outcome_bind].
  do 3 (match goal with D : drawn_on w (inner_window ?i) |- context [FillRectangle ?i ?p ?s ?c] =>
    let i' := fresh "i" in let D' := fresh "D" in destruct (Hr i p s c) as (i' & -> & D'); [done|simpl; lia..|]; clear D end;
    cbn [mbind outcome_bind]).
  match goal with D : drawn_on w (inner_window ?i) |- context [FillRectangle ?i ?p ?s ?c] =>
    destruct (Hr i p s c) as (i5 & -> & D5); [done|simpl; lia..|] end.
  cbn [mbind outcome_bind mret outcome_ret]. eexists. split; [done|]. by eapply window_made_drawn.
Qed.
End toplevel.
End NewWindowFacts.
Import NewWindowFacts.

(** ** New layers *)
Module NewLayerFacts.

Definition addresses (lm : LayerManager) : list Z := fst <$> layers_ lm.

(** The format of the pictures. *)
Definition lm_format (lm : LayerManager) : PixelFormat := pixel_format (config_ (back_buffer_ lm)).

(** More layers, and those that were on the stack still are. *)
Record lm_grown (lm lm' : LayerManager) : Prop := {
  gr_find id a : FindLayer lm id = Some a → FindLayer lm' id = Some a;
  gr_stack id : on_stack lm id → on_stack lm' id;
  gr_format : lm_format lm' = lm_format lm;
}.

Lemma lm_grown_refl lm : lm_grown lm lm.
Proof. by split. Qed.
Lemma lm_grown_trans lm1 lm2 lm3 : lm_grown lm1 lm2 → lm_grown lm2 lm3 → lm_grown lm1 lm3.
Proof. intros [F1 S1 P1] [F2 S2 P2]. split; [by eauto|by eauto|congruence]. Qed.

(** The changes of a new layer before it is put on the stack. *)
Definition new_layer_with (lm : LayerManager) (a : Z) (f : Layer → Layer) : LayerManager :=
  update_layer (NewLayer lm a).2 a f.

Lemma find_app_Some {A} (P : A → bool) l k x : List.find P l = Some x → List.find P (l ++ k) = Some x.
Proof. induction l as [|y l IH]; simpl; [done|]. by destruct (P y). Qed.

Lemma update_fresh (ls : list (Z * Layer)) (a : Z) (f : Layer → Layer) : a ∉ fst <$> ls →
  (λ al : Z * Layer, if al.1 =? a then (al.1, f al.2) else al) <$> ls = ls.
Proof.
  induction ls as [|[b l] ls IH]; intros Ha; [done|]. cbn [fmap list_fmap fst] in *. apply not_elem_of_cons in Ha as [Hne Ha].
  simpl. destruct (Z.eqb_spec b a); [done|]. f_equal. by apply IH.
Qed.

Lemma new_layer_with_layers lm a f : a ∉ addresses lm →
  layers_ (new_layer_with lm a f) = layers_ lm ++ [(a, f (new_Layer (u32 (Layer.latest_id_ lm + 1))))].
Proof.
  intros Ha. unfold new_layer_with, update_layer, NewLayer. cbn [snd layers_ set_layers]. rewrite fmap_app, update_fresh by done.
  simpl. by rewrite Z.eqb_refl.
Qed.

Lemma new_layer_safe ws lm a f wp w W H : lm_safe ws lm → a ∉ addresses lm → 0 ≤ Layer.latest_id_ lm < 2 ^ 32 - 1 →
  (∀ l, Layer.id_ (f l) = Layer.id_ l ∧ Layer.window_ (f l) = Some wp) → ws !! wp = Some w → window_made W H (lm_format lm) w →
  let lm' := new_layer_with lm a f in
  lm_safe ws lm' ∧ lm_grown lm lm' ∧ FindLayer lm' (Layer.latest_id_ lm + 1) = Some a ∧ Layer.latest_id_ lm' = Layer.latest_id_ lm + 1 ∧
    addresses lm' = addresses lm ++ [a].
Proof.
  intros [Hok Hbuf Hws] Ha Hid Hf Hwp Hw lm'. pose proof (new_layer_with_layers lm a f Ha) as EL. fold lm' in EL.
  destruct (NewLayer_ok lm a Hok Hid Ha) as [[O1 O2 O3 O4 O5] Hfind].
  assert (Hlatest : Layer.latest_id_ lm' = Layer.latest_id_ lm + 1) by (simpl; by rewrite wrap_small by lia).
  rewrite wrap_small in EL by lia. set (l1 := f (new_Layer (Layer.latest_id_ lm + 1))) in *.
  assert (Hl1 : Layer.id_ l1 = Layer.latest_id_ lm + 1 ∧ Layer.window_ l1 = Some wp) by (destruct (Hf (new_Layer (Layer.latest_id_ lm + 1))); by split).
  cbn [NewLayer snd layers_ layer_stack_ Layer.latest_id_] in O1, O2, O3, O4, O5. rewrite wrap_small in O2, O3 by lia.
  split; [|split; [|split; [|split; [done|unfold addresses; by rewrite EL, fmap_app]]]].
  - split.
    + split; rewrite ?EL, ?Hlatest; rewrite ?fmap_app in *; cbn [fmap list_fmap fst snd Layer.id_ new_Layer] in *; rewrite ?(proj1 Hl1); try done.
      apply Forall_app. apply Forall_app in O3 as [O3 _]. split; [done|]. apply Forall_singleton. cbn [snd]. destruct Hl1 as [-> _].
      destruct Hok. lia.
    + destruct Hbuf as (screen & []). exists screen. by split.
    + rewrite EL. apply Forall_app. split; [exact Hws|]. apply Forall_singleton. exists wp, w. destruct Hl1 as [_ Hl1], Hw as (? & _ & _ & ?).
      by split_and!.
  - assert (Hgf : ∀ id b, FindLayer lm id = Some b → FindLayer lm' id = Some b).
    { intros id b. unfold FindLayer. rewrite EL. destruct (List.find _ (layers_ lm)) as [x|] eqn:E; [|done].
      intros [= <-]. by rewrite (find_app_Some _ _ _ _ E). }
    split; [done| |done]. intros id (b & Hb & Hst). exists b. split; [by apply Hgf|done].
  - unfold FindLayer. rewrite EL. assert (Hnone : List.find (λ al, Layer.id_ al.2 =? Layer.latest_id_ lm + 1) (layers_ lm) = None).
    { destruct (List.find _ (layers_ lm)) as [[b l]|] eqn:E; [|done]. apply List.find_some in E as [Hin%list_elem_of_In He%Z.eqb_eq].
      pose proof (lo_range _ Hok) as Hr. rewrite Forall_forall in Hr. specialize (Hr _ Hin). simpl in *. lia. }
    revert Hnone. clear -Hl1. induction (layers_ lm) as [|x ls IH]; simpl.
    + destruct Hl1 as [-> _]. by rewrite Z.eqb_refl.
    + destruct (_ =? _); [done|]. by apply IH.
Qed.

(** A layer is put on the stack. *)
Lemma UpDown_safe ws lm id a h : lm_safe ws lm → FindLayer lm id = Some a → 0 ≤ h →
  let lm' := UpDown lm id h in
  lm_safe ws lm' ∧ lm_grown lm lm' ∧ on_stack lm' id ∧ Layer.latest_id_ lm' = Layer.latest_id_ lm ∧ addresses lm' = addresses lm.
Proof.
  intros [Hok Hbuf Hws] Ha Hh lm'. pose proof (UpDown_ok lm id a h Hok Ha) as Hok'. unfold lm' in *.
  rewrite (UpDown_stack lm id a h Hok Ha Hh) in *. set (others := filter _ _) in *. set (n := (_ `min` _)%nat) in *.
  assert (Hin : ∀ q, q ∈ insert_at n (Some a) others ↔ q = Some a ∨ q ∈ layer_stack_ lm).
  { intros q. rewrite elem_of_insert_at. unfold others. rewrite list_elem_of_filter.
    destruct (decide (q = Some a)); naive_solver. }
  split; [|split; [|split; [|done]]].
  - split; [done| |done]. destruct Hbuf as (screen & []). exists screen. by split.
  - split; [done| |done]. intros i (b & Hb & Hst). exists b. split; [done|]. apply Hin. by right.
  - exists a. split; [done|]. apply Hin. by left.
Qed.

(** A window that no layer shows yet. *)
Lemma lm_safe_new_window ws lm p w : lm_safe ws lm → ws !! p = None → lm_safe (<[p := w]> ws) lm.
Proof.
  intros [Hok Hbuf Hws] Hp. split; [done|done|]. eapply Forall_impl; [exact Hws|].
  intros al (wp & u & Hal & Hu & ? & ?). exists wp, u. split_and!; try done. rewrite lookup_insert_ne; [done|congruence].
Qed.

(** The layer of a new window is put on top. *)
Lemma new_top_layer_safe d p a pos w W H : lm_safe (windows d) (layer_manager d) → a ∉ addresses (layer_manager d) →
  0 ≤ Layer.latest_id_ (layer_manager d) < 2 ^ 32 - 1 → windows d !! p = Some w → window_made W H (lm_format (layer_manager d)) w →
  ∃ lm', new_top_layer d p a pos = (Layer.latest_id_ (layer_manager d) + 1, set_lm d lm') ∧ lm_safe (windows d) lm' ∧
    lm_grown (layer_manager d) lm' ∧ on_stack lm' (Layer.latest_id_ (layer_manager d) + 1) ∧
    Layer.latest_id_ lm' = Layer.latest_id_ (layer_manager d) + 1 ∧ addresses lm' = addresses (layer_manager d) ++ [a].
Proof.
  intros Hlm Ha Hid Hp Hw.
  destruct (new_layer_safe (windows d) (layer_manager d) a
    (λ l, layer_Move (SetDraggable (Layer.SetWindow l (Some p)) true) pos) p w W H) as (H1 & H2 & H3 & H4 & H5); [done..|].
  set (lm1 := new_layer_with _ _ _) in *.
  destruct (UpDown_safe (windows d) lm1 (Layer.latest_id_ (layer_manager d) + 1) a (2 ^ 31 - 1)) as (U1 & U2 & U3 & U4 & U5); [done..|].
  exists (UpDown lm1 (Layer.latest_id_ (layer_manager d) + 1) (2 ^ 31 - 1)).
  split; [|split_and!; [done|by eapply lm_grown_trans|done|congruence|congruence]].
  unfold new_top_layer. change (NewLayer (layer_manager d) a) with (a, (NewLayer (layer_manager d) a).2). cbv beta iota zeta.
  fold (new_layer_with (layer_manager d) a (λ l, layer_Move (SetDraggable (Layer.SetWindow l (Some p)) true) pos)). fold lm1.
  by rewrite H4.
Qed.
End NewLayerFacts.
Import NewLayerFacts.

(** ** The console before there are layers *)
Module EarlyFacts.

(** A text for the log. *)
Definition log_line (text : list Z) : Prop := line 1023 text ∧ text ≠ [].

(** What the log file may be asked: [I n] says that [n] more lines can be logged. *)
Class LogFile (I : nat → option FatFD → Volume → Prop) := {
  log_writes n fd v text : I (S n) (Some fd) v → log_line text →
    ∃ len v' fd', fat_Write v fd text = Done (len, v', fd') ∧ I n (Some fd') v';
  log_fewer n fd v : I (S n) fd v → I n fd v;
}.

Section early.
Context `{FontLib}.

(** The console is drawn on the screen. *)
Record early_ok (cfg : FrameBufferConfig) (l : Logger) (e : ConsoleEnv) : Prop := {
  eo_console : console_ok (console l) e;
  eo_writer : writer_ (console l) = ScreenWriter;
  eo_window : Console.window_ (console l) = None;
  eo_manager : env_manager e = None;
  eo_windows : env_windows e = ∅;
  eo_config : config_ (env_screen e) = cfg;
}.

Lemma early_printed cfg l e l' e' : early_ok cfg l e → console_ok (console l') e' →
  same_console (console l) (console l') → env_drawn (writer_ (console l)) e e' → early_ok cfg l' e'.
Proof.
  intros [? Hw ? ? ? ?] Hok [] Hd. rewrite Hw in *. destruct Hd as [Hm (Hws & _ & Hc)]. split; congruence || done.
Qed.

Lemma printed_ok cfg l e text : early_ok cfg l e → line 1023 text →
  ∃ c e', Console.PutString (console l) e text = Done (c, e') ∧
    ∀ lv fd, early_ok cfg (mkLogger lv fd c) e'.
Proof.
  intros Hok [Htext _]. destruct (PutString_early (console l) e text Htext (eo_console _ _ _ Hok) (eo_manager _ _ _ Hok))
    as (c & e' & E & Hc & Hsc & Hd). exists c, e'. split; [done|]. intros lv fd. by eapply early_printed.
Qed.

Lemma early_printk_ok cfg l e text : early_ok cfg l e → line 1023 text →
  ∃ l' e', early_printk text (l, e) = Done (l', e') ∧ early_ok cfg l' e' ∧ log_level l' = log_level l ∧ log_fd l' = log_fd l.
Proof.
  intros Hok Ht. unfold early_printk. destruct (Z.leb_spec 1024 (Z.of_nat (length text))); [destruct Ht; lia|].
  destruct (printed_ok cfg l e text Hok Ht) as (c & e' & -> & Hok'). cbn [mbind outcome_bind mret outcome_ret].
  eexists _, e'. split; [reflexivity|]. split; [apply Hok'|done].
Qed.

(** Printing that keeps the console sound and the logger as it is. *)
Definition printing (cfg : FrameBufferConfig) (lv : Z) (f : Logger * ConsoleEnv → outcome (Logger * ConsoleEnv)) : Prop :=
  ∀ l e, early_ok cfg l e → log_level l = lv → log_fd l = None →
    ∃ l' e', f (l, e) = Done (l', e') ∧ early_ok cfg l' e' ∧ log_level l' = lv ∧ log_fd l' = None.

Lemma printing_text cfg lv text : line 1023 text → printing cfg lv (early_printk text).
Proof.
  intros Ht l e Hok Hlv Hfd. destruct (early_printk_ok cfg l e text Hok Ht) as (l' & e' & E & Hok' & Hl & Hf).
  exists l', e'. split_and!; congruence || done.
Qed.

Lemma printing_bind cfg lv f g : printing cfg lv f → printing cfg lv g → printing cfg lv (λ st, st ← f st; g st).
Proof.
  intros Hf Hg l e Hok Hlv Hfd. destruct (Hf l e Hok Hlv Hfd) as (l1 & e1 & -> & Hok1 & Hlv1 & Hfd1).
  cbn [mbind outcome_bind]. by apply Hg.
Qed.

Lemma printing_loop cfg lv lo hi f : (∀ i, lo ≤ i < hi → printing cfg lv (f i)) → printing cfg lv (for_loop lo hi f).
Proof.
  intros Hf l e Hok Hlv Hfd.
  destruct (for_loop_keeps (λ st : Logger * ConsoleEnv, early_ok cfg st.1 st.2 ∧ log_level st.1 = lv ∧ log_fd st.1 = None)
    lo hi f (l, e)) as ([l' e'] & E & ? & ? & ?); [done| |by exists l', e'].
  intros i [l1 e1] Hi (Hok1 & Hlv1 & Hfd1). destruct (Hf i Hi l1 e1 Hok1 Hlv1 Hfd1) as (l2 & e2 & E & ? & ? & ?). by exists (l2, e2).
Qed.

Lemma printing_bytes cfg lv v p : 0 ≤ p → p + 8 ≤ image_len v → printing cfg lv (dump_bytes v p).
Proof.
  intros Hp Hlen. apply printing_loop. intros j Hj l e Hok Hlv Hfd. unfold dump_byte, read_bytes, in_image.
  destruct (Z.leb_spec 0 (p + j)); [|lia]. destruct (Z.leb_spec (p + j + 1) (image_len v)); [|lia].
  cbn [andb mbind outcome_bind mret outcome_ret]. apply printing_text; [|done..]. line_text.
Qed.

(** The first 256 bytes of the volume are printed. *)
Lemma printing_volume cfg lv v : 256 ≤ image_len v → printing cfg lv (dump_volume v).
Proof.
  intros Hlen. apply printing_loop. intros i Hi. unfold dump_line.
  apply printing_bind; [apply printing_text; line_text|].
  apply printing_bind; [apply printing_bytes; lia|].
  apply printing_bind; [apply printing_text; line_text|].
  apply printing_bind; [apply printing_bytes; lia|].
  apply printing_text. line_text.
Qed.

Lemma volume_text_line v : line 1023 (volume_text v).
Proof. unfold volume_text. line_text. Qed.

Lemma fat_text_line N v : vol_ok N v → 4 ≤ N → ∃ text, fat_text v = Done text ∧ line 1023 text.
Proof.
  intros Hv HN. pose proof (vo_bpb _ _ Hv). pose proof (vo_table _ _ Hv). pose proof (vo_end _ _ Hv).
  pose proof (vo_sector _ _ Hv). pose proof (vo_sectors _ _ Hv). pose proof (vo_cluster _ _ Hv).
  assert (Hds : data_start v ≤ image_len v) by (unfold cluster_start in *; nia).
  assert (Hget : ∀ i, 0 ≤ i < 4 → ∃ x, fat_get v i = Done x).
  { intros i Hi. unfold fat_get, in_image. destruct (Z.leb_spec 0 (GetFAT v + 4 * i)); [|lia].
    destruct (Z.leb_spec (GetFAT v + 4 * i + 4) (image_len v)); [|lia]. by eexists. }
  unfold fat_text. destruct (Hget 0) as (f0 & ->); [lia|]. destruct (Hget 1) as (f1 & ->); [lia|].
  destruct (Hget 2) as (f2 & ->); [lia|]. destruct (Hget 3) as (f3 & ->); [lia|]. cbn [mbind outcome_bind mret outcome_ret].
  eexists. split; [reflexivity|]. line_text.
Qed.

Lemma pci_texts_lines devs infos : Forall log_line (pci_texts devs infos).
Proof.
  unfold pci_texts. apply Forall_lookup. intros i text. rewrite list_lookup_imap. destruct (_ !! i) as [di|]; [|done].
  intros [= <-]. split; [unfold pci_text; line_text|]. unfold pci_text. rewrite !app_assoc. by intros [_ ?]%app_eq_nil.
Qed.

(** Lines are logged. *)
Lemma early_Logs_ok I `{LogFile I} cfg level texts : Forall log_line texts → ∀ n l e v, early_ok cfg l e →
  I (length texts + n)%nat (log_fd l) v →
  ∃ l' e' v', foldM (early_Log level) texts (l, e, v) = Done (l', e', v') ∧ early_ok cfg l' e' ∧ I n (log_fd l') v' ∧
    log_level l' = log_level l.
Proof.
  induction 1 as [|text texts Ht Hts IH]; intros n l e v Hok Hi; [by exists l, e, v|]. cbn [foldM length] in *.
  assert (Hstep : ∃ l1 e1 v1, early_Log level text (l, e, v) = Done (l1, e1, v1) ∧ early_ok cfg l1 e1 ∧
    I (length texts + n)%nat (log_fd l1) v1 ∧ log_level l1 = log_level l).
  { unfold early_Log, Log. destruct (log_level l <? level).
    { exists l, e, v. split; [done|]. split; [done|]. split; [by apply log_fewer|done]. }
    pose proof Ht as [[_ Hlen] _]. destruct (Z.leb_spec 1024 (Z.of_nat (length text))); [lia|].
    destruct (printed_ok cfg l e text Hok (proj1 Ht)) as (c & e' & -> & Hok'). cbn [mbind outcome_bind].
    destruct (log_fd l) as [fd|] eqn:Efd.
    - destruct (log_writes _ fd v text Hi Ht) as (m & v' & fd' & -> & Hi'). cbn [mbind outcome_bind mret outcome_ret].
      eexists _, e', v'. split; [reflexivity|]. split; [apply Hok'|done].
    - cbn [mbind outcome_bind mret outcome_ret]. eexists _, e', v. split; [reflexivity|]. split; [apply Hok'|].
      split; [by apply log_fewer|done]. }
  destruct Hstep as (l1 & e1 & v1 & -> & Hok1 & Hi1 & Hl1). cbn [mbind outcome_bind].
  destruct (IH n l1 e1 v1 Hok1 Hi1) as (l2 & e2 & v2 & E & ? & ? & ?). exists l2, e2, v2. split_and!; congruence || done.
Qed.

(** ** The console's set-up *)

Lemma fresh_row columns r : row_ok columns ∅ r.
Proof. intros j Hj. unfold cell, arr_read. rewrite lookup_empty. split; [by left|done]. Qed.

(** The console of [InitializeConsole] on a screen of a given size. *)
Definition start_rows (cfg : FrameBufferConfig) : Z := Z.min ((vertical_resolution cfg - 50) / 16) 120.
Definition start_columns (cfg : FrameBufferConfig) : Z := Z.min (horizontal_resolution cfg / 8) 240.

Lemma start_grid cfg : 40 ≤ horizontal_resolution cfg → 66 ≤ vertical_resolution cfg →
  1 ≤ start_rows cfg ≤ kMaxRows ∧ 1 ≤ start_columns cfg ≤ kMaxColumns ∧
  8 * start_columns cfg ≤ horizontal_resolution cfg ∧ 16 * start_rows cfg ≤ vertical_resolution cfg.
Proof. intros Hh Hv. unfold start_rows, start_columns, kMaxRows, kMaxColumns. Z.div_mod_to_equations. lia. Qed.

(** The size of a sound screen. *)
Record display_ok (cfg : FrameBufferConfig) (b : buffer) : Prop := {
  dis_memory : frame_buffer cfg = Some b;
  dis_ok : fb_ok (mkFB cfg b);
  dis_width : 40 ≤ horizontal_resolution cfg;
  dis_height : 66 ≤ vertical_resolution cfg;
}.

(** A frame buffer whose configuration is kept. *)
Program Definition screen_laws (cfg : FrameBufferConfig) : PixelWriterLaws FrameBuffer :=
  {| pw_ok fb := fb_ok fb ∧ config_ fb = cfg; pixel := pixel (PixelWriterLaws := FrameBufferWriter_laws) |}.
Next Obligation.
  intros cfg fb pos c [Hok Hc] Hx Hy.
  destruct (Write_spec (PixelWriterLaws := FrameBufferWriter_laws) fb pos c Hok Hx Hy) as (s & E & Hs & HW & HH & Hpx).
  exists s. split_and!; try done. rewrite <- Hc. by eapply fb_Write_config.
Qed.

Lemma InitializeGraphics_ok cfg b : display_ok cfg b →
  ∃ s, InitializeGraphics cfg = Done s ∧ fb_ok s ∧ config_ s = cfg.
Proof.
  intros [Hb Hok HW HH]. unfold InitializeGraphics. rewrite Hb. cbn [of_option mbind outcome_bind].
  pose proof (ok_width _ Hok) as Hw. pose proof (ok_height _ Hok) as Hh. pose proof (ok_line _ Hok). cbn [config_] in *.
  destruct (DrawDesktop_kept (PL := screen_laws cfg) (mkFB cfg b)) as (s & E & [[Hs Hc] _ _]).
  { by split. }
  { simpl. rewrite swrap_small by lia. lia. }
  { simpl. rewrite swrap_small by lia. lia. }
  by exists s.
Qed.

(** A console without text on a sound picture. *)
Lemma console_ok_fresh c e : 1 ≤ rows_ c ≤ kMaxRows → 1 ≤ columns_ c ≤ kMaxColumns → buffer_ c = ∅ →
  cursor_row_ c = 0 → cursor_column_ c = 0 → writer_ok (writer_ c) e → 8 * columns_ c ≤ Width (dev c e) →
  16 * rows_ c ≤ Height (dev c e) → (∀ p, Console.window_ c = Some p → writer_ c = WindowWriterOf p) → console_ok c e.
Proof.
  intros Hr Hc Hb Hcr Hcc Hw HW HH Hwin. split; try done; [lia|lia|]. intros r _. rewrite Hb. apply fresh_row.
Qed.

Lemma InitializeConsole_ok cfg b s : display_ok cfg b → fb_ok s → config_ s = cfg →
  ∃ c e, InitializeConsole cfg (mkEnv s ∅ None) = Done (c, e) ∧ (∀ lv fd, early_ok cfg (mkLogger lv fd c) e) ∧
    rows_ c = start_rows cfg ∧ columns_ c = start_columns cfg ∧ buffer_ c = ∅ ∧ cursor_row_ c = 0 ∧ cursor_column_ c = 0.
Proof.
  intros [Hb Hok HW HH] Hs Hc. destruct (start_grid cfg HW HH) as (Hrows & Hcols & Hw8 & Hh16).
  pose proof (ok_width _ Hok) as Hw. pose proof (ok_height _ Hok) as Hh. pose proof (ok_line _ Hok). cbn [config_] in *.
  unfold InitializeConsole, console_SetWriter. rewrite bool_decide_eq_false_2 by done.
  set (c := set_writer _ _ _).
  assert (Er : rows_ c = start_rows cfg).
  { unfold c, start_rows, kTaskbarHeight, kMaxRows. cbn [new_Console set_writer rows_]. rewrite (wrap_small 32) by lia.
    rewrite swrap_small; [done|lia|]. Z.div_mod_to_equations. lia. }
  assert (Ec : columns_ c = start_columns cfg).
  { unfold c, start_columns, kMaxColumns. cbn [new_Console set_writer columns_]. rewrite (wrap_small 32) by lia.
    rewrite swrap_small; [done|lia|]. Z.div_mod_to_equations. lia. }
  assert (Hcok : console_ok c (mkEnv s ∅ None)).
  { apply console_ok_fresh; rewrite ?Er, ?Ec; try done.
    - simpl. rewrite Hc, swrap_small by lia. lia.
    - simpl. rewrite Hc, swrap_small by lia. lia. }
  destruct (Refresh_safe c _ Hcok) as (e & -> & Hd). cbn [mbind outcome_bind mret outcome_ret].
  exists c, e. split; [done|]. split; [|by rewrite Er, Ec].
  intros lv fd. eapply (early_printed cfg (mkLogger lv fd c) (mkEnv s ∅ None)); cbn [console]; [|by eapply console_ok_drawn|apply same_console_refl|done].
  by split.
Qed.

Lemma start_console_ok ho b : display_ok (ho_config ho) b →
  ∃ l e, start_console ho = Done (l, e) ∧ early_ok (ho_config ho) l e ∧ log_level l = kWarn ∧ log_fd l = None.
Proof.
  intros Hscr. unfold start_console. destruct (InitializeGraphics_ok _ _ Hscr) as (s & -> & Hs & Hc). cbn [mbind outcome_bind].
  destruct (InitializeConsole_ok _ _ s Hscr Hs Hc) as (c & e & -> & Hok & _). cbn [mbind outcome_bind mret outcome_ret].
  eexists _, e. split; [reflexivity|]. split; [apply Hok|done].
Qed.
End early.
End EarlyFacts.
Import EarlyFacts.

(** ** The first layers *)
Module DesktopStart.
Section desktop.
Context `{FontLib}.

(** The screen of the layers and their back buffer. *)
Lemma SetWriter_empty cfg b : display_ok cfg b → ∀ ws,
  let lm := Layer.SetWriter (mkLM None (mkFB cfg b) [] [] 0) (mkFB cfg b) in
  lm_safe ws lm ∧ lm_format lm = pixel_format cfg ∧ addresses lm = [] ∧ Layer.latest_id_ lm = 0.
Proof.
  intros [Hb Hok HW HH] ws lm. pose proof (ok_width _ Hok) as Hw. pose proof (ok_height _ Hok) as Hh. pose proof (ok_line _ Hok) as Hl.
  pose proof (ok_small _ Hok) as Hs. cbn [config_ fb_mem] in *. split; [|done]. split.
  - split; simpl; try apply NoDup_nil_2; by apply Forall_nil.
  - exists (mkFB cfg b). split; try done. split; simpl; try lia.
    + assert (0 ≤ 4 * horizontal_resolution cfg * vertical_resolution cfg < 2 ^ 31) by nia.
      destruct (pixel_format cfg); simpl; rewrite (wrap_small 32 (4 * _)) by lia; rewrite wrap_small by lia; lia.
    + nia.
  - by apply Forall_nil.
Qed.

(** A layer for a window without a frame. *)
Lemma plain_layer ws lm a p w W Hh : lm_safe ws lm → a ∉ addresses lm → 0 ≤ Layer.latest_id_ lm < 2 ^ 32 - 1 →
  ws !! p = Some w → window_made W Hh (lm_format lm) w →
  let lm' := new_layer_with lm a (λ l, layer_Move (Layer.SetWindow l (Some p)) (mkVec 0 0)) in
  lm_safe ws lm' ∧ lm_grown lm lm' ∧ FindLayer lm' (Layer.latest_id_ lm + 1) = Some a ∧
    Layer.latest_id_ lm' = Layer.latest_id_ lm + 1 ∧ addresses lm' = addresses lm ++ [a].
Proof. intros **. by eapply new_layer_safe. Qed.

(** The desktop after [InitializeLayer]: the console is drawn on its own window. *)
Record desktop_started (cfg : FrameBufferConfig) (tm : TaskManager) (a_con l_bg l_con : Z) (c : Console) (d : Desktop) : Prop := {
  ds_layers : lm_safe (windows d) (layer_manager d);
  ds_format : lm_format (layer_manager d) = pixel_format cfg;
  ds_addresses : addresses (layer_manager d) = [l_bg; l_con];
  ds_latest : Layer.latest_id_ (layer_manager d) = 2;
  ds_console : ∀ s, console_ok c (mkEnv s (windows d) (Some (layer_manager d)));
  ds_writer : writer_ c = WindowWriterOf a_con;
  ds_layer : on_stack (layer_manager d) (Console.layer_id_ c);
  ds_active : active_layer d = mkActive 0 0;
  ds_map : layer_task_map d = ∅;
  ds_tasks : task_manager d = tm;
}.

(** Only the window of the console matters to it. *)
Lemma console_ok_window c e e' p : console_ok c e → writer_ c = WindowWriterOf p →
  env_windows e' !! p = env_windows e !! p → console_ok c e'.
Proof.
  intros [] Hw Hp. unfold dev in *. rewrite Hw in *. cbn [Width Height ConsoleWriter dev_ref dev_env writer_ok] in *.
  split; unfold dev; rewrite ?Hw; try done; cbn [Width Height ConsoleWriter dev_ref dev_env writer_ok]; by rewrite Hp.
Qed.

Lemma InitializeLayer_ok cfg b l e tm a_bg a_con l_bg l_con : display_ok cfg b → early_ok cfg l e → a_bg ≠ a_con → l_bg ≠ l_con →
  ∃ c s d, InitializeLayer cfg (console l) e tm a_bg a_con l_bg l_con = Done (c, s, d) ∧
    desktop_started cfg tm a_con l_bg l_con c d ∧ (∀ p, p ≠ a_bg → p ≠ a_con → windows d !! p = None).
Proof.
  intros Hscr [Hcon Hwr Hwin Hman Hews Hcfg] Ha Hl. pose proof Hscr as [Hb Hok HW HH].
  pose proof (ok_width _ Hok) as Hw. pose proof (ok_height _ Hok) as Hh. pose proof (ok_line _ Hok) as Hln.
  pose proof (ok_small _ Hok) as Hsm. cbn [config_ fb_mem] in *.
  pose proof (co_rows _ _ Hcon) as Hr. pose proof (co_columns _ _ Hcon) as Hc.
  pose proof (co_width _ _ Hcon) as Hcw. pose proof (co_height _ _ Hcon) as Hch. unfold dev in Hcw, Hch. rewrite Hwr in Hcw, Hch.
  simpl in Hcw, Hch. rewrite Hcfg, swrap_small in Hcw, Hch by lia. unfold kMaxRows, kMaxColumns in *.
  unfold InitializeLayer, FrameBufferSize. cbn [vx vy]. rewrite !swrap_small by lia.
  destruct (new_Window_made (horizontal_resolution cfg) (vertical_resolution cfg) (pixel_format cfg)) as (w1 & -> & Hw1); [lia|lia|lia|nia|].
  cbn [mbind outcome_bind].
  destruct (on_window _ _ _ w1 DrawDesktop Hw1) as (w2 & -> & Hw2).
  { intros PL Hpw. destruct Hw1 as (_ & W1 & H1 & _). apply DrawDesktop_kept; cbn [Width Height WindowWriter]; done || lia. }
  cbn [mbind outcome_bind].
  destruct (new_Window_made (columns_ (console l) * 8) (rows_ (console l) * 16) (pixel_format cfg)) as (w3 & -> & Hw3); [lia|lia|lia|nia|].
  cbn [mbind outcome_bind]. cbv zeta. rewrite Hews. set (e1 := mkEnv _ _ _). unfold console_SetWindow.
  rewrite bool_decide_eq_false_2 by (rewrite Hwin; done). set (c1 := set_writer _ _ _).
  assert (Hcon1 : console_ok c1 e1).
  { destruct Hw3 as (Hs3 & W3 & H3 & _). destruct Hcon. split; try done; unfold dev; cbn.
    - exists w3. split; [apply lookup_insert_eq|done].
    - rewrite lookup_insert_eq. cbn. lia.
    - rewrite lookup_insert_eq. cbn. lia.
    - by intros p [= ->]. }
  destruct (Refresh_safe c1 e1 Hcon1) as (e2 & -> & Hd). cbn [mbind outcome_bind mret outcome_ret].
  pose proof (console_ok_drawn _ _ _ Hcon1 Hd) as Hcon2.
  destruct Hd as [Hm2 (Hs2 & w & w' & Hww & Hws2 & Hdw)]. cbn [e1 env_windows env_manager env_screen] in *.
  rewrite lookup_insert_eq in Hww. injection Hww as <-. rewrite insert_insert_eq in Hws2.
  pose proof (window_made_drawn _ _ _ _ _ Hw3 Hdw) as Hw3'.
  assert (Hbg : env_windows e2 !! a_bg = Some w2) by (rewrite Hws2, lookup_insert_ne, lookup_insert_eq; done).
  assert (Hcn : env_windows e2 !! a_con = Some w') by (by rewrite Hws2, lookup_insert_eq).
  assert (Hinit : value (FrameBuffer.Initialize cfg) = mkFB cfg b) by (unfold FrameBuffer.Initialize; by rewrite Hb). rewrite Hinit.
  destruct (SetWriter_empty cfg b Hscr (env_windows e2)) as (S1 & S2 & S3 & S4). set (lm0 := Layer.SetWriter _ _) in *.
  rewrite <- S2 in Hw2, Hw3'.
  destruct (plain_layer (env_windows e2) lm0 l_bg a_bg w2 (horizontal_resolution cfg) (vertical_resolution cfg))
    as (L1 & L2 & L3 & L4 & L5); [done|by rewrite S3; apply not_elem_of_nil|lia|done|done|].
  set (lm1 := new_layer_with lm0 l_bg _) in *. rewrite S3 in L5. rewrite S4 in L3, L4. cbn [app] in L5.
  destruct (plain_layer (env_windows e2) lm1 l_con a_con w' (columns_ (console l) * 8) (rows_ (console l) * 16))
    as (M1 & M2 & M3 & M4 & M5); [done|by rewrite L5; apply not_elem_of_cons; split; [|apply not_elem_of_nil]|lia|done|by rewrite (gr_format _ _ L2)|].
  set (lm2 := new_layer_with lm1 l_con _) in *. rewrite L5 in M5. rewrite L4 in M3, M4. cbn [app] in M5.
  destruct (UpDown_safe (env_windows e2) lm2 1 l_bg 0) as (N1 & N2 & N3 & N4 & N5); [done|by apply M2|lia|].
  destruct (UpDown_safe (env_windows e2) (UpDown lm2 1 0) 2 l_con 1) as (O1 & O2 & O3 & O4 & O5); [done|by apply N2|lia|].
  exists (SetLayerID c1 2), (env_screen e2), (mkDesktop (UpDown (UpDown lm2 1 0) 2 1) (env_windows e2) (mkActive 0 0) ∅ tm).
  split; [|split; [split|]]; cbn [layer_manager windows active_layer layer_task_map task_manager].
  - transitivity (Done (SetLayerID c1 (Layer.latest_id_ lm2), env_screen e2,
      mkDesktop (UpDown (UpDown lm2 (Layer.latest_id_ lm1) 0) (Layer.latest_id_ lm2) 1) (env_windows e2) (mkActive 0 0) ∅ tm));
      [reflexivity|]. by rewrite M4, L4.
  - done.
  - rewrite (gr_format _ _ O2), (gr_format _ _ N2), (gr_format _ _ M2), (gr_format _ _ L2). exact S2.
  - by rewrite O5, N5, M5.
  - by rewrite O4, N4, M4.
  - intros s. apply (console_ok_window _ e2 _ a_con); [|done|done]. by destruct Hcon2.
  - done.
  - done.
  - done.
  - done.
  - done.
  - intros p Hp1 Hp2. by rewrite Hws2, !lookup_insert_ne, lookup_empty.
Qed.
End desktop.
End DesktopStart.
Import DesktopStart.

(** ** Memory for the heap and the stacks *)
Module MemoryStart.

(** What is left of a free run after a block was taken somewhere. *)
Lemma run_left mm mm' f n r k m : mm_wf mm → 0 ≤ f → f + n ≤ range_end_ mm → free_run mm f n → marks true r k mm mm' → 0 < k →
  0 ≤ m → k + 2 * m ≤ n → ∃ f', f ≤ f' ∧ f' + m ≤ f + n ∧ free_run mm' f' m.
Proof.
  intros Hwf Hf Hend Hfree [Hm _ _] Hk Hm0 Hn. pose proof (wf_range _ Hwf).
  assert (Hkeep : ∀ f', f ≤ f' → f' + m ≤ f + n → f' + m ≤ r ∨ r + k ≤ f' → free_run mm' f' m).
  { intros f' H1 H2 Hout g Hg. rewrite Hm by (unfold frame_ok; lia). unfold in_run.
    destruct (Z.leb_spec r g), (Z.ltb_spec g (r + k)); cbn [andb]; try (apply Hfree; lia). lia. }
  destruct (decide (f + m ≤ r)); [exists f|exists (Z.max f (r + k))]; (split; [lia|]; split; [lia|]; apply Hkeep; lia).
Qed.

(** A free run is enough for [Allocate] to succeed. *)
Lemma Allocate_succeeds mm n f : mm_wf mm → 0 < n → range_begin_ mm ≤ f → f + n ≤ range_end_ mm → free_run mm f n →
  ∃ r mm', Allocate mm n = Done (r, mm') ∧ error r = kSuccess ∧ mm_wf mm' ∧ marks true (value r) n mm mm'.
Proof.
  intros Hwf Hn Hlo Hhi Hfree. destruct (Allocate_spec mm n Hwf Hn) as (r & mm' & E & Hwf' & Hp); [lia|].
  exists r, mm'. split; [done|]. unfold allocate_post in Hp. destruct (error r); try done.
  - destruct Hp as (_ & _ & _ & _ & ?). done.
  - destruct Hp as (_ & _ & Hb). destruct (Hb f) as (g & Hg & Ha); [lia|]. by rewrite Hfree in Ha.
Qed.

(** A run of usable frames for the heap and 48 more. *)
Definition memory_enough (m : list MemoryDescriptor) : Prop :=
  map_ok kMaxPhysicalMemoryBytes m ∧ ∃ mm f, setup_bitmap m = Done mm ∧ 1 ≤ f ∧ f + (kHeapFrames + 48) ≤ range_end_ mm ∧
    ∀ g, f ≤ g < f + (kHeapFrames + 48) → usable m g.

Lemma memory_enough_ok m tss s : memory_enough m →
  ∃ heap mm seg mm', InitializeMemoryManager m = Done (heap, mm) ∧ error heap = kSuccess ∧
    InitializeTSS tss s mm = Done (Some seg, mm').
Proof.
  intros [Hok (mm0 & f & E0 & Hf & Hend & Hu)]. destruct (setup_bitmap_spec m Hok) as (mm1 & E1 & Hwf & Hb & Hfree).
  assert (mm1 = mm0) as -> by congruence. pose proof kHeapFrames_val.
  assert (Hrun : free_run mm0 f (kHeapFrames + 48)) by (intros g Hg; apply Hfree; [lia|by apply Hu]).
  destruct (Allocate_succeeds mm0 kHeapFrames f Hwf) as (r & mm2 & E2 & Er & Hwf2 & Hm2); [lia..|intros g Hg; apply Hrun; lia|].
  destruct (run_left mm0 mm2 f (kHeapFrames + 48) (value r) kHeapFrames 24 Hwf) as (f2 & Hf2 & Hf2e & Hrun2); [lia..|done|done|lia|lia|lia|].
  pose proof (marks_begin _ _ _ _ _ Hm2) as Hb2. pose proof (marks_end _ _ _ _ _ Hm2) as He2.
  destruct (Allocate_succeeds mm2 8 f2 Hwf2) as (r3 & mm3 & E3 & Er3 & Hwf3 & Hm3); [lia..|intros g Hg; apply Hrun2; lia|].
  destruct (run_left mm2 mm3 f2 24 (value r3) 8 8 Hwf2) as (f3 & Hf3 & Hf3e & Hrun3); [lia..|done|done|lia|lia|lia|].
  pose proof (marks_begin _ _ _ _ _ Hm3) as Hb3. pose proof (marks_end _ _ _ _ _ Hm3) as He3.
  destruct (Allocate_succeeds mm3 8 f3 Hwf3) as (r4 & mm4 & E4 & Er4 & _); [lia..|done|].
  rewrite (InitializeMemoryManager_eq m mm0 E0), (InitializeHeap_eq _ _ _ E2). rewrite Er. change (error_bool kSuccess) with false. cbv iota.
  eexists _, mm2. unfold InitializeTSS, AllocateStackArea. rewrite E3. cbn [mbind outcome_bind]. rewrite Er3.
  change (error_bool kSuccess) with false. cbn [mbind outcome_bind mret outcome_ret]. rewrite E4. cbn [mbind outcome_bind]. rewrite Er4.
  change (error_bool kSuccess) with false. cbn [mbind outcome_bind mret outcome_ret]. by eexists _, _.
Qed.
End MemoryStart.
Import MemoryStart.

(** ** The kernel with its windows *)
Module KernelStart.

(** Addresses of different objects are different. *)
Record layout_ok (ly : Layout) : Prop := {
  ly_windows : NoDup [ly_bgwindow ly; ly_console_window ly; ly_main_window ly; ly_text_window ly];
  ly_layers : NoDup [ly_bglayer ly; ly_console_layer ly; ly_main_layer ly; ly_text_layer ly];
}.

Section kernel.
Context {H : Type} `{SYS : System H} `{FL : FontLib} (I : nat → option FatFD → Volume → Prop) `{LF : LogFile I}.
Implicit Types k : Kernel H.

(** The layers, the console on its window [p] and the log are sound. *)
Record running (n : nat) (p : Z) k : Prop := {
  rn_layers : lm_safe (windows (desktop k)) (layer_manager (desktop k));
  rn_console : console_ok (console (logger k)) (mkEnv (screen k) (windows (desktop k)) (Some (layer_manager (desktop k))));
  rn_writer : writer_ (console (logger k)) = WindowWriterOf p;
  rn_layer : on_stack (layer_manager (desktop k)) (Console.layer_id_ (console (logger k)));
  rn_log : I n (log_fd (logger k)) (volume k);
}.

(** What a step of the start-up leaves alone. *)
Record kernel_kept k k' : Prop := {
  kk_window q W Hh : window_at (windows (desktop k)) q W Hh → window_at (windows (desktop k')) q W Hh;
  kk_stack id : on_stack (layer_manager (desktop k)) id → on_stack (layer_manager (desktop k')) id;
  kk_tasks : task_manager (desktop k') = task_manager (desktop k);
  kk_timers : Kernel.timer_manager k' = Kernel.timer_manager k;
  kk_pages : pages k' = pages k;
  kk_hw : Kernel.hw k' = Kernel.hw k;
}.

Lemma kernel_kept_refl k : kernel_kept k k.
Proof. by split. Qed.
Lemma kernel_kept_trans k1 k2 k3 : kernel_kept k1 k2 → kernel_kept k2 k3 → kernel_kept k1 k3.
Proof. intros [] []. split; try congruence; by eauto. Qed.

(** A window and a layer more, or a picture drawn, do not disturb the console. *)
Lemma console_ok_windows c s ws ws' lm lm' p : console_ok c (mkEnv s ws (Some lm)) → writer_ c = WindowWriterOf p →
  ws' !! p = ws !! p → console_ok c (mkEnv s ws' (Some lm')).
Proof. intros Hc Hw Hp. by eapply console_ok_window. Qed.

Lemma kernel_Log_ok n p k level text : running (S n) p k → log_line text →
  ∃ k', kernel_Log k level text = Done k' ∧ running n p k' ∧ kernel_kept k k'.
Proof using LF.
  intros [Hlm Hc Hw Hst Hi] Ht. unfold kernel_Log, Log. destruct (log_level (logger k) <? level) eqn:Elv.
  { cbn [mbind outcome_bind mret outcome_ret of_option env_manager]. eexists. split; [reflexivity|]. split; [|by split].
    split; try done. cbn. by apply log_fewer. }
  pose proof Ht as [[_ Hlen] _]. destruct (Z.leb_spec 1024 (Z.of_nat (length text))); [lia|].
  destruct (PutString_layers (console (logger k)) (mkEnv (screen k) (windows (desktop k)) (Some (layer_manager (desktop k))))
    (layer_manager (desktop k)) text) as (c & e & lm & -> & Hc' & Hsc & Hm & Hlm' & Hso & q & w & w' & Hq & Hww & Hws & Hd & Hs);
    [apply (proj1 Ht)|done|done|by rewrite Hw|done|done|].
  cbn [env_windows env_screen] in *. cbn [mbind outcome_bind].
  assert (Hrest : ∀ fd v, I n fd v → let k' := set_volume (set_logger (set_desktop k (set_windows (set_lm (desktop k) lm) (env_windows e)))
      (mkLogger (log_level (logger k)) fd c) (env_screen e)) v in running n p k' ∧ kernel_kept k k').
  { intros fd v Hfd k'. split; split; try done.
    - cbn. rewrite <- Hm. by destruct e.
    - cbn. by rewrite (sc_writer _ _ Hsc).
    - cbn. rewrite (sc_layer _ _ Hsc). by eapply same_order_on_stack.
    - intros r W Hh Hr. cbn. rewrite Hws. by eapply window_at_drawn.
    - intros id. by apply same_order_on_stack. }
  destruct (log_fd (logger k)) as [fd|] eqn:Efd.
  - destruct (log_writes _ fd (volume k) text Hi Ht) as (m & v' & fd' & -> & Hi'). cbn [mbind outcome_bind mret outcome_ret].
    rewrite Hm. cbn [of_option mbind outcome_bind mret outcome_ret]. eexists. split; [reflexivity|]. by apply Hrest.
  - cbn [mbind outcome_bind mret outcome_ret]. rewrite Hm. cbn [of_option mbind outcome_bind mret outcome_ret].
    eexists. split; [reflexivity|]. by apply Hrest, log_fewer.
Qed.

Lemma kernel_Logs_ok n p ms : Forall (λ m : Z * list Z, log_line m.2) ms → ∀ k, running (length ms + n) p k →
  ∃ k', foldM (λ m k, kernel_Log k m.1 m.2) ms k = Done k' ∧ running n p k' ∧ kernel_kept k k'.
Proof using LF.
  induction 1 as [|m ms Hm Hms IH]; intros k Hk; [exists k; split; [done|]; split; [done|apply kernel_kept_refl]|].
  cbn [foldM]. destruct (kernel_Log_ok _ p k m.1 m.2 Hk Hm) as (k1 & -> & Hk1 & Hkk1). cbn [mbind outcome_bind].
  destruct (IH k1 Hk1) as (k2 & E & Hk2 & Hkk2). exists k2. split; [done|]. split; [done|by eapply kernel_kept_trans].
Qed.

(** The main window and the text window. *)
Lemma InitializeMainWindow_ok d a_win a_layer : lm_safe (windows d) (layer_manager d) → windows d !! a_win = None →
  a_layer ∉ addresses (layer_manager d) → 0 ≤ Layer.latest_id_ (layer_manager d) < 2 ^ 32 - 1 →
  screen_format = lm_format (layer_manager d) →
  ∃ w lm id, InitializeMainWindow d a_win a_layer = Done (id, mkDesktop lm (<[a_win := w]> (windows d)) (active_layer d) (layer_task_map d) (task_manager d)) ∧
    window_made 260 100 screen_format w ∧ lm_safe (<[a_win := w]> (windows d)) lm ∧ lm_grown (layer_manager d) lm ∧ on_stack lm id ∧
    Layer.latest_id_ lm = Layer.latest_id_ (layer_manager d) + 1 ∧ addresses lm = addresses (layer_manager d) ++ [a_layer].
Proof.
  intros Hlm Hnew Ha Hid Hf. unfold InitializeMainWindow.
  destruct (new_ToplevelWindow_made 260 100 screen_format (chars "Hello Window")) as (w1 & E & Hw1);
    [lia|lia|lia|lia|by apply (bool_decide_unpack _)|vm_compute; discriminate|].
  rewrite E. clear E. cbn [mbind outcome_bind].
  assert (Hfont : ∀ w pos text, window_made 260 100 screen_format w → Forall ascii text → 0 ≤ vx pos → 0 ≤ vy pos →
    vx pos + 8 * Z.of_nat (length text) ≤ 260 → vy pos + 16 ≤ 100 →
    ∃ w', font_string w pos (text ++ [0]) black = Done w' ∧ window_made 260 100 screen_format w').
  { intros w pos text Hw Ht Hx Hy Hxx Hyy. apply (on_window 260 100 screen_format w (λ w, font_string w pos (text ++ [0]) black) Hw).
    intros PL Hpw. destruct Hw as (_ & W & Hh & _). apply font_line_kept; cbn [Width Height WindowWriter]; rewrite ?W, ?Hh; done. }
  destruct (Hfont w1 (mkVec 24 28) (chars "Welcome to") Hw1) as (w2 & -> & Hw2);
    [by apply (bool_decide_unpack _)|cbn [vx]; lia|cbn [vy]; lia|vm_compute; discriminate|cbn [vy]; lia|]. cbn [mbind outcome_bind].
  destruct (Hfont w2 (mkVec 24 44) (chars " MinOS World!!") Hw2) as (w3 & -> & Hw3);
    [by apply (bool_decide_unpack _)|cbn [vx]; lia|cbn [vy]; lia|vm_compute; discriminate|cbn [vy]; lia|]. cbn [mbind outcome_bind mret outcome_ret].
  set (d1 := set_windows d _).
  destruct (new_top_layer_safe d1 a_win a_layer (mkVec 300 100) w3 260 100) as (lm & -> & H1 & H2 & H3 & H4 & H5); try done.
  { by apply lm_safe_new_window. }
  { apply lookup_insert_eq. }
  { change (lm_format (layer_manager d1)) with (lm_format (layer_manager d)). by rewrite <- Hf. }
  exists w3, lm. eexists. split; [reflexivity|]. by split_and!.
Qed.

Lemma InitializeTextWindow_ok d a_win a_layer : lm_safe (windows d) (layer_manager d) → windows d !! a_win = None →
  a_layer ∉ addresses (layer_manager d) → 0 ≤ Layer.latest_id_ (layer_manager d) < 2 ^ 32 - 1 →
  screen_format = lm_format (layer_manager d) →
  ∃ w lm id, InitializeTextWindow d a_win a_layer = Done (id, mkDesktop lm (<[a_win := w]> (windows d)) (active_layer d) (layer_task_map d) (task_manager d)) ∧
    window_made 160 52 screen_format w ∧ lm_safe (<[a_win := w]> (windows d)) lm ∧ lm_grown (layer_manager d) lm ∧ on_stack lm id.
Proof.
  intros Hlm Hnew Ha Hid Hf. unfold InitializeTextWindow.
  destruct (new_ToplevelWindow_made 160 52 screen_format (chars "Text Box Test")) as (w1 & E & Hw1);
    [lia|lia|lia|lia|by apply (bool_decide_unpack _)|vm_compute; discriminate|].
  rewrite E. clear E. cbn [mbind outcome_bind].
  destruct (DrawTextBox_made 160 52 screen_format w1 Hw1) as (w2 & -> & Hw2); [lia|lia|]. cbn [mbind outcome_bind mret outcome_ret].
  set (d1 := set_windows d _).
  destruct (new_top_layer_safe d1 a_win a_layer (mkVec 500 100) w2 160 52) as (lm & -> & H1 & H2 & H3 & H4 & H5); try done.
  { by apply lm_safe_new_window. }
  { apply lookup_insert_eq. }
  { change (lm_format (layer_manager d1)) with (lm_format (layer_manager d)). by rewrite <- Hf. }
  exists w2, lm. eexists. split; [reflexivity|]. by split_and!.
Qed.

Context `{PORTS : IoPorts H} `{M32 : Machine32 H} `{SL : StartupLib H}.

(** The windows are up, and nothing else of the machine has changed. *)
Lemma start_desktop_ok n cfg b ly ho ea l e v (pci : PciState H) : ho_config ho = cfg → display_ok cfg b → layout_ok ly →
  early_ok cfg l e → screen_format = pixel_format cfg → I n (log_fd l) v →
  ∃ m, start_desktop ly ho ea l e v pci = Done m ∧ running n (ly_console_window ly) (kernel m) ∧ screen_ok m ∧
    Kernel.hw (kernel m) = Pci.hw pci ∧ pci_devices (kernel m) = devices pci ∧ pages (kernel m) = ea_pages ea.
Proof using FL LF.
  intros Hho Hdis [Hws Hls] He Hfmt Hi. unfold start_desktop. rewrite Hho.
  rewrite !NoDup_cons, !not_elem_of_cons in Hws, Hls.
  destruct Hws as ((W1 & W2 & W3 & _) & (W4 & W5 & _) & (W6 & _) & _). destruct Hls as ((L1 & L2 & L3 & _) & (L4 & L5 & _) & (L6 & _) & _).
  destruct (InitializeLayer_ok cfg b l e null_task_manager (ly_bgwindow ly) (ly_console_window ly) (ly_bglayer ly) (ly_console_layer ly))
    as (c & s & d & -> & [D1 D2 D3 D4 D5 D6 D7 D8 D9 D10] & Dw); [done..|]. cbn [mbind outcome_bind].
  destruct (InitializeMainWindow_ok d (ly_main_window ly) (ly_main_layer ly)) as (wm & lm1 & id1 & -> & Hwm & M1 & M2 & M3 & M4 & M5).
  { done. } { by apply Dw. } { rewrite D3. set_solver. } { lia. } { congruence. }
  cbn [mbind outcome_bind]. set (d1 := mkDesktop lm1 _ _ _ _).
  destruct (InitializeTextWindow_ok d1 (ly_text_window ly) (ly_text_layer ly)) as (wt & lm2 & id2 & -> & Hwt & T1 & T2 & T3);
    cbn [d1 windows layer_manager active_layer layer_task_map task_manager] in *.
  { done. } { rewrite lookup_insert_ne by done. by apply Dw. } { rewrite M5, D3. set_solver. } { lia. }
  { rewrite (gr_format _ _ M2). congruence. }
  cbn [mbind outcome_bind]. set (ws2 := <[ly_text_window ly := wt]> _) in *. unfold draw_screen. cbn [desktop windows layer_manager].
  destruct (Draw_all_safe ws2 lm2 (mkRect (mkVec 0 0) (FrameBufferSize cfg)) T1) as (lm3 & -> & A1 & A2 & _).
  cbn [mbind outcome_bind mret outcome_ret]. eexists. split; [reflexivity|].
  assert (Hstk : ∀ id, on_stack (layer_manager d) id → on_stack lm3 id).
  { intros id Hid. eapply same_order_on_stack; [exact A2|]. by apply T2, M2. }
  assert (Hws : ws2 !! ly_console_window ly = windows d !! ly_console_window ly).
  { unfold ws2. by rewrite !lookup_insert_ne by done. }
  split; [|split; [|done]].
  - split; try done; cbn.
    + eapply console_ok_windows; [apply (D5 s)|done|done].
    + by apply Hstk.
  - split; cbn; try done.
    + unfold dsk. cbn. apply (window_made_at _ _ 260 100 screen_format wm); [|done]. unfold ws2.
      by rewrite lookup_insert_ne, lookup_insert_eq by done.
    + unfold dsk. cbn. apply (window_made_at _ _ 160 52 screen_format wt); [|done]. by unfold ws2; rewrite lookup_insert_eq.
    + eapply same_order_on_stack; [exact A2|]. by apply T2.
    + eapply same_order_on_stack; [exact A2|]. done.
Qed.

(** The main task is task 1, and nobody has written to it. *)
Lemma new_TaskManager_main cr3 stack f : ∃ tm x, new_TaskManager cr3 stack f = Done tm ∧ tm_wf 2 tm ∧
  tasks_ tm !! 1 = Some x ∧ msgs_ x = [].
Proof.
  destruct (new_TaskManager_ok cr3 stack f) as (tm & E & [Hwf _]). exists tm.
  assert (Htask : ∃ x, tasks_ tm !! 1 = Some x ∧ msgs_ x = []).
  { assert (E2 : new_TaskManager cr3 stack f = Done (mkTM
      (<[2 := SetRunning (SetLevel (InitContext (new_Task 2) cr3 stack f 0) 0) true]>
        (<[1 := SetRunning (SetLevel (new_Task 1) 3) true]> ∅)) 2 [[2]; []; []; [1]] 3 false ∅ ∅)) by reflexivity.
    rewrite E in E2. injection E2 as ->. by eexists. }
  destruct Htask as (x & Hx & Hm). by exists x.
Qed.

Lemma start_tasks_ok fuel turns mem desc ly k fadt freq h1 cs h2 p :
  running (length (usb_messages h1) + 1) p k →
  InitializeLAPICTimer fuel mem fadt (Kernel.hw k) = Done (freq, h1) →
  usb_Initialize turns fuel desc (pci_devices k) h1 = Done (cs, h2) →
  Forall (λ m : Z * list Z, log_line m.2) (usb_messages h1) →
  ∃ k', start_tasks fuel turns mem desc ly k fadt = Done (k', freq, cs) ∧ running 0 p k' ∧
    (∀ q W Hh, window_at (windows (desktop k)) q W Hh → window_at (windows (desktop k')) q W Hh) ∧
    (∀ id, on_stack (layer_manager (desktop k)) id → on_stack (layer_manager (desktop k')) id) ∧
    tm_wf 2 (task_manager (desktop k')) ∧ (∃ x, tasks_ (task_manager (desktop k')) !! 1 = Some x ∧ msgs_ x = []) ∧
    tick_ (Kernel.timer_manager k') = 0.
Proof using All.
  intros Hk Htimer Husb Hmsgs. unfold start_tasks. rewrite Htimer. cbn [mbind outcome_bind].
  destruct (new_TaskManager_main (cr3 (pages k)) (ly_idle_stack ly) (ly_TaskIdle ly)) as (tm & x & Etm & Hwf & Hx & Hmx).
  cbv zeta. change (cr3 (pages (set_timers (set_hw k h1) (main_timers new_TimerManager)))) with (cr3 (pages k)).
  rewrite Etm. cbn [mbind outcome_bind]. set (k1 := set_timers (set_ktm _ _) _).
  change (pci_devices k1) with (pci_devices k). change (Kernel.hw k1) with h1. rewrite Husb. cbn [mbind outcome_bind].
  assert (Hk1 : running (length (usb_messages h1) + 1) p k1) by (destruct Hk; by split).
  match goal with |- context [foldM _ ?ms _] => destruct (kernel_Logs_ok 0 p ms) with (k := k1) as (k2 & -> & Hk2 & Hkk) end.
  { apply Forall_app. split; [done|]. apply Forall_singleton. cbn [snd]. split; [line_text|].
    rewrite !app_assoc. by intros [_ ?]%app_eq_nil. }
  { by rewrite length_app, Nat.add_0_r. }
  cbn [mbind outcome_bind mret outcome_ret]. eexists. split; [reflexivity|].
  pose proof (kk_tasks _ _ Hkk) as Et. pose proof (kk_timers _ _ Hkk) as Em. destruct Hkk as [Hkw Hks _ _ _ _].
  split; [destruct Hk2; by split|]. split; [done|]. split; [done|]. cbn.
  rewrite Et, Em. split; [exact Hwf|]. split; [by exists x|done].
Qed.

(** *** Up to the interrupts *)

Lemma start_early_ok cfg b ly ho pages0 heap mm mm' : ho_config ho = cfg → display_ok cfg b → 256 ≤ ho_image_len ho →
  InitializeMemoryManager (ho_memory_map ho) = Done (heap, mm) → error heap = kSuccess →
  (∀ s, ∃ seg, InitializeTSS (ly_tss ly) s mm = Done (Some seg, mm')) →
  ∃ ea, start_early ly ho pages0 = Done (Some ea) ∧ early_ok cfg (ea_logger ea) (ea_env ea) ∧
    log_level (ea_logger ea) = kDebug ∧ log_fd (ea_logger ea) = None ∧ frames (ea_pages ea) = mm' ∧ ea_heap ea = value heap.
Proof using FL.
  intros <- Hdis Hlen Emm Eheap Htss. unfold start_early.
  destruct (start_console_ok ho b Hdis) as (l0 & e0 & -> & Hok0 & Hl0 & Hf0). cbn [mbind outcome_bind].
  destruct (printing_text (ho_config ho) kWarn (chars "Welcome to MikanOS!" ++ newline)) with (l := l0) (e := e0)
    as (l1 & e1 & E1 & Hok1 & Hl1 & Hf1); [line_text|done..|]. rewrite E1. clear E1. cbn [mbind outcome_bind].
  destruct (printing_text (ho_config ho) kWarn (chars "Welcome to Min-OS!" ++ newline)) with (l := l1) (e := e1)
    as (l2 & e2 & E2 & Hok2 & Hl2 & Hf2); [line_text|done..|]. rewrite E2. clear E2. cbn [mbind outcome_bind].
  assert (Hok3 : early_ok (ho_config ho) (SetLogLevel l2 kDebug) e2) by (destruct Hok2; by split).
  destruct (printing_text (ho_config ho) kDebug (chars "Volume Image: 0x" ++ fmt_x (ly_volume ly) ++ newline))
    with (l := SetLogLevel l2 kDebug) (e := e2) as (l4 & e4 & E4 & Hok4 & Hl4 & Hf4); [line_text|done..|]. rewrite E4. clear E4. cbn [mbind outcome_bind].
  destruct (printing_volume (ho_config ho) kDebug (mkVolume (ho_image ho) (ho_image_len ho) 0)) with (l := l4) (e := e4)
    as (l5 & e5 & E5 & Hok5 & Hl5 & Hf5); [done..|]. rewrite E5. clear E5. cbn [mbind outcome_bind].
  destruct (printing_text (ho_config ho) kDebug (chars "memory_map: 0x" ++ fmt_x (ly_memory_map ly) ++ newline)) with (l := l5) (e := e5)
    as (l6 & e6 & E6 & Hok6 & Hl6 & Hf6); [line_text|done..|]. rewrite E6. clear E6. cbn [mbind outcome_bind].
  rewrite Emm. cbn [mbind outcome_bind]. rewrite Eheap. change (error_bool kSuccess) with false. cbv iota.
  match goal with |- context [InitializeTSS _ ?s _] => destruct (Htss s) as (seg & ->) end. cbn [mbind outcome_bind mret outcome_ret].
  eexists. split; [reflexivity|]. by split_and!.
Qed.

(** The log file and its volume do not depend on what the logger has printed. *)
Lemma InitializeLogFile_any l l' v : log_fd l = log_fd l' →
  InitializeLogFile l v = ('(m, v') ← InitializeLogFile l' v; mret (mkLogger (log_level l) (log_fd m) (console l), v')).
Proof.
  intros Hfd. unfold InitializeLogFile. destruct (FindFile _ _ _) as [[[entry|] ?]| |]; try done. cbn [mbind outcome_bind].
  destruct (CreateFile _ _) as [[r v1]| |]; try done. cbn [mbind outcome_bind]. destruct (error_bool _).
  - cbn [mbind outcome_bind mret outcome_ret]. rewrite <- Hfd. by destruct l.
  - by destruct (value r).
Qed.

Lemma start_devices_ok n cfg ho ea h N c0 lg v1 buf pci infos : early_ok cfg (ea_logger ea) (ea_env ea) →
  log_fd (ea_logger ea) = None → vol_ok N (Fat.Initialize (ho_image ho) (ho_image_len ho)) → 4 ≤ N →
  InitializeLogFile (new_Logger c0) (Fat.Initialize (ho_image ho) (ho_image_len ho)) = Done (lg, v1) →
  InitializeFont (fl_Init_FreeType (H := H)) v1 = Done (Some buf) →
  InitializePCI (mkPci h []) = Done (Some (pci, infos)) →
  I (length (pci_texts (devices pci) infos) + n)%nat (log_fd lg) v1 →
  ∃ l e v, start_devices ho ea h = Done (Some (l, e, v, buf, pci)) ∧ early_ok cfg l e ∧ I n (log_fd l) v.
Proof using All.
  intros Hok Hfd Hv HN Elog Efont Epci Hi. unfold start_devices.
  destruct (early_printk_ok cfg (ea_logger ea) (ea_env ea) _ Hok (volume_text_line (Fat.Initialize (ho_image ho) (ho_image_len ho))))
    as (l1 & e1 & -> & Hok1 & _ & Hf1). cbn [mbind outcome_bind].
  destruct (fat_text_line _ _ Hv HN) as (text & -> & Htext). cbn [mbind outcome_bind].
  destruct (early_printk_ok cfg l1 e1 text Hok1 Htext) as (l2 & e2 & -> & Hok2 & _ & Hf2). cbn [mbind outcome_bind].
  rewrite (InitializeLogFile_any l2 (new_Logger c0)) by (rewrite Hf2, Hf1, Hfd; done). rewrite Elog. cbn [mbind outcome_bind mret outcome_ret].
  unfold or_exit. rewrite Efont. cbn [mbind outcome_bind]. rewrite Epci. cbn [mbind outcome_bind].
  destruct (early_Logs_ok I cfg kDebug (pci_texts (devices pci) infos) (pci_texts_lines _ _) n (mkLogger (log_level l2) (log_fd lg) (console l2)) e2 v1)
    as (l3 & e3 & v3 & -> & Hok3 & Hi3 & _); [destruct Hok2; by split|done|]. cbn [mbind outcome_bind mret outcome_ret].
  exists l3, e3, v3. by split_and!.
Qed.

(** The stacks of [InitializeTSS] do not depend on the tables. *)
Lemma InitializeTSS_any tss s s' seg mm mm' : InitializeTSS tss s mm = Done (Some seg, mm') →
  ∃ seg', InitializeTSS tss s' mm = Done (Some seg', mm').
Proof.
  unfold InitializeTSS. destruct (AllocateStackArea mm 8) as [[[stk|] mm1]| |]; try done. cbn [mbind outcome_bind].
  destruct (AllocateStackArea mm1 8) as [[[stk2|] mm2]| |]; try done. cbn [mbind outcome_bind mret outcome_ret].
  intros [= <- <-]. by eexists.
Qed.

(** What the machine, the firmware and the volume provide: a screen of the expected
    format, memory for the heap and the stacks, a sound volume with the font and a
    log that takes the lines of the start-up, and devices that answer. *)
Record machine_ready (fuel turns : nat) (acpi_mem : Z → Z) (desc : Z) (ly : Layout) (ho : Handover) (h : H) : Prop := {
  mr_display : ∃ b, display_ok (ho_config ho) b;
  mr_format : screen_format = pixel_format (ho_config ho);
  mr_layout : layout_ok ly;
  mr_memory : memory_enough (ho_memory_map ho);
  mr_volume : 256 ≤ ho_image_len ho ∧ ∃ N, 4 ≤ N ∧ vol_ok N (Fat.Initialize (ho_image ho) (ho_image_len ho));
  mr_devices : ∃ c0 lg v1 buf pci infos fadt freq h1 cs h2,
    InitializeLogFile (new_Logger c0) (Fat.Initialize (ho_image ho) (ho_image_len ho)) = Done (lg, v1) ∧
    InitializeFont (fl_Init_FreeType (H := H)) v1 = Done (Some buf) ∧
    InitializePCI (mkPci h []) = Done (Some (pci, infos)) ∧
    acpi_Initialize acpi_mem fuel (ho_acpi_table ho) = Done (Some fadt) ∧
    InitializeLAPICTimer fuel acpi_mem fadt (Pci.hw pci) = Done (freq, h1) ∧
    usb_Initialize turns fuel desc (devices pci) h1 = Done (cs, h2) ∧
    Forall (λ m : Z * list Z, log_line m.2) (usb_messages h1) ∧
    I (length (pci_texts (devices pci) infos) + (length (usb_messages h1) + 1))%nat (log_fd lg) v1;
}.

Lemma KernelMain_ok fuel turns mem desc ly ho pages h : machine_ready fuel turns mem desc ly ho h →
  ∃ s, KernelMainNewStack fuel turns mem desc ly ho pages h = Done (Some s) ∧ main_ok 2 1 (st_main s).
Proof using All.
  intros [[b Hdis] Hfmt Hly Hmem (Hlen & N & HN & Hv)
    (c0 & lg & v1 & buf & pci & infos & fadt & freq & h1 & cs & h2 & Elog & Efont & Epci & Eacpi & Etimer & Eusb & Hmsgs & Hi)].
  destruct (memory_enough_ok _ (ly_tss ly) (mkSegments ∅ ∅ None None None None) Hmem) as (heap & mm & seg0 & mm' & Emm & Eheap & Etss).
  unfold KernelMainNewStack, or_exit.
  destruct (start_early_ok (ho_config ho) b ly ho pages heap mm mm' eq_refl Hdis Hlen Emm Eheap) as (ea & -> & Hea & _ & Hfd & _).
  { intros s. by eapply InitializeTSS_any. }
  cbn [mbind outcome_bind]. destruct (InitializeInterrupt _ _ _) as [idt idtr].
  destruct (start_devices_ok _ _ ho ea h N c0 lg v1 buf pci infos Hea Hfd Hv HN Elog Efont Epci Hi) as (l & e & v & -> & Hok & Hi2).
  cbn [mbind outcome_bind].
  destruct (start_desktop_ok _ _ b ly ho ea l e v pci eq_refl Hdis Hly Hok Hfmt Hi2) as (m & -> & Hrun & Hscr & Hhw & Hdev & _).
  cbn [mbind outcome_bind]. rewrite Eacpi. cbn [mbind outcome_bind].
  destruct (start_tasks_ok fuel turns mem desc ly (kernel m) fadt freq h1 cs h2 _ Hrun) as (k & -> & Hrun' & Hwin & Hstk & Hwf & (x & Hx & Hmx) & Htick);
    [by rewrite Hhw|by rewrite Hdev|done|].
  cbn [mbind outcome_bind mret outcome_ret]. eexists. split; [reflexivity|]. cbn [st_main].
  destruct Hscr as [S1 S2 S3 S4 S5 S6]. unfold dsk in *. split; unfold dsk; cbn.
  - split; unfold dsk; cbn; [by destruct Hrun'|by apply Hwin|by apply Hwin|by apply Hstk|by apply Hstk|done].
  - done.
  - split; [done|]. exists x. split; [done|]. rewrite Hmx. by apply Forall_nil.
  - by rewrite Htick.
Qed.
End kernel.
End KernelStart.
Import KernelStart.

(** ** Properties *)


(** A machine without PCI devices whose clock is read through the PM timer's port. *)
Module Toy.

#[export] Instance fonts : FontLib := {|
  fl_hankaku := ∅; fl_hankaku_size := 4096; fl_New_Memory_Face := 1; fl_Set_Pixel_Sizes := 0;
  fl_Get_Char_Index _ := 0; fl_Load_Glyph _ := (0, mkGlyph 0 0 0 ∅ 0 0 0 0 0 1);
|}.
#[export] Instance system : System Z := {|
  screen_format := kPixelBGRResv8BitPerColor; pml4_table := 0x10000; TaskTerminal_entry := 0x20000;
  run_others _ k := mret k; wait_turns := 1; CallApp k _ _ _ _ := mret (0, k);
|}.
#[export] Instance ports : IoPorts Z := {|
  IoOut32 h _ _ := h;
  IoIn32 h port := if port =? kConfigData then (0xffffffff, h) else (h, h + 0x400000);
|}.
#[export] Instance registers : Machine32 Z := {| load32 h _ := (0, h); store32 h _ _ := h; malloc h _ := (0x1000, h) |}.
#[export] Instance startup : StartupLib Z := {| fl_Init_FreeType := 0; usb_messages _ := [] |}.

(** The tables of the firmware. *)
Definition firmware_bytes : gmap Z Z :=
  list_to_map (zip (seqZ 0x100 8) (chars "RSD PTR ") ++ [(0x108, 223); (0x10f, 2); (0x119, 2); (0x120, 254)] ++
    zip (seqZ 0x200 4) (chars "XSDT") ++ [(0x204, 44); (0x209, 142); (0x225, 3)] ++
    zip (seqZ 0x300 4) (chars "FACP") ++ [(0x304, 120); (0x309, 95); (0x34c, 8); (0x34d, 6); (0x371, 1)]).
Definition firmware (a : Z) : Z := arr_read firmware_bytes a.

(** A volume of 16 clusters of 512 bytes with the font and an empty log. *)
Definition disk : gmap Z Z :=
  list_to_map ([(12, 2); (13, 1); (14, 1); (16, 1); (36, 1); (44, 2)] ++
    zip (seqZ 512 20) [0xf8; 0xff; 0xff; 0x0f; 0xff; 0xff; 0xff; 0x0f; 0xff; 0xff; 0xff; 0x0f; 0xff; 0xff; 0xff; 0x0f;
                       0xff; 0xff; 0xff; 0x0f] ++
    zip (seqZ 1024 12) (chars "RESOURCE   " ++ [0x10]) ++ [(1050, 3)] ++
    zip (seqZ 1056 12) (chars "KERNLOG TXT" ++ [0x20]) ++
    zip (seqZ 1536 12) (chars "KORDDM  TTF" ++ [0x20]) ++ [(1562, 4); (1564, 4)] ++
    zip (seqZ 2048 4) [1; 2; 3; 4]).
Definition volume : Volume := Fat.Initialize disk 8192.

Definition handover : Handover :=
  mkHandover (mkConfig (Some (mkBuffer ∅ 256000)) 320 320 200 kPixelBGRResv8BitPerColor) sample_map 0x100 disk 8192.
Definition layout : Layout :=
  mkLayout 0x1000 0x1100 0x1200 0x11000 0x12000 0x1300 0x1400 (λ i, 0x5000 + i) 0x1500 0x1600 0x1700
    1 2 3 4 11 12 13 14 0x3000.

(** The log takes one line. *)
Definition log_room (n : nat) (fd : option FatFD) (v : Volume) : Prop :=
  n = 0%nat ∨ n = 1%nat ∧ fd = Some (new_FatFD 1056) ∧ v = volume.

Lemma volume_ok : vol_ok 16 volume.
Proof.
  assert (Hb : ∀ a, 0 ≤ byte volume a < 256) by (apply image_bytes; vm_compute; reflexivity).
  split; try exact Hb; vm_compute; try (split; congruence); congruence.
Qed.

#[export] Instance log_room_file : LogFile log_room.
Proof.
  split; [|intros n fd v [?|[? _]]; left; lia].
  intros n fd v text [?|(Hn & Hfd & ->)] [[Ht Hlen] Hne]; [done|]. injection Hfd as ->.
  assert (n = 0%nat) as -> by lia. destruct (FreshFacts.fat_Write_fresh 16 volume 2 1056 text volume_ok) as (F & v1 & v3 & v4 & v5 & fd' & E & _).
  - split; vm_compute; try (split; congruence); congruence.
  - vm_compute. reflexivity.
  - eapply Forall_impl; [exact Ht|]. unfold ascii. simpl. lia.
  - destruct text; [done|]. simpl in *. lia.
  - assert (Hfree : length (ChainFacts.free_from 16 (fat_val volume) 2) = 11%nat) by (vm_compute; reflexivity). rewrite Hfree.
    unfold num_cluster. change (bytes_per_cluster volume) with 512. Z.div_mod_to_equations. lia.
  - eexists _, v5, fd'. split; [exact E|]. by left.
Qed.

(** The frames from 1 MiB to 160 MiB are usable. *)
Lemma map_enough : memory_enough sample_map.
Proof.
  split; [exact sample_map_ok|].
  assert (Hend : match setup_bitmap sample_map with Done mm => range_end_ mm =? 0x10000 | _ => false end = true) by (vm_compute; reflexivity).
  destruct (setup_bitmap sample_map) as [mm| |]; try done. apply Z.eqb_eq in Hend. exists mm, 0x100. split; [done|]. split; [lia|].
  change (kHeapFrames + 48) with 32816. split; [lia|]. intros g Hg.
  exists (mkDesc (memory_type_value kEfiConventionalMemory) 0x100000 0 0x9f00 0). split; [left|]. split; [reflexivity|].
  unfold phys_end. simpl. change kUEFIPageSize with 4096. lia.
Qed.

Lemma ready : machine_ready log_room 100 100 firmware 0x40000 layout handover 0.
Proof.
  split.
  - exists (mkBuffer ∅ 256000). split; try reflexivity; [split; simpl; lia|simpl; lia|simpl; lia].
  - reflexivity.
  - split; apply (bool_decide_unpack _); vm_compute; exact I.
  - exact map_enough.
  - split; [simpl; lia|]. exists 16. split; [lia|exact volume_ok].
  - eexists (new_Console black black 1 1), _, _, _, _, _, _, _, _, _, _. 
    split; [vm_compute; reflexivity|]. split; [vm_compute; reflexivity|]. split; [vm_compute; reflexivity|].
    split; [vm_compute; reflexivity|]. split; [vm_compute; reflexivity|]. split; [vm_compute; reflexivity|].
    split; [by apply Forall_nil|]. right. split; [reflexivity|]. split; [reflexivity|]. vm_compute. reflexivity.
Qed.
End Toy.
Import Toy.

