(* ===== verification/AppRuntime.v ===== *)
(** What an application runs on: the calls of src/apps/syscall.{h,asm}, the
    functions of src/apps/newlib_support.c and the part of the C library that the
    applications use, on top of them.  Strings are lists of characters without
    their terminating zero. *)
From S2P Require Import Prelude ErrorCode MemoryManager FrameAllocator Paging Message Task Timer Graphics.
From S2P Require Import FrameBuffer Font Window Layer Console File Fat FatFile Pci AppLoad Pipe Terminal Logger Kernel Syscall.

(** ** The calls as an application sees them *)

Class AppCalls (K : Type) := {
  SyscallLogString : K → Z → list Z → outcome (Result * K);
  SyscallPutString : K → Z → list Z → outcome (Result * K);
  SyscallOpenWindow : K → Z → Z → Z → Z → list Z → outcome (Result * K);
  SyscallWinWriteString : K → Z → Z → Z → Z → list Z → outcome (Result * K);
  SyscallWinFillRectangle : K → Z → Z → Z → Z → Z → Z → outcome (Result * K);
  SyscallGetCurrentTick : K → outcome (Result * K);
  SyscallWinRedraw : K → Z → outcome (Result * K);
  SyscallWinDrawLine : K → Z → Z → Z → Z → Z → Z → outcome (Result * K);
  SyscallCloseWindow : K → Z → outcome (Result * K);
  SyscallReadEvent : K → Z → outcome (Result * list AppEvent * K);
  SyscallCreateTimer : K → Z → Z → Z → outcome (Result * K);
  SyscallOpenFile : K → list Z → Z → outcome (Result * K);
  SyscallReadFile : K → Z → Z → outcome (Result * list Z * K);
  SyscallDemandPages : K → Z → Z → outcome (Result * K);
  SyscallMapFile : K → Z → Z → outcome (Result * option Z * K);
}.

(** A byte of the application's memory, which may be paged in when it is read. *)
Class AppMemory (K : Type) := { load8 : K → Z → outcome (Z * K) }.

(** The kernel's system calls; the array of events is in the upper half of the
    address space, where the stack of an application is. *)
#[export] Instance kernel_calls {H} `{System H} `{FontLib} : AppCalls (Kernel H) := {|
  SyscallLogString := LogString;
  SyscallPutString := Syscall.PutString;
  SyscallOpenWindow := OpenWindow;
  SyscallWinWriteString := WinWriteString;
  SyscallWinFillRectangle := WinFillRectangle;
  SyscallGetCurrentTick := GetCurrentTick;
  SyscallWinRedraw := WinRedraw;
  SyscallWinDrawLine := WinDrawLine;
  SyscallCloseWindow := CloseWindow;
  SyscallReadEvent k len := ReadEvent k 0xffffffffffff0000 len;
  SyscallCreateTimer := CreateTimer;
  SyscallOpenFile := OpenFile;
  SyscallReadFile := Syscall.ReadFile;
  SyscallDemandPages k n _ := DemandPages k n;
  SyscallMapFile k fd _ := MapFile k fd;
|}.

(** [define_syscall]: the number of each call. *)
Definition syscall_number (c : call) : Z :=
  match c with
  | cLogString => 0x80000000 | cPutString => 0x80000001 | cExit => 0x80000002 | cOpenWindow => 0x80000003
  | cWinWriteString => 0x80000004 | cWinFillRectangle => 0x80000005 | cGetCurrentTick => 0x80000006
  | cWinRedraw => 0x80000007 | cWinDrawLine => 0x80000008 | cCloseWindow => 0x80000009 | cReadEvent => 0x8000000a
  | cCreateTimer => 0x8000000b | cOpenFile => 0x8000000c | cReadFile => 0x8000000d | cDemandPages => 0x8000000e
  | cMapFile => 0x8000000f
  end.

Definition LAYER_NO_REDRAW : Z := Z.shiftl 1 32.
Definition TIMER_ONESHOT_REL : Z := 1.
Definition TIMER_ONESHOT_ABS : Z := 0.

(** newlib's errno.h and fcntl.h, next to those of the kernel *)
Definition ENOMEM : Z := 12.
Definition O_RDONLY : Z := 0.
Definition O_WRONLY : Z := 1.
Definition O_TRUNC : Z := 0x400.

(** ** Running an application *)

(** A process: the rest of the world, [errno], and the static variables of [sbrk]. *)
Record Proc (K : Type) : Type := mkProc { os : K; errno : Z; dpage_end : Z; program_break : Z }.
Arguments mkProc {K}. Arguments os {K} _. Arguments errno {K} _. Arguments dpage_end {K} _. Arguments program_break {K} _.

Definition new_Proc {K} (k : K) : Proc K := mkProc k 0 0 0.

(** A piece of an application returns, or it has called [exit]. *)
Inductive ended (A : Type) : Type := Returned (x : A) | Exited (code : Z).
Arguments Returned {A} x. Arguments Exited {A} code.

Definition app (K A : Type) : Type := Proc K → outcome (ended A * Proc K).

#[export] Instance app_ret {K} : MRet (app K) := λ A x p, Done (Returned x, p).
#[export] Instance app_bind {K} : MBind (app K) := λ A B f m p,
  match m p with
  | Done (Returned x, p) => f x p
  | Done (Exited code, p) => Done (Exited code, p)
  | Undef => Undef
  | NoFuel => NoFuel
  end.

Section runtime.
Context {K : Type} `{AppCalls K}.

Definition exit {A} (code : Z) : app K A := λ p, Done (Exited (i32 code), p).
Definition undefined {A} : app K A := λ _, Undef.
Definition out_of_fuel {A} : app K A := λ _, NoFuel.

(** A system call. *)
Definition sys {R} (f : K → outcome (R * K)) : app K R := λ p,
  '(r, k) ← f (os p); Done (Returned r, mkProc k (errno p) (dpage_end p) (program_break p)).

Definition set_errno (e : Z) : app K unit := λ p, Done (Returned tt, mkProc (os p) e (dpage_end p) (program_break p)).

(** [for (...) f(i)] over a list of counters or of items. *)
Fixpoint each {A} (f : A → app K unit) (l : list A) : app K unit :=
  match l with
  | [] => mret tt
  | x :: l => _ ← f x; each f l
  end.

(** A piece of code that leaves the system alone. *)
Definition pure_step {A} (o : outcome A) : app K A := λ p, x ← o; Done (Returned x, p).

(** ** newlib_support.c *)

Definition close (fd : Z) : app K Z := _ ← set_errno EBADF; mret (-1).
Definition fstat (fd : Z) : app K Z := _ ← set_errno EBADF; mret (-1).
Definition getpid : app K Z := mret 0.
Definition isatty (fd : Z) : app K Z := _ ← set_errno EBADF; mret (-1).
Definition kill (pid sig : Z) : app K Z := _ ← set_errno EPERM; mret (-1).
Definition lseek (fd offset whence : Z) : app K Z := _ ← set_errno EBADF; mret (-1).

Definition open (path : list Z) (flags : Z) : app K Z :=
  res ← sys (λ k, SyscallOpenFile k path flags);
  if res_error res =? 0 then mret (i32 (res_value res)) else _ ← set_errno (res_error res); mret (-1).

(** [posix_memalign]: [p] is what [malloc(size + alignment - 1)] returned; the
    address stored, or [ENOMEM].  No value is returned after the store. *)
Definition posix_memalign (p alignment : Z) : Z + Z :=
  if p =? 0 then inl ENOMEM else inr (Z.land (u64 (u64 (p + alignment) - 1)) (Z.lnot (alignment - 1))).

(** [read]: the bytes stored are part of the result. *)
Definition read (fd count : Z) : app K (Z * list Z) :=
  '(res, bytes) ← sys (λ k, SyscallReadFile k fd count);
  if res_error res =? 0 then mret (res_value res, bytes) else _ ← set_errno (res_error res); mret (-1, []).

(** The static variables of [sbrk]. *)
Definition get_break : app K (Z * Z) := λ p, Done (Returned (dpage_end p, program_break p), p).
Definition set_break (dpage_end program_break : Z) : app K unit := λ p,
  Done (Returned tt, mkProc (os p) (errno p) dpage_end program_break).

(** [int] arithmetic that overflows is undefined. *)
Definition int (z : Z) : app K Z := if (- 2 ^ 31 <=? z) && (z <? 2 ^ 31) then mret z else undefined.

Definition sbrk (incr : Z) : app K (option Z) :=
  '(dpage_end, program_break) ← get_break;
  if (dpage_end =? 0) || (dpage_end <? u64 (program_break + incr)) then
    t ← int (incr + 4095);
    let num_pages := Z.quot t 4096 in
    res ← sys (λ k, SyscallDemandPages k (u64 num_pages) 0);
    if negb (res_error res =? 0) then _ ← set_errno ENOMEM; mret None
    else
      bytes ← int (4096 * num_pages);
      _ ← set_break (u64 (res_value res + bytes)) (u64 (res_value res + incr));
      mret (Some (res_value res))
  else _ ← set_break dpage_end (u64 (program_break + incr)); mret (Some program_break).

Definition write (fd : Z) (bytes : list Z) : app K Z :=
  res ← sys (λ k, SyscallPutString k fd bytes);
  if res_error res =? 0 then mret (res_value res) else _ ← set_errno (res_error res); mret (-1).

Definition _exit (status : Z) : app K unit := exit status.

(** ** The C library's streams

    A stream has what was read ahead; nothing is kept back when writing. *)
Record FILE : Set := mkFILE { f_fd : Z; f_buf : list Z; f_eof : bool }.

Definition BUFSIZ : Z := 1024.
Definition stdin : FILE := mkFILE 0 [] false.
Definition stdout_fd : Z := 1.
Definition stderr_fd : Z := 2.

Definition fopen_r (path : list Z) : app K (option FILE) :=
  fd ← open path O_RDONLY; mret (if fd <? 0 then None else Some (mkFILE fd [] false)).
Definition fopen_w (path : list Z) : app K (option Z) :=
  fd ← open path (Z.lor O_WRONLY (Z.lor O_CREAT O_TRUNC)); mret (if fd <? 0 then None else Some fd).

(** A character, or the end of the stream. *)
Definition getc (f : FILE) : app K (option Z * FILE) :=
  match f_buf f with
  | c :: buf => mret (Some c, mkFILE (f_fd f) buf (f_eof f))
  | [] =>
      if f_eof f then mret (None, f)
      else
        '(_, bytes) ← read (f_fd f) BUFSIZ;
        match bytes with
        | [] => mret (None, mkFILE (f_fd f) [] true)
        | c :: buf => mret (Some c, mkFILE (f_fd f) buf false)
        end
  end.

Fixpoint fgets_loop (room : nat) (f : FILE) (acc : list Z) : app K (list Z * FILE) :=
  match room with
  | O => mret (acc, f)
  | S room' =>
      '(c, f) ← getc f;
      match c with
      | None => mret (acc, f)
      | Some c => if c =? 10 then mret (acc ++ [c], f) else fgets_loop room' f (acc ++ [c])
      end
  end.

(** [fgets(buf, size, fp)]: the characters stored, or null at the end. *)
Definition fgets (size : Z) (f : FILE) : app K (option (list Z) * FILE) :=
  '(l, f) ← fgets_loop (Z.to_nat (size - 1)) f [];
  mret (match l with [] => None | _ => Some l end, f).

Fixpoint fread_loop (room : nat) (f : FILE) (acc : list Z) : app K (list Z * FILE) :=
  match room with
  | O => mret (acc, f)
  | S room' =>
      '(c, f) ← getc f;
      match c with
      | None => mret (acc, f)
      | Some c => fread_loop room' f (acc ++ [c])
      end
  end.

(** [fread(buf, 1, count, fp)]: the bytes stored. *)
Definition fread (count : Z) (f : FILE) : app K (list Z * FILE) := fread_loop (Z.to_nat count) f [].

(** Writing in blocks: the number of bytes written before an error. *)
Fixpoint fwrite_loop (fuel : nat) (fd : Z) (bytes : list Z) (written : Z) : app K Z :=
  match bytes, fuel with
  | [], _ => mret written
  | _, O => out_of_fuel
  | _, S fuel' =>
      n ← write fd (take (Z.to_nat BUFSIZ) bytes);
      if n <=? 0 then mret written else fwrite_loop fuel' fd (drop (Z.to_nat n) bytes) (written + n)
  end.

(** [fwrite(buf, 1, count, fp)] *)
Definition fwrite (fd : Z) (bytes : list Z) : app K Z := fwrite_loop (length bytes) fd bytes 0.

(** [fputs], [printf] and [fprintf] of a text. *)
Definition fputs (fd : Z) (text : list Z) : app K unit := _ ← fwrite fd text; mret tt.
Definition printf (text : list Z) : app K unit := fputs stdout_fd text.

(** ** Drawing; the results of these calls are not looked at. *)

Definition fill_rect (layer x y w h color : Z) : app K unit := _ ← sys (λ k, SyscallWinFillRectangle k layer x y w h color); mret tt.
Definition write_string (layer x y color : Z) (text : list Z) : app K unit :=
  _ ← sys (λ k, SyscallWinWriteString k layer x y color text); mret tt.
Definition draw_line (layer x0 y0 x1 y1 color : Z) : app K unit := _ ← sys (λ k, SyscallWinDrawLine k layer x0 y0 x1 y1 color); mret tt.
Definition win_redraw (layer : Z) : app K unit := _ ← sys (λ k, SyscallWinRedraw k layer); mret tt.
Definition close_window (layer : Z) : app K unit := _ ← sys (λ k, SyscallCloseWindow k layer); mret tt.

(** ** Events

    [SyscallReadEvent(events, 1)]: the error, and what is then in [events[0]]; it
    was [last] before, null while nothing has been stored. *)
Definition read_event1 (last : option AppEvent) : app K (Z * option AppEvent) :=
  '(res, events) ← sys (λ k, SyscallReadEvent k 1);
  mret (res_error res, match events with e :: _ => Some e | [] => last end).
End runtime.

(** [AppEvent::Type] as a number. *)
Definition event_type (e : AppEvent) : Z :=
  match e with
  | evQuit => 0 | evMouseMove _ _ _ _ _ => 1 | evMouseButton _ _ _ _ => 2 | evTimerTimeout _ _ => 3 | evKeyPush _ _ _ _ => 4
  end.

Definition unknown_event (e : AppEvent) : list Z := chars "unknown event: type = " ++ fmt_d (event_type e) ++ [10].

(** The messages of [strerror]. *)
Class Strerror := { strerror : Z → list Z }.

(** ** Numbers *)

Definition isspace (c : Z) : bool := (c =? 32) || (9 <=? c) && (c <=? 13).
Definition isdigit (c : Z) : bool := (48 <=? c) && (c <=? 57).

Fixpoint parse_digits (s : list Z) (n : Z) : Z :=
  match s with
  | c :: s => if isdigit c then parse_digits s (10 * n + (c - 48)) else n
  | [] => n
  end.

Fixpoint skip_space (s : list Z) : list Z :=
  match s with
  | c :: s' => if isspace c then skip_space s' else s
  | [] => []
  end.

(** [atol]: out of range, the nearest number. *)
Definition atol (s : list Z) : Z :=
  let n := match skip_space s with
           | c :: s' => if c =? 45 then - parse_digits s' 0 else if c =? 43 then parse_digits s' 0 else parse_digits (c :: s') 0
           | [] => 0
           end in
  Z.max (- 2 ^ 63) (Z.min (2 ^ 63 - 1) n).

Definition atoi (s : list Z) : Z := i32 (atol s).

(** [argv[i]]; behind the last argument is a null pointer. *)
Definition arg_at {K} (argv : list (list Z)) (i : nat) : app K (list Z) :=
  match argv !! i with Some s => mret s | None => undefined end.
