(* ===== verification/AppText.v ===== *)
(** The applications that work on text: rpn, sort, more, cp, grep, readfile,
    dpage, mmap, timer and large, each src/apps/<name>/<name>.cpp.  Loops that wait
    or read a stream take fuel; [argv] has the program's name first. *)
From stdpp Require Import sorting.
From S2P Require Import Prelude ErrorCode Message Fat Logger Syscall AppRuntime.

(** The character at a place of a string; behind the end is its zero. *)
Definition char_at (s : list Z) (i : nat) : Z := default 0 (s !! i).

(** [char] is signed. *)
Definition schar (c : Z) : Z := swrap 8 c.

(** ** The order of sort *)

(** The comparison of [main]: characters, then lengths. *)
Fixpoint comp (a b : list Z) : bool :=
  match a, b with
  | _, [] => false
  | [], _ :: _ => true
  | x :: a, y :: b => if schar x <? schar y then true else if schar y <? schar x then false else comp a b
  end.

(** [a] does not come after [b]. *)
Definition not_after (a b : list Z) : Prop := comp b a = false.

#[export] Instance not_after_dec : RelDecision not_after.
Proof. intros a b. unfold not_after. apply _. Defined.

(** [std::sort]; the comparison is a total order, so that every sorting algorithm
    gives this list. *)
Definition std_sort (lines : list (list Z)) : list (list Z) := merge_sort not_after lines.

Section apps.
Context {K : Type} `{AppCalls K} `{AppMemory K} `{Strerror}.

(** [while (fgets(line, size, fp))]: every line without what follows a zero. *)
Fixpoint read_lines (fuel : nat) (size : Z) (fp : FILE) : app K (list (list Z)) :=
  match fuel with
  | O => out_of_fuel
  | S fuel' =>
      '(line, fp) ← fgets size fp;
      match line with
      | None => mret []
      | Some line => lines ← read_lines fuel' size fp; mret (cstr line :: lines)
      end
  end.

(** [FILE* fp = stdin; if (...) fp = fopen(...)] with the message of a failure. *)
Definition open_input (path : option (list Z)) (message : list Z → list Z) : app K FILE :=
  match path with
  | None => mret stdin
  | Some path =>
      fp ← fopen_r path;
      match fp with
      | None => _ ← fputs stderr_fd (message path); exit 1
      | Some fp => mret fp
      end
  end.

Definition failed_to_open (path : list Z) : list Z := chars "failed to open '" ++ path ++ chars "'" ++ [10].

(** ** rpn *)

Record RpnStack : Set := mkRpn { stack_ptr : Z; stack : gmap Z Z }.

Definition kRpnStack : Z := 100.

Definition Pop (s : RpnStack) : app K (Z * RpnStack) :=
  if arr_in kRpnStack (stack_ptr s) then mret (arr_read (stack s) (stack_ptr s), mkRpn (stack_ptr s - 1) (stack s)) else undefined.

Definition Push (value : Z) (s : RpnStack) : app K RpnStack :=
  let sp := stack_ptr s + 1 in
  if arr_in kRpnStack sp then mret (mkRpn sp (<[sp := value]> (stack s))) else undefined.

(** [long] arithmetic *)
Definition long (z : Z) : app K Z := if (- 2 ^ 63 <=? z) && (z <? 2 ^ 63) then mret z else undefined.

Definition log_string (level : Z) (s : list Z) : app K unit := _ ← sys (λ k, SyscallLogString k level s); mret tt.

(** One argument. *)
Definition rpn_token (arg : list Z) (s : RpnStack) : app K RpnStack :=
  if bool_decide (arg = chars "+") then
    '(b, s) ← Pop s; '(a, s) ← Pop s; r ← long (a + b); s ← Push r s; _ ← log_string kWarn (chars "+"); mret s
  else if bool_decide (arg = chars "-") then
    '(b, s) ← Pop s; '(a, s) ← Pop s; r ← long (a - b); s ← Push r s; _ ← log_string kWarn (chars "-"); mret s
  else
    s ← Push (atol arg) s; _ ← log_string kWarn (chars "#"); mret s.

Fixpoint rpn_tokens (args : list (list Z)) (s : RpnStack) : app K RpnStack :=
  match args with
  | [] => mret s
  | arg :: args => s ← rpn_token arg s; rpn_tokens args s
  end.

Definition rpn_main (argv : list (list Z)) : app K unit :=
  s ← rpn_tokens (tail argv) (mkRpn (-1) ∅);
  result ← (if 0 <=? stack_ptr s then '(r, _) ← Pop s; mret r else mret 0);
  _ ← printf (fmt_d result ++ [10]);
  exit result.

(** ** sort *)

Fixpoint print_lines (lines : list (list Z)) : app K unit :=
  match lines with
  | [] => mret tt
  | line :: lines => _ ← printf line; print_lines lines
  end.

Definition sort_main (fuel : nat) (argv : list (list Z)) : app K unit :=
  fp ← open_input (argv !! 1%nat) failed_to_open;
  lines ← read_lines fuel 1024 fp;
  _ ← print_lines (std_sort lines);
  exit 0.

(** ** more *)

Fixpoint WaitKey (fuel : nat) (last : option AppEvent) : app K AppEvent :=
  match fuel with
  | O => out_of_fuel
  | S fuel' =>
      '(err, event) ← read_event1 last;
      if negb (err =? 0) then _ ← fputs stderr_fd (chars "ReadEvent failed: " ++ strerror err ++ [10]); exit 1
      else
        match event with
        | None => undefined
        | Some evQuit => exit 0
        | Some (evKeyPush modifier keycode ascii press) =>
            if negb (press =? 0) then mret (evKeyPush modifier keycode ascii press) else WaitKey fuel' event
        | Some _ => WaitKey fuel' event
        end
  end.

(** [i % page_size] *)
Definition int_rem (a b : Z) : app K Z := if b =? 0 then undefined else mret (Z.rem a b).

Fixpoint more_lines (fuel : nat) (page_size i : Z) (lines : list (list Z)) : app K unit :=
  match lines with
  | [] => mret tt
  | line :: lines =>
      page_end ← (if 0 <? i then r ← int_rem i page_size; mret (r =? 0) else mret false);
      _ ← (if page_end : bool then _ ← fputs stderr_fd (chars "---more---" ++ [10]); _ ← WaitKey fuel None; mret tt else mret tt);
      _ ← fputs stdout_fd line;
      more_lines fuel page_size (i + 1) lines
  end.

(** The page size and the index of the file's argument. *)
Definition more_options (argv : list (list Z)) : Z * nat :=
  match argv !! 1%nat with
  | Some arg => if (char_at arg 0 =? 45) && isdigit (char_at arg 1) then (atoi (tail arg), 2%nat) else (10, 1%nat)
  | None => (10, 1%nat)
  end.

Definition more_main (fuel : nat) (argv : list (list Z)) : app K unit :=
  let '(page_size, arg_file) := more_options argv in
  fp ← open_input (argv !! arg_file) failed_to_open;
  lines ← read_lines fuel 256 fp;
  _ ← more_lines fuel page_size 0 lines;
  exit 0.

(** ** cp *)

Fixpoint copy_loop (fuel : nat) (dest : list Z) (fp_src : FILE) (fp_dest : Z) : app K unit :=
  match fuel with
  | O => out_of_fuel
  | S fuel' =>
      '(bytes, fp_src) ← fread 256 fp_src;
      match bytes with
      | [] => mret tt
      | _ =>
          written ← fwrite fp_dest bytes;
          if negb (Z.of_nat (length bytes) =? written) then _ ← printf (chars "failed to write to " ++ dest ++ [10]); exit 1
          else copy_loop fuel' dest fp_src fp_dest
      end
  end.

Definition cp_main (fuel : nat) (argv : list (list Z)) : app K unit :=
  if Z.of_nat (length argv) <? 3 then
    name ← arg_at argv 0; _ ← printf (chars "Usage: " ++ name ++ chars " <src> <dest>" ++ [10]); exit 1
  else
    src ← arg_at argv 1; dest ← arg_at argv 2;
    fp_src ← fopen_r src;
    match fp_src with
    | None => _ ← printf (chars "failed to open for read: " ++ src ++ [10]); exit 1
    | Some fp_src =>
        fp_dest ← fopen_w dest;
        match fp_dest with
        | None => _ ← printf (chars "failed to open for write: " ++ dest ++ [10]); exit 1
        | Some fp_dest => _ ← copy_loop fuel dest fp_src fp_dest; exit 0
        end
    end.

(** ** grep *)

(** [regex_search(line, m, pattern)] for a well-formed pattern. *)
Context (regex_search : list Z → list Z → bool).

Fixpoint grep_loop (fuel : nat) (pattern : list Z) (fp : FILE) : app K unit :=
  match fuel with
  | O => out_of_fuel
  | S fuel' =>
      '(line, fp) ← fgets 256 fp;
      match line with
      | None => mret tt
      | Some line =>
          _ ← (if regex_search pattern (cstr line) then printf (cstr line) else mret tt);
          grep_loop fuel' pattern fp
      end
  end.

Definition grep_main (fuel : nat) (argv : list (list Z)) : app K unit :=
  if Z.of_nat (length argv) <? 2 then
    name ← arg_at argv 0; _ ← fputs stderr_fd (chars "Usage: " ++ name ++ chars " <pattern> [<file>]" ++ [10]); exit 1
  else
    pattern ← arg_at argv 1;
    fp ← open_input (argv !! 2%nat) (λ path, chars "failed to open: " ++ path ++ [10]);
    _ ← grep_loop fuel pattern fp;
    exit 0.

(** ** readfile *)

Fixpoint readfile_loop (n : nat) (fp : FILE) : app K unit :=
  match n with
  | O => mret tt
  | S n' =>
      '(line, fp) ← fgets 256 fp;
      match line with
      | None => _ ← printf (chars "failed to get a line" ++ [10]); exit 1
      | Some line => _ ← printf (cstr line); readfile_loop n' fp
      end
  end.

Definition readfile_main (argv : list (list Z)) : app K unit :=
  let path := default (chars "/memmap") (argv !! 1%nat) in
  fp ← fopen_r path;
  match fp with
  | None => _ ← printf (chars "failed to open: " ++ path ++ [10]); exit 1
  | Some fp => _ ← readfile_loop 3 fp; _ ← printf (chars "----" ++ [10]); exit 0
  end.

(** ** dpage *)

(** [realloc_ok n]: [realloc] finds [n] bytes. *)
Context (realloc_ok : Z → bool).

Fixpoint dpage_load (fuel : nat) (fp : FILE) (buf : list Z) : app K (list Z) :=
  match fuel with
  | O => out_of_fuel
  | S fuel' =>
      '(bytes, fp) ← fread 4096 fp;
      match bytes with
      | [] => mret buf
      | _ =>
          let buf := buf ++ bytes in
          if realloc_ok (Z.of_nat (length buf) + 4096) then dpage_load fuel' fp buf else exit 1
      end
  end.

Definition dpage_count (ch : Z) (buf : list Z) : Z := Z.of_nat (length (filter (λ c, schar c = ch) buf)).

Definition dpage_main (fuel : nat) (argv : list (list Z)) : app K unit :=
  '(filename, ch) ←
    (if 3 <=? Z.of_nat (length argv) then f ← arg_at argv 1; c ← arg_at argv 2; mret (f, atoi c) else mret (chars "/memmap", 10));
  fp ← fopen_r filename;
  match fp with
  | None => _ ← printf (chars "failed to open " ++ filename ++ [10]); exit 1
  | Some fp =>
      buf ← dpage_load fuel fp [];
      _ ← printf (chars "size of " ++ filename ++ chars " = " ++ fmt_u (Z.of_nat (length buf)) ++ chars " bytes" ++ [10]);
      _ ← printf (chars "the number of '" ++ [u8 ch] ++ chars "' (0x" ++ zero_pad 2 (fmt_x (u32 ch)) ++ chars ") = " ++
                  fmt_u (dpage_count ch buf) ++ [10]);
      exit 0
  end.

(** ** mmap *)

(** Printing the mapped bytes, one at a time. *)
Fixpoint mmap_loop (n : nat) (p : Z) : app K unit :=
  match n with
  | O => mret tt
  | S n' => c ← sys (λ k, load8 k p); _ ← printf [c]; mmap_loop n' (p + 1)
  end.

Definition mmap_main : app K unit :=
  res ← sys (λ k, SyscallOpenFile k (chars "/memmap") O_RDONLY);
  if negb (res_error res =? 0) then exit (res_error res)
  else
    '(res, size) ← sys (λ k, SyscallMapFile k (i32 (res_value res)) 0);
    if negb (res_error res =? 0) then exit (res_error res)
    else
      match size with
      | None => undefined
      | Some file_size =>
          _ ← mmap_loop (Z.to_nat file_size) (res_value res);
          _ ← printf ([10] ++ chars "read from mapped file (" ++ fmt_u file_size ++ chars " bytes)" ++ [10]);
          exit 0
      end.

(** ** timer *)

Fixpoint timer_loop (fuel : nat) (last : option AppEvent) (duration_ms : Z) : app K unit :=
  match fuel with
  | O => out_of_fuel
  | S fuel' =>
      '(_, event) ← read_event1 last;
      match event with
      | None => undefined
      | Some (evTimerTimeout _ _) => printf (fmt_u duration_ms ++ chars " msecs elapsed!" ++ [10])
      | Some e => _ ← printf (unknown_event e); timer_loop fuel' event duration_ms
      end
  end.

Definition timer_main (fuel : nat) (argv : list (list Z)) : app K unit :=
  match argv !! 1%nat with
  | None => _ ← printf (chars "Usage: timer <msec>" ++ [10]); exit 1
  | Some arg =>
      let duration_ms := u64 (atoi arg) in
      timeout ← sys (λ k, SyscallCreateTimer k TIMER_ONESHOT_REL 1 duration_ms);
      _ ← printf (chars "timer created. timeout = " ++ fmt_u (res_value timeout) ++ [10]);
      _ ← timer_loop fuel None duration_ms;
      exit 0
  end.

(** ** large *)

Definition large_main (argv : list (list Z)) : app K unit := arg ← arg_at argv 1; exit (atoi arg).

(** ** fault *)

(** The instruction at which the program stops: [hlt], which a program may not
    execute, a store of an [int], or a division by zero, whose result would be printed. *)
Inductive faulting : Set := Hlt | StoreInt (addr value : Z) | DivideByZero.

Definition fault_main (argv : list (list Z)) : app K faulting :=
  let cmd := default (chars "hlt") (argv !! 1%nat) in
  if bool_decide (cmd = chars "hlt") then mret Hlt
  else if bool_decide (cmd = chars "wr_kernel") then mret (StoreInt 0x100 42)
  else if bool_decide (cmd = chars "wr_app") then mret (StoreInt 0xffff8000ffff0000 123)
  else if bool_decide (cmd = chars "zero") then mret DivideByZero
  else exit 0.
End apps.
