(* ===== verification/AppTextFacts.v ===== *)
(** What the text applications do: streams read and written to their ends, cp
    copies, sort sorts, rpn evaluates, and the blocks that [sbrk] hands out. *)
From stdpp Require Import sorting.
From S2P Require Import Prelude ErrorCode MemoryManager FrameAllocator Paging Message Task Timer Graphics FrameBuffer Font Window Layer Console File Fat FatFile Pipe Terminal Logger Kernel MainLoop Syscall AppRuntime AppText.

(** ** Streams *)
Module StreamFacts.

(** What an application relies on: what can still be read from a descriptor is
    given in pieces that are not empty before the end, and what is written, at most
    1024 bytes at a time, is added to the file. *)
Class FileLaws (K : Type) `{AppCalls K} := {
  input : K → Z → list Z;
  output : K → Z → list Z;
  readable : K → Z → Prop;
  writable : K → Z → Prop;
  read_law k fd count : readable k fd → 0 < count →
    ∃ bytes k', SyscallReadFile k fd count = Done (mkResult (Z.of_nat (length bytes)) 0, bytes, k') ∧
      (bytes = [] → input k fd = []) ∧ input k fd = bytes ++ input k' fd ∧
      (∀ g, g ≠ fd → input k' g = input k g) ∧ (∀ g, output k' g = output k g) ∧
      (∀ g, readable k g → readable k' g) ∧ (∀ g, writable k g → writable k' g);
  write_law k fd bytes : writable k fd → Z.of_nat (length bytes) ≤ 1024 →
    ∃ k', SyscallPutString k fd bytes = Done (mkResult (Z.of_nat (length bytes)) 0, k') ∧
      output k' fd = output k fd ++ bytes ∧ (∀ g, g ≠ fd → output k' g = output k g) ∧ (∀ g, input k' g = input k g) ∧
      (∀ g, readable k g → readable k' g) ∧ (∀ g, writable k g → writable k' g);
  log_law k level s : ∃ r k', SyscallLogString k level s = Done (r, k') ∧
      (∀ g, input k' g = input k g) ∧ (∀ g, output k' g = output k g) ∧
      (∀ g, readable k g → readable k' g) ∧ (∀ g, writable k g → writable k' g);
}.

(** A line of at most [room] characters, and what follows it. *)
Fixpoint next_line (room : nat) (s : list Z) : list Z * list Z :=
  match room, s with
  | S room, c :: s => if c =? 10 then ([c], s) else let '(l, rest) := next_line room s in (c :: l, rest)
  | _, _ => ([], s)
  end.

(** All lines of a text; a line longer than [room] is cut. *)
Fixpoint all_lines (fuel room : nat) (s : list Z) : list (list Z) :=
  match fuel, s with
  | S fuel, _ :: _ => let '(l, rest) := next_line room s in l :: all_lines fuel room rest
  | _, _ => []
  end.
Definition lines_of (room : nat) (s : list Z) : list (list Z) := all_lines (length s) room s.

Lemma next_line_app room s : (next_line room s).1 ++ (next_line room s).2 = s.
Proof.
  revert s. induction room as [|room IH]; intros [|c s]; try done. cbn [next_line]. destruct (c =? 10); [done|].
  specialize (IH s). destruct (next_line room s) as [l rest]. simpl in *. by rewrite IH.
Qed.

Lemma next_line_nonempty room s : (0 < room)%nat → s ≠ [] → (next_line room s).1 ≠ [].
Proof.
  destruct room, s as [|c s]; try done; [lia|]. cbn [next_line]. destruct (c =? 10); [done|]. by destruct (next_line room s).
Qed.

Lemma next_line_shorter room s : (0 < room)%nat → s ≠ [] → (length (next_line room s).2 < length s)%nat.
Proof.
  intros Hr Hs. pose proof (next_line_nonempty room s Hr Hs) as Hne. pose proof (next_line_app room s) as E.
  apply (f_equal length) in E. rewrite length_app in E. destruct (next_line room s) as [[|c l] rest]; [done|]. simpl in *. lia.
Qed.

Lemma all_lines_enough room : (0 < room)%nat → ∀ n m s, (length s ≤ n)%nat → (length s ≤ m)%nat →
  all_lines n room s = all_lines m room s.
Proof.
  intros Hr. induction n as [|n IH]; intros [|m] [|c s] Hn Hm; try done; [simpl in *; lia..|]. cbn [all_lines].
  pose proof (next_line_shorter room (c :: s) Hr) as Hlt. destruct (next_line room (c :: s)) as [l rest]. cbn [snd length] in *.
  f_equal. apply IH; specialize (Hlt ltac:(done)); lia.
Qed.

Lemma lines_of_cons room s : (0 < room)%nat → s ≠ [] →
  lines_of room s = (next_line room s).1 :: lines_of room (next_line room s).2.
Proof.
  intros Hr Hs. unfold lines_of. destruct s as [|c s]; [done|]. cbn [length]. cbn [all_lines].
  pose proof (next_line_shorter room (c :: s) Hr Hs) as Hlt. destruct (next_line room (c :: s)) as [l rest]. cbn [fst snd length] in *.
  f_equal. apply all_lines_enough; lia.
Qed.

Lemma lines_concat room s : (0 < room)%nat → concat (lines_of room s) = s.
Proof.
  intros Hr. remember (length s) as n eqn:Hn. revert s Hn. induction n as [n IH] using lt_wf_ind. intros s ->.
  destruct (decide (s = [])) as [->|Hs]; [done|]. rewrite lines_of_cons by done. cbn [concat].
  rewrite (IH (length (next_line room s).2)) by (done || by apply next_line_shorter). apply next_line_app.
Qed.

Section streams.
Context {K : Type} `{FL : FileLaws K}.
Implicit Types p : Proc K.

(** A run of a piece of an application. *)
Definition runs {A} (m : app K A) p (x : A) p' : Prop := m p = Done (Returned x, p').

Lemma runs_bind {A B} (m : app K A) (f : A → app K B) p x p1 : runs m p x p1 → (x ← m; f x) p = f x p1.
Proof. intros E. unfold mbind, app_bind. by rewrite E. Qed.

(** The files differ only in that [fd] has been read down to [rest], or has got
    [bytes] more. *)
Record files (inp out : Z → list Z) p : Prop := {
  fs_input g : input (os p) g = inp g;
  fs_output g : output (os p) g = out g;
}.

Definition modes p p' : Prop :=
  (∀ g, readable (os p) g → readable (os p') g) ∧ (∀ g, writable (os p) g → writable (os p') g).

Lemma modes_refl p : modes p p.
Proof. done. Qed.
Lemma modes_trans p1 p2 p3 : modes p1 p2 → modes p2 p3 → modes p1 p3.
Proof. intros [] []. split; auto. Qed.

Definition set_file (f : Z → list Z) (fd : Z) (x : list Z) : Z → list Z := λ g, if decide (g = fd) then x else f g.

(** What a stream will still give. *)
Definition stream p (f : FILE) : list Z := f_buf f ++ (if f_eof f then [] else input (os p) (f_fd f)).

(** Reading from [fd] and nothing else. *)
Record has_read (fd : Z) p p' : Prop := {
  hr_other g : g ≠ fd → input (os p') g = input (os p) g;
  hr_output g : output (os p') g = output (os p) g;
  hr_modes : modes p p';
}.

Lemma has_read_refl fd p : has_read fd p p.
Proof. by split. Qed.
Lemma has_read_trans fd p1 p2 p3 : has_read fd p1 p2 → has_read fd p2 p3 → has_read fd p1 p3.
Proof.
  intros [A1 B1 C1] [A2 B2 C2]. split; [intros g Hg; by rewrite A2, A1|intros g; by rewrite B2, B1|by eapply modes_trans].
Qed.

(** A stream that may be read. *)
Definition open_stream p (f : FILE) : Prop := readable (os p) (f_fd f).

Lemma getc_spec p f : open_stream p f →
  ∃ f' p', runs (getc f) p (head (stream p f), f') p' ∧ stream p' f' = tail (stream p f) ∧ f_fd f' = f_fd f ∧
    has_read (f_fd f) p p' ∧ open_stream p' f'.
Proof using FL.
  intros Hr. unfold stream, open_stream, getc. destruct f as [fd buf eof]. cbn [f_fd f_buf f_eof] in *. destruct buf as [|c buf].
  2: { exists (mkFILE fd buf eof), p. cbn. split_and!; done || by apply has_read_refl. }
  destruct eof.
  { exists (mkFILE fd [] true), p. cbn. split_and!; done || by apply has_read_refl. }
  destruct (read_law (os p) fd BUFSIZ Hr) as (bytes & k' & E & Hnil & Hin & Hother & Hout & Hrd & Hwr); [done|].
  set (p' := mkProc k' (errno p) (dpage_end p) (program_break p)).
  assert (Eread : runs (read fd BUFSIZ) p (Z.of_nat (length bytes), bytes) p').
  { unfold runs, read, sys, mbind, app_bind. rewrite E. done. }
  cbn [f_fd List.app]. destruct bytes as [|c bytes].
  - exists (mkFILE fd [] true), p'. rewrite (Hnil eq_refl).
    split; [unfold runs; by rewrite (runs_bind _ _ _ _ _ Eread)|]. split_and!; done || by apply Hrd.
  - exists (mkFILE fd bytes false), p'. cbn [f_fd f_buf f_eof]. rewrite Hin.
    split; [unfold runs; by rewrite (runs_bind _ _ _ _ _ Eread)|]. split_and!; done || by apply Hrd.
Qed.

Lemma fgets_loop_spec room : ∀ p f acc, open_stream p f →
  ∃ f' p', runs (fgets_loop room f acc) p (acc ++ (next_line room (stream p f)).1, f') p' ∧
    stream p' f' = (next_line room (stream p f)).2 ∧ f_fd f' = f_fd f ∧ has_read (f_fd f) p p' ∧ open_stream p' f'.
Proof using FL.
  induction room as [|room IH]; intros p f acc Hr.
  { exists f, p. cbn. rewrite app_nil_r. split_and!; done || by apply has_read_refl. }
  destruct (getc_spec p f Hr) as (f1 & p1 & E1 & Hs1 & Hfd1 & Hh1 & Ho1). cbn [fgets_loop].
  unfold runs. rewrite (runs_bind _ _ _ _ _ E1). destruct (stream p f) as [|c s] eqn:Es; cbn [head tail] in *.
  { exists f1, p1. cbn. rewrite app_nil_r. split_and!; done. }
  cbn [next_line]. destruct (c =? 10).
  { exists f1, p1. split_and!; done. }
  destruct (IH p1 f1 (acc ++ [c]) Ho1) as (f2 & p2 & E2 & Hs2 & Hfd2 & Hh2 & Ho2). rewrite Hs1 in E2, Hs2.
  exists f2, p2. destruct (next_line room s) as [l rest]. cbn [fst snd] in *. rewrite <- app_assoc in E2.
  split_and!; [exact E2|done|congruence| |done]. rewrite Hfd1 in Hh2. by eapply has_read_trans.
Qed.

(** [fgets] gives the next line, and null at the end. *)
Lemma fgets_spec size p f : 1 < size → open_stream p f →
  ∃ f' p', runs (fgets size f) p
      (match stream p f with [] => None | _ => Some (next_line (Z.to_nat (size - 1)) (stream p f)).1 end, f') p' ∧
    stream p' f' = (next_line (Z.to_nat (size - 1)) (stream p f)).2 ∧ f_fd f' = f_fd f ∧ has_read (f_fd f) p p' ∧
    open_stream p' f'.
Proof using FL.
  intros Hsize Hr. destruct (fgets_loop_spec (Z.to_nat (size - 1)) p f [] Hr) as (f1 & p1 & E & Hs & Hrest).
  exists f1, p1. split; [|by split]. unfold runs, fgets. rewrite (runs_bind _ _ _ _ _ E). cbn [List.app].
  destruct (stream p f) as [|c s] eqn:Es.
  - by destruct (Z.to_nat (size - 1)).
  - pose proof (next_line_nonempty (Z.to_nat (size - 1)) (c :: s)) as Hne.
    destruct (next_line (Z.to_nat (size - 1)) (c :: s)) as [[|x l] rest]; [exfalso; apply Hne; [lia|done|done]|done].
Qed.

Lemma fread_loop_spec room : ∀ p f acc, open_stream p f →
  ∃ f' p', runs (fread_loop room f acc) p (acc ++ take room (stream p f), f') p' ∧
    stream p' f' = drop room (stream p f) ∧ f_fd f' = f_fd f ∧ has_read (f_fd f) p p' ∧ open_stream p' f'.
Proof using FL.
  induction room as [|room IH]; intros p f acc Hr.
  { exists f, p. cbn. rewrite app_nil_r. split_and!; done || by apply has_read_refl. }
  destruct (getc_spec p f Hr) as (f1 & p1 & E1 & Hs1 & Hfd1 & Hh1 & Ho1). cbn [fread_loop].
  unfold runs. rewrite (runs_bind _ _ _ _ _ E1). destruct (stream p f) as [|c s] eqn:Es; cbn [head tail take drop] in *.
  { exists f1, p1. rewrite app_nil_r. split_and!; done. }
  destruct (IH p1 f1 (acc ++ [c]) Ho1) as (f2 & p2 & E2 & Hs2 & Hfd2 & Hh2 & Ho2). rewrite Hs1 in E2, Hs2.
  exists f2, p2. rewrite <- app_assoc in E2.
  split_and!; [exact E2|done|congruence| |done]. rewrite Hfd1 in Hh2. by eapply has_read_trans.
Qed.

(** Writing to [fd] and nothing else. *)
Record has_written (fd : Z) (bytes : list Z) p p' : Prop := {
  hw_file : output (os p') fd = output (os p) fd ++ bytes;
  hw_other g : g ≠ fd → output (os p') g = output (os p) g;
  hw_input g : input (os p') g = input (os p) g;
  hw_modes : modes p p';
}.

Lemma has_written_nil fd p : has_written fd [] p p.
Proof. split; try done. by rewrite app_nil_r. Qed.
Lemma has_written_app fd b1 b2 p1 p2 p3 : has_written fd b1 p1 p2 → has_written fd b2 p2 p3 → has_written fd (b1 ++ b2) p1 p3.
Proof.
  intros [A1 B1 C1 D1] [A2 B2 C2 D2].
  split; [by rewrite A2, A1, app_assoc|intros g Hg; by rewrite B2, B1|intros g; by rewrite C2, C1|by eapply modes_trans].
Qed.

Lemma write_spec p fd bytes : writable (os p) fd → Z.of_nat (length bytes) ≤ 1024 →
  ∃ p', runs (write fd bytes) p (Z.of_nat (length bytes)) p' ∧ has_written fd bytes p p'.
Proof using FL.
  intros Hw Hl. destruct (write_law (os p) fd bytes Hw Hl) as (k' & E & Ho & Hg & Hi & Hr & Hwr).
  exists (mkProc k' (errno p) (dpage_end p) (program_break p)). split; [|by split].
  unfold runs, write, sys, mbind, app_bind. by rewrite E.
Qed.

Lemma fwrite_loop_spec fuel : ∀ fd bytes n p, writable (os p) fd → (length bytes ≤ fuel)%nat →
  ∃ p', runs (fwrite_loop fuel fd bytes n) p (n + Z.of_nat (length bytes)) p' ∧ has_written fd bytes p p'.
Proof using FL.
  induction fuel as [|fuel IH]; intros fd [|c bytes] n p Hw Hl; try (simpl in Hl; lia).
  - exists p. cbn. rewrite Z.add_0_r. split; [done|apply has_written_nil].
  - exists p. cbn. rewrite Z.add_0_r. split; [done|apply has_written_nil].
  - set (b := c :: bytes) in *. assert (Hb : (0 < length b)%nat) by (simpl; lia).
    assert (Hlen : length (take (Z.to_nat BUFSIZ) b) = Nat.min 1024 (length b)) by (rewrite length_take; done).
    destruct (write_spec p fd (take (Z.to_nat BUFSIZ) b) Hw) as (p1 & E1 & H1); [lia|].
    set (m := Z.of_nat (length (take (Z.to_nat BUFSIZ) b))) in *.
    destruct (IH fd (drop (Z.to_nat m) b) (n + m) p1) as (p2 & E2 & H2).
    { by apply (hw_modes _ _ _ _ H1). }
    { rewrite length_drop. lia. }
    exists p2. split.
    + unfold runs. change (fwrite_loop (S fuel) fd b n) with
        (x ← write fd (take (Z.to_nat BUFSIZ) b); if x <=? 0 then mret n else fwrite_loop fuel fd (drop (Z.to_nat x) b) (n + x)).
      rewrite (runs_bind _ _ _ _ _ E1). fold m. destruct (Z.leb_spec m 0); [lia|]. unfold runs in E2. rewrite E2.
      do 2 f_equal. rewrite length_drop. f_equal. lia.
    + assert (Esplit : b = take (Z.to_nat BUFSIZ) b ++ drop (Z.to_nat m) b).
      { rewrite <- (take_drop (Z.to_nat BUFSIZ) b) at 1. f_equal. unfold m. rewrite Nat2Z.id, length_take.
        destruct (decide (length b ≤ Z.to_nat BUFSIZ)%nat).
        - rewrite (Nat.min_r _ _) by lia. by rewrite !drop_ge by lia.
        - by rewrite (Nat.min_l _ _) by lia. }
      rewrite Esplit. by eapply has_written_app.
Qed.

Lemma fwrite_spec p fd bytes : writable (os p) fd →
  ∃ p', runs (fwrite fd bytes) p (Z.of_nat (length bytes)) p' ∧ has_written fd bytes p p'.
Proof using FL. intros Hw. destruct (fwrite_loop_spec (length bytes) fd bytes 0 p Hw) as (p' & E & Hp'); [done|]. by exists p'. Qed.

Lemma fputs_spec p fd text : writable (os p) fd → ∃ p', runs (fputs fd text) p tt p' ∧ has_written fd text p p'.
Proof using FL.
  intros Hw. destruct (fwrite_spec p fd text Hw) as (p' & E & Hp'). exists p'. split; [|done].
  unfold runs, fputs. by rewrite (runs_bind _ _ _ _ _ E).
Qed.

Lemma printf_spec p text : writable (os p) stdout_fd → ∃ p', runs (printf text) p tt p' ∧ has_written stdout_fd text p p'.
Proof using FL. apply fputs_spec. Qed.
End streams.
End StreamFacts.
Import StreamFacts.

(** ** cp *)
Module CpFacts.
Section cp.
Context {K : Type} `{FL : FileLaws K}.
Implicit Types p : Proc K.

(** The stream is not touched by writing. *)
Lemma written_stream fd bytes p p' f : has_written fd bytes p p' → stream p' f = stream p f.
Proof. intros [_ _ Hi _]. unfold stream. by rewrite Hi. Qed.

Lemma copy_loop_spec fuel : ∀ dest f fd p, (length (stream p f) < fuel)%nat → open_stream p f → writable (os p) fd →
  ∃ p', runs (copy_loop fuel dest f fd) p tt p' ∧ output (os p') fd = output (os p) fd ++ stream p f ∧
    (∀ g, g ≠ fd → output (os p') g = output (os p) g).
Proof using FL.
  induction fuel as [|fuel IH]; intros dest f fd p Hfuel Hr Hw; [lia|]. cbn [copy_loop].
  destruct (fread_loop_spec 256 p f [] Hr) as (f1 & p1 & E1 & Hs1 & Hfd1 & Hh1 & Ho1). cbn [List.app] in E1.
  change (fread 256 f) with (fread_loop 256 f []). unfold runs. rewrite (runs_bind _ _ _ _ _ E1).
  destruct (take 256 (stream p f)) as [|c bytes] eqn:Et.
  { assert (stream p f = []) as -> by (by destruct (stream p f)). exists p1. split; [done|]. rewrite app_nil_r.
    split; [apply (hr_output _ _ _ Hh1)|]. intros g _. apply (hr_output _ _ _ Hh1). }
  cbn [List.app]. set (b := c :: bytes) in *.
  destruct (fwrite_spec p1 fd b) as (p2 & E2 & H2); [by apply (hr_modes _ _ _ Hh1)|].
  rewrite (runs_bind _ _ _ _ _ E2), Z.eqb_refl. cbn [negb].
  assert (Hs2 : stream p2 f1 = drop 256 (stream p f)) by (rewrite <- Hs1; by eapply written_stream).
  assert (Hsplit : stream p f = b ++ stream p2 f1) by (by rewrite Hs2, <- Et, take_drop).
  destruct (IH dest f1 fd p2) as (p3 & E3 & Ho3 & Hg3).
  { apply (f_equal length) in Hsplit. rewrite length_app in Hsplit. unfold b in Hsplit. cbn [length] in Hsplit. lia. }
  { by apply (hw_modes _ _ _ _ H2). }
  { apply (hw_modes _ _ _ _ H2). by apply (hr_modes _ _ _ Hh1). }
  exists p3. split; [exact E3|]. split.
  - rewrite Ho3, (hw_file _ _ _ _ H2), (hr_output _ _ _ Hh1), Hsplit. by rewrite app_assoc.
  - intros g Hg. by rewrite Hg3, (hw_other _ _ _ _ H2), (hr_output _ _ _ Hh1).
Qed.

Lemma fopen_r_ok p path fd k : SyscallOpenFile (os p) path O_RDONLY = Done (mkResult fd 0, k) → 0 ≤ fd < 2 ^ 31 →
  runs (fopen_r path) p (Some (mkFILE fd [] false)) (mkProc k (errno p) (dpage_end p) (program_break p)).
Proof.
  intros E Hfd. unfold runs, fopen_r, open, sys, mbind, app_bind. rewrite E. cbn.
  rewrite swrap_small by lia. by destruct (Z.ltb_spec fd 0); [lia|].
Qed.

Lemma fopen_w_ok p path fd k : SyscallOpenFile (os p) path (Z.lor O_WRONLY (Z.lor O_CREAT O_TRUNC)) = Done (mkResult fd 0, k) →
  0 ≤ fd < 2 ^ 31 → runs (fopen_w path) p (Some fd) (mkProc k (errno p) (dpage_end p) (program_break p)).
Proof.
  intros E Hfd. unfold runs, fopen_w, open, sys, mbind, app_bind. rewrite E. cbn.
  rewrite swrap_small by lia. by destruct (Z.ltb_spec fd 0); [lia|].
Qed.
End cp.
End CpFacts.
Import CpFacts.

(** ** sort *)
Module SortOrder.

Definition is_byte (c : Z) : Prop := 0 ≤ c < 256.

Lemma schar_inj a b : is_byte a → is_byte b → schar a = schar b → a = b.
Proof. unfold is_byte, schar, swrap. intros. Z.div_mod_to_equations. lia. Qed.

#[export] Instance not_after_total : Total not_after.
Proof.
  intros a. unfold not_after. induction a as [|x a IH]; intros [|y b]; cbn [comp]; try (by left); try (by right).
  destruct (Z.ltb_spec (schar y) (schar x)), (Z.ltb_spec (schar x) (schar y)); try (by left); try (by right); [lia|apply IH].
Qed.

#[export] Instance not_after_trans : Transitive not_after.
Proof.
  intros a. unfold not_after. induction a as [|x a IH]; intros [|y b] [|z c]; cbn [comp]; try done.
  destruct (Z.ltb_spec (schar y) (schar x)); [done|]. destruct (Z.ltb_spec (schar x) (schar y)).
  - intros _. destruct (Z.ltb_spec (schar z) (schar y)); [done|]. intros _.
    destruct (Z.ltb_spec (schar z) (schar x)); [lia|]. destruct (Z.ltb_spec (schar x) (schar z)); [done|lia].
  - intros Hab. destruct (Z.ltb_spec (schar z) (schar y)); [done|]. destruct (Z.ltb_spec (schar y) (schar z)).
    + intros _. destruct (Z.ltb_spec (schar z) (schar x)); [lia|]. destruct (Z.ltb_spec (schar x) (schar z)); [done|lia].
    + intros Hbc. destruct (Z.ltb_spec (schar z) (schar x)); [lia|]. destruct (Z.ltb_spec (schar x) (schar z)); [done|].
      by apply (IH b c).
Qed.

Lemma not_after_antisymm a : ∀ b, Forall is_byte a → Forall is_byte b → not_after a b → not_after b a → a = b.
Proof.
  unfold not_after. induction a as [|x a IH]; intros [|y b] Ha Hb; cbn [comp]; try done.
  apply Forall_cons in Ha as [Hx Ha]. apply Forall_cons in Hb as [Hy Hb].
  destruct (Z.ltb_spec (schar y) (schar x)); [done|]. destruct (Z.ltb_spec (schar x) (schar y)); [done|]. intros E1 E2.
  f_equal; [apply schar_inj; done || lia|by apply IH].
Qed.

Lemma cstr_bytes l : Forall is_byte l → Forall is_byte (cstr l).
Proof. induction 1 as [|x l Hx Hl IH]; [constructor|]. cbn [cstr]. destruct (x =? 0); by constructor. Qed.

Lemma lines_bytes room s : (0 < room)%nat → Forall is_byte s → Forall (Forall is_byte) (lines_of room s).
Proof.
  intros Hr. rewrite <- (lines_concat room s Hr) at 1. induction (lines_of room s) as [|l ls IH]; [constructor|].
  cbn [concat]. intros [? ?]%Forall_app. constructor; [done|by apply IH].
Qed.

Section sort.
Context {K : Type} `{FL : FileLaws K}.
Implicit Types p : Proc K.

Lemma read_lines_spec fuel : ∀ size f p, 1 < size → (length (stream p f) < fuel)%nat → open_stream p f →
  ∃ p', runs (read_lines fuel size f) p (cstr <$> lines_of (Z.to_nat (size - 1)) (stream p f)) p' ∧ has_read (f_fd f) p p'.
Proof using FL.
  induction fuel as [|fuel IH]; intros size f p Hsize Hfuel Hr; [lia|]. cbn [read_lines].
  destruct (fgets_spec size p f Hsize Hr) as (f1 & p1 & E1 & Hs1 & Hfd1 & Hh1 & Ho1).
  unfold runs. rewrite (runs_bind _ _ _ _ _ E1). set (room := Z.to_nat (size - 1)) in *.
  destruct (decide (stream p f = [])) as [Hnil|Hne].
  { rewrite Hnil. exists p1. split; [done|]. done. }
  rewrite (lines_of_cons room _) by (done || lia). cbn [fmap list_fmap].
  pose proof (next_line_shorter room (stream p f)) as Hlt.
  destruct (IH size f1 p1 Hsize) as (p2 & E2 & Hh2); [rewrite Hs1; specialize (Hlt ltac:(lia) Hne); lia|done|].
  fold room in E2. rewrite Hs1 in E2. exists p2.
  split; [|rewrite Hfd1 in Hh2; by eapply has_read_trans].
  destruct (stream p f) as [|c s]; [done|]. by rewrite (runs_bind _ _ _ _ _ E2).
Qed.

Lemma print_lines_spec ls : ∀ p, writable (os p) stdout_fd →
  ∃ p', runs (print_lines ls) p tt p' ∧ has_written stdout_fd (concat ls) p p'.
Proof using FL.
  induction ls as [|l ls IH]; intros p Hw; [exists p; split; [done|apply has_written_nil]|].
  destruct (printf_spec p l Hw) as (p1 & E1 & HW1). destruct (IH p1) as (p2 & E2 & H2); [by apply (hw_modes _ _ _ _ HW1)|].
  exists p2. split; [|by eapply has_written_app]. unfold runs. cbn [print_lines]. by rewrite (runs_bind _ _ _ _ _ E1).
Qed.
End sort.
End SortOrder.
Import SortOrder.

(** ** rpn *)
Module RpnFacts.

(** Expressions, the way they are written after their operands, their value and
    the places of the stack they need. *)
Inductive expr : Set := Num (tok : list Z) | Plus (a b : expr) | Minus (a b : expr).

Fixpoint postfix (e : expr) : list (list Z) :=
  match e with
  | Num tok => [tok]
  | Plus a b => postfix a ++ postfix b ++ [chars "+"]
  | Minus a b => postfix a ++ postfix b ++ [chars "-"]
  end.

Fixpoint value (e : expr) : Z :=
  match e with Num tok => atol tok | Plus a b => value a + value b | Minus a b => value a - value b end.

Fixpoint places (e : expr) : Z :=
  match e with Num _ => 1 | Plus a b | Minus a b => Z.max (places a) (1 + places b) end.

(** Numbers are not operators, and every value fits a [long]. *)
Fixpoint well_formed (e : expr) : Prop :=
  match e with
  | Num tok => tok ≠ chars "+" ∧ tok ≠ chars "-"
  | Plus a b | Minus a b => well_formed a ∧ well_formed b ∧ - 2 ^ 63 ≤ value e < 2 ^ 63
  end.

Lemma places_pos e : 1 ≤ places e.
Proof. induction e; simpl; lia. Qed.

Section rpn.
Context {K : Type} `{FL : FileLaws K}.
Implicit Types p : Proc K.

(** Nothing is read or written. *)
Definition untouched p p' : Prop :=
  (∀ g, input (os p') g = input (os p) g) ∧ (∀ g, output (os p') g = output (os p) g) ∧ modes p p'.

Lemma untouched_trans p1 p2 p3 : untouched p1 p2 → untouched p2 p3 → untouched p1 p3.
Proof.
  intros (A1 & B1 & C1) (A2 & B2 & C2).
  split; [intros g; by rewrite A2, A1|split; [intros g; by rewrite B2, B1|by eapply modes_trans]].
Qed.

Lemma log_string_spec p level s : ∃ p', runs (log_string level s) p tt p' ∧ untouched p p'.
Proof using FL.
  destruct (log_law (os p) level s) as (r & k' & E & Hi & Ho & Hr & Hw).
  exists (mkProc k' (errno p) (dpage_end p) (program_break p)). split; [|by split].
  unfold runs, log_string, sys, mbind, app_bind. by rewrite E.
Qed.

(** A value was put on top of the stack. *)
Record pushed (v : Z) (s s' : RpnStack) : Prop := {
  pu_ptr : stack_ptr s' = stack_ptr s + 1;
  pu_top : arr_read (stack s') (stack_ptr s + 1) = v;
  pu_below i : i ≤ stack_ptr s → arr_read (stack s') i = arr_read (stack s) i;
}.

Lemma Push_spec v s p : -1 ≤ stack_ptr s < 99 → ∃ s', runs (Push v s) p s' p ∧ pushed v s s'.
Proof.
  intros Hs. unfold runs, Push. rewrite (proj2 (arr_in_true kRpnStack _)) by (unfold kRpnStack; lia).
  eexists. split; [reflexivity|]. split; simpl; [done|by rewrite arr_read_set, decide_True|].
  intros i Hi. rewrite arr_read_set, decide_False; [done|lia].
Qed.

Lemma Pop_spec s p : 0 ≤ stack_ptr s ≤ 99 →
  runs (Pop s) p (arr_read (stack s) (stack_ptr s), mkRpn (stack_ptr s - 1) (stack s)) p.
Proof. intros Hs. unfold runs, Pop. by rewrite (proj2 (arr_in_true kRpnStack _)) by (unfold kRpnStack; lia). Qed.

(** Both operators: the operands of [a] and [b] are replaced by the result. *)
Lemma operator_spec va vb r s s1 s2 (op : Z → Z → Z) lg p : pushed va s s1 → pushed vb s1 s2 → -1 ≤ stack_ptr s →
  stack_ptr s + 2 ≤ 99 → op va vb = r → - 2 ^ 63 ≤ r < 2 ^ 63 →
  ∃ s' p', runs ('(b, s) ← Pop s2; '(a, s) ← Pop s; r ← long (op a b); s ← Push r s; _ ← log_string kWarn lg; mret s) p s' p' ∧
    pushed r s s' ∧ untouched p p'.
Proof using FL.
  intros [P1 T1 B1] [P2 T2 B2] Hs Hs2 Hr Hrange.
  pose proof (Pop_spec s2 p) as E1. rewrite P2, P1 in E1. specialize (E1 ltac:(lia)). rewrite P1 in T2. rewrite T2 in E1.
  unfold runs. rewrite (runs_bind _ _ _ _ _ E1).
  pose proof (Pop_spec (mkRpn (stack_ptr s + 1 + 1 - 1) (stack s2)) p) as E2. cbn [stack_ptr stack] in E2. specialize (E2 ltac:(lia)).
  rewrite B2 in E2 by lia. replace (stack_ptr s + 1 + 1 - 1) with (stack_ptr s + 1) in * by lia. rewrite T1 in E2.
  rewrite (runs_bind _ _ _ _ _ E2). rewrite Hr.
  assert (E3 : runs (long r) p r p).
  { unfold runs, long. destruct (Z.leb_spec (- 2 ^ 63) r); [|lia]. by destruct (Z.ltb_spec r (2 ^ 63)); [|lia]. }
  rewrite (runs_bind _ _ _ _ _ E3). destruct (Push_spec r (mkRpn (stack_ptr s + 1 - 1) (stack s2)) p) as (s' & E4 & [P4 T4 B4]);
    [simpl; lia|]. cbn [stack_ptr stack] in *. replace (stack_ptr s + 1 - 1 + 1) with (stack_ptr s + 1) in * by lia.
  rewrite (runs_bind _ _ _ _ _ E4). destruct (log_string_spec p kWarn lg) as (p' & E5 & Hu). rewrite (runs_bind _ _ _ _ _ E5).
  exists s', p'. split; [done|]. split; [|done]. split; [done|done|]. intros i Hi. rewrite B4 by lia. rewrite B2 by lia. apply B1. lia.
Qed.

Lemma rpn_tokens_app l1 : ∀ l2 s p s' p', runs (rpn_tokens l1 s) p s' p' → rpn_tokens (l1 ++ l2) s p = rpn_tokens l2 s' p'.
Proof.
  induction l1 as [|t l1 IH]; intros l2 s p s' p' E.
  - unfold runs, rpn_tokens in E. by injection E as <- <-.
  - unfold runs in *. cbn [rpn_tokens List.app] in *. unfold mbind, app_bind in *.
    destruct (rpn_token t s p) as [[[s1|code] p1]| |]; try done. by apply IH.
Qed.

Lemma rpn_expr e : ∀ s p, well_formed e → -1 ≤ stack_ptr s → stack_ptr s + places e ≤ 99 →
  ∃ s' p', runs (rpn_tokens (postfix e) s) p s' p' ∧ pushed (value e) s s' ∧ untouched p p'.
Proof using FL.
  assert (Hop : ∀ a b (op : Z → Z → Z) tok,
    (∀ s p, well_formed a → -1 ≤ stack_ptr s → stack_ptr s + places a ≤ 99 →
       ∃ s' p', runs (rpn_tokens (postfix a) s) p s' p' ∧ pushed (value a) s s' ∧ untouched p p') →
    (∀ s p, well_formed b → -1 ≤ stack_ptr s → stack_ptr s + places b ≤ 99 →
       ∃ s' p', runs (rpn_tokens (postfix b) s) p s' p' ∧ pushed (value b) s s' ∧ untouched p p') →
    (∀ s2 p, rpn_token tok s2 p =
       ('(b, s) ← Pop s2; '(a, s) ← Pop s; r ← long (op a b); s ← Push r s; _ ← log_string kWarn tok; mret s) p) →
    ∀ s p, well_formed a → well_formed b → - 2 ^ 63 ≤ op (value a) (value b) < 2 ^ 63 → -1 ≤ stack_ptr s →
      stack_ptr s + Z.max (places a) (1 + places b) ≤ 99 →
      ∃ s' p', runs (rpn_tokens (postfix a ++ postfix b ++ [tok]) s) p s' p' ∧ pushed (op (value a) (value b)) s s' ∧ untouched p p').
  { intros a b op tok IHa IHb Htok s p Ha Hb Hr Hs Hp. pose proof (places_pos b).
    destruct (IHa s p Ha Hs) as (s1 & p1 & E1 & P1 & U1); [lia|].
    destruct (IHb s1 p1 Hb) as (s2 & p2 & E2 & P2 & U2); [rewrite (pu_ptr _ _ _ P1); lia..|].
    destruct (operator_spec (value a) (value b) (op (value a) (value b)) s s1 s2 op tok p2 P1 P2 Hs) as (s3 & p3 & E3 & P3 & U3);
      [lia|done|done|].
    exists s3, p3. split; [|split; [done|by eapply untouched_trans; [|eapply untouched_trans]]].
    unfold runs. rewrite (rpn_tokens_app _ _ _ _ _ _ E1), (rpn_tokens_app _ _ _ _ _ _ E2). cbn [rpn_tokens].
    unfold runs in E3. rewrite <- Htok in E3. by rewrite (runs_bind _ _ _ _ _ E3). }
  induction e as [tok|a IHa b IHb|a IHa b IHb]; intros s p Hwf Hs Hp; cbn [postfix value places well_formed] in *.
  - destruct Hwf as [H1 H2]. destruct (Push_spec (atol tok) s p) as (s' & E1 & P1); [lia|].
    destruct (log_string_spec p kWarn (chars "#")) as (p' & E2 & U). exists s', p'. split; [|done].
    unfold runs. cbn [rpn_tokens]. assert (Et : runs (rpn_token tok s) p s' p').
    { unfold runs, rpn_token. rewrite !bool_decide_eq_false_2 by done. rewrite (runs_bind _ _ _ _ _ E1).
      by rewrite (runs_bind _ _ _ _ _ E2). }
    by rewrite (runs_bind _ _ _ _ _ Et).
  - destruct Hwf as (Ha & Hb & Hr). apply (Hop a b Z.add (chars "+")); done.
  - destruct Hwf as (Ha & Hb & Hr). apply (Hop a b Z.sub (chars "-")); done.
Qed.
End rpn.
End RpnFacts.
Import RpnFacts.

(** ** sbrk *)
Module SbrkFacts.

(** What [SyscallDemandPages] promises: the pages follow those given out before. *)
Class PageLaws (K : Type) `{AppCalls K} := {
  area_end : K → Z;
  page_ok : K → Prop;
  demand_law k n : page_ok k → 0 < area_end k → 0 ≤ n → area_end k + 4096 * n < 2 ^ 64 →
    ∃ k', SyscallDemandPages k n 0 = Done (mkResult (area_end k) 0, k') ∧ area_end k' = area_end k + 4096 * n ∧ page_ok k';
}.

Section sbrk.
Context {K : Type} `{PL : PageLaws K}.
Implicit Types p : Proc K.

(** [sbrk] again and again: the blocks, as address and size. *)
Fixpoint sbrk_all (incrs : list Z) : app K (list (option Z * Z)) :=
  match incrs with
  | [] => mret []
  | i :: incrs => b ← sbrk i; bs ← sbrk_all incrs; mret ((b, i) :: bs)
  end.

(** Blocks one after the other between two addresses. *)
Fixpoint in_order (lo hi : Z) (bs : list (option Z * Z)) : Prop :=
  match bs with
  | [] => lo ≤ hi
  | (b, size) :: bs => ∃ a, b = Some a ∧ lo ≤ a ∧ 0 ≤ size ∧ in_order (a + size) hi bs
  end.

Lemma in_order_le lo lo' hi bs : lo ≤ lo' → in_order lo' hi bs → in_order lo hi bs.
Proof. destruct bs as [|[b size] bs]; simpl; [lia|]. intros Hlo (a & -> & Ha & Hr). exists a. split_and!; [done|lia|apply Hr..]. Qed.

(** The break lies in the last area, which ends where the process's pages end. *)
Record break_ok p : Prop := {
  bo_page : page_ok (os p);
  bo_end : 0 < area_end (os p) < 2 ^ 64;
  bo_break : dpage_end p ≠ 0 → 0 < program_break p ∧ program_break p ≤ dpage_end p ∧ dpage_end p ≤ area_end (os p);
}.

(** Where the next block may begin. *)
Definition low p : Z := if dpage_end p =? 0 then 0 else program_break p.

Lemma sbrk_ok p incr : break_ok p → 0 ≤ incr ≤ 2 ^ 31 - 4096 → 0 ≤ dpage_end p → area_end (os p) + incr + 4095 < 2 ^ 64 →
  ∃ a p', sbrk incr p = Done (Returned (Some a), p') ∧ break_ok p' ∧ 0 ≤ dpage_end p' ∧ low p ≤ a ∧ low p' = a + incr ∧
    a + incr ≤ area_end (os p') ∧ area_end (os p') ≤ area_end (os p) + incr + 4095 ∧ area_end (os p) ≤ area_end (os p').
Proof using PL.
  intros [Hpage Hend Hbreak] Hincr Hd Hroom. unfold sbrk, get_break, set_break, mbind, app_bind.
  destruct (Z.eqb_spec (dpage_end p) 0) as [E0|E0]; cbn [orb].
  2: destruct (Hbreak E0) as (Hb0 & Hb1 & Hb2); rewrite (wrap_small 64) by lia;
     destruct (Z.ltb_spec (dpage_end p) (program_break p + incr)).
  3: { eexists _, _. split; [reflexivity|]. unfold low. cbn [dpage_end program_break os]. destruct (Z.eqb_spec (dpage_end p) 0); [done|].
       split_and!; try lia. split; cbn [dpage_end program_break os]; [done|done|lia]. }
  all: assert (Hpages : 4096 * Z.quot (incr + 4095) 4096 ≤ incr + 4095 ∧ incr ≤ 4096 * Z.quot (incr + 4095) 4096 ∧
         0 ≤ Z.quot (incr + 4095) 4096) by (rewrite Z.quot_div_nonneg by lia; Z.div_mod_to_equations; lia);
    set (n := Z.quot (incr + 4095) 4096) in *;
    unfold int; destruct (Z.leb_spec (- 2 ^ 31) (incr + 4095)); [|lia]; destruct (Z.ltb_spec (incr + 4095) (2 ^ 31)); [|lia];
    cbn [andb]; unfold mret, app_ret, sys, mbind, outcome_bind; fold n;
    rewrite (wrap_small 64 n) by lia;
    destruct (demand_law (os p) n Hpage) as (k' & -> & Ha & Hp'); [lia..|]; cbn [res_error res_value Z.eqb negb];
    destruct (Z.leb_spec (- 2 ^ 31) (4096 * n)); [|lia]; destruct (Z.ltb_spec (4096 * n) (2 ^ 31)); [|lia];
    cbn [andb]; rewrite (wrap_small 64 (area_end (os p) + 4096 * n)), (wrap_small 64 (area_end (os p) + incr)) by lia;
    eexists _, _; (split; [reflexivity|]); unfold low; cbn [dpage_end program_break os errno];
    (destruct (Z.eqb_spec (area_end (os p) + 4096 * n) 0); [lia|]); rewrite Ha;
    (destruct (Z.eqb_spec (dpage_end p) 0); [|try done]); split_and!; try lia; try done;
    (split; cbn [dpage_end program_break os]; rewrite ?Ha; done || lia).
Qed.

(** The sum of the increments and the pages they may take. *)
Definition demand (incrs : list Z) : Z := foldr (λ i n, i + 4095 + n) 0 incrs.

Lemma sbrk_all_ok incrs : ∀ p, break_ok p → 0 ≤ dpage_end p → Forall (λ i, 0 ≤ i ≤ 2 ^ 31 - 4096) incrs →
  area_end (os p) + demand incrs < 2 ^ 64 →
  ∃ bs p', sbrk_all incrs p = Done (Returned bs, p') ∧ in_order (low p) (area_end (os p')) bs ∧ map snd bs = incrs.
Proof using PL.
  induction incrs as [|i incrs IH]; intros p Hok Hd Hall Hroom.
  - exists [], p. split; [done|]. split; [|done]. destruct Hok as [_ He Hb]. cbn [in_order]. unfold low.
    destruct (Z.eqb_spec (dpage_end p) 0); [lia|]. destruct (Hb n). lia.
  - apply Forall_cons in Hall as [Hi Hall]. cbn [demand foldr] in Hroom. fold (demand incrs) in Hroom.
    assert (0 ≤ demand incrs) by (clear -Hall; induction Hall; simpl; lia).
    destruct (sbrk_ok p i Hok Hi Hd) as (a & p1 & E1 & Hok1 & Hd1 & Hlo & Hlo1 & He1 & Hr1 & Hm1); [lia|].
    destruct (IH p1 Hok1 Hd1 Hall) as (bs & p2 & E2 & Ho2 & Hs2); [lia|].
    exists ((Some a, i) :: bs), p2. split; [|split].
    + cbn [sbrk_all]. unfold mbind, app_bind. rewrite E1. by rewrite E2.
    + exists a. split_and!; [done|done|lia|]. by rewrite <- Hlo1.
    + cbn [map snd]. by rewrite Hs2.
Qed.
End sbrk.
End SbrkFacts.
Import SbrkFacts.

(** The kernel keeps the promise for the current task: it moves the end of the area
    whose pages the page fault handler gives out. *)
Definition kernel_area_end {H} `{System H} (k : Kernel H) : Z :=
  match current_task k with Done (_, t) => dpaging_end_ t | _ => 0 end.

#[export] Program Instance kernel_pages {H} `{System H} `{FontLib} : PageLaws (Kernel H) := {|
  area_end := kernel_area_end;
  page_ok k := ∃ id t, current_task k = Done (id, t);
|}.
Next Obligation.
  intros H ? ? k n (id & t & E) Hpos Hn Hroom. unfold kernel_area_end in *. rewrite E in *. cbn [SyscallDemandPages kernel_calls].
  unfold DemandPages. rewrite E. cbn [mbind outcome_bind]. unfold update_task. unfold current_task in E.
  destruct (CurrentTask (tm_of k)) as [c| |] eqn:Ec; try done. cbn [mbind outcome_bind] in E.
  destruct (task (tm_of k) c) as [u| |] eqn:Eu; try done. cbn [mbind outcome_bind mret outcome_ret] in E. injection E as -> ->.
  rewrite Eu. cbn [mbind outcome_bind mret outcome_ret]. rewrite wrap_small by lia.
  set (k' := set_ktm k _). assert (E' : current_task k' = Done (id, SetDPagingEnd t (dpaging_end_ t + 4096 * n))).
  { unfold current_task. change (CurrentTask (tm_of k')) with (CurrentTask (tm_of k)). rewrite Ec. cbn [mbind outcome_bind].
    unfold task. change (tasks_ (tm_of k')) with (<[id := SetDPagingEnd t (dpaging_end_ t + 4096 * n)]> (tasks_ (tm_of k))).
    by rewrite lookup_insert_eq. }
  exists k'. split; [done|]. rewrite E'. split; [done|]. by eexists _, _.
Qed.

(** ** Properties *)




(** The blocks that an application's [sbrk] hands out never overlap.  Over a system
    whose pages follow one another, as the kernel's do, every sequence of requests
    succeeds, the blocks come in increasing order, each begins where the one before
    has ended or later, and all end before the end of the pages asked for. *)
Theorem sbrk_in_order {K : Type} `{PL : PageLaws K} (incrs : list Z) (k : K)
    (Hpage : page_ok k) (Hend : 0 < area_end k < 2 ^ 64) (Hincrs : Forall (λ i, 0 ≤ i ≤ 2 ^ 31 - 4096) incrs)
    (Hroom : area_end k + demand incrs < 2 ^ 64) :
  ∃ bs p', sbrk_all incrs (new_Proc k) = Done (Returned bs, p') ∧ in_order 0 (area_end (os p')) bs ∧ map snd bs = incrs.
Proof. apply sbrk_all_ok; [by split|done|done|done]. Qed.

(** A small system: files 3 and 4, a source of seven bytes that comes in pieces of
    three. *)
Module ToyFiles.

Record world : Set := mkWorld { w_in : gmap Z (list Z); w_out : gmap Z (list Z) }.

Definition w_input (w : world) (fd : Z) : list Z := default [] (w_in w !! fd).
Definition w_output (w : world) (fd : Z) : list Z := default [] (w_out w !! fd).

Definition ok (w : world) : outcome (Result * world) := Done (mkResult 0 0, w).

#[export] Instance calls : AppCalls world := {|
  SyscallLogString w _ _ := ok w;
  SyscallPutString w fd bytes :=
    Done (mkResult (Z.of_nat (length bytes)) 0, mkWorld (w_in w) (<[fd := w_output w fd ++ bytes]> (w_out w)));
  SyscallOpenWindow w _ _ _ _ _ := ok w;
  SyscallWinWriteString w _ _ _ _ _ := ok w;
  SyscallWinFillRectangle w _ _ _ _ _ _ := ok w;
  SyscallGetCurrentTick w := ok w;
  SyscallWinRedraw w _ := ok w;
  SyscallWinDrawLine w _ _ _ _ _ _ := ok w;
  SyscallCloseWindow w _ := ok w;
  SyscallReadEvent w _ := Done (mkResult 1 0, [evQuit], w);
  SyscallCreateTimer w _ _ _ := ok w;
  SyscallOpenFile w path _ := Done (mkResult (if bool_decide (path = chars "a") then 3 else 4) 0, w);
  SyscallReadFile w fd count :=
    let bytes := take (Nat.min 3 (Z.to_nat count)) (w_input w fd) in
    Done (mkResult (Z.of_nat (length bytes)) 0, bytes, mkWorld (<[fd := drop (length bytes) (w_input w fd)]> (w_in w)) (w_out w));
  SyscallDemandPages w _ _ := ok w;
  SyscallMapFile w _ _ := Done (mkResult 0 0, None, w);
|}.

#[export] Program Instance laws : FileLaws world := {|
  input := w_input; output := w_output; readable _ _ := True; writable _ _ := True;
|}.
Next Obligation.
  intros w fd count _ Hc. eexists _, _. split; [reflexivity|]. unfold w_input, w_output. cbn [w_in w_out]. split.
  - intros E%(f_equal length). rewrite length_take in E. cbn [length] in E. apply length_zero_iff_nil. lia.
  - rewrite lookup_insert_eq. cbn [default from_option]. split.
    + rewrite length_take. rewrite <- (take_drop (3 `min` Z.to_nat count) (default [] (w_in w !! fd))) at 1. f_equal.
      destruct (decide (3 `min` Z.to_nat count ≤ length (default [] (w_in w !! fd)))%nat).
      * by rewrite (Nat.min_l _ (length _)) by lia.
      * rewrite (Nat.min_r _ (length _)) by lia. by rewrite !drop_ge by lia.
    + split; [|done]. intros g Hg. by rewrite lookup_insert_ne.
Qed.
Next Obligation.
  intros w fd bytes _ _. eexists. split; [reflexivity|]. unfold w_input, w_output. cbn [w_in w_out].
  split; [by rewrite lookup_insert_eq|]. split; [intros g Hg; by rewrite lookup_insert_ne|done].
Qed.
Next Obligation. intros w level s. by exists (mkResult 0 0), w. Qed.

(** Seven bytes in file 3, two lines on the standard input. *)
Definition start : world := mkWorld {[3 := [1; 2; 3; 4; 5; 6; 7]; 0 := chars "pear" ++ [10] ++ chars "apple" ++ [10]]} ∅.
End ToyFiles.
Import ToyFiles.




(** A kernel whose running task has its pages from 4096 on. *)
Definition paged_tm : TaskManager :=
  match CurrentTask sample_tm with
  | Done id => match task sample_tm id with Done t => set_task sample_tm id (SetDPagingEnd t 4096) | _ => sample_tm end
  | _ => sample_tm
  end.

Definition paged_kernel : Kernel unit :=
  mkKernel (mkDesktop (mkLM None (small_fb 7) [] [] 0) ∅ (mkActive 0 0) ∅ paged_tm)
    new_TimerManager sample_volume (mkPS 0 ∅ sample_mm)
    (new_Logger (new_Console (mkColor 0 0 0) (mkColor 0 0 0) 1 1)) (small_fb 7) ∅ ∅ ∅ ∅ ∅ [] tt 0x3000.

#[local] Existing Instance sample_system.
#[local] Existing Instance sample_fonts.

(** Three requests: the first two ask for pages, the third does not. *)
Lemma sbrk_in_order_witness :
  ∃ bs p', sbrk_all [100; 5000; 30] (new_Proc paged_kernel) = Done (Returned bs, p') ∧
    in_order 0 (kernel_area_end (os p')) bs ∧ map snd bs = [100; 5000; 30].
Proof.
  destruct (sbrk_in_order [100; 5000; 30] paged_kernel) as (bs & p' & E & Ho & Hs).
  - eexists _, _. vm_compute. reflexivity.
  - vm_compute. split; reflexivity.
  - repeat (apply Forall_cons; split; [lia|]). apply Forall_nil. exact I.
  - vm_compute. reflexivity.
  - exists bs, p'. split; [exact E|]. split; [exact Ho|exact Hs].
Defined.
