(* ===== verification/AppDraw.v ===== *)
(** The applications that draw: winhello, winkor, paint, stars, lines, eye, cube and
    gview, each src/apps/<name>/<name>.cpp.  Loops that wait for events take fuel. *)
From Stdlib Require Import Floats.SpecFloat.
From S2P Require Import Prelude Logger Syscall AppRuntime.

(** ** Floating point *)

(** The mathematical functions of the C library. *)
Class LibM := {
  cos : double → double;
  sin : double → double;
  sqrt : double → double;
  atan2 : double → double → double;
  pow : double → double → double;
}.

Definition dsub : double → double → double := SFsub 53 1024.

(** The double nearest to pi, and the lowest one. *)
Definition M_PI : double := S754_finite false 7074237752028440 (-51).
Definition lowest : double := S754_finite true 9007199254740991 971.

(** Conversion to [int] drops the fraction; out of range it is undefined. *)
Definition to_int (z : Z) : outcome Z := if (- 2 ^ 31 <=? z) && (z <? 2 ^ 31) then mret z else Undef.

Definition dtrunc (x : double) : outcome Z :=
  match x with
  | S754_zero _ => mret 0
  | S754_finite s m e => let n := Z.shiftl (Z.pos m) e in to_int (if s then - n else n)
  | _ => Undef
  end.

(** [round]: to the nearest integer, halves away from zero. *)
Definition dround (x : double) : outcome Z :=
  match x with
  | S754_zero _ => mret 0
  | S754_finite s m e =>
      let n := if 0 <=? e then Z.shiftl (Z.pos m) e else (Z.pos m + 2 ^ (- e - 1)) / 2 ^ (- e) in
      to_int (if s then - n else n)
  | _ => Undef
  end.

(** [std::min<double>] *)
Definition dmin (a b : double) : double := if SFltb b a then b else a.

(** What stb_image.h makes of a file: width, height, bytes of a pixel and all
    pixels, or null with a reason. *)
Class ImageDecoder (K : Type) := {
  stbi_load_from_memory : K → Z → Z → outcome ((Z * Z * Z * list Z + list Z) * K);
}.

Section draw.
Context {K : Type} `{AppCalls K} `{Strerror} `{LibM}.

Definition read_failed (err : Z) : list Z := chars "ReadEvent failed: " ++ strerror err ++ [10].

(** ** winhello *)

(** Its loop goes on after an error. *)
Fixpoint winhello_loop (fuel : nat) (last : option AppEvent) : app K unit :=
  match fuel with
  | O => out_of_fuel
  | S fuel' =>
      '(err, event) ← read_event1 last;
      _ ← (if err =? 0 then mret tt else printf (read_failed err));
      match event with
      | None => undefined
      | Some evQuit => mret tt
      | Some (evMouseMove _ _ _ _ _ | evMouseButton _ _ _ _ | evKeyPush _ _ _ _) => winhello_loop fuel' event
      | Some e => _ ← printf (unknown_event e); winhello_loop fuel' event
      end
  end.

Definition winhello_main (fuel : nat) (argv : list (list Z)) : app K unit :=
  title ← arg_at argv 1;
  win ← sys (λ k, SyscallOpenWindow k 200 100 10 10 title);
  if negb (res_error win =? 0) then exit (res_error win)
  else
    let layer_id := res_value win in
    text ← arg_at argv 2;
    _ ← write_string layer_id 7 24 0xc00000 text;
    _ ← write_string layer_id 14 40 0x00c000 text;
    _ ← write_string layer_id 21 56 0x0000c0 text;
    _ ← write_string layer_id 7 72 0xc00000 text;
    _ ← winhello_loop fuel None;
    _ ← close_window layer_id;
    exit 0.

(** ** winkor *)

Fixpoint winkor_loop (fuel : nat) (last : option AppEvent) : app K unit :=
  match fuel with
  | O => out_of_fuel
  | S fuel' =>
      '(err, event) ← read_event1 last;
      if negb (err =? 0) then printf (read_failed err)
      else
        match event with
        | None => undefined
        | Some evQuit => mret tt
        | Some (evMouseMove _ _ _ _ _ | evMouseButton _ _ _ _ | evKeyPush _ _ _ _) => winkor_loop fuel' event
        | Some e => _ ← printf (unknown_event e); winkor_loop fuel' event
        end
  end.

Definition winkor_main (fuel : nat) : app K unit :=
  win ← sys (λ k, SyscallOpenWindow k 200 100 10 10 (chars "안녕하세요"));
  if negb (res_error win =? 0) then exit (res_error win)
  else
    let layer_id := res_value win in
    _ ← write_string layer_id 7 24 0xc00000 (chars "안녕하세요");
    _ ← write_string layer_id 24 40 0x00c000 (chars "반갑습니다");
    _ ← write_string layer_id 40 56 0x0000c0 (chars "빨리 Rock5B+ 운영체제를만들고싶어요");
    _ ← winkor_loop fuel None;
    _ ← close_window layer_id;
    exit 0.

(** ** paint *)

Definition paint_kWidth : Z := 200.
Definition paint_kHeight : Z := 130.

Definition IsInside (x y : Z) : bool :=
  (4 <=? x) && (x <? 4 + paint_kWidth) && (24 <=? y) && (y <? 24 + paint_kHeight).

Fixpoint paint_loop (fuel : nat) (layer_id : Z) (press : bool) (last : option AppEvent) : app K unit :=
  match fuel with
  | O => out_of_fuel
  | S fuel' =>
      '(err, event) ← read_event1 last;
      if negb (err =? 0) then printf (read_failed err)
      else
        match event with
        | None => undefined
        | Some evQuit => mret tt
        | Some (evMouseMove x y dx dy _) =>
            prev_x ← int (x - dx);
            prev_y ← int (y - dy);
            _ ← (if press && IsInside prev_x prev_y && IsInside x y then draw_line layer_id prev_x prev_y x y 0x000000 else mret tt);
            paint_loop fuel' layer_id press event
        | Some (evMouseButton x y pressed button) =>
            if button =? 0 then
              _ ← fill_rect layer_id x y 1 1 0x000000;
              paint_loop fuel' layer_id (negb (pressed =? 0)) event
            else paint_loop fuel' layer_id press event
        | Some e => _ ← printf (unknown_event e); paint_loop fuel' layer_id press event
        end
  end.

Definition paint_main (fuel : nat) : app K unit :=
  win ← sys (λ k, SyscallOpenWindow k (paint_kWidth + 8) (paint_kHeight + 28) 10 10 (chars "paint"));
  if negb (res_error win =? 0) then exit (res_error win)
  else
    _ ← paint_loop fuel (res_value win) false None;
    _ ← close_window (res_value win);
    exit 0.

(** ** stars

    [star i]: the i-th place that the random generator gives. *)
Context (star : Z → Z * Z).

Definition stars_kWidth : Z := 100.
Definition stars_kHeight : Z := 100.

(** Unsigned division by an [int]. *)
Definition star_time (ticks freq : Z) : app K Z :=
  let freq := u64 freq in if freq =? 0 then undefined else mret (u64 (ticks * 1000) / freq).

Definition stars_main (argv : list (list Z)) : app K unit :=
  win ← sys (λ k, SyscallOpenWindow k (stars_kWidth + 8) (stars_kHeight + 28) 10 10 (chars "stars"));
  if negb (res_error win =? 0) then exit (res_error win)
  else
    let layer_id := res_value win in
    _ ← fill_rect (Z.lor layer_id LAYER_NO_REDRAW) 4 24 stars_kWidth stars_kHeight 0x000000;
    let num_stars := match argv !! 1%nat with Some arg => atoi arg | None => 100 end in
    start ← sys SyscallGetCurrentTick;
    _ ← each (λ i, let '(x, y) := star i in fill_rect (Z.lor layer_id LAYER_NO_REDRAW) (4 + x) (24 + y) 2 2 0xfff100)
             (seqZ 0 num_stars);
    _ ← win_redraw layer_id;
    tick_end ← sys SyscallGetCurrentTick;
    ms ← star_time (u64 (res_value tick_end - res_value start)) (res_error start);
    _ ← printf (fmt_d num_stars ++ chars " stars in " ++ fmt_u ms ++ chars " ms." ++ [10]);
    exit 0.

(** ** lines *)

Definition kRadius : Z := 90.

Definition Color (deg : Z) : Z :=
  if deg <=? 30 then Z.lor (Z.shiftl (Z.quot (255 * deg) 30) 8) 0xff0000
  else if deg <=? 60 then Z.lor (Z.shiftl (Z.quot (255 * (60 - deg)) 30) 16) 0x00ff00
  else if deg <=? 90 then Z.lor (Z.quot (255 * (deg - 60)) 30) 0x00ff00
  else if deg <=? 120 then Z.lor (Z.shiftl (Z.quot (255 * (120 - deg)) 30) 8) 0x0000ff
  else if deg <=? 150 then Z.lor (Z.shiftl (Z.quot (255 * (deg - 120)) 30) 16) 0x0000ff
  else Z.lor (Z.quot (255 * (180 - deg)) 30) 0xff0000.

(** [M_PI * deg / 180.0] *)
Definition radians (deg : Z) : double := ddiv (dmul M_PI (dbl deg)) (dbl 180).

Definition lines_main : app K unit :=
  win ← sys (λ k, SyscallOpenWindow k (kRadius * 2 + 10 + 8) (kRadius + 28) 10 10 (chars "lines"));
  if negb (res_error win =? 0) then exit (res_error win)
  else
    let layer_id := res_value win in
    let x0 := 4 in let y0 := 24 in let x1 := 4 + kRadius + 10 in let y1 := 24 + kRadius in
    _ ← each (λ i, let deg := 5 * i in
        x ← pure_step (dtrunc (dmul (dbl kRadius) (cos (radians deg))));
        y ← pure_step (dtrunc (dmul (dbl kRadius) (sin (radians deg))));
        _ ← draw_line layer_id x0 y0 (x0 + x) (y0 + y) (Color deg);
        draw_line layer_id x1 y1 (x1 + x) (y1 - y) (Color (deg + 90))) (seqZ 0 19);
    exit 0.

(** ** eye *)

Definition eye_kCanvasSize : Z := 100.
Definition kEyeSize : Z := 10.

Definition DrawEye (layer_id_flags mouse_x mouse_y color : Z) : app K unit :=
  cx ← int (mouse_x - Z.quot eye_kCanvasSize 2); cx ← int (cx - 4);
  cy ← int (mouse_y - Z.quot eye_kCanvasSize 2); cy ← int (cy - 24);
  let center_x := dbl cx in
  let center_y := dbl cy in
  let direction := atan2 center_y center_x in
  let distance := sqrt (dadd (pow center_x (dbl 2)) (pow center_y (dbl 2))) in
  let distance := dmin distance (dbl (Z.quot eye_kCanvasSize 2 - Z.quot kEyeSize 2)) in
  eye_center_x ← pure_step (dtrunc (dmul (cos direction) distance));
  eye_center_y ← pure_step (dtrunc (dmul (sin direction) distance));
  let eye_x := eye_center_x + Z.quot eye_kCanvasSize 2 + 4 in
  let eye_y := eye_center_y + Z.quot eye_kCanvasSize 2 + 24 in
  fill_rect layer_id_flags (eye_x - Z.quot kEyeSize 2) (eye_y - Z.quot kEyeSize 2) kEyeSize kEyeSize color.

Fixpoint eye_loop (fuel : nat) (layer_id : Z) (last : option AppEvent) : app K unit :=
  match fuel with
  | O => out_of_fuel
  | S fuel' =>
      '(err, event) ← read_event1 last;
      if negb (err =? 0) then printf (read_failed err)
      else
        match event with
        | None => undefined
        | Some evQuit => mret tt
        | Some (evMouseMove x y _ _ _) =>
            _ ← fill_rect (Z.lor layer_id LAYER_NO_REDRAW) 4 24 eye_kCanvasSize eye_kCanvasSize 0xffffff;
            _ ← DrawEye layer_id x y 0x000000;
            eye_loop fuel' layer_id event
        | Some e => _ ← printf (unknown_event e); eye_loop fuel' layer_id event
        end
  end.

Definition eye_main (fuel : nat) : app K unit :=
  win ← sys (λ k, SyscallOpenWindow k (eye_kCanvasSize + 8) (eye_kCanvasSize + 28) 10 10 (chars "eye"));
  if negb (res_error win =? 0) then exit (res_error win)
  else
    _ ← fill_rect (res_value win) 4 24 eye_kCanvasSize eye_kCanvasSize 0xffffff;
    _ ← eye_loop fuel (res_value win) None;
    _ ← close_window (res_value win);
    exit 0.
End draw.
