(* ===== verification/AppCube.v ===== *)
(** The rotating cube, src/apps/cube/cube.cpp.  Vectors of doubles are triples; an
    array that was not initialised is a map from the indices that were written. *)
From Stdlib Require Import Floats.SpecFloat.
From S2P Require Import Prelude Syscall AppRuntime AppDraw.

Definition kScale : Z := 50.
Definition kMargin : Z := 10.
Definition kCanvasSize : Z := 3 * kScale + kMargin.

Definition kCube : list (Z * Z * Z) :=
  [(1, 1, 1); (1, 1, -1); (1, -1, 1); (1, -1, -1); (-1, 1, 1); (-1, 1, -1); (-1, -1, 1); (-1, -1, -1)].
Definition kSurface : list (list nat) :=
  [[0; 4; 6; 2]; [1; 3; 7; 5]; [0; 2; 3; 1]; [0; 1; 5; 4]; [4; 5; 7; 6]; [6; 7; 3; 2]]%nat.
Definition kColor : list Z := [0xff0000; 0x00ff00; 0xffff00; 0x0000ff; 0xff00ff; 0x00ffff].

Definition Vertex : Set := double * double * double.

(** The global variables that are drawn from. *)
Record Cube : Set := mkCube { vert : list Vertex; centerz4 : list double; scr : list (Z * Z) }.

Definition at_ {A} (l : list A) (i : nat) : outcome A := of_option (l !! i).

(** ** Turning *)

Record Angles : Set := mkAngles { thx : Z; thy : Z; thz : Z }.

Definition turn (t : Angles) : Angles :=
  mkAngles (Z.land (thx t + 182) 0xffff) (Z.land (thy t + 273) 0xffff) (Z.land (thz t + 364) 0xffff).

Section cube.
Context {K : Type} `{AppCalls K} `{LibM}.

Definition to_rad : double := ddiv M_PI (dbl 0x8000).

Definition rotate (t : Angles) (cv : Z * Z * Z) : Vertex :=
  let '(cx, cy, cz) := cv in
  let xp := cos (dmul (dbl (thx t)) to_rad) in let xa := sin (dmul (dbl (thx t)) to_rad) in
  let yp := cos (dmul (dbl (thy t)) to_rad) in let ya := sin (dmul (dbl (thy t)) to_rad) in
  let zp := cos (dmul (dbl (thz t)) to_rad) in let za := sin (dmul (dbl (thz t)) to_rad) in
  let zt := dadd (dmul (dbl (kScale * cz)) xp) (dmul (dbl (kScale * cy)) xa) in
  let yt := dsub (dmul (dbl (kScale * cy)) xp) (dmul (dbl (kScale * cz)) xa) in
  let xt := dadd (dmul (dbl (kScale * cx)) yp) (dmul zt ya) in
  let vz := dsub (dmul zt yp) (dmul (dbl (kScale * cx)) ya) in
  let vx := dsub (dmul xt zp) (dmul yt za) in
  let vy := dadd (dmul yt zp) (dmul xt za) in
  (vx, vy, vz).

(** Four times the depth of a surface's centre. *)
Definition depth4 (vert : list Vertex) (surface : list nat) : outcome double :=
  foldM (λ i z, '(_, _, vz) ← at_ vert i; mret (dadd z vz)) surface (dbl 0).

(** The vertices and depths of a turn; the screen's coordinates are the old ones. *)
Definition rotated (t : Angles) (scr : list (Z * Z)) : outcome Cube :=
  let vert := rotate t <$> kCube in
  centerz4 ← foldM (λ s l, z ← depth4 vert s; mret (l ++ [z])) kSurface [];
  mret (mkCube vert centerz4 scr).

(** ** Drawing *)

Definition project (v : Vertex) : outcome (Z * Z) :=
  let '(vx, vy, vz) := v in
  let t := ddiv (dbl (6 * kScale)) (dadd vz (dbl (8 * kScale))) in
  x ← dtrunc (dadd (dmul vx t) (dbl (Z.quot kCanvasSize 2)));
  y ← dtrunc (dadd (dmul vy t) (dbl (Z.quot kCanvasSize 2)));
  mret (x, y).

Definition with_scr (c : Cube) : outcome Cube :=
  scr ← foldM (λ v l, p ← project v; mret (l ++ [p])) (vert c) [];
  mret (mkCube (vert c) (centerz4 c) scr).

(** [std::max_element]: the index of the first of the largest elements. *)
Fixpoint max_from (l : list double) (i : nat) (best : nat) (m : double) : nat :=
  match l with
  | [] => best
  | x :: l => if SFltb m x then max_from l (S i) i x else max_from l (S i) best m
  end.
Definition max_element (l : list double) : option nat :=
  match l with [] => None | x :: l => Some (max_from l 1 0 x) end.

(** The table of the columns at which an edge is in each row. *)
Definition edge_row (roundish : double → outcome Z) (m : double) (x0 y0 : Z) (y : Z) (y2x : gmap Z Z) : outcome (gmap Z Z) :=
  x ← roundish (dadd (dmul m (dbl (y - y0))) (dbl x0));
  arr_set kCanvasSize y2x y x.

Definition edge (x0 y0 y1 dx : Z) (y2x : gmap Z Z) : outcome (gmap Z Z) :=
  let m := ddiv (dbl dx) (dbl (y1 - y0)) in
  let roundish := if 0 <=? dx then dfloor else dceil in
  for_loop y0 (y1 + 1) (edge_row roundish m x0 y0) y2x.

(** [ymin], [ymax], [y2x_up] and [y2x_down]. *)
Record Rows : Set := mkRows { ymin : Z; ymax : Z; y2x_up : gmap Z Z; y2x_down : gmap Z Z }.

Definition surface_edge (scr : list (Z * Z)) (surface : list nat) (i : nat) (r : Rows) : outcome Rows :=
  j0 ← at_ surface ((i + 3) mod 4); j1 ← at_ surface i;
  '(p0x, p0y) ← at_ scr j0; '(p1x, p1y) ← at_ scr j1;
  let r := mkRows (Z.min (ymin r) p1y) (Z.max (ymax r) p1y) (y2x_up r) (y2x_down r) in
  if p0y =? p1y then mret r
  else if p0y <? p1y then
    up ← edge p0x p0y p1y (p1x - p0x) (y2x_up r); mret (mkRows (ymin r) (ymax r) up (y2x_down r))
  else
    down ← edge p1x p1y p0y (p0x - p1x) (y2x_down r); mret (mkRows (ymin r) (ymax r) (y2x_up r) down).

Definition surface_rows (scr : list (Z * Z)) (surface : list nat) : outcome Rows :=
  foldM (surface_edge scr surface) (seq 0 (length surface)) (mkRows kCanvasSize 0 ∅ ∅).

(** A row was written by both sides. *)
Definition row_ends (r : Rows) (y : Z) : outcome (Z * Z) :=
  up ← of_option (y2x_up r !! y); down ← of_option (y2x_down r !! y); mret (up, down).

Definition DrawSurface (c : Cube) (layer_id : Z) (sur : nat) : app K unit :=
  surface ← pure_step (at_ kSurface sur);
  color ← pure_step (at_ kColor sur);
  r ← pure_step (surface_rows (scr c) surface);
  each (λ y,
    '(up, down) ← pure_step (row_ends r y);
    let p0x := Z.min up down in
    let p1x := Z.max up down in
    fill_rect layer_id (4 + p0x) (24 + y) (p1x - p0x + 1) 1 color) (seqZ (ymin r) (ymax r + 1 - ymin r)).

(** The surface shows its outer side. *)
Definition faces_us (c : Cube) (sur : nat) : outcome bool :=
  surface ← at_ kSurface sur;
  j0 ← at_ surface 0; j1 ← at_ surface 1; j2 ← at_ surface 2;
  '(v0x, v0y, _) ← at_ (vert c) j0; '(v1x, v1y, _) ← at_ (vert c) j1; '(v2x, v2y, _) ← at_ (vert c) j2;
  let e0x := dsub v1x v0x in let e0y := dsub v1y v0y in
  let e1x := dsub v2x v1x in let e1y := dsub v2y v1y in
  mret (SFleb (dmul e0x e1y) (dmul e0y e1x)).

Fixpoint surfaces_loop (fuel : nat) (c : Cube) (layer_id : Z) : app K unit :=
  match fuel with
  | O => out_of_fuel
  | S fuel' =>
      sur ← pure_step (of_option (max_element (centerz4 c)));
      zmax ← pure_step (at_ (centerz4 c) sur);
      if SFeqb zmax lowest then mret tt
      else
        let c := mkCube (vert c) (<[sur := lowest]> (centerz4 c)) (scr c) in
        faces ← pure_step (faces_us c sur);
        _ ← (if faces : bool then DrawSurface c layer_id sur else mret tt);
        surfaces_loop fuel' c layer_id
  end.

(** Seven turns: each but the last takes one of the six surfaces. *)
Definition DrawObj (c : Cube) (layer_id : Z) : app K (list (Z * Z)) :=
  c ← pure_step (with_scr c);
  _ ← surfaces_loop 7 c layer_id;
  mret (scr c).

(** ** The main loop *)

Fixpoint Sleep_loop (fuel : nat) (last : option AppEvent) : app K bool :=
  match fuel with
  | O => out_of_fuel
  | S fuel' =>
      '(_, event) ← read_event1 last;
      match event with
      | None => undefined
      | Some (evTimerTimeout _ _) => mret false
      | Some evQuit => mret true
      | Some _ => Sleep_loop fuel' event
      end
  end.

(** The timer of the next frame; the result is the new [prev_timeout]. *)
Definition next_frame (ms prev_timeout : Z) : app K Z :=
  if prev_timeout =? 0 then
    timeout ← sys (λ k, SyscallCreateTimer k TIMER_ONESHOT_REL 1 ms); mret (res_value timeout)
  else
    let prev_timeout := u64 (prev_timeout + ms) in
    _ ← sys (λ k, SyscallCreateTimer k TIMER_ONESHOT_ABS 1 prev_timeout); mret prev_timeout.

Definition Sleep (fuel : nat) (ms prev_timeout : Z) : app K (bool * Z) :=
  prev_timeout ← next_frame ms prev_timeout;
  quit ← Sleep_loop fuel None;
  mret (quit, prev_timeout).

(** [frames]: the most frames that are drawn. *)
Fixpoint cube_loop (frames fuel : nat) (layer_id : Z) (t : Angles) (scr : list (Z * Z)) (prev_timeout : Z) : app K unit :=
  match frames with
  | O => out_of_fuel
  | S frames' =>
      let t := turn t in
      c ← pure_step (rotated t scr);
      _ ← fill_rect (Z.lor layer_id LAYER_NO_REDRAW) 4 24 kCanvasSize kCanvasSize 0;
      scr ← DrawObj c (Z.lor layer_id LAYER_NO_REDRAW);
      _ ← win_redraw layer_id;
      '(quit, prev_timeout) ← Sleep fuel 50 prev_timeout;
      if quit : bool then mret tt else cube_loop frames' fuel layer_id t scr prev_timeout
  end.

Definition cube_main (frames fuel : nat) : app K unit :=
  win ← sys (λ k, SyscallOpenWindow k (kCanvasSize + 8) (kCanvasSize + 28) 10 10 (chars "cube"));
  if negb (res_error win =? 0) then exit (res_error win)
  else
    _ ← cube_loop frames fuel (res_value win) (mkAngles 0 0 0) [] 0;
    _ ← close_window (res_value win);
    exit 0.
End cube.
