(* ===== verification/AppBlocks.v ===== *)
(** The game of src/apps/blocks/blocks.cpp: what it draws, what a key does, what a
    frame does to bar, ball and blocks, and the main loop. *)
From S2P Require Import Prelude Syscall AppRuntime AppDraw AppCube.

Definition kNumBlocksX : Z := 10.
Definition kNumBlocksY : Z := 5.
Definition kBlockWidth : Z := 20.
Definition kBlockHeight : Z := 10.
Definition kBarWidth : Z := 30.
Definition kBarHeight : Z := 5.
Definition kBallRadius : Z := 5.
Definition kGapWidth : Z := 30.
Definition kGapHeight : Z := 30.
Definition kGapBar : Z := 80.
Definition kBarFloat : Z := 10.
Definition kCanvasWidth : Z := kNumBlocksX * kBlockWidth + 2 * kGapWidth.
Definition kCanvasHeight : Z := kGapHeight + kNumBlocksY * kBlockHeight + kGapBar + kBarHeight + kBarFloat.
Definition kBarY : Z := kCanvasHeight - kBarFloat - kBarHeight.
Definition kFrameRate : Z := 60.
Definition kBarSpeed : Z := Z.quot kCanvasWidth 2.
Definition kBallSpeed : Z := kBarSpeed.
Definition kBallX : Z := Z.quot kCanvasWidth 2 - kBallRadius - 20.
Definition kBallY : Z := kCanvasHeight - kBarFloat - kBarHeight - kBallRadius - 20.

(** The blocks, a row of bits each, and the variables of [main]. *)
Record Game : Set := mkGame {
  blocks : list Z; bar_x : Z; ball_x : Z; ball_y : Z; move_dir : Z; ball_dir : Z; ball_dx : Z; ball_dy : Z;
}.

(** All bits set. *)
Definition new_Game : Game :=
  mkGame (replicate (Z.to_nat kNumBlocksY) (Z.ones kNumBlocksX)) (Z.quot kCanvasWidth 2 - Z.quot kBarWidth 2) kBallX kBallY 0 0 0 0.

Definition set_bar (g : Game) (bar_x : Z) : Game :=
  mkGame (blocks g) bar_x (ball_x g) (ball_y g) (move_dir g) (ball_dir g) (ball_dx g) (ball_dy g).
Definition set_move (g : Game) (move_dir : Z) : Game :=
  mkGame (blocks g) (bar_x g) (ball_x g) (ball_y g) move_dir (ball_dir g) (ball_dx g) (ball_dy g).
Definition set_ball (g : Game) (ball_x ball_y ball_dir : Z) : Game :=
  mkGame (blocks g) (bar_x g) ball_x ball_y (move_dir g) ball_dir (ball_dx g) (ball_dy g).

(** [blocks[by][bx]] *)
Definition block (g : Game) (bx by_ : Z) : bool := Z.testbit (default 0 (blocks g !! Z.to_nat by_)) bx.

(** [LimitRange] *)
Definition LimitRange (x min max : Z) : Z := if x <? min then min else if max <? x then max else x.

(** ** Keys *)

Definition key_pressed (g : Game) (keycode : Z) : Game :=
  let g :=
    if keycode =? 79 then set_move g 1
    else if keycode =? 80 then set_move g (-1)
    else if keycode =? 44 then
      if (ball_dir g =? 0) && (ball_y g <? 0) then set_ball g kBallX kBallY (ball_dir g)
      else if ball_dir g =? 0 then set_ball g (ball_x g) (ball_y g) 45
      else g
    else g in
  if (bar_x g =? 0) && (move_dir g <? 0) then set_move g 0
  else if (bar_x g + kBarWidth =? kCanvasWidth - 1) && (0 <? move_dir g) then set_move g 0
  else g.

Definition on_key (g : Game) (press keycode : Z) : Game :=
  if press =? 0 then set_move g 0 else key_pressed g keycode.

(** ** A frame *)

Definition move_bar (g : Game) : Game :=
  set_bar g (LimitRange (bar_x g + Z.quot (move_dir g * kBarSpeed) kFrameRate) 0 (kCanvasWidth - kBarWidth - 1)).

(** A ball on its way to [(x, y)] with direction [dir] meets a wall. *)
Definition at_wall (g : Game) (x dir : Z) : Z :=
  if ((ball_dx g <? 0) && (x <? kBallRadius)) || ((0 <? ball_dx g) && (kCanvasWidth - kBallRadius <=? x)) then 180 - dir else dir.

(** It meets the ceiling or the bar; [None] when it falls. *)
Definition at_bar (g : Game) (x y dir : Z) : option Z :=
  if (ball_dy g <? 0) && (y <? kBallRadius) then Some (- dir)
  else if (bar_x g <=? x) && (x <? bar_x g + kBarWidth) && (0 <? ball_dy g) && (kBarY - kBallRadius <=? y) then Some (- dir)
  else if (0 <? ball_dy g) && (kCanvasHeight - kBallRadius <=? y) then None
  else Some dir.

Definition block_row (l : list Z) (index_y : Z) : outcome Z := of_option (if index_y <? 0 then None else l !! Z.to_nat index_y).

(** [bitset] raises on an index outside. *)
Definition bit_in (i : Z) : outcome unit := if (0 <=? i) && (i <? kNumBlocksX) then mret tt else Undef.

(** [int] that overflows is undefined. *)
Definition in_int (z : Z) : outcome Z := if (- 2 ^ 31 <=? z) && (z <? 2 ^ 31) then mret z else Undef.

(** It meets a block. *)
Definition at_block (g : Game) (x y dir : Z) : outcome (list Z * Z) :=
  if (x <? kGapWidth) || (kCanvasWidth - kGapWidth <=? x) || (y <? kGapHeight) || (kGapHeight + kNumBlocksY * kBlockHeight <=? y)
  then mret (blocks g, dir)
  else
    let index_x := Z.quot (x - kGapWidth) kBlockWidth in
    let index_y := Z.quot (y - kGapHeight) kBlockHeight in
    row ← block_row (blocks g) index_y;
    _ ← bit_in index_x;
    if negb (Z.testbit row index_x) then mret (blocks g, dir)
    else
      let block_left := kGapWidth + index_x * kBlockWidth in
      let block_right := kGapWidth + (index_x + 1) * kBlockWidth in
      let block_top := kGapHeight + index_y * kBlockHeight in
      let block_bottom := kGapHeight + (index_y + 1) * kBlockHeight in
      dir ← in_int (if ((ball_x g <? block_left) && (block_left <=? x)) || ((block_right <? ball_x g) && (x <=? block_right))
                    then 180 - dir else dir);
      dir ← in_int (if ((ball_y g <? block_top) && (block_top <=? y)) || ((block_bottom <? ball_y g) && (y <=? block_bottom))
                    then - dir else dir);
      mret (<[Z.to_nat index_y := Z.clearbit row index_x]> (blocks g), dir).

Section blocks.
Context {K : Type} `{AppCalls K} `{LibM}.

Definition ball_vx (dir : Z) : outcome Z :=
  dround (ddiv (dmul (dbl kBallSpeed) (cos (radians dir))) (dbl kFrameRate)).
Definition ball_vy (dir : Z) : outcome Z :=
  dround (ddiv (dmul (dbl kBallSpeed) (sin (radians dir))) (dbl kFrameRate)).

(** The ball's part of a frame; it does not move while it rests. *)
Definition move_ball (g : Game) : outcome Game :=
  if ball_dir g =? 0 then mret g
  else
    let x := ball_x g + ball_dx g in
    let y := ball_y g + ball_dy g in
    dir ← in_int (at_wall g x (ball_dir g));
    match at_bar g x y dir with
    | None => mret (set_ball g (ball_x g) (-1) 0)
    | Some dir =>
        dir ← in_int dir;
        '(blocks, dir) ← at_block g x y dir;
        dx ← ball_vx dir;
        dy ← ball_vy dir;
        mret (mkGame blocks (bar_x g) (ball_x g + dx) (ball_y g + dy) (move_dir g) dir dx dy)
    end.

(** What comes after the events of a frame. *)
Definition advance (g : Game) : outcome Game := move_ball (move_bar g).

(** ** Drawing *)

Definition DrawBlock (layer_id : Z) (g : Game) (by_ bx : Z) : app K unit :=
  if block g bx by_ then
    let y := 24 + kGapHeight + by_ * kBlockHeight in
    let color := Z.shiftl 0xff (Z.rem by_ 3 * 8) in
    let x := 4 + kGapWidth + bx * kBlockWidth in
    fill_rect layer_id x y kBlockWidth kBlockHeight (Z.lor color (Z.shiftl 0xff (Z.rem (bx + by_) 3 * 8)))
  else mret tt.

Definition DrawBlocks (layer_id : Z) (g : Game) : app K unit :=
  each (λ by_, each (DrawBlock layer_id g by_) (seqZ 0 kNumBlocksX)) (seqZ 0 kNumBlocksY).

Definition DrawBar (layer_id bar_x : Z) : app K unit :=
  fill_rect layer_id (4 + bar_x) (24 + kBarY) kBarWidth kBarHeight 0xffffff.

Definition DrawBall (layer_id x y : Z) : app K unit :=
  _ ← fill_rect layer_id (4 + x - kBallRadius) (24 + y - kBallRadius) (2 * kBallRadius) (2 * kBallRadius) 0x007f00;
  fill_rect layer_id (4 + x - Z.quot kBallRadius 2) (24 + y - Z.quot kBallRadius 2) kBallRadius kBallRadius 0x00ff00.

Definition draw_game (layer_id : Z) (g : Game) : app K unit :=
  let flags := Z.lor layer_id LAYER_NO_REDRAW in
  _ ← fill_rect flags 4 24 kCanvasWidth kCanvasHeight 0;
  _ ← DrawBlocks flags g;
  _ ← DrawBar flags (bar_x g);
  _ ← (if 0 <=? ball_y g then DrawBall flags (ball_x g) (ball_y g) else mret tt);
  win_redraw layer_id.

(** ** The main loop *)

(** The events up to the frame's timeout; [None] when the window is closed. *)
Fixpoint blocks_events (fuel : nat) (last : option AppEvent) (g : Game) : app K (option Game) :=
  match fuel with
  | O => out_of_fuel
  | S fuel' =>
      '(_, event) ← read_event1 last;
      match event with
      | None => undefined
      | Some (evTimerTimeout _ _) => mret (Some g)
      | Some evQuit => mret None
      | Some (evKeyPush _ keycode _ press) => blocks_events fuel' event (on_key g press keycode)
      | Some _ => blocks_events fuel' event g
      end
  end.

(** [frames]: the most frames that are drawn. *)
Fixpoint blocks_loop (frames fuel : nat) (layer_id : Z) (g : Game) (prev_timeout : Z) : app K unit :=
  match frames with
  | O => out_of_fuel
  | S frames' =>
      _ ← draw_game layer_id g;
      prev_timeout ← next_frame (Z.quot 1000 kFrameRate) prev_timeout;
      g ← blocks_events fuel None g;
      match g with
      | None => mret tt
      | Some g => g ← pure_step (advance g); blocks_loop frames' fuel layer_id g prev_timeout
      end
  end.

Definition blocks_main (frames fuel : nat) : app K unit :=
  win ← sys (λ k, SyscallOpenWindow k (kCanvasWidth + 8) (kCanvasHeight + 28) 10 10 (chars "blocks"));
  if negb (res_error win =? 0) then exit (res_error win)
  else
    _ ← blocks_loop frames fuel (res_value win) new_Game 0;
    _ ← close_window (res_value win);
    exit 0.
End blocks.
