(* ===== verification/AppView.v ===== *)
(** The viewers: tview for text, src/apps/tview/tview.cpp, and gview for pictures,
    src/apps/gview/gview.cpp.  A pointer into the mapped file is an address. *)
From S2P Require Import Prelude Logger Font Syscall AppRuntime AppText AppDraw.

Section view.
Context {K : Type} `{AppCalls K} `{AppMemory K} `{Strerror}.

(** A byte of memory. *)
Definition load (a : Z) : app K Z := sys (λ k, load8 k a).

(** ** tview *)

(** [MapFile]: the descriptor, the address and the size. *)
Definition MapFile (filepath : list Z) : app K (Z * Z * Z) :=
  res ← sys (λ k, SyscallOpenFile k filepath O_RDONLY);
  if negb (res_error res =? 0) then
    _ ← fputs stderr_fd (strerror (res_error res) ++ chars ": " ++ filepath ++ [10]); exit 1
  else
    let fd := i32 (res_value res) in
    '(res, size) ← sys (λ k, SyscallMapFile k fd 0);
    if negb (res_error res =? 0) then _ ← fputs stderr_fd (strerror (res_error res) ++ [10]); exit 1
    else match size with None => undefined | Some filesize => mret (fd, res_value res, filesize) end.

Definition OpenTextWindow (w h : Z) (title : list Z) : app K Z :=
  win_w ← int (8 * w); win_w ← int (8 + win_w);
  win_h ← int (16 * h); win_h ← int (28 + win_h);
  res ← sys (λ k, SyscallOpenWindow k win_w win_h 10 10 title);
  if negb (res_error res =? 0) then _ ← fputs stderr_fd (strerror (res_error res) ++ [10]); exit 1
  else
    let layer_id := res_value res in
    _ ← fill_rect layer_id 3 23 (1 + 8 * w) 1 0x666666;
    _ ← fill_rect layer_id 3 24 1 (1 + 16 * h) 0x666666;
    _ ← fill_rect layer_id 4 (25 + 16 * h) (1 + 8 * w) 1 0xcccccc;
    _ ← fill_rect layer_id (5 + 8 * w) 24 1 (1 + 16 * h) 0xcccccc;
    mret layer_id.

(** [next_lf]: the next newline, or the end. *)
Fixpoint next_lf (fuel : nat) (s end_ : Z) : app K Z :=
  match fuel with
  | O => out_of_fuel
  | S fuel' =>
      if s <? end_ then c ← load s; if negb (c =? 10) then next_lf fuel' (s + 1) end_ else mret s
      else mret s
  end.

(** The loop of [FindLines]: one more line for each newline. *)
Fixpoint find_lines_loop (fuel : nat) (p lf end_ : Z) : app K (list (Z * Z)) :=
  match fuel with
  | O => out_of_fuel
  | S fuel' =>
      if lf <? end_ then
        let p' := lf + 1 in
        lf' ← next_lf fuel p' end_;
        lines ← find_lines_loop fuel' p' lf' end_;
        mret ((p, lf - p) :: lines)
      else mret (if p <? end_ then [(p, end_ - p)] else [])
  end.

(** [len + 1] steps are enough for each loop. *)
Definition FindLines (p len : Z) : app K (list (Z * Z)) :=
  let fuel := S (Z.to_nat len) in
  lf ← next_lf fuel p (p + len);
  find_lines_loop fuel p lf (p + len).

(** [memcpy] from memory. *)
Fixpoint load_bytes (n : nat) (a : Z) : app K (list Z) :=
  match n with
  | O => mret []
  | S n' => c ← load a; l ← load_bytes n' (a + 1); mret (c :: l)
  end.

(** [CopyUTF8String]: [dst] is what has been written so far; at the end comes the
    terminating zero. *)
Fixpoint copy_utf8_loop (fuel : nat) (dst : list Z) (dst_size src src_end w tab x : Z) : app K (list Z) :=
  match fuel with
  | O => out_of_fuel
  | S fuel' =>
      ch ← load src;
      if ch =? 0 then mret dst
      else if ch =? 9 then
        if tab =? 0 then undefined
        else
          spaces ← int (tab - Z.rem x tab);
          if dst_size <=? Z.of_nat (length dst) + spaces then mret dst
          else if spaces <? 0 then undefined
          else
            x ← int (x + spaces);
            copy_utf8_loop fuel' (dst ++ replicate (Z.to_nat spaces) 32) dst_size (src + 1) src_end w tab x
      else
        x ← int (if u8 ch <? 0x80 then x + 1 else x + 2);
        if w <=? x then mret dst
        else
          let c := CountUTF8Size (u8 ch) in
          if (src_end <? src + c) || (dst_size <=? Z.of_nat (length dst) + c) then mret dst
          else
            bytes ← load_bytes (Z.to_nat c) src;
            copy_utf8_loop fuel' (dst ++ bytes) dst_size (src + c) src_end w tab x
  end.

(** Every step takes a place of [dst] or a column. *)
Definition CopyUTF8String (dst_size src src_size w tab : Z) : app K (list Z) :=
  copy_utf8_loop (S (Z.to_nat dst_size + Z.to_nat w)) [] dst_size src (src + src_size) w tab 0.

Definition draw_line_at (lines : list (Z * Z)) (start_line layer_id w tab i : Z) : app K unit :=
  line_index ← int (start_line + i);
  match (if line_index <? 0 then None else lines !! Z.to_nat line_index) with
  | None => mret tt
  | Some (line, line_len) =>
      buf ← CopyUTF8String 1024 line line_len w tab;
      write_string layer_id 4 (24 + 16 * i) 0x000000 buf
  end.

Definition DrawLines (lines : list (Z * Z)) (start_line layer_id w h tab : Z) : app K unit :=
  _ ← fill_rect layer_id 4 24 (8 * w) (16 * h) 0xffffff;
  each (draw_line_at lines start_line layer_id w tab) (seqZ 0 h).

Definition read_event_failed (err : Z) : list Z := chars "ReadEvent failed: " ++ strerror err ++ [10].

(** [WaitEvent]: whether to quit, and the key code. *)
Fixpoint WaitEvent (fuel : nat) (last : option AppEvent) : app K (bool * Z) :=
  match fuel with
  | O => out_of_fuel
  | S fuel' =>
      '(err, event) ← read_event1 last;
      if negb (err =? 0) then _ ← fputs stderr_fd (read_event_failed err); mret (false, 0)
      else
        match event with
        | None => undefined
        | Some evQuit => mret (true, 0)
        | Some (evKeyPush _ keycode _ press) => if negb (press =? 0) then mret (false, keycode) else WaitEvent fuel' event
        | Some _ => WaitEvent fuel' event
        end
  end.

(** What a key does to the first line; null for the keys that do nothing.
    [num_lines] is unsigned, so that [int]s are converted where they meet it. *)
Definition scroll (start_line height num_lines keycode : Z) : option Z :=
  if num_lines <? u64 height then None
  else
    let diff := if keycode =? 75 then Some (Z.quot (- height) 2) else if keycode =? 78 then Some (Z.quot height 2)
                else if keycode =? 81 then Some 1 else if keycode =? 82 then Some (-1) else None in
    match diff with
    | None => None
    | Some diff =>
        let last := u64 (num_lines - height) in
        if (diff <? 0) && (start_line =? 0) || (0 <? diff) && (u64 start_line =? last) then None
        else
          let s := start_line + diff in
          Some (if s <? 0 then 0 else if last <? u64 s then i32 last else s)
    end.

(** [UpdateStartLine]: whether to quit, and the new first line. *)
Fixpoint UpdateStartLine (fuel : nat) (start_line height num_lines : Z) : app K (bool * Z) :=
  match fuel with
  | O => out_of_fuel
  | S fuel' =>
      '(quit, keycode) ← WaitEvent fuel None;
      if quit : bool then mret (true, start_line)
      else
        match scroll start_line height num_lines keycode with
        | None => UpdateStartLine fuel' start_line height num_lines
        | Some start_line => mret (false, start_line)
        end
  end.

(** What repeated calls of the C library's [getopt] return, each with [optarg], and
    the last [optind]. *)
Context (getopt : list (list Z) → list Z → list (Z * list Z) * nat).

(** The loop over the options: width, height and tabulator, or a bad option. *)
Fixpoint options (opts : list (Z * list Z)) (o : Z * Z * Z) : option (Z * Z * Z) :=
  match opts with
  | [] => Some o
  | (opt, optarg) :: opts =>
      let '(width, height, tab) := o in
      if opt =? 119 then options opts (atoi optarg, height, tab)
      else if opt =? 104 then options opts (width, atoi optarg, tab)
      else if opt =? 116 then options opts (width, height, atoi optarg)
      else None
  end.

(** [strrchr(filepath, '/')] *)
Fixpoint after_slash (path best : list Z) : list Z :=
  match path with
  | [] => best
  | c :: path => if c =? 47 then after_slash path path else after_slash path best
  end.

Fixpoint tview_loop (fuel : nat) (lines : list (Z * Z)) (start_line layer_id width height tab : Z) : app K unit :=
  match fuel with
  | O => out_of_fuel
  | S fuel' =>
      _ ← DrawLines lines start_line layer_id width height tab;
      '(quit, start_line) ← UpdateStartLine fuel start_line height (Z.of_nat (length lines));
      if quit : bool then mret tt else tview_loop fuel' lines start_line layer_id width height tab
  end.

Definition print_help (argv : list (list Z)) : app K unit :=
  name ← arg_at argv 0; fputs stderr_fd (chars "Usage: " ++ name ++ chars " [-w WIDTH] [-h HEIGHT] [-t TAB] <file>" ++ [10]).

Definition tview_main (fuel : nat) (argv : list (list Z)) : app K unit :=
  let '(opts, optind) := getopt argv (chars "w:h:t:") in
  match options opts (80, 20, 8) with
  | None => _ ← print_help argv; exit 1
  | Some (width, height, tab) =>
      match argv !! optind with
      | None => _ ← print_help argv; exit 1
      | Some filepath =>
          '(_, content, filesize) ← MapFile filepath;
          layer_id ← OpenTextWindow width height (after_slash filepath filepath);
          lines ← FindLines content filesize;
          _ ← tview_loop fuel lines 0 layer_id width height tab;
          _ ← close_window layer_id;
          exit 0
      end
  end.

(** ** gview *)
Context `{ImageDecoder K}.

Fixpoint gview_WaitEvent (fuel : nat) (last : option AppEvent) : app K unit :=
  match fuel with
  | O => out_of_fuel
  | S fuel' =>
      '(err, event) ← read_event1 last;
      if negb (err =? 0) then fputs stderr_fd (read_event_failed err)
      else
        match event with
        | None => undefined
        | Some evQuit => mret tt
        | Some _ => gview_WaitEvent fuel' event
        end
  end.

Definition image_byte (data : list Z) (i : Z) : outcome Z := of_option (if i <? 0 then None else data !! Z.to_nat i).

Definition GetColorRGB (data : list Z) (i : Z) : outcome Z :=
  r ← image_byte data i; g ← image_byte data (i + 1); b ← image_byte data (i + 2);
  mret (Z.lor (Z.lor (Z.shiftl r 16) (Z.shiftl g 8)) b).

Definition GetColorGray (data : list Z) (i : Z) : outcome Z :=
  gray ← image_byte data i; mret (Z.lor (Z.lor (Z.shiftl gray 16) (Z.shiftl gray 8)) gray).

Definition get_color (bytes_per_pixel : Z) : list Z → Z → outcome Z :=
  if bytes_per_pixel <=? 2 then GetColorGray else GetColorRGB.

Definition draw_pixel (layer_id width bytes_per_pixel : Z) (data : list Z) (y x : Z) : app K unit :=
  i ← int (bytes_per_pixel * (y * width + x));
  c ← pure_step (get_color bytes_per_pixel data i);
  fill_rect (Z.lor layer_id LAYER_NO_REDRAW) (4 + x) (24 + y) 1 1 c.

Definition gview_main (fuel : nat) (argv : list (list Z)) : app K unit :=
  if Z.of_nat (length argv) <? 2 then
    name ← arg_at argv 0; _ ← fputs stderr_fd (chars "Usage: " ++ name ++ chars " <file>" ++ [10]); exit 1
  else
    filepath ← arg_at argv 1;
    '(_, content, filesize) ← MapFile filepath;
    image ← sys (λ k, stbi_load_from_memory k content filesize);
    match image with
    | inr reason => _ ← fputs stderr_fd (chars "failed to load image: " ++ reason ++ [10]); exit 1
    | inl (width, height, bytes_per_pixel, data) =>
        _ ← fputs stderr_fd (fmt_d width ++ chars "x" ++ fmt_d height ++ chars ", " ++ fmt_d bytes_per_pixel ++
                             chars " bytes/pixel" ++ [10]);
        win ← sys (λ k, SyscallOpenWindow k (8 + width) (28 + height) 10 10 (after_slash filepath filepath));
        if negb (res_error win =? 0) then _ ← fputs stderr_fd (strerror (res_error win) ++ [10]); exit 1
        else
          let layer_id := res_value win in
          _ ← each (λ y, each (draw_pixel layer_id width bytes_per_pixel data y) (seqZ 0 width)) (seqZ 0 height);
          _ ← win_redraw layer_id;
          _ ← gview_WaitEvent fuel None;
          _ ← close_window layer_id;
          exit 0
    end.
End view.
