(* ===== verification/AppDrawFacts.v ===== *)
(** What the drawing applications show: a script of events goes in, a list of
    drawing calls comes out.  The game stays within its canvas, a text viewer shows
    the lines it should, a picture is drawn pixel by pixel. *)
From stdpp Require Import sorting.
From S2P Require Import Prelude Logger Font Syscall AppRuntime AppText AppTextFacts AppDraw AppCube AppBlocks AppView.
Import StreamFacts.

(** ** Events and drawings *)
Module ScreenFacts.

Inductive drawing : Set :=
| Fill (layer x y w h color : Z)
| Text (layer x y color : Z) (text : list Z)
| Line (layer x0 y0 x1 y1 color : Z)
| Redraw (layer : Z)
| Close (layer : Z).

(** What has changed: drawings were added, events taken, memory is as before. *)
Record changed {K} (pending : K → list AppEvent) (shown : K → list drawing) (memory : K → Z → option Z)
    (k : K) (es : list AppEvent) (ds : list drawing) (k' : K) : Prop := {
  ch_pending : pending k = es ++ pending k';
  ch_shown : shown k' = shown k ++ ds;
  ch_memory a : memory k' a = memory k a;
}.

(** What the applications rely on: the calls for drawing return, [ReadEvent] gives
    the next event of those to come, bytes of mapped files can be read. *)
Class ScreenLaws (K : Type) `{AppCalls K} `{AppMemory K} := {
  pending : K → list AppEvent;
  shown : K → list drawing;
  memory : K → Z → option Z;
  fill_law k layer x y w h c : ∃ r k', SyscallWinFillRectangle k layer x y w h c = Done (r, k') ∧
    changed pending shown memory k [] [Fill layer x y w h c] k';
  text_law k layer x y c s : ∃ r k', SyscallWinWriteString k layer x y c s = Done (r, k') ∧
    changed pending shown memory k [] [Text layer x y c s] k';
  line_law k layer x0 y0 x1 y1 c : ∃ r k', SyscallWinDrawLine k layer x0 y0 x1 y1 c = Done (r, k') ∧
    changed pending shown memory k [] [Line layer x0 y0 x1 y1 c] k';
  redraw_law k layer : ∃ r k', SyscallWinRedraw k layer = Done (r, k') ∧ changed pending shown memory k [] [Redraw layer] k';
  close_law k layer : ∃ r k', SyscallCloseWindow k layer = Done (r, k') ∧ changed pending shown memory k [] [Close layer] k';
  timer_law k type value ms : ∃ r k', SyscallCreateTimer k type value ms = Done (r, k') ∧ changed pending shown memory k [] [] k';
  print_law k fd bytes : ∃ k', SyscallPutString k fd bytes = Done (mkResult (Z.of_nat (length bytes)) 0, k') ∧
    changed pending shown memory k [] [] k';
  event_law k e es : pending k = e :: es → ∃ k', SyscallReadEvent k 1 = Done (mkResult 1 0, [e], k') ∧
    changed pending shown memory k [e] [] k';
  load_law k a c : memory k a = Some c → ∃ k', load8 k a = Done (c, k') ∧ changed pending shown memory k [] [] k';
}.

Section screen.
Context {K : Type} `{SL : ScreenLaws K}.
Implicit Types p : Proc K.

Definition ran p (es : list AppEvent) (ds : list drawing) p' : Prop := changed pending shown memory (os p) es ds (os p').

Lemma ran_refl p : ran p [] [] p.
Proof. split; [done|by rewrite app_nil_r|done]. Qed.
Lemma ran_trans p1 p2 p3 es1 es2 ds1 ds2 : ran p1 es1 ds1 p2 → ran p2 es2 ds2 p3 → ran p1 (es1 ++ es2) (ds1 ++ ds2) p3.
Proof.
  intros [A1 B1 C1] [A2 B2 C2]. split; [by rewrite A1, A2, app_assoc|by rewrite B2, B1, app_assoc|intros a; by rewrite C2].
Qed.
Lemma ran_trans_draw p1 p2 p3 ds1 ds2 : ran p1 [] ds1 p2 → ran p2 [] ds2 p3 → ran p1 [] (ds1 ++ ds2) p3.
Proof. exact (ran_trans p1 p2 p3 [] [] ds1 ds2). Qed.

(** A piece of an application that returns [x], having drawn [ds] and taken [es]. *)
Definition shows {A} (m : app K A) p (x : A) (es : list AppEvent) (ds : list drawing) : Prop :=
  ∃ p', runs m p x p' ∧ ran p es ds p'.

Lemma shows_ret {A} (x : A) p : shows (mret x) p x [] [].
Proof. exists p. split; [done|apply ran_refl]. Qed.

(** What comes after a piece may rely on what the piece leaves. *)
Lemma shows_bind {A B} (m : app K A) (f : A → app K B) p x y es1 ds1 es2 ds2 :
  shows m p x es1 ds1 → (∀ p', ran p es1 ds1 p' → shows (f x) p' y es2 ds2) → shows (z ← m; f z) p y (es1 ++ es2) (ds1 ++ ds2).
Proof.
  intros (p1 & E1 & R1) Hf. destruct (Hf p1 R1) as (p2 & E2 & R2). exists p2. split; [|by eapply ran_trans].
  unfold runs. by rewrite (runs_bind _ _ _ _ _ E1).
Qed.

Lemma shows_bind0 {A B} (m : app K A) (f : A → app K B) p x y es ds :
  shows m p x [] [] → (∀ p', ran p [] [] p' → shows (f x) p' y es ds) → shows (z ← m; f z) p y es ds.
Proof. exact (shows_bind m f p x y [] [] es ds). Qed.

Lemma shows_eq {A} (m : app K A) p x x' es ds ds' : shows m p x es ds → x = x' → ds = ds' → shows m p x' es ds'.
Proof. by intros ? <- <-. Qed.

(** A drawing call whose result is dropped. *)
Lemma call_shows p (f : K → outcome (Result * K)) ds :
  (∃ r k', f (os p) = Done (r, k') ∧ changed pending shown memory (os p) [] ds k') → shows (_ ← sys f; mret tt) p tt [] ds.
Proof.
  intros (r & k' & E & C). exists (mkProc k' (errno p) (dpage_end p) (program_break p)). split; [|exact C].
  unfold runs, sys, mbind, app_bind, outcome_bind. by rewrite E.
Qed.

Lemma fill_shows p layer x y w h c : shows (fill_rect layer x y w h c) p tt [] [Fill layer x y w h c].
Proof using SL. apply call_shows, fill_law. Qed.
Lemma write_string_shows p layer x y c s : shows (write_string layer x y c s) p tt [] [Text layer x y c s].
Proof using SL. apply call_shows, text_law. Qed.
Lemma redraw_shows p layer : shows (win_redraw layer) p tt [] [Redraw layer].
Proof using SL. apply call_shows, redraw_law. Qed.
Lemma close_shows p layer : shows (close_window layer) p tt [] [Close layer].
Proof using SL. apply call_shows, close_law. Qed.

Lemma read_event_shows p last e es : pending (os p) = e :: es → shows (read_event1 last) p (0, Some e) [e] [].
Proof using SL.
  intros Hp. destruct (event_law (os p) e es Hp) as (k' & E & C).
  exists (mkProc k' (errno p) (dpage_end p) (program_break p)). split; [|exact C].
  unfold runs, read_event1, sys, mbind, app_bind, outcome_bind. by rewrite E.
Qed.

Lemma load_shows p a c : memory (os p) a = Some c → shows (load a) p c [] [].
Proof using SL.
  intros Hm. destruct (load_law (os p) a c Hm) as (k' & E & C).
  exists (mkProc k' (errno p) (dpage_end p) (program_break p)). split; [|exact C].
  unfold runs, load, sys, mbind, outcome_bind. by rewrite E.
Qed.

Lemma int_runs p z : - 2 ^ 31 ≤ z < 2 ^ 31 → runs (int z) p z p.
Proof. intros Hz. unfold int. destruct (Z.leb_spec (- 2 ^ 31) z); [|lia]. by destruct (Z.ltb_spec z (2 ^ 31)); [|lia]. Qed.
Lemma int_shows p z : - 2 ^ 31 ≤ z < 2 ^ 31 → shows (int z) p z [] [].
Proof. intros Hz. exists p. split; [by apply int_runs|apply ran_refl]. Qed.

Lemma pure_shows {A} p (o : outcome A) x : o = Done x → shows (pure_step o) p x [] [].
Proof. intros ->. apply shows_ret. Qed.

Lemma fputs_shows p fd text : shows (fputs fd text) p tt [] [].
Proof using SL.
  unfold fputs, fwrite.
  assert (Hgen : ∀ fuel bytes written p, (length bytes ≤ fuel)%nat → ∃ n, shows (fwrite_loop fuel fd bytes written) p n [] []).
  { induction fuel as [|fuel IH]; intros [|c bytes] written q Hl; try (simpl in Hl; lia);
      try (eexists; apply shows_ret).
    cbn [fwrite_loop]. destruct (print_law (os q) fd (take (Z.to_nat BUFSIZ) (c :: bytes))) as (k' & E & C).
    set (q' := mkProc k' (errno q) (dpage_end q) (program_break q)).
    assert (Ew : shows (write fd (take (Z.to_nat BUFSIZ) (c :: bytes))) q (Z.of_nat (length (take (Z.to_nat BUFSIZ) (c :: bytes)))) [] []).
    { exists q'. split; [|exact C]. unfold runs, write, sys, mbind, app_bind, outcome_bind. by rewrite E. }
    assert (Hpos : (0 < length (take (Z.to_nat BUFSIZ) (c :: bytes)) ≤ length (c :: bytes))%nat).
    { rewrite length_take. change (Z.to_nat BUFSIZ) with 1024%nat. cbn [length] in *. lia. }
    set (n := length (take (Z.to_nat BUFSIZ) (c :: bytes))) in *.
    destruct (IH (drop (Z.to_nat (Z.of_nat n)) (c :: bytes)) (written + Z.of_nat n) q') as (m & Hm).
    { rewrite length_drop, Nat2Z.id. cbn [length] in *. lia. }
    exists m. destruct Ew as (q1 & E1 & R1).
    assert (q1 = q') as -> by (unfold runs in E1; unfold write, sys, mbind, app_bind, outcome_bind in E1; rewrite E in E1; by injection E1).
    destruct Hm as (q2 & E2 & R2). exists q2. split; [|exact (ran_trans_draw _ _ _ _ _ R1 R2)].
    unfold runs. rewrite (runs_bind _ _ _ _ _ E1). destruct (Z.leb_spec (Z.of_nat n) 0); [lia|exact E2]. }
  destruct (Hgen (length text) text 0 p) as (n & Hn); [done|].
  eapply shows_bind0; [exact Hn|]. intros. apply shows_ret.
Qed.

(** A loop whose turns draw. *)
Lemma each_shows {A} (f : A → app K unit) (ds : A → list drawing) (I : Proc K → Prop) l p :
  (∀ p p' ds, I p → ran p [] ds p' → I p') → I p → (∀ x p, x ∈ l → I p → shows (f x) p tt [] (ds x)) →
  shows (each f l) p tt [] (concat (map ds l)).
Proof.
  intros HI. revert p. induction l as [|x l IH]; intros p Hp Hf; [apply shows_ret|]. cbn [each map concat].
  eapply (shows_bind _ _ _ _ _ [] _ [] _); [apply Hf; [set_solver|done]|]. intros p' R.
  apply IH; [by eapply HI|]. intros. apply Hf; [set_solver|done].
Qed.
End screen.
End ScreenFacts.
Import ScreenFacts.

(** ** The game *)
Module GameFacts.

(** A direction along a diagonal, and the step that belongs to it. *)
Definition diagonal (d : Z) : Prop := d mod 90 = 45.
Definition step_x (d : Z) : Z := if (d mod 360 =? 45) || (d mod 360 =? 315) then 2 else -2.
Definition step_y (d : Z) : Z := if (d mod 360 =? 45) || (d mod 360 =? 135) then 2 else -2.

Lemma mod_360 d r : 0 ≤ r < 360 → (∃ q, d = 360 * q + r) → d mod 360 = r.
Proof. intros Hr [q ->]. rewrite Z.add_comm, Z.mul_comm, Z.mod_add by lia. by apply Z.mod_small. Qed.

Lemma diagonal_cases d : diagonal d → ∃ q, d = 360 * q + 45 ∨ d = 360 * q + 135 ∨ d = 360 * q + 225 ∨ d = 360 * q + 315.
Proof. unfold diagonal. intros Hd. exists (d / 360). Z.div_mod_to_equations. lia. Qed.

(** Turning round at a wall, at the ceiling or the bar. *)
Lemma mirror_x d : diagonal d → diagonal (180 - d) ∧ step_x (180 - d) = - step_x d ∧ step_y (180 - d) = step_y d.
Proof.
  intros (q & [-> | [-> | [-> | ->]]])%diagonal_cases; unfold diagonal, step_x, step_y; (split; [Z.div_mod_to_equations; lia|]).
  - rewrite (mod_360 _ 135), (mod_360 (_ + 45) 45) by (try lia; first [exists (- q); lia|exists q; lia]). done.
  - rewrite (mod_360 _ 45), (mod_360 (_ + 135) 135) by (try lia; first [exists (- q); lia|exists q; lia]). done.
  - rewrite (mod_360 _ 315), (mod_360 (_ + 225) 225) by (try lia; first [exists (- q - 1); lia|exists q; lia]). done.
  - rewrite (mod_360 _ 225), (mod_360 (_ + 315) 315) by (try lia; first [exists (- q - 1); lia|exists q; lia]). done.
Qed.

Lemma mirror_y d : diagonal d → diagonal (- d) ∧ step_x (- d) = step_x d ∧ step_y (- d) = - step_y d.
Proof.
  intros (q & [-> | [-> | [-> | ->]]])%diagonal_cases; unfold diagonal, step_x, step_y; (split; [Z.div_mod_to_equations; lia|]).
  - rewrite (mod_360 _ 315), (mod_360 (_ + 45) 45) by (try lia; first [exists (- q - 1); lia|exists q; lia]). done.
  - rewrite (mod_360 _ 225), (mod_360 (_ + 135) 135) by (try lia; first [exists (- q - 1); lia|exists q; lia]). done.
  - rewrite (mod_360 _ 135), (mod_360 (_ + 225) 225) by (try lia; first [exists (- q - 1); lia|exists q; lia]). done.
  - rewrite (mod_360 _ 45), (mod_360 (_ + 315) 315) by (try lia; first [exists (- q - 1); lia|exists q; lia]). done.
Qed.

Lemma step_x_cases d : step_x d = 2 ∨ step_x d = -2.
Proof. unfold step_x. destruct (_ || _); auto. Qed.
Lemma step_y_cases d : step_y d = 2 ∨ step_y d = -2.
Proof. unfold step_y. destruct (_ || _); auto. Qed.

(** The ball rests or has been lost, waits for its first step, or is under way
    within the canvas, having turned at most twice in each of [n] frames. *)
Inductive ball_ok (n : Z) (g : Game) : Prop :=
| ball_rests : ball_dir g = 0 → ball_y g = -1 ∨ ball_x g = kBallX ∧ ball_y g = kBallY → ball_ok n g
| ball_starts : ball_dir g = 45 → ball_x g = kBallX → ball_y g = kBallY → ball_ok n g
| ball_flies : diagonal (ball_dir g) → Z.abs (ball_dir g) ≤ 45 + 360 * n → 5 ≤ ball_x g < 255 → 5 ≤ ball_y g < 170 →
    ball_dx g = step_x (ball_dir g) → ball_dy g = step_y (ball_dir g) → ball_ok n g.

Record game_ok (n : Z) (g : Game) : Prop := {
  gk_count : 0 ≤ n;
  gk_rows : length (blocks g) = 5%nat;
  gk_bar : 0 ≤ bar_x g ≤ 229;
  gk_move : -1 ≤ move_dir g ≤ 1;
  gk_steps : -2 ≤ ball_dx g ≤ 2 ∧ -2 ≤ ball_dy g ≤ 2;
  gk_ball : ball_ok n g;
}.

(** Blocks only disappear. *)
Definition fewer (g g' : Game) : Prop := ∀ x y, block g' x y = true → block g x y = true.

Lemma fewer_refl g : fewer g g.
Proof. by intros x y. Qed.
Lemma fewer_same g g' : blocks g' = blocks g → fewer g g'.
Proof. intros E x y. unfold block. by rewrite E. Qed.
Lemma fewer_trans g1 g2 g3 : fewer g1 g2 → fewer g2 g3 → fewer g1 g3.
Proof. intros H1 H2 x y Hb. auto. Qed.

Lemma new_Game_ok : game_ok 0 new_Game.
Proof. split; [lia|done|by vm_compute|done|done|]. apply ball_rests; [done|by right]. Qed.

Lemma set_move_ok n g d : game_ok n g → -1 ≤ d ≤ 1 → game_ok n (set_move g d).
Proof.
  intros [Hn Hr Hb _ Hs Hball] Hd. split; try done. destruct Hball; [by apply ball_rests|by apply ball_starts|by apply ball_flies].
Qed.

Lemma set_ball_ok n g x y d : game_ok n g → ball_ok n (set_ball g x y d) → game_ok n (set_ball g x y d).
Proof. intros [Hn Hr Hb Hm Hs _] Hball. by split. Qed.

Lemma on_key_ok n g press keycode : game_ok n g → game_ok n (on_key g press keycode) ∧ fewer g (on_key g press keycode).
Proof.
  intros Hg. unfold on_key. destruct (press =? 0); [split; [by apply set_move_ok|by apply fewer_same]|]. unfold key_pressed.
  set (g1 := if keycode =? 79 then _ else _).
  assert (H1 : game_ok n g1 ∧ fewer g g1).
  { subst g1. destruct (keycode =? 79); [split; [by apply set_move_ok|by apply fewer_same]|].
    destruct (keycode =? 80); [split; [by apply set_move_ok|by apply fewer_same]|].
    destruct (keycode =? 44); [|split; [done|apply fewer_refl]]. destruct (Z.eqb_spec (ball_dir g) 0) as [E|E]; [|split; [done|apply fewer_refl]]. cbn [andb].
    destruct (Z.ltb_spec (ball_y g) 0); (split; [apply set_ball_ok; [done|]|by apply fewer_same]).
    - apply ball_rests; [done|by right].
    - destruct (gk_ball _ _ Hg) as [_ [Hy | [Hx Hy]]|Hd|Hd]; [lia|by apply ball_starts|lia|]. by rewrite E in Hd. }
  destruct H1 as [H1 F1]. clearbody g1. destruct (_ && _); [split; [by apply set_move_ok|done]|].
  destruct (_ && _); [split; [by apply set_move_ok|done]|by split].
Qed.

Lemma move_bar_ok n g : game_ok n g → game_ok n (move_bar g).
Proof.
  intros [Hn Hr Hb Hm Hs Hball]. split; try done.
  - cbn [move_bar set_bar bar_x]. change (kCanvasWidth - kBarWidth - 1) with 229. unfold LimitRange.
    destruct (Z.ltb_spec (bar_x g + Z.quot (move_dir g * kBarSpeed) kFrameRate) 0); [lia|].
    destruct (Z.ltb_spec 229 (bar_x g + Z.quot (move_dir g * kBarSpeed) kFrameRate)); lia.
  - destruct Hball; [by apply ball_rests|by apply ball_starts|by apply ball_flies].
Qed.

Lemma in_int_ok z : - 2 ^ 31 ≤ z < 2 ^ 31 → in_int z = Done z.
Proof. intros Hz. unfold in_int. destruct (Z.leb_spec (- 2 ^ 31) z); [|lia]. destruct (Z.ltb_spec z (2 ^ 31)); [done|lia]. Qed.

(** At a wall the ball turns round exactly when its next place is outside. *)
Lemma at_wall_ok g : diagonal (ball_dir g) → ball_dx g = step_x (ball_dir g) → 5 ≤ ball_x g < 255 →
  let d := at_wall g (ball_x g + ball_dx g) (ball_dir g) in
  diagonal d ∧ step_y d = step_y (ball_dir g) ∧ Z.abs d ≤ Z.abs (ball_dir g) + 180 ∧ 5 ≤ ball_x g + step_x d < 255.
Proof.
  intros Hd Hdx Hx. destruct (mirror_x _ Hd) as (M1 & M2 & M3). unfold at_wall, kCanvasWidth, kBallRadius. cbn [kNumBlocksX].
  change (kNumBlocksX * kBlockWidth + 2 * kGapWidth - 5) with 255. rewrite Hdx.
  destruct (Z.ltb_spec (step_x (ball_dir g)) 0), (Z.ltb_spec (ball_x g + step_x (ball_dir g)) 5),
    (Z.ltb_spec 0 (step_x (ball_dir g))), (Z.leb_spec 255 (ball_x g + step_x (ball_dir g))); cbn [andb orb];
    destruct (step_x_cases (ball_dir g)); try lia; (split; [done|]); (split; [done|]); rewrite ?M2; lia.
Qed.

(** The ceiling and the bar turn it back; past the bar it falls. *)
Lemma at_bar_ok g x d : diagonal d → step_y d = ball_dy g → 5 ≤ ball_y g < 170 →
  at_bar g x (ball_y g + ball_dy g) d = None ∨
  ∃ d', at_bar g x (ball_y g + ball_dy g) d = Some d' ∧ diagonal d' ∧ step_x d' = step_x d ∧ Z.abs d' = Z.abs d ∧
    5 ≤ ball_y g + step_y d' < 170.
Proof.
  intros Hd Hdy Hy. destruct (mirror_y _ Hd) as (M1 & M2 & M3). destruct (step_y_cases d) as [Ey|Ey].
  - unfold at_bar. rewrite <- Hdy, Ey. cbn [Z.ltb Z.compare andb].
    change (kBarY - kBallRadius) with 155. change (kCanvasHeight - kBallRadius) with 170.
    destruct (Z.leb_spec (bar_x g) x), (Z.ltb_spec x (bar_x g + kBarWidth)), (Z.leb_spec 155 (ball_y g + 2)),
      (Z.leb_spec 170 (ball_y g + 2)); cbn [andb]; auto; right; eexists; (split; [reflexivity|]);
      split_and!; rewrite ?M3, ?Ey; try done; lia.
  - unfold at_bar. rewrite <- Hdy, Ey. cbn [Z.ltb Z.compare andb]. rewrite !andb_false_r. cbn [andb].
    change kBallRadius with 5. right.
    destruct (Z.ltb_spec (ball_y g + -2) 5); eexists; (split; [reflexivity|]); split_and!; rewrite ?M3, ?Ey; try done; lia.
Qed.

(** A block is hit inside the field of blocks; it is the only one that goes. *)
Lemma at_block_ok g x y d : length (blocks g) = 5%nat → diagonal d → Z.abs d ≤ 2 ^ 31 - 200 →
  ∃ bl d', at_block g x y d = Done (bl, d') ∧ length bl = 5%nat ∧ diagonal d' ∧ Z.abs d' ≤ Z.abs d + 180 ∧
    (∀ i r, bl !! i = Some r → ∃ r', blocks g !! i = Some r' ∧ ∀ j, Z.testbit r j = true → Z.testbit r' j = true) ∧
    (d' = d ∨ 30 ≤ x < 230 ∧ 30 ≤ y < 80).
Proof.
  intros Hlen Hd Hsize. unfold at_block. change (kCanvasWidth - kGapWidth) with 230. change kGapWidth with 30.
  change kGapHeight with 30. change (30 + kNumBlocksY * kBlockHeight) with 80.
  assert (Hsame : ∃ bl d', mret (blocks g, d) = Done (bl, d') ∧ length bl = 5%nat ∧ diagonal d' ∧ Z.abs d' ≤ Z.abs d + 180 ∧
    (∀ i r, bl !! i = Some r → ∃ r', blocks g !! i = Some r' ∧ ∀ j, Z.testbit r j = true → Z.testbit r' j = true) ∧
    (d' = d ∨ 30 ≤ x < 230 ∧ 30 ≤ y < 80)).
  { exists (blocks g), d. split_and!; try done; [lia| |by left]. intros i r Er. by exists r. }
  destruct (Z.ltb_spec x 30); [done|]. destruct (Z.leb_spec 230 x); [done|].
  destruct (Z.ltb_spec y 30); [done|]. destruct (Z.leb_spec 80 y); [done|]. cbn [orb].
  change kBlockWidth with 20. change kBlockHeight with 10. rewrite !Z.quot_div_nonneg by lia.
  set (ix := (x - 30) / 20). set (iy := (y - 30) / 10).
  assert (0 ≤ ix < 10 ∧ 0 ≤ iy < 5) by (subst ix iy; Z.div_mod_to_equations; lia).
  unfold block_row. destruct (Z.ltb_spec iy 0); [lia|]. destruct (lookup_lt_is_Some_2 (blocks g) (Z.to_nat iy)) as [row Erow]; [lia|].
  rewrite Erow. cbn [of_option mbind outcome_bind]. unfold bit_in. change kNumBlocksX with 10.
  destruct (Z.leb_spec 0 ix); [|lia]. destruct (Z.ltb_spec ix 10); [|lia]. cbn [andb mret outcome_ret].
  destruct (Z.testbit row ix) eqn:Ebit; cbn [negb]; [|done]. cbv zeta.
  match goal with |- context [in_int (if ?c then 180 - d else d)] => set (b1 := c) end.
  set (d1 := if b1 then 180 - d else d).
  assert (Hf1 : diagonal d1 ∧ Z.abs d1 ≤ Z.abs d + 180).
  { subst d1. destruct b1; [|split; [done|lia]]. split; [by apply mirror_x|lia]. }
  rewrite (in_int_ok d1) by lia. cbn [mbind outcome_bind].
  match goal with |- context [in_int (if ?c then - d1 else d1)] => set (b2 := c) end.
  set (d2 := if b2 then - d1 else d1).
  assert (Hf2 : diagonal d2 ∧ Z.abs d2 = Z.abs d1).
  { subst d2. destruct b2; [|split; [apply Hf1|done]]. split; [apply mirror_y, Hf1|lia]. }
  rewrite (in_int_ok d2) by lia. cbn [mbind outcome_bind]. eexists _, d2. split; [reflexivity|]. split_and!.
  - by rewrite length_insert.
  - apply Hf2.
  - lia.
  - intros i r Er. destruct (decide (i = Z.to_nat iy)) as [->|Hne].
    + rewrite list_lookup_insert_eq in Er by lia. injection Er as <-. exists row. split; [done|].
      intros j Hj. rewrite Z.clearbit_spec' in Hj. rewrite Z.ldiff_spec in Hj. by apply andb_true_iff in Hj as [Hj _].
    + rewrite list_lookup_insert_ne in Er by done. by exists r.
  - right. lia.
Qed.

(** The velocities: cosine and sine are right for the directions of [n] frames. *)
Class TrigLaws (N : Z) `{LibM} := {
  vx_law d : diagonal d → Z.abs d ≤ 45 + 360 * N → ball_vx d = Done (step_x d);
  vy_law d : diagonal d → Z.abs d ≤ 45 + 360 * N → ball_vy d = Done (step_y d);
}.

Lemma fewer_rows g g' :
  (∀ i r, blocks g' !! i = Some r → ∃ r', blocks g !! i = Some r' ∧ ∀ j, Z.testbit r j = true → Z.testbit r' j = true) →
  fewer g g'.
Proof.
  intros Hr x y. unfold block. destruct (blocks g' !! Z.to_nat y) as [r|] eqn:E; cbn [default from_option].
  - destruct (Hr _ _ E) as (r' & -> & Hj). cbn [default from_option]. apply Hj.
  - by rewrite Z.bits_0.
Qed.

Lemma advance_ok N n g `{TrigLaws N} : N ≤ 5000000 → n < N → game_ok n g →
  ∃ g', advance g = Done g' ∧ game_ok (n + 1) g' ∧ fewer g g'.
Proof.
  intros HN Hn Hg%move_bar_ok. unfold advance.
  assert (F : fewer g (move_bar g)) by by apply fewer_same. set (g1 := move_bar g) in *. clearbody g1.
  cut (∃ g', move_ball g1 = Done g' ∧ game_ok (n + 1) g' ∧ fewer g1 g').
  { intros (g' & E & Hok & F'). exists g'. split; [exact E|]. split; [done|by eapply fewer_trans]. }
  clear F. unfold move_ball. destruct Hg as [Hcount Hrows Hbar Hmove Hsteps Hball].
  destruct Hball as [E0 Hplace|E45 Ex Ey|Hd Hsize Hx Hy Hdx Hdy].
  - rewrite E0. exists g1. split; [done|]. split; [|apply fewer_refl]. split; try done; [lia|]. by apply ball_rests.
  - rewrite E45, Ex, Ey. change (45 =? 0) with false. cbv iota zeta.
    assert (Hwall : at_wall g1 (kBallX + ball_dx g1) 45 = 45).
    { unfold at_wall. change kBallX with 105. change kBallRadius with 5. change (kCanvasWidth - 5) with 255.
      destruct (Z.ltb_spec (105 + ball_dx g1) 5); [lia|]. destruct (Z.leb_spec 255 (105 + ball_dx g1)); [lia|].
      by rewrite !andb_false_r. }
    assert (Hbar' : at_bar g1 (kBallX + ball_dx g1) (kBallY + ball_dy g1) 45 = Some 45).
    { unfold at_bar. change kBallY with 135. change kBallRadius with 5. change (kBarY - 5) with 155. change (kCanvasHeight - 5) with 170.
      destruct (Z.ltb_spec (135 + ball_dy g1) 5); [lia|]. destruct (Z.leb_spec 155 (135 + ball_dy g1)); [lia|].
      destruct (Z.leb_spec 170 (135 + ball_dy g1)); [lia|]. by rewrite !andb_false_r. }
    rewrite Hwall, (in_int_ok 45) by lia. cbn [mbind outcome_bind]. rewrite Hbar', (in_int_ok 45) by lia. cbn [mbind outcome_bind].
    destruct (at_block_ok g1 (kBallX + ball_dx g1) (kBallY + ball_dy g1) 45) as (bl & d' & -> & Hl & Hd' & _ & Hr & Hz); [done|done|lia|].
    assert (d' = 45) as -> by (change kBallY with 135 in Hz; lia). cbn [mbind outcome_bind].
    rewrite (vx_law (N := N)), (vy_law (N := N)) by (done || lia). cbn [mbind outcome_bind].
    eexists. split; [reflexivity|]. split; [|by apply fewer_rows].
    split; cbn [blocks bar_x move_dir ball_dx ball_dy]; try done; [lia|].
    apply ball_flies; cbn [ball_dir ball_x ball_y ball_dx ball_dy]; try done. lia.
  - destruct (Z.eqb_spec (ball_dir g1) 0) as [E|_]; [by rewrite E in Hd|]. cbv zeta.
    pose proof (at_wall_ok g1 Hd Hdx Hx) as Hw. cbv zeta in Hw.
    set (d1 := at_wall g1 _ _) in *. destruct Hw as (Hd1 & Hy1 & Hs1 & Hx1).
    rewrite (in_int_ok d1) by lia. cbn [mbind outcome_bind].
    destruct (at_bar_ok g1 (ball_x g1 + ball_dx g1) d1) as [-> | (d2 & -> & Hd2 & Hx2 & Hs2 & Hy2)]; [done|by rewrite Hy1|done|..].
    { eexists. split; [reflexivity|]. split; [|by apply fewer_same]. split; try done; [lia|]. apply ball_rests; [done|by left]. }
    rewrite (in_int_ok d2) by lia. cbn [mbind outcome_bind].
    destruct (at_block_ok g1 (ball_x g1 + ball_dx g1) (ball_y g1 + ball_dy g1) d2) as (bl & d3 & -> & Hl & Hd3 & Hs3 & Hr & Hz);
      [done|done|lia|].
    cbn [mbind outcome_bind]. rewrite (vx_law (N := N)), (vy_law (N := N)) by (done || lia). cbn [mbind outcome_bind].
    eexists. split; [reflexivity|]. split; [|by apply fewer_rows].
    pose proof (step_x_cases d3). pose proof (step_y_cases d3).
    split; cbn [blocks bar_x move_dir ball_dx ball_dy]; try done; [lia|lia|].
    apply ball_flies; cbn [ball_dir ball_x ball_y ball_dx ball_dy]; try done; [lia|..].
    + destruct Hz as [-> | Hz]; [by rewrite Hx2|lia].
    + destruct Hz as [-> | Hz]; [done|lia].
Qed.

(** ** What is drawn *)

(** Inside the part of the window that belongs to the game. *)
Definition in_canvas (d : drawing) : Prop :=
  match d with
  | Fill _ x y w h _ => 4 ≤ x ∧ x + w ≤ 4 + kCanvasWidth ∧ 24 ≤ y ∧ y + h ≤ 24 + kCanvasHeight
  | Text _ _ _ _ _ | Line _ _ _ _ _ _ => False
  | Redraw _ | Close _ => True
  end.

Definition timeouts (es : list AppEvent) : Z := foldr (λ e n, match e with evTimerTimeout _ _ => 1 + n | _ => n end) 0 es.

Section playing.
Context {K : Type} `{SL : ScreenLaws K} `{LibM}.
Implicit Types p : Proc K.

Definition block_picture (layer : Z) (g : Game) (by_ bx : Z) : list drawing :=
  if block g bx by_ then
    [Fill layer (4 + kGapWidth + bx * kBlockWidth) (24 + kGapHeight + by_ * kBlockHeight) kBlockWidth kBlockHeight
       (Z.lor (Z.shiftl 0xff (Z.rem by_ 3 * 8)) (Z.shiftl 0xff (Z.rem (bx + by_) 3 * 8)))]
  else [].

Definition ball_picture (layer x y : Z) : list drawing :=
  [Fill layer (4 + x - kBallRadius) (24 + y - kBallRadius) (2 * kBallRadius) (2 * kBallRadius) 0x007f00;
   Fill layer (4 + x - Z.quot kBallRadius 2) (24 + y - Z.quot kBallRadius 2) kBallRadius kBallRadius 0x00ff00].

(** The picture of a game. *)
Definition picture (layer : Z) (g : Game) : list drawing :=
  let flags := Z.lor layer LAYER_NO_REDRAW in
  [Fill flags 4 24 kCanvasWidth kCanvasHeight 0] ++
  concat (map (λ by_, concat (map (block_picture flags g by_) (seqZ 0 kNumBlocksX))) (seqZ 0 kNumBlocksY)) ++
  [Fill flags (4 + bar_x g) (24 + kBarY) kBarWidth kBarHeight 0xffffff] ++
  (if 0 <=? ball_y g then ball_picture flags (ball_x g) (ball_y g) else []) ++ [Redraw layer].

Lemma draw_game_shows layer g p : shows (draw_game layer g) p tt [] (picture layer g).
Proof using SL.
  unfold draw_game, picture. set (flags := Z.lor layer LAYER_NO_REDRAW). cbv zeta.
  eapply (shows_bind _ _ _ _ _ [] _ []); [apply fill_shows|]. intros p1 _.
  eapply (shows_bind _ _ _ _ _ [] _ []).
  { apply (each_shows _ _ (λ _, True)); [done..|]. intros y q _ _. apply (each_shows _ _ (λ _, True)); [done..|].
    intros x q' _ _. unfold DrawBlock, block_picture. destruct (block g x y); [apply fill_shows|apply shows_ret]. }
  intros p2 _. eapply (shows_bind _ _ _ _ _ [] _ []); [apply fill_shows|]. intros p3 _.
  eapply (shows_bind _ _ _ _ _ [] _ []); [|intros p4 _; apply redraw_shows].
  destruct (0 <=? ball_y g); [|apply shows_ret].
  eapply (shows_bind _ _ _ _ _ [] [_] [] [_]); [apply fill_shows|]. intros p5 _. apply fill_shows.
Qed.

Lemma concat_inside {A} (f : A → list drawing) l : (∀ x, x ∈ l → Forall in_canvas (f x)) → Forall in_canvas (concat (map f l)).
Proof.
  induction l as [|x l IH]; intros Hf; [done|]. cbn [map concat]. apply Forall_app. split; [apply Hf; set_solver|].
  apply IH. intros. apply Hf. set_solver.
Qed.

Lemma game_picture_inside n layer g : game_ok n g → Forall in_canvas (picture layer g).
Proof.
  intros [_ _ Hbar _ _ Hball]. unfold picture. cbv zeta. rewrite !Forall_app. split_and!.
  - apply Forall_singleton. unfold in_canvas. change kCanvasWidth with 260. change kCanvasHeight with 175. lia.
  - apply concat_inside. intros y Hy%elem_of_seqZ. apply concat_inside. intros x Hx%elem_of_seqZ. unfold block_picture.
    change kNumBlocksX with 10 in *. change kNumBlocksY with 5 in *.
    destruct (block g x y); [|done]. apply Forall_singleton. unfold in_canvas. change kCanvasWidth with 260.
    change kCanvasHeight with 175. unfold kGapHeight, kGapWidth, kBlockWidth, kBlockHeight. lia.
  - apply Forall_singleton. unfold in_canvas. change kCanvasWidth with 260. change kCanvasHeight with 175.
    change kBarY with 160. change kBarWidth with 30. change kBarHeight with 5. lia.
  - destruct (Z.leb_spec 0 (ball_y g)) as [Hy|]; [|done].
    assert (Hin : 5 ≤ ball_x g < 255 ∧ 5 ≤ ball_y g < 170).
    { destruct Hball as [_ [Hy' | [-> ->]]|_ -> ->|]; [lia|by vm_compute|by vm_compute|done]. }
    unfold ball_picture. change kBallRadius with 5. change (Z.quot 5 2) with 2. change (2 * 5) with 10.
    apply Forall_cons; split; [|apply Forall_singleton]; unfold in_canvas; change kCanvasWidth with 260;
      change kCanvasHeight with 175; lia.
  - by apply Forall_singleton.
Qed.

(** The events of a frame: up to a timeout, or to the closing of the window. *)
Lemma events_shows n es : ∀ fuel last g p, evQuit ∈ es → (length es < fuel)%nat → pending (os p) = es → game_ok n g →
  ∃ og es1 es2, shows (blocks_events fuel last g) p og es1 [] ∧ es = es1 ++ es2 ∧
    match og with
    | None => True
    | Some g' => evQuit ∈ es2 ∧ timeouts es = 1 + timeouts es2 ∧ (length es2 < length es)%nat ∧ game_ok n g' ∧ fewer g g'
    end.
Proof using SL.
  induction es as [|e es IH]; intros fuel last g p Hq Hfuel Hp Hg; [set_solver|].
  destruct fuel as [|fuel]; [simpl in Hfuel; lia|]. cbn [blocks_events].
  destruct (read_event_shows p last e es Hp) as (p1 & E1 & R1).
  assert (Hp1 : pending (os p1) = es).
  { destruct R1 as [Hpend _ _]. rewrite Hp in Hpend. by injection Hpend. }
  assert (Hnext : ∀ g1, e ≠ evQuit → (∀ t v, e ≠ evTimerTimeout t v) → game_ok n g1 → fewer g g1 →
    ∃ og es1 es2, shows (blocks_events fuel (Some e) g1) p1 og es1 [] ∧ e :: es = e :: es1 ++ es2 ∧
    match og with
    | None => True
    | Some g' => evQuit ∈ es2 ∧ timeouts (e :: es) = 1 + timeouts es2 ∧ (length es2 < length (e :: es))%nat ∧ game_ok n g' ∧ fewer g g'
    end).
  { intros g1 Hne Hnt Hg1 F1. destruct (IH fuel (Some e) g1 p1) as (og & es1 & es2 & Hs & -> & Hog); [set_solver|simpl in Hfuel; lia|done|done|].
    exists og, es1, es2. split; [done|]. split; [done|]. destruct og as [g'|]; [|done]. destruct Hog as (A & B & C & D & F).
    split_and!; [done| |simpl; lia|done|by eapply fewer_trans].
    rewrite <- B. destruct e; try done. by destruct (Hnt timeout value). }
  cut (∃ og es1 es2, shows (match e with
      | evTimerTimeout _ _ => mret (Some g)
      | evQuit => mret None
      | evKeyPush _ keycode _ press => blocks_events fuel (Some e) (on_key g press keycode)
      | _ => blocks_events fuel (Some e) g
      end) p1 og es1 [] ∧ e :: es = e :: es1 ++ es2 ∧
    match og with
    | None => True
    | Some g' => evQuit ∈ es2 ∧ timeouts (e :: es) = 1 + timeouts es2 ∧ (length es2 < length (e :: es))%nat ∧ game_ok n g' ∧ fewer g g'
    end).
  { intros (og & es1 & es2 & (p2 & E2 & R2) & Ees & Hog). exists og, (e :: es1), es2. split; [|by split].
    exists p2. split; [|exact (ran_trans _ _ _ _ _ _ _ R1 R2)]. unfold runs. rewrite (runs_bind _ _ _ _ _ E1). by destruct e. }
  destruct e as [|x y dx dy b|x y pr b|t v|md kc asc pr].
  - exists None, [], es. split; [apply shows_ret|]. by split.
  - apply Hnext; done || apply fewer_refl.
  - apply Hnext; done || apply fewer_refl.
  - exists (Some g), [], es. split; [apply shows_ret|]. split; [done|]. split_and!; [set_solver|done|simpl; lia|done|apply fewer_refl].
  - destruct (on_key_ok n g pr kc Hg). by apply Hnext.
Qed.

(** All frames up to the end of the script. *)
Lemma loop_shows N `{TrigLaws N} frames : ∀ n fuel layer g prev es p, N ≤ 5000000 → game_ok n g → evQuit ∈ es →
  (length es < fuel)%nat → (length es < frames)%nat → n + timeouts es ≤ N → pending (os p) = es →
  ∃ es1 gs, shows (blocks_loop frames fuel layer g prev) p tt es1 (concat (map (picture layer) (g :: gs))) ∧
    Forall (λ g, Forall in_canvas (picture layer g)) (g :: gs) ∧ StronglySorted fewer (g :: gs).
Proof using SL.
  induction frames as [|frames IH]; intros n fuel layer g prev es p HN Hg Hq Hfuel Hframes Htime Hp; [lia|].
  cbn [blocks_loop]. pose proof (game_picture_inside n layer g Hg) as Hin.
  destruct (draw_game_shows layer g p) as (p1 & E1 & R1).
  assert (∃ prev', shows (next_frame (Z.quot 1000 kFrameRate) prev) p1 prev' [] []) as (prev' & p2 & E2 & R2).
  { unfold next_frame. destruct (prev =? 0).
    - destruct (timer_law (os p1) TIMER_ONESHOT_REL 1 (Z.quot 1000 kFrameRate)) as (r & k' & E & C).
      exists (res_value r), (mkProc k' (errno p1) (dpage_end p1) (program_break p1)). split; [|exact C].
      unfold runs, sys, mbind, app_bind, outcome_bind. by rewrite E.
    - destruct (timer_law (os p1) TIMER_ONESHOT_ABS 1 (u64 (prev + Z.quot 1000 kFrameRate))) as (r & k' & E & C).
      exists (u64 (prev + Z.quot 1000 kFrameRate)), (mkProc k' (errno p1) (dpage_end p1) (program_break p1)). split; [|exact C].
      unfold runs, sys, mbind, app_bind, outcome_bind. by rewrite E. }
  pose proof (ran_trans_draw _ _ _ _ _ R1 R2) as R12. rewrite app_nil_r in R12.
  assert (Hp2 : pending (os p2) = es) by (by rewrite <- Hp, (ch_pending _ _ _ _ _ _ _ R12)).
  destruct (events_shows n es fuel None g p2 Hq Hfuel Hp2 Hg) as (og & es1 & es2 & (p3 & E3 & R3) & -> & Hog).
  pose proof (ran_trans _ _ _ _ _ _ _ R12 R3) as R13. rewrite app_nil_r in R13. cbn [List.app] in R13.
  destruct og as [g1|].
  - destruct Hog as (Hq2 & Ht & Hlen & Hg1 & F1).
    assert (Hnn : 0 ≤ timeouts es2) by (clear; induction es2 as [|[] es2 IH]; simpl; lia).
    destruct (advance_ok N n g1 HN) as (g2 & E4 & Hg2 & F2); [lia|done|].
    assert (Hp3 : pending (os p3) = es2).
    { pose proof (ch_pending _ _ _ _ _ _ _ R3) as Hpend. rewrite Hp2 in Hpend. by apply app_inv_head in Hpend. }
    destruct (IH (n + 1) fuel layer g2 prev' es2 p3) as (es3 & gs & (p4 & E5 & R5) & Hins & Hsort); try done; [lia..|].
    exists (es1 ++ es3), (g2 :: gs). split; [|split].
    + exists p4. split; [|exact (ran_trans _ _ _ _ _ _ _ R13 R5)].
      unfold runs in *. rewrite (runs_bind _ _ _ _ _ E1), (runs_bind _ _ _ _ _ E2), (runs_bind _ _ _ _ _ E3). cbv iota.
      assert (Ea : runs (pure_step (advance g1)) p3 g2 p3) by (unfold runs, pure_step; by rewrite E4).
      by rewrite (runs_bind _ _ _ _ _ Ea).
    + by apply Forall_cons.
    + assert (F : fewer g g2) by by eapply fewer_trans. apply SSorted_cons; [done|]. apply Forall_cons. split; [done|].
      apply StronglySorted_inv in Hsort as [_ Hall]. eapply Forall_impl; [exact Hall|]. intros. by eapply fewer_trans.
  - exists es1, []. split; [|split].
    + exists p3. split; [|cbn [map concat]; rewrite app_nil_r; exact R13].
      unfold runs in *. by rewrite (runs_bind _ _ _ _ _ E1), (runs_bind _ _ _ _ _ E2), (runs_bind _ _ _ _ _ E3).
    + apply Forall_cons. by split; [|apply Forall_nil].
    + by repeat constructor.
Qed.
End playing.
End GameFacts.
Import GameFacts.

(** ** Properties *)


(** A small screen: the events to come, the drawings so far and some memory. *)
Module ToyScreen.

Record screen : Set := mkScreen { s_events : list AppEvent; s_shown : list drawing; s_memory : Z * list Z }.

Definition s_byte (s : screen) (a : Z) : option Z :=
  let '(base, l) := s_memory s in if a <? base then None else l !! Z.to_nat (a - base).

Definition draw (s : screen) (d : drawing) : outcome (Result * screen) :=
  Done (mkResult 0 0, mkScreen (s_events s) (s_shown s ++ [d]) (s_memory s)).
Definition quiet (s : screen) (n : Z) : outcome (Result * screen) := Done (mkResult n 0, s).

#[export] Instance calls : AppCalls screen := {|
  SyscallLogString s _ _ := quiet s 0;
  SyscallPutString s _ bytes := quiet s (Z.of_nat (length bytes));
  SyscallOpenWindow s _ _ _ _ _ := quiet s 7;
  SyscallWinWriteString s layer x y c text := draw s (Text layer x y c text);
  SyscallWinFillRectangle s layer x y w h c := draw s (Fill layer x y w h c);
  SyscallGetCurrentTick s := quiet s 0;
  SyscallWinRedraw s layer := draw s (Redraw layer);
  SyscallWinDrawLine s layer x0 y0 x1 y1 c := draw s (Line layer x0 y0 x1 y1 c);
  SyscallCloseWindow s layer := draw s (Close layer);
  SyscallReadEvent s _ :=
    match s_events s with
    | [] => Undef
    | e :: es => Done (mkResult 1 0, [e], mkScreen es (s_shown s) (s_memory s))
    end;
  SyscallCreateTimer s _ _ _ := quiet s 16;
  SyscallOpenFile s _ _ := quiet s 3;
  SyscallReadFile s _ _ := Done (mkResult 0 0, [], s);
  SyscallDemandPages s _ _ := quiet s 0;
  SyscallMapFile s _ _ := Done (mkResult (fst (s_memory s)) 0, Some (Z.of_nat (length (snd (s_memory s)))), s);
|}.

#[export] Instance bytes : AppMemory screen := {| load8 s a := match s_byte s a with Some c => Done (c, s) | None => Undef end |}.

Lemma unchanged s : changed s_events s_shown s_byte s [] [] s.
Proof. split; [done|by rewrite app_nil_r|done]. Qed.

Lemma draw_law s d : ∃ r s', draw s d = Done (r, s') ∧ changed s_events s_shown s_byte s [] [d] s'.
Proof. by eexists _, _. Qed.

#[export] Program Instance laws : ScreenLaws screen := {| pending := s_events; shown := s_shown; memory := s_byte |}.
Next Obligation. intros. apply draw_law. Qed.
Next Obligation. intros. apply draw_law. Qed.
Next Obligation. intros. apply draw_law. Qed.
Next Obligation. intros. apply draw_law. Qed.
Next Obligation. intros. apply draw_law. Qed.
Next Obligation. intros. eexists _, _. split; [reflexivity|apply unchanged]. Qed.
Next Obligation. intros. eexists. split; [reflexivity|apply unchanged]. Qed.
Next Obligation.
  intros s e es E. eexists. cbn [SyscallReadEvent calls]. rewrite E. split; [reflexivity|].
  split; [done|cbn [s_shown]; by rewrite app_nil_r|done].
Qed.
Next Obligation. intros s a c E. exists s. cbn [load8 bytes]. rewrite E. split; [done|apply unchanged]. Qed.

(** Cosine and sine of multiples of 45 degrees, roughly. *)
Definition eighth (x : double) : Z :=
  match dround (ddiv (dmul x (dbl 4)) M_PI) with Done n => n mod 8 | _ => 0 end.
Definition three_quarters : double := ddiv (dbl 3) (dbl 4).
Definition minus_three_quarters : double := ddiv (dbl (-3)) (dbl 4).

#[export] Instance libm : LibM := {|
  cos x := if (eighth x =? 1) || (eighth x =? 7) then three_quarters else minus_three_quarters;
  sin x := if (eighth x =? 1) || (eighth x =? 3) then three_quarters else minus_three_quarters;
  sqrt x := x; atan2 x y := x; pow x y := x;
|}.

Definition right_at (d : Z) : bool :=
  match ball_vx d, ball_vy d with Done x, Done y => (x =? step_x d) && (y =? step_y d) | _, _ => false end.

Lemma right_everywhere : forallb right_at ((λ i, 45 + 90 * i) <$> seqZ (-9) 18) = true.
Proof. vm_compute. reflexivity. Qed.

Lemma right d : diagonal d → Z.abs d ≤ 45 + 360 * 2 → ball_vx d = Done (step_x d) ∧ ball_vy d = Done (step_y d).
Proof.
  intros Hd Hs. pose proof right_everywhere as Hall. rewrite forallb_forall in Hall.
  assert (Hin : In d ((λ i, 45 + 90 * i) <$> seqZ (-9) 18)).
  { apply list_elem_of_In, list_elem_of_fmap. exists ((d - 45) / 90). rewrite elem_of_seqZ. unfold diagonal in Hd.
    Z.div_mod_to_equations. lia. }
  specialize (Hall d Hin). unfold right_at in Hall. destruct (ball_vx d) as [x| |], (ball_vy d) as [y| |]; try done.
  apply andb_true_iff in Hall as [->%Z.eqb_eq ->%Z.eqb_eq]. done.
Qed.

#[export] Program Instance trig : TrigLaws 2.
Next Obligation. intros d Hd Hs. by apply right. Qed.
Next Obligation. intros d Hd Hs. by apply right. Qed.
End ToyScreen.
Import ToyScreen.

