(* ===== verification/AppViewFacts.v ===== *)
(** What the viewers show: [FindLines] finds the lines of a text, [CopyUTF8String]
    copies whole characters, tview shows a window of lines that follows the keys,
    gview every pixel of its picture. *)
From S2P Require Import Prelude Logger Font Syscall AppRuntime AppText AppTextFacts AppDraw AppCube AppBlocks AppView AppDrawFacts.
Import UTF8Facts StreamFacts ScreenFacts ToyScreen.

(** ** Text *)
Module ViewFacts.

(** A line is a list of characters, a text a list of lines, each with its newline. *)
Definition encode (l : list Z) : list Z := concat (utf8_encode <$> l).
Definition text_bytes (ls : list (list Z)) : list Z := concat ((λ l, encode l ++ [10]) <$> ls).
Definition plain (l : list Z) : Prop := Forall (λ c, 0 < c < 0x110000 ∧ c ≠ 10) l.

(** Where the lines are. *)
Fixpoint positions (a : Z) (ls : list (list Z)) : list (Z * Z) :=
  match ls with
  | [] => []
  | l :: ls => (a, Z.of_nat (length (encode l))) :: positions (a + Z.of_nat (length (encode l)) + 1) ls
  end.

(** What of a line fits into [w] columns and a buffer with [room] bytes: whole
    characters, those above ASCII two columns wide, and spaces for tabulators. *)
Fixpoint view (w tab room x : Z) (l : list Z) : list Z :=
  match l with
  | [] => []
  | c :: l =>
      if c =? 9 then
        let spaces := tab - x mod tab in
        if room <=? spaces then [] else replicate (Z.to_nat spaces) 32 ++ view w tab (room - spaces) (x + spaces) l
      else
        let x := if c <? 0x80 then x + 1 else x + 2 in
        let e := utf8_encode c in
        if (w <=? x) || (room <=? Z.of_nat (length e)) then [] else e ++ view w tab (room - Z.of_nat (length e)) x l
  end.

Lemma encode_cons c l : encode (c :: l) = utf8_encode c ++ encode l.
Proof. done. Qed.

Lemma encode_head c : 0 < c < 0x110000 → ∃ b e, utf8_encode c = b :: e ∧ CountUTF8Size b = Z.of_nat (S (length e)) ∧
  0 < b < 256 ∧ (c < 0x80 ∧ b = c ∧ e = [] ∨ 0x80 ≤ c ∧ 0xc0 ≤ b ∧ e ≠ []).
Proof.
  intros Hc. destruct (CountUTF8Size_encode c) as (b & e & E & Hn & Hb & H0); [lia|]. exists b, e. split; [done|].
  split; [done|]. split; [lia|]. revert E. unfold utf8_encode. destruct (Z.ltb_spec c 0x80); [intros [= <- <-]; by left|].
  intros E. right. split; [done|].
  destruct (Z.ltb_spec c 0x800); [|destruct (Z.ltb_spec c 0x10000)]; injection E as <- <-; (split; [|done]).
  - assert (0 ≤ c / 64) by (apply Z.div_pos; lia). lia.
  - assert (0 ≤ c / 4096) by (apply Z.div_pos; lia). lia.
  - assert (0 ≤ c / 262144) by (apply Z.div_pos; lia). lia.
Qed.

(** No byte of a line is a newline. *)
Lemma encode_no_newline c : 0 < c < 0x110000 → c ≠ 10 → 10 ∉ utf8_encode c.
Proof.
  intros Hc Hne. unfold utf8_encode.
  assert (∀ a, 0 ≤ a mod 64) by (intros a; pose proof (Z.mod_pos_bound a 64); lia).
  destruct (Z.ltb_spec c 0x80); [set_solver|].
  assert (0 ≤ c / 64 ∧ 0 ≤ c / 4096 ∧ 0 ≤ c / 262144) by (split_and!; apply Z.div_pos; lia).
  pose proof (H c). pose proof (H (c / 64)). pose proof (H (c / 4096)). clear H.
  destruct (Z.ltb_spec c 0x800); [|destruct (Z.ltb_spec c 0x10000)]; rewrite ?not_elem_of_cons; split_and!; try lia; apply not_elem_of_nil.
Qed.

Lemma line_no_newline l : plain l → 10 ∉ encode l.
Proof.
  induction 1 as [|c l [Hc Hne] _ IH]; [apply not_elem_of_nil|]. rewrite encode_cons, not_elem_of_app.
  split; [by apply encode_no_newline|done].
Qed.

Section view.
Context {K : Type} `{SL : ScreenLaws K} `{Strerror}.
Implicit Types p : Proc K.

(** The bytes from an address on. *)
Definition bytes_at p (a : Z) (l : list Z) : Prop := ∀ i c, l !! i = Some c → memory (os p) (a + Z.of_nat i) = Some c.

Lemma bytes_ran p p' es ds a l : bytes_at p a l → ran p es ds p' → bytes_at p' a l.
Proof. intros Hb R i c E. rewrite (ch_memory _ _ _ _ _ _ _ R). by apply Hb. Qed.

Lemma bytes_cons p a c l : bytes_at p a (c :: l) → memory (os p) a = Some c ∧ bytes_at p (a + 1) l.
Proof.
  intros Hb. split; [specialize (Hb 0%nat c eq_refl); by rewrite Z.add_0_r in Hb|].
  intros i x E. replace (a + 1 + Z.of_nat i) with (a + Z.of_nat (S i)) by lia. by apply Hb.
Qed.

Lemma bytes_app p a l1 l2 : bytes_at p a (l1 ++ l2) → bytes_at p a l1 ∧ bytes_at p (a + Z.of_nat (length l1)) l2.
Proof.
  intros Hb. split.
  - intros i c E. apply Hb. by apply lookup_app_l_Some.
  - intros i c E. replace (a + Z.of_nat (length l1) + Z.of_nat i) with (a + Z.of_nat (length l1 + i)) by lia. apply Hb.
    rewrite lookup_app_r by lia. by replace (length l1 + i - length l1)%nat with i by lia.
Qed.

Lemma load_bytes_shows l : ∀ p a, bytes_at p a l → shows (load_bytes (length l) a) p l [] [].
Proof using SL.
  induction l as [|c l IH]; intros p a Hb; [apply shows_ret|]. apply bytes_cons in Hb as [Hc Hb]. cbn [length load_bytes].
  eapply shows_bind0; [by apply load_shows|]. intros p1 R1.
  eapply shows_bind0; [apply IH; by eapply bytes_ran|]. intros. apply shows_ret.
Qed.

(** ** Finding lines *)

Lemma next_lf_shows l rest : 10 ∉ l → ∀ p fuel s end_, bytes_at p s (l ++ 10 :: rest) → (length l < fuel)%nat →
  s + Z.of_nat (length l) < end_ → shows (next_lf fuel s end_) p (s + Z.of_nat (length l)) [] [].
Proof using SL.
  induction l as [|c l IH]; intros Hl p [|fuel] s end_ Hb Hf Hend; try (simpl in Hf; lia); cbn [next_lf length] in *.
  - destruct (Z.ltb_spec s end_); [|lia]. apply bytes_cons in Hb as [Hc _].
    eapply shows_bind0; [by apply load_shows|]. intros p1 _. cbn [Z.eqb Pos.eqb negb]. rewrite Z.add_0_r. apply shows_ret.
  - destruct (Z.ltb_spec s end_); [|lia]. apply bytes_cons in Hb as [Hc Hb]. apply not_elem_of_cons in Hl as [Hne Hl].
    eapply shows_bind0; [by apply load_shows|]. intros p1 R1. destruct (Z.eqb_spec c 10); [done|]. cbn [negb].
    replace (s + Z.of_nat (S (length l))) with (s + 1 + Z.of_nat (length l)) by lia.
    apply IH; [done|by eapply bytes_ran|lia|lia].
Qed.

Lemma next_lf_end p fuel s end_ : (0 < fuel)%nat → end_ ≤ s → shows (next_lf fuel s end_) p s [] [].
Proof. intros Hf Hs. destruct fuel; [lia|]. cbn [next_lf]. destruct (Z.ltb_spec s end_); [lia|]. apply shows_ret. Qed.

Definition line_end (a : Z) (ls : list (list Z)) : Z :=
  match ls with [] => a | l :: _ => a + Z.of_nat (length (encode l)) end.

Lemma text_cons l ls : text_bytes (l :: ls) = encode l ++ 10 :: text_bytes ls.
Proof. unfold text_bytes. cbn [fmap list_fmap concat]. by rewrite <- app_assoc. Qed.

Lemma length_text l ls : length (text_bytes (l :: ls)) = (length (encode l) + S (length (text_bytes ls)))%nat.
Proof. by rewrite text_cons, length_app. Qed.

Lemma next_line_shows ls p fuel a : Forall plain ls → bytes_at p a (text_bytes ls) → (length (text_bytes ls) < fuel)%nat →
  shows (next_lf fuel a (a + Z.of_nat (length (text_bytes ls)))) p (line_end a ls) [] [].
Proof using SL.
  intros Hls Hb Hf. destruct ls as [|l ls].
  - apply next_lf_end; [lia|]. unfold text_bytes. simpl. lia.
  - apply Forall_cons in Hls as [Hl Hls]. rewrite length_text in *. rewrite text_cons in Hb.
    apply (next_lf_shows (encode l) (text_bytes ls)); [by apply line_no_newline|done|lia|lia].
Qed.

Lemma find_lines_shows ls : Forall plain ls → ∀ p fuel a, bytes_at p a (text_bytes ls) → (length (text_bytes ls) < fuel)%nat →
  shows (find_lines_loop fuel a (line_end a ls) (a + Z.of_nat (length (text_bytes ls)))) p (positions a ls) [] [].
Proof using SL.
  induction 1 as [|l ls Hl Hls IH]; intros p [|fuel] a Hb Hf; try lia; cbn [find_lines_loop].
  - cbn [line_end positions text_bytes fmap list_fmap concat length]. rewrite Z.add_0_r, Z.ltb_irrefl. apply shows_ret.
  - rewrite length_text in *. cbn [line_end]. destruct (Z.ltb_spec (a + Z.of_nat (length (encode l)))
      (a + Z.of_nat (length (encode l) + S (length (text_bytes ls))))); [|lia].
    set (a' := a + Z.of_nat (length (encode l)) + 1).
    replace (a + Z.of_nat (length (encode l) + S (length (text_bytes ls)))) with (a' + Z.of_nat (length (text_bytes ls))) by lia.
    rewrite text_cons in Hb. apply bytes_app in Hb as [_ Hb]. apply bytes_cons in Hb as [_ Hb]. fold a' in Hb.
    eapply shows_bind0; [apply next_line_shows; [done|done|lia]|]. intros p1 R1.
    eapply shows_bind0; [apply IH; [by eapply bytes_ran|lia]|]. intros p2 _. cbn [positions]. fold a'.
    replace (a + Z.of_nat (length (encode l)) - a) with (Z.of_nat (length (encode l))) by lia. apply shows_ret.
Qed.

Lemma FindLines_shows ls p a : Forall plain ls → bytes_at p a (text_bytes ls) →
  shows (FindLines a (Z.of_nat (length (text_bytes ls)))) p (positions a ls) [] [].
Proof using SL.
  intros Hls Hb. unfold FindLines. rewrite Nat2Z.id.
  eapply shows_bind0; [apply next_line_shows; [done|done|lia]|]. intros p1 R1.
  apply find_lines_shows; [done|by eapply bytes_ran|lia].
Qed.

(** ** Copying a line *)

(** A step of the loop that copies: a newline ends the line, a tabulator or a
    character is copied when it fits. *)
Lemma copy_shows w tab dst_size src_end l : plain l → 0 < tab < 2 ^ 30 → 0 ≤ dst_size ≤ 2 ^ 29 → w < 2 ^ 30 →
  ∀ rest fuel dst src x p, bytes_at p src (encode l ++ 10 :: rest) → src_end = src + Z.of_nat (length (encode l)) →
  0 ≤ x ≤ Z.of_nat (length dst) → Z.of_nat (length dst) < dst_size → (Z.to_nat (dst_size - Z.of_nat (length dst)) < fuel)%nat →
  shows (copy_utf8_loop fuel dst dst_size src src_end w tab x) p
    (dst ++ view w tab (dst_size - Z.of_nat (length dst)) x l) [] [].
Proof using SL.
  intros Hl Htab Hsize Hw. induction Hl as [|c l [Hc Hne] Hl IH]; intros rest [|fuel] dst src x p Hb Hend Hx Hroom Hf; try lia;
    cbn [copy_utf8_loop view].
  - apply bytes_cons in Hb as [Hc _]. eapply shows_bind0; [by apply load_shows|]. intros p1 _.
    cbn [Z.eqb Pos.eqb]. rewrite app_nil_r. change (u8 10 <? 0x80) with true. cbv iota.
    eapply shows_bind0; [apply int_shows; lia|]. intros p2 _. destruct (w <=? x + 1); [apply shows_ret|].
    change (CountUTF8Size (u8 10)) with 1. simpl in Hend. destruct (Z.ltb_spec src_end (src + 1)); [|lia]. apply shows_ret.
  - rewrite encode_cons, <- app_assoc in Hb. rewrite encode_cons, length_app in Hend.
    destruct (encode_head c Hc) as (b & e & E & Hcount & Hbyte & Hcase). rewrite E in *.
    destruct (bytes_cons _ _ _ _ Hb) as [Hm Hb1]. eapply shows_bind0; [by apply load_shows|]. intros p1 R1.
    destruct (Z.eqb_spec b 0); [lia|]. destruct (Z.eqb_spec c 9) as [Ec|Ec].
    + destruct Hcase as [(_ & -> & ->)|]; [|lia]. subst c. cbn [Z.eqb Pos.eqb]. destruct (Z.eqb_spec tab 0); [lia|].
      rewrite Z.rem_mod_nonneg by lia. pose proof (Z.mod_pos_bound x tab). set (spaces := tab - x mod tab).
      eapply shows_bind0; [apply int_shows; lia|]. intros p2 R2.
      destruct (Z.leb_spec dst_size (Z.of_nat (length dst) + spaces)), (Z.leb_spec (dst_size - Z.of_nat (length dst)) spaces); try lia.
      { rewrite app_nil_r. apply shows_ret. }
      destruct (Z.ltb_spec spaces 0); [lia|].
      eapply shows_bind0; [apply int_shows; lia|]. intros p3 R3.
      assert (Hlen : Z.of_nat (length (dst ++ replicate (Z.to_nat spaces) 32)) = Z.of_nat (length dst) + spaces)
        by (rewrite length_app, length_replicate; lia).
      eapply shows_eq; [apply (IH rest)| |done]; [|simpl in Hend; lia|lia|lia|lia|..].
      * eapply bytes_ran; [|exact R3]. eapply bytes_ran; [|exact R2]. by eapply bytes_ran.
      * rewrite Hlen, <- app_assoc. f_equal. f_equal. f_equal. lia.
    + assert (Hb9 : b ≠ 9) by (destruct Hcase as [(_ & -> & _)|]; lia). destruct (Z.eqb_spec b 9); [done|].
      rewrite (wrap_small 8 b) by lia.
      assert (Hwidth : (if b <? 0x80 then x + 1 else x + 2) = (if c <? 0x80 then x + 1 else x + 2)).
      { destruct Hcase as [(? & -> & _)|(? & ? & _)]; [done|]. destruct (Z.ltb_spec b 0x80), (Z.ltb_spec c 0x80); lia. }
      rewrite Hwidth. set (x' := if c <? 0x80 then x + 1 else x + 2).
      assert (Hx' : 0 ≤ x' ≤ x + Z.of_nat (length (b :: e))).
      { subst x'. cbn [length]. destruct Hcase as [(? & _ & ->)|(? & _ & ?)]; destruct (Z.ltb_spec c 0x80); try lia.
        destruct e; [done|simpl; lia]. }
      eapply shows_bind0; [apply int_shows; cbn [length] in *; destruct (Z.ltb_spec c 0x80); subst x'; lia|]. intros p2 R2.
      destruct (w <=? x') eqn:Ew; cbn [orb]; [rewrite app_nil_r; apply shows_ret|].
      rewrite Hcount. change (S (length e)) with (length (b :: e)).
      destruct (Z.ltb_spec src_end (src + Z.of_nat (length (b :: e)))); [lia|]. cbn [orb].
      destruct (Z.leb_spec dst_size (Z.of_nat (length dst) + Z.of_nat (length (b :: e)))),
        (Z.leb_spec (dst_size - Z.of_nat (length dst)) (Z.of_nat (length (b :: e)))); try lia.
      { rewrite app_nil_r. apply shows_ret. }
      rewrite Nat2Z.id. apply bytes_app in Hb as [Hbe Hbl].
      eapply shows_bind0; [apply load_bytes_shows; eapply bytes_ran; [|exact R2]; by eapply bytes_ran|]. intros p3 R3.
      assert (Hlen : Z.of_nat (length (dst ++ b :: e)) = Z.of_nat (length dst) + Z.of_nat (length (b :: e)))
        by (rewrite length_app; lia).
      eapply shows_eq; [apply (IH rest)| |done]; [|lia|lia|lia|cbn [length] in *; lia|..].
      * eapply bytes_ran; [|exact R3]. eapply bytes_ran; [|exact R2]. by eapply bytes_ran.
      * rewrite Hlen, <- app_assoc. f_equal. f_equal. f_equal. lia.
Qed.

Lemma CopyUTF8String_shows w tab l rest src p : plain l → 0 < tab < 2 ^ 30 → w < 2 ^ 30 → bytes_at p src (encode l ++ 10 :: rest) →
  shows (CopyUTF8String 1024 src (Z.of_nat (length (encode l))) w tab) p (view w tab 1024 0 l) [] [].
Proof using SL.
  intros Hl Ht Hw Hb. unfold CopyUTF8String.
  apply (copy_shows w tab 1024 _ l Hl Ht ltac:(lia) Hw rest _ [] src 0 p Hb); simpl length; lia.
Qed.

(** ** A window of lines *)

(** What is drawn when the first line is [start]. *)
Definition frame (layer w h tab : Z) (ls : list (list Z)) (start : Z) : list drawing :=
  Fill layer 4 24 (8 * w) (16 * h) 0xffffff ::
  concat (map (λ i, match ls !! Z.to_nat (start + i) with
                    | Some l => [Text layer 4 (24 + 16 * i) 0x000000 (view w tab 1024 0 l)]
                    | None => []
                    end) (seqZ 0 h)).

Lemma lookup_positions ls : ∀ a i l, ls !! i = Some l → ∃ a' rest,
  positions a ls !! i = Some (a', Z.of_nat (length (encode l))) ∧
  ∀ p, bytes_at p a (text_bytes ls) → bytes_at p a' (encode l ++ 10 :: rest).
Proof.
  induction ls as [|l' ls IH]; intros a [|i] l E; try done; cbn [lookup list_lookup positions] in *.
  - injection E as ->. exists a, (text_bytes ls). split; [done|]. intros p. by rewrite text_cons.
  - destruct (IH (a + Z.of_nat (length (encode l')) + 1) i l E) as (a' & rest & Ep & Hb). exists a', rest. split; [done|].
    intros p Hp. apply Hb. rewrite text_cons in Hp. by apply bytes_app in Hp as [_ [_ Hp]%bytes_cons].
Qed.

Lemma lookup_positions_None ls a i : ls !! i = None → positions a ls !! i = None.
Proof. revert a i. induction ls as [|l ls IH]; intros a [|i] E; try done. cbn [positions]. by apply IH. Qed.

Lemma length_positions a ls : length (positions a ls) = length ls.
Proof. revert a. induction ls; intros a'; [done|]. cbn [positions length]. by f_equal. Qed.

Lemma DrawLines_shows layer w h tab ls a start p : Forall plain ls → 0 < tab < 2 ^ 30 → w < 2 ^ 30 → 0 ≤ start < 2 ^ 30 → h < 2 ^ 30 →
  bytes_at p a (text_bytes ls) → shows (DrawLines (positions a ls) start layer w h tab) p tt [] (frame layer w h tab ls start).
Proof using SL.
  intros Hls Ht Hw Hs Hh Hb. unfold DrawLines, frame.
  eapply (shows_bind _ _ _ _ _ [] [_] [] _); [apply fill_shows|]. intros p1 R1.
  apply (each_shows _ _ (λ q, bytes_at q a (text_bytes ls))); [intros q q' ds; apply bytes_ran|by eapply bytes_ran|].
  intros i q Hi%elem_of_seqZ Hq. unfold draw_line_at. eapply shows_bind0; [apply int_shows; lia|]. intros q1 S1.
  destruct (Z.ltb_spec (start + i) 0); [lia|]. destruct (ls !! Z.to_nat (start + i)) as [l|] eqn:E.
  - destruct (lookup_positions ls a _ l E) as (a' & rest & -> & Hp).
    eapply shows_bind0; [eapply (CopyUTF8String_shows w tab l rest); [|done|done|]|].
    + eapply Forall_lookup_1; [exact Hls|exact E].
    + apply Hp. by eapply bytes_ran.
    + intros q2 _. apply write_string_shows.
  - rewrite (lookup_positions_None ls a _ E). apply shows_ret.
Qed.

(** ** Keys

    The first lines of the frames that follow, for the events up to the end. *)
Fixpoint views (h n s : Z) (es : list AppEvent) : list Z :=
  match es with
  | [] => []
  | evQuit :: _ => []
  | evKeyPush _ keycode _ press :: es =>
      if press =? 0 then views h n s es
      else match scroll s h n keycode with Some s' => s' :: views h n s' es | None => views h n s es end
  | _ :: es => views h n s es
  end.

(** The window shows the start of a short text, and lines of the text only. *)
Definition in_view (h n s : Z) : Prop := 0 ≤ s ∧ (s = 0 ∨ s + h ≤ n).

Lemma scroll_in_view h n s keycode s' : - 2 ^ 31 ≤ h < 2 ^ 31 → 0 ≤ n < 2 ^ 30 → in_view h n s → scroll s h n keycode = Some s' → in_view h n s'.
Proof.
  intros Hh Hn [Hs Hin]. unfold scroll. destruct (Z.ltb_spec n (u64 h)) as [|Hle]; [done|].
  assert (Hh0 : 0 ≤ h ≤ n) by (unfold wrap in Hle; Z.div_mod_to_equations; lia). rewrite (wrap_small 64 (n - h)) by lia.
  set (o := if keycode =? 75 then _ else _).
  assert (Ho : ∀ diff, o = Some diff → - h - 1 ≤ diff ≤ h + 1).
  { intros diff. subst o. rewrite Z.quot_opp_l by lia. rewrite Z.quot_div_nonneg by lia.
    assert (0 ≤ h / 2 ≤ h) by (Z.div_mod_to_equations; lia). repeat case_match; intros [=]; lia. }
  destruct o as [diff|]; [|done]. specialize (Ho diff eq_refl).
  destruct (_ || _); [done|]. intros [= <-]. destruct (Z.ltb_spec (s + diff) 0); [split; [lia|by left]|].
  rewrite (wrap_small 64 (s + diff)) by lia. destruct (Z.ltb_spec (n - h) (s + diff)); [rewrite swrap_small by lia|]; split; lia.
Qed.

Lemma views_in_view h n es : - 2 ^ 31 ≤ h < 2 ^ 31 → 0 ≤ n < 2 ^ 30 → ∀ s, in_view h n s → Forall (in_view h n) (views h n s es).
Proof.
  intros Hh Hn. induction es as [|e es IH]; intros s Hs; [done|]. cbn [views]. destruct e; try done; try by apply IH.
  destruct (press =? 0); [by apply IH|]. destruct (scroll s h n keycode) as [s'|] eqn:E; [|by apply IH].
  pose proof (scroll_in_view h n s keycode s' Hh Hn Hs E). apply Forall_cons. split; [done|by apply IH].
Qed.

(** Waiting for a key takes events up to one that counts. *)
Lemma WaitEvent_shows h n es : ∀ fuel last p, evQuit ∈ es → (length es < fuel)%nat → pending (os p) = es →
  ∃ r es1 es2, shows (WaitEvent fuel last) p r es1 [] ∧ es = es1 ++ es2 ∧
    (r = (true, 0) ∧ (∀ s, views h n s es = []) ∨
     ∃ kc, r = (false, kc) ∧ evQuit ∈ es2 ∧ (length es2 < length es)%nat ∧
       ∀ s, views h n s es = match scroll s h n kc with Some s' => s' :: views h n s' es2 | None => views h n s es2 end).
Proof using SL.
  induction es as [|e es IH]; intros [|fuel] last p Hq Hf Hp; try (simpl in Hf; lia); [set_solver|]. cbn [WaitEvent].
  destruct (read_event_shows p last e es Hp) as (p1 & E1 & R1).
  assert (Hp1 : pending (os p1) = es).
  { pose proof (ch_pending _ _ _ _ _ _ _ R1) as Hpend. rewrite Hp in Hpend. by injection Hpend. }
  assert (Hnext : (∀ s, views h n s (e :: es) = views h n s es) → e ≠ evQuit →
    ∃ r es1 es2, shows (WaitEvent fuel (Some e)) p1 r es1 [] ∧ es = es1 ++ es2 ∧
    (r = (true, 0) ∧ (∀ s, views h n s (e :: es) = []) ∨
     ∃ kc, r = (false, kc) ∧ evQuit ∈ es2 ∧ (length es2 < S (length es))%nat ∧
       ∀ s, views h n s (e :: es) = match scroll s h n kc with Some s' => s' :: views h n s' es2 | None => views h n s es2 end)).
  { intros Hv Hne. destruct (IH fuel (Some e) p1) as (r & es1 & es2 & Hs & Ees & Hr); [set_solver|simpl in Hf; lia|done|].
    exists r, es1, es2. split; [done|]. split; [done|]. destruct Hr as [[-> Hr] | (kc & -> & Hq2 & Hl & Hr)].
    - left. split; [done|]. intros s. by rewrite Hv.
    - right. exists kc. split_and!; [done|done|lia|]. intros s. by rewrite Hv. }
  cut (∃ r es1 es2, shows (match e with
      | evQuit => mret (true, 0)
      | evKeyPush _ keycode _ press => if negb (press =? 0) then mret (false, keycode) else WaitEvent fuel (Some e)
      | _ => WaitEvent fuel (Some e)
      end) p1 r es1 [] ∧ es = es1 ++ es2 ∧
    (r = (true, 0) ∧ (∀ s, views h n s (e :: es) = []) ∨
     ∃ kc, r = (false, kc) ∧ evQuit ∈ es2 ∧ (length es2 < S (length es))%nat ∧
       ∀ s, views h n s (e :: es) = match scroll s h n kc with Some s' => s' :: views h n s' es2 | None => views h n s es2 end)).
  { intros (r & es1 & es2 & (p2 & E2 & R2) & -> & Hr). exists r, (e :: es1), es2. split; [|by split].
    exists p2. split; [|exact (ran_trans _ _ _ _ _ _ _ R1 R2)].
    unfold runs. rewrite (runs_bind _ _ _ _ _ E1). cbn [Z.eqb negb]. by destruct e. }
  destruct e as [|x y dx dy bt|x y pr bt|t v|md kc asc pr]; try (by apply Hnext).
  - exists (true, 0), [], es. split; [apply shows_ret|]. split; [done|]. by left.
  - cbn [views] in *. destruct (pr =? 0); cbn [negb]; [by apply Hnext|].
    exists (false, kc), [], es. split; [apply shows_ret|]. split; [done|]. right. exists kc. split_and!; [done|set_solver|lia|done].
Qed.

Lemma Update_shows h n : ∀ fuel es s p, evQuit ∈ es → (length es < fuel)%nat → pending (os p) = es →
  ∃ quit s' es1 es2, shows (UpdateStartLine fuel s h n) p (quit, s') es1 [] ∧ es = es1 ++ es2 ∧
    (quit = true ∧ views h n s es = [] ∨
     quit = false ∧ evQuit ∈ es2 ∧ (length es2 < length es)%nat ∧ views h n s es = s' :: views h n s' es2).
Proof using SL.
  induction fuel as [|fuel IH]; intros es s p Hq Hf Hp; [lia|]. cbn [UpdateStartLine].
  destruct (WaitEvent_shows h n es (S fuel) None p Hq Hf Hp) as (r & es1 & es2 & (p1 & E1 & R1) & -> & Hr).
  destruct Hr as [[-> Hv] | (kc & -> & Hq2 & Hl & Hv)].
  - exists true, s, es1, es2. split; [|split; [done|by left]]. exists p1. split; [|done]. unfold runs. by rewrite (runs_bind _ _ _ _ _ E1).
  - rewrite Hv. assert (Hp1 : pending (os p1) = es2).
    { pose proof (ch_pending _ _ _ _ _ _ _ R1) as Hpend. rewrite Hp in Hpend. by apply app_inv_head in Hpend. }
    destruct (scroll s h n kc) as [s'|] eqn:E.
    + exists false, s', es1, es2. split; [|split; [done|by right]]. exists p1. split; [|done].
      unfold runs. rewrite (runs_bind _ _ _ _ _ E1). cbv beta iota. by rewrite E.
    + destruct (IH es2 s p1 Hq2) as (quit & s' & es3 & es4 & (p2 & E2 & R2) & -> & Hr); [lia|done|].
      exists quit, s', (es1 ++ es3), es4. split; [|split; [by rewrite app_assoc|]].
      * exists p2. split; [|exact (ran_trans _ _ _ _ _ _ _ R1 R2)].
        unfold runs. rewrite (runs_bind _ _ _ _ _ E1). cbv beta iota. by rewrite E.
      * destruct Hr as [Hr | (? & ? & ? & ?)]; [by left|right]. split_and!; try done. rewrite !length_app in *. lia.
Qed.

Lemma tview_loop_shows layer w h tab ls a : Forall plain ls → 0 < tab < 2 ^ 30 → w < 2 ^ 30 → 0 ≤ h < 2 ^ 30 →
  Z.of_nat (length ls) < 2 ^ 30 → ∀ fuel es s p, evQuit ∈ es → (length es < fuel)%nat → pending (os p) = es →
  bytes_at p a (text_bytes ls) → in_view h (Z.of_nat (length ls)) s → s < 2 ^ 30 →
  ∃ es1, shows (tview_loop fuel (positions a ls) s layer w h tab) p tt es1
    (concat (map (frame layer w h tab ls) (s :: views h (Z.of_nat (length ls)) s es))).
Proof using SL.
  intros Hls Ht Hw Hh Hn. induction fuel as [|fuel IH]; intros es s p Hq Hf Hp Hb Hs Hs30; [lia|]. cbn [tview_loop].
  destruct (DrawLines_shows layer w h tab ls a s p Hls Ht Hw) as (p1 & E1 & R1); [destruct Hs; lia|lia|done|].
  assert (Hp1 : pending (os p1) = es) by (by rewrite <- Hp, (ch_pending _ _ _ _ _ _ _ R1)).
  destruct (Update_shows h (Z.of_nat (length ls)) (S fuel) es s p1 Hq Hf Hp1) as (quit & s' & es1 & es2 & (p2 & E2 & R2) & -> & Hr).
  pose proof (ran_trans _ _ _ _ _ _ _ R1 R2) as R12. rewrite app_nil_r in R12. cbn [List.app] in R12.
  destruct Hr as [[-> Hv] | (-> & Hq2 & Hl & Hv)].
  - exists es1. rewrite Hv. cbn [map concat]. rewrite app_nil_r. exists p2. split; [|done].
    unfold runs. rewrite (runs_bind _ _ _ _ _ E1), length_positions. by rewrite (runs_bind _ _ _ _ _ E2).
  - pose proof (views_in_view h (Z.of_nat (length ls)) (es1 ++ es2) ltac:(lia) ltac:(lia) s Hs) as Hall.
    rewrite Hv in Hall. apply Forall_cons in Hall as [Hs' _].
    assert (Hp2 : pending (os p2) = es2).
    { pose proof (ch_pending _ _ _ _ _ _ _ R2) as Hpend. rewrite Hp1 in Hpend. by apply app_inv_head in Hpend. }
    destruct (IH es2 s' p2) as (es3 & p3 & E3 & R3); [done|lia|done|..].
    { eapply bytes_ran; [|exact R2]. by eapply bytes_ran. }
    { done. }
    { destruct Hs'. lia. }
    exists (es1 ++ es3), p3. split; [|rewrite Hv; exact (ran_trans _ _ _ _ _ _ _ R12 R3)].
    unfold runs. rewrite (runs_bind _ _ _ _ _ E1), length_positions. by rewrite (runs_bind _ _ _ _ _ E2).
Qed.

(** The frame of the window. *)
Definition border (layer w h : Z) : list drawing :=
  [Fill layer 3 23 (1 + 8 * w) 1 0x666666; Fill layer 3 24 1 (1 + 16 * h) 0x666666;
   Fill layer 4 (25 + 16 * h) (1 + 8 * w) 1 0xcccccc; Fill layer (5 + 8 * w) 24 1 (1 + 16 * h) 0xcccccc].

Lemma OpenTextWindow_shows w h title layer p k : - 2 ^ 26 ≤ w < 2 ^ 26 → - 2 ^ 26 ≤ h < 2 ^ 26 →
  SyscallOpenWindow (os p) (8 + 8 * w) (28 + 16 * h) 10 10 title = Done (mkResult layer 0, k) →
  ∃ p', runs (OpenTextWindow w h title) p layer p' ∧ changed pending shown memory k [] (border layer w h) (os p').
Proof using SL.
  intros Hw Hh E. set (p0 := mkProc k (errno p) (dpage_end p) (program_break p)).
  assert (Hfills : shows (_ ← fill_rect layer 3 23 (1 + 8 * w) 1 0x666666; _ ← fill_rect layer 3 24 1 (1 + 16 * h) 0x666666;
    _ ← fill_rect layer 4 (25 + 16 * h) (1 + 8 * w) 1 0xcccccc; _ ← fill_rect layer (5 + 8 * w) 24 1 (1 + 16 * h) 0xcccccc;
    mret layer) p0 layer [] (border layer w h)).
  { do 3 (eapply (shows_bind _ _ _ _ _ [] [_] [] _); [apply fill_shows|]; intros ? _).
    eapply (shows_bind _ _ _ _ _ [] [_] [] []); [apply fill_shows|]. intros. apply shows_ret. }
  destruct Hfills as (p' & E' & R'). exists p'. split; [|exact R']. unfold OpenTextWindow, runs in *.
  assert (Eo : runs (sys (λ k, SyscallOpenWindow k (8 + 8 * w) (28 + 16 * h) 10 10 title)) p (mkResult layer 0) p0).
  { unfold runs, sys, mbind, outcome_bind. by rewrite E. }
  rewrite (runs_bind _ _ _ _ _ (int_runs p (8 * w) ltac:(lia))), (runs_bind _ _ _ _ _ (int_runs p (8 + 8 * w) ltac:(lia))),
    (runs_bind _ _ _ _ _ (int_runs p (16 * h) ltac:(lia))), (runs_bind _ _ _ _ _ (int_runs p (28 + 16 * h) ltac:(lia))).
  rewrite (runs_bind _ _ _ _ _ Eo). exact E'.
Qed.

(** ** Mapping a file *)

Lemma MapFile_runs path fd base size p k1 k2 :
  SyscallOpenFile (os p) path O_RDONLY = Done (mkResult fd 0, k1) → 0 ≤ fd < 2 ^ 31 →
  SyscallMapFile k1 fd 0 = Done (mkResult base 0, Some size, k2) →
  runs (MapFile path) p (fd, base, size) (mkProc k2 (errno p) (dpage_end p) (program_break p)).
Proof.
  intros E1 Hfd E2. unfold runs, MapFile, sys, mbind, app_bind, outcome_bind. rewrite E1. cbn [res_error res_value Z.eqb negb os].
  rewrite swrap_small by lia. by rewrite E2.
Qed.

(** ** Pictures *)

(** The colour of a pixel: its three bytes, or one byte three times. *)
Definition colour (bpp : Z) (data : list Z) (i : Z) : Z :=
  let byte j := default 0 (data !! Z.to_nat (i + j)) in
  if bpp <=? 2 then 65536 * byte 0 + 256 * byte 0 + byte 0 else 65536 * byte 0 + 256 * byte 1 + byte 2.

Definition pixels (layer width height bpp : Z) (data : list Z) : list drawing :=
  concat (map (λ y, concat (map (λ x,
    [Fill (Z.lor layer LAYER_NO_REDRAW) (4 + x) (24 + y) 1 1 (colour bpp data (bpp * (y * width + x)))]) (seqZ 0 width)))
    (seqZ 0 height)).

Lemma lor_bytes r g b : 0 ≤ r < 256 → 0 ≤ g < 256 → 0 ≤ b < 256 →
  Z.lor (Z.lor (Z.shiftl r 16) (Z.shiftl g 8)) b = 65536 * r + 256 * g + b.
Proof.
  intros Hr Hg Hb. rewrite !Z.shiftl_mul_pow2 by lia. change (2 ^ 16) with 65536. change (2 ^ 8) with 256.
  assert (Hrg : Z.lor (r * 65536) (g * 256) = r * 65536 + g * 256).
  { apply lor_disjoint_add. apply Z.bits_inj'. intros i Hi. rewrite Z.land_spec, Z.bits_0.
    change 65536 with (2 ^ 16). rewrite Z.mul_pow2_bits by lia. destruct (Z.ltb_spec i 16).
    - by rewrite Z.testbit_neg_r by lia.
    - rewrite (testbit_high 16 (g * 256)) by lia. apply andb_false_r. }
  rewrite Hrg, lor_disjoint_add; [lia|]. apply Z.bits_inj'. intros i Hi. rewrite Z.land_spec, Z.bits_0.
  replace (r * 65536 + g * 256) with ((r * 256 + g) * 2 ^ 8) by lia. rewrite Z.mul_pow2_bits by lia. destruct (Z.ltb_spec i 8).
  - by rewrite Z.testbit_neg_r by lia.
  - rewrite (testbit_high 8 b) by lia. apply andb_false_r.
Qed.

Definition image_ok (width height bpp : Z) (data : list Z) : Prop :=
  0 ≤ width ∧ 0 ≤ height ∧ 1 ≤ bpp ≤ 4 ∧ Z.of_nat (length data) = bpp * (height * width) ∧ bpp * (height * width) < 2 ^ 31 ∧
  Forall (λ b, 0 ≤ b < 256) data.

Lemma image_byte_ok data i : Forall (λ b, 0 ≤ b < 256) data → 0 ≤ i < Z.of_nat (length data) →
  image_byte data i = Done (default 0 (data !! Z.to_nat i)) ∧ 0 ≤ default 0 (data !! Z.to_nat i) < 256.
Proof.
  intros Hd Hi. unfold image_byte. destruct (Z.ltb_spec i 0); [lia|].
  destruct (lookup_lt_is_Some_2 data (Z.to_nat i)) as [b E]; [lia|]. rewrite E. split; [done|]. exact (Forall_lookup_1 _ _ _ _ Hd E).
Qed.

Lemma draw_pixel_shows layer width height bpp data x y p : image_ok width height bpp data → 0 ≤ x < width → 0 ≤ y < height →
  shows (draw_pixel layer width bpp data y x) p tt []
    [Fill (Z.lor layer LAYER_NO_REDRAW) (4 + x) (24 + y) 1 1 (colour bpp data (bpp * (y * width + x)))].
Proof using SL.
  intros (Hw & Hh & Hbpp & Hlen & Hsize & Hbytes) Hx Hy. unfold draw_pixel.
  assert (Hi : 0 ≤ y * width + x ≤ height * width - 1) by nia. set (i := bpp * (y * width + x)).
  assert (Hi' : 0 ≤ i ∧ i + bpp ≤ Z.of_nat (length data)) by (subst i; nia).
  eapply shows_bind0; [apply int_shows; lia|]. intros p1 _.
  eapply shows_bind0; [apply (pure_shows p1 _ (colour bpp data i))|intros; apply fill_shows].
  unfold get_color, colour, GetColorRGB, GetColorGray.
  destruct (image_byte_ok data i Hbytes) as [E0 B0]; [lia|]. destruct (Z.leb_spec bpp 2).
  - rewrite E0. cbn [mbind outcome_bind mret outcome_ret]. rewrite lor_bytes by done. by rewrite Z.add_0_r.
  - destruct (image_byte_ok data (i + 1) Hbytes) as [E1 B1]; [lia|]. destruct (image_byte_ok data (i + 2) Hbytes) as [E2 B2]; [lia|].
    rewrite E0, E1, E2. cbn [mbind outcome_bind mret outcome_ret]. rewrite lor_bytes by done. by rewrite Z.add_0_r.
Qed.

Lemma pixels_shows layer width height bpp data p : image_ok width height bpp data →
  shows (each (λ y, each (draw_pixel layer width bpp data y) (seqZ 0 width)) (seqZ 0 height)) p tt []
    (pixels layer width height bpp data).
Proof using SL.
  intros Hok. apply (each_shows _ _ (λ _, True)); [done..|]. intros y q Hy%elem_of_seqZ _.
  apply (each_shows _ _ (λ _, True)); [done..|]. intros x q' Hx%elem_of_seqZ _. apply (draw_pixel_shows layer width height); [done|lia|lia].
Qed.

Lemma gview_wait_shows es : ∀ fuel last p, evQuit ∈ es → (length es < fuel)%nat → pending (os p) = es →
  ∃ es1, shows (gview_WaitEvent fuel last) p tt es1 [].
Proof using SL.
  induction es as [|e es IH]; intros [|fuel] last p Hq Hf Hp; try (simpl in Hf; lia); [set_solver|]. cbn [gview_WaitEvent].
  destruct (read_event_shows p last e es Hp) as (p1 & E1 & R1).
  assert (Hp1 : pending (os p1) = es).
  { pose proof (ch_pending _ _ _ _ _ _ _ R1) as Hpend. rewrite Hp in Hpend. by injection Hpend. }
  assert (e = evQuit ∨ e ≠ evQuit) as [->|Hne] by (destruct e; (by left) || (by right)).
  - exists [evQuit], p1. split; [|done]. unfold runs. by rewrite (runs_bind _ _ _ _ _ E1).
  - destruct (IH fuel (Some e) p1) as (es1 & p2 & E2 & R2); [set_solver|simpl in Hf; lia|done|].
    exists ([e] ++ es1), p2. split; [|exact (ran_trans _ _ _ _ _ _ _ R1 R2)].
    unfold runs. rewrite (runs_bind _ _ _ _ _ E1). cbn [Z.eqb negb]. by destruct e.
Qed.
End view.
End ViewFacts.
Import ViewFacts.

(** ** Properties *)


(** gview shows the picture: for every image that the decoder gives, every pixel is
    drawn once, at its place and in its colour, then the window is shown, and closed
    when it is asked to; the program ends with [exit(0)]. *)
Theorem gview_shows {K : Type} `{SL : ScreenLaws K} `{Strerror} `{ImageDecoder K} (fuel : nat) (name path : list Z)
    (fd base size width height bpp layer : Z) (data : list Z) (es : list AppEvent) (k k1 k2 k3 k4 : K)
    (Hopen : SyscallOpenFile k path O_RDONLY = Done (mkResult fd 0, k1)) (Hfd : 0 ≤ fd < 2 ^ 31)
    (Hmap : SyscallMapFile k1 fd 0 = Done (mkResult base 0, Some size, k2))
    (Hload : stbi_load_from_memory k2 base size = Done (inl (width, height, bpp, data), k3)) (Himage : image_ok width height bpp data)
    (Hwin : ∀ k3', changed pending shown memory k3 [] [] k3' →
       ∃ k4', SyscallOpenWindow k3' (8 + width) (28 + height) 10 10 (after_slash path path) = Done (mkResult layer 0, k4') ∧
         changed pending shown memory k4 [] [] k4')
    (Hevents : pending k4 = es) (Hquit : evQuit ∈ es) (Hfuel : (length es < fuel)%nat) :
  ∃ p', gview_main fuel [name; path] (new_Proc k) = Done (Exited 0, p') ∧
    shown (os p') = shown k4 ++ pixels layer width height bpp data ++ [Redraw layer; Close layer].
Proof.
  pose proof (MapFile_runs path fd base _ (new_Proc k) k1 k2 Hopen Hfd Hmap) as E1. set (p1 := mkProc k2 _ _ _) in *.
  set (p2 := mkProc k3 (errno p1) (dpage_end p1) (program_break p1)).
  assert (E2 : runs (sys (λ k, stbi_load_from_memory k base size)) p1 (inl (width, height, bpp, data)) p2).
  { unfold runs, sys, mbind, outcome_bind. cbn [os p1]. by rewrite Hload. }
  set (message := fmt_d width ++ chars "x" ++ fmt_d height ++ chars ", " ++ fmt_d bpp ++ chars " bytes/pixel" ++ [10]).
  destruct (fputs_shows p2 stderr_fd message) as (p3 & E3 & R3).
  destruct (Hwin (os p3) R3) as (k4' & Ew & R4). set (p4 := mkProc k4' (errno p3) (dpage_end p3) (program_break p3)).
  assert (E4 : runs (sys (λ k, SyscallOpenWindow k (8 + width) (28 + height) 10 10 (after_slash path path))) p3 (mkResult layer 0) p4).
  { unfold runs, sys, mbind, outcome_bind. by rewrite Ew. }
  destruct (pixels_shows layer width height bpp data p4 Himage) as (p5 & E5 & R5).
  destruct (redraw_shows p5 layer) as (p6 & E6 & R6).
  assert (Hp6 : pending (os p6) = es).
  { rewrite <- Hevents, (ch_pending _ _ _ _ _ _ _ R4). change k4' with (os p4). rewrite (ch_pending _ _ _ _ _ _ _ R5).
    by rewrite (ch_pending _ _ _ _ _ _ _ R6). }
  destruct (gview_wait_shows es fuel None p6 Hquit Hfuel Hp6) as (es1 & p7 & E7 & R7).
  destruct (close_shows p7 layer) as (p8 & E8 & R8). exists p8. split.
  - unfold gview_main. change (Z.of_nat (length [name; path]) <? 2) with false. cbv iota.
    assert (Ea : runs (arg_at [name; path] 1) (new_Proc k) path (new_Proc k)) by reflexivity.
    unfold runs in *. rewrite (runs_bind _ _ _ _ _ Ea), (runs_bind _ _ _ _ _ E1). cbv beta iota.
    rewrite (runs_bind _ _ _ _ _ E2). cbv beta iota. fold message. rewrite (runs_bind _ _ _ _ _ E3), (runs_bind _ _ _ _ _ E4).
    cbn [res_error res_value Z.eqb negb].
    rewrite (runs_bind _ _ _ _ _ E5), (runs_bind _ _ _ _ _ E6), (runs_bind _ _ _ _ _ E7). by rewrite (runs_bind _ _ _ _ _ E8).
  - rewrite (ch_shown _ _ _ _ _ _ _ R8), (ch_shown _ _ _ _ _ _ _ R7), (ch_shown _ _ _ _ _ _ _ R6), (ch_shown _ _ _ _ _ _ _ R5).
    change (os p4) with k4'. rewrite (ch_shown _ _ _ _ _ _ _ R4), !app_nil_r, <- !app_assoc. done.
Qed.

(** Three lines in a window of two, one of them not ASCII. *)
Module ToyView.
#[export] Instance messages : Strerror := {| strerror e := fmt_d e |}.

Definition lines : list (list Z) := [[97; 98]; [0x3042; 9; 99]; [100]].
Definition keys : list AppEvent := [evKeyPush 0 81 0 1; evKeyPush 0 81 0 0; evMouseMove 5 5 1 1 0; evQuit].
Definition start : screen := mkScreen keys [] (0x1000, text_bytes lines).

(** A decoder that finds two pixels. *)
#[export] Instance decoder : ImageDecoder screen := {|
  stbi_load_from_memory s _ _ := Done (inl (2, 1, 3, [255; 0; 0; 1; 2; 3]), s);
|}.
End ToyView.
Import ToyView.


Lemma gview_shows_witness :
  ∃ p', gview_main 9 [chars "gview"; chars "a.png"] (new_Proc start) = Done (Exited 0, p') ∧
    s_shown (os p') = [Fill (Z.lor 7 LAYER_NO_REDRAW) 4 24 1 1 0xff0000; Fill (Z.lor 7 LAYER_NO_REDRAW) 5 24 1 1 0x010203;
                       Redraw 7; Close 7].
Proof.
  destruct (gview_shows 9 (chars "gview") (chars "a.png") 3 0x1000 (Z.of_nat (length (text_bytes lines))) 2 1 3 7
    [255; 0; 0; 1; 2; 3] keys start start start start start) as (p' & E & Hs).
  - reflexivity.
  - lia.
  - reflexivity.
  - reflexivity.
  - split; [lia|]. split; [lia|]. split; [lia|]. split; [reflexivity|]. split; [lia|].
    apply (bool_decide_unpack (Forall (λ b, 0 <= b ∧ b < 256) [255; 0; 0; 1; 2; 3])). vm_compute. exact I.
  - intros s R. exists s. split; [reflexivity|exact R].
  - reflexivity.
  - unfold keys. repeat (first [apply list_elem_of_here | apply list_elem_of_further]).
  - apply Nat.ltb_lt. reflexivity.
  - exists p'. split; [exact E|exact Hs].
Defined.
