(* ===== verification/Boot.v ===== *)
(** The boot loader, src/bootloader/MinLoaderPkg/Main.c: it reads the kernel and
    the volume into memory, ends the firmware's boot services and enters the
    kernel.  The firmware is a parameter, [Firmware], with what the loader relies
    on in [FirmwareLaws]. *)
From S2P Require Import Prelude ErrorCode MemoryMap FrameBuffer Paging AppLoad.

(** ** The firmware *)

(** A status is an error when its highest bit is set: [EFI_ERROR]. *)
Definition EFI_ERROR (status : Z) : bool := Z.testbit status 63.
Definition EFI_SUCCESS : Z := 0.

Inductive Guid : Set :=
| gEfiLoadedImageProtocolGuid
| gEfiSimpleFileSystemProtocolGuid
| gEfiGraphicsOutputProtocolGuid
| gEfiBlockIoProtocolGuid
| gEfiAcpiTableGuid
| OtherGuid (id : Z).

#[export] Instance Guid_eq_dec : EqDecision Guid.
Proof. solve_decision. Defined.

Inductive AllocateType : Set := AllocateAnyPages | AllocateAddress.

Definition EFI_OPEN_PROTOCOL_BY_HANDLE_PROTOCOL : Z := 1.
Definition EFI_OPEN_PROTOCOL_GET_PROTOCOL : Z := 2.
Definition EFI_FILE_MODE_READ : Z := 1.
Definition EFI_FILE_MODE_WRITE : Z := 2.
Definition EFI_FILE_MODE_CREATE : Z := 2 ^ 63.

(** [EFI_GRAPHICS_PIXEL_FORMAT]: values of the enumerators. *)
Definition PixelRedGreenBlueReserved8BitPerColor : Z := 0.
Definition PixelBlueGreenRedReserved8BitPerColor : Z := 1.
Definition PixelBitMask : Z := 2.
Definition PixelBltOnly : Z := 3.
Definition PixelFormatMax : Z := 4.

(** The fields of [EFI_GRAPHICS_OUTPUT_PROTOCOL_MODE] and of its [Info]. *)
Record GopMode : Set := mkMode {
  FrameBufferBase : Z; FrameBufferBytes : Z;
  HorizontalResolution : Z; VerticalResolution : Z; PixelFormatOf : Z; PixelsPerScanLine : Z;
}.

(** [EFI_BLOCK_IO_MEDIA] *)
Record BlockMedia : Set := mkMedia {
  MediaId : Z; MediaPresent : Z; LogicalPartition : Z; BlockSize : Z; IoAlign : Z; LastBlock : Z;
}.

(** What [gBS->GetMemoryMap] stores: the bytes go to the buffer. *)
Record MapAnswer : Set := mkAnswer {
  ans_status : Z; ans_size : Z; ans_key : Z; ans_descriptor_size : Z; ans_descriptor_version : Z; ans_bytes : list Z;
}.

(** An argument of a format. *)
Inductive SPrintArg : Set := ANum (n : Z) | AStr (s : list Z).

(** Calls of the firmware: [F] is its state.  A call returns its status and what it
    stores through its pointers; interfaces, handles and files are numbers.
    Structures that the firmware publishes do not change. *)
Class Firmware (F : Type) := {
  bs_AllocatePool : Z → F → F * (Z * Z);                        (* size; status, buffer *)
  bs_FreePool : Z → F → F * Z;
  bs_AllocatePages : AllocateType → Z → Z → F → F * (Z * Z);    (* kind, pages, address; status, address *)
  bs_GetMemoryMap : Z → F → F * MapAnswer;                      (* size of the buffer *)
  bs_ExitBootServices : Z → Z → F → F * Z;                      (* image, key *)
  bs_OpenProtocol : Z → Guid → Z → Z → F → F * (Z * Z);         (* handle, protocol, agent, attributes *)
  bs_LocateHandleBuffer : Guid → F → F * (Z * list Z * Z);      (* status, the handles, their buffer *)
  OpenVolume : Z → F → F * (Z * Z);
  File_Open : Z → list Z → Z → F → F * (Z * Z);                 (* directory, name, mode *)
  File_GetInfo : Z → Z → F → F * (Z * Z);                       (* file, room; status, FileSize *)
  File_Read : Z → Z → F → F * (Z * list Z);
  File_Write : Z → list Z → F → F * Z;
  File_Flush : Z → F → F * Z;
  File_Close : Z → F → F * Z;
  Block_ReadBlocks : Z → Z → Z → Z → F → F * (Z * list Z);      (* device, media, block, bytes *)
  Print : list Z → F → F;
  SPrint : Z → list Z → list SPrintArg → list Z;                (* size of the buffer, format *)
  DeviceHandle : Z → Z;
  ImageBase : Z → Z;
  Mode : Z → GopMode;
  Media : Z → BlockMedia;
  ConfigurationTable : list (Guid * Z);
  cpu_cr0 : Z; cpu_cr4 : Z; cpu_efer : Z;
}.

(** ** Memory *)

Definition read_bytes (m : gmap Z Z) (a n : Z) : list Z := arr_read m <$> seqZ a n.
Definition read_number (m : gmap Z Z) (a n : Z) : Z := little_endian (read_bytes m a n).

Fixpoint write_bytes (m : gmap Z Z) (a : Z) (l : list Z) : gmap Z Z :=
  match l with
  | [] => m
  | b :: l => write_bytes (<[a := b]> m) (a + 1) l
  end.

(** ** The kernel's ELF file in memory *)

(** [CopyMem] and [SetMem] *)
Definition CopyMem (m : gmap Z Z) (dst src n : Z) : gmap Z Z := write_bytes m dst (read_bytes m src n).
Definition SetMem (m : gmap Z Z) (dst n v : Z) : gmap Z Z := write_bytes m dst (replicate (Z.to_nat n) v).

(** [phdr[i]] of the file at [ehdr] *)
Definition phdr_at (m : gmap Z Z) (ehdr i : Z) : Elf64_Phdr :=
  let a := u64 (ehdr + read_number m (ehdr + 32) 8) + sizeof_Phdr * i in
  mkPhdr (read_number m a 4) (read_number m (a + 4) 4) (read_number m (a + 8) 8) (read_number m (a + 16) 8)
    (read_number m (a + 24) 8) (read_number m (a + 32) 8) (read_number m (a + 40) 8) (read_number m (a + 48) 8).

Definition phnum_at (m : gmap Z Z) (ehdr : Z) : Z := read_number m (ehdr + 56) 2.

Definition MAX_UINT64 : Z := 2 ^ 64 - 1.

(** [CalcLoadAddressRange]: [*first] and [*last] *)
Definition range_step (p : Elf64_Phdr) (r : Z * Z) : Z * Z :=
  if negb (p_type p =? PT_LOAD) then r
  else (Z.min (fst r) (p_vaddr p), Z.max (snd r) (u64 (p_vaddr p + p_memsz p))).

Definition CalcLoadAddressRange (m : gmap Z Z) (ehdr : Z) : Z * Z :=
  foldl (λ r i, range_step (phdr_at m ehdr i) r) (MAX_UINT64, 0) (seqZ 0 (phnum_at m ehdr)).

(** The body of the loop of [CopyLoadSegments]; [SetMem] of the wrapped difference,
    when a segment has more bytes in the file than in memory, is undefined. *)
Definition copy_load_segment (ehdr i : Z) (m : gmap Z Z) : outcome (gmap Z Z) :=
  let p := phdr_at m ehdr i in
  if negb (p_type p =? PT_LOAD) then mret m
  else
    let segm_in_file := u64 (ehdr + p_offset p) in
    let m := CopyMem m (p_vaddr p) segm_in_file (p_filesz p) in
    if p_memsz p <? p_filesz p then Undef
    else mret (SetMem m (u64 (p_vaddr p + p_filesz p)) (p_memsz p - p_filesz p) 0).

Definition CopyLoadSegments (m : gmap Z Z) (ehdr : Z) : outcome (gmap Z Z) :=
  for_loop 0 (phnum_at m ehdr) (copy_load_segment ehdr) m.

(** ** The loader's state *)

(** [struct MemoryMap] *)
Record MemoryMap : Set := mkMap {
  buffer_size : Z; map_buffer : Z; map_size : Z; map_key : Z; descriptor_size : Z; descriptor_version : Z;
}.

(** The firmware, the memory and [g_log_file]. *)
Record Boot (F : Type) : Type := mkBoot { fw : F; ram : gmap Z Z; g_log_file : option Z }.
Arguments mkBoot {F}.
Arguments fw {F}.
Arguments ram {F}.
Arguments g_log_file {F}.

(** A part of the loader ends, or halts the processor after an error. *)
Inductive result (A : Type) : Type := Running (a : A) | Halted (msg : list Z) (status : Z).
Arguments Running {A}.
Arguments Halted {A}.

Definition loader (F A : Type) : Type := Boot F → outcome (Boot F * result A).

#[export] Instance loader_ret F : MRet (loader F) := λ A a b, Done (b, Running a).
#[export] Instance loader_bind F : MBind (loader F) := λ A B k m b,
  match m b with
  | Done (b, Running a) => k a b
  | Done (b, Halted msg status) => Done (b, Halted msg status)
  | Undef => Undef
  | NoFuel => NoFuel
  end.

(** What the kernel is entered with: the addresses in [entry_point(...)] and the
    contents of [config] and [memmap]. *)
Record BootConfig : Set := mkBootConfig {
  config_frame_buffer : Z; config_pixels_per_scan_line : Z; config_horizontal_resolution : Z;
  config_vertical_resolution : Z; config_pixel_format : FrameBuffer.PixelFormat;
}.

Record Handoff : Set := mkHandoff {
  entry_addr : Z; handoff_config : BootConfig; handoff_memmap : MemoryMap; handoff_acpi : Z; handoff_volume : Z;
}.

Section loader.
Context {F : Type} `{FW : Firmware F}.
Abbreviation M := (loader F).

(** A firmware call, and accesses to memory. *)
Definition call {A} (op : F → F * A) : M A := λ b,
  let '(f, a) := op (fw b) in Done (mkBoot f (ram b) (g_log_file b), Running a).
Definition store (a : Z) (l : list Z) : M unit := λ b,
  Done (mkBoot (fw b) (write_bytes (ram b) a l) (g_log_file b), Running tt).
Definition load (a n : Z) : M Z := λ b, Done (b, Running (read_number (ram b) a n)).
Definition lift {A} (f : gmap Z Z → A) : M A := λ b, Done (b, Running (f (ram b))).
Definition modify_ram (f : gmap Z Z → outcome (gmap Z Z)) : M unit := λ b,
  m ← f (ram b); Done (mkBoot (fw b) m (g_log_file b), Running tt).
Definition get_log_file : M (option Z) := λ b, Done (b, Running (g_log_file b)).
Definition set_log_file (h : option Z) : M unit := λ b, Done (mkBoot (fw b) (ram b) h, Running tt).
Definition halt {A} (msg : list Z) (status : Z) : M A := λ b, Done (b, Halted msg status).
Definition undefined {A} : M A := λ _, Undef.
Definition no_fuel {A} : M A := λ _, NoFuel.

Definition line (s : string) : list Z := chars s ++ [10].

(** ** The log *)

Definition LogWrite (msg : list Z) : M unit :=
  _ ← call (λ f, (Print msg f, tt));
  file ← get_log_file;
  match file with
  | None => mret tt
  | Some h => _ ← call (File_Write h msg); _ ← call (File_Flush h); mret tt
  end.

(** [LOG_PRINT]: the text is made in a buffer of 512 characters of 2 bytes. *)
Definition LOG_PRINT (fmt : list Z) (args : list SPrintArg) : M unit := LogWrite (SPrint 1024 fmt args).

(** [_IfErrorHalt]; after the message the processor is halted. *)
Definition IfErrorHalt (msg : string) (status : Z) : M unit :=
  if EFI_ERROR status
  then _ ← LOG_PRINT (line "MSG: %s, Status: %r") [AStr (chars msg); ANum status]; halt (chars msg) status
  else mret tt.

(** [rdmsr] with the result constraint "=A" keeps the lower half in 64-bit code. *)
Definition check_cpu_mode : M unit :=
  let efer := u32 cpu_efer in
  _ ← LOG_PRINT (line "CR0 = 0x%08llx") [ANum cpu_cr0];
  _ ← LOG_PRINT (line "CR4 = 0x%08llx") [ANum cpu_cr4];
  _ ← LOG_PRINT (line "EFER = 0x%08llx") [ANum efer];
  if negb (Z.land efer (Z.shiftl 1 10) =? 0) then LOG_PRINT (line "=> Long Mode Active (LMA = 1)") [] else mret tt.

(** ** The memory map *)

(** Statuses are values of the function; they do not halt here. *)
Definition GetMemoryMap (map : MemoryMap) : M (Z * MemoryMap) :=
  buffer ← (if map_buffer map =? 0 then mret (map_buffer map)
            else _ ← call (bs_FreePool (map_buffer map)); mret 0);
  a ← call (bs_GetMemoryMap 0);
  let size := u64 (ans_size a + ans_descriptor_size a * 2) in
  let map := mkMap size buffer size (ans_key a) (ans_descriptor_size a) (ans_descriptor_version a) in
  '(status, p) ← call (bs_AllocatePool size);
  let map := mkMap size p size (ans_key a) (ans_descriptor_size a) (ans_descriptor_version a) in
  if EFI_ERROR status then mret (status, map)
  else
    a ← call (bs_GetMemoryMap size);
    _ ← store p (ans_bytes a);
    mret (ans_status a, mkMap size p (ans_size a) (ans_key a) (ans_descriptor_size a) (ans_descriptor_version a)).

Definition GetMemoryTypeUnicode (type : Z) : list Z :=
  chars (match type with
  | 0 => "EfiReservedMemoryType" | 1 => "EfiLoaderCode" | 2 => "EfiLoaderData"
  | 3 => "EfiBootServicesCode" | 4 => "EfiBootServicesData" | 5 => "EfiRuntimeServicesCode"
  | 6 => "EfiRuntimeServicesData" | 7 => "EfiConventionalMemory" | 8 => "EfiUnusableMemory"
  | 9 => "EfiACPIReclaimMemory" | 10 => "EfiACPIMemoryNVS" | 11 => "EfiMemoryMappedIO"
  | 12 => "EfiMemoryMappedIOPortSpace" | 13 => "EfiPalCode" | 14 => "EfiPersistentMemory"
  | 15 => "EfiMaxMemoryType" | _ => "InvalidMemoryType"
  end)%string.

(** The descriptor at [iter], with the padding after its type. *)
Definition descriptor_at (m : gmap Z Z) (iter : Z) : MemoryDescriptor :=
  mkDesc (read_number m iter 4) (read_number m (iter + 8) 8) (read_number m (iter + 16) 8)
    (read_number m (iter + 24) 8) (read_number m (iter + 32) 8).

Fixpoint save_loop (fuel : nat) (map : MemoryMap) (file iter i : Z) : M unit :=
  match fuel with
  | O => no_fuel
  | S fuel' =>
      if iter <? map_buffer map + map_size map then
        desc ← lift (λ m, descriptor_at m iter);
        let buf := SPrint 256 (line "%4u | %08lx -> %08lx | %x, %-25ls, %lx, %lx")
          [ANum i; ANum (physical_start desc); ANum (virtual_start desc); ANum (type desc);
           AStr (GetMemoryTypeUnicode (type desc)); ANum (number_of_pages desc); ANum (Z.land (attribute desc) 0xfffff)] in
        _ ← call (File_Write file buf);
        save_loop fuel' map file (iter + descriptor_size map) (i + 1)
      else mret tt
  end.

(** The loop takes one turn per descriptor if descriptors have a size. *)
Definition SaveMemoryMap (map : MemoryMap) (file : Z) : M Z :=
  _ ← call (File_Write file
        (line "Index | PhysicalStart -> VirtualStart | Type, Type(name), NumberOfPages, Attribute"));
  _ ← LOG_PRINT (line "map->buffer = %08lx, map->map_size = %08lx") [ANum (map_buffer map); ANum (map_size map)];
  _ ← save_loop (S (Z.to_nat (map_size map))) map file (map_buffer map) 0;
  mret EFI_SUCCESS.

(** ** Protocols *)

(** A result is [(status, *out)]; after an error [*out] is not set, here 0. *)
Definition OpenRootDir (image_handle : Z) : M (Z * Z) :=
  '(status, loaded_image) ←
    call (bs_OpenProtocol image_handle gEfiLoadedImageProtocolGuid image_handle EFI_OPEN_PROTOCOL_BY_HANDLE_PROTOCOL);
  if EFI_ERROR status then mret (status, 0)
  else
    '(status, fs) ← call (bs_OpenProtocol (DeviceHandle loaded_image) gEfiSimpleFileSystemProtocolGuid image_handle
                            EFI_OPEN_PROTOCOL_BY_HANDLE_PROTOCOL);
    if EFI_ERROR status then mret (status, 0)
    else call (OpenVolume fs).

Definition OpenGOP (image_handle : Z) : M (Z * Z) :=
  '(status, gop_handles, buffer) ← call (bs_LocateHandleBuffer gEfiGraphicsOutputProtocolGuid);
  if EFI_ERROR status then mret (status, 0)
  else
    match gop_handles with
    | [] => undefined
    | h :: _ =>
        '(status, gop) ← call (bs_OpenProtocol h gEfiGraphicsOutputProtocolGuid image_handle
                                 EFI_OPEN_PROTOCOL_BY_HANDLE_PROTOCOL);
        if EFI_ERROR status then mret (status, 0)
        else _ ← call (bs_FreePool buffer); mret (EFI_SUCCESS, gop)
    end.

Definition GetPixelFormatUnicode (fmt : Z) : list Z :=
  chars (match fmt with
  | 0 => "PixelRedGreenBlueReserved8BitPerColor" | 1 => "PixelBlueGreenRedReserved8BitPerColor"
  | 2 => "PixelBitMask" | 3 => "PixelBltOnly" | 4 => "PixelFormatMax" | _ => "InvalidPixelFormat"
  end)%string.

Definition OpenBlockIoProtocolForLoadedImage (image_handle : Z) : M (Z * Z) :=
  '(status, loaded_image) ←
    call (bs_OpenProtocol image_handle gEfiLoadedImageProtocolGuid image_handle EFI_OPEN_PROTOCOL_BY_HANDLE_PROTOCOL);
  if EFI_ERROR status then mret (status, 0)
  else call (bs_OpenProtocol (DeviceHandle loaded_image) gEfiBlockIoProtocolGuid image_handle
               EFI_OPEN_PROTOCOL_BY_HANDLE_PROTOCOL).

(** ** Files and blocks *)

Definition sizeof_EFI_FILE_INFO : Z := 88.

Definition ReadFile (file : Z) : M (Z * Z) :=
  '(status, file_size) ← call (File_GetInfo file (sizeof_EFI_FILE_INFO + 2 * 12));
  if EFI_ERROR status then mret (status, 0)
  else
    '(status, buffer) ← call (bs_AllocatePool file_size);
    if EFI_ERROR status then mret (status, buffer)
    else
      '(status, bytes) ← call (File_Read file file_size);
      _ ← store buffer bytes;
      mret (status, buffer).

Definition ReadBlocks (block_io media_id read_bytes : Z) : M (Z * Z) :=
  '(status, buffer) ← call (bs_AllocatePool read_bytes);
  if EFI_ERROR status then mret (status, buffer)
  else
    '(status, bytes) ← call (Block_ReadBlocks block_io media_id 0 read_bytes);
    _ ← store buffer bytes;
    mret (status, buffer).

Definition chunk_size : Z := 64 * 1024.

Fixpoint chunk_loop (fuel : nat) (block_io media_id total_bytes buffer offset lba : Z) : M Z :=
  match fuel with
  | O => no_fuel
  | S fuel' =>
      if offset <? total_bytes then
        let read_size := if total_bytes <? offset + chunk_size then total_bytes - offset else chunk_size in
        '(status, bytes) ← call (Block_ReadBlocks block_io media_id lba read_size);
        _ ← store (buffer + offset) bytes;
        if EFI_ERROR status then mret status
        else if BlockSize (Media block_io) =? 0 then undefined
        else chunk_loop fuel' block_io media_id total_bytes buffer (offset + chunk_size)
               (lba + read_size / BlockSize (Media block_io))
      else mret EFI_SUCCESS
  end.

(** One turn per chunk. *)
Definition ReadBlocksChunked (block_io media_id total_bytes buffer : Z) : M Z :=
  chunk_loop (S (Z.to_nat ((total_bytes + chunk_size - 1) / chunk_size))) block_io media_id total_bytes buffer 0 0.

(** ** The parts of [UefiMain] *)

(** The memory map is written to a file if the file can be opened. *)
Definition save_map_file (memmap : MemoryMap) (root_dir : Z) : M unit :=
  '(status, memmap_file) ← call (File_Open root_dir (chars "\memmap")
    (Z.lor (Z.lor EFI_FILE_MODE_READ EFI_FILE_MODE_WRITE) EFI_FILE_MODE_CREATE));
  if EFI_ERROR status then
    _ ← LOG_PRINT (line "failed to open file '\memmap': %r") [ANum status];
    LOG_PRINT (line "Ignored.") []
  else
    status ← SaveMemoryMap memmap memmap_file;
    _ ← IfErrorHalt "SaveMemoryMap Failed" status;
    status ← call (File_Close memmap_file);
    IfErrorHalt "close memory map Failed" status.

Definition start_log (root_dir : Z) : M unit :=
  '(status, file) ← call (File_Open root_dir (chars "\bootlog.txt")
    (Z.lor (Z.lor EFI_FILE_MODE_READ EFI_FILE_MODE_WRITE) EFI_FILE_MODE_CREATE));
  _ ← (if EFI_ERROR status
       then _ ← LOG_PRINT (line "log file open failed: %r (ignored)") [ANum status]; set_log_file None
       else set_log_file (Some file));
  LOG_PRINT (line "=== [BOOTLOADER] Logging START ===") [].

Definition open_gop (image_handle : Z) : M Z :=
  '(status, gop) ← OpenGOP image_handle;
  _ ← IfErrorHalt "OpenGOP Failed" status;
  let mode := Mode gop in
  _ ← LOG_PRINT (line "Resolution: %ux%u, Pixel Format: %s, %u pixels/line")
        [ANum (HorizontalResolution mode); ANum (VerticalResolution mode);
         AStr (GetPixelFormatUnicode (PixelFormatOf mode)); ANum (PixelsPerScanLine mode)];
  _ ← LOG_PRINT (line "Frame Buffer: 0x%0lx - 0x%0lx, Size: %lu bytes")
        [ANum (FrameBufferBase mode); ANum (FrameBufferBase mode + FrameBufferBytes mode); ANum (FrameBufferBytes mode)];
  mret gop.

(** The kernel file is read, its segments get pages at their own addresses, and the
    file's buffer is given back; the result is [kernel_first_addr]. *)
Definition load_kernel (root_dir : Z) : M Z :=
  '(status, kernel_file) ← call (File_Open root_dir (chars "\kernel.elf") EFI_FILE_MODE_READ);
  _ ← IfErrorHalt "open file '\kernel.elf' Failed" status;
  '(status, kernel_buffer) ← ReadFile kernel_file;
  _ ← IfErrorHalt "Read from kernel_file Failed.." status;
  '(first, last) ← lift (λ m, CalcLoadAddressRange m kernel_buffer);
  _ ← LOG_PRINT (line "Kernel: 0x%0lx - 0x%0lx") [ANum first; ANum last];
  let num_pages := u64 (last - first + 0xfff) / 0x1000 in
  '(status, first) ← call (bs_AllocatePages AllocateAddress num_pages first);
  _ ← IfErrorHalt "AllocatePages Failed!" status;
  _ ← modify_ram (λ m, CopyLoadSegments m kernel_buffer);
  status ← call (bs_FreePool kernel_buffer);
  _ ← IfErrorHalt "FreePool Failed" status;
  mret first.

(** The first 128 MiB of the device the loader came from; the result is [volume_image]. *)
Definition load_volume (image_handle : Z) : M Z :=
  '(status, block_io) ← OpenBlockIoProtocolForLoadedImage image_handle;
  _ ← IfErrorHalt "failed to open Block I/O Protocol" status;
  let media := Media block_io in
  _ ← LOG_PRINT (line "LogicalPartition=%d, BlockSize=%u, IoAlign=%u, LastBlock=%u, MediaId=%u, MP=%u")
        [ANum (LogicalPartition media); ANum (BlockSize media); ANum (IoAlign media); ANum (LastBlock media);
         ANum (MediaId media); ANum (MediaPresent media)];
  let volume_bytes := u64 (BlockSize media * (LastBlock media + 1)) in
  let volume_bytes := if 128 * 1024 * 1024 <? volume_bytes then 128 * 1024 * 1024 else volume_bytes in
  let num_pages := (volume_bytes + 0xfff) / 0x1000 in
  '(status, addr) ← call (bs_AllocatePages AllocateAnyPages num_pages 0);
  _ ← IfErrorHalt "AllocatePages failed" status;
  status ← ReadBlocksChunked block_io (MediaId media) volume_bytes addr;
  _ ← IfErrorHalt "ReadBlocksChunked failed" status;
  mret addr.

Definition end_log : M unit :=
  file ← get_log_file;
  match file with
  | None => mret tt
  | Some h =>
      _ ← LOG_PRINT (line "=== [BOOTLOADER] Logging END ===") [];
      _ ← call (File_Close h);
      set_log_file None
  end.

(** The map from before the allocations is tried first, then a new one. *)
Definition stop_bootservice (image_handle : Z) (memmap : MemoryMap) : M MemoryMap :=
  status ← call (bs_ExitBootServices image_handle (map_key memmap));
  if EFI_ERROR status then
    '(status, memmap) ← GetMemoryMap memmap;
    _ ← IfErrorHalt "failed to get memory map" status;
    status ← call (bs_ExitBootServices image_handle (map_key memmap));
    _ ← IfErrorHalt "Could not exit boot service" status;
    mret memmap
  else mret memmap.

(** The pixel format is passed to [_IfErrorHalt] as a status, which no enumerator
    makes an error: another format leaves the 0 of the initialiser. *)
Definition frame_buffer_config (gop : Z) : M BootConfig :=
  let mode := Mode gop in
  let config := mkBootConfig (FrameBufferBase mode) (PixelsPerScanLine mode) (HorizontalResolution mode)
                  (VerticalResolution mode) in
  if PixelFormatOf mode =? PixelRedGreenBlueReserved8BitPerColor then mret (config kPixelRGBResv8BitPerColor)
  else if PixelFormatOf mode =? PixelBlueGreenRedReserved8BitPerColor then mret (config kPixelBGRResv8BitPerColor)
  else _ ← IfErrorHalt "Unimplemented pixel format" (PixelFormatOf mode); mret (config kPixelRGBResv8BitPerColor).

Fixpoint find_acpi_table (tables : list (Guid * Z)) : Z :=
  match tables with
  | [] => 0
  | (VendorGuid, VendorTable) :: tables =>
      if bool_decide (gEfiAcpiTableGuid = VendorGuid) then VendorTable else find_acpi_table tables
  end.

(** [UefiMain] up to the call of the kernel's entry point, which does not return. *)
Definition UefiMain (image_handle : Z) : M Handoff :=
  _ ← check_cpu_mode;
  _ ← LOG_PRINT (line "Hello, min-os World!") [];
  '(status, loaded_image) ←
    call (bs_OpenProtocol image_handle gEfiLoadedImageProtocolGuid image_handle EFI_OPEN_PROTOCOL_GET_PROTOCOL);
  _ ← IfErrorHalt "OpenProtocol (LoadedImage) Failed" status;
  _ ← LOG_PRINT (line "Base = %p") [ANum (ImageBase loaded_image)];
  '(status, memmap) ← GetMemoryMap (mkMap 0 0 0 0 0 0);
  _ ← IfErrorHalt "get memory map Failed" status;
  '(status, root_dir) ← OpenRootDir image_handle;
  _ ← IfErrorHalt "OpenRootDir Failed" status;
  _ ← save_map_file memmap root_dir;
  _ ← start_log root_dir;
  gop ← open_gop image_handle;
  kernel_first_addr ← load_kernel root_dir;
  volume_image ← load_volume image_handle;
  _ ← end_log;
  memmap ← stop_bootservice image_handle memmap;
  config ← frame_buffer_config gop;
  let acpi_table := find_acpi_table ConfigurationTable in
  entry_addr ← load (kernel_first_addr + 24) 8;
  mret (mkHandoff entry_addr config memmap acpi_table volume_image).
End loader.
