(* ===== verification/BootFacts.v ===== *)
(** The boot loader hands over what it promises: for every firmware that keeps the
    laws below it either halts after an error of the firmware or enters the kernel
    with the kernel's segments, the volume and a current memory map in memory. *)
From S2P Require Import Prelude ErrorCode MemoryMap FrameBuffer Paging AppLoad.
From S2P Require Import Boot.

(** ** Byte memory *)

Lemma read_bytes_length m a n : length (read_bytes m a n) = Z.to_nat n.
Proof. unfold read_bytes. by rewrite length_fmap, length_seqZ. Qed.

Lemma read_bytes_lookup m a n i : 0 ≤ i < n → read_bytes m a n !! Z.to_nat i = Some (arr_read m (a + i)).
Proof. intros Hi. unfold read_bytes. rewrite list_lookup_fmap, lookup_seqZ_lt by lia. simpl. do 2 f_equal. lia. Qed.

Lemma arr_read_write_bytes l : ∀ m a i,
  arr_read (write_bytes m a l) i =
    if decide (a ≤ i < a + Z.of_nat (length l)) then l !!! Z.to_nat (i - a) else arr_read m i.
Proof.
  induction l as [|b l IH]; intros m a i; cbn [write_bytes length].
  - case_decide; [lia|done].
  - rewrite IH, arr_read_set. destruct (decide (a = i)) as [->|Hne].
    + rewrite decide_False, decide_True by lia. by replace (i - i) with 0 by lia.
    + destruct (decide (a + 1 ≤ i < a + 1 + Z.of_nat (length l))).
      * rewrite decide_True by lia. replace (Z.to_nat (i - a)) with (S (Z.to_nat (i - (a + 1)))) by lia. done.
      * by rewrite decide_False by lia.
Qed.

(** [l] is in memory at [a]. *)
Definition holds (m : gmap Z Z) (a : Z) (l : list Z) : Prop :=
  ∀ i x, l !! i = Some x → arr_read m (a + Z.of_nat i) = x.

Lemma holds_write m a l : holds (write_bytes m a l) a l.
Proof.
  intros i x Hi. pose proof (lookup_lt_Some _ _ _ Hi). rewrite arr_read_write_bytes, decide_True by lia.
  replace (Z.to_nat (a + Z.of_nat i - a)) with i by lia. by apply list_lookup_total_correct.
Qed.

Lemma holds_ext m m' a l : holds m a l →
  (∀ i, a ≤ i < a + Z.of_nat (length l) → arr_read m' i = arr_read m i) → holds m' a l.
Proof. intros H Hm i x Hi. pose proof (lookup_lt_Some _ _ _ Hi). rewrite Hm by lia. by apply H. Qed.

Lemma holds_read_bytes m a l off n : holds m a l → 0 ≤ off → 0 ≤ n → off + n ≤ Z.of_nat (length l) →
  read_bytes m (a + off) n = take (Z.to_nat n) (drop (Z.to_nat off) l).
Proof.
  intros Hl Ho Hn Hle. apply list_eq. intros i. destruct (decide (i < Z.to_nat n)%nat) as [Hi|Hi].
  - replace i with (Z.to_nat (Z.of_nat i)) at 1 by lia. rewrite read_bytes_lookup by lia.
    rewrite lookup_take_lt, lookup_drop by lia.
    destruct (lookup_lt_is_Some_2 l (Z.to_nat off + i)) as [x Hx]; [lia|]. rewrite Hx. f_equal.
    rewrite <- (Hl _ _ Hx). f_equal. lia.
  - rewrite !lookup_ge_None_2; [done|rewrite length_take; lia|rewrite read_bytes_length; lia].
Qed.

(** A number of the file read in memory is the number the file has there. *)
Lemma holds_get m a l off n v : holds m a l → 0 ≤ n → get l off n = Done v → read_number m (a + off) n = v.
Proof.
  intros Hl Hn. unfold get, read_number. destruct (Z.leb_spec 0 off), (Z.leb_spec (off + n) (Z.of_nat (length l))); try done.
  cbn [andb]. intros [= <-]. by rewrite (holds_read_bytes _ _ _ _ _ Hl) by lia.
Qed.

(** ** The kernel's file *)

Definition segment_end (p : Elf64_Phdr) : Z := p_vaddr p + p_memsz p.
Definition loads (phdrs : list Elf64_Phdr) : list Elf64_Phdr := filter (λ p, p_type p = PT_LOAD) phdrs.

Definition apart (a n a' n' : Z) : Prop := a + n ≤ a' ∨ a' + n' ≤ a.

(** The file's program headers are [phdrs], and the segments can be loaded: each is
    inside the file, no larger there than in memory, inside the address space, and
    they do not overlap. *)
Record loadable (file : list Z) (phdrs : list Elf64_Phdr) : Prop := {
  ld_bytes : Forall (λ b, 0 ≤ b < 256) file;
  ld_phnum : e_phnum file = Done (Z.of_nat (length phdrs));
  ld_phdr : ∀ i p, phdrs !! i = Some p → program_header file (Z.of_nat i) = Done p;
  ld_some : loads phdrs ≠ [];
  ld_file : ∀ p, p ∈ loads phdrs → 0 ≤ p_offset p ∧ 0 ≤ p_filesz p ∧ p_offset p + p_filesz p ≤ Z.of_nat (length file);
  ld_size : ∀ p, p ∈ loads phdrs → p_filesz p ≤ p_memsz p ∧ 0 ≤ p_vaddr p ∧ segment_end p < 2 ^ 64 - 4096;
  ld_apart : ∀ i j p q, phdrs !! i = Some p → phdrs !! j = Some q → i ≠ j → p_type p = PT_LOAD → p_type q = PT_LOAD →
    apart (p_vaddr p) (p_memsz p) (p_vaddr q) (p_memsz q);
}.

(** The bytes of a segment: those of the file, then zeros. *)
Definition segment_byte (file : list Z) (p : Elf64_Phdr) (k : Z) : Z :=
  if k <? p_filesz p then file !!! Z.to_nat (p_offset p + k) else 0.

Definition segment_loaded (file : list Z) (m : gmap Z Z) (p : Elf64_Phdr) : Prop :=
  ∀ k, 0 ≤ k < p_memsz p → arr_read m (p_vaddr p + k) = segment_byte file p k.

(** The least and the greatest address of the segments. *)
Definition first_addr (phdrs : list Elf64_Phdr) : Z := foldr (λ p, Z.min (p_vaddr p)) MAX_UINT64 (loads phdrs).
Definition last_addr (phdrs : list Elf64_Phdr) : Z := foldr (λ p, Z.max (segment_end p)) 0 (loads phdrs).

Lemma range_fold ps : ∀ r, (∀ p, p ∈ loads ps → 0 ≤ segment_end p < 2 ^ 64) →
  foldl (λ r p, range_step p r) r ps =
    (foldr (λ p, Z.min (p_vaddr p)) (fst r) (loads ps), foldr (λ p, Z.max (segment_end p)) (snd r) (loads ps)).
Proof.
  induction ps as [|p ps IH]; intros [f l] Hps; [done|]. cbn [foldl]. unfold loads in *. rewrite filter_cons in *.
  unfold range_step at 2. destruct (decide (p_type p = PT_LOAD)) as [E|E].
  - rewrite (proj2 (Z.eqb_eq _ _) E). cbn [negb fst snd]. rewrite IH by (intros q Hq; apply Hps; by right).
    cbn [foldr fst snd]. assert (u64 (p_vaddr p + p_memsz p) = segment_end p) as ->.
    { apply wrap_small. apply Hps. left. }
    f_equal; clear; induction (filter _ ps) as [|q qs IHq]; cbn [foldr]; lia.
  - rewrite (proj2 (Z.eqb_neq _ _) E). cbn [negb]. rewrite IH by done. done.
Qed.

Lemma first_addr_le phdrs p : p ∈ loads phdrs → first_addr phdrs ≤ p_vaddr p.
Proof. unfold first_addr. induction 1 as [|? ? ? ? IH]; cbn [foldr]; lia. Qed.

Lemma last_addr_ge phdrs p : p ∈ loads phdrs → segment_end p ≤ last_addr phdrs.
Proof. unfold last_addr. induction 1 as [|? ? ? ? IH]; cbn [foldr]; lia. Qed.

Lemma little_endian_nonneg l : Forall (λ b, 0 ≤ b < 256) l → 0 ≤ little_endian l.
Proof. induction 1; cbn [little_endian]; lia. Qed.

Lemma get_inside file off n v : get file off n = Done v → 0 ≤ off ∧ off + n ≤ Z.of_nat (length file).
Proof. unfold get. destruct (Z.leb_spec 0 off), (Z.leb_spec (off + n) (Z.of_nat (length file))); done. Qed.

Section segments.
Context (file : list Z) (phdrs : list Elf64_Phdr) (L : loadable file phdrs).
(** The file is in memory at [base], clear of the addresses of the segments. *)
Context (base : Z) (Hbase : 0 < base) (Hend : base + Z.of_nat (length file) < 2 ^ 64).
Context (Hclear : apart base (Z.of_nat (length file)) (first_addr phdrs) (last_addr phdrs - first_addr phdrs)).

Lemma elem_of_loads i p : phdrs !! i = Some p → p_type p = PT_LOAD → p ∈ loads phdrs.
Proof. intros Hi Ht. apply list_elem_of_filter. split; [done|]. by eapply list_elem_of_lookup_2. Qed.

Lemma get_nonneg off n v : get file off n = Done v → 0 ≤ v.
Proof using L.
  unfold get. case_match; [|done]. intros [= <-]. apply little_endian_nonneg, Forall_take, Forall_drop, (ld_bytes _ _ L).
Qed.

Lemma phdr_at_file m i p : holds m base file → phdrs !! i = Some p → phdr_at m base (Z.of_nat i) = p.
Proof using L Hbase Hend.
  intros Hm Hi. pose proof (ld_phdr _ _ L i p Hi) as Hp. unfold program_header in Hp. bind_inv.
  repeat match goal with H : get file _ _ = Done _ |- _ => pose proof (get_inside _ _ _ _ H); revert H end. intros.
  unfold phdr_at, sizeof_Phdr in *. rewrite (holds_get m base file 32 8 x Hm) by done.
  assert (0 ≤ x) by (eapply get_nonneg; eassumption).
  assert (u64 (base + x) = base + x) as -> by (apply wrap_small; lia).
  rewrite <- Hp. f_equal; rewrite <- ?Z.add_assoc; apply (holds_get _ _ _ _ _ _ Hm); try lia; by rewrite ?Z.add_assoc.
Qed.

Lemma phnum_at_file m : holds m base file → phnum_at m base = Z.of_nat (length phdrs).
Proof using L. intros Hm. apply (holds_get _ _ _ _ _ _ Hm); [lia|apply (ld_phnum _ _ L)]. Qed.

Lemma CalcLoadAddressRange_file m : holds m base file → CalcLoadAddressRange m base = (first_addr phdrs, last_addr phdrs).
Proof using L Hbase Hend.
  intros Hm. unfold CalcLoadAddressRange. rewrite phnum_at_file by done.
  transitivity (foldl (λ r p, range_step p r) (MAX_UINT64, 0) phdrs).
  - assert (phdrs = phdr_at m base <$> seqZ 0 (Z.of_nat (length phdrs))) as E.
    { apply list_eq. intros i. rewrite list_lookup_fmap. destruct (phdrs !! i) as [p|] eqn:E.
      - pose proof (lookup_lt_Some _ _ _ E). rewrite lookup_seqZ_lt by lia. simpl. f_equal. symmetry. by apply phdr_at_file.
      - apply lookup_ge_None in E. by rewrite lookup_seqZ_ge by lia. }
    rewrite E at 2. clear. generalize (MAX_UINT64, 0). induction (seqZ 0 _) as [|i l IH]; intros r; [done|]. apply IH.
  - rewrite range_fold; [done|]. intros p Hp. destruct (ld_size _ _ L p Hp) as (? & ? & ?).
    destruct (ld_file _ _ L p Hp) as (? & ? & ?). unfold segment_end in *. lia.
Qed.

(** Copying one segment changes its addresses only, and to its bytes. *)
Lemma copy_load_segment_spec m i p : holds m base file → phdrs !! i = Some p → p_type p = PT_LOAD →
  ∃ m', copy_load_segment base (Z.of_nat i) m = Done m' ∧
    ∀ a, arr_read m' a =
      if decide (p_vaddr p ≤ a < segment_end p) then segment_byte file p (a - p_vaddr p) else arr_read m a.
Proof using L Hbase Hend.
  intros Hm Hi Ht. pose proof (elem_of_loads i p Hi Ht) as Hp.
  destruct (ld_file _ _ L p Hp) as (Ho & Hf & Hfl), (ld_size _ _ L p Hp) as (Hs & Hv & Hse).
  unfold copy_load_segment. rewrite (phdr_at_file _ _ _ Hm Hi), (proj2 (Z.eqb_eq _ _) Ht). cbn [negb].
  destruct (Z.ltb_spec (p_memsz p) (p_filesz p)); [lia|]. eexists. split; [done|]. intros a. unfold segment_end in *.
  unfold SetMem, CopyMem. rewrite !arr_read_write_bytes, length_replicate, read_bytes_length.
  assert (u64 (p_vaddr p + p_filesz p) = p_vaddr p + p_filesz p) as -> by (apply wrap_small; lia).
  assert (u64 (base + p_offset p) = base + p_offset p) as -> by (apply wrap_small; lia).
  rewrite (holds_read_bytes _ _ _ _ _ Hm) by lia. unfold segment_byte.
  destruct (Z.ltb_spec (a - p_vaddr p) (p_filesz p)); repeat case_decide; try lia; try done.
  - rewrite list_lookup_total_alt, lookup_take_lt, lookup_drop by lia. rewrite list_lookup_total_alt. do 2 f_equal. lia.
  - apply list_lookup_total_correct, lookup_replicate_2. lia.
Qed.

Lemma holds_after m m' : holds m base file →
  (∀ a, ¬ first_addr phdrs ≤ a < last_addr phdrs → arr_read m' a = arr_read m a) → holds m' base file.
Proof using Hclear. intros Hm Hx. apply (holds_ext m); [done|]. intros i Hi. apply Hx. unfold apart in Hclear. lia. Qed.

Lemma CopyLoadSegments_spec m : holds m base file →
  ∃ m', CopyLoadSegments m base = Done m' ∧ (∀ p, p ∈ loads phdrs → segment_loaded file m' p) ∧
    ∀ a, ¬ first_addr phdrs ≤ a < last_addr phdrs → arr_read m' a = arr_read m a.
Proof using All.
  intros Hm. unfold CopyLoadSegments. rewrite phnum_at_file by done.
  destruct (for_loop_inv (λ i m', (∀ j p, Z.of_nat j < i → phdrs !! j = Some p → p_type p = PT_LOAD → segment_loaded file m' p) ∧
      ∀ a, ¬ first_addr phdrs ≤ a < last_addr phdrs → arr_read m' a = arr_read m a)
    0 (Z.of_nat (length phdrs)) (copy_load_segment base) m) as (m' & Hrun & Hseg & Hout); [lia|split; [lia|done]| |].
  - intros i m1 Hi [Hseg Hout]. pose proof (holds_after _ _ Hm Hout) as Hm1. rewrite <- (Z2Nat.id i) in * by lia.
    set (k := Z.to_nat i) in *. clearbody k. destruct (lookup_lt_is_Some_2 phdrs k) as [p Hp]; [lia|].
    destruct (decide (p_type p = PT_LOAD)) as [Ht|Ht].
    + destruct (copy_load_segment_spec m1 k p Hm1 Hp Ht) as (m2 & -> & Hm2). exists m2. split; [done|].
      pose proof (elem_of_loads k p Hp Ht) as Hin. pose proof (first_addr_le _ _ Hin). pose proof (last_addr_ge _ _ Hin).
      destruct (ld_size _ _ L p Hin) as (Hs & _ & _). destruct (ld_file _ _ L p Hin) as (_ & Hf & _). unfold segment_end in *. split.
      * intros j q Hj Hq Hqt x Hx. destruct (decide (j = k)) as [->|Hjk].
        -- simplify_eq. rewrite Hm2, decide_True by lia. f_equal. lia.
        -- rewrite Hm2, decide_False; [apply (Hseg j); [lia|done..]|].
           pose proof (ld_apart _ _ L j k q p Hq Hp Hjk Hqt Ht) as Ha. unfold apart in Ha. lia.
      * intros a Ha. rewrite Hm2, decide_False by lia. auto.
    + exists m1. unfold copy_load_segment. rewrite (phdr_at_file _ _ _ Hm1 Hp), (proj2 (Z.eqb_neq _ _) Ht). split; [done|].
      split; [|done]. intros j q Hj Hq Hqt. destruct (decide (j = k)) as [->|]; [congruence|]. apply (Hseg j); [lia|done..].
  - exists m'. split_and!; [done| |done]. intros p [Ht [j Hj]%list_elem_of_lookup_1]%list_elem_of_filter.
    apply (Hseg j); [|done|done]. pose proof (lookup_lt_Some _ _ _ Hj). lia.
Qed.
End segments.

Lemma load_span file phdrs : loadable file phdrs →
  0 ≤ first_addr phdrs ≤ last_addr phdrs ∧ last_addr phdrs < 2 ^ 64 - 4096.
Proof.
  intros L. destruct (loads phdrs) as [|p ps] eqn:E; [by destruct (ld_some _ _ L)|].
  assert (p ∈ loads phdrs) as Hp by (rewrite E; left).
  pose proof (first_addr_le _ _ Hp). pose proof (last_addr_ge _ _ Hp).
  destruct (ld_file _ _ L p Hp) as (_ & ? & _), (ld_size _ _ L p Hp) as (? & ? & _). unfold segment_end in *.
  assert (Hall : ∀ qs, qs ⊆ loads phdrs → 0 ≤ foldr (λ p, Z.min (p_vaddr p)) MAX_UINT64 qs ∧
    foldr (λ p, Z.max (segment_end p)) 0 qs < 2 ^ 64 - 4096).
  { induction qs as [|q qs IH]; intros Hqs; cbn [foldr]; [unfold MAX_UINT64; lia|].
    destruct (ld_size _ _ L q) as (_ & ? & ?); [set_solver|]. destruct IH; [set_solver|]. lia. }
  destruct (Hall _ (reflexivity _)). unfold first_addr, last_addr in *. lia.
Qed.

(** ** What the loader relies on *)

(** A range that the firmware has just handed out: it lies in the address space and
    meets nothing that is in use. *)
Definition fresh (p n : Z) (l : list (Z * Z)) : Prop :=
  0 < p ∧ p + n < 2 ^ 64 ∧ ∀ r, r ∈ l → apart p n (fst r) (snd r) ∧ fst r ≠ p.

Section laws.
Context {F : Type} `{FW : Firmware F}.

Definition quiet {A} (live : F → list (Z * Z)) (op : F → F * A) : Prop := ∀ f, live f ⊆ live (fst (op f)).

(** The laws are those of the UEFI specification.  [live] lists the memory in use
    as pairs of address and size, [current_map] and [current_key] are the memory map
    with its key, [unread] is what is left to read of an open file.  The volume's
    root holds the file [kernel], the device has the bytes [disk]. *)
Class FirmwareLaws (kernel : list Z) (disk : Z → Z) := {
  live : F → list (Z * Z);
  current_map : F → list Z;
  current_key : F → Z;
  map_descriptor_size : Z;
  unread : F → Z → option (list Z);
  volume_device : Z;
  law_Print msg f : live f ⊆ live (Print msg f);
  law_Write h l : quiet live (File_Write h l);
  law_Flush h : quiet live (File_Flush h);
  law_Close h : quiet live (File_Close h);
  law_Open d n m : quiet live (File_Open d n m);
  law_GetInfo h n : quiet live (File_GetInfo h n);
  law_Read h n : quiet live (File_Read h n);
  law_ReadBlocks d m l n : quiet live (Block_ReadBlocks d m l n);
  law_OpenProtocol h g a k : quiet live (bs_OpenProtocol h g a k);
  law_OpenVolume h : quiet live (OpenVolume h);
  law_LocateHandleBuffer g : quiet live (bs_LocateHandleBuffer g);
  law_GetMemoryMap n : quiet live (bs_GetMemoryMap n);
  law_Exit i k : quiet live (bs_ExitBootServices i k);
  law_AllocatePool n f f' st p : bs_AllocatePool n f = (f', (st, p)) →
    unread f' = unread f ∧
    Z.of_nat (length (current_map f')) ≤ Z.of_nat (length (current_map f)) + 2 * map_descriptor_size ∧
    if EFI_ERROR st then live f ⊆ live f' else fresh p n (live f) ∧ live f' = (p, n) :: live f;
  law_AllocatePages k n a f f' st p : bs_AllocatePages k n a f = (f', (st, p)) →
    if EFI_ERROR st then live f ⊆ live f'
    else fresh p (4096 * n) (live f) ∧ live f' = (p, 4096 * n) :: live f ∧ (k = AllocateAddress → p = a);
  law_FreePool p f f' st r : bs_FreePool p f = (f', st) → r ∈ live f → fst r ≠ p → r ∈ live f';
  law_handles g f f' st hs p : bs_LocateHandleBuffer g f = (f', (st, hs, p)) → EFI_ERROR st = false →
    hs ≠ [] ∧ ∀ r, r ∈ live f → fst r ≠ p;
  law_descriptor_size : 0 < map_descriptor_size;
  law_map_small f : Z.of_nat (length (current_map f)) + 2 * map_descriptor_size < 2 ^ 64;
  law_map_answer n f f' a : bs_GetMemoryMap n f = (f', a) →
    current_map f' = current_map f ∧ current_key f' = current_key f ∧
    ans_descriptor_size a = map_descriptor_size ∧ ans_size a = Z.of_nat (length (current_map f)) ∧
    (ans_size a ≤ n → EFI_ERROR (ans_status a) = false ∧ ans_key a = current_key f ∧ ans_bytes a = current_map f);
  law_key f f' : current_key f = current_key f' → current_map f = current_map f';
  law_Exit_key i k f f' st : bs_ExitBootServices i k f = (f', st) → EFI_ERROR st = false →
    k = current_key f ∧ current_map f' = current_map f;
  law_Open_kernel d m f f' st h : File_Open d (chars "\kernel.elf") m f = (f', (st, h)) → EFI_ERROR st = false →
    unread f' h = Some kernel;
  law_FileSize h n f f' st size l : File_GetInfo h n f = (f', (st, size)) → EFI_ERROR st = false →
    unread f h = Some l → size = Z.of_nat (length l) ∧ unread f' h = Some l;
  law_Read_bytes h n f f' st bytes l : File_Read h n f = (f', (st, bytes)) → EFI_ERROR st = false →
    unread f h = Some l → bytes = take (Z.to_nat n) l;
  law_device h a k f f' st d : bs_OpenProtocol h gEfiBlockIoProtocolGuid a k f = (f', (st, d)) → EFI_ERROR st = false →
    d = volume_device;
  law_media : 0 < BlockSize (Media volume_device) ∧ 0 ≤ LastBlock (Media volume_device);
  (* no more bytes than asked for are stored; without an error the blocks *)
  law_blocks m l n f f' st bytes : Block_ReadBlocks volume_device m l n f = (f', (st, bytes)) → 0 ≤ n →
    Z.of_nat (length bytes) ≤ n ∧ (EFI_ERROR st = false →
      n mod BlockSize (Media volume_device) = 0 ∧ bytes = disk <$> seqZ (l * BlockSize (Media volume_device)) n);
}.
End laws.

Section boot.
Context {F : Type} `{FW : Firmware F} {kernel : list Z} {disk : Z → Z} {FL : FirmwareLaws kernel disk}.
Implicit Types b : Boot F.

(** ** Runs of the loader *)

(** A run returns or halts after an error; when it returns, [Q] holds. *)
Definition wp {A} (m : loader F A) (Q : A → Boot F → Prop) b : Prop :=
  ∃ b' r, m b = Done (b', r) ∧ match r with Running a => Q a b' | Halted _ st => EFI_ERROR st = true end.

Lemma wp_ret {A} (a : A) Q b : Q a b → wp (mret a) Q b.
Proof. intros H. by exists b, (Running a). Qed.

Lemma wp_bind {A B} (m : loader F A) (k : A → loader F B) Q b : wp m (λ a, wp (k a) Q) b → wp (m ≫= k) Q b.
Proof.
  intros (b1 & [a|msg st] & Hm & H).
  - destruct H as (b2 & r & Hk & H). exists b2, r. split; [|done]. unfold mbind, loader_bind. by rewrite Hm.
  - exists b1, (Halted msg st). split; [|done]. unfold mbind, loader_bind. by rewrite Hm.
Qed.

Lemma wp_mono {A} (m : loader F A) (P Q : A → Boot F → Prop) b : wp m P b → (∀ a b', P a b' → Q a b') → wp m Q b.
Proof. intros (b' & r & Hm & H) HPQ. exists b', r. split; [done|]. destruct r; auto. Qed.

Lemma wp_call {A} (op : F → F * A) Q b : (∀ f a, op (fw b) = (f, a) → Q a (mkBoot f (ram b) (g_log_file b))) → wp (call op) Q b.
Proof. intros H. unfold wp, call. destruct (op (fw b)) as [f a] eqn:E. eexists _, _. split; [done|]. by apply H. Qed.

Lemma wp_lift {A} (g : gmap Z Z → A) Q b : Q (g (ram b)) b → wp (lift g) Q b.
Proof. intros H. by eexists _, (Running _). Qed.

Lemma wp_store a l Q b : Q tt (mkBoot (fw b) (write_bytes (ram b) a l) (g_log_file b)) → wp (store a l) Q b.
Proof. intros H. by eexists _, (Running _). Qed.

(** ** Memory in use is kept *)

(** Since [b0], memory in use is still in use and unchanged, but for allocations at
    the addresses [X]. *)
Definition keeps (X : list Z) b0 b : Prop :=
  ∀ r, r ∈ live (fw b0) → fst r ∉ X →
    r ∈ live (fw b) ∧ ∀ i, fst r ≤ i < fst r + snd r → arr_read (ram b) i = arr_read (ram b0) i.

Lemma keeps_refl X b : keeps X b b.
Proof. by intros r Hr _. Qed.

Lemma keeps_fw X b0 b f' l : keeps X b0 b → live (fw b) ⊆ live f' → keeps X b0 (mkBoot f' (ram b) l).
Proof. intros H Hf r Hr HX. destruct (H r Hr HX) as [H1 H2]. split; [by apply Hf|done]. Qed.

Lemma keeps_write X b0 b a l : keeps X b0 b →
  (∀ r, r ∈ live (fw b0) → fst r ∉ X → apart a (Z.of_nat (length l)) (fst r) (snd r)) →
  keeps X b0 (mkBoot (fw b) (write_bytes (ram b) a l) (g_log_file b)).
Proof.
  intros H Ha r Hr HX. destruct (H r Hr HX) as [H1 H2]. split; [done|]. intros i Hi.
  cbn [ram]. rewrite arr_read_write_bytes. pose proof (Ha r Hr HX) as Hap. unfold apart in Hap.
  rewrite decide_False by lia. by apply H2.
Qed.

Lemma keeps_weaken X Y b0 b : keeps X b0 b → X ⊆ Y → keeps Y b0 b.
Proof. intros H HXY r Hr HY. apply H; [done|]. intros HX. by apply HY, HXY. Qed.

Lemma keeps_trans X b0 b1 b2 : keeps X b0 b1 → keeps X b1 b2 → keeps X b0 b2.
Proof.
  intros H1 H2 r Hr HX. destruct (H1 r Hr HX) as [Hl1 Hm1], (H2 r Hl1 HX) as [Hl2 Hm2]. split; [done|].
  intros i Hi. by rewrite Hm2, Hm1.
Qed.

(** The part changes no memory and keeps what is in use. *)
Definition quietly {A} (m : loader F A) : Prop :=
  ∀ b, wp m (λ _ b', live (fw b) ⊆ live (fw b') ∧ ram b' = ram b) b.

Lemma quietly_ret {A} (a : A) : quietly (mret a).
Proof. intros b. apply wp_ret. done. Qed.

Lemma quietly_bind {A B} (m : loader F A) (k : A → loader F B) : quietly m → (∀ a, quietly (k a)) → quietly (m ≫= k).
Proof.
  intros Hm Hk b. apply wp_bind. eapply wp_mono; [apply Hm|]. intros a b1 [Hl1 Hr1]. eapply wp_mono; [apply Hk|].
  intros x b2 [Hl2 Hr2]. split; [by transitivity (live (fw b1))|congruence].
Qed.

Lemma quietly_call {A} (op : F → F * A) : quiet live op → quietly (call op).
Proof. intros Hop b. apply wp_call. intros f a E. split; [|done]. specialize (Hop (fw b)). by rewrite E in Hop. Qed.

Lemma quietly_if {A} (c : bool) (m1 m2 : loader F A) : quietly m1 → quietly m2 → quietly (if c then m1 else m2).
Proof. by destruct c. Qed.

Lemma wp_quietly {A} (m : loader F A) (Q : A → Boot F → Prop) b : quietly m →
  (∀ a b', live (fw b) ⊆ live (fw b') → ram b' = ram b → Q a b') → wp m Q b.
Proof. intros Hm HQ. eapply wp_mono; [apply Hm|]. intros a b' [H1 H2]. auto. Qed.

Lemma quietly_get : quietly (get_log_file : loader F _).
Proof. intros b. eexists _, (Running _). by split. Qed.

Lemma quietly_set h : quietly (set_log_file h : loader F _).
Proof. intros b. eexists _, (Running _). by split. Qed.

Lemma quietly_lift {A} (g : gmap Z Z → A) : quietly (lift g : loader F _).
Proof. intros b. eexists _, (Running _). by split. Qed.

Lemma quietly_LogWrite msg : quietly (LogWrite msg : loader F _).
Proof.
  apply quietly_bind; [apply quietly_call; intros f; apply law_Print|]. intros _. apply quietly_bind; [apply quietly_get|].
  intros [h|]; [|apply quietly_ret]. apply quietly_bind; [apply quietly_call, law_Write|]. intros _.
  apply quietly_bind; [apply quietly_call, law_Flush|]. intros _. apply quietly_ret.
Qed.

(** After the check the status is no error. *)
Lemma wp_IfErrorHalt msg st (Q : unit → Boot F → Prop) b :
  (EFI_ERROR st = false → Q tt b) → wp (IfErrorHalt msg st) Q b.
Proof using All.
  intros HQ. unfold IfErrorHalt. destruct (EFI_ERROR st) eqn:E; [|apply wp_ret; by apply HQ].
  apply wp_bind. eapply wp_quietly; [apply quietly_LogWrite|]. intros _ b' _ _. by eexists _, (Halted _ _).
Qed.

Lemma quietly_IfErrorHalt msg st : quietly (IfErrorHalt msg st : loader F _).
Proof. intros b. apply wp_IfErrorHalt. auto. Qed.

(** Proves that a part is quiet, call by call. *)
Ltac quietly_step :=
  first
  [ apply quietly_ret | apply quietly_LogWrite | apply quietly_IfErrorHalt | apply quietly_get | apply quietly_set
  | apply quietly_lift | apply quietly_if | apply quietly_bind; [|intro]
  | apply quietly_call, law_Write | apply quietly_call, law_Flush | apply quietly_call, law_Close
  | apply quietly_call, law_Open | apply quietly_call, law_GetInfo | apply quietly_call, law_Read
  | apply quietly_call, law_ReadBlocks | apply quietly_call, law_OpenProtocol | apply quietly_call, law_OpenVolume
  | match goal with |- quietly (let '(_, _) := ?p in _) => destruct p end
  | match goal with |- quietly (match ?o with Some _ => _ | None => _ end) => destruct o end ].

Lemma quietly_check_cpu_mode : quietly (check_cpu_mode : loader F _).
Proof. unfold check_cpu_mode. repeat quietly_step. Qed.

Lemma quietly_OpenRootDir i : quietly (OpenRootDir i : loader F _).
Proof. unfold OpenRootDir. repeat quietly_step. Qed.

Lemma quietly_start_log d : quietly (start_log d : loader F _).
Proof. unfold start_log. repeat quietly_step. Qed.

Lemma quietly_end_log : quietly (end_log : loader F _).
Proof. unfold end_log. repeat quietly_step. Qed.

Lemma quietly_frame_buffer_config g : quietly (frame_buffer_config g : loader F _).
Proof. unfold frame_buffer_config. repeat quietly_step. Qed.

Lemma quietly_OpenBlockIo i : quietly (OpenBlockIoProtocolForLoadedImage i : loader F _).
Proof. unfold OpenBlockIoProtocolForLoadedImage. repeat quietly_step. Qed.

Lemma quietly_save_loop map file : 0 < descriptor_size map → ∀ fuel iter i,
  map_buffer map + map_size map - iter < Z.of_nat fuel → 0 < Z.of_nat fuel →
  quietly (save_loop fuel map file iter i : loader F _).
Proof.
  intros Hd. induction fuel as [|fuel IH]; intros iter i Hf Hf0; [lia|]. cbn [save_loop].
  destruct (Z.ltb_spec iter (map_buffer map + map_size map)); [|apply quietly_ret].
  repeat quietly_step. apply IH; lia.
Qed.

Lemma quietly_SaveMemoryMap map file : 0 < descriptor_size map → quietly (SaveMemoryMap map file : loader F _).
Proof.
  intros Hd. unfold SaveMemoryMap. do 2 (apply quietly_bind; [repeat quietly_step|intros _]).
  apply quietly_bind; [apply quietly_save_loop; [done|lia..]|intros _; apply quietly_ret].
Qed.

Lemma quietly_save_map_file map d : 0 < descriptor_size map → quietly (save_map_file map d : loader F _).
Proof. intros Hd. unfold save_map_file. repeat (apply (quietly_SaveMemoryMap _ _ Hd) || quietly_step). Qed.

(** ** The parts that allocate *)

(** The map in the loader's memory: its bytes, its size and its key. *)
Definition map_holds (map : MemoryMap) (bytes : list Z) b : Prop :=
  holds (ram b) (map_buffer map) bytes ∧ map_size map = Z.of_nat (length bytes) ∧
  map_size map ≤ buffer_size map ∧ (map_buffer map, buffer_size map) ∈ live (fw b) ∧
  descriptor_size map = map_descriptor_size.

Lemma map_holds_keeps map bytes X b b' : map_holds map bytes b → keeps X b b' → map_buffer map ∉ X → map_holds map bytes b'.
Proof.
  intros (Hh & Hs & Hb & Hl & Hd) Hk HX. destruct (Hk _ Hl HX) as [Hl' Hm]. split_and!; [|done..].
  apply (holds_ext (ram b)); [done|]. intros i Hi. apply Hm. cbn [fst snd]. lia.
Qed.

(** A map is obtained with its current key; memory in use is kept but for the old buffer. *)
Lemma wp_GetMemoryMap map b0 b (Q : Z * MemoryMap → Boot F → Prop) X : keeps X b0 b → map_buffer map = 0 ∨ map_buffer map ∈ X →
  (∀ st map' b', keeps X b0 b' →
    (EFI_ERROR st = false → map_holds map' (current_map (fw b')) b' ∧ map_key map' = current_key (fw b') ∧
       ∀ r, r ∈ live (fw b0) → fst r ∉ X → fst r ≠ map_buffer map') → Q (st, map') b') →
  wp (GetMemoryMap map) Q b.
Proof.
  intros Hk HX HQ. unfold GetMemoryMap. apply wp_bind.
  assert (wp (if map_buffer map =? 0 then mret (map_buffer map) else _ ← call (bs_FreePool (map_buffer map)); mret 0)
    (λ _ b1, keeps X b0 b1) b) as H1.
  { destruct (Z.eqb_spec (map_buffer map) 0) as [|Hne]; [by apply wp_ret|]. destruct HX as [|HX]; [done|].
    apply wp_bind, wp_call. intros f st E. apply wp_ret. intros r Hr HrX. destruct (Hk r Hr HrX) as [Hl Hm]. split; [|done].
    eapply law_FreePool; [exact E|done|]. intros Er. by rewrite Er in HrX. }
  eapply wp_mono; [exact H1|]. clear H1 Hk. intros buf b1 Hk. apply wp_bind, wp_call. intros f1 a1 E1.
  pose proof (law_GetMemoryMap 0 (fw b1)) as Hq1. rewrite E1 in Hq1. cbn [fst] in Hq1.
  destruct (law_map_answer _ _ _ _ E1) as (Hm1 & _ & Hd1 & Hs1 & _).
  pose proof (law_map_small (fw b1)) as Hsmall. pose proof law_descriptor_size as Hdpos.
  rewrite Hs1, Hd1. set (size := u64 _). assert (size = Z.of_nat (length (current_map (fw b1))) + map_descriptor_size * 2) as Hsize.
  { apply wrap_small. lia. }
  clearbody size. apply wp_bind, wp_call. cbn [fw ram g_log_file]. intros f2 [st p] E2.
  destruct (law_AllocatePool _ _ _ _ _ E2) as (_ & Hgrow & Hlive). rewrite Hm1 in Hgrow.
  destruct (EFI_ERROR st) eqn:Est.
  { apply wp_ret, HQ; [|congruence]. apply (keeps_fw _ _ b1); [done|]. by transitivity (live f1). }
  destruct Hlive as [(Hp & Hpe & Hfresh) Hlive]. apply wp_bind, wp_call. cbn [fw ram g_log_file]. intros f3 a3 E3.
  pose proof (law_GetMemoryMap size f2) as Hq3. rewrite E3 in Hq3. cbn [fst] in Hq3.
  destruct (law_map_answer _ _ _ _ E3) as (Hm3 & Hk3 & Hd3 & Hs3 & Hok). destruct Hok as (Hst3 & Hkey3 & Hb3); [lia|].
  apply wp_bind, wp_store, wp_ret, HQ; cbn [fw ram].
  - apply (keeps_write X b0 (mkBoot f3 (ram b1) (g_log_file b1))).
    + apply (keeps_fw _ _ b1); [done|]. rewrite Hlive in Hq3. set_solver.
    + intros r Hr HrX. destruct (Hk r Hr HrX) as [Hr1 _]. destruct (Hfresh r (Hq1 _ Hr1)) as [Ha _].
      rewrite Hb3. unfold apart in *. lia.
  - intros _. rewrite Hm3, Hk3, Hb3, Hkey3. split; [|split; [done|]].
    + split_and!; cbn [map_size buffer_size map_buffer descriptor_size]; [apply holds_write|done|lia| |done].
      apply Hq3. rewrite Hlive. left.
    + cbn [map_buffer]. intros r Hr HrX. destruct (Hk r Hr HrX) as [Hr1 _]. by apply Hfresh, Hq1.
Qed.

Lemma keeps_ram X b0 b m lo hi : keeps X b0 b → (∀ a, ¬ lo ≤ a < hi → arr_read m a = arr_read (ram b) a) →
  (∀ r, r ∈ live (fw b0) → fst r ∉ X → apart lo (hi - lo) (fst r) (snd r)) →
  keeps X b0 (mkBoot (fw b) m (g_log_file b)).
Proof.
  intros H Hm Ha r Hr HX. destruct (H r Hr HX) as [H1 H2]. split; [done|]. intros i Hi.
  pose proof (Ha r Hr HX) as Hap. unfold apart in Hap. cbn [ram]. rewrite Hm by lia. by apply H2.
Qed.

Lemma keeps_quiet X b0 b b' : keeps X b0 b → live (fw b) ⊆ live (fw b') → ram b' = ram b → keeps X b0 b'.
Proof. destruct b' as [f m l]. cbn [fw ram]. intros H Hl ->. by apply keeps_fw. Qed.

(** What a fresh range gives for memory that was in use before. *)
Lemma fresh_keeps X b0 b p n l : keeps X b0 b → live (fw b) ⊆ l → fresh p n l →
  ∀ r, r ∈ live (fw b0) → fst r ∉ X → apart p n (fst r) (snd r) ∧ fst r ≠ p.
Proof. intros Hk Hl (_ & _ & Hf) r Hr HX. by apply Hf, Hl, Hk. Qed.

Lemma wp_open_gop i b0 b X (Q : Z → Boot F → Prop) : keeps X b0 b →
  (∀ gop b', keeps X b0 b' → Q gop b') → wp (open_gop i) Q b.
Proof.
  intros Hk HQ. unfold open_gop. apply wp_bind.
  assert (wp (OpenGOP i) (λ _ b', keeps X b0 b') b) as H1.
  { unfold OpenGOP. apply wp_bind, wp_call. intros f [[st hs] p] E. pose proof (law_LocateHandleBuffer gEfiGraphicsOutputProtocolGuid (fw b)) as Hq.
    rewrite E in Hq. cbn [fst] in Hq. pose proof (keeps_fw _ _ _ _ (g_log_file b) Hk Hq) as Hk1.
    destruct (EFI_ERROR st) eqn:Est; [by apply wp_ret|].
    destruct (law_handles _ _ _ _ _ _ E Est) as [Hne Hp]. destruct hs as [|h hs]; [done|].
    apply wp_bind. eapply wp_quietly; [repeat quietly_step|]. intros [st2 gop] b2 Hl2 Hr2.
    pose proof (keeps_quiet _ _ _ _ Hk1 Hl2 Hr2) as Hk2. destruct (EFI_ERROR st2); [by apply wp_ret|].
    apply wp_bind, wp_call. intros f3 st3 E3. apply wp_ret. intros r Hr HrX. destruct (Hk2 r Hr HrX) as [Hrl Hrm].
    split; [|done]. eapply law_FreePool; [exact E3|done|]. apply Hp, Hk; done. }
  eapply wp_mono; [exact H1|]. intros [st gop] b1 Hk1.
  apply wp_bind. eapply wp_quietly; [apply quietly_IfErrorHalt|]. intros _ b2 Hl2 Hr2. pose proof (keeps_quiet _ _ _ _ Hk1 Hl2 Hr2) as Hk2.
  eapply wp_quietly; [repeat quietly_step|]. intros gop' b3 Hl3 Hr3. apply HQ. by eapply keeps_quiet.
Qed.

(** A file is read to a buffer of its own. *)
Lemma wp_ReadFile h b0 b X (Q : Z * Z → Boot F → Prop) : keeps X b0 b → unread (fw b) h = Some kernel →
  (∀ st p b', (EFI_ERROR st = false → keeps X b0 b' ∧ holds (ram b') p kernel ∧ (p, Z.of_nat (length kernel)) ∈ live (fw b') ∧
      fresh p (Z.of_nat (length kernel)) (filter (λ r, fst r ∉ X) (live (fw b0)))) → Q (st, p) b') →
  wp (ReadFile h) Q b.
Proof.
  intros Hk Hu HQ. unfold ReadFile. apply wp_bind, wp_call. intros f1 [st size] E1.
  pose proof (law_GetInfo h (sizeof_EFI_FILE_INFO + 2 * 12) (fw b)) as Hq1. rewrite E1 in Hq1. cbn [fst] in Hq1.
  destruct (EFI_ERROR st) eqn:Est; [apply wp_ret, HQ; congruence|].
  destruct (law_FileSize _ _ _ _ _ _ _ E1 Est Hu) as [-> Hu1]. apply wp_bind, wp_call. cbn [fw ram g_log_file].
  intros f2 [st2 p] E2. destruct (law_AllocatePool _ _ _ _ _ E2) as (Hu2 & _ & Hlive).
  destruct (EFI_ERROR st2) eqn:Est2; [apply wp_ret, HQ; congruence|]. destruct Hlive as [Hfresh Hlive].
  apply wp_bind, wp_call. cbn [fw ram g_log_file]. intros f3 [st3 bytes] E3.
  pose proof (law_Read h (Z.of_nat (length kernel)) f2) as Hq3. rewrite E3 in Hq3. cbn [fst] in Hq3.
  apply wp_bind, wp_store, wp_ret, HQ. cbn [fw ram g_log_file]. intros Est3.
  assert (bytes = kernel) as ->.
  { rewrite (law_Read_bytes _ _ _ _ _ _ kernel E3 Est3) by (by rewrite Hu2). by rewrite Nat2Z.id, firstn_all. }
  pose proof (fresh_keeps X b0 b p _ _ Hk Hq1 Hfresh) as Hap. split_and!.
  - apply (keeps_write X b0 (mkBoot f3 (ram b) (g_log_file b))); [|intros r Hr HrX; by apply Hap].
    apply (keeps_fw _ _ b); [done|]. rewrite Hlive in Hq3. set_solver.
  - apply holds_write.
  - apply Hq3. rewrite Hlive. left.
  - destruct Hfresh as (H1 & H2 & _). split_and!; [done..|]. intros r [HrX Hr]%list_elem_of_filter. by apply Hap.
Qed.

(** ** The volume *)

Definition volume_in (a n : Z) b : Prop :=
  (∃ n', (a, n') ∈ live (fw b) ∧ n ≤ n') ∧ ∀ i, 0 ≤ i < n → arr_read (ram b) (a + i) = disk i.

Lemma volume_in_keeps a n X b b' : volume_in a n b → keeps X b b' → a ∉ X → volume_in a n b'.
Proof.
  intros [(n' & Hl & Hn) Hv] Hk HX. destruct (Hk _ Hl HX) as [Hl' Hm]. split; [by exists n'|]. intros i Hi.
  rewrite Hm by (cbn [fst snd]; lia). by apply Hv.
Qed.

Definition volume_bytes : Z :=
  let n := u64 (BlockSize (Media volume_device) * (LastBlock (Media volume_device) + 1)) in
  if 128 * 1024 * 1024 <? n then 128 * 1024 * 1024 else n.

(** The chunks from [offset] on are read; what was read before stays. *)
Lemma wp_chunk_loop b0 X media total a n : total ≤ n →
  (∀ r, r ∈ live (fw b0) → fst r ∉ X → apart a n (fst r) (snd r)) →
  ∀ fuel offset lba b (Q : Z → Boot F → Prop), total - offset ≤ chunk_size * (Z.of_nat fuel - 1) → (0 < fuel)%nat → 0 ≤ offset →
  (offset < total → lba * BlockSize (Media volume_device) = offset) →
  keeps X b0 b → (a, n) ∈ live (fw b) → (∀ i, 0 ≤ i < offset → i < total → arr_read (ram b) (a + i) = disk i) →
  (∀ st b', (EFI_ERROR st = false → keeps X b0 b' ∧ (a, n) ∈ live (fw b') ∧ ∀ i, 0 ≤ i < total → arr_read (ram b') (a + i) = disk i) → Q st b') →
  wp (chunk_loop fuel volume_device media total a offset lba) Q b.
Proof.
  intros Hn Hap. destruct law_media as [Hbs _]. set (bs := BlockSize (Media volume_device)) in *.
  induction fuel as [|fuel IH]; intros offset lba b Q Hf Hf0 Ho Hlba Hk Hl Hread HQ; [lia|]. cbn [chunk_loop]. unfold chunk_size in *.
  destruct (Z.ltb_spec offset total) as [Hlt|Hge].
  2: { apply wp_ret, HQ. intros _. split_and!; [done..|]. intros i Hi. apply Hread; lia. }
  set (size := if total <? offset + 64 * 1024 then total - offset else 64 * 1024).
  assert (Hsize : 0 ≤ size ∧ offset + size ≤ total ∧ (size = 64 * 1024 ∨ offset + size = total ∧ size < 64 * 1024))
    by (subst size; destruct (Z.ltb_spec total (offset + 64 * 1024)); lia).
  clearbody size. specialize (Hlba Hlt). apply wp_bind, wp_call. intros f [st bytes] E.
  pose proof (law_ReadBlocks volume_device media lba size (fw b)) as Hq. rewrite E in Hq. cbn [fst] in Hq.
  destruct (law_blocks _ _ _ _ _ _ _ E) as [Hlen Hok]; [lia|]. apply wp_bind, wp_store. cbn [fw ram g_log_file].
  destruct (EFI_ERROR st) eqn:Est; [apply wp_ret, HQ; congruence|]. destruct (Hok eq_refl) as [Hbmod Hbytes]. fold bs in Hbmod, Hbytes |- *.
  rewrite (proj2 (Z.eqb_neq bs 0)) by lia. rewrite Hlba in Hbytes.
  assert (Hblen : length bytes = Z.to_nat size) by (by rewrite Hbytes, length_fmap, length_seqZ).
  apply IH; cbn [fw ram]; [lia|lia|lia| | | | |exact HQ].
  - intros Hnext. destruct Hsize as (_ & _ & [->|]); [|lia].
    rewrite Z.mul_add_distr_r, Hlba. f_equal. rewrite Z.mul_comm. symmetry. by apply Z.div_exact; [lia|].
  - apply (keeps_write X b0 (mkBoot f (ram b) (g_log_file b))); [by apply (keeps_fw _ _ b)|].
    intros r Hr HrX. pose proof (Hap r Hr HrX) as Hr'. unfold apart in *. lia.
  - by apply Hq.
  - intros i Hi Hit. rewrite arr_read_write_bytes. case_decide as Hin.
    + rewrite Hbytes. apply list_lookup_total_correct. rewrite list_lookup_fmap, lookup_seqZ_lt by lia. simpl. do 2 f_equal. lia.
    + apply Hread; lia.
Qed.

Lemma wp_load_volume i b0 b X (Q : Z → Boot F → Prop) : keeps X b0 b →
  (∀ a b', keeps X b0 b' → volume_in a volume_bytes b' → (∀ r, r ∈ live (fw b0) → fst r ∉ X → fst r ≠ a) → Q a b') →
  wp (load_volume i) Q b.
Proof.
  intros Hk HQ. unfold load_volume. apply wp_bind.
  assert (Hdev : wp (OpenBlockIoProtocolForLoadedImage i)
    (λ r b', (EFI_ERROR (fst r) = false → snd r = volume_device) ∧ live (fw b) ⊆ live (fw b') ∧ ram b' = ram b) b).
  { unfold OpenBlockIoProtocolForLoadedImage. apply wp_bind. eapply wp_quietly; [apply quietly_call, law_OpenProtocol|].
    intros [st li] b1 Hl1 Hr1. destruct (EFI_ERROR st) eqn:Est; [apply wp_ret; cbn [fst snd]; split; [congruence|done]|].
    apply wp_call. intros f [st2 d] E2. cbn [fst snd fw ram]. split; [eapply law_device; exact E2|]. split; [|done].
    pose proof (law_OpenProtocol (DeviceHandle li) gEfiBlockIoProtocolGuid i EFI_OPEN_PROTOCOL_BY_HANDLE_PROTOCOL (fw b1)) as Hq.
    rewrite E2 in Hq. by transitivity (live (fw b1)). }
  eapply wp_mono; [exact Hdev|]. clear Hdev. intros [st d] b1 (Hd & Hl1 & Hr1). cbn [fst snd] in Hd.
  pose proof (keeps_quiet _ _ _ _ Hk Hl1 Hr1) as Hk1. apply wp_bind, wp_IfErrorHalt. intros Est. rewrite (Hd Est) in *.
  apply wp_bind. eapply wp_quietly; [apply quietly_LogWrite|]. intros _ b2 Hl2 Hr2. pose proof (keeps_quiet _ _ _ _ Hk1 Hl2 Hr2) as Hk2.
  fold volume_bytes. set (pages := (volume_bytes + 4095) / 4096). apply wp_bind, wp_call. intros f3 [st3 a] E3.
  pose proof (law_AllocatePages _ _ _ _ _ _ _ E3) as H3. apply wp_bind, wp_IfErrorHalt. intros Est3. rewrite Est3 in H3.
  destruct H3 as (Hfresh & Hlive3 & _). pose proof (fresh_keeps X b0 b2 a _ _ Hk2 (reflexivity _) Hfresh) as Hap.
  assert (Hvb : 0 ≤ volume_bytes ≤ 4096 * pages).
  { assert (0 ≤ volume_bytes) by (unfold volume_bytes; pose proof (wrap_bound 64 (BlockSize (Media volume_device) * (LastBlock (Media volume_device) + 1)));
      case_match; lia). subst pages. split; [done|]. dlia. }
  clearbody pages. apply wp_bind. unfold ReadBlocksChunked.
  apply (wp_chunk_loop b0 X _ volume_bytes a (4096 * pages)); [lia|intros r Hr HrX; by apply Hap|unfold chunk_size; dlia|lia|lia|lia| | |intros j Hj; lia|].
  - apply (keeps_fw _ _ b2); [done|]. rewrite Hlive3. set_solver.
  - cbn [fw]. rewrite Hlive3. left.
  - intros st4 b4 H4. apply wp_bind, wp_IfErrorHalt. intros Est4. destruct (H4 Est4) as (Hk4 & Hl4 & Hv4). apply wp_ret.
    apply HQ; [done| |intros r Hr HrX; by apply Hap]. split; [|done]. exists (4096 * pages). split; [done|lia].
Qed.
(** ** The kernel *)

Context (phdrs : list Elf64_Phdr) (LD : loadable kernel phdrs).

(** The kernel is in memory, in pages that are in use. *)
Definition kernel_in b : Prop :=
  (∃ n, (first_addr phdrs, n) ∈ live (fw b) ∧ last_addr phdrs ≤ first_addr phdrs + n) ∧
  ∀ p, p ∈ loads phdrs → segment_loaded kernel (ram b) p.

Lemma kernel_in_keeps X b b' : kernel_in b → keeps X b b' → first_addr phdrs ∉ X → kernel_in b'.
Proof using LD.
  intros [(n & Hl & Hn) Hs] Hk HX. destruct (Hk _ Hl HX) as [Hl' Hm]. split; [by exists n|]. intros p Hp k Hkk.
  pose proof (first_addr_le _ _ Hp). pose proof (last_addr_ge _ _ Hp). unfold segment_end in *.
  rewrite Hm by (cbn [fst snd]; lia). by apply Hs.
Qed.

(** The kernel is loaded to pages at its own addresses. *)
Lemma wp_load_kernel d b0 b X (Q : Z → Boot F → Prop) : keeps X b0 b →
  (∀ b', keeps X b0 b' → kernel_in b' → (∀ r, r ∈ live (fw b0) → fst r ∉ X → fst r ≠ first_addr phdrs) →
    Q (first_addr phdrs) b') →
  wp (load_kernel d) Q b.
Proof using LD.
  intros Hk HQ. destruct (load_span _ _ LD) as (Hspan & Hlast). unfold load_kernel. apply wp_bind, wp_call. intros f1 [st h] E1.
  pose proof (law_Open d (chars "\kernel.elf") EFI_FILE_MODE_READ (fw b)) as Hq1. rewrite E1 in Hq1. cbn [fst] in Hq1.
  apply wp_bind, wp_IfErrorHalt. intros Est.
  apply wp_bind. apply (wp_ReadFile h b0 _ X); [by apply (keeps_fw _ _ b)|exact (law_Open_kernel _ _ _ _ _ _ E1 Est)|].
  intros st2 base b2 HR. apply wp_bind, wp_IfErrorHalt. intros Est2. destruct (HR Est2) as (Hk2 & Hhold & Hlive2 & Hpos & Hend & Hfr).
  apply wp_bind, wp_lift. rewrite (CalcLoadAddressRange_file _ _ LD base Hpos Hend _ Hhold).
  apply wp_bind. eapply wp_quietly; [apply quietly_LogWrite|]. intros _ b3 Hl3 Hr3.
  apply wp_bind, wp_call. intros f4 [st4 a] E4.
  assert (u64 (last_addr phdrs - first_addr phdrs + 4095) = last_addr phdrs - first_addr phdrs + 4095) as Hwrap by (apply wrap_small; lia).
  rewrite Hwrap in E4. set (n := (last_addr phdrs - first_addr phdrs + 4095) / 4096) in *.
  assert (Hn : last_addr phdrs - first_addr phdrs ≤ 4096 * n) by (subst n; dlia). clearbody n.
  pose proof (law_AllocatePages _ _ _ _ _ _ _ E4) as H4.
  apply wp_bind, wp_IfErrorHalt. intros Est4. rewrite Est4 in H4. destruct H4 as (Hfresh & Hlive4 & Ha). specialize (Ha eq_refl) as ->.
  assert (Hclear : apart base (Z.of_nat (length kernel)) (first_addr phdrs) (last_addr phdrs - first_addr phdrs) ∧ base ≠ first_addr phdrs).
  { destruct Hfresh as (_ & _ & Hf). destruct (Hf _ (Hl3 _ Hlive2)) as [Hap Hne]. cbn [fst snd] in *. unfold apart in *. lia. }
  destruct Hclear as [Hclear Hne]. cbn [fw ram g_log_file]. apply wp_bind.
  destruct (CopyLoadSegments_spec _ _ LD base Hpos Hend Hclear (ram b2) Hhold) as (m & Hm & Hseg & Hout).
  exists (mkBoot f4 m (g_log_file b3)), (Running tt). split; [unfold modify_ram; cbn [ram]; by rewrite Hr3, Hm|].
  pose proof (keeps_quiet _ _ _ _ Hk2 Hl3 Hr3) as Hk3.
  pose proof (fresh_keeps X b0 b3 _ _ _ Hk3 (reflexivity _) Hfresh) as Hap.
  apply wp_bind, wp_call. cbn [fw ram g_log_file]. intros f5 st5 E5. apply wp_bind, wp_IfErrorHalt. intros _. apply wp_ret.
  assert (Hk5 : keeps X b0 (mkBoot f4 m (g_log_file b3))).
  { apply (keeps_ram X b0 (mkBoot f4 (ram b2) (g_log_file b3)) m (first_addr phdrs) (last_addr phdrs)); [|exact Hout|].
    - rewrite <- Hr3. apply (keeps_fw _ _ b3); [done|]. rewrite Hlive4. set_solver.
    - intros r Hr HrX. destruct (Hap r Hr HrX) as [H5 _]. unfold apart in *. lia. }
  apply HQ.
  - intros r Hr HrX. destruct (Hk5 r Hr HrX) as [H5 H6]. split; [|exact H6].
    eapply law_FreePool; [exact E5|exact H5|]. apply Hfr. apply list_elem_of_filter. done.
  - split; [|exact Hseg]. exists (4096 * n). split; [|lia]. eapply law_FreePool; [exact E5| |by apply not_eq_sym].
    cbn [fw]. rewrite Hlive4. left.
  - intros r Hr HrX. by apply Hap.
Qed.


(** The kernel's ELF header is at the lowest address of the segments. *)
Definition header_first : Prop := ∃ p, p ∈ loads phdrs ∧ p_vaddr p = first_addr phdrs ∧ p_offset p = 0 ∧ 32 ≤ p_filesz p.

Lemma kernel_in_entry b e : kernel_in b → header_first → e_entry kernel = Done e →
  read_number (ram b) (first_addr phdrs + 24) 8 = e.
Proof using LD.
  intros [_ Hs] (p & Hp & <- & Ho & Hf) He. destruct (ld_size _ _ LD p Hp) as (Hm & _). destruct (ld_file _ _ LD p Hp) as (_ & _ & Hlen).
  assert (holds (ram b) (p_vaddr p) (take 32 kernel)) as Hh.
  { intros i x Hi. pose proof (lookup_lt_Some _ _ _ Hi) as Hlt. rewrite length_take in Hlt. rewrite (Hs p Hp) by lia.
    unfold segment_byte. rewrite (proj2 (Z.ltb_lt _ _)) by lia. rewrite Ho. replace (Z.to_nat (0 + Z.of_nat i)) with i by lia.
    apply list_lookup_total_correct. rewrite lookup_take_lt in Hi by lia. done. }
  apply (holds_get _ _ _ _ _ _ Hh); [lia|]. rewrite <- He. unfold e_entry, get.
  rewrite length_take. cbn [andb Z.leb Z.compare]. rewrite !(proj2 (Z.leb_le _ _)) by lia.
  by rewrite skipn_firstn_comm, take_take.
Qed.

(** ** The boot services end with a current map *)

Lemma wp_stop_bootservice i map bytes b (Q : MemoryMap → Boot F → Prop) : map_holds map bytes b →
  (map_key map = current_key (fw b) → bytes = current_map (fw b)) →
  (∀ map' b', keeps [map_buffer map] b b' → map_holds map' (current_map (fw b')) b' → Q map' b') →
  wp (stop_bootservice i map) Q b.
Proof.
  intros Hmap Hkey HQ. unfold stop_bootservice. apply wp_bind, wp_call. intros f st E.
  pose proof (law_Exit i (map_key map) (fw b)) as Hq. rewrite E in Hq. cbn [fst] in Hq.
  set (b1 := mkBoot f (ram b) (g_log_file b)).
  assert (Hk1 : keeps [map_buffer map] b b1) by (apply keeps_fw; [apply keeps_refl|done]).
  destruct (EFI_ERROR st) eqn:Est.
  - apply wp_bind. apply (wp_GetMemoryMap map b b1 _ [map_buffer map]); [done|right; left|].
    intros st2 map2 b2 Hk2 H2. apply wp_bind, wp_IfErrorHalt. intros Est2. destruct (H2 Est2) as (Hm2 & _ & _).
    apply wp_bind, wp_call. intros f3 st3 E3. apply wp_bind, wp_IfErrorHalt. intros Est3. apply wp_ret.
    pose proof (law_Exit i (map_key map2) (fw b2)) as Hq3. rewrite E3 in Hq3. cbn [fst] in Hq3.
    destruct (law_Exit_key _ _ _ _ _ E3 Est3) as [_ Hmap3]. apply HQ; [by apply keeps_fw|]. cbn [fw]. rewrite Hmap3.
    destruct Hm2 as (? & ? & ? & ? & ?). split_and!; [done..| |done]. by apply Hq3.
  - apply wp_ret. destruct (law_Exit_key _ _ _ _ _ E Est) as [Hk Hm]. apply HQ; [done|]. unfold b1. cbn [fw]. rewrite Hm, <- (Hkey Hk).
    destruct Hmap as (? & ? & ? & ? & ?). split_and!; [done..| |done]. by apply Hq.
Qed.

Definition pixel_format_of (gop : Z) : FrameBuffer.PixelFormat :=
  if PixelFormatOf (Mode gop) =? PixelBlueGreenRedReserved8BitPerColor then kPixelBGRResv8BitPerColor else kPixelRGBResv8BitPerColor.

(** What the kernel finds when it is entered. *)
Record handed_over (e : Z) (h : Handoff) b : Prop := {
  ho_entry : entry_addr h = e;
  ho_segments : ∀ p, p ∈ loads phdrs → segment_loaded kernel (ram b) p;
  ho_volume : ∀ i, 0 ≤ i < volume_bytes → arr_read (ram b) (handoff_volume h + i) = disk i;
  ho_map : holds (ram b) (map_buffer (handoff_memmap h)) (current_map (fw b)) ∧
    map_size (handoff_memmap h) = Z.of_nat (length (current_map (fw b))) ∧
    descriptor_size (handoff_memmap h) = map_descriptor_size;
  ho_config : ∃ gop, handoff_config h =
    mkBootConfig (FrameBufferBase (Mode gop)) (PixelsPerScanLine (Mode gop)) (HorizontalResolution (Mode gop))
      (VerticalResolution (Mode gop)) (pixel_format_of gop);
  ho_acpi : match find (λ t, bool_decide (gEfiAcpiTableGuid = fst t)) ConfigurationTable with
            | Some t => handoff_acpi h = snd t
            | None => handoff_acpi h = 0
            end;
}.

Lemma find_acpi_table_find l : find_acpi_table l = from_option snd 0 (find (λ t, bool_decide (gEfiAcpiTableGuid = fst t)) l).
Proof. induction l as [|[g t] l IH]; [done|]. cbn [find_acpi_table find fst]. by case_bool_decide. Qed.

Lemma wp_frame_buffer_config gop (Q : BootConfig → Boot F → Prop) b :
  Q (mkBootConfig (FrameBufferBase (Mode gop)) (PixelsPerScanLine (Mode gop)) (HorizontalResolution (Mode gop))
      (VerticalResolution (Mode gop)) (pixel_format_of gop)) b →
  wp (frame_buffer_config gop) Q b.
Proof using All.
  intros HQ. unfold frame_buffer_config, pixel_format_of in *.
  unfold PixelRedGreenBlueReserved8BitPerColor, PixelBlueGreenRedReserved8BitPerColor in *.
  destruct (Z.eqb_spec (PixelFormatOf (Mode gop)) 0) as [E|E].
  - rewrite E in HQ. by apply wp_ret.
  - destruct (Z.eqb_spec (PixelFormatOf (Mode gop)) 1); [by apply wp_ret|]. apply wp_bind, wp_IfErrorHalt. intros _. by apply wp_ret.
Qed.

Lemma wp_UefiMain i e b : header_first → e_entry kernel = Done e → wp (UefiMain i) (handed_over e) b.
Proof using LD.
  intros Hhdr He. unfold UefiMain.
  apply wp_bind. eapply wp_quietly; [apply quietly_check_cpu_mode|]. intros _ b1 _ _.
  apply wp_bind. eapply wp_quietly; [apply quietly_LogWrite|]. intros _ b2 _ _.
  apply wp_bind. eapply wp_quietly; [apply quietly_call, law_OpenProtocol|]. intros [st li] b3 _ _.
  apply wp_bind, wp_IfErrorHalt. intros _. apply wp_bind. eapply wp_quietly; [apply quietly_LogWrite|]. intros _ b4 _ _.
  apply wp_bind. apply (wp_GetMemoryMap _ b4 b4 _ []); [apply keeps_refl|by left|]. intros st5 map b5 _ H5.
  apply wp_bind, wp_IfErrorHalt. intros Est5. destruct (H5 Est5) as (Hmap & Hkey & _).
  assert (Hd : 0 < descriptor_size map) by (destruct Hmap as (_ & _ & _ & _ & ->); apply law_descriptor_size).
  apply wp_bind. eapply wp_quietly; [apply quietly_OpenRootDir|]. intros [st6 root] b6 Hl6 Hr6. apply wp_bind, wp_IfErrorHalt. intros _.
  apply wp_bind. eapply wp_quietly; [by apply quietly_save_map_file|]. intros _ b7 Hl7 Hr7.
  apply wp_bind. eapply wp_quietly; [apply quietly_start_log|]. intros _ b8 Hl8 Hr8.
  assert (Hk8 : keeps [] b5 b8) by (repeat (eapply keeps_quiet; [|eassumption..]); apply keeps_refl).
  apply wp_bind. apply (wp_open_gop i b5 b8 []); [done|]. intros gop b9 Hk9.
  apply wp_bind. apply (wp_load_kernel root b5 b9 []); [done|]. intros b10 Hk10 Hkern Hne10.
  apply wp_bind. apply (wp_load_volume i b10 b10 []); [apply keeps_refl|]. intros vol b11 Hk11 Hvol Hne11.
  apply wp_bind. eapply wp_quietly; [apply quietly_end_log|]. intros _ b12 Hl12 Hr12.
  assert (Hk12 : keeps [] b10 b12) by (by eapply keeps_quiet).
  pose proof (map_holds_keeps _ _ _ _ _ Hmap (keeps_trans _ _ _ _ Hk10 Hk12) (not_elem_of_nil _)) as Hmap12.
  assert (Hmapl : (map_buffer map, buffer_size map) ∈ live (fw b5)) by apply Hmap.
  apply wp_bind. apply (wp_stop_bootservice i map _ b12 _ Hmap12); [intros Hk'; apply law_key; congruence|].
  intros map' b13 Hk13 Hmap13. apply wp_bind, wp_frame_buffer_config.
  assert (Hk13' : keeps [map_buffer map] b10 b13).
  { eapply keeps_trans; [apply (keeps_weaken []); [exact Hk12|set_solver]|exact Hk13]. }
  assert (Hkern13 : kernel_in b13).
  { eapply kernel_in_keeps; [exact Hkern|exact Hk13'|]. intros E%list_elem_of_singleton. by apply (Hne10 _ Hmapl); [set_solver|]. }
  assert (Hvol13 : volume_in vol volume_bytes b13).
  { apply (volume_in_keeps _ _ [map_buffer map] b11); [done| |].
    - eapply keeps_trans; [|exact Hk13]. apply (keeps_quiet _ _ b11); [apply keeps_refl|done..].
    - intros E%list_elem_of_singleton. apply (Hne11 (map_buffer map, buffer_size map)); [|set_solver|done].
      by apply (Hk10 _ Hmapl), not_elem_of_nil. }
  apply wp_bind. eexists b13, (Running _). split; [done|]. apply wp_ret. split; cbn [entry_addr handoff_volume handoff_memmap handoff_config handoff_acpi].
  - by apply kernel_in_entry.
  - apply Hkern13.
  - apply Hvol13.
  - destruct Hmap13 as (? & ? & _ & _ & ?). done.
  - by exists gop.
  - rewrite find_acpi_table_find. by destruct (find _ _).
Qed.
End boot.

(** C10 boot
    The boot loader [UefiMain], for every firmware that keeps the laws, every kernel
    file whose segments can be loaded with its ELF header at their lowest address,
    and every state: it returns.  Either it halts because the firmware reported an
    error, or it enters the kernel at the file's entry point with: every LOAD segment
    at its address, followed by zeros to its size in memory; the first bytes of the
    boot device, at most 128 MiB; the memory map that is current when the boot
    services end, although memory was allocated after the first map was taken; the
    frame buffer of the graphics mode; and the ACPI table. *)
Theorem UefiMain_hands_over {F} `{FW : Firmware F} kernel disk {FL : FirmwareLaws kernel disk} phdrs e image_handle (b : Boot F) :
  loadable kernel phdrs → header_first phdrs → e_entry kernel = Done e →
  ∃ b' r, UefiMain image_handle b = Done (b', r) ∧
    match r with
    | Halted _ st => EFI_ERROR st = true
    | Running h => handed_over (kernel := kernel) (disk := disk) phdrs e h b'
    end.
Proof. intros LD Hhdr He. exact (wp_UefiMain phdrs LD image_handle e b Hhdr He). Qed.

(** ** A firmware that keeps the laws *)
Module Toy.

(** Live memory, the next address to hand out, and the key of the map. *)
Record toy : Type := mkToy { t_live : list (Z * Z); t_next : Z; t_key : Z }.

Definition le (n : nat) (v : Z) : list Z := (λ i, v / 256 ^ i mod 256) <$> seqZ 0 (Z.of_nat n).

Definition phdr_bytes (p : Elf64_Phdr) : list Z :=
  le 4 (p_type p) ++ le 4 (p_flags p) ++ le 8 (p_offset p) ++ le 8 (p_vaddr p) ++ le 8 (p_paddr p) ++
  le 8 (p_filesz p) ++ le 8 (p_memsz p) ++ le 8 (p_align p).

(** A file with a note and two segments, the second with zeros behind its bytes. *)
Definition toy_phdrs : list Elf64_Phdr :=
  [mkPhdr 1 4 0 0x100000 0x100000 232 232 4096; mkPhdr 4 4 0 0 0 0 0 0; mkPhdr 1 6 232 0x101000 0x101000 8 24 4096].

Definition toy_kernel : list Z :=
  [0x7f; 0x45; 0x4c; 0x46; 2; 1; 1; 0] ++ le 8 0 ++ le 2 2 ++ le 2 62 ++ le 4 1 ++ le 8 0x100080 ++ le 8 64 ++ le 8 0 ++
  le 4 0 ++ le 2 64 ++ le 2 56 ++ le 2 3 ++ le 2 0 ++ le 2 0 ++ le 2 0 ++ (toy_phdrs ≫= phdr_bytes) ++ [1; 2; 3; 4; 5; 6; 7; 8].

Definition toy_disk (i : Z) : Z := (i / 512 + i) mod 256.

Fixpoint disk_from (k : nat) (i : Z) : list Z :=
  match k with O => [] | S k => toy_disk i :: disk_from k (i + 1) end.

Lemma disk_from_seqZ k : ∀ i, disk_from k i = toy_disk <$> seqZ i (Z.of_nat k).
Proof.
  induction k as [|k IH]; intros i; [done|]. cbn [disk_from]. rewrite seqZ_cons, IH by lia. rewrite fmap_cons. do 3 f_equal; lia.
Qed.

Definition error : Z := 2 ^ 63 + 14.

#[local] Instance fresh_dec p n l : Decision (fresh p n l).
Proof.
  refine (cast_if (decide ((0 < p ∧ p + n < 2 ^ 64) ∧ Forall (λ r, (p + n ≤ fst r ∨ fst r + snd r ≤ p) ∧ fst r ≠ p) l)));
  unfold fresh, apart; rewrite Forall_forall in *; tauto.
Defined.

Definition toy_alloc (p n : Z) (f : toy) : toy * (Z * Z) :=
  if decide (fresh p n (t_live f))
  then (mkToy ((p, n) :: t_live f) (p + n + 4096) (t_key f + 1), (0, p)) else (f, (error, 0)).

Definition toy_map (f : toy) : list Z := t_key f :: replicate 47 0.

Definition toy_answer (n : Z) (f : toy) : MapAnswer :=
  if 48 <=? n then mkAnswer 0 48 (t_key f) 48 1 (toy_map f) else mkAnswer (2 ^ 63 + 5) 48 0 48 1 [].

#[local] Instance toy_firmware : Firmware toy := {
  bs_AllocatePool n f := toy_alloc (t_next f) n f;
  bs_FreePool p f := (mkToy (filter (λ r, fst r ≠ p) (t_live f)) (t_next f) (t_key f + 1), 0);
  bs_AllocatePages k n a f := toy_alloc (match k with AllocateAddress => a | AllocateAnyPages => t_next f end) (4096 * n) f;
  bs_GetMemoryMap n f := (f, toy_answer n f);
  bs_ExitBootServices _ k f := (f, if k =? t_key f then 0 else error);
  bs_OpenProtocol h g a k f := (f, (0, 5));
  bs_LocateHandleBuffer g f := (f, (0, [7], 1 + foldr (λ r, Z.max (fst r)) 0 (t_live f)));
  OpenVolume h f := (f, (0, 6));
  File_Open d n m f := (f, (0, if bool_decide (n = chars "\kernel.elf") then 3 else 4));
  File_GetInfo h n f := (f, (0, if h =? 3 then Z.of_nat (length toy_kernel) else 0));
  File_Read h n f := (f, (0, if h =? 3 then take (Z.to_nat n) toy_kernel else []));
  File_Write h l f := (f, 0);
  File_Flush h f := (f, 0);
  File_Close h f := (f, 0);
  Block_ReadBlocks d m l n f := (f, if (0 <=? n) && (n mod 512 =? 0) then (0, disk_from (Z.to_nat n) (l * 512)) else (error, []));
  Print s f := f;
  SPrint n s args := s;
  DeviceHandle h := h;
  ImageBase h := h;
  Mode g := mkMode 0x80000000 1920000 800 600 1 800;
  Media d := mkMedia 1 1 1 512 0 128;
  ConfigurationTable := [(OtherGuid 1, 0x7000); (gEfiAcpiTableGuid, 0x8000); (gEfiAcpiTableGuid, 0x9000)];
  cpu_cr0 := 0x80010033; cpu_cr4 := 0x668; cpu_efer := 0xd00;
}.

Lemma toy_alloc_spec p n f f' st q : toy_alloc p n f = (f', (st, q)) →
  if EFI_ERROR st then t_live f ⊆ t_live f' else fresh q n (t_live f) ∧ t_live f' = (q, n) :: t_live f ∧ q = p.
Proof. unfold toy_alloc. case_decide; intros [= <- <- <-]; [done|]. change (EFI_ERROR error) with true. by intros r. Qed.

#[local] Instance toy_laws : FirmwareLaws toy_kernel toy_disk.
Proof.
  apply (Build_FirmwareLaws toy_kernel toy_disk t_live toy_map t_key 48 (λ f h, if h =? 3 then Some toy_kernel else None) 5).
  all: try (intros; by intros ?).
  - intros n f f' st p H%toy_alloc_spec. split_and!; [done|simpl; lia|]. by destruct (EFI_ERROR st); [|destruct H as (? & ? & _)].
  - intros k n a f f' st p H%toy_alloc_spec. destruct (EFI_ERROR st); [done|]. destruct H as (? & ? & ->). split_and!; [done..|by intros ->].
  - intros p f f' st r [= <- _] Hr Hp. by apply list_elem_of_filter.
  - intros g f f' st hs p [= <- <- <- <-] _. split; [done|]. intros r Hr. enough (fst r ≤ foldr (λ r, Z.max (fst r)) 0 (t_live f)) by lia.
    induction Hr as [|? ? ? ? IH]; cbn [foldr]; lia.
  - done.
  - simpl. lia.
  - intros n f f' a [= <- <-]. unfold toy_answer. destruct (Z.leb_spec 48 n); split_and!; try done. simpl. lia.
  - intros f f' E. unfold toy_map. by rewrite E.
  - intros i k f f' st [= <- <-]. destruct (Z.eqb_spec k (t_key f)); [done|]. by change (EFI_ERROR error) with true.
  - intros d m f f' st h [= <- <- <-] _. done.
  - intros h n f f' st size l [= <- <- <-] _. destruct (h =? 3); [|done]. by intros [= <-].
  - intros h n f f' st bytes l [= <- <- <-] _. destruct (h =? 3); [|done]. by intros [= <-].
  - intros h a k f f' st d [= <- <- <-]. done.
  - done.
  - intros m l n f f' st bytes [= <- H] Hn. destruct (Z.leb_spec 0 n); [|lia]. destruct (Z.eqb_spec (n mod 512) 0); cbn [andb] in H; injection H as <- <-.
    + rewrite disk_from_seqZ, Z2Nat.id, length_fmap, length_seqZ by done. split; [lia|done].
    + split; [done|]. by change (EFI_ERROR error) with true.
Defined.

Definition toy_boot : Boot toy := mkBoot (mkToy [(0x200000, 0x1000)] 0x300000 1) ∅ None.

Lemma toy_loadable : loadable toy_kernel toy_phdrs.
Proof.
  split.
  - vm_compute. repeat constructor; done.
  - done.
  - intros i p Hi. destruct i as [|[|[|i]]]; [injection Hi as <-; vm_compute; reflexivity..|done].
  - done.
  - intros p [Ht Hp]%list_elem_of_filter. repeat (apply elem_of_cons in Hp as [->|Hp]; [try done; vm_compute; done|]). by apply not_elem_of_nil in Hp.
  - intros p [Ht Hp]%list_elem_of_filter. repeat (apply elem_of_cons in Hp as [->|Hp]; [try done; vm_compute; done|]). by apply not_elem_of_nil in Hp.
  - intros i j p q Hi Hj Hij. destruct i as [|[|[|i]]], j as [|[|[|j]]]; try done; injection Hi as <-; injection Hj as <-; unfold apart; cbn; lia.
Qed.

Lemma toy_runs : match UefiMain 1 toy_boot with Done (_, Running _) => true | _ => false end = true.
Proof. vm_compute. reflexivity. Qed.
End Toy.

Import Toy.
Existing Instances toy_firmware toy_laws.

(** A device of 129 blocks, so two chunks; the firmware ends up refusing the first key. *)
Lemma UefiMain_hands_over_witness :
  loadable toy_kernel toy_phdrs ∧ header_first toy_phdrs ∧ e_entry toy_kernel = Done 0x100080 ∧
  ∃ b' h, UefiMain 1 toy_boot = Done (b', Running h) ∧ handed_over (kernel := toy_kernel) (disk := toy_disk) toy_phdrs 0x100080 h b'.
Proof.
  pose proof toy_loadable as HL.
  assert (Hh : header_first toy_phdrs) by (exists (mkPhdr 1 4 0 0x100000 0x100000 232 232 4096); split; [left|done]).
  assert (He : e_entry toy_kernel = Done 0x100080) by (vm_compute; reflexivity).
  split_and!; [done..|]. pose proof toy_runs as Hr.
  destruct (UefiMain_hands_over toy_kernel toy_disk toy_phdrs 0x100080 1 toy_boot HL Hh He) as (b' & r & E & H).
  rewrite E in Hr. destruct r as [h|]; [|discriminate Hr]. exists b', h. split; [exact E|exact H].
Defined.
